(* ===== verification/_CoqProject ===== *)
-Q . S2P
Prelude.v
Js.v
Codec.v
JsNumber.v
Regex.v
Contracts.v
Security.v
Calendar.v
Services.v
RiskTypes.v
RiskEngine.v
LedgerDb.v
Idempotency.v
Journal.v
JournalProofs.v
JournalProperties.v
Accounts.v
CustomerTransfer.v
LedgerReconciliation.v
LedgerSystem.v
Transactions.v
Fixtures.v
LedgerWitnesses.v
PaymentsDb.v
Peers.v
PaymentTransfers.v
PaymentsInv.v
PaymentsReconciliation.v
PaymentProofs.v
PaymentSettlement.v
PaymentWitnesses.v
QrPayments.v
ChannelRefusals.v
QrProofs.v
AgentCash.v
Ussd.v
ChannelWitnesses.v
RiskDb.v
RiskService.v
RiskProofs.v
RiskProperties.v
RiskOperators.v
RiskNetwork.v
RiskWitnesses.v
IdentityDb.v
Identity.v
IdentityFlows.v
IdentityHttp.v
IdentityProperties.v
IdentitySecurity.v
IdentityWitnesses.v
SabclWire.v
SabclCrypto.v
SabclServices.v
SabclWireProofs.v
SabclSealProofs.v
SabclProperties.v
SabclNetwork.v
SabclWitnesses.v
ResilienceDb.v
Resilience.v
ResilienceProofs.v
BackupCrypto.v
ResilienceWitnesses.v
Schemas.v
WireContracts.v
GatewayHttp.v
Gateway.v
GatewayRoutes.v
GatewayServer.v
GatewayProofs.v
GatewayProperties.v
GatewayWitnesses.v
Settings.v
Deployment.v
SabclSettings.v
SabclStatus.v
LedgerHttp.v
WalletReads.v
DeploymentWitnesses.v
