(* ===== verification/Prelude.v ===== *)
(** * AEGIS Shield: a verification development

    AEGIS Shield is a payment platform of TypeScript services: a gateway for
    browsers ([apps/api-gateway]), the services behind it ([services/identity],
    [ledger], [payments], [risk], [resilience], [sabcl-router]) and the packages
    they share ([packages/contracts], [packages/sabcl]). This library models
    them as functions on their stores and proves what they promise. Paths below
    are relative to [src/].

    ** The parts and how they interact

    A browser speaks to the gateway only. The gateway asks Identity whose
    session a cookie names, Risk whether an operation may go on, and sends the
    customer's request to Ledger or Payments, directly or sealed in a SABCL
    message that a router forwards without reading. Payments keeps transfers
    and settles them by commands to the Ledger, which keeps the accounts and a
    double-entry journal; Payments and the gateway consult Risk, Risk revokes
    sessions in Identity, every service sends Risk its security events.
    Resilience keeps the record of recovery drills and backups.

    ** Shared layers

    - [Prelude]: results, the state and exception monad [M] with its Hoare
      triples and tactics, rows of tables, sums, 64-bit integers;
    - [Js], [JsNumber], [Codec], [Regex], [Calendar]: the JavaScript the sources
      use: BigInt text, insertion-ordered maps, IEEE doubles, JSON text and its
      parser, base64url, regular expressions by derivatives, days;
    - [Contracts], [RiskTypes], [Schemas], [WireContracts]: packages/contracts.
      [Schemas] has the combinators of the schema library as functions from JSON
      to JSON and proves that what a schema returns is a document it accepts
      unchanged;
    - [Security]: the hashing and money helpers of the services;
    - [Services]: Redis, and requests of a service among other requests (below).

    ** Components

    - Ledger (services/ledger/src). [LedgerDb]: tables, constraints and
      triggers of prisma/, one definition per statement, and the invariant.
      [Idempotency]: idempotency.service.ts. [Journal],
      [JournalProofs], [JournalProperties]: journal.service.ts. [Accounts]:
      accounts/. [CustomerTransfer]:
      transfers/ and channels/. [LedgerReconciliation]: reconciliation/.
      [Transactions]: transactions/. [LedgerSystem]: all requests in any order.
      [LedgerHttp]: the controllers, common/http/ and the guard as one HTTP
      server ([ledger_serve]), from JSON requests to JSON answers.
    - Payments (services/payments/src). [PaymentsDb]: tables and helpers.
      [Peers]: ledger.client.ts, risk.client.ts as the class [Peers], and its
      instance that runs the whole Ledger behind a network that loses requests
      and replies. [PaymentTransfers]: transfers.service.ts. [PaymentsInv],
      [PaymentProofs], [PaymentSettlement]: its invariant, histories of
      concurrent requests, and what a status says about the money.
      [PaymentsReconciliation]: reconciliation/. [QrPayments],
      [QrProofs]: qr/. [AgentCash]: agent/. [Ussd]: ussd/. [ChannelRefusals]:
      commands the Ledger refuses.
    - Risk (services/risk/src). [RiskEngine]: risk-engine.ts. [RiskDb]: tables
      and velocity counters. [RiskService], [RiskProofs], [RiskProperties]:
      assessments/, events/, controls/, incidents/, retention/,
      reconciliation/. [RiskOperators]: operators/ and the
      internal endpoints. [RiskNetwork]: Payments, Ledger and Risk joined.
    - Identity (services/identity/src). [IdentityDb]: tables and Redis.
      [Identity]: events, codes, sessions, PINs. [IdentityFlows]: onboarding/,
      fallback/, step-up/, passkeys/. [IdentityHttp]: the controllers.
      [IdentityProperties], [IdentitySecurity]: the invariant,
      histories, and what codes, PINs and sessions withstand.
    - SABCL (packages/sabcl/src, services/sabcl-router/src and the sabcl/
      folders of the services). [SabclWire], [SabclWireProofs]: the encodings of
      protocol/. [SabclCrypto], [SabclSealProofs]: crypto/, seal.ts,
      route-token.ts. [SabclServices], [SabclProperties]: replay stores,
      recipient, router, client, catalogue. [SabclNetwork]: the parties joined
      over a network.
    - Resilience (services/resilience/src; packages/contracts/src/resilience).
      [ResilienceDb], [Resilience], [ResilienceProofs]: drills, their evidence,
      reconciliation, readiness. [BackupCrypto]: the files of backups.
    - Gateway (apps/api-gateway/src). [GatewayHttp]: cookies, CSRF, rate
      windows, error filter. [Gateway]: the clients of the services.
      [GatewayRoutes]: the controllers. [GatewayServer]: routes, middleware and
      the answer of one request. [GatewayProofs], [GatewayProperties]: traces of
      calls and the guarantees. [WalletReads]: the gateway joined with the server
      of [LedgerHttp] over a network that loses requests and replies.
    - Start-up. [Settings]: what each service makes of its environment variables,
      and the internal-token guards. [Deployment]: the services that start from
      one environment. [SabclSettings]: the parties of SABCL that start from it.
      [SabclStatus]: what operators see of them.
    - [Fixtures] and the files named [...Witnesses] evaluate the definitions on
      small concrete deployments, at which the theorems' hypotheses hold.

    ** How code is modelled

    A service method is a computation [M S E A]: state in, a value or a thrown
    error and the state out; an error keeps the updates made before it, and only
    [transaction] undoes them. A request of a service alternates statements or
    transactions ([atomic]) with calls ([remote]); before each of its statements
    the schedule [sothers] lets other requests of the service run, so a check
    and the write that relies on it are apart exactly where the code has them
    apart. Theorems about histories assume of the other requests what they prove
    of each ([triple_atomic] and the lemmas built on it). One assumes more: that
    Payments keeps a customer within the daily limit is proved when no request
    that runs in between fails a transfer ([keeps_live] in [harmless]), although
    the service's own [settle] fails transfers; without this the rest of its
    invariant holds ([PaymentsCore], [keeps_core]) and the limit does not
    ([limit_exceeded_by_revival]). Theorems on attempts, drills and single
    requests say that requests come one after another. The network is a list
    of faults per exchange, or a reply that may be missing; a timeout is a reply
    that does not come.

    Amounts are [Z] with the 64-bit bounds of BIGINT columns checked where the
    database checks them; JavaScript numbers that may be fractional are doubles
    of [JsNumber]. Tables are maps or lists of rows, every constraint of the
    migrations that refuses a statement is in the statement. JSON values keep
    the order of their members.

    Fuel occurs in five places: digits of a number ([Js.digits_fuel], one more than the binary logarithm:
    [digits_fuel_enough]); the JSON parser ([Codec], one more than twice the
    length of the text: the round trip of [text]); the issue list of Payments
    (fifty, the cap of the list: [add_loop_spec]); the pages of a history
    ([Transactions.pages_complete], one per transaction and at least one); the digits of a large
    double ([JsNumber.shortest]: seventeen digits tell all doubles apart, and
    after them the value itself is taken, which reads back as itself). All other
    recursion is structural.

    ** What the theorems show

    - Ledger: every reachable state is balanced, its projections are the sums of
      the postings and no wallet is overdrawn; a posting or transfer has its
      exact effect or none; a key is executed once and replayed; the database's
      own triggers never refuse what the service writes; a passed reconciliation
      proves the books, and consistent books pass; pages of a history are
      complete; over HTTP every refusal is one of a closed list, shows nothing
      of the request or the database and changes nothing.
    - Payments: on a fresh key COMPLETED means that exactly the amount moved,
      FAILED that nothing did, PROCESSING that one or the other happened, over
      any network; over concurrent histories no consumed intent is without its
      transfer and no completed one without the Ledger's identifiers, and limits
      hold while nobody fails a transfer that is being settled; reconciliation's verdict is the one its counts define;
      previews of QR codes and agent operations are guarded; the USSD menu
      refines its state machine.
    - Risk: scores are monotone; histories keep controls, audits and incidents
      consistent; a held customer cannot pay; operators' actions are authorised
      and, but for the logout, audited.
    - Identity: of attempts one after another a code takes a bounded number and
      wrong PINs lock the account; a session lives while it is used and ends when it must, and a PIN
      once set is never replaced.
    - SABCL: a permitted call of bounded size between parties that start from one
      environment answers what the service answers, or one error when the network loses a message; in
      production their keys are no placeholders and no test keys; a recipient dispatches only fresh, authentic messages whose request
      its catalogue admits, and each at most once; every outcome is a document of
      the protocol.
    - Resilience: the record of a drill follows its state machine while requests
      come one after another, the verdict on the newest 500 is the one their
      records define, a backup file decrypts to what was
      encrypted.
    - Gateway: a transfer is confirmed only after the session, controls, PIN and
      risk decision allowed it; calls of a request that name a customer name the
      one of its session; a mutation needs its CSRF token; in strict mode nothing goes
      around SABCL; answers keep to their contracts; budgets of requests hold; a
      balance it shows is the sum of the postings of an account that belongs to
      the session's customer.
    - Start-up: in production no credential that any service uses is a local
      placeholder, but for the database URL of Risk, which nothing checks; every
      plain call of the gateway, and every call that a recipient of SABCL makes
      for it, carries the credential that the service it goes to, started from
      the same environment, accepts; the limits
      that the theorems on Payments assume are those it starts with.

    Where the code does not do what it means to, the deviation is a theorem
    too: a transfer reported as failed though the money moved, QR and agent
    operations that never complete, a USSD amount that loses a cent, one code
    verified twice, a daily limit exceeded when a failed transfer is completed
    after all, an expired QR code that is previewed, a logout without an audit,
    drills that pass without evidence or too old to be looked at, channels without rate
    limits, a shared Redis prefix that turns every call into a replay, test keys
    that strict mode accepts, channel operations that fail on a correlation
    header which transfers replace, and others.

    ** Parameters

    Code that is not in the repository is an argument: SHA-256 and HMAC
    ([Crypto], [Hmac]), the primitives of node:crypto with the laws of
    encryption and key agreement ([SabclPrimitives]), URL parsing ([Urls],
    [ZodUrl]),
    Argon2 ([Argon2]), WebAuthn ([WebAuthn]), the uuid and date-time checks of
    the schema library ([Zod]), uuid columns, generated identifiers and the
    constraint names of the database client ([Postgres]), the order of rows of
    an unordered query ([RowOrder]), the matching of route patterns
    ([LedgerRouting] for the Ledger's). Theorems
    assume of them only what they state as hypotheses, and the witnesses
    instantiate all of them with functions.

    ** Simplifications

    Strings are their UTF-8 bytes, so a length bound of a schema counts bytes;
    a number in a JSON text is an integer; letters are folded in ASCII and white
    space is ASCII's; the environment of a process is the map of its variables
    after .env was read;
    the clock is read once per request; random values are arguments. Log lines,
    durations in audits and the dummy Argon2 verification, which only takes
    time, are left out. Transactions are atomic steps: serialisation failures
    and the retries they cause are conflicts the statements report, not
    interleavings within a transaction.

    ** Not modelled

    - The controllers of Payments, which only parse a body and call a modelled
      method, and the filters of Payments, Identity and Resilience that render
      errors (the Ledger's is in [LedgerHttp], Risk's in [RiskNetwork]).
    - Database and Redis connections, dependency injection, health probes of
      databases.
    - The scripts that run pg_dump, docker and processes, and the web
      application, which renders what the gateway answers.
    - The in-memory replay store, which only tests use. *)

From stdpp Require Import base gmap strings list fin_maps sorting.
From Stdlib Require Import ZArith Lia.

#[export] Set Warnings "-clear-no-such-hyp,-register-all".

(** ** Results: a value or a thrown error *)

Inductive result (E A : Type) : Type :=
| Ok (a : A)
| Err (e : E).
Arguments Ok {E A} a.
Arguments Err {E A} e.

#[export] Instance result_ret E : MRet (result E) := fun A a => Ok a.
#[export] Instance result_bind E : MBind (result E) :=
  fun A B k r => match r with Ok a => k a | Err e => Err e end.

Definition is_ok {E A} (r : result E A) : bool :=
  match r with Ok _ => true | Err _ => false end.

(** ** State and exceptions

    JavaScript code that updates a store and throws: a computation returns its
    result and the state it leaves, and a [throw] keeps the updates made before
    it. [transaction] is the only construct that undoes updates. *)

Definition M (S E A : Type) : Type := S -> result E A * S.

#[export] Instance M_ret S E : MRet (M S E) := fun A a s => (Ok a, s).
#[export] Instance M_bind S E : MBind (M S E) :=
  fun A B k m s =>
    match m s with
    | (Ok a, s') => k a s'
    | (Err e, s') => (Err e, s')
    end.

Section Monad.
Context {S E : Type}.

Definition throw {A} (e : E) : M S E A := fun s => (Err e, s).
Definition get : M S E S := fun s => (Ok s, s).
Definition gets {A} (f : S -> A) : M S E A := fun s => (Ok (f s), s).
Definition modify (f : S -> S) : M S E unit := fun s => (Ok tt, f s).
Definition lift_result {A} (r : result E A) : M S E A := fun s => (r, s).
Definition try_catch {A} (m : M S E A) (h : E -> M S E A) : M S E A :=
  fun s => match m s with
           | (Ok a, s') => (Ok a, s')
           | (Err e, s') => h e s'
           end.
(** [if (b) throw e;] *)
Definition throw_when (b : bool) (e : E) : M S E unit :=
  if b then throw e else mret tt.
(** [if (!o) throw e;] *)
Definition require {A} (o : option A) (e : E) : M S E A :=
  match o with Some a => mret a | None => throw e end.

(** A database transaction: on an error every update is rolled back; [commit]
    stands for the checks deferred to the commit. *)
Definition transaction {A} (commit : S -> S -> option E) (m : M S E A) : M S E A :=
  fun s => match m s with
           | (Ok a, s') => match commit s s' with
                           | None => (Ok a, s')
                           | Some e => (Err e, s)
                           end
           | (Err e, _) => (Err e, s)
           end.

Fixpoint for_each {A B} (f : A -> M S E B) (l : list A) : M S E (list B) :=
  match l with
  | [] => mret []
  | x :: xs => y ← f x; ys ← for_each f xs; mret (y :: ys)
  end.
End Monad.
Create HintDb monad.
#[export] Hint Unfold throw get gets modify lift_result throw_when require : monad.

(** ** Hoare triples for the monad

    [triple P m Q R]: from a state satisfying [P], [m] ends in [Q] when it
    returns and in [R] when it throws. *)
Section Triples.
Context {S E : Type}.
Implicit Types P : S -> Prop.

Definition triple {A} P (m : M S E A) (Q : A -> S -> Prop) (R : E -> S -> Prop) : Prop :=
  forall s, P s -> match m s with (Ok a, s') => Q a s' | (Err e, s') => R e s' end.

(** [m] keeps [P] whether it returns or throws. *)
Definition preserves {A} P (m : M S E A) : Prop :=
  triple P m (fun _ => P) (fun _ => P).

Lemma triple_ret A P (a : A) (Q : A -> S -> Prop) R :
  (forall s, P s -> Q a s) -> triple P (mret a) Q R.
Proof. intros H s Hs. by apply H. Qed.

Lemma triple_throw A P (e : E) (Q : A -> S -> Prop) R :
  (forall s, P s -> R e s) -> triple P (throw e) Q R.
Proof. intros H s Hs. by apply H. Qed.

Lemma triple_bind A B P (m : M S E A) (k : A -> M S E B) Q1 Q R :
  triple P m Q1 R -> (forall a, triple (Q1 a) (k a) Q R) -> triple P (m ≫= k) Q R.
Proof.
  intros Hm Hk s Hs. specialize (Hm s Hs). unfold mbind, M_bind.
  destruct (m s) as [[a|e] s']; [by apply Hk|done].
Qed.

Lemma triple_conseq A P P' (m : M S E A) (Q Q' : A -> S -> Prop) (R R' : E -> S -> Prop) :
  triple P' m Q' R' -> (forall s, P s -> P' s) ->
  (forall a s, Q' a s -> Q a s) -> (forall e s, R' e s -> R e s) -> triple P m Q R.
Proof.
  intros Hm HP HQ HR s Hs. specialize (Hm s (HP s Hs)).
  destruct (m s) as [[a|e] s']; auto.
Qed.

Lemma triple_catch A P (m : M S E A) h Q R R' :
  triple P m Q R' -> (forall e, triple (R' e) (h e) Q R) -> triple P (try_catch m h) Q R.
Proof.
  intros Hm Hh s Hs. specialize (Hm s Hs). unfold try_catch.
  destruct (m s) as [[a|e] s']; [done|by apply Hh].
Qed.

Lemma preserves_ret A P (a : A) : preserves P (mret a).
Proof. by apply triple_ret. Qed.
Lemma preserves_throw A P e : preserves P (throw (A:=A) e).
Proof. by apply triple_throw. Qed.
Lemma preserves_gets A P (f : S -> A) : preserves P (gets f).
Proof. by intros s Hs. Qed.
Lemma preserves_lift A P (r : result E A) : preserves P (lift_result r).
Proof. intros s Hs. by destruct r. Qed.
Lemma preserves_throw_when P b e : preserves P (throw_when b e).
Proof. destruct b; [apply preserves_throw|apply preserves_ret]. Qed.
Lemma preserves_require A P (o : option A) e : preserves P (require o e).
Proof. destruct o; [apply preserves_ret|apply preserves_throw]. Qed.
Lemma preserves_bind A B P (m : M S E A) (k : A -> M S E B) :
  preserves P m -> (forall a, preserves P (k a)) -> preserves P (m ≫= k).
Proof. intros Hm Hk. by eapply triple_bind; [apply Hm|intros a; apply Hk]. Qed.
Lemma preserves_catch A P (m : M S E A) h :
  preserves P m -> (forall e, preserves P (h e)) -> preserves P (try_catch m h).
Proof. intros Hm Hh. by eapply triple_catch; [apply Hm|intros e; apply Hh]. Qed.
Lemma preserves_for_each A B P (f : A -> M S E B) l :
  (forall x, preserves P (f x)) -> preserves P (for_each f l).
Proof.
  intros Hf. induction l as [|x l IH]; simpl; [apply preserves_ret|].
  apply preserves_bind; [done|intros y].
  apply preserves_bind; [done|intros ys; apply preserves_ret].
Qed.

(** Inversion of a successful or failed sequence. *)
Lemma bind_Ok_inv A B (m : M S E A) (k : A -> M S E B) s b s' :
  (m ≫= k) s = (Ok b, s') -> exists a s1, m s = (Ok a, s1) /\ k a s1 = (Ok b, s').
Proof.
  unfold mbind, M_bind. destruct (m s) as [[a|e] s1]; [eauto|discriminate].
Qed.
Lemma bind_Err_inv A B (m : M S E A) (k : A -> M S E B) s e s' :
  (m ≫= k) s = (Err e, s') ->
  m s = (Err e, s') \/ exists a s1, m s = (Ok a, s1) /\ k a s1 = (Err e, s').
Proof.
  unfold mbind, M_bind. destruct (m s) as [[a|e0] s1]; [eauto|].
  intros [= -> ->]. by left.
Qed.
Lemma bind_Ok A B (m : M S E A) (k : A -> M S E B) s a s1 :
  m s = (Ok a, s1) -> (m ≫= k) s = k a s1.
Proof. intros H. unfold mbind, M_bind. by rewrite H. Qed.
Lemma bind_Err A B (m : M S E A) (k : A -> M S E B) s e s1 :
  m s = (Err e, s1) -> (m ≫= k) s = (Err e, s1).
Proof. intros H. unfold mbind, M_bind. by rewrite H. Qed.

(** The checks leave the state alone. *)
Lemma throw_when_state b (e : E) (s : S) r s' : throw_when b e s = (r, s') -> s' = s.
Proof. destruct b; by intros [= _ <-]. Qed.
Lemma require_state A (o : option A) (e : E) (s : S) r s' : require o e s = (r, s') -> s' = s.
Proof. destruct o; by intros [= _ <-]. Qed.
Lemma lift_result_state A (x : result E A) (s : S) r s' : lift_result x s = (r, s') -> s' = s.
Proof. by intros [= _ <-]. Qed.

Lemma transaction_err A commit (m : M S E A) s e s' :
  transaction commit m s = (Err e, s') -> s' = s.
Proof.
  unfold transaction. destruct (m s) as [[a|e0] s1]; [|by intros [= _ <-]].
  destruct (commit s s1); [by intros [= _ <-]|discriminate].
Qed.
Lemma transaction_Ok_inv A commit (m : M S E A) s a s' :
  transaction commit m s = (Ok a, s') -> m s = (Ok a, s') /\ commit s s' = None.
Proof.
  unfold transaction. destruct (m s) as [[a0|e0] s1]; [|discriminate].
  destruct (commit s s1) eqn:Hc; [discriminate|]. by intros [= -> ->].
Qed.
Lemma preserves_transaction A P commit (m : M S E A) :
  (forall s a s', P s -> m s = (Ok a, s') -> commit s s' = None -> P s') ->
  preserves P (transaction commit m).
Proof.
  intros H s Hs. destruct (transaction commit m s) as [[a|e] s'] eqn:Ht.
  - apply transaction_Ok_inv in Ht as [? ?]. eauto.
  - by rewrite (transaction_err _ _ _ _ _ _ Ht).
Qed.
End Triples.
Create HintDb preserve.
#[export] Hint Resolve preserves_ret preserves_throw preserves_gets preserves_lift
  preserves_throw_when preserves_require : preserve.

(** Symbolic execution of a successful run: split every bind of a hypothesis
    [m s = (Ok _, _)], and simplify the primitive steps. *)
Ltac run_step :=
  match goal with
  | H : (_ ≫= _) _ = (Ok _, _) |- _ =>
      let Hs := fresh "Hs" in apply bind_Ok_inv in H as (? & ? & Hs & H)
  | H : mret _ _ = (Ok _, _) |- _ => first [injection H as <- <- | injection H as <-]
  | H : mret _ _ = (Ok _, _) |- _ => injection H; clear H; intros
  | H : throw _ _ = (Ok _, _) |- _ => discriminate H
  | H : gets _ _ = (Ok _, _) |- _ => first [injection H as <- <- | injection H as <-]
  | H : get _ = (Ok _, _) |- _ => first [injection H as <- <- | injection H as <-]
  | H : modify _ _ = (Ok _, _) |- _ => first [injection H as <- <- | injection H as <-]
  | H : lift_result ?r ?s = (Ok _, _) |- _ =>
      let Hr := fresh "Hr" in
      unfold lift_result in H; destruct r eqn:Hr; [first [injection H as <- <- | injection H as <-]|discriminate H]
  | H : throw_when ?b _ _ = (Ok _, _) |- _ =>
      let Hb := fresh "Hb" in
      unfold throw_when in H; destruct b eqn:Hb; [discriminate H|first [injection H as <- <- | injection H as <-]]
  | H : require ?o _ _ = (Ok _, _) |- _ =>
      let Ho := fresh "Ho" in
      unfold require in H; destruct o eqn:Ho; [first [injection H as <- <- | injection H as <-]|discriminate H]
  | u : unit |- _ => destruct u
  end.
Ltac run := repeat run_step.

(** Destruct the boolean or option that a goal or hypothesis matches on. *)
Ltac case_goal :=
  match goal with
  | |- context [match ?x with _ => _ end] => let H := fresh "Hc" in destruct x eqn:H
  end.

(** Boolean hypotheses as propositions about [Z]. *)
Ltac bool_to_Z :=
  repeat match goal with
  | H : (_ && _)%bool = true |- _ => apply andb_prop in H as [? ?]
  | H : (_ || _)%bool = false |- _ => apply orb_false_elim in H as [? ?]
  | H : negb _ = true |- _ => apply negb_true_iff in H
  | H : negb _ = false |- _ => apply negb_false_iff in H
  | H : (_ <? _)%Z = true |- _ => apply Z.ltb_lt in H
  | H : (_ <? _)%Z = false |- _ => apply Z.ltb_ge in H
  | H : (_ <=? _)%Z = true |- _ => apply Z.leb_le in H
  | H : (_ <=? _)%Z = false |- _ => apply Z.leb_gt in H
  | H : (_ =? _)%Z = true |- _ => apply Z.eqb_eq in H
  | H : (_ =? _)%Z = false |- _ => apply Z.eqb_neq in H
  | H : (_ =? _)%string = true |- _ => apply String.eqb_eq in H
  | H : (_ =? _)%string = false |- _ => apply String.eqb_neq in H
  | H : bool_decide _ = true |- _ => apply bool_decide_eq_true in H
  | H : bool_decide _ = false |- _ => apply bool_decide_eq_false in H
  end.

(** ** Sums over lists *)
Section Sums.
Context {A : Type}.
Open Scope Z_scope.

Definition sum_by (f : A -> Z) (l : list A) : Z := foldr (fun x acc => f x + acc) 0 l.

Lemma sum_by_nil f : sum_by f [] = 0.
Proof. done. Qed.
Lemma sum_by_cons f x l : sum_by f (x :: l) = f x + sum_by f l.
Proof. done. Qed.
Lemma sum_by_app f l1 l2 : sum_by f (l1 ++ l2) = sum_by f l1 + sum_by f l2.
Proof. induction l1 as [|x l1 IH]; simpl; [done|]. rewrite IH. lia. Qed.
Lemma sum_by_ext f g l : (forall x, x ∈ l -> f x = g x) -> sum_by f l = sum_by g l.
Proof.
  induction l as [|x l IH]; intros H; simpl; [done|].
  rewrite (H x), IH; [done| |by left]. intros y Hy. apply H. by right.
Qed.
Lemma sum_by_nonneg f l : (forall x, x ∈ l -> 0 <= f x) -> 0 <= sum_by f l.
Proof.
  induction l as [|x l IH]; intros H; simpl; [lia|].
  assert (0 <= f x) by (apply H; by left).
  assert (0 <= sum_by f l) by (apply IH; intros y Hy; apply H; by right). lia.
Qed.
Lemma sum_by_zero l : sum_by (fun _ => 0) l = 0.
Proof. induction l as [|x l IH]; simpl; lia. Qed.
Lemma sum_by_plus f g l : sum_by (fun x => f x + g x) l = sum_by f l + sum_by g l.
Proof. induction l as [|x l IH]; simpl; [done|]. rewrite IH. lia. Qed.
Lemma sum_by_Permutation f l1 l2 : l1 ≡ₚ l2 -> sum_by f l1 = sum_by f l2.
Proof. induction 1; simpl; lia. Qed.
Lemma sum_by_mono f g l : (forall x, x ∈ l -> f x <= g x) -> sum_by f l <= sum_by g l.
Proof.
  induction l as [|x l IH]; intros H; simpl; [lia|].
  assert (f x <= g x) by (apply H; by left).
  assert (sum_by f l <= sum_by g l) by (apply IH; intros y Hy; apply H; by right). lia.
Qed.
Lemma filter_sum (f : A -> Z) (P : A -> Prop) `{forall x, Decision (P x)} (l : list A) :
  sum_by f (filter P l) = sum_by (fun x => if decide (P x) then f x else 0) l.
Proof.
  induction l as [|x l IH]; [done|]. rewrite filter_cons, sum_by_cons.
  case_decide; rewrite ?sum_by_cons, IH; lia.
Qed.
End Sums.
Lemma sum_by_map {A B} (f : B -> Z) (h : A -> B) l : sum_by f (map h l) = sum_by (fun x => f (h x)) l.
Proof. induction l as [|x l IH]; [done|]. cbn [map]. by rewrite !sum_by_cons, IH. Qed.
Create Rewrite HintDb sums.
#[export] Hint Rewrite @sum_by_nil @sum_by_cons @sum_by_app : sums.

(** ** Machine-width integers *)
Section Int64.
Open Scope Z_scope.
(** PostgreSQL [BIGINT] and [INTEGER] columns. *)
Definition int64_ok (z : Z) : bool := (-(2 ^ 63) <=? z) && (z <? 2 ^ 63).
Definition int32_ok (z : Z) : bool := (-(2 ^ 31) <=? z) && (z <? 2 ^ 31).
(** [BigInt.asIntN(64, z)] *)
Definition asIntN64 (z : Z) : Z := (z + 2 ^ 63) mod 2 ^ 64 - 2 ^ 63.
(** [Number.isSafeInteger] on an integer value. *)
Definition is_safe_integer (z : Z) : bool := (-(2 ^ 53 - 1) <=? z) && (z <=? 2 ^ 53 - 1).

Lemma asIntN64_range z : int64_ok (asIntN64 z) = true.
Proof.
  unfold asIntN64, int64_ok. pose proof (Z.mod_pos_bound (z + 2 ^ 63) (2 ^ 64)).
  apply andb_true_intro. split; [apply Z.leb_le|apply Z.ltb_lt]; lia.
Qed.
End Int64.
