(* ===== verification/Js.v ===== *)
(** * The parts of JavaScript the services use: decimal BigInt text, strings,
    insertion-ordered maps, sorting, JSON values and [JSON.stringify]. *)

From Stdlib Require Import ZArith Lia Ascii String.
From stdpp Require Import base strings list sets sorting.
From S2P Require Import Prelude.

Open Scope Z_scope.

(** ** Strings as lists of characters *)
Section Strings.
(** [String.prototype.split(sep)] for a one-character separator. *)
Fixpoint split_on (sep : ascii) (s : string) : list string :=
  match s with
  | EmptyString => [""%string]
  | String c s' =>
      let r := split_on sep s' in
      if Ascii.eqb c sep then ""%string :: r
      else match r with
           | [] => [String c ""]
           | w :: ws => String c w :: ws
           end
  end.

Fixpoint join (sep : string) (l : list string) : string :=
  match l with
  | [] => ""
  | [s] => s
  | s :: l' => s +:+ sep +:+ join sep l'
  end.

Fixpoint str_all (p : ascii -> bool) (s : string) : bool :=
  match s with EmptyString => true | String c s' => p c && str_all p s' end.

Fixpoint str_map (f : ascii -> ascii) (s : string) : string :=
  match s with EmptyString => "" | String c s' => String (f c) (str_map f s') end.

Fixpoint str_filter (p : ascii -> bool) (s : string) : string :=
  match s with
  | EmptyString => ""
  | String c s' => if p c then String c (str_filter p s') else str_filter p s'
  end.

Fixpoint str_drop (n : nat) (s : string) : string :=
  match n, s with
  | O, _ => s
  | S n', String _ s' => str_drop n' s'
  | S _, EmptyString => ""
  end.

Fixpoint str_take (n : nat) (s : string) : string :=
  match n, s with
  | S n', String c s' => String c (str_take n' s')
  | _, _ => ""
  end.

(** [s.slice(i, j)] for [0 <= i <= j]. *)
Definition slice (i j : nat) (s : string) : string := str_take (j - i) (str_drop i s).

Definition code (c : ascii) : Z := Z.of_nat (nat_of_ascii c).
Definition in_range (lo hi : ascii) (c : ascii) : bool :=
  (code lo <=? code c) && (code c <=? code hi).
Definition is_digit : ascii -> bool := in_range "0" "9".
Definition is_upper : ascii -> bool := in_range "A" "Z".
Definition is_lower : ascii -> bool := in_range "a" "z".
Definition to_upper_char (c : ascii) : ascii :=
  if is_lower c then ascii_of_nat (nat_of_ascii c - 32) else c.
Definition to_lower_char (c : ascii) : ascii :=
  if is_upper c then ascii_of_nat (nat_of_ascii c + 32) else c.
Definition toUpperCase : string -> string := str_map to_upper_char.
Definition toLowerCase : string -> string := str_map to_lower_char.

(** The white space of ASCII, which [trim] removes. *)
Definition is_space (c : ascii) : bool :=
  let n := code c in
  ((9 <=? n) && (n <=? 13)) || (n =? 32).
Fixpoint trim_start (s : string) : string :=
  match s with
  | String c s' => if is_space c then trim_start s' else s
  | EmptyString => ""
  end.
Fixpoint trim_end (s : string) : string :=
  match s with
  | EmptyString => ""
  | String c s' =>
      match trim_end s' with
      | EmptyString => if is_space c then "" else String c ""
      | t => String c t
      end
  end.
Definition trim (s : string) : string := trim_end (trim_start s).

Fixpoint repeat_str (s : string) (n : nat) : string :=
  match n with O => "" | S n' => s +:+ repeat_str s n' end.
(** [s.padStart(n, c)] and [s.padEnd(n, c)] for a one-character filler. *)
Definition padStart (n : nat) (c : string) (s : string) : string :=
  repeat_str c (n - String.length s) +:+ s.
Definition padEnd (n : nat) (c : string) (s : string) : string :=
  s +:+ repeat_str c (n - String.length s).

Lemma str_app_cons c a b : String c a +:+ b = String c (a +:+ b).
Proof. reflexivity. Qed.
Lemma str_app_nil_l a : "" +:+ a = a.
Proof. reflexivity. Qed.
Lemma str_app_assoc a b c : (a +:+ b) +:+ c = a +:+ (b +:+ c).
Proof. induction a as [|x a IH]; [done|]. by rewrite !str_app_cons, IH. Qed.
Lemma str_app_nil_r a : a +:+ "" = a.
Proof. induction a as [|x a IH]; [done|]. by rewrite str_app_cons, IH. Qed.
Lemma str_length_app a b :
  String.length (a +:+ b) = (String.length a + String.length b)%nat.
Proof. induction a as [|x a IH]; [done|]. rewrite str_app_cons. cbn. by rewrite IH. Qed.
Lemma str_all_app p a b : str_all p (a +:+ b) = str_all p a && str_all p b.
Proof.
  induction a as [|x a IH]; [done|]. rewrite str_app_cons. cbn. by rewrite IH, andb_assoc.
Qed.
Lemma str_app_inj_l a b c : a +:+ b = a +:+ c -> b = c.
Proof. induction a as [|x a IH]; [done|]. rewrite !str_app_cons. intros [= H]. auto. Qed.
Lemma str_app_inj_r a b c : a +:+ c = b +:+ c -> a = b.
Proof.
  revert b. induction a as [|x a IH]; intros [|y b]; rewrite ?str_app_nil_l, ?str_app_cons; try done.
  - intros H. apply (f_equal String.length) in H. rewrite <- str_app_cons, str_length_app in H.
    cbn in H. lia.
  - intros H. apply (f_equal String.length) in H. rewrite <- str_app_cons, str_length_app in H.
    cbn in H. lia.
  - intros [= -> H]. f_equal. by apply IH.
Qed.
Lemma str_drop_app a n b : str_drop (String.length a + n) (a +:+ b) = str_drop n b.
Proof. induction a as [|x a IH]; [done|]. rewrite str_app_cons. apply IH. Qed.
Lemma str_take_drop n s : str_take n s +:+ str_drop n s = s.
Proof.
  revert s. induction n as [|n IH]; intros [|c s]; try done. cbn [str_take str_drop]. by rewrite str_app_cons, IH.
Qed.
Lemma str_length_take n s : String.length (str_take n s) = Nat.min n (String.length s).
Proof. revert s. induction n as [|n IH]; intros [|c s]; try done. cbn. f_equal. apply IH. Qed.
End Strings.

(** ** Decimal text of BigInt values *)
Section Decimal.
Definition digit_char (d : Z) : ascii := ascii_of_nat (Z.to_nat d + 48).
Definition digit_value (c : ascii) : Z := code c - 48.

Fixpoint nat_digits (fuel : nat) (n : Z) : string :=
  match fuel with
  | O => ""
  | S f => if n <? 10 then String (digit_char n) ""
           else nat_digits f (n / 10) +:+ String (digit_char (n mod 10)) ""
  end.
(** Enough fuel: one digit at least per step, and [n < 2 ^ fuel]. *)
Definition digits_fuel (n : Z) : nat := S (Z.to_nat (Z.log2 n)).

(** [BigInt.prototype.toString(10)] *)
Definition bigint_to_string (z : Z) : string :=
  if z <? 0 then String "-" (nat_digits (digits_fuel (- z)) (- z))
  else nat_digits (digits_fuel z) z.

Fixpoint digits_value (acc : Z) (s : string) : Z :=
  match s with
  | EmptyString => acc
  | String c s' => digits_value (10 * acc + digit_value c) s'
  end.
(** [BigInt(s)] on an optionally signed string of digits. *)
Definition BigInt (s : string) : Z :=
  match s with
  | String c s' => if Ascii.eqb c "-" then - digits_value 0 s' else digits_value 0 s
  | EmptyString => 0
  end.

(** [BigInt(s)] on arbitrary text: white space around, an empty text, a sign on
    decimals and the prefixes of other radixes are accepted; [None] throws. *)
Definition hex_digit_value (c : ascii) : option Z :=
  if is_digit c then Some (code c - 48)
  else if in_range "a" "f" c then Some (code c - 87)
  else if in_range "A" "F" c then Some (code c - 55)
  else None.
Fixpoint radix_value (radix acc : Z) (s : string) : option Z :=
  match s with
  | EmptyString => Some acc
  | String c s =>
      match hex_digit_value c with
      | Some d => if d <? radix then radix_value radix (acc * radix + d) s else None
      | None => None
      end
  end.
Definition nonempty_radix (radix : Z) (s : string) : option Z :=
  match s with EmptyString => None | _ => radix_value radix 0 s end.
Definition BigInt_of (s : string) : option Z :=
  match trim s with
  | EmptyString => Some 0
  | String "0" (String "x" r) | String "0" (String "X" r) => nonempty_radix 16 r
  | String "0" (String "o" r) | String "0" (String "O" r) => nonempty_radix 8 r
  | String "0" (String "b" r) | String "0" (String "B" r) => nonempty_radix 2 r
  | String "-" r => Z.opp <$> nonempty_radix 10 r
  | String "+" r => nonempty_radix 10 r
  | r => nonempty_radix 10 r
  end.
Example BigInt_of_examples :
  map BigInt_of [" 42 "; ""; "-7"; "0x1F"; "1.5"; "-0x1"]%string =
  [Some 42; Some 0; Some (-7); Some 31; None; None].
Proof. vm_compute. reflexivity. Qed.

Lemma digit_cases d : 0 <= d < 10 ->
  d = 0 \/ d = 1 \/ d = 2 \/ d = 3 \/ d = 4 \/ d = 5 \/ d = 6 \/ d = 7 \/ d = 8 \/ d = 9.
Proof. lia. Qed.
Lemma digit_char_value d : 0 <= d < 10 -> digit_value (digit_char d) = d.
Proof. intros H. destruct (digit_cases d H) as [->|H']; repeat destruct H' as [->|H']; try done. by subst. Qed.
Lemma digit_char_digit d : 0 <= d < 10 -> is_digit (digit_char d) = true.
Proof. intros H. destruct (digit_cases d H) as [->|H']; repeat destruct H' as [->|H']; try done. by subst. Qed.
Lemma digit_char_nonzero d : 0 < d < 10 -> in_range "1" "9" (digit_char d) = true.
Proof.
  intros H. destruct (digit_cases d) as [->|H']; [lia|lia|].
  repeat destruct H' as [->|H']; try done. by subst.
Qed.

Lemma digits_value_app acc a b :
  digits_value acc (a +:+ b) = digits_value (digits_value acc a) b.
Proof. revert acc. induction a as [|c a IH]; intros acc; [done|]. apply IH. Qed.

Lemma nat_digits_spec fuel n :
  0 <= n < 2 ^ Z.of_nat fuel -> fuel <> O ->
  digits_value 0 (nat_digits fuel n) = n /\ str_all is_digit (nat_digits fuel n) = true.
Proof.
  revert n. induction fuel as [|f IH]; intros n Hn Hf; [done|]. cbn [nat_digits].
  destruct (Z.ltb_spec n 10) as [Hlt|Hge].
  - cbn. rewrite digit_char_digit, digit_char_value by lia. by rewrite Z.add_0_l.
  - assert (f <> O) by (intros ->; simpl in *; lia).
    assert (Hp : 2 ^ Z.of_nat (S f) = 2 * 2 ^ Z.of_nat f)
      by (rewrite Nat2Z.inj_succ, Z.pow_succ_r by lia; lia).
    assert (0 <= n / 10 < 2 ^ Z.of_nat f).
    { split; [apply Z.div_pos; lia|]. apply Z.div_lt_upper_bound; lia. }
    destruct (IH (n / 10)) as [IH1 IH2]; [lia|done|].
    pose proof (Z.mod_pos_bound n 10 ltac:(lia)).
    rewrite digits_value_app, str_all_app, IH1, IH2. cbn.
    rewrite digit_char_value, digit_char_digit by lia. split; [|done].
    rewrite (Z.div_mod n 10) at 3 by lia. lia.
Qed.

Lemma digits_fuel_enough n : 0 <= n -> n < 2 ^ Z.of_nat (digits_fuel n).
Proof.
  intros H. unfold digits_fuel. rewrite Nat2Z.inj_succ, Z2Nat.id by apply Z.log2_nonneg.
  destruct (Z.eq_dec n 0) as [->|]; [done|]. apply Z.log2_spec. lia.
Qed.

Lemma nat_digits_length fuel n k : 0 <= n < 10 ^ k -> 0 < k ->
  Z.of_nat (String.length (nat_digits fuel n)) <= k.
Proof.
  revert n k. induction fuel as [|f IH]; intros n k Hn Hk; [simpl; lia|]. cbn [nat_digits].
  destruct (Z.ltb_spec n 10) as [Hlt|Hge]; [simpl; lia|].
  rewrite str_length_app. cbn [String.length].
  assert (1 < k). { destruct (Z.eq_dec k 1) as [->|]; [simpl in *; lia|lia]. }
  assert (Hd : 0 <= n / 10 < 10 ^ (k - 1)).
  { split; [apply Z.div_pos; lia|]. apply Z.div_lt_upper_bound; [lia|].
    rewrite <- Z.pow_succ_r by lia. replace (Z.succ (k - 1)) with k by lia. lia. }
  specialize (IH _ _ Hd). lia.
Qed.

(** No leading zero: the text of a positive number starts with 1..9. *)
Lemma nat_digits_head fuel n : 0 < n < 2 ^ Z.of_nat fuel ->
  exists c s, nat_digits fuel n = String c s /\ in_range "1" "9" c = true.
Proof.
  revert n. induction fuel as [|f IH]; intros n Hn; [simpl in *; lia|]. cbn [nat_digits].
  destruct (Z.ltb_spec n 10) as [Hlt|Hge].
  - eexists _, _. split; [done|]. apply digit_char_nonzero. lia.
  - assert (Hp : 2 ^ Z.of_nat (S f) = 2 * 2 ^ Z.of_nat f)
      by (rewrite Nat2Z.inj_succ, Z.pow_succ_r by lia; lia).
    destruct (IH (n / 10)) as (c & s & -> & Hc).
    + split; [apply Z.div_str_pos; lia|]. apply Z.div_lt_upper_bound; lia.
    + eexists _, _. split; [reflexivity|done].
Qed.

Lemma digits_value_nonneg s acc : 0 <= acc -> str_all is_digit s = true -> 0 <= digits_value acc s.
Proof.
  revert acc. induction s as [|c s IH]; intros acc Hacc; [done|]. cbn.
  intros [Hc Hs]%andb_prop. apply IH; [|done]. unfold is_digit, in_range in Hc. bool_to_Z.
  unfold digit_value. change (code "0") with 48 in *. lia.
Qed.

Lemma digit_not_minus c : is_digit c = true -> Ascii.eqb c "-" = false.
Proof. intros H. destruct (Ascii.eqb_spec c "-") as [->|]; [done|done]. Qed.

Lemma BigInt_digits s : str_all is_digit s = true -> BigInt s = digits_value 0 s.
Proof.
  destruct s as [|c s]; [done|]. cbn. intros [Hc _]%andb_prop. by rewrite digit_not_minus.
Qed.

Lemma BigInt_to_string z : BigInt (bigint_to_string z) = z.
Proof.
  unfold bigint_to_string. destruct (Z.ltb_spec z 0) as [H|H].
  - cbn [BigInt]. destruct (nat_digits_spec (digits_fuel (- z)) (- z)) as [-> _]; [|done|].
    + split; [lia|]. apply digits_fuel_enough. lia.
    + change (Ascii.eqb "-" "-") with true. simpl. lia.
  - destruct (nat_digits_spec (digits_fuel z) z) as [H1 H2]; [|done|].
    + split; [lia|]. apply digits_fuel_enough. lia.
    + by rewrite BigInt_digits.
Qed.

Lemma bigint_to_string_inj z1 z2 : bigint_to_string z1 = bigint_to_string z2 -> z1 = z2.
Proof. intros H. rewrite <- (BigInt_to_string z1), <- (BigInt_to_string z2). by f_equal. Qed.
End Decimal.

(** ** [Map]: insertion-ordered association lists *)
Abbreviation jmap V := (list (string * V)).

Section OrderedMap.
Context {V : Type}.

Fixpoint jget (k : string) (m : jmap V) : option V :=
  match m with
  | [] => None
  | (k', v) :: m' => if String.eqb k k' then Some v else jget k m'
  end.
(** [m.set(k, v)]: an existing key keeps its position. *)
Fixpoint jset (k : string) (v : V) (m : jmap V) : jmap V :=
  match m with
  | [] => [(k, v)]
  | (k', v') :: m' => if String.eqb k k' then (k', v) :: m' else (k', v') :: jset k v m'
  end.
Definition jvalues (m : jmap V) : list V := snd <$> m.
Definition jkeys (m : jmap V) : list string := fst <$> m.

Lemma jget_jset k k' v m :
  jget k (jset k' v m) = if String.eqb k k' then Some v else jget k m.
Proof.
  induction m as [|[k0 v0] m IH]; cbn; [done|].
  destruct (String.eqb_spec k' k0) as [->|Hne]; cbn.
  - by destruct (String.eqb_spec k k0).
  - rewrite IH. destruct (String.eqb_spec k k0) as [->|]; [|done].
    by destruct (String.eqb_spec k0 k').
Qed.
Lemma jset_new k v m : jget k m = None -> jset k v m = m ++ [(k, v)].
Proof.
  induction m as [|[k0 v0] m IH]; cbn; [done|]. destruct (String.eqb k k0); [done|].
  intros H. by rewrite IH.
Qed.
Lemma jset_old k v v0 m : jget k m = Some v0 ->
  exists m1 m2, m = m1 ++ (k, v0) :: m2 /\ jset k v m = m1 ++ (k, v) :: m2 /\ jget k m1 = None.
Proof.
  induction m as [|[k1 v1] m IH]; cbn; [done|]. destruct (String.eqb_spec k k1) as [->|Hne].
  - intros [= ->]. by exists [], m.
  - intros H. destruct (IH H) as (m1 & m2 & -> & -> & Hm1).
    exists ((k1, v1) :: m1), m2. cbn. by apply String.eqb_neq in Hne as ->.
Qed.
Lemma jget_None k m : jget k m = None <-> k ∉ jkeys m.
Proof.
  induction m as [|[k0 v0] m IH]; cbn; [split; [by inversion 2|done]|].
  rewrite not_elem_of_cons, <- IH. destruct (String.eqb_spec k k0) as [->|Hne];
    (split; [intros H|intros [H1 H2]]); try done.
Qed.
Lemma jget_elem k v m : jget k m = Some v -> (k, v) ∈ m.
Proof.
  induction m as [|[k0 v0] m IH]; cbn; [done|].
  destruct (String.eqb_spec k k0) as [->|]; [intros [= ->]; by left|right; auto].
Qed.
Lemma jkeys_jset_NoDup k v m : NoDup (jkeys m) -> NoDup (jkeys (jset k v m)).
Proof.
  destruct (jget k m) as [v0|] eqn:Hg.
  - destruct (jset_old k v v0 m Hg) as (m1 & m2 & -> & -> & _).
    unfold jkeys. by rewrite !fmap_app.
  - rewrite jset_new by done. unfold jkeys. rewrite fmap_app. intros H. apply NoDup_app.
    split; [done|]. split; [|apply NoDup_singleton].
    intros x Hx Hx'%list_elem_of_singleton. cbn in Hx'. subst. by apply jget_None in Hg.
Qed.
End OrderedMap.

(** [new Set(l)] in insertion order. *)
Fixpoint set_of (seen l : list string) : list string :=
  match l with
  | [] => []
  | x :: l' => if bool_decide (x ∈ seen) then set_of seen l' else x :: set_of (x :: seen) l'
  end.
Definition unique (l : list string) : list string := set_of [] l.

Lemma set_of_elem x seen l : x ∈ set_of seen l <-> x ∈ l /\ x ∉ seen.
Proof.
  revert seen. induction l as [|y l IH]; intros seen; cbn; [set_solver|].
  case_bool_decide; rewrite ?elem_of_cons, IH; [set_solver|].
  destruct (decide (x = y)); set_solver.
Qed.
Lemma set_of_NoDup seen l : NoDup (set_of seen l).
Proof.
  revert seen. induction l as [|y l IH]; intros seen; cbn; [constructor|].
  case_bool_decide; [done|]. constructor; [|done]. rewrite set_of_elem. set_solver.
Qed.
Lemma unique_elem x l : x ∈ unique l <-> x ∈ l.
Proof. unfold unique. rewrite set_of_elem. set_solver. Qed.
Lemma unique_NoDup l : NoDup (unique l).
Proof. apply set_of_NoDup. Qed.

(** [l.sort()] on strings: ascending code-unit order. *)
Definition sort_strings (l : list string) : list string := merge_sort String.le l.

Lemma sort_strings_perm l : sort_strings l ≡ₚ l.
Proof. apply merge_sort_Permutation. Qed.
Lemma sort_strings_sorted l : Sorted String.le (sort_strings l).
Proof. apply Sorted_merge_sort. apply _. Qed.
Lemma sort_strings_unique l1 l2 : l1 ≡ₚ l2 -> sort_strings l1 = sort_strings l2.
Proof.
  intros H. apply (Sorted_unique String.le); auto using sort_strings_sorted.
  by rewrite !sort_strings_perm.
Qed.

(** [l.sort((a, b) => key(a) < key(b) ? -1 : 1)], for items with a string key. *)
Definition sort_by {A} (key : A -> string) (l : list A) : list A :=
  merge_sort (fun a b => String.le (key a) (key b)) l.

Lemma sort_by_perm {A} (key : A -> string) l : sort_by key l ≡ₚ l.
Proof. apply merge_sort_Permutation. Qed.
Lemma sort_by_sorted {A} (key : A -> string) l :
  Sorted (fun a b => String.le (key a) (key b)) (sort_by key l).
Proof. apply Sorted_merge_sort. intros a b. apply (total String.le). Qed.
Lemma sort_by_unique {A} (key : A -> string) l1 l2 :
  l1 ≡ₚ l2 -> NoDup (key <$> l1) -> sort_by key l1 = sort_by key l2.
Proof.
  intros Hp Hn.
  assert (Transitive (fun a b => String.le (key a) (key b))).
  { intros a b c. apply (transitivity (R := String.le)). }
  apply (Sorted_unique_strong (fun a b => String.le (key a) (key b))).
  - intros x1 x2 H1 H2 Hle1 Hle2.
    assert (Hk : key x1 = key x2) by (by apply (anti_symm String.le)).
    rewrite sort_by_perm in H1. rewrite sort_by_perm, <- Hp in H2.
    apply list_elem_of_lookup in H1 as [i Hi], H2 as [j Hj].
    assert (i = j) as ->; [|congruence].
    apply (NoDup_lookup (key <$> l1) i j (key x1)); [done| |].
    + by rewrite list_lookup_fmap, Hi.
    + by rewrite list_lookup_fmap, Hj, Hk.
  - apply sort_by_sorted.
  - apply sort_by_sorted.
  - by rewrite !sort_by_perm.
Qed.

(** Rows by an ascending number, such as [orderBy: { createdAt: 'asc' }]. *)
Definition sort_by_Z {A} (key : A -> Z) (l : list A) : list A :=
  merge_sort (fun a b => key a <= key b) (H := fun a b => Z_le_dec (key a) (key b)) l.
Lemma sort_by_Z_perm {A} (key : A -> Z) l : sort_by_Z key l ≡ₚ l.
Proof. apply merge_sort_Permutation. Qed.

(** ** JSON values *)

(** A value that [JSON.stringify] or [canonicalJson] receives: plain objects
    list their own enumerable keys in order; numbers are integers. *)
Inductive json : Type :=
| JUndef
| JNull
| JBool (b : bool)
| JNum (z : Z)
| JStr (s : string)
| JArr (l : list json)
| JObj (fields : list (string * json)).

Definition hex_digit (n : Z) : ascii :=
  if n <? 10 then ascii_of_nat (Z.to_nat n + 48) else ascii_of_nat (Z.to_nat n + 87).

(** The escape sequence of one character in a JSON string. *)
Definition json_escape (c : ascii) : string :=
  let n := code c in
  if n =? 34 then String "\" (String c "")
  else if n =? 92 then "\\"
  else if n =? 8 then "\b"
  else if n =? 9 then "\t"
  else if n =? 10 then "\n"
  else if n =? 12 then "\f"
  else if n =? 13 then "\r"
  else if n <? 32 then "\u00" +:+ String (hex_digit (n / 16)) (String (hex_digit (n mod 16)) "")
  else String c "".
Fixpoint json_escapes (s : string) : string :=
  match s with EmptyString => "" | String c s' => json_escape c +:+ json_escapes s' end.
Definition dquote : string := String (ascii_of_nat 34) "".
(** [JSON.stringify(s)] of a string. *)
Definition quote (s : string) : string := dquote +:+ json_escapes s +:+ dquote.

(** The first field of an object with this key. *)
Definition jfield (k : string) (j : json) : json :=
  match j with JObj fs => default JUndef (jget k fs) | _ => JUndef end.

(** ** Dates: epoch milliseconds and their ISO 8601 text *)
Section Dates.
(** Year, month and day of a day number counted from 1970-01-01 (proleptic
    Gregorian calendar, years starting in March internally). *)
Definition civil_of_days (days : Z) : Z * Z * Z :=
  let shifted := days + 719468 in
  let era := shifted / 146097 in
  let day_of_era := shifted mod 146097 in
  let year_of_era :=
    (day_of_era - day_of_era / 1460 + day_of_era / 36524 - day_of_era / 146096) / 365 in
  let day_of_year := day_of_era - (365 * year_of_era + year_of_era / 4 - year_of_era / 100) in
  let month_index := (5 * day_of_year + 2) / 153 in
  let day := day_of_year - (153 * month_index + 2) / 5 + 1 in
  let month := if month_index <? 10 then month_index + 3 else month_index - 9 in
  (year_of_era + era * 400 + (if month <=? 2 then 1 else 0), month, day).

Definition days_of_civil (y m d : Z) : Z :=
  let y' := if m <=? 2 then y - 1 else y in
  let era := y' / 400 in
  let year_of_era := y' mod 400 in
  let month_index := if m <=? 2 then m + 9 else m - 3 in
  let day_of_year := (153 * month_index + 2) / 5 + d - 1 in
  let day_of_era := year_of_era * 365 + year_of_era / 4 - year_of_era / 100 + day_of_year in
  era * 146097 + day_of_era - 719468.

Definition padded (n : nat) (z : Z) : string := padStart n "0" (bigint_to_string z).

(** [new Date(t).toISOString()] for the years 0 to 9999. *)
Definition toISOString (t : Z) : string :=
  let '(y, m, d) := civil_of_days (t / 86400000) in
  let ms := t mod 86400000 in
  padded 4 y +:+ "-" +:+ padded 2 m +:+ "-" +:+ padded 2 d +:+ "T" +:+
  padded 2 (ms / 3600000) +:+ ":" +:+ padded 2 (ms / 60000 mod 60) +:+ ":" +:+
  padded 2 (ms / 1000 mod 60) +:+ "." +:+ padded 3 (ms mod 1000) +:+ "Z".

Definition number_at (i n : nat) (s : string) : option Z :=
  let t := slice i (i + n) s in
  if (String.length t =? n)%nat && str_all is_digit t then Some (BigInt t) else None.
Definition char_at (i : nat) (c : ascii) (s : string) : bool :=
  String.eqb (slice i (i + 1) s) (String c "").

(** The part after [YYYY-MM-DDTHH:mm]: [Z], [:ssZ] or [:ss.fffZ], as seconds
    and milliseconds; further digits of the fraction are dropped. *)
Definition seconds_parse (rest : string) : option (Z * Z) :=
  if String.eqb rest "Z" then Some (0, 0)
  else if char_at 0 ":" rest then
    s ← number_at 1 2 rest;
    if String.eqb (str_drop 3 rest) "Z" then Some (s, 0)
    else
      let fraction := str_take (String.length rest - 5) (str_drop 4 rest) in
      if char_at 3 "." rest && char_at (String.length rest - 1) "Z" rest
         && str_all is_digit fraction && (1 <=? String.length fraction)%nat
      then Some (s, BigInt (str_take 3 (padEnd 3 "0" fraction)))
      else None
  else None.

(** [Date.parse(s)] on ISO 8601 text in UTC; [None] is [NaN]. *)
Definition date_parse (s : string) : option Z :=
  if char_at 4 "-" s && char_at 7 "-" s && char_at 10 "T" s && char_at 13 ":" s then
    y ← number_at 0 4 s; mo ← number_at 5 2 s; d ← number_at 8 2 s;
    h ← number_at 11 2 s; mi ← number_at 14 2 s;
    '(se, ms) ← seconds_parse (str_drop 16 s);
    if (1 <=? mo) && (mo <=? 12) && (1 <=? d) && (d <=? 31) && (h <? 24) && (mi <? 60) && (se <? 60)
    then Some (days_of_civil y mo d * 86400000 + h * 3600000 + mi * 60000 + se * 1000 + ms)
    else None
  else None.

Example toISOString_example : toISOString 1785508245678 = "2026-07-31T14:30:45.678Z"%string.
Proof. vm_compute. reflexivity. Qed.
Example date_parse_example : date_parse "2026-07-31T14:30:45.678Z" = Some 1785508245678.
Proof. vm_compute. reflexivity. Qed.
Example date_parse_seconds : date_parse "2026-07-31T14:30:45Z" = Some 1785508245000.
Proof. vm_compute. reflexivity. Qed.
End Dates.
