(* ===== verification/Codec.v ===== *)
(** * JSON text and base64url: what [JSON.stringify], [JSON.parse] and Node's
    [Buffer] do to the values the services exchange. Strings are their UTF-8
    bytes. *)

From Stdlib Require Import ZArith Lia Ascii String.
From stdpp Require Import base strings list.
From S2P Require Import Prelude.
From S2P Require Import Js.

Open Scope Z_scope.

(** ** [JSON.stringify] *)
Fixpoint stringify (v : json) : option string :=
  match v with
  | JUndef => None
  | JNull => Some "null"%string
  | JBool b => Some (if b then "true" else "false")%string
  | JNum z => Some (bigint_to_string z)
  | JStr s => Some (quote s)
  | JArr l => Some ("[" +:+ join "," (map (fun v => default "null"%string (stringify v)) l) +:+ "]")
  | JObj fs =>
      Some ("{" +:+ join "," (omap (fun '(k, v) => match stringify v with
                                                   | Some t => Some (quote k +:+ ":" +:+ t)
                                                   | None => None
                                                   end) fs) +:+ "}")
  end.

(** ** [JSON.parse] *)
Definition json_space (c : ascii) : bool :=
  let n := code c in (n =? 32) || (n =? 9) || (n =? 10) || (n =? 13).
Fixpoint skip_space (s : string) : string :=
  match s with
  | String c r => if json_space c then skip_space r else s
  | EmptyString => s
  end.
Fixpoint span (p : ascii -> bool) (s : string) : string * string :=
  match s with
  | String c r => if p c then let '(a, b) := span p r in (String c a, b) else ("", s)
  | EmptyString => ("", s)
  end.

Definition byte_char (n : Z) : ascii := ascii_of_nat (Z.to_nat n).
(** The UTF-8 bytes of a code unit. *)
Definition utf8 (n : Z) : string :=
  if n <? 128 then String (byte_char n) ""
  else if n <? 2048 then String (byte_char (192 + n / 64)) (String (byte_char (128 + n mod 64)) "")
  else String (byte_char (224 + n / 4096)) (String (byte_char (128 + n / 64 mod 64))
         (String (byte_char (128 + n mod 64)) "")).
Definition hex4 (a b c d : ascii) : option Z :=
  a ← hex_digit_value a; b ← hex_digit_value b; c ← hex_digit_value c; d ← hex_digit_value d;
  Some (((a * 16 + b) * 16 + c) * 16 + d).
Definition simple_escape (c : ascii) : option ascii :=
  if Ascii.eqb c "b" then Some (byte_char 8)
  else if Ascii.eqb c "t" then Some (byte_char 9)
  else if Ascii.eqb c "n" then Some (byte_char 10)
  else if Ascii.eqb c "f" then Some (byte_char 12)
  else if Ascii.eqb c "r" then Some (byte_char 13)
  else if (code c =? 34) || Ascii.eqb c "\" || Ascii.eqb c "/" then Some c
  else None.

(** The rest of a string literal, after its opening quote. *)
Fixpoint parse_string (s : string) : option (string * string) :=
  match s with
  | EmptyString => None
  | String c r =>
      if code c =? 34 then Some ("", r)%string
      else if Ascii.eqb c "\" then
        match r with
        | String u r' =>
            if Ascii.eqb u "u" then
              match r' with
              | String a (String b (String c (String d r'))) =>
                  n ← hex4 a b c d; '(t, rest) ← parse_string r'; Some (utf8 n +:+ t, rest)
              | _ => None
              end
            else e ← simple_escape u; '(t, rest) ← parse_string r'; Some (String e t, rest)
        | EmptyString => None
        end
      else if code c <? 32 then None
      else '(t, rest) ← parse_string r; Some (String c t, rest)
  end.

(** Numbers: integers only. A text with a fraction or an exponent is refused. *)
Definition number_goes_on (s : string) : bool :=
  match s with
  | String c _ => Ascii.eqb c "." || Ascii.eqb c "e" || Ascii.eqb c "E"
  | EmptyString => false
  end.
Definition parse_digits (s : string) : option (string * string) :=
  let '(d, rest) := span is_digit s in
  match d with
  | EmptyString => None
  | String c t =>
      if (Ascii.eqb c "0" && negb (String.eqb t "")) || number_goes_on rest then None else Some (d, rest)
  end.
Definition parse_number (s : string) : option (json * string) :=
  match s with
  | String c r =>
      if Ascii.eqb c "-" then '(d, rest) ← parse_digits r; Some (JNum (- digits_value 0 d), rest)
      else '(d, rest) ← parse_digits s; Some (JNum (digits_value 0 d), rest)
  | EmptyString => None
  end.

Fixpoint strip (prefix s : string) : option string :=
  match prefix, s with
  | EmptyString, _ => Some s
  | String c p, String d r => if Ascii.eqb c d then strip p r else None
  | _, _ => None
  end.
Definition parse_word (w : string) (v : json) (s : string) : option (json * string) :=
  match strip w s with Some r => Some (v, r) | None => None end.

Fixpoint parse_value (fuel : nat) (s : string) : option (json * string) :=
  match fuel with
  | O => None
  | S fuel =>
      match skip_space s with
      | EmptyString => None
      | String c r =>
          if code c =? 34 then '(t, rest) ← parse_string r; Some (JStr t, rest)
          else if Ascii.eqb c "[" then
            match skip_space r with
            | String d r' => if Ascii.eqb d "]" then Some (JArr [], r') else parse_items fuel [] r
            | EmptyString => None
            end
          else if Ascii.eqb c "{" then
            match skip_space r with
            | String d r' => if Ascii.eqb d "}" then Some (JObj [], r') else parse_members fuel [] r
            | EmptyString => None
            end
          else if Ascii.eqb c "n" then parse_word "ull" JNull r
          else if Ascii.eqb c "t" then parse_word "rue" (JBool true) r
          else if Ascii.eqb c "f" then parse_word "alse" (JBool false) r
          else parse_number (String c r)
      end
  end
with parse_items (fuel : nat) (acc : list json) (s : string) : option (json * string) :=
  match fuel with
  | O => None
  | S fuel =>
      '(v, r) ← parse_value fuel s;
      match skip_space r with
      | String c r' =>
          if Ascii.eqb c "," then parse_items fuel (acc ++ [v]) r'
          else if Ascii.eqb c "]" then Some (JArr (acc ++ [v]), r')
          else None
      | EmptyString => None
      end
  end
with parse_members (fuel : nat) (acc : list (string * json)) (s : string) : option (json * string) :=
  match fuel with
  | O => None
  | S fuel =>
      match skip_space s with
      | String q r =>
          if code q =? 34 then
            '(k, r) ← parse_string r;
            match skip_space r with
            | String c r =>
                if Ascii.eqb c ":" then
                  '(v, r) ← parse_value fuel r;
                  match skip_space r with
                  | String c r' =>
                      if Ascii.eqb c "," then parse_members fuel (jset k v acc) r'
                      else if Ascii.eqb c "}" then Some (JObj (jset k v acc), r')
                      else None
                  | EmptyString => None
                  end
                else None
            | EmptyString => None
            end
          else None
      | EmptyString => None
      end
  end.

(** Two nested calls read one character at least: twice the length is enough. *)
Definition JSON_parse (s : string) : option json :=
  '(v, rest) ← parse_value (S (2 * String.length s)) s;
  if String.eqb (skip_space rest) "" then Some v else None.

(** ** [JSON.parse(JSON.stringify(v))] *)

(** Values without [undefined] whose objects have distinct keys. *)
Fixpoint plain (v : json) : bool :=
  match v with
  | JUndef => false
  | JArr l => forallb plain l
  | JObj fs => bool_decide (NoDup (fst <$> fs)) && forallb (fun '(k, v) => plain v) fs
  | _ => true
  end.
Definition text (v : json) : string := default "null"%string (stringify v).

Section JsonInd.
Variable P : json -> Prop.
Hypothesis HU : P JUndef.
Hypothesis HN : P JNull.
Hypothesis HB : forall b, P (JBool b).
Hypothesis HZ : forall z, P (JNum z).
Hypothesis HS : forall s, P (JStr s).
Hypothesis HA : forall l, Forall P l -> P (JArr l).
Hypothesis HO : forall fs, Forall (fun kv => P kv.2) fs -> P (JObj fs).
Fixpoint json_induction (v : json) : P v :=
  match v with
  | JUndef => HU | JNull => HN | JBool b => HB b | JNum z => HZ z | JStr s => HS s
  | JArr l => HA l ((fix go l : Forall P l :=
      match l with [] => Forall_nil_2 _ | v :: l => Forall_cons_2 _ _ _ (json_induction v) (go l) end) l)
  | JObj fs => HO fs ((fix go fs : Forall (fun kv => P kv.2) fs :=
      match fs with [] => Forall_nil_2 _ | kv :: fs => Forall_cons_2 _ _ _ (json_induction kv.2) (go fs) end) fs)
  end.
End JsonInd.

(** *** Strings *)
Lemma parse_string_cons c r : parse_string (String c r) =
  if code c =? 34 then Some ("", r)%string
  else if Ascii.eqb c "\" then
    match r with
    | String u r' =>
        if Ascii.eqb u "u" then
          match r' with
          | String a (String b (String c (String d r'))) =>
              n ← hex4 a b c d; '(t, rest) ← parse_string r'; Some (utf8 n +:+ t, rest)
          | _ => None
          end
        else e ← simple_escape u; '(t, rest) ← parse_string r'; Some (String e t, rest)
    | EmptyString => None
    end
  else if code c <? 32 then None
  else '(t, rest) ← parse_string r; Some (String c t, rest).
Proof. done. Qed.
Lemma parse_escape (c : ascii) s rest t :
  parse_string s = Some (t, rest) -> parse_string (json_escape c +:+ s) = Some (String c t, rest).
Proof.
  intros H. destruct c as [[] [] [] [] [] [] [] []].
  all: match goal with |- context [json_escape ?c] =>
         let e := eval vm_compute in (json_escape c) in change (json_escape c) with e end.
  all: rewrite ?str_app_cons, str_app_nil_l, parse_string_cons; lazy -[parse_string]; rewrite H; reflexivity.
Qed.
Lemma parse_quoted s rest : parse_string (json_escapes s +:+ dquote +:+ rest) = Some (s, rest).
Proof.
  induction s as [|c s IH]; [done|]. cbn [json_escapes]. rewrite str_app_assoc. by apply parse_escape.
Qed.

(** *** Numbers *)
Definition ends_number (rest : string) : Prop :=
  match rest with String c _ => is_digit c = false /\ number_goes_on rest = false | EmptyString => True end.
Lemma span_digits d rest : str_all is_digit d = true -> ends_number rest -> span is_digit (d +:+ rest) = (d, rest).
Proof.
  intros Hd Hr. induction d as [|c d IH].
  - rewrite str_app_nil_l. destruct rest as [|c rest]; [done|]. destruct Hr as [Hc _]. cbn [span]. by rewrite Hc.
  - rewrite str_app_cons. cbn [span]. cbn [str_all] in Hd. apply andb_prop in Hd as [Hc Hd]. by rewrite Hc, IH.
Qed.
Lemma nat_text n : 0 <= n ->
  let d := nat_digits (digits_fuel n) n in
  str_all is_digit d = true /\ digits_value 0 d = n /\
  exists c t, d = String c t /\ (Ascii.eqb c "0" && negb (String.eqb t "")) = false.
Proof.
  intros Hn. pose proof (digits_fuel_enough n Hn). destruct (nat_digits_spec (digits_fuel n) n) as [Hv Ha]; [lia|done|].
  split; [done|]. split; [done|]. destruct (Z.eq_dec n 0) as [->|]; [by eexists _, _|].
  destruct (nat_digits_head (digits_fuel n) n) as (c & t & -> & Hc); [lia|]. exists c, t. split; [done|].
  by destruct c as [[] [] [] [] [] [] [] []].
Qed.
Lemma parse_digits_text n rest : 0 <= n -> ends_number rest ->
  exists d, parse_digits (nat_digits (digits_fuel n) n +:+ rest) = Some (d, rest) /\ digits_value 0 d = n.
Proof.
  intros Hn Hr. destruct (nat_text n Hn) as (Ha & Hv & c & t & Hd & Hz). unfold parse_digits.
  rewrite span_digits by done. rewrite Hd in *. rewrite Hz.
  assert (number_goes_on rest = false) as -> by (by destruct rest; [|destruct Hr]).
  eexists. split; [done|exact Hv].
Qed.
Lemma parse_number_text z rest : ends_number rest ->
  parse_number (bigint_to_string z +:+ rest) = Some (JNum z, rest).
Proof.
  intros Hr. unfold bigint_to_string. destruct (Z.ltb_spec z 0).
  - rewrite str_app_cons. cbn [parse_number]. destruct (parse_digits_text (- z) rest) as (d & -> & Hv); [lia|done|]. cbn. do 3 f_equal. lia.
  - destruct (nat_text z) as (Ha & _ & c & t & Hd & _); [lia|].
    destruct (parse_digits_text z rest) as (d & Hp & Hv); [lia|done|]. unfold parse_number.
    rewrite Hd in *. rewrite ?str_app_cons in *. cbn in Ha. apply andb_prop in Ha as [Hc _].
    rewrite digit_not_minus by done. rewrite Hp. cbn. by rewrite Hv.
Qed.

(** *** Values *)
Definition member_text (kv : string * json) : string := quote kv.1 +:+ ":" +:+ text kv.2.
Lemma text_arr l : text (JArr l) = "[" +:+ join "," (map text l) +:+ "]".
Proof. done. Qed.
Lemma stringify_text v : plain v = true -> stringify v = Some (text v).
Proof. by destruct v. Qed.
Lemma members_text fs : forallb (fun '(k, v) => plain v) fs = true ->
  omap (fun '(k, v) => match stringify v with
                       | Some t => Some (quote k +:+ ":" +:+ t)
                       | None => None
                       end) fs = map member_text fs.
Proof.
  induction fs as [|[k v] fs IH]; [done|]. cbn [forallb]. intros [Hv H]%andb_prop.
  cbn [omap list_omap map]. rewrite (stringify_text v Hv). f_equal. by apply IH.
Qed.
Lemma text_obj fs : forallb (fun '(k, v) => plain v) fs = true ->
  text (JObj fs) = "{" +:+ join "," (map member_text fs) +:+ "}".
Proof. intros H. unfold text. cbn [stringify default]. by rewrite members_text. Qed.
Lemma join_cons (x : string) l : join "," (x :: l) = x +:+ (match l with [] => "" | _ => "," +:+ join "," l end).
Proof. destruct l; [by rewrite str_app_nil_r|done]. Qed.

(** The first character of a value's text tells its kind. *)
Definition value_head (c : ascii) : Prop :=
  json_space c = false /\ Ascii.eqb c "]" = false /\ Ascii.eqb c "}" = false.
Lemma number_head z : exists c t, bigint_to_string z = String c t /\ (is_digit c = true \/ c = "-"%char).
Proof.
  unfold bigint_to_string. destruct (Z.ltb_spec z 0); [by eexists _, _; split; [|right]|].
  destruct (nat_text z) as (Ha & _ & c & t & Hd & _); [lia|]. exists c, t. split; [done|left].
  rewrite Hd in Ha. cbn in Ha. by apply andb_prop in Ha as [Hc _].
Qed.
Lemma digit_head c : is_digit c = true \/ c = "-"%char ->
  value_head c /\ (code c =? 34) = false /\ Ascii.eqb c "[" = false /\ Ascii.eqb c "{" = false /\
  Ascii.eqb c "n" = false /\ Ascii.eqb c "t" = false /\ Ascii.eqb c "f" = false.
Proof. intros [H| ->]; [|done]. by destruct c as [[] [] [] [] [] [] [] []]. Qed.
Lemma text_head v : plain v = true -> exists c t, text v = String c t /\ value_head c.
Proof.
  destruct v as [| |b|z|s|l|fs]; intros H; [done|..].
  - by eexists _, _.
  - by destruct b; eexists _, _.
  - destruct (number_head z) as (c & t & Hc & Hd). exists c, t. split; [done|]. by apply digit_head.
  - by eexists _, _.
  - by eexists _, _.
  - cbn in H. apply andb_prop in H as [_ H]. rewrite text_obj by done. by eexists _, _.
Qed.

Lemma skip_head c t : json_space c = false -> skip_space (String c t) = String c t.
Proof. intros H. cbn. by rewrite H. Qed.

(** The fuel a value and a list of values need. *)
Definition parses (v : json) : Prop := plain v = true -> forall fuel rest, ends_number rest ->
  (2 * String.length (text v +:+ rest) < fuel)%nat -> parse_value fuel (text v +:+ rest) = Some (v, rest).

Lemma parse_items_text l v acc fuel rest :
  Forall parses (v :: l) -> forallb plain (v :: l) = true ->
  (2 * String.length (join "," (map text (v :: l)) +:+ "]" +:+ rest) + 1 < fuel)%nat ->
  parse_items fuel acc (join "," (map text (v :: l)) +:+ "]" +:+ rest) = Some (JArr (acc ++ v :: l), rest).
Proof.
  revert v acc fuel. induction l as [|w l IH]; intros v acc fuel HP Hp Hf.
  all: inversion HP as [|? ? Hv HP']; subst; cbn [forallb] in Hp; apply andb_prop in Hp as [Hpv Hp].
  all: destruct fuel as [|fuel]; [lia|]; cbn [parse_items].
  - cbn [map join] in *. rewrite Hv; [|done|done|lia]. cbn. done.
  - cbn [map] in *. rewrite join_cons in *. rewrite !str_app_assoc in *.
    rewrite Hv; [|done|done|lia]. rewrite str_app_cons, str_app_nil_l.
    cbn [mbind option_bind]. rewrite skip_head by done. change (Ascii.eqb "," ",") with true. cbv iota.
    rewrite (IH w (acc ++ [v])); [by rewrite <- app_assoc|done|done|].
    rewrite str_app_cons, str_app_nil_l, str_length_app in Hf. cbn [String.length] in Hf. lia.
Qed.

Lemma parse_members_text fs kv acc fuel rest :
  Forall (fun kv => parses kv.2) (kv :: fs) -> forallb (fun '(k, v) => plain v) (kv :: fs) = true ->
  NoDup (fst <$> acc ++ kv :: fs) ->
  (2 * String.length (join "," (map member_text (kv :: fs)) +:+ "}" +:+ rest) + 1 < fuel)%nat ->
  parse_members fuel acc (join "," (map member_text (kv :: fs)) +:+ "}" +:+ rest)
  = Some (JObj (acc ++ kv :: fs), rest).
Proof.
  revert kv acc fuel. induction fs as [|kw fs IH]; intros [k v] acc fuel HP Hp Hn Hf.
  all: inversion HP as [|? ? Hv HP']; subst; cbn [forallb] in Hp; apply andb_prop in Hp as [Hpv Hp].
  all: assert (Hset : jset k v acc = acc ++ [(k, v)])
    by (apply jset_new, jget_None; unfold jkeys; rewrite fmap_app, fmap_cons in Hn;
        apply NoDup_app in Hn as (_ & Hn & _); intros Hin; apply (Hn k Hin); by left).
  all: destruct fuel as [|fuel]; [lia|]; cbn [parse_members].
  all: cbn [map] in *; rewrite join_cons in *; unfold member_text at 1 in Hf; unfold member_text at 1;
    cbn [fst snd] in *; unfold quote in *; rewrite !str_app_assoc in *; unfold dquote at 1 in Hf;
    unfold dquote at 1; rewrite str_app_cons, str_app_nil_l in Hf |- *; rewrite skip_head by done;
    change (code (ascii_of_nat 34) =? 34) with true; cbv iota; rewrite parse_quoted; cbn [mbind option_bind];
    rewrite str_app_cons, str_app_nil_l; rewrite skip_head by done; change (Ascii.eqb ":" ":") with true; cbv iota.
  all: cbn [String.length] in Hf; rewrite !str_length_app in Hf; cbn [String.length] in Hf.
  - rewrite str_app_nil_l. rewrite Hv; [|done|done|rewrite !str_length_app; cbn [String.length]; lia].
    cbn [mbind option_bind]. rewrite str_app_cons, str_app_nil_l, skip_head by done. cbv zeta.
    change (Ascii.eqb "}" ",") with false. change (Ascii.eqb "}" "}") with true. cbv iota. by rewrite Hset.
  - rewrite Hv; [|done|done|rewrite !str_length_app; cbn [String.length]; lia].
    cbn [mbind option_bind]. rewrite str_app_cons, str_app_nil_l, skip_head by done.
    change (Ascii.eqb "," ",") with true. cbv iota. rewrite Hset.
    rewrite (IH kw (acc ++ [(k, v)])); [by rewrite <- app_assoc|done|done|by rewrite <- app_assoc|].
    rewrite !str_length_app. cbn [String.length]. lia.
Qed.

Lemma forallb_members (fs : list (string * json)) : forallb (fun '(k, v) => plain v) fs = true -> Forall (fun kv => plain kv.2 = true) fs.
Proof.
  induction fs as [|[k v] fs IH]; cbn [forallb]; [by constructor|]. intros [? ?]%andb_prop. constructor; auto.
Qed.

Lemma parse_text v : parses v.
Proof.
  induction v as [| |b|z|s|l HP|fs HP] using json_induction; intros Hp fuel rest Hr Hf; [done|..].
  all: destruct fuel as [|fuel]; [lia|].
  - done.
  - by destruct b.
  - change (text (JNum z)) with (bigint_to_string z) in *. rewrite <- (parse_number_text z rest Hr).
    destruct (number_head z) as (c & t & Hc & Hd). rewrite Hc. rewrite str_app_cons. cbn [parse_value].
    destruct (digit_head c Hd) as ((Hs & _) & H1 & H2 & H3 & H4 & H5 & H6).
    by rewrite skip_head, H1, H2, H3, H4, H5, H6.
  - change (text (JStr s)) with (quote s) in *. unfold quote. rewrite !str_app_assoc.
    unfold dquote at 1. rewrite str_app_cons, str_app_nil_l. cbn [parse_value]. rewrite skip_head by done.
    change (code (ascii_of_nat 34) =? 34) with true. cbv iota. by rewrite parse_quoted.
  - rewrite text_arr in *. rewrite str_app_assoc, str_app_cons, str_app_nil_l in *. cbn [parse_value].
    rewrite skip_head by done. change (code "[" =? 34) with false. change (Ascii.eqb "[" "[") with true. cbv iota.
    destruct l as [|v l]; [done|].
    assert (Hv : plain v = true) by (cbn in Hp; by apply andb_prop in Hp as [? _]).
    destruct (text_head v Hv) as (c & t & Ht & Hs & Hb & _).
    assert (Hhead : exists t', join "," (map text (v :: l)) +:+ "]" +:+ rest = String c t')
      by (cbn [map]; rewrite join_cons, Ht, !str_app_cons; eauto).
    destruct Hhead as [t' Ht']. rewrite str_app_assoc. rewrite Ht' at 1. rewrite skip_head, Hb by done.
    rewrite (parse_items_text l v []); [done|done|done|].
    rewrite str_app_assoc in Hf. cbn [String.length] in Hf. lia.
  - assert (Hps : forallb (fun '(k, v) => plain v) fs = true) by (cbn in Hp; by apply andb_prop in Hp as [_ ?]).
    assert (Hn : NoDup (fst <$> fs)) by (cbn in Hp; apply andb_prop in Hp as [Hd _]; by apply bool_decide_eq_true in Hd).
    rewrite text_obj in * by done. rewrite str_app_assoc, str_app_cons, str_app_nil_l in *. cbn [parse_value].
    rewrite skip_head by done. change (code "{" =? 34) with false. change (Ascii.eqb "{" "[") with false.
    change (Ascii.eqb "{" "{") with true. cbv iota.
    destruct fs as [|kv fs]; [done|].
    assert (Hhead : exists t', join "," (map member_text (kv :: fs)) +:+ "}" +:+ rest = String (ascii_of_nat 34) t')
      by (cbn [map]; rewrite join_cons; unfold member_text at 1, quote at 1, dquote at 1; rewrite !str_app_cons; eauto).
    destruct Hhead as [t' Ht']. rewrite str_app_assoc. rewrite Ht' at 1. rewrite skip_head by done.
    change (Ascii.eqb (ascii_of_nat 34) "}") with false. cbv iota.
    rewrite (parse_members_text fs kv []); [done|done|done|done|].
    rewrite str_app_assoc in Hf. cbn [String.length] in Hf. lia.
Qed.

(** [JSON.parse(JSON.stringify(v))] is [v]. *)
Lemma json_roundtrip v : plain v = true -> JSON_parse (text v) = Some v.
Proof.
  intros Hp. unfold JSON_parse. pose proof (parse_text v Hp (S (2 * String.length (text v))) "" I) as H.
  rewrite str_app_nil_r in H. rewrite H by lia. done.
Qed.

(** ** base64url *)
Definition base64_alphabet : string :=
  "ABCDEFGHIJKLMNOPQRSTUVWXYZabcdefghijklmnopqrstuvwxyz0123456789-_".
Definition base64_char (n : Z) : ascii := default "A"%char (String.get (Z.to_nat n) base64_alphabet).
(** Both alphabets are read. *)
Definition base64_digit (c : ascii) : option Z :=
  if is_upper c then Some (code c - 65)
  else if is_lower c then Some (code c - 71)
  else if is_digit c then Some (code c + 4)
  else if Ascii.eqb c "-" || Ascii.eqb c "+" then Some 62
  else if Ascii.eqb c "_" || Ascii.eqb c "/" then Some 63
  else None.

(** [buffer.toString('base64url')] *)
Fixpoint base64url_encode (s : string) : string :=
  match s with
  | String a (String b (String c r)) =>
      let n := code a * 65536 + code b * 256 + code c in
      String (base64_char (n / 262144)) (String (base64_char (n / 4096 mod 64))
        (String (base64_char (n / 64 mod 64)) (String (base64_char (n mod 64)) (base64url_encode r))))
  | String a (String b EmptyString) =>
      let n := code a * 256 + code b in
      String (base64_char (n / 1024)) (String (base64_char (n / 16 mod 64))
        (String (base64_char (n mod 16 * 4)) ""))
  | String a EmptyString =>
      String (base64_char (code a / 4)) (String (base64_char (code a mod 4 * 16)) "")
  | EmptyString => ""
  end.

(** [Buffer.from(s, 'base64url')]: other characters are skipped, bits short of
    a byte dropped. *)
Fixpoint base64_digits (s : string) : list Z :=
  match s with
  | EmptyString => []
  | String c r => match base64_digit c with Some d => d :: base64_digits r | None => base64_digits r end
  end.
Fixpoint base64_bytes (l : list Z) : string :=
  match l with
  | a :: b :: c :: d :: r =>
      let n := ((a * 64 + b) * 64 + c) * 64 + d in
      String (byte_char (n / 65536)) (String (byte_char (n / 256 mod 256)) (String (byte_char (n mod 256)) (base64_bytes r)))
  | [a; b; c] => let n := (a * 64 + b) * 64 + c in
      String (byte_char (n / 1024)) (String (byte_char (n / 4 mod 256)) "")
  | [a; b] => String (byte_char ((a * 64 + b) / 16)) ""
  | _ => ""
  end.
Definition base64url_decode (s : string) : string := base64_bytes (base64_digits s).

Lemma base64_digit_char n : 0 <= n < 64 -> base64_digit (base64_char n) = Some n.
Proof.
  intros H.
  assert (forallb (fun n => bool_decide (base64_digit (base64_char n) = Some n)) (map Z.of_nat (seq 0 64)) = true)
    as Hall by (vm_compute; reflexivity).
  rewrite forallb_forall in Hall. specialize (Hall n). rewrite bool_decide_eq_true in Hall. apply Hall.
  apply in_map_iff. exists (Z.to_nat n). split; [lia|]. apply in_seq. lia.
Qed.
Lemma code_range c : 0 <= code c < 256.
Proof. unfold code. pose proof (nat_ascii_bounded c). lia. Qed.
Lemma byte_char_code c n : n = code c -> byte_char n = c.
Proof. intros ->. unfold byte_char, code. rewrite Nat2Z.id. apply ascii_nat_embedding. Qed.

(** Strings three characters at a time. *)
Lemma string_triples (P : string -> Prop) :
  P "" -> (forall a, P (String a "")) -> (forall a b, P (String a (String b ""))) ->
  (forall a b c r, P r -> P (String a (String b (String c r)))) -> forall s, P s.
Proof.
  intros H0 H1 H2 H3. fix IH 1. intros [|a [|b [|c r]]]; [exact H0|apply H1|apply H2|apply H3, IH].
Qed.

Lemma base64url_roundtrip s : base64url_decode (base64url_encode s) = s.
Proof.
  unfold base64url_decode. induction s as [|a|a b|a b c r IH] using string_triples; [done|..].
  all: pose proof (code_range a); try pose proof (code_range b); try pose proof (code_range c).
  all: cbn [base64url_encode base64_digits]; cbv zeta.
  all: rewrite !base64_digit_char by (Z.to_euclidean_division_equations; lia); cbn [base64_bytes]; cbv zeta.
  - f_equal. apply byte_char_code. Z.to_euclidean_division_equations; lia.
  - f_equal; [|f_equal]; apply byte_char_code; Z.to_euclidean_division_equations; lia.
  - rewrite IH. f_equal; [|f_equal; [|f_equal]]; apply byte_char_code; Z.to_euclidean_division_equations; lia.
Qed.

(** ** The text of a JSON value, in base64url *)
Definition cursor_text (v : json) : string := base64url_encode (text v).
Definition cursor_json (s : string) : option json := JSON_parse (base64url_decode s).
Lemma cursor_roundtrip v : plain v = true -> cursor_json (cursor_text v) = Some v.
Proof. intros H. unfold cursor_json, cursor_text. rewrite base64url_roundtrip. by apply json_roundtrip. Qed.
Lemma cursor_nonempty v : plain v = true -> cursor_text v <> ""%string.
Proof.
  intros H. destruct (text_head v H) as (c & t & Ht & _). unfold cursor_text. rewrite Ht.
  by destruct t as [|b [|d t]].
Qed.

(** The bytes of hexadecimal text, [Buffer.from(s, 'hex')]: reading stops at
    the first pair that is not hexadecimal. *)
Fixpoint hex_bytes (s : string) : string :=
  match s with
  | String a (String b r) =>
      match hex_digit_value a, hex_digit_value b with
      | Some x, Some y => String (byte_char (x * 16 + y)) (hex_bytes r)
      | _, _ => ""
      end
  | _ => ""
  end.
