(* ===== verification/JsNumber.v ===== *)
(** * JavaScript numbers: IEEE doubles, their text, and the conversions the
    services use ([Number(s)], [parseFloat], [Math.floor], [toString]).

    A finite number is [m * 2 ^ e] exactly. The sign of zero is not kept: no
    operation used here tells [-0] from [0]. *)

From Stdlib Require Import ZArith Lia Ascii String.
From stdpp Require Import base strings list.
From S2P Require Import Prelude.
From S2P Require Import Js.
From S2P Require Import Codec.

Open Scope Z_scope.

Inductive number := NaN | Infinity (negative : bool) | Fin (m e : Z).

(** ** Rounding: the nearest double to [n / d], ties to even *)
Definition floor_log2_ratio (n d : Z) : Z :=
  let k := Z.log2 n - Z.log2 d in
  if (if 0 <=? k then n <? d * 2 ^ k else n * 2 ^ (- k) <? d) then k - 1 else k.
Definition round_half_even (a b : Z) : Z :=
  let q := a / b in
  let r := a mod b in
  if 2 * r <? b then q else if b <? 2 * r then q + 1 else q + q mod 2.
Definition round_ratio (n d : Z) : number :=
  if n =? 0 then Fin 0 0
  else
    let u := Z.max (floor_log2_ratio n d - 52) (-1074) in
    let q := if 0 <=? u then round_half_even n (d * 2 ^ u) else round_half_even (n * 2 ^ (- u)) d in
    if (971 <? u) || (u =? 971) && (2 ^ 53 <=? q) then Infinity false else Fin q u.
Definition negate (x : number) : number :=
  match x with NaN => NaN | Infinity s => Infinity (negb s) | Fin m e => Fin (- m) e end.
Definition signed (negative : bool) (x : number) : number := if negative then negate x else x.

(** [m * 2 ^ e] rounded. *)
Definition round_scaled (m e : Z) : number :=
  signed (m <? 0) (if 0 <=? e then round_ratio (Z.abs m * 2 ^ e) 1 else round_ratio (Z.abs m) (2 ^ (- e))).
(** [Number(z)] of a BigInt or of a 64-bit integer. *)
Definition number_of_Z (z : Z) : number := round_scaled z 0.

Definition number_mul (x y : number) : number :=
  match x, y with
  | NaN, _ | _, NaN => NaN
  | Infinity s, Infinity t => Infinity (xorb s t)
  | Infinity s, Fin m _ | Fin m _, Infinity s => if m =? 0 then NaN else Infinity (xorb s (m <? 0))
  | Fin m1 e1, Fin m2 e2 => round_scaled (m1 * m2) (e1 + e2)
  end.
Definition Math_floor (x : number) : number :=
  match x with
  | Fin m e => if 0 <=? e then x else Fin (m / 2 ^ (- e)) 0
  | _ => x
  end.
(** The integer a number is, if it is one. *)
Definition integer_value (x : number) : option Z :=
  match x with
  | Fin m e =>
      if 0 <=? e then Some (m * 2 ^ e)
      else if m mod 2 ^ (- e) =? 0 then Some (m / 2 ^ (- e)) else None
  | _ => None
  end.
(** [Number.isSafeInteger(x)], with the integer. *)
Definition safe_integer (x : number) : option Z :=
  z ← integer_value x; if Z.abs z <? 2 ^ 53 then Some z else None.

(** ** Text to number *)
Definition exponent (s : string) : Z * string :=
  match s with
  | String c r =>
      if Ascii.eqb c "e" || Ascii.eqb c "E" then
        let '(sign, t) := match r with
                          | String "-" t => (-1, t)
                          | String "+" t => (1, t)
                          | _ => (1, r)
                          end in
        let '(ds, rest) := span is_digit t in
        if String.eqb ds "" then (0, s) else (sign * digits_value 0 ds, rest)
      else (0, s)
  | EmptyString => (0, s)
  end.
(** A decimal literal at the head of the text: mantissa, exponent of ten, rest. *)
Definition decimal (s : string) : option (Z * Z * string) :=
  let '(whole, r) := span is_digit s in
  let '(fraction, r') := match r with
                         | String "." t => span is_digit t
                         | _ => (""%string, r)
                         end in
  if String.eqb whole "" && String.eqb fraction "" then None
  else
    let '(e, rest) := exponent r' in
    Some (digits_value 0 (whole +:+ fraction), e - Z.of_nat (String.length fraction), rest).
Definition number_of_decimal (m e : Z) : number :=
  if 0 <=? e then round_ratio (m * 10 ^ e) 1 else round_ratio m (10 ^ (- e)).
Definition signed_text (s : string) : bool * string :=
  match s with
  | String "-" r => (true, r)
  | String "+" r => (false, r)
  | _ => (false, s)
  end.
Definition infinity_text : string := "Infinity".

Definition parseFloat (s : string) : number :=
  let '(negative, r) := signed_text (trim_start s) in
  match strip infinity_text r with
  | Some _ => Infinity negative
  | None => match decimal r with
            | Some (m, e, _) => signed negative (number_of_decimal m e)
            | None => NaN
            end
  end.
Definition Number_of_string (s : string) : number :=
  let radix base r := match nonempty_radix base r with Some z => number_of_Z z | None => NaN end in
  match trim s with
  | EmptyString => Fin 0 0
  | String "0" (String "x" r) | String "0" (String "X" r) => radix 16 r
  | String "0" (String "o" r) | String "0" (String "O" r) => radix 8 r
  | String "0" (String "b" r) | String "0" (String "B" r) => radix 2 r
  | t =>
      let '(negative, r) := signed_text t in
      if String.eqb r infinity_text then Infinity negative
      else match decimal r with
           | Some (m, e, EmptyString) => signed negative (number_of_decimal m e)
           | _ => NaN
           end
  end.

(** ** Integer numbers to text *)

(** The shortest decimal that rounds back to the double [v]: its digits,
    followed by zeros. *)
Fixpoint shortest (fuel : nat) (k : Z) (v : Z) : Z :=
  let p := 10 ^ (Z.of_nat (String.length (bigint_to_string v)) - k) in
  let s := (2 * v + p) / (2 * p) * p in
  match fuel with
  | O => v
  | S fuel => if bool_decide (integer_value (number_of_Z s) = Some v) then s else shortest fuel (k + 1) v
  end.
Fixpoint strip_trailing_zeros (s : string) : string :=
  match s with
  | EmptyString => ""
  | String c r => match strip_trailing_zeros r with
                  | EmptyString => if Ascii.eqb c "0" then "" else String c ""
                  | t => String c t
                  end
  end.
Definition scientific (digits : string) : string :=
  let e := bigint_to_string (Z.of_nat (String.length digits) - 1) in
  match strip_trailing_zeros digits with
  | String c EmptyString => String c ("e+" +:+ e)
  | String c r => String c ("." +:+ r +:+ "e+" +:+ e)
  | EmptyString => ""
  end.
Definition integer_text (z : Z) : string :=
  if Z.abs z <? 2 ^ 53 then bigint_to_string z
  else
    let digits := bigint_to_string (shortest 17 1 (Z.abs z)) in
    let t := if (String.length digits <=? 21)%nat then digits else scientific digits in
    if z <? 0 then String "-" t else t.
(** [x.toString()] for NaN, the infinities and integers, which is what
    [Math.floor] returns. *)
Definition integer_number_text (x : number) : string :=
  match x with
  | NaN => "NaN"
  | Infinity negative => if negative then "-Infinity" else "Infinity"
  | Fin _ _ => default "" (integer_text <$> integer_value x)
  end.

Example number_texts :
  map (fun s => integer_number_text (Math_floor (number_mul (parseFloat s) (Fin 100 0))))
    ["0.29"; "1.1"; "10000"; "10000000000000000000000.55"; "11529215046068469.76"; "007.5"; "19.99"]%string =
  ["28"; "110"; "1000000"; "1e+24"; "1152921504606847000"; "750"; "1998"]%string.
Proof. vm_compute. reflexivity. Qed.
Example number_values :
  map (fun s => safe_integer (Number_of_string s)) [" 12 "; "1e3"; "0x10"; ""; "12.5"; "9007199254740993"; "x"]%string =
  [Some 12; Some 1000; Some 16; Some 0; None; None; None].
Proof. vm_compute. reflexivity. Qed.

(** ** How far rounding moves a value *)

(** A finite number in units of [2 ^ -1074], the smallest positive double. *)
Definition units (m e : Z) : Z := m * 2 ^ (e + 1074).

Lemma floor_log2_ratio_spec n d : 0 < n -> 0 < d ->
  let k := floor_log2_ratio n d in
  (0 <= k -> d * 2 ^ k <= n < d * 2 ^ (k + 1)) /\ (k < 0 -> d <= n * 2 ^ (- k) < 2 * d).
Proof.
  intros Hn Hd. pose proof (Z.log2_spec n Hn) as [Hn1 Hn2]. pose proof (Z.log2_spec d Hd) as [Hd1 Hd2].
  pose proof (Z.log2_nonneg n). pose proof (Z.log2_nonneg d). unfold floor_log2_ratio.
  set (ln := Z.log2 n) in *. set (ld := Z.log2 d) in *. clearbody ln ld.
  rewrite Z.pow_succ_r in Hn2, Hd2 by lia. destruct (Z.leb_spec 0 (ln - ld)) as [Hk|Hk].
  - assert (Hp : 2 ^ ln = 2 ^ ld * 2 ^ (ln - ld)) by (rewrite <- Z.pow_add_r by lia; f_equal; lia).
    assert (0 < 2 ^ (ln - ld)) by (apply Z.pow_pos_nonneg; lia).
    destruct (Z.ltb_spec n (d * 2 ^ (ln - ld))) as [Hlt|Hge].
    + split; intros Hk'.
      * replace (ln - ld - 1 + 1) with (ln - ld) by lia.
        assert (2 ^ (ln - ld) = 2 * 2 ^ (ln - ld - 1)) by (rewrite <- Z.pow_succ_r by lia; f_equal; lia). nia.
      * assert (ln - ld = 0) as Hz by lia. rewrite Hz in *. change (2 ^ 0) with 1 in *.
        change (2 ^ (- (0 - 1))) with 2. lia.
    + split; intros Hk'; [|lia]. rewrite Z.pow_add_r by lia. change (2 ^ 1) with 2. nia.
  - assert (Hp : 2 ^ ld = 2 ^ ln * 2 ^ (- (ln - ld))) by (rewrite <- Z.pow_add_r by lia; f_equal; lia).
    assert (0 < 2 ^ (- (ln - ld))) by (apply Z.pow_pos_nonneg; lia).
    destruct (Z.ltb_spec (n * 2 ^ (- (ln - ld))) d) as [Hlt|Hge]; (split; intros Hk'; [lia|]).
    + replace (- (ln - ld - 1)) with (Z.succ (- (ln - ld))) by lia. rewrite Z.pow_succ_r by lia. nia.
    + nia.
Qed.
Lemma round_half_even_spec a b : 0 <= a -> 0 < b ->
  0 <= round_half_even a b /\ 2 * Z.abs (round_half_even a b * b - a) <= b.
Proof.
  intros Ha Hb. unfold round_half_even. pose proof (Z.div_mod a b ltac:(lia)) as Hdm.
  pose proof (Z.mod_pos_bound a b Hb). pose proof (Z.div_pos a b Ha Hb).
  pose proof (Z.mod_pos_bound (a / b) 2 ltac:(lia)).
  destruct (Z.ltb_spec (2 * (a mod b)) b); [nia|]. destruct (Z.ltb_spec b (2 * (a mod b))); [nia|].
  assert ((a / b) mod 2 = 0 \/ (a / b) mod 2 = 1) as [->| ->] by lia; nia.
Qed.

(** [n / d] between [2 ^ -1000] and [2 ^ 900] rounds to a finite number that is
    off by [2 ^ -53] of its value at most. *)
Lemma round_ratio_close n d : 0 < n -> 0 < d -> d <= n * 2 ^ 1000 -> n < d * 2 ^ 900 ->
  exists m e, round_ratio n d = Fin m e /\ 0 <= m /\ -1074 <= e /\
    2 ^ 53 * Z.abs (units m e * d - n * 2 ^ 1074) <= n * 2 ^ 1074.
Proof.
  intros Hn Hd Hlo Hhi. pose proof (floor_log2_ratio_spec n d Hn Hd) as [Hk0 Hk1].
  unfold round_ratio. rewrite (proj2 (Z.eqb_neq n 0)) by lia.
  set (k := floor_log2_ratio n d) in *. cbv zeta in *. clearbody k.
  assert (Hk : -1001 <= k < 900).
  { split.
    - destruct (Z.leb_spec 0 k); [lia|]. destruct (Z.ltb_spec k (-1001)) as [Hlt|]; [|lia].
      assert (Hm : 2 * 2 ^ 1000 <= 2 ^ (- k))
        by (rewrite <- (Z.pow_succ_r 2 1000) by done; apply Z.pow_le_mono_r; lia).
      specialize (Hk1 ltac:(lia)). clear Hk0 Hhi. generalize dependent (2 ^ 1000).
      generalize dependent (2 ^ (- k)). intros x Hx y Hy Hxy. nia.
    - destruct (Z.ltb_spec k 900) as [|Hge]; [lia|]. specialize (Hk0 ltac:(lia)).
      assert (Hm : 2 ^ 900 <= 2 ^ k) by (apply Z.pow_le_mono_r; lia). clear Hk1 Hlo.
      generalize dependent (2 ^ 900). destruct Hk0 as [Hk0 _]. generalize dependent (2 ^ k). intros x Hx y Hy Hxy.
      pose proof (Z.mul_le_mono_nonneg_l _ _ d ltac:(lia) Hxy). lia. }
  clear Hlo Hhi.
  rewrite Z.max_l by lia. rewrite (proj2 (Z.ltb_ge 971 (k - 52))), (proj2 (Z.eqb_neq (k - 52) 971)) by lia.
  cbn [orb andb]. eexists _, _. split; [reflexivity|]. unfold units.
  destruct (Z.leb_spec 0 (k - 52)) as [Hu|Hu].
  - pose proof (Z.pow_pos_nonneg 2 (k - 52) ltac:(lia) Hu) as Hp.
    destruct (round_half_even_spec n (d * 2 ^ (k - 52)) ltac:(lia) ltac:(nia)) as [Hq Hr].
    set (q := round_half_even _ _) in *. clearbody q. split; [exact Hq|]. split; [lia|].
    rewrite Z.pow_add_r by lia. specialize (Hk0 ltac:(lia)).
    assert (Hs : 2 ^ k = 2 ^ (k - 52) * 2 ^ 52) by (rewrite <- Z.pow_add_r by lia; f_equal; lia).
    rewrite Hs in Hk0. pose proof (Z.pow_pos_nonneg 2 1074 ltac:(lia) ltac:(lia)).
    set (U := 2 ^ (k - 52)) in *. set (S := 2 ^ 1074) in *. clearbody U S.
    replace (q * (U * S) * d - n * S) with ((q * (d * U) - n) * S) by ring.
    rewrite Z.abs_mul, (Z.abs_eq S) by lia. rewrite Z.mul_assoc. apply Z.mul_le_mono_nonneg_r; [lia|]. lia.
  - destruct (round_half_even_spec (n * 2 ^ (- (k - 52))) d
      ltac:(pose proof (Z.pow_pos_nonneg 2 (- (k - 52)) ltac:(lia) ltac:(lia)); nia) Hd) as [Hq Hr].
    set (q := round_half_even _ _) in *. clearbody q. split; [exact Hq|]. split; [lia|].
    assert (Hs : 2 ^ 1074 = 2 ^ (- (k - 52)) * 2 ^ (k - 52 + 1074))
      by (rewrite <- Z.pow_add_r by lia; f_equal; lia).
    rewrite Hs. pose proof (Z.pow_pos_nonneg 2 (k - 52 + 1074) ltac:(lia) ltac:(lia)).
    assert (Hb : d * 2 ^ 52 <= n * 2 ^ (- (k - 52))).
    { destruct (Z.leb_spec 0 k) as [H0|H0].
      - specialize (Hk0 H0). assert (Hs2 : 2 ^ 52 = 2 ^ k * 2 ^ (- (k - 52)))
          by (rewrite <- Z.pow_add_r by lia; f_equal; lia).
        rewrite Hs2. pose proof (Z.pow_pos_nonneg 2 (- (k - 52)) ltac:(lia) ltac:(lia)). nia.
      - specialize (Hk1 H0). assert (Hs2 : 2 ^ (- (k - 52)) = 2 ^ (- k) * 2 ^ 52)
          by (rewrite <- Z.pow_add_r by lia; f_equal; lia). rewrite Hs2. nia. }
    set (U := 2 ^ (- (k - 52))) in *. set (S := 2 ^ (k - 52 + 1074)) in *. clearbody U S.
    replace (q * S * d - n * (U * S)) with ((q * d - n * U) * S) by ring.
    rewrite Z.abs_mul, (Z.abs_eq S) by lia. rewrite Z.mul_assoc, (Z.mul_assoc n).
    apply Z.mul_le_mono_nonneg_r; lia.
Qed.
Lemma Math_floor_units m e : -1074 <= e -> exists z, integer_value (Math_floor (Fin m e)) = Some z /\
  z = units m e / 2 ^ 1074.
Proof.
  intros He. unfold Math_floor, units. destruct (Z.leb_spec 0 e) as [H|H].
  - exists (m * 2 ^ e). split; [cbn; by rewrite (proj2 (Z.leb_le 0 e) H)|].
    rewrite Z.pow_add_r, Z.mul_assoc by lia. rewrite Z.div_mul; [done|]. apply Z.pow_nonzero; lia.
  - eexists. split; [cbn; by rewrite Z.mul_1_r|].
    replace (2 ^ 1074) with (2 ^ (- e) * 2 ^ (e + 1074)) by (rewrite <- Z.pow_add_r by lia; f_equal; lia).
    rewrite Z.div_mul_cancel_r; [done|apply Z.pow_nonzero; lia..].
Qed.
