(* ===== verification/Regex.v ===== *)
(** * Regular expressions of the contracts: a matcher by derivatives, and the
    language it recognises. Every pattern of the source is anchored at both
    ends, so [rx_match] tests the whole string. *)

From Stdlib Require Import ZArith Lia Ascii String.
From stdpp Require Import base strings list.
From S2P Require Import Prelude.
From S2P Require Import Js.

Inductive rx : Type :=
| Empty
| Eps
| Cls (p : ascii -> bool)
| Cat (a b : rx)
| Or (a b : rx)
| Star (a : rx).

(** ** Patterns as the source writes them *)
Declare Scope rx_scope.
Delimit Scope rx_scope with rx.
Infix "·" := Cat (at level 40, left associativity) : rx_scope.
Infix "∥" := Or (at level 50, left associativity) : rx_scope.
Open Scope rx_scope.

Definition chr (c : ascii) : rx := Cls (Ascii.eqb c).
Fixpoint lit (s : string) : rx :=
  match s with EmptyString => Eps | String c s' => chr c · lit s' end.
Definition opt (a : rx) : rx := Eps ∥ a.
(** [a{n}] and [a{0,n}] *)
Fixpoint rep (n : nat) (a : rx) : rx :=
  match n with O => Eps | S n' => a · rep n' a end.
Fixpoint rep_upto (n : nat) (a : rx) : rx :=
  match n with O => Eps | S n' => opt (a · rep_upto n' a) end.
(** [a{lo,hi}] *)
Definition rep_range (lo hi : nat) (a : rx) : rx := rep lo a · rep_upto (hi - lo) a.
Definition digit : rx := Cls is_digit.
Definition digit19 : rx := Cls (in_range "1" "9").
Definition upper : rx := Cls is_upper.
(** [[A-Z0-9]] *)
Definition upper_digit : rx := Cls (fun c => is_upper c || is_digit c).
Definition alnum (c : ascii) : bool := is_upper c || is_lower c || is_digit c.
(** [[A-Za-z0-9_-]] *)
Definition url_safe : rx := Cls (fun c => alnum c || Ascii.eqb c "_" || Ascii.eqb c "-").
(** [[A-Za-z0-9._:-]] *)
Definition key_safe : rx :=
  Cls (fun c => alnum c || Ascii.eqb c "." || Ascii.eqb c "_" || Ascii.eqb c ":" || Ascii.eqb c "-").

(** ** The matcher *)
Fixpoint nullable (r : rx) : bool :=
  match r with
  | Empty | Cls _ => false
  | Eps | Star _ => true
  | a · b => nullable a && nullable b
  | a ∥ b => nullable a || nullable b
  end.

(** Concatenation and alternation that drop the units, so that derivatives stay small. *)
Definition cat (a b : rx) : rx :=
  match a with Empty => Empty | Eps => b | _ => a · b end.
Definition alt (a b : rx) : rx :=
  match a, b with Empty, _ => b | _, Empty => a | _, _ => a ∥ b end.

Fixpoint deriv (c : ascii) (r : rx) : rx :=
  match r with
  | Empty | Eps => Empty
  | Cls p => if p c then Eps else Empty
  | a · b => let d := cat (deriv c a) b in
             if nullable a then alt d (deriv c b) else d
  | a ∥ b => alt (deriv c a) (deriv c b)
  | Star a => cat (deriv c a) (Star a)
  end.

Fixpoint rx_match (r : rx) (s : string) : bool :=
  match s with
  | EmptyString => nullable r
  | String c s' => rx_match (deriv c r) s'
  end.

(** ** The language *)
Inductive rx_in : rx -> string -> Prop :=
| in_Eps : rx_in Eps ""
| in_Cls p c : p c = true -> rx_in (Cls p) (String c "")
| in_Cat a b s t : rx_in a s -> rx_in b t -> rx_in (a · b) (s +:+ t)
| in_OrL a b s : rx_in a s -> rx_in (a ∥ b) s
| in_OrR a b s : rx_in b s -> rx_in (a ∥ b) s
| in_Star_nil a : rx_in (Star a) ""
| in_Star_cons a s t : rx_in a s -> rx_in (Star a) t -> rx_in (Star a) (s +:+ t).

Create HintDb rx.
#[export] Hint Constructors rx_in : rx.

Lemma nullable_in r : nullable r = true <-> rx_in r "".
Proof.
  split.
  - induction r; cbn; try done; intros H; [constructor| | |constructor].
    + apply andb_prop in H as [H1 H2]. apply (in_Cat _ _ "" ""); auto.
    + apply orb_prop in H as [H|H]; [apply in_OrL|apply in_OrR]; auto.
  - intros H. remember ""%string as s eqn:Hs. induction H; cbn; try done.
    + destruct s; [|discriminate]. cbn in Hs. subst. by rewrite IHrx_in1, IHrx_in2.
    + by rewrite IHrx_in.
    + rewrite IHrx_in by done. apply orb_true_r.
Qed.

Lemma in_cat a b s : rx_in (cat a b) s <-> rx_in (a · b) s.
Proof.
  destruct a; cbn; try done.
  - split; inversion 1; subst. by match goal with H : rx_in Empty _ |- _ => inversion H end.
  - split; [intros H; apply (in_Cat Eps b "" s); auto with rx|].
    inversion 1; subst. by match goal with H : rx_in Eps _ |- _ => inversion H; subst end.
Qed.

Lemma in_alt a b s : rx_in (alt a b) s <-> rx_in a s \/ rx_in b s.
Proof.
  assert (rx_in Empty s -> False) by inversion 1.
  assert (rx_in (a ∥ b) s <-> rx_in a s \/ rx_in b s).
  { split; [inversion 1; auto|intros [|]; auto with rx]. }
  destruct a, b; cbn; tauto.
Qed.

Lemma deriv_in c r s : rx_in (deriv c r) s <-> rx_in r (String c s).
Proof.
  revert s. induction r as [| |p|a IHa b IHb|a IHa b IHb|a IHa]; intros s; cbn.
  - split; inversion 1.
  - split; inversion 1.
  - destruct (p c) eqn:Hp; split; inversion 1; subst; try congruence; auto with rx.
  - assert (Hcat : rx_in (cat (deriv c a) b) s \/ (nullable a = true /\ rx_in (deriv c b) s) <->
      rx_in (a · b) (String c s)).
    { split.
      - intros [H|[Hn H]].
        + apply in_cat in H. inversion H as [| |? ? s1 s2 H1 H2| | | |]; subst.
          apply IHa in H1. rewrite <- str_app_cons. apply (in_Cat a b (String c s1) s2); auto.
        + apply IHb in H. apply nullable_in in Hn. apply (in_Cat a b "" (String c s)); auto.
      - inversion 1 as [| |? ? s1 s2 H1 H2 E1 E2| | | |]; subst.
        destruct s1 as [|c1 s1]; [right|left].
        + change (s2 = String c s) in E2. subst. split; [by apply nullable_in|by apply IHb].
        + rewrite str_app_cons in E2. injection E2 as -> <-. apply in_cat.
          constructor; [by apply IHa|done]. }
    rewrite <- Hcat. destruct (nullable a); [rewrite in_alt|]; intuition congruence.
  - rewrite in_alt, IHa, IHb. split; [intros [|]; auto with rx|inversion 1; auto].
  - rewrite in_cat. split.
    + inversion 1 as [| |? ? s1 s2 H1 H2| | | |]; subst. apply IHa in H1.
      rewrite <- str_app_cons. apply (in_Star_cons a (String c s1) s2); auto.
    + intros H. remember (Star a) as r eqn:Hr. remember (String c s) as t eqn:Ht. revert s Ht.
      induction H as [| | | | | |a' s1 s2 H1 _ H2 IH2]; intros s0 Ht; try done.
      injection Hr as ->. destruct s1 as [|c1 s1]; [by apply IH2|].
      rewrite str_app_cons in Ht. injection Ht as -> <-. constructor; [by apply IHa|done].
Qed.

(** The matcher decides the language. *)
Lemma rx_match_in r s : rx_match r s = true <-> rx_in r s.
Proof.
  revert r. induction s as [|c s IH]; intros r; cbn; [apply nullable_in|].
  by rewrite IH, deriv_in.
Qed.

(** ** Repetitions of a character class *)
Lemma in_rep n p s : String.length s = n -> str_all p s = true -> rx_in (rep n (Cls p)) s.
Proof.
  revert n. induction s as [|c s IH]; intros [|n]; cbn; try discriminate; [constructor|].
  intros [= Hn] [Hc Hs]%andb_prop. apply (in_Cat (Cls p) _ (String c "") s); auto with rx.
Qed.
Lemma in_rep_upto n p s :
  (String.length s <= n)%nat -> str_all p s = true -> rx_in (rep_upto n (Cls p)) s.
Proof.
  revert n. induction s as [|c s IH]; intros n Hn Hs.
  - destruct n; cbn; [constructor|apply in_OrL; constructor].
  - destruct n as [|n]; cbn in *; [lia|]. apply andb_prop in Hs as [Hc Hs].
    apply in_OrR. apply (in_Cat (Cls p) _ (String c "") s); auto with rx. apply IH; [lia|done].
Qed.
Lemma rep_upto_inv n p s : rx_in (rep_upto n (Cls p)) s ->
  (String.length s <= n)%nat /\ str_all p s = true.
Proof.
  revert s. induction n as [|n IH]; intros s; cbn; inversion 1; subst; cbn; [split; [lia|done]| |].
  - match goal with H : rx_in Eps _ |- _ => inversion H; subst end. cbn. split; [lia|done].
  - match goal with H : rx_in (_ · _) _ |- _ => inversion H as [| |? ? s1 s2 H1 H2| | | |]; subst end.
    inversion H1; subst. apply IH in H2 as [? ?]. rewrite str_app_cons, str_app_nil_l. cbn. split; [lia|].
    apply andb_true_intro. auto.
Qed.
