(* ===== verification/Contracts.v ===== *)
(** * The shared contracts ([packages/contracts/src]): enumerations, string
    schemas, request and response records, and the conversions of money text. *)

From Stdlib Require Import ZArith Lia Ascii String.
From stdpp Require Import base strings list.
From S2P Require Import Prelude.
From S2P Require Import Js.
From S2P Require Import Regex.

Open Scope Z_scope.

(** The checks that the zod library provides ready-made. *)
Class Zod := {
  z_uuid : string -> bool;
  z_datetime : string -> bool
}.

(** ** Enumerations ([accounts/v1.ts]) *)
Inductive AccountProductType := TIER0_WALLET.
Inductive AccountStatus := ACTIVE | FROZEN | CLOSED.
Inductive LedgerAccountClass := ASSET | LIABILITY | EQUITY | REVENUE | EXPENSE.
Inductive PostingDirection := DEBIT | CREDIT.
Inductive JournalEntryType :=
| ACCOUNT_ADJUSTMENT | SETTLEMENT_FUNDING | INTERNAL_TEST | CUSTOMER_TRANSFER
| QR_PAYMENT | AGENT_CASH_IN | AGENT_CASH_OUT.

#[export] Instance AccountProductType_eq_dec : EqDecision AccountProductType.
Proof. solve_decision. Defined.
#[export] Instance AccountStatus_eq_dec : EqDecision AccountStatus.
Proof. solve_decision. Defined.
#[export] Instance LedgerAccountClass_eq_dec : EqDecision LedgerAccountClass.
Proof. solve_decision. Defined.
#[export] Instance PostingDirection_eq_dec : EqDecision PostingDirection.
Proof. solve_decision. Defined.
#[export] Instance JournalEntryType_eq_dec : EqDecision JournalEntryType.
Proof. solve_decision. Defined.

(** The text of an enumeration value, as it appears in JSON. *)
Definition productType_str (t : AccountProductType) : string := "TIER0_WALLET".
Definition status_str (s : AccountStatus) : string :=
  match s with ACTIVE => "ACTIVE" | FROZEN => "FROZEN" | CLOSED => "CLOSED" end.
Definition direction_str (d : PostingDirection) : string :=
  match d with DEBIT => "DEBIT" | CREDIT => "CREDIT" end.
Definition entryType_str (t : JournalEntryType) : string :=
  match t with
  | ACCOUNT_ADJUSTMENT => "ACCOUNT_ADJUSTMENT" | SETTLEMENT_FUNDING => "SETTLEMENT_FUNDING"
  | INTERNAL_TEST => "INTERNAL_TEST" | CUSTOMER_TRANSFER => "CUSTOMER_TRANSFER"
  | QR_PAYMENT => "QR_PAYMENT" | AGENT_CASH_IN => "AGENT_CASH_IN"
  | AGENT_CASH_OUT => "AGENT_CASH_OUT"
  end.

(** ** String schemas: [Some] is the parsed (trimmed) value *)
Definition z_regex (r : rx) (s : string) : option string :=
  if rx_match r s then Some s else None.

Definition currency_rx : rx := rep 3 upper.
Definition currencyCodeSchema (s : string) : option string := z_regex currency_rx (trim s).
(** [0|[1-9]\d{0,23}] *)
Definition minorUnits_rx : rx := (chr "0" ∥ digit19 · rep_upto 23 digit)%rx.
Definition minorUnitsSchema : string -> option string := z_regex minorUnits_rx.
Definition positiveMinorUnits_rx : rx := (digit19 · rep_upto 23 digit)%rx.
Definition positiveMinorUnitsSchema : string -> option string := z_regex positiveMinorUnits_rx.
Definition signedMinorUnits_rx : rx := (opt (chr "-") · minorUnits_rx)%rx.
Definition signedMinorUnitsSchema (s : string) : option string :=
  if String.eqb s "-0" then None else z_regex signedMinorUnits_rx s.
Definition idempotencyKey_rx : rx := rep_range 16 128 key_safe.
Definition idempotencyKeySchema (s : string) : option string := z_regex idempotencyKey_rx (trim s).
Definition group4 : rx := rep 4 upper_digit.
Definition publicAccountReference_rx : rx :=
  (lit "AEGIS-" · group4 · chr "-" · group4 · chr "-" · group4)%rx.
Definition publicAccountReferenceSchema : string -> option string := z_regex publicAccountReference_rx.
Definition maskedAccountReference_rx : rx := (lit "AEGIS-****-****-" · group4)%rx.
Definition maskedAccountReferenceSchema : string -> option string := z_regex maskedAccountReference_rx.
Definition journalReference_rx : rx := rep_range 8 64 key_safe.
Definition journalReferenceSchema (s : string) : option string :=
  z_regex journalReference_rx (trim s).
Definition journalDescriptionSchema (s : string) : option string :=
  let t := trim s in
  if ((1 <=? String.length t) && (String.length t <=? 256))%nat then Some t else None.
Definition displayTransactionReference_rx : rx :=
  (lit "AEGIS-TXN-" · group4 · chr "-" · group4 · chr "-" · group4)%rx.
Definition transferDisplayReference_rx : rx :=
  (lit "AEGIS-TRF-" · group4 · chr "-" · group4 · chr "-" · group4)%rx.
Definition transferDisplayReferenceSchema : string -> option string :=
  z_regex transferDisplayReference_rx.
Definition opaqueIntentToken_rx : rx := rep_range 43 128 url_safe.
Definition opaqueIntentTokenSchema : string -> option string := z_regex opaqueIntentToken_rx.
(** The untrimmed idempotency key of the Payments contracts. *)
Definition paymentKeySchema : string -> option string := z_regex idempotencyKey_rx.

(** ** Records *)
Record Money := mkMoney { currency : string; minorUnits : string }.

Record JournalPostingRequest := mkPostingRequest {
  pr_ledgerAccountId : string;
  pr_direction : PostingDirection;
  pr_amountMinor : string
}.

(** Metadata is a flat record; [None] in a field of type [option] is an absent
    property. *)
Record InternalJournalRequest := mkJournalRequest {
  jr_reference : option string;
  jr_entryType : JournalEntryType;
  jr_currency : string;
  jr_description : option string;
  jr_effectiveAt : option string;
  jr_idempotencyKey : string;
  jr_postings : list JournalPostingRequest;
  jr_metadata : option (list (string * json))
}.

Record JournalPostingResult := mkPostingResult {
  ps_id : string;
  ps_ledgerAccountId : string;
  ps_direction : PostingDirection;
  ps_amountMinor : string;
  ps_sequence : Z
}.

Record JournalResult := mkJournalResult {
  jres_id : string;
  jres_reference : string;
  jres_entryType : JournalEntryType;
  jres_currency : string;
  jres_totalMinor : string;
  jres_effectiveAt : string;
  jres_createdAt : string;
  jres_postings : list JournalPostingResult
}.

Record CustomerAccountSummary := mkAccountSummary {
  cas_id : string;
  cas_maskedReference : string;
  cas_productType : AccountProductType;
  cas_status : AccountStatus;
  cas_currency : string;
  cas_createdAt : string
}.
Record CustomerAccountDetail := mkAccountDetail {
  cad_summary : CustomerAccountSummary;
  cad_balance : Money;
  cad_receivingReference : string
}.
Record AccountBalance := mkAccountBalance {
  ab_accountId : string;
  ab_balance : Money;
  ab_updatedAt : string
}.
Record ProvisionDefaultAccountResult := mkProvisionResult {
  pv_account : CustomerAccountDetail;
  pv_created : bool
}.
Record InternalProvisionDefaultAccountInput := mkProvisionInput {
  pi_customerId : string;
  pi_productType : AccountProductType;
  pi_currency : string;
  pi_idempotencyKey : string
}.

Definition matched (o : option string) (s : string) : bool :=
  match o with Some t => String.eqb s t | None => false end.

Section Schemas.
Context {zod : Zod}.

Definition moneySchema (m : Money) : option Money :=
  c ← currencyCodeSchema (currency m); u ← signedMinorUnitsSchema (minorUnits m);
  mret (mkMoney c u).

Definition journalPostingRequestSchema (p : JournalPostingRequest) : option JournalPostingRequest :=
  if z_uuid (pr_ledgerAccountId p) then
    a ← positiveMinorUnitsSchema (pr_amountMinor p);
    Some (mkPostingRequest (pr_ledgerAccountId p) (pr_direction p) a)
  else None.

(** [.optional()]: an absent property is accepted as it is. *)
Definition optionally {A B} (f : A -> option B) (o : option A) : option (option B) :=
  match o with None => Some None | Some a => b ← f a; Some (Some b) end.

(** The well-formed values of [journalResultSchema]: parsing trims the
    reference and the currency and leaves the other fields alone. *)
Definition journalPostingResultSchema (p : JournalPostingResult) : option JournalPostingResult :=
  if z_uuid (ps_id p) && z_uuid (ps_ledgerAccountId p)
     && (0 <=? ps_sequence p) && (ps_sequence p <=? 31) then
    _ ← positiveMinorUnitsSchema (ps_amountMinor p); Some p
  else None.

Definition journalResultSchema (r : JournalResult) : option JournalResult :=
  if z_uuid (jres_id r) && z_datetime (jres_effectiveAt r) && z_datetime (jres_createdAt r)
     && (2 <=? length (jres_postings r))%nat && (length (jres_postings r) <=? 32)%nat then
    reference ← journalReferenceSchema (jres_reference r);
    cur ← currencyCodeSchema (jres_currency r);
    total ← positiveMinorUnitsSchema (jres_totalMinor r);
    ps ← mapM journalPostingResultSchema (jres_postings r);
    Some (mkJournalResult (jres_id r) reference (jres_entryType r) cur total
            (jres_effectiveAt r) (jres_createdAt r) ps)
  else None.

Definition customerAccountSummarySchema (a : CustomerAccountSummary) : option CustomerAccountSummary :=
  if z_uuid (cas_id a) && z_datetime (cas_createdAt a) then
    m ← maskedAccountReferenceSchema (cas_maskedReference a);
    c ← currencyCodeSchema (cas_currency a);
    Some (mkAccountSummary (cas_id a) m (cas_productType a) (cas_status a) c (cas_createdAt a))
  else None.

Definition customerAccountDetailSchema (a : CustomerAccountDetail) : option CustomerAccountDetail :=
  s ← customerAccountSummarySchema (cad_summary a);
  b ← moneySchema (cad_balance a);
  r ← publicAccountReferenceSchema (cad_receivingReference a);
  Some (mkAccountDetail s b r).

Definition provisionDefaultAccountResultSchema (r : ProvisionDefaultAccountResult)
  : option ProvisionDefaultAccountResult :=
  a ← customerAccountDetailSchema (pv_account r); Some (mkProvisionResult a (pv_created r)).
End Schemas.

(** ** Journal metadata *)
Definition UNSAFE_METADATA_KEYS : list string := ["__proto__"; "prototype"; "constructor"].
Definition MAX_METADATA_ENTRIES : nat := 16.
Definition MAX_RECONCILIATION_ISSUES : nat := 50.

Definition metadataKey_rx : rx :=
  (Cls (fun c => is_upper c || is_lower c)
   · rep_upto 39 (Cls (fun c => alnum c || Ascii.eqb c "_")))%rx.

(** A metadata value: a string of at most 256 characters, an integer or a boolean. *)
Definition metadata_value_ok (v : json) : bool :=
  match v with
  | JStr s => (String.length s <=? 256)%nat
  | JNum z => is_safe_integer z
  | JBool _ => true
  | _ => false
  end.

(** ** Human amounts ([payments/v1.ts]) *)

(** [(?:0|[1-9]\d* )(?:\.\d{1,2})?] *)
Definition humanLkrAmount_rx : rx :=
  ((chr "0" ∥ digit19 · Star digit) · opt (chr "." · rep_range 1 2 digit))%rx.
Definition humanLkrAmountSchema (s : string) : option string :=
  if rx_match humanLkrAmount_rx s
     && negb (String.eqb s "0" || String.eqb s "0.0" || String.eqb s "0.00")
  then Some s else None.

(** [s.replace(/^0+(?=\d)/u, '')]: drop the leading zeros, keeping one digit. *)
Fixpoint strip_zeros (s : string) : string :=
  match s with
  | String "0" (String c s' as t) => if is_digit c then strip_zeros t else s
  | _ => s
  end.

Definition lkrAmountToMinorUnits (value : string) : option string :=
  amount ← humanLkrAmountSchema value;
  let '(whole, decimal) :=
    match split_on "." amount with
    | w :: d :: _ => (w, d)
    | [w] => (w, "")
    | [] => ("", "")
    end in
  let normalized := strip_zeros (whole +:+ padEnd 2 "0" decimal) in
  Some (if String.eqb normalized "" then "0" else normalized).

(** ** Display ([accounts/v1.ts]) *)

(** [whole.replace(/\B(?=(\d{3})+(?!\d))/gu, ',')] on a string of digits: a
    comma before every group of three digits from the right but the first. *)
Fixpoint group_thousands (s : string) : string :=
  match s with
  | EmptyString => ""
  | String c s' =>
      let r := group_thousands s' in
      if negb (String.eqb s' "") && (String.length s' mod 3 =? 0)%nat
      then String c ("," +:+ r) else String c r
  end.

Definition formatMinorUnits (minorUnits : string) (fractionDigits : nat) : string :=
  let negative := match minorUnits with String "-" _ => true | _ => false end in
  let digits := padStart (fractionDigits + 1) "0"
                  (if negative then str_drop 1 minorUnits else minorUnits) in
  let cut := (String.length digits - fractionDigits)%nat in
  let whole := if String.eqb (str_take cut digits) "" then "0" else str_take cut digits in
  let fraction := if (0 <? fractionDigits)%nat then "." +:+ str_drop cut digits else "" in
  (if negative then "-" else "") +:+ group_thousands whole +:+ fraction.
