(* ===== verification/Security.v ===== *)
(** * Hashing helpers of the services ([common/security/security.ts]) *)

From Stdlib Require Import ZArith Lia Ascii String.
From stdpp Require Import base strings list sorting.
From S2P Require Import Prelude.
From S2P Require Import Js.
From S2P Require Import Regex.
From S2P Require Import Contracts.

Open Scope Z_scope.

(** Node's [createHash('sha256')], as lower-case hexadecimal text. *)
Class Crypto := { sha256 : string -> string }.
(** [createHmac('sha256', key)] of a text. *)
Class Hmac := { hmac_sha256 : string -> string -> string }.

Definition timingSafeStringEqual (left right : string) : bool :=
  if negb (String.length left =? String.length right)%nat || (String.length left =? 0)%nat
  then false else String.eqb left right.

(** [canonicalJson(value)]; [None] is the [undefined] that [JSON.stringify]
    returns for [undefined]. *)
Fixpoint canonicalJson (value : json) : option string :=
  match value with
  | JUndef => None
  | JNull => Some "null"%string
  | JBool b => Some (if b then "true" else "false")%string
  | JNum z => Some (bigint_to_string z)
  | JStr s => Some (quote s)
  | JArr l => Some ("[" +:+ join "," (map (fun item => default "" (canonicalJson item)) l) +:+ "]")
  | JObj fields =>
      let entries :=
        omap (fun '(key, v) => match canonicalJson v with
                               | Some t => Some (key, t)
                               | None => None
                               end) fields in
      Some ("{" +:+ join "," (map (fun '(key, t) => quote key +:+ ":" +:+ t) (sort_by fst entries))
            +:+ "}")
  end.

Section Hashes.
Context {crypto : Crypto}.

(** [sha256(undefined)] throws a TypeError; no caller passes [undefined]. *)
Definition canonicalRequestHash (value : json) : option string :=
  t ← canonicalJson value; Some (sha256 t).

Definition idempotencyFingerprint (key : string) : string :=
  "idem:" +:+ str_take 12 (sha256 key).

Definition hex_value (c : ascii) : Z :=
  if is_digit c then code c - 48 else code (to_lower_char c) - 87.
(** [BigInt('0x' + s)] *)
Fixpoint hex_parse (acc : Z) (s : string) : Z :=
  match s with EmptyString => acc | String c s' => hex_parse (16 * acc + hex_value c) s' end.

Definition advisoryLockKey (value : string) : Z :=
  asIntN64 (hex_parse 0 (str_take 16 (sha256 value))).
End Hashes.

Lemma timingSafeStringEqual_eq l r : timingSafeStringEqual l r = true <-> l = r /\ l <> ""%string.
Proof.
  unfold timingSafeStringEqual. destruct (Nat.eqb_spec (String.length l) (String.length r)) as [He|He].
  - destruct l as [|c l]; cbn [String.length Nat.eqb negb orb].
    + split; [done|by intros [_ ?]].
    + rewrite String.eqb_eq. intuition congruence.
  - cbn. split; [done|]. intros [-> _]. done.
Qed.

(** ** Key order *)

(** The values that differ only in the order of object keys, at any depth. *)
Inductive json_same : json -> json -> Prop :=
| same_refl v : json_same v v
| same_arr l l' : Forall2 json_same l l' -> json_same (JArr l) (JArr l')
| same_obj fs fs' gs :
    Forall2 (fun a b => a.1 = b.1 /\ json_same a.2 b.2) fs fs' ->
    fs' ≡ₚ gs -> NoDup (fst <$> gs) -> json_same (JObj fs) (JObj gs).

Fixpoint json_depth (v : json) : nat :=
  match v with
  | JArr l => S (list_max (map json_depth l))
  | JObj fs => S (list_max (map (fun kv => json_depth kv.2) fs))
  | _ => 0
  end.

Lemma list_max_elem x l : x ∈ l -> (x <= list_max l)%nat.
Proof.
  induction l as [|y l IH]; [by inversion 1|]. rewrite elem_of_cons.
  change (list_max (y :: l)) with (Nat.max y (list_max l)). intros [->|Hx]; [lia|].
  specialize (IH Hx). lia.
Qed.

Lemma entries_keys (fs : list (string * json)) :
  NoDup (fst <$> fs) ->
  NoDup (fst <$> omap (fun '(key, v) => match canonicalJson v with
                               | Some t => Some (key, t) | None => None end) fs).
Proof.
  set (f := fun kv : string * json => _).
  assert (Hin : forall (k : string) (gs : list (string * json)), k ∈ fst <$> omap f gs -> k ∈ fst <$> gs).
  { intros k gs. rewrite !list_elem_of_fmap. intros ([k' t] & -> & Hx).
    apply list_elem_of_omap in Hx as ([k0 v0] & Hv & Hf). cbn in Hf.
    destruct (canonicalJson v0); [|done]. injection Hf as -> _. by exists (k', v0). }
  induction fs as [|[k v] fs IH]; cbn; intros Hn; [constructor|].
  apply NoDup_cons in Hn as [Hk Hn]. destruct (canonicalJson v); [|auto]. cbn.
  constructor; [|auto]. intros Hk'. by apply Hk, Hin.
Qed.

Lemma canonicalJson_same_depth n v w :
  (json_depth v <= n)%nat -> json_same v w -> canonicalJson v = canonicalJson w.
Proof.
  revert v w. induction n as [|n IH]; intros v w Hn Hs.
  - inversion Hs; subst; [done| |]; cbn in Hn; lia.
  - inversion Hs as [|l l' Hl|fs fs' gs Hfs Hp Hnd]; subst; [done| |].
    + cbn. do 4 f_equal. cbn in Hn.
      assert (Hd : forall x, x ∈ l -> (json_depth x <= n)%nat).
      { intros x Hx. transitivity (list_max (map json_depth l)); [|lia].
        apply list_max_elem, list_elem_of_fmap. eauto. }
      clear Hn Hs. induction Hl as [|x y l l' Hxy Hl IHl]; cbn; [done|].
      rewrite (IH x y); [|apply Hd; by left|done]. f_equal. apply IHl.
      intros z Hz. apply Hd. by right.
    + cbn. set (f := fun kv : string * json => _). do 4 f_equal. cbn in Hn.
      assert (He : omap f fs = omap f fs').
      { assert (Hd : forall kv, kv ∈ fs -> (json_depth kv.2 <= n)%nat).
        { intros kv Hx. transitivity (list_max (map (fun kv => json_depth kv.2) fs)); [|lia].
          apply list_max_elem, list_elem_of_fmap. eauto. }
        clear Hp Hn Hs. induction Hfs as [|[k x] [k' y] fs fs' [Hk Hxy] Hfs IHl]; cbn; [done|].
        cbn in Hk, Hxy. subst k'. rewrite (IH x y) by (done || (apply (Hd (k, x)); by left)).
        rewrite IHl; [done|]. intros z Hz. apply Hd. by right. }
      rewrite He. f_equal. apply sort_by_unique; [by rewrite Hp|]. by rewrite Hp; apply entries_keys.
Qed.

Lemma canonicalJson_same v w : json_same v w -> canonicalJson v = canonicalJson w.
Proof. by apply (canonicalJson_same_depth (json_depth v)). Qed.

(** * Money of the Ledger service ([services/ledger/src/money/money.ts]) *)

(** [parseMinorUnits]: [None] is the thrown TypeError. *)
Definition parseMinorUnits (value : string) : option Z :=
  if rx_match signedMinorUnits_rx value then Some (BigInt value) else None.

Definition serializeMinorUnits (value : Z) : string := bigint_to_string value.

Definition toMoney (cur : string) (minor : Z) : Money := mkMoney cur (serializeMinorUnits minor).

Definition DEBIT_POSITIVE_CLASSES (c : LedgerAccountClass) : bool :=
  match c with ASSET | EXPENSE => true | _ => false end.

Definition signedBalanceMinor (accountClass : LedgerAccountClass)
  (debitTotalMinor creditTotalMinor : Z) : Z :=
  if DEBIT_POSITIVE_CLASSES accountClass
  then debitTotalMinor - creditTotalMinor
  else creditTotalMinor - debitTotalMinor.

(** [applyDirection(direction, amount, { debit, credit })] *)
Definition applyDirection (direction : PostingDirection) (amountMinor : Z) (totals : Z * Z) : Z * Z :=
  match direction with
  | DEBIT => (totals.1 + amountMinor, totals.2)
  | CREDIT => (totals.1, totals.2 + amountMinor)
  end.

(** The signed value a posting contributes to an account of a class. *)
Definition posting_effect (c : LedgerAccountClass) (d : PostingDirection) (amount : Z) : Z :=
  signedBalanceMinor c (if decide (d = DEBIT) then amount else 0)
                       (if decide (d = CREDIT) then amount else 0).

Lemma applyDirection_effect c d a t :
  let t' := applyDirection d a t in
  signedBalanceMinor c t'.1 t'.2 = signedBalanceMinor c t.1 t.2 + posting_effect c d a.
Proof.
  unfold posting_effect, signedBalanceMinor, applyDirection.
  destruct d; repeat case_decide; try done; destruct (DEBIT_POSITIVE_CLASSES c); simpl; lia.
Qed.

(** ** Text of amounts *)
Lemma positive_text z : 0 < z < 10 ^ 24 -> rx_in positiveMinorUnits_rx (bigint_to_string z).
Proof.
  intros Hz. unfold bigint_to_string. destruct (Z.ltb_spec z 0); [lia|].
  assert (0 <= z) as Hz0 by lia. pose proof (digits_fuel_enough z Hz0) as Hf.
  destruct (nat_digits_head (digits_fuel z) z) as (c & s & He & Hc); [split; [lia|exact Hf]|].
  pose proof (nat_digits_length (digits_fuel z) z 24 (conj Hz0 (proj2 Hz)) eq_refl) as Hl.
  destruct (nat_digits_spec (digits_fuel z) z) as [_ Hd]; [by split|done|].
  rewrite He in *. cbn in Hl, Hd. apply andb_prop in Hd as [_ Hd].
  apply (in_Cat digit19 _ (String c "") s); [by constructor|]. apply in_rep_upto; [lia|done].
Qed.

Lemma positive_minor s : rx_in positiveMinorUnits_rx s -> rx_in minorUnits_rx s.
Proof. intros H. by apply in_OrR. Qed.

Lemma minor_text z : 0 <= z < 10 ^ 24 -> rx_in minorUnits_rx (bigint_to_string z).
Proof.
  intros Hz. destruct (Z.eq_dec z 0) as [->|].
  - apply in_OrL. by constructor.
  - apply positive_minor, positive_text. lia.
Qed.

Lemma signed_text z : - 10 ^ 24 < z < 10 ^ 24 -> rx_in signedMinorUnits_rx (bigint_to_string z).
Proof.
  intros Hz. destruct (Z.ltb_spec z 0) as [Hneg|Hpos].
  - assert (bigint_to_string z = String "-" (bigint_to_string (- z))) as ->.
    { unfold bigint_to_string. destruct (Z.ltb_spec z 0); [|lia].
      by destruct (Z.ltb_spec (- z) 0); [lia|]. }
    apply (in_Cat _ _ "-" (bigint_to_string (- z))).
    + apply in_OrR. by constructor.
    + apply minor_text. lia.
  - apply (in_Cat _ _ "" (bigint_to_string z)); [apply in_OrL; constructor|].
    apply minor_text. lia.
Qed.

(** ** Values of amounts *)
Lemma positive_inv s : rx_in positiveMinorUnits_rx s ->
  exists c t, s = String c t /\ in_range "1" "9" c = true /\ str_all is_digit t = true
              /\ (String.length t <= 23)%nat.
Proof.
  inversion 1 as [| |? ? a b Ha Hb| | | |]; subst. inversion Ha; subst.
  apply (rep_upto_inv 23 is_digit) in Hb as [? ?]. rewrite str_app_cons, str_app_nil_l. eauto 10.
Qed.

Lemma digit19_digit c : in_range "1" "9" c = true -> is_digit c = true /\ 1 <= digit_value c.
Proof.
  unfold is_digit, in_range, digit_value. intros H. bool_to_Z.
  change (code "1") with 49 in *. change (code "9") with 57 in *. change (code "0") with 48.
  split; [apply andb_true_intro; split; apply Z.leb_le; lia|lia].
Qed.

Lemma digits_value_ge s acc : str_all is_digit s = true -> 0 <= acc -> acc <= digits_value acc s.
Proof.
  revert acc. induction s as [|c s IH]; intros acc; cbn; [lia|]. intros [Hc Hs]%andb_prop Ha.
  assert (0 <= digit_value c).
  { unfold is_digit, in_range in Hc. bool_to_Z. unfold digit_value. change (code "0") with 48 in *. lia. }
  specialize (IH (10 * acc + digit_value c) Hs ltac:(lia)). lia.
Qed.

Lemma positive_value s : rx_in positiveMinorUnits_rx s -> 0 < BigInt s.
Proof.
  intros (c & t & -> & Hc & Ht & _)%positive_inv. apply digit19_digit in Hc as [Hc Hv].
  rewrite BigInt_digits by (cbn; by rewrite Hc, Ht).
  change (0 < digits_value (digit_value c) t).
  pose proof (digits_value_ge t (digit_value c) Ht ltac:(lia)). lia.
Qed.

Lemma parseMinorUnits_positive s : rx_match positiveMinorUnits_rx s = true ->
  parseMinorUnits s = Some (BigInt s) /\ 0 < BigInt s.
Proof.
  intros H%rx_match_in. split; [|by apply positive_value]. unfold parseMinorUnits.
  replace (rx_match signedMinorUnits_rx s) with true; [done|]. symmetry. apply rx_match_in.
  apply (in_Cat _ _ "" s); [apply in_OrL; constructor|by apply positive_minor].
Qed.
