(* ===== verification/Calendar.v ===== *)
(** * Calendar days: the text of a day and the instant it starts *)

From Stdlib Require Import ZArith Lia Ascii String.
From stdpp Require Import base strings list numbers.
From S2P Require Import Prelude.
From S2P Require Import Js.

Open Scope Z_scope.

Definition day_ms : Z := 86400000.
(** [new Date(t).toISOString().slice(0, 10)] *)
Definition day_text (t : Z) : string := slice 0 10 (toISOString t).
(** [new Date(`${day}T00:00:00.000Z`)] *)
Definition day_start (t : Z) : option Z := date_parse (day_text t +:+ "T00:00:00.000Z").

(** ** The civil calendar *)
Lemma year_of_era_bounds doe : 0 <= doe < 146097 ->
  let yoe := (doe - doe / 1460 + doe / 36524 - doe / 146096) / 365 in
  0 <= yoe <= 399 /\ 0 <= doe - (365 * yoe + yoe / 4 - yoe / 100) <= 365.
Proof. intros H yoe. subst yoe. Z.to_euclidean_division_equations; lia. Qed.

Lemma month_day_bounds doy : 0 <= doy <= 365 ->
  let mi := (5 * doy + 2) / 153 in 0 <= mi <= 11 /\ 1 <= doy - (153 * mi + 2) / 5 + 1 <= 31.
Proof. intros H mi. subst mi. Z.to_euclidean_division_equations; lia. Qed.

Lemma days_of_civil_of_days days :
  let '(y, m, d) := civil_of_days days in
  days_of_civil y m d = days /\ 1 <= m <= 12 /\ 1 <= d <= 31.
Proof.
  unfold civil_of_days. set (shifted := days + 719468).
  assert (0 <= shifted mod 146097 < 146097) as Hdoe by (apply Z.mod_pos_bound; lia).
  assert (shifted = 146097 * (shifted / 146097) + shifted mod 146097) as Hs by (apply Z.div_mod; lia).
  set (era := shifted / 146097) in *. set (doe := shifted mod 146097) in *. clearbody era doe.
  pose proof (year_of_era_bounds doe Hdoe) as Hy. cbv zeta in Hy.
  set (yoe := (doe - doe / 1460 + doe / 36524 - doe / 146096) / 365) in *. clearbody yoe.
  destruct Hy as [Hyoe Hdoy].
  set (doy := doe - (365 * yoe + yoe / 4 - yoe / 100)) in *.
  pose proof (month_day_bounds doy Hdoy) as Hm. cbv zeta in Hm.
  set (mi := (5 * doy + 2) / 153) in *. clearbody mi.
  assert (doe = doy + (365 * yoe + yoe / 4 - yoe / 100)) as Hd by (unfold doy; lia).
  clearbody doy. unfold days_of_civil.
  assert (Hera : forall z, z = yoe + era * 400 -> z / 400 = era /\ z mod 400 = yoe).
  { intros z ->. rewrite Z.div_add, Z.mod_add, Z.div_small, Z.mod_small by lia. lia. }
  destruct (Z.ltb_spec mi 10) as [Hlt|Hge].
  - rewrite (proj2 (Z.leb_gt (mi + 3) 2)) by lia.
    destruct (Hera (yoe + era * 400 + 0)) as [-> ->]; [lia|].
    replace (mi + 3 - 3) with mi by lia. lia.
  - rewrite (proj2 (Z.leb_le (mi - 9) 2)) by lia.
    destruct (Hera (yoe + era * 400 + 1 - 1)) as [-> ->]; [lia|].
    replace (mi - 9 + 9) with mi by lia. lia.
Qed.

(** ** Padded numbers *)

Lemma zeros_value n s : digits_value 0 (repeat_str "0" n +:+ s) = digits_value 0 s.
Proof. induction n as [|n IH]; [done|]. exact IH. Qed.
Lemma zeros_digits n : str_all is_digit (repeat_str "0" n) = true.
Proof. induction n as [|n IH]; [done|]. exact IH. Qed.
Lemma repeat_length c n : String.length (repeat_str (String c "") n) = n.
Proof. induction n as [|n IH]; [done|]. cbn [repeat_str]. by rewrite str_app_cons, str_app_nil_l; cbn; rewrite IH. Qed.

Lemma padded_spec n z : 0 <= z < 10 ^ Z.of_nat n -> (1 <= n)%nat ->
  String.length (padded n z) = n /\ str_all is_digit (padded n z) = true /\ BigInt (padded n z) = z.
Proof.
  intros Hz Hn. unfold padded, padStart.
  assert (Hd : bigint_to_string z = nat_digits (digits_fuel z) z).
  { unfold bigint_to_string. by rewrite (proj2 (Z.ltb_ge z 0)) by lia. }
  pose proof (nat_digits_length (digits_fuel z) z (Z.of_nat n) Hz ltac:(lia)) as Hl%Nat2Z.inj_le. rewrite <- Hd in Hl.
  assert (Ha : str_all is_digit (bigint_to_string z) = true).
  { rewrite Hd. destruct (nat_digits_spec (digits_fuel z) z) as [Hv Ha]; [|done|done].
    split; [lia|]. apply digits_fuel_enough. lia. }
  assert (Hall : str_all is_digit (repeat_str "0" (n - String.length (bigint_to_string z)) +:+ bigint_to_string z) = true)
    by by rewrite str_all_app, zeros_digits, Ha.
  split; [|split; [exact Hall|]].
  - rewrite str_length_app, repeat_length. lia.
  - rewrite BigInt_digits, zeros_value by exact Hall.
    rewrite <- BigInt_digits by exact Ha. apply BigInt_to_string.
Qed.

(** ** The start of the day *)

(** The years whose ISO text has four digits. *)
Definition four_digit_year (t : Z) : Prop :=
  let '(y, _, _) := civil_of_days (t / day_ms) in 0 <= y < 10000.
#[export] Instance four_digit_year_dec t : Decision (four_digit_year t).
Proof. unfold four_digit_year. apply _. Defined.

Lemma date_parse_midnight y m d :
  0 <= y < 10000 -> 1 <= m <= 12 -> 1 <= d <= 31 ->
  date_parse (padded 4 y +:+ "-" +:+ padded 2 m +:+ "-" +:+ padded 2 d +:+ "T00:00:00.000Z") =
  Some (days_of_civil y m d * day_ms).
Proof.
  intros Hy Hm Hd.
  destruct (padded_spec 4 y) as (Ly & Ay & Vy); [cbn; lia|lia|].
  destruct (padded_spec 2 m) as (Lm & Am & Vm); [cbn; lia|lia|].
  destruct (padded_spec 2 d) as (Ld & Ad & Vd); [cbn; lia|lia|].
  destruct (padded 4 y) as [|y1 [|y2 [|y3 [|y4 [|]]]]]; try discriminate Ly.
  destruct (padded 2 m) as [|m1 [|m2 [|]]]; try discriminate Lm.
  destruct (padded 2 d) as [|d1 [|d2 [|]]]; try discriminate Ld.
  unfold date_parse. rewrite !str_app_cons, !str_app_nil_l.
  change (char_at 4 "-" _ && char_at 7 "-" _ && char_at 10 "T" _ && char_at 13 ":" _) with true.
  cbv iota. unfold number_at, slice. cbn [Nat.sub Nat.add str_take str_drop String.length Nat.eqb].
  rewrite Ay, Am, Ad. cbn [andb mbind option_bind]. rewrite Vy, Vm, Vd.
  change (str_all is_digit "00") with true. cbv iota beta. cbn [andb mbind option_bind].
  change (seconds_parse ":00.000Z") with (Some (0, 0)). cbn [mbind option_bind]. cbv iota beta.
  change (BigInt "00") with 0.
  rewrite (proj2 (Z.leb_le 1 m)), (proj2 (Z.leb_le m 12)), (proj2 (Z.leb_le 1 d)), (proj2 (Z.leb_le d 31)) by lia.
  cbn. f_equal. unfold day_ms. lia.
Qed.

Lemma day_text_fields t : four_digit_year t ->
  let '(y, m, d) := civil_of_days (t / day_ms) in
  day_text t = padded 4 y +:+ "-" +:+ padded 2 m +:+ "-" +:+ padded 2 d.
Proof.
  unfold four_digit_year, day_text, toISOString. change (t / day_ms) with (t / 86400000).
  pose proof (days_of_civil_of_days (t / 86400000)) as Hc.
  destruct (civil_of_days (t / 86400000)) as [[y m] d]. intros Hy. destruct Hc as (_ & Hm & Hd).
  destruct (padded_spec 4 y) as (Ly & _); [cbn; lia|lia|].
  destruct (padded_spec 2 m) as (Lm & _); [cbn; lia|lia|].
  destruct (padded_spec 2 d) as (Ld & _); [cbn; lia|lia|].
  destruct (padded 4 y) as [|y1 [|y2 [|y3 [|y4 [|]]]]]; try discriminate Ly.
  destruct (padded 2 m) as [|m1 [|m2 [|]]]; try discriminate Lm.
  destruct (padded 2 d) as [|d1 [|d2 [|]]]; try discriminate Ld.
  rewrite !str_app_cons, !str_app_nil_l. reflexivity.
Qed.

Lemma day_start_floor t : four_digit_year t -> day_start t = Some (t / day_ms * day_ms).
Proof.
  intros Ht. pose proof (day_text_fields t Ht) as Hx. unfold four_digit_year in Ht.
  pose proof (days_of_civil_of_days (t / day_ms)) as Hc. unfold day_start.
  destruct (civil_of_days (t / day_ms)) as [[y m] d]. destruct Hc as (Hc & Hm & Hd).
  rewrite Hx, !str_app_assoc, date_parse_midnight by done. by rewrite Hc.
Qed.

Lemma day_text_inj a b : four_digit_year a -> four_digit_year b ->
  day_text a = day_text b -> a / day_ms = b / day_ms.
Proof.
  intros Ha Hb H. assert (day_start a = day_start b) as He by (unfold day_start; by rewrite H).
  rewrite !day_start_floor in He by done. injection He. unfold day_ms. lia.
Qed.

(** ** Instants *)
Lemma date_parse_fields y mo d h mi se ms :
  0 <= y < 10000 -> 1 <= mo <= 12 -> 1 <= d <= 31 -> 0 <= h < 24 -> 0 <= mi < 60 -> 0 <= se < 60 -> 0 <= ms < 1000 ->
  date_parse (padded 4 y +:+ "-" +:+ padded 2 mo +:+ "-" +:+ padded 2 d +:+ "T" +:+ padded 2 h +:+ ":" +:+ padded 2 mi
              +:+ ":" +:+ padded 2 se +:+ "." +:+ padded 3 ms +:+ "Z") =
  Some (days_of_civil y mo d * day_ms + h * 3600000 + mi * 60000 + se * 1000 + ms).
Proof.
  intros Hy Hm Hd Hh Hmi Hse Hms.
  destruct (padded_spec 4 y) as (Ly & Ay & Vy); [cbn; lia|lia|].
  destruct (padded_spec 2 mo) as (Lm & Am & Vm); [cbn; lia|lia|].
  destruct (padded_spec 2 d) as (Ld & Ad & Vd); [cbn; lia|lia|].
  destruct (padded_spec 2 h) as (Lh & Ah & Vh); [cbn; lia|lia|].
  destruct (padded_spec 2 mi) as (Li & Ai & Vi); [cbn; lia|lia|].
  destruct (padded_spec 2 se) as (Ls & As & Vs); [cbn; lia|lia|].
  destruct (padded_spec 3 ms) as (Lf & Af & Vf); [cbn; lia|lia|].
  destruct (padded 4 y) as [|y1 [|y2 [|y3 [|y4 [|]]]]]; try discriminate Ly.
  destruct (padded 2 mo) as [|m1 [|m2 [|]]]; try discriminate Lm.
  destruct (padded 2 d) as [|d1 [|d2 [|]]]; try discriminate Ld.
  destruct (padded 2 h) as [|h1 [|h2 [|]]]; try discriminate Lh.
  destruct (padded 2 mi) as [|i1 [|i2 [|]]]; try discriminate Li.
  destruct (padded 2 se) as [|s1 [|s2 [|]]]; try discriminate Ls.
  destruct (padded 3 ms) as [|f1 [|f2 [|f3 [|]]]]; try discriminate Lf.
  unfold date_parse. rewrite !str_app_cons, !str_app_nil_l.
  change (char_at 4 "-" _ && char_at 7 "-" _ && char_at 10 "T" _ && char_at 13 ":" _) with true.
  cbv iota. unfold number_at at 1 2 3 4 5. unfold slice. cbn [Nat.sub Nat.add str_take str_drop String.length Nat.eqb].
  rewrite Ay, Am, Ad, Ah, Ai. cbn [andb mbind option_bind]. rewrite Vy, Vm, Vd, Vh, Vi.
  assert (Hrest : seconds_parse (String ":" (String s1 (String s2 (String "." (String f1 (String f2 (String f3 "Z"))))))) = Some (se, ms)).
  { unfold seconds_parse. change (String.eqb (String ":" _) "Z") with false. change (char_at 0 ":" (String ":" _)) with true.
    cbv iota. unfold number_at, slice. cbn [Nat.sub Nat.add str_take str_drop String.length Nat.eqb]. rewrite As. cbn [andb mbind option_bind].
    rewrite Vs. change (char_at 3 "." _) with true. change (char_at _ "Z" _) with true.
    change (String.eqb (String "." _) "Z") with false. cbv iota. cbn [str_take]. rewrite Af. cbn -[BigInt].
    change (Some (se, BigInt (String f1 (String f2 (String f3 "")))) = Some (se, ms)). by rewrite Vf. }
  rewrite Hrest. cbn [mbind option_bind]. cbv iota beta.
  rewrite (proj2 (Z.leb_le 1 mo)), (proj2 (Z.leb_le mo 12)), (proj2 (Z.leb_le 1 d)), (proj2 (Z.leb_le d 31)),
    (proj2 (Z.ltb_lt h 24)), (proj2 (Z.ltb_lt mi 60)), (proj2 (Z.ltb_lt se 60)) by lia.
  cbn [andb]. reflexivity.
Qed.
Lemma date_parse_toISOString t : four_digit_year t -> date_parse (toISOString t) = Some t.
Proof.
  unfold four_digit_year, toISOString. change (t / day_ms) with (t / 86400000).
  pose proof (days_of_civil_of_days (t / 86400000)) as Hc.
  destruct (civil_of_days (t / 86400000)) as [[y m] d]. intros Hy. destruct Hc as (Hc & Hm & Hd).
  pose proof (Z.mod_pos_bound t 86400000 ltac:(lia)) as Hb. set (ms := t mod 86400000) in *.
  rewrite date_parse_fields; try lia.
  - f_equal. rewrite Hc. unfold day_ms. pose proof (Z.div_mod t 86400000 ltac:(lia)). fold ms in H.
    pose proof (Z.div_mod ms 1000 ltac:(lia)). pose proof (Z.div_mod (ms / 1000) 60 ltac:(lia)).
    pose proof (Z.div_mod (ms / 60000) 60 ltac:(lia)).
    assert (ms / 1000 / 60 = ms / 60000) by (rewrite Z.div_div by lia; done).
    assert (ms / 60000 / 60 = ms / 3600000) by (rewrite Z.div_div by lia; done). lia.
  - split; [apply Z.div_pos; lia|apply Z.div_lt_upper_bound; lia].
  - apply Z.mod_pos_bound. lia.
  - apply Z.mod_pos_bound. lia.
  - apply Z.mod_pos_bound. lia.
Qed.
#[global] Arguments day_text : simpl never.
#[global] Arguments day_start : simpl never.
#[global] Arguments four_digit_year : simpl never.
