(* ===== verification/Services.v ===== *)
(** * Redis, as the services use it: strings and counters that expire *)

From Stdlib Require Import ZArith Lia Ascii String.
From stdpp Require Import base strings list gmap.
From S2P Require Import Prelude.
From S2P Require Import Js.

Open Scope Z_scope.

(** A value and the time it expires, if it does. *)
Abbreviation Redis := (gmap string (string * option Z)).
(** The integers Redis reads back from a string: canonical decimals only. *)
Definition canonical_integer (s : string) : option Z :=
  let n := BigInt s in if String.eqb (bigint_to_string n) s then Some n else None.
Lemma canonical_to_string n : canonical_integer (bigint_to_string n) = Some n.
Proof. unfold canonical_integer. by rewrite BigInt_to_string, String.eqb_refl. Qed.

Section Redis.
Variable now : Z.

Definition redis_live (key : string) (r : Redis) : option (string * option Z) :=
  '(value, expiresAt) ← r !! key;
  if match expiresAt with Some t => now <? t | None => true end then Some (value, expiresAt) else None.
Definition redis_get (key : string) (r : Redis) : option string := fst <$> redis_live key r.
(** [SET key value EX ttl] *)
Definition redis_set (key value : string) (ttlSeconds : Z) : Redis -> Redis :=
  <[key := (value, Some (now + ttlSeconds * 1000))]>.
(** [SET key value KEEPTTL] *)
Definition redis_set_keepttl (key value : string) (r : Redis) : Redis :=
  <[key := (value, redis_live key r ≫= snd)]> r.
Definition redis_delete (key : string) : Redis -> Redis := delete key.
(** [INCR key]; [None]: the value is no integer, or would leave 64 bits. *)
Definition redis_incr (key : string) (r : Redis) : option (Z * Redis) :=
  let '(value, expiresAt) := default ("0"%string, None) (redis_live key r) in
  n ← canonical_integer value;
  if (- 2 ^ 63 <=? n + 1) && (n + 1 <? 2 ^ 63) then Some (n + 1, <[key := (bigint_to_string (n + 1), expiresAt)]> r)
  else None.
(** [EXPIRE key ttl] *)
Definition redis_expire (key : string) (ttlSeconds : Z) (r : Redis) : Redis :=
  match redis_live key r with
  | Some (value, _) => <[key := (value, Some (now + ttlSeconds * 1000))]> r
  | None => r
  end.

Lemma redis_get_set key value ttl r : 0 < ttl -> redis_get key (redis_set key value ttl r) = Some value.
Proof.
  intros H. unfold redis_get, redis_live, redis_set. rewrite lookup_insert_eq. cbn.
  destruct (Z.ltb_spec now (now + ttl * 1000)); [done|lia].
Qed.
Lemma redis_get_ne key r r' : r' !! key = r !! key -> redis_get key r' = redis_get key r.
Proof. unfold redis_get, redis_live. by intros ->. Qed.
Lemma redis_get_delete key r : redis_get key (redis_delete key r) = None.
Proof. unfold redis_get, redis_live, redis_delete. by rewrite lookup_delete_eq. Qed.
End Redis.

(** * Requests of a service: database statements, calls to other services, and
    the requests that run in between.

    A request alternates statements or transactions on the service's own
    database with calls over the network. [sothers] is a schedule of what other
    requests of the service do to the database, one step before each statement
    of this one; the other services live in an environment [Env] that every
    call may change. *)

Record System (DB Env : Type) := mkSystem {
  sdb : DB;
  senv : Env;
  sothers : list (DB -> DB)
}.
Arguments mkSystem {DB Env}.
Arguments sdb {DB Env}.
Arguments senv {DB Env}.
Arguments sothers {DB Env}.

Section Requests.
Context {DB Env E : Type}.
Abbreviation Sys := (System DB Env).

(** One statement, or one transaction, on the service's database. *)
Definition atomic {A} (m : M DB E A) : M Sys E A := fun s =>
  let '(db, rest) := match sothers s with
                     | [] => (sdb s, [])
                     | f :: fs => (f (sdb s), fs)
                     end in
  let '(r, db') := m db in (r, mkSystem db' (senv s) rest).

(** A call to another service. *)
Definition remote {A} (m : M Env E A) : M Sys E A := fun s =>
  let '(r, env) := m (senv s) in (r, mkSystem (sdb s) env (sothers s)).

(** ** Rely and guarantee

    [P] is kept by every other request, which moreover relates the databases
    before and after by [R]. *)
Variable P : DB -> Prop.
Variable R : DB -> DB -> Prop.

Definition sys_ok (s : Sys) : Prop :=
  P (sdb s) /\ Forall (fun f => forall db, P db -> P (f db) /\ R db (f db)) (sothers s).

Definition stable (Q : DB -> Prop) : Prop := forall db db', Q db -> R db db' -> Q db'.

Lemma triple_atomic {A} (Q : DB -> Prop) (m : M DB E A) (post : A -> DB -> Prop)
    (err : E -> DB -> Prop) :
  stable Q ->
  (forall db, P db -> Q db -> match m db with
                              | (Ok a, db') => P db' /\ post a db'
                              | (Err e, db') => P db' /\ err e db'
                              end) ->
  triple (fun s => sys_ok s /\ Q (sdb s)) (atomic m)
         (fun a s => sys_ok s /\ post a (sdb s)) (fun e s => sys_ok s /\ err e (sdb s)).
Proof.
  intros HQ Hm [db env fs] [[Hdb Hfs] Hq]. unfold atomic, sys_ok. cbn in *.
  destruct fs as [|f fs].
  - specialize (Hm db Hdb Hq). destruct (m db) as [[a|e] db']; cbn; intuition.
  - inversion Hfs as [|f' fs' Hf Hrest]; subst. destruct (Hf db Hdb) as [Hp Hr].
    specialize (Hm (f db) Hp (HQ _ _ Hq Hr)). destruct (m (f db)) as [[a|e] db']; cbn; intuition.
Qed.

Lemma triple_remote {A} (Q : DB -> Prop) (m : M Env E A) :
  triple (fun s => sys_ok s /\ Q (sdb s)) (remote m)
         (fun _ s => sys_ok s /\ Q (sdb s)) (fun _ s => sys_ok s /\ Q (sdb s)).
Proof.
  intros [db env fs] H. unfold remote. cbn. by destruct (m env) as [[a|e] env'].
Qed.

Lemma preserves_atomic {A} (m : M DB E A) : preserves P m -> preserves sys_ok (atomic m).
Proof.
  intros Hm. unfold preserves. eapply triple_conseq.
  - apply (triple_atomic (fun _ => True) m (fun _ _ => True) (fun _ _ => True)); [done|].
    intros db Hdb _. specialize (Hm db Hdb). destruct (m db) as [[a|e] db']; auto.
  - by intros s Hs.
  - by intros a s [Hs _].
  - by intros e s [Hs _].
Qed.
Lemma preserves_remote {A} (m : M Env E A) : preserves sys_ok (remote m).
Proof.
  intros [db env fs] H. unfold remote. cbn. by destruct (m env) as [[a|e] env'].
Qed.
End Requests.
#[export] Hint Resolve preserves_atomic preserves_remote : preserve.

Arguments atomic : simpl never.
Arguments remote : simpl never.

(** A request that runs alone. *)
Definition alone {DB Env} (db : DB) (env : Env) : System DB Env := mkSystem db env [].
Section Alone.
Context {DB Env E : Type}.
Lemma atomic_alone {A} (m : M DB E A) db (env : Env) :
  atomic m (alone db env) = ((m db).1, alone (m db).2 env).
Proof. unfold atomic, alone. cbn. by destruct (m db). Qed.
Lemma remote_alone {A} (m : M Env E A) (db : DB) env :
  remote m (alone db env) = ((m env).1, alone db (m env).2).
Proof. unfold remote, alone. cbn. by destruct (m env). Qed.
End Alone.
