(* ===== verification/RiskTypes.v ===== *)
(** * The contracts of the Risk service ([packages/contracts/src/risk/v1.ts]) *)

From Stdlib Require Import ZArith Lia Ascii String.
From stdpp Require Import base strings list.
From S2P Require Import Prelude.
From S2P Require Import Js.
From S2P Require Import Regex.
From S2P Require Import Contracts.

Open Scope Z_scope.

(** ** Enumerations *)
Inductive RiskSource := GATEWAY | IDENTITY | PAYMENTS | LEDGER | INFRASTRUCTURE | CHANNEL_ADAPTER.
Inductive RiskSeverity := SEV_INFO | SEV_LOW | SEV_MEDIUM | SEV_HIGH | SEV_CRITICAL.
Inductive RiskBand := LOW | MEDIUM | HIGH | CRITICAL.
Inductive RiskDecision :=
| ALLOW | ALLOW_WITH_MONITORING | D_REQUIRE_STEP_UP | HOLD_FOR_REVIEW | BLOCK | D_QUARANTINE.
Inductive ControlType :=
| REQUIRE_STEP_UP | TEMPORARY_BLOCK | TRANSFER_HOLD | RECIPIENT_BLOCK | SESSION_REVOKE
| ACCOUNT_RESTRICT | MANUAL_REVIEW | QUARANTINE.
Inductive ControlScope := CUSTOMER | SESSION | DEVICE | ACCOUNT | RECIPIENT | OPERATION | SERVICE.
Inductive ControlStatus := CS_ACTIVE | CS_RELEASED | CS_EXPIRED | CS_OVERRIDDEN.
Inductive IncidentStatus := OPEN | INVESTIGATING | CONTAINED | RESOLVED | FALSE_POSITIVE.
Inductive RiskOperation :=
| AUTHENTICATION | TRANSFER_PREVIEW_OP | TRANSFER_CONFIRMATION_OP | SESSION_USE.
Inductive SecurityEventType :=
| LOGIN_SUCCESS | LOGIN_FAILURE | OTP_FAILURE | PIN_FAILURE | ACCOUNT_LOCK | SESSION_CREATED
| SESSION_REVOKED | CREDENTIAL_CHANGED | DEVICE_CHANGED | TRANSFER_PREVIEW | TRANSFER_CONFIRMATION
| TRANSFER_FAILURE | INSUFFICIENT_FUNDS_EVENT | IDEMPOTENCY_CONFLICT_EVENT | HIGH_VALUE_TRANSFER
| NEW_RECIPIENT | EXPIRED_INTENT | RECONCILIATION_ANOMALY | RATE_LIMIT_VIOLATION | CSRF_FAILURE
| MALFORMED_REQUEST | FORBIDDEN_ROUTE | SUSPICIOUS_REQUEST | SERVICE_PROBE | UNBALANCED_JOURNAL
| DUPLICATE_POSTING | INTEGRITY_FAILURE | INTERNAL_AUTH_FAILURE | REPLAY_EVENT
| INVALID_SERVICE_TOKEN | ROUTE_AUTH_ANOMALY | TAMPER_SIGNAL.

#[export] Instance RiskSource_eq_dec : EqDecision RiskSource.
Proof. solve_decision. Defined.
#[export] Instance RiskSeverity_eq_dec : EqDecision RiskSeverity.
Proof. solve_decision. Defined.
#[export] Instance RiskBand_eq_dec : EqDecision RiskBand.
Proof. solve_decision. Defined.
#[export] Instance RiskDecision_eq_dec : EqDecision RiskDecision.
Proof. solve_decision. Defined.
#[export] Instance ControlType_eq_dec : EqDecision ControlType.
Proof. solve_decision. Defined.
#[export] Instance ControlScope_eq_dec : EqDecision ControlScope.
Proof. solve_decision. Defined.
#[export] Instance ControlStatus_eq_dec : EqDecision ControlStatus.
Proof. solve_decision. Defined.
#[export] Instance IncidentStatus_eq_dec : EqDecision IncidentStatus.
Proof. solve_decision. Defined.
#[export] Instance RiskOperation_eq_dec : EqDecision RiskOperation.
Proof. solve_decision. Defined.
#[export] Instance SecurityEventType_eq_dec : EqDecision SecurityEventType.
Proof. solve_decision. Defined.

Definition source_str (s : RiskSource) : string :=
  match s with
  | GATEWAY => "GATEWAY" | IDENTITY => "IDENTITY" | PAYMENTS => "PAYMENTS" | LEDGER => "LEDGER"
  | INFRASTRUCTURE => "INFRASTRUCTURE" | CHANNEL_ADAPTER => "CHANNEL_ADAPTER"
  end.

(** ** Requests and responses *)
Definition opaqueIdentifier_rx : rx :=
  rep_range 8 128 (Cls (fun c => alnum c || Ascii.eqb c ":" || Ascii.eqb c "_" || Ascii.eqb c "-")).
Definition opaqueIdentifier : string -> bool := rx_match opaqueIdentifier_rx.

Record SecurityEventV1 := mkSecurityEvent {
  se_eventId : string;
  se_source : RiskSource;
  se_sourceEventId : string;
  se_eventType : SecurityEventType;
  se_severity : RiskSeverity;
  se_occurredAt : string;
  se_subjectId : option string;
  se_accountId : option string;
  se_sessionId : option string;
  se_deviceId : option string;
  se_recipientId : option string;
  se_correlationId : string;
  se_attributes : list (string * json)
}.

Definition operation_str (o : RiskOperation) : string :=
  match o with
  | AUTHENTICATION => "AUTHENTICATION" | TRANSFER_PREVIEW_OP => "TRANSFER_PREVIEW"
  | TRANSFER_CONFIRMATION_OP => "TRANSFER_CONFIRMATION" | SESSION_USE => "SESSION_USE"
  end.

Record RiskEvaluationRequest := mkEvaluation {
  ev_evaluationId : string;
  ev_operation : RiskOperation;
  ev_subjectId : string;
  ev_sessionId : option string;
  ev_deviceId : option string;
  ev_accountId : option string;
  ev_recipientId : option string;
  ev_amountMinor : option string;
  ev_currency : option string;
  ev_stepUpVerified : bool;
  ev_occurredAt : string;
  ev_correlationId : string
}.

Record RiskAssessment := mkAssessment {
  as_assessmentId : string;
  as_score : Z;
  as_band : RiskBand;
  as_decision : RiskDecision;
  as_triggeredRules : list string;
  as_reasonCodes : list string;
  as_controlRecommendation : option ControlType;
  as_expiresAt : string;
  as_ruleSetVersion : string;
  as_publicExplanation : string
}.

Record ScopeRef := mkScope { sc_type : ControlScope; sc_id : string }.
Record ControlCheckRequest := mkControlCheck {
  cc_operation : string;
  cc_scopes : list ScopeRef;
  cc_correlationId : string
}.
Record ControlCheckResponse := mkControlResponse {
  cr_allowed : bool;
  cr_decision : RiskDecision;
  cr_reasonCodes : list string;
  cr_requiresStepUp : bool;
  cr_expiresAt : option string
}.

Definition allowedAttributes : list string :=
  ["operation"; "outcome"; "amountMinor"; "currency"; "failureCode"; "httpStatus"; "route"; "method";
   "stepUpVerified"; "recipientIsNew"; "regionCode"; "previousRegionCode"; "requestCount";
   "sourceVersion"; "integrityCode"].

Definition safeAttributeValue (v : json) : bool :=
  match v with
  | JStr s => (String.length s <=? 256)%nat
  | JNum z => is_safe_integer z
  | JBool _ | JNull => true
  | _ => false
  end.
Definition safeRiskAttributesSchema (attributes : list (string * json)) : bool :=
  forallb (fun '(k, v) => bool_decide (k ∈ allowedAttributes) && safeAttributeValue v) attributes.

Definition len_between (lo hi : nat) (s : string) : bool :=
  ((lo <=? String.length s) && (String.length s <=? hi))%nat.
Definition when_present {A} (p : A -> bool) (o : option A) : bool :=
  match o with Some a => p a | None => true end.

Section Schemas.
Context {zod : Zod}.

Definition securityEventV1Schema (e : SecurityEventV1) : bool :=
  z_uuid (se_eventId e) && len_between 8 128 (se_sourceEventId e) && z_datetime (se_occurredAt e)
  && when_present opaqueIdentifier (se_subjectId e) && when_present opaqueIdentifier (se_accountId e)
  && when_present opaqueIdentifier (se_sessionId e) && when_present opaqueIdentifier (se_deviceId e)
  && when_present opaqueIdentifier (se_recipientId e) && z_uuid (se_correlationId e)
  && safeRiskAttributesSchema (se_attributes e).

Definition riskAmount_rx : rx := rep_range 1 20 digit.
Definition riskEvaluationRequestSchema (r : RiskEvaluationRequest) : bool :=
  z_uuid (ev_evaluationId r) && opaqueIdentifier (ev_subjectId r)
  && when_present opaqueIdentifier (ev_sessionId r) && when_present opaqueIdentifier (ev_deviceId r)
  && when_present opaqueIdentifier (ev_accountId r) && when_present opaqueIdentifier (ev_recipientId r)
  && when_present (rx_match riskAmount_rx) (ev_amountMinor r)
  && when_present (rx_match currency_rx) (ev_currency r)
  && z_datetime (ev_occurredAt r) && z_uuid (ev_correlationId r).

Definition riskAssessmentSchema (a : RiskAssessment) : bool :=
  z_uuid (as_assessmentId a) && (0 <=? as_score a) && (as_score a <=? 100)
  && forallb (len_between 1 64) (as_triggeredRules a) && (length (as_triggeredRules a) <=? 32)%nat
  && forallb (len_between 1 64) (as_reasonCodes a) && (length (as_reasonCodes a) <=? 32)%nat
  && z_datetime (as_expiresAt a) && len_between 1 32 (as_ruleSetVersion a)
  && len_between 1 256 (as_publicExplanation a).

Definition controlCheckRequestSchema (r : ControlCheckRequest) : bool :=
  len_between 1 64 (cc_operation r) && forallb (fun s => opaqueIdentifier (sc_id s)) (cc_scopes r)
  && ((1 <=? length (cc_scopes r)) && (length (cc_scopes r) <=? 8))%nat && z_uuid (cc_correlationId r).
Definition controlCheckResponseSchema (r : ControlCheckResponse) : bool :=
  forallb (len_between 1 64) (cr_reasonCodes r) && (length (cr_reasonCodes r) <=? 16)%nat
  && when_present z_datetime (cr_expiresAt r).
End Schemas.
