(* ===== verification/RiskEngine.v ===== *)
(** * The rule engine of the Risk service
    ([services/risk/src/assessments/risk-engine.ts]) *)

From Stdlib Require Import ZArith Lia Ascii String.
From stdpp Require Import base strings list.
From S2P Require Import Prelude.
From S2P Require Import Js.
From S2P Require Import RiskTypes.

Open Scope Z_scope.

Definition RULE_SET_VERSION : string := "risk-rules-2026-08-v1".

Record RiskThresholds := mkThresholds {
  th_authFailures : Z;
  th_requestVelocity : Z;
  th_transferVelocity : Z;
  th_cumulativeOutgoingMinor : Z;
  th_highValueMinor : Z;
  th_insufficientFunds : Z;
  th_idempotencyConflicts : Z;
  th_linkedSubjectsPerDevice : Z;
  th_csrfMalformed : Z
}.
Definition DEFAULT_THRESHOLDS : RiskThresholds := mkThresholds 5 60 5 25000000 10000000 3 2 3 5.

Record RiskFacts := mkFacts {
  fa_authFailures : Z;
  fa_requestVelocity : Z;
  fa_transferVelocity : Z;
  fa_cumulativeOutgoingMinor : Z;
  fa_newRecipient : bool;
  fa_insufficientFunds : Z;
  fa_idempotencyConflicts : Z;
  fa_linkedSubjectsForDevice : Z;
  fa_rapidRegionChange : bool;
  fa_integrityAnomaly : bool;
  fa_internalAuthFailures : Z;
  fa_csrfMalformedFailures : Z;
  fa_blockedScope : bool;
  fa_activeIncident : bool;
  fa_activeControl : bool
}.
Record TriggeredRule := mkRule { ru_code : string; ru_reasonCode : string; ru_weight : Z }.
Record EngineResult := mkEngineResult {
  en_score : Z;
  en_band : RiskBand;
  en_decision : RiskDecision;
  en_triggeredRules : list string;
  en_reasonCodes : list string;
  en_controlRecommendation : option ControlType;
  en_publicExplanation : string
}.

(** [BigInt(input.amountMinor || '0')]; [None]: the conversion throws. *)
Definition evaluated_amount (input : RiskEvaluationRequest) : option Z :=
  match ev_amountMinor input with
  | Some a => if String.eqb a "" then Some 0 else BigInt_of a
  | None => Some 0
  end.

Definition risk_rules (amount : Z) (facts : RiskFacts) (thresholds : RiskThresholds) : list (bool * TriggeredRule) :=
  [(th_authFailures thresholds <=? fa_authFailures facts,
    mkRule "AUTH_FAILURE_BURST" "REPEATED_AUTH_FAILURES" 25);
   (th_requestVelocity thresholds <=? fa_requestVelocity facts,
    mkRule "REQUEST_VELOCITY" "SUSPICIOUS_REQUEST_VELOCITY" 20);
   (th_transferVelocity thresholds <=? fa_transferVelocity facts,
    mkRule "TRANSFER_VELOCITY" "HIGH_TRANSFER_VELOCITY" 25);
   (th_cumulativeOutgoingMinor thresholds <=? fa_cumulativeOutgoingMinor facts,
    mkRule "CUMULATIVE_OUTGOING" "HIGH_CUMULATIVE_VALUE" 25);
   (th_highValueMinor thresholds <=? amount,
    mkRule "HIGH_VALUE" "HIGH_VALUE_TRANSFER" 20);
   ((th_highValueMinor thresholds <=? amount) && fa_newRecipient facts,
    mkRule "NEW_RECIPIENT_HIGH_VALUE" "NEW_RECIPIENT_HIGH_VALUE" 30);
   (th_insufficientFunds thresholds <=? fa_insufficientFunds facts,
    mkRule "INSUFFICIENT_FUNDS_BURST" "REPEATED_INSUFFICIENT_FUNDS" 15);
   (th_idempotencyConflicts thresholds <=? fa_idempotencyConflicts facts,
    mkRule "REPLAY_PATTERN" "REPLAY_LIKE_BEHAVIOUR" 35);
   (th_linkedSubjectsPerDevice thresholds <=? fa_linkedSubjectsForDevice facts,
    mkRule "SHARED_DEVICE_CLUSTER" "SUSPICIOUS_DEVICE_CLUSTER" 25);
   (fa_rapidRegionChange facts,
    mkRule "RAPID_REGION_CHANGE" "RAPID_REGION_CHANGE" 15);
   (fa_integrityAnomaly facts,
    mkRule "INTEGRITY_ANOMALY" "INTEGRITY_ANOMALY" 60);
   (0 <? fa_internalAuthFailures facts,
    mkRule "INTERNAL_AUTH_FAILURE" "INTERNAL_AUTHENTICATION_FAILURE" 50);
   (th_csrfMalformed thresholds <=? fa_csrfMalformedFailures facts,
    mkRule "SENSITIVE_REQUEST_FAILURES" "REPEATED_INVALID_REQUESTS" 20);
   (fa_blockedScope facts,
    mkRule "KNOWN_BLOCKED_SCOPE" "ACTIVE_BLOCK" 100);
   (fa_activeIncident facts || fa_activeControl facts,
    mkRule "EXISTING_RISK_STATE" "ACTIVE_INCIDENT_OR_CONTROL" 50)].
Definition matched_rules (rules : list (bool * TriggeredRule)) : list TriggeredRule :=
  omap (fun '(matched, rule) => if matched : bool then Some rule else None) rules.
Definition triggeredRiskRules (input : RiskEvaluationRequest) (facts : RiskFacts) (thresholds : RiskThresholds)
  : option (list TriggeredRule) :=
  amount ← evaluated_amount input;
  Some (matched_rules (risk_rules amount facts thresholds)).

Definition riskBand (score : Z) : RiskBand :=
  if 75 <=? score then CRITICAL else if 50 <=? score then HIGH else if 25 <=? score then MEDIUM else LOW.

Definition decide_risk (blocked : bool) (band : RiskBand) (stepUp : bool) (rules : list TriggeredRule)
  : RiskDecision * option ControlType :=
  if blocked then (BLOCK, Some TEMPORARY_BLOCK)
  else match band, stepUp with
       | CRITICAL, _ => (D_QUARANTINE, Some QUARANTINE)
       | HIGH, _ => (HOLD_FOR_REVIEW, Some TRANSFER_HOLD)
       | MEDIUM, false => (D_REQUIRE_STEP_UP, Some REQUIRE_STEP_UP)
       | MEDIUM, true => (ALLOW_WITH_MONITORING, None)
       | LOW, _ => (if (0 <? length rules)%nat then ALLOW_WITH_MONITORING else ALLOW, None)
       end.
Definition explanation (d : RiskDecision) : string :=
  match d with
  | ALLOW => "No additional verification is required."
  | ALLOW_WITH_MONITORING => "The operation may continue with security monitoring."
  | D_REQUIRE_STEP_UP => "Additional identity verification is required."
  | _ => "The operation cannot continue while a security review is active."
  end.
Definition risk_score (rules : list TriggeredRule) : Z := Z.min 100 (sum_by ru_weight rules).
Definition evaluateRisk (input : RiskEvaluationRequest) (facts : RiskFacts) (thresholds : RiskThresholds)
  : option EngineResult :=
  rules ← triggeredRiskRules input facts thresholds;
  let score := risk_score rules in
  let band := riskBand score in
  let '(decision, control) := decide_risk (fa_blockedScope facts) band (ev_stepUpVerified input) rules in
  Some (mkEngineResult score band decision (ru_code <$> rules) (ru_reasonCode <$> rules) control
          (explanation decision)).

(** ** Monotonicity *)

(** How much a decision restricts the operation. *)
Definition restriction (d : RiskDecision) : nat :=
  match d with
  | ALLOW => 0 | ALLOW_WITH_MONITORING => 1 | D_REQUIRE_STEP_UP => 2 | HOLD_FOR_REVIEW => 3
  | BLOCK | D_QUARANTINE => 4
  end.
Definition band_rank (b : RiskBand) : nat := match b with LOW => 0 | MEDIUM => 1 | HIGH => 2 | CRITICAL => 3 end.

(** The evidence in [b] is at least as bad as in [a]. *)
Record facts_le (a b : RiskFacts) : Prop := {
  fl_auth : fa_authFailures a <= fa_authFailures b;
  fl_requests : fa_requestVelocity a <= fa_requestVelocity b;
  fl_transfers : fa_transferVelocity a <= fa_transferVelocity b;
  fl_outgoing : fa_cumulativeOutgoingMinor a <= fa_cumulativeOutgoingMinor b;
  fl_recipient : fa_newRecipient a = true -> fa_newRecipient b = true;
  fl_insufficient : fa_insufficientFunds a <= fa_insufficientFunds b;
  fl_conflicts : fa_idempotencyConflicts a <= fa_idempotencyConflicts b;
  fl_linked : fa_linkedSubjectsForDevice a <= fa_linkedSubjectsForDevice b;
  fl_region : fa_rapidRegionChange a = true -> fa_rapidRegionChange b = true;
  fl_integrity : fa_integrityAnomaly a = true -> fa_integrityAnomaly b = true;
  fl_internal : fa_internalAuthFailures a <= fa_internalAuthFailures b;
  fl_csrf : fa_csrfMalformedFailures a <= fa_csrfMalformedFailures b;
  fl_blocked : fa_blockedScope a = true -> fa_blockedScope b = true;
  fl_incident : fa_activeIncident a = true -> fa_activeIncident b = true;
  fl_control : fa_activeControl a = true -> fa_activeControl b = true
}.

Definition rule_le (x y : bool * TriggeredRule) : Prop := (x.1 = true -> y.1 = true) /\ x.2 = y.2 /\ 0 <= ru_weight x.2.
Lemma leb_mono t a b : a <= b -> (t <=? a) = true -> (t <=? b) = true.
Proof. rewrite !Z.leb_le. lia. Qed.
Lemma rules_mono amount1 amount2 f1 f2 th : amount1 <= amount2 -> facts_le f1 f2 ->
  Forall2 rule_le (risk_rules amount1 f1 th) (risk_rules amount2 f2 th).
Proof.
  intros Ha []. unfold risk_rules.
  repeat (constructor; [split; [cbn [fst]|split; [done|cbn; lia]]|]); try done;
    try (apply leb_mono; assumption).
  - rewrite !andb_true_iff. intros [? ?]. split; [by eapply leb_mono|auto].
  - rewrite !Z.ltb_lt. lia.
  - rewrite !orb_true_iff. intros [?|?]; auto.
Qed.
Lemma matched_cons (b : bool) r l :
  matched_rules ((b, r) :: l) = if b then r :: matched_rules l else matched_rules l.
Proof. by destruct b. Qed.
Lemma matched_mono l1 l2 : Forall2 rule_le l1 l2 ->
  sum_by ru_weight (matched_rules l1) <= sum_by ru_weight (matched_rules l2) /\
  (length (matched_rules l1) <= length (matched_rules l2))%nat.
Proof.
  induction 1 as [|[b1 r1] [b2 r2] l1 l2 (Hb & Hr & Hw) H [IH1 IH2]]; [done|].
  cbn in Hb, Hr, Hw. subst r2. rewrite !matched_cons. destruct b1.
  - rewrite (Hb eq_refl), !sum_by_cons. cbn [length]. lia.
  - destruct b2; rewrite ?sum_by_cons; cbn [length]; lia.
Qed.
Lemma band_mono s1 s2 : s1 <= s2 -> (band_rank (riskBand s1) <= band_rank (riskBand s2))%nat.
Proof.
  intros H. unfold riskBand.
  destruct (Z.leb_spec 75 s1), (Z.leb_spec 75 s2); cbn; try lia;
    destruct (Z.leb_spec 50 s1), (Z.leb_spec 50 s2); cbn; try lia;
    destruct (Z.leb_spec 25 s1), (Z.leb_spec 25 s2); cbn; lia.
Qed.
Lemma decision_mono blocked1 blocked2 band1 band2 (step1 step2 : bool) rules1 rules2 :
  (blocked1 = true -> blocked2 = true) -> (band_rank band1 <= band_rank band2)%nat ->
  (step2 = true -> step1 = true) -> (length rules1 <= length rules2)%nat ->
  (restriction (decide_risk blocked1 band1 step1 rules1).1
   <= restriction (decide_risk blocked2 band2 step2 rules2).1)%nat.
Proof.
  intros Hb Hband Hs Hl. unfold decide_risk. destruct blocked1; [by rewrite Hb|].
  destruct (Nat.ltb_spec 0 (length rules1)), (Nat.ltb_spec 0 (length rules2)); try lia;
    destruct blocked2, band1, band2, step1, step2; cbn in *; try lia; by specialize (Hs eq_refl).
Qed.

(** C29: worse evidence never helps: with facts at least as bad, an amount at
    least as high and no better verification, the score and the band are at
    least as high and the decision restricts the operation at least as much. *)
Theorem risk_monotone input1 input2 f1 f2 th a1 a2 r1 r2 :
  evaluated_amount input1 = Some a1 -> evaluated_amount input2 = Some a2 -> a1 <= a2 ->
  (ev_stepUpVerified input2 = true -> ev_stepUpVerified input1 = true) -> facts_le f1 f2 ->
  evaluateRisk input1 f1 th = Some r1 -> evaluateRisk input2 f2 th = Some r2 ->
  0 <= en_score r1 <= en_score r2 /\ en_score r2 <= 100 /\
  (band_rank (en_band r1) <= band_rank (en_band r2))%nat /\
  (restriction (en_decision r1) <= restriction (en_decision r2))%nat.
Proof.
  intros H1 H2 Ha Hs Hf. unfold evaluateRisk, triggeredRiskRules. rewrite H1, H2. cbn [mbind option_bind].
  pose proof (rules_mono a1 a2 f1 f2 th Ha Hf) as Hr. pose proof (matched_mono _ _ Hr) as [Hsum Hlen].
  set (l1 := matched_rules (risk_rules a1 f1 th)) in *. set (l2 := matched_rules (risk_rules a2 f2 th)) in *.
  assert (Hpos : 0 <= sum_by ru_weight l1).
  { apply sum_by_nonneg. intros r Hin. unfold l1, matched_rules in Hin.
    apply list_elem_of_omap in Hin as ([b x] & Hin & Hx). destruct b; [injection Hx as <-|done].
    apply list_elem_of_lookup in Hin as [i Hi]. destruct (Forall2_lookup_l _ _ _ _ _ Hr Hi) as (y & _ & _ & _ & Hw).
    exact Hw. }
  clear Hr. clearbody l1 l2.
  assert (Hsc : 0 <= risk_score l1 <= risk_score l2 /\ risk_score l2 <= 100) by (unfold risk_score; lia).
  pose proof (band_mono _ _ (proj2 (proj1 Hsc))) as Hb.
  pose proof (decision_mono (fa_blockedScope f1) (fa_blockedScope f2) _ _ _ _ l1 l2 (fl_blocked _ _ Hf) Hb Hs Hlen) as Hd.
  destruct (decide_risk (fa_blockedScope f1) _ _ _) as [d1 c1], (decide_risk (fa_blockedScope f2) _ _ _) as [d2 c2].
  intros [= <-] [= <-]. cbn in *. tauto.
Qed.
