(* ===== verification/LedgerDb.v ===== *)
(** * The Ledger database: tables, constraints, triggers and the invariant
    ([services/ledger/prisma]; [services/ledger/src/common/errors/ledger.error.ts]) *)

From Stdlib Require Import ZArith Lia Ascii String.
From stdpp Require Import base strings list gmap fin_maps sorting.
From S2P Require Import Prelude.
From S2P Require Import Js.
From S2P Require Import Regex.
From S2P Require Import Contracts.
From S2P Require Import Security.

Open Scope Z_scope.

(** PostgreSQL and Prisma: which text is a UUID, the constraint target Prisma
    reports for a unique violation on a table's fields, and the stream of
    generated identifiers. *)
Class Postgres := {
  pg_uuid : string -> bool;
  prisma_target : string -> list string -> string;
  uuid : N -> string
}.

(** ** Errors *)
Inductive LedgerErr :=
| LedgerError (code : string) (message : string) (status : Z)
| P2002 (table : string) (fields : list string)  (* unique violation *)
| DbError (what : string)                        (* any other database error *)
| JsError (message : string).                    (* TypeError, Error, ZodError *)

Definition invalidRequestError : LedgerErr :=
  LedgerError "INVALID_REQUEST" "The request is invalid." 400.
Definition accountNotFoundError : LedgerErr :=
  LedgerError "ACCOUNT_NOT_FOUND" "The account could not be found." 404.
Definition accountNotActiveError : LedgerErr :=
  LedgerError "ACCOUNT_NOT_ACTIVE" "The account is not active." 409.
Definition insufficientFundsError : LedgerErr :=
  LedgerError "INSUFFICIENT_FUNDS" "The account has insufficient available funds." 409.
Definition unbalancedJournalError : LedgerErr :=
  LedgerError "UNBALANCED_JOURNAL" "Journal debits and credits must be equal." 400.
Definition currencyMismatchError : LedgerErr :=
  LedgerError "CURRENCY_MISMATCH" "All postings must use the journal currency." 400.
Definition idempotencyConflictError : LedgerErr :=
  LedgerError "IDEMPOTENCY_CONFLICT"
    "This idempotency key was already used with a different request." 409.
Definition idempotencyInProgressError : LedgerErr :=
  LedgerError "IDEMPOTENCY_IN_PROGRESS" "An identical request is already being processed." 409.

(** ** Tables *)
Inductive SystemAccountType :=
| PLATFORM_SETTLEMENT_ASSET | CUSTOMER_FUNDS_LIABILITY_CONTROL | AGENT_FLOAT.
#[export] Instance SystemAccountType_eq_dec : EqDecision SystemAccountType.
Proof. solve_decision. Defined.

Record LedgerAccount := mkLedgerAccount {
  la_code : string;
  la_name : string;
  la_currency : string;
  la_accountClass : LedgerAccountClass;
  la_normalBalance : PostingDirection;
  la_systemAccountType : option SystemAccountType;
  la_allowNegativeBalance : bool;
  la_createdAt : Z
}.

Record BalanceProjection := mkProjection {
  bp_debitTotalMinor : Z;
  bp_creditTotalMinor : Z;
  bp_version : Z;
  bp_updatedAt : Z
}.

Record CustomerAccount := mkCustomerAccount {
  ca_id : string;
  ca_customerId : string;
  ca_publicReference : string;
  ca_maskedReference : string;
  ca_productType : AccountProductType;
  ca_currency : string;
  ca_status : AccountStatus;
  ca_ledgerAccountId : string;
  ca_createdAt : Z
}.

Record JournalEntry := mkEntry {
  je_id : string;
  je_reference : string;
  je_entryType : JournalEntryType;
  je_currency : string;
  je_description : option string;
  je_correlationId : string;
  je_effectiveAt : Z;
  je_createdAt : Z;
  je_createdByType : string;
  je_createdById : string;
  je_metadata : json
}.

Record JournalPosting := mkPosting {
  jp_id : string;
  jp_journalEntryId : string;
  jp_ledgerAccountId : string;
  jp_direction : PostingDirection;
  jp_amountMinor : Z;
  jp_currency : string;
  jp_sequence : Z;
  jp_createdAt : Z
}.

(** The stored JSON response, one constructor per idempotency scope. *)
Inductive ResponseBody :=
| RJournal (r : JournalResult)
| RProvision (r : ProvisionDefaultAccountResult).

Record IdempotencyRecord := mkRecord {
  ir_requestHash : string;
  ir_completed : bool;
  ir_responseBody : option ResponseBody;
  ir_expiresAt : Z
}.

Record ReconciliationIssue := mkIssue {
  is_code : string;
  is_error : bool;                        (* severity: ERROR or WARNING *)
  is_safeIdentifier : option string
}.
Record ReconciliationRun := mkRun {
  rr_id : string;
  rr_pass : bool;
  rr_startedAt : Z;
  rr_completedAt : Z;
  rr_checkedJournalEntries : Z;
  rr_checkedPostings : Z;
  rr_checkedLedgerAccounts : Z;
  rr_checkedCustomerAccounts : Z;
  rr_issues : list ReconciliationIssue;
  rr_correlationId : string;
  rr_createdAt : Z
}.

(** Entries, postings, customer accounts and runs are listed in insertion order;
    nothing updates or deletes an entry or a posting (append-only triggers). *)
Record LedgerDb := mkDb {
  ledgerAccounts : gmap string LedgerAccount;
  balanceProjections : gmap string BalanceProjection;
  customerAccounts : list CustomerAccount;
  journalEntries : list JournalEntry;
  journalPostings : list JournalPosting;
  idempotencyRecords : gmap (string * string) IdempotencyRecord;
  reconciliationRuns : list ReconciliationRun;
  uuidCounter : N
}.

Definition emptyDb : LedgerDb := mkDb ∅ ∅ [] [] [] ∅ [] 0.

Definition set_accounts f db := mkDb (f (ledgerAccounts db)) (balanceProjections db)
  (customerAccounts db) (journalEntries db) (journalPostings db) (idempotencyRecords db)
  (reconciliationRuns db) (uuidCounter db).
Definition set_projections f db := mkDb (ledgerAccounts db) (f (balanceProjections db))
  (customerAccounts db) (journalEntries db) (journalPostings db) (idempotencyRecords db)
  (reconciliationRuns db) (uuidCounter db).
Definition set_customers f db := mkDb (ledgerAccounts db) (balanceProjections db)
  (f (customerAccounts db)) (journalEntries db) (journalPostings db) (idempotencyRecords db)
  (reconciliationRuns db) (uuidCounter db).
Definition set_entries f db := mkDb (ledgerAccounts db) (balanceProjections db)
  (customerAccounts db) (f (journalEntries db)) (journalPostings db) (idempotencyRecords db)
  (reconciliationRuns db) (uuidCounter db).
Definition set_postings f db := mkDb (ledgerAccounts db) (balanceProjections db)
  (customerAccounts db) (journalEntries db) (f (journalPostings db)) (idempotencyRecords db)
  (reconciliationRuns db) (uuidCounter db).
Definition set_records f db := mkDb (ledgerAccounts db) (balanceProjections db)
  (customerAccounts db) (journalEntries db) (journalPostings db) (f (idempotencyRecords db))
  (reconciliationRuns db) (uuidCounter db).
Definition set_runs f db := mkDb (ledgerAccounts db) (balanceProjections db)
  (customerAccounts db) (journalEntries db) (journalPostings db) (idempotencyRecords db)
  (f (reconciliationRuns db)) (uuidCounter db).
Definition set_uuid f db := mkDb (ledgerAccounts db) (balanceProjections db)
  (customerAccounts db) (journalEntries db) (journalPostings db) (idempotencyRecords db)
  (reconciliationRuns db) (f (uuidCounter db)).

Abbreviation DbM := (M LedgerDb LedgerErr).

Definition db_check (ok : bool) (what : string) : DbM unit := throw_when (negb ok) (DbError what).
Definition unique_check (ok : bool) (table : string) (fields : list string) : DbM unit :=
  throw_when (negb ok) (P2002 table fields).
Definition varchar (n : nat) (s : string) : bool := (String.length s <=? n)%nat.
Definition currency_format (s : string) : bool := rx_match currency_rx s.

Section Statements.
Context {pg : Postgres}.

Definition fresh_uuid : DbM string :=
  fun db => (Ok (uuid (uuidCounter db)), set_uuid N.succ db).

(** [tx.journalEntry.create] *)
Definition create_entry (e : string -> JournalEntry) : DbM JournalEntry :=
  id ← fresh_uuid;
  let e := e id in
  db ← get;
  _ ← unique_check (forallb (fun x => negb (String.eqb (je_id x) (je_id e))) (journalEntries db))
        "journal_entries" ["id"];
  _ ← unique_check
        (forallb (fun x => negb (String.eqb (je_reference x) (je_reference e))) (journalEntries db))
        "journal_entries" ["reference"];
  _ ← db_check (currency_format (je_currency e) && varchar 64 (je_reference e)
        && varchar 256 (default "" (je_description e)) && pg_uuid (je_correlationId e))
        "journal_entries";
  _ ← modify (set_entries (fun l => l ++ [e]));
  mret e.

(** [tx.journalPosting.create] *)
Definition create_posting (p : string -> JournalPosting) : DbM JournalPosting :=
  id ← fresh_uuid;
  let p := p id in
  db ← get;
  _ ← unique_check (forallb (fun x => negb (String.eqb (jp_id x) (jp_id p))) (journalPostings db))
        "journal_postings" ["id"];
  _ ← unique_check
        (forallb (fun x => negb (String.eqb (jp_journalEntryId x) (jp_journalEntryId p)
                                 && (jp_sequence x =? jp_sequence p))) (journalPostings db))
        "journal_postings" ["journalEntryId"; "sequence"];
  _ ← db_check (existsb (fun e => String.eqb (je_id e) (jp_journalEntryId p)) (journalEntries db))
        "journal_postings_journal_entry_id_fkey";
  _ ← db_check (bool_decide (is_Some (ledgerAccounts db !! jp_ledgerAccountId p)))
        "journal_postings_ledger_account_id_fkey";
  _ ← db_check ((0 <? jp_amountMinor p) && int64_ok (jp_amountMinor p))
        "journal_postings_amount_minor_positive";
  _ ← db_check ((0 <=? jp_sequence p) && (jp_sequence p <? 32)) "journal_postings_sequence_range";
  _ ← db_check (currency_format (jp_currency p)) "journal_postings_currency_format";
  _ ← modify (set_postings (fun l => l ++ [p]));
  mret p.

(** [tx.balanceProjection.update] *)
Definition update_projection (id : string) (f : BalanceProjection -> BalanceProjection) : DbM unit :=
  db ← get;
  bp ← require (balanceProjections db !! id) (DbError "P2025");
  let bp := f bp in
  _ ← db_check (int64_ok (bp_debitTotalMinor bp) && int64_ok (bp_creditTotalMinor bp)
        && int32_ok (bp_version bp)) "balance_projections_range";
  _ ← db_check ((0 <=? bp_debitTotalMinor bp) && (0 <=? bp_creditTotalMinor bp))
        "balance_projections_totals_non_negative";
  _ ← db_check (0 <=? bp_version bp) "balance_projections_version_non_negative";
  modify (set_projections <[id := bp]>).

Definition normal_matches_class (c : LedgerAccountClass) (d : PostingDirection) : bool :=
  bool_decide (d = if DEBIT_POSITIVE_CLASSES c then DEBIT else CREDIT).

(** [tx.ledgerAccount.create], with the trigger that creates the projection. *)
Definition create_ledger_account (now : Z) (a : LedgerAccount) : DbM string :=
  id ← fresh_uuid;
  db ← get;
  _ ← unique_check (negb (bool_decide (is_Some (ledgerAccounts db !! id)))) "ledger_accounts" ["id"];
  _ ← unique_check
        (forallb (fun kv => negb (String.eqb (la_code kv.2) (la_code a)))
           (map_to_list (ledgerAccounts db)))
        "ledger_accounts" ["code"];
  _ ← unique_check
        (forallb (fun kv => match la_systemAccountType kv.2, la_systemAccountType a with
                            | Some s, Some t => negb (bool_decide (s = t))
                            | _, _ => true
                            end) (map_to_list (ledgerAccounts db)))
        "ledger_accounts" ["systemAccountType"];
  _ ← db_check (currency_format (la_currency a) && varchar 64 (la_code a) && varchar 128 (la_name a))
        "ledger_accounts_currency_format";
  _ ← db_check (normal_matches_class (la_accountClass a) (la_normalBalance a))
        "ledger_accounts_normal_balance_matches_class";
  _ ← modify (set_accounts <[id := a]>);
  _ ← modify (set_projections (fun m =>
        match m !! id with Some _ => m | None => <[id := mkProjection 0 0 0 now]> m end));
  mret id.

(** [tx.customerAccount.create] *)
Definition create_customer_account (a : string -> CustomerAccount) : DbM CustomerAccount :=
  id ← fresh_uuid;
  let a := a id in
  db ← get;
  let differ f := forallb (fun x => negb (f x)) (customerAccounts db) in
  _ ← unique_check (differ (fun x => String.eqb (ca_id x) (ca_id a))) "customer_accounts" ["id"];
  _ ← unique_check (differ (fun x => String.eqb (ca_publicReference x) (ca_publicReference a)))
        "customer_accounts" ["publicReference"];
  _ ← unique_check (differ (fun x => String.eqb (ca_ledgerAccountId x) (ca_ledgerAccountId a)))
        "customer_accounts" ["ledgerAccountId"];
  _ ← unique_check
        (differ (fun x => String.eqb (ca_customerId x) (ca_customerId a)
                          && bool_decide (ca_productType x = ca_productType a)
                          && String.eqb (ca_currency x) (ca_currency a)))
        "customer_accounts" ["customerId"; "productType"; "currency"];
  _ ← db_check (pg_uuid (ca_customerId a)) "customer_accounts_customer_id";
  _ ← db_check (bool_decide (is_Some (ledgerAccounts db !! ca_ledgerAccountId a)))
        "customer_accounts_ledger_account_id_fkey";
  _ ← db_check (currency_format (ca_currency a)) "customer_accounts_currency_format";
  _ ← db_check (rx_match publicAccountReference_rx (ca_publicReference a))
        "customer_accounts_public_reference_format";
  _ ← db_check (rx_match maskedAccountReference_rx (ca_maskedReference a))
        "customer_accounts_masked_reference_format";
  _ ← modify (set_customers (fun l => l ++ [a]));
  mret a.
End Statements.

(** ** The deferred trigger [assert_journal_integrity] *)
Definition entry_postings (db : LedgerDb) (entryId : string) : list JournalPosting :=
  filter (fun p => jp_journalEntryId p = entryId) (journalPostings db).

Definition directed (d : PostingDirection) (p : JournalPosting) : Z :=
  if decide (jp_direction p = d) then jp_amountMinor p else 0.

Definition find_entry (db : LedgerDb) (entryId : string) : option JournalEntry :=
  find (fun e => String.eqb (je_id e) entryId) (journalEntries db).

Definition assert_journal_integrity (db : LedgerDb) (entryId : string) : option LedgerErr :=
  match find_entry db entryId with
  | None => Some (DbError "AEGIS_LEDGER_JOURNAL_MISSING")
  | Some e =>
      let ps := entry_postings db entryId in
      if (length ps <? 2)%nat then Some (DbError "AEGIS_LEDGER_TOO_FEW_POSTINGS")
      else if existsb (fun p => negb (String.eqb (jp_currency p) (je_currency e))) ps
      then Some (DbError "AEGIS_LEDGER_JOURNAL_CURRENCY_MISMATCH")
      else if existsb (fun p => match ledgerAccounts db !! jp_ledgerAccountId p with
                                | Some a => negb (String.eqb (la_currency a) (jp_currency p))
                                | None => false
                                end) ps
      then Some (DbError "AEGIS_LEDGER_ACCOUNT_CURRENCY_MISMATCH")
      else if negb (sum_by (directed DEBIT) ps =? sum_by (directed CREDIT) ps)
      then Some (DbError "AEGIS_LEDGER_UNBALANCED_JOURNAL")
      else None
  end.

(** The constraint triggers run at COMMIT for every inserted entry and posting. *)
Definition commit_checks (before after : LedgerDb) : option LedgerErr :=
  let ids := (je_id <$> drop (length (journalEntries before)) (journalEntries after))
             ++ (jp_journalEntryId <$> drop (length (journalPostings before)) (journalPostings after)) in
  head (omap (assert_journal_integrity after) ids).

(** ** Other transactions

    A request runs its statements and transactions one after another; between
    two of them the transactions of other requests commit. [wothers] is an
    arbitrary schedule of such steps, one before each statement. *)
Record World := mkWorld {
  wdb : LedgerDb;
  wothers : list (LedgerDb -> LedgerDb)
}.
Abbreviation LedgerM := (M World LedgerErr).

Definition atomically {A} (m : DbM A) : LedgerM A := fun w =>
  let '(db, rest) := match wothers w with
                     | [] => (wdb w, [])
                     | f :: fs => (f (wdb w), fs)
                     end in
  let '(r, db') := m db in (r, mkWorld db' rest).

Definition quiet (db : LedgerDb) : World := mkWorld db [].

Lemma atomically_quiet {A} (m : DbM A) db :
  atomically m (quiet db) = ((m db).1, quiet (m db).2).
Proof. unfold atomically, quiet. cbn. by destruct (m db). Qed.

(** * The Ledger invariant and the effect of the database statements on it *)

(** The postings of one account in one direction. *)
Definition on_account (id : string) (d : PostingDirection) (p : JournalPosting) : Z :=
  if decide (jp_ledgerAccountId p = id) then directed d p else 0.
Definition account_total (db : LedgerDb) (id : string) (d : PostingDirection) : Z :=
  sum_by (on_account id d) (journalPostings db).

Definition account_balance (db : LedgerDb) (id : string) : option Z :=
  a ← ledgerAccounts db !! id;
  b ← balanceProjections db !! id;
  Some (signedBalanceMinor (la_accountClass a) (bp_debitTotalMinor b) (bp_creditTotalMinor b)).

Definition customer_identity (c : CustomerAccount) : string * AccountProductType * string :=
  (ca_customerId c, ca_productType c, ca_currency c).

Definition customer_backed (db : LedgerDb) (c : CustomerAccount) : Prop :=
  exists a, ledgerAccounts db !! ca_ledgerAccountId c = Some a /\ la_accountClass a = LIABILITY /\
            la_allowNegativeBalance a = false /\ la_currency a = ca_currency c.

Definition posting_wf (db : LedgerDb) (p : JournalPosting) : Prop :=
  0 < jp_amountMinor p /\ (exists e, e ∈ journalEntries db /\ je_id e = jp_journalEntryId p) /\
  is_Some (ledgerAccounts db !! jp_ledgerAccountId p).

(** What every committed state satisfies: the accounting tables, and the
    idempotency records. *)
Record LedgerCore (db : LedgerDb) : Prop := {
  inv_domains : forall id, is_Some (ledgerAccounts db !! id) <-> is_Some (balanceProjections db !! id);
  inv_projections : forall id b, balanceProjections db !! id = Some b ->
    bp_debitTotalMinor b = account_total db id DEBIT /\
    bp_creditTotalMinor b = account_total db id CREDIT;
  inv_entries : forall e, e ∈ journalEntries db -> assert_journal_integrity db (je_id e) = None;
  inv_entry_ids : NoDup (je_id <$> journalEntries db);
  inv_postings : forall p, p ∈ journalPostings db -> posting_wf db p;
  inv_nonneg : forall id a b, ledgerAccounts db !! id = Some a ->
    balanceProjections db !! id = Some b -> la_allowNegativeBalance a = false ->
    0 <= signedBalanceMinor (la_accountClass a) (bp_debitTotalMinor b) (bp_creditTotalMinor b);
  inv_customers : forall c, c ∈ customerAccounts db -> customer_backed db c;
  inv_identities : NoDup (customer_identity <$> customerAccounts db);
  inv_references : NoDup (ca_publicReference <$> customerAccounts db);
  inv_wallets : NoDup (ca_ledgerAccountId <$> customerAccounts db)
}.
Record LedgerInv (db : LedgerDb) : Prop := {
  inv_core : LedgerCore db;
  inv_records : forall k r, idempotencyRecords db !! k = Some r ->
    ir_completed r = true /\ is_Some (ir_responseBody r)
}.

(** The accounting part ignores idempotency records, runs and the identifier supply. *)
Lemma LedgerCore_tables db db' : LedgerCore db ->
  ledgerAccounts db' = ledgerAccounts db -> balanceProjections db' = balanceProjections db ->
  customerAccounts db' = customerAccounts db -> journalEntries db' = journalEntries db ->
  journalPostings db' = journalPostings db -> LedgerCore db'.
Proof.
  intros [H1 H2 H3 H4 H5 H6 H7 H8 H9 H10] Ea Ep Ec Ee Ej. destruct db', db. cbn in *. subst.
  by constructor.
Qed.
Lemma LedgerCore_records f db : LedgerCore db -> LedgerCore (set_records f db).
Proof. intros H. by apply (LedgerCore_tables db). Qed.
Lemma LedgerCore_runs f db : LedgerCore db -> LedgerCore (set_runs f db).
Proof. intros H. by apply (LedgerCore_tables db). Qed.
Lemma LedgerCore_uuid f db : LedgerCore db -> LedgerCore (set_uuid f db).
Proof. intros H. by apply (LedgerCore_tables db). Qed.

(** ** The statements on success *)
Section Statements.
Context {pg : Postgres}.

Lemma db_check_ok b w db u db' : db_check b w db = (Ok u, db') -> b = true /\ db' = db.
Proof.
  unfold db_check, throw_when. destruct b; cbn; [by intros [= <-]|discriminate].
Qed.
Lemma unique_check_ok b t f db u db' : unique_check b t f db = (Ok u, db') -> b = true /\ db' = db.
Proof.
  unfold unique_check, throw_when. destruct b; cbn; [by intros [= <-]|discriminate].
Qed.
End Statements.

Ltac db_step :=
  match goal with
  | H : db_check _ _ _ = (Ok _, _) |- _ => apply db_check_ok in H as [? ?]; subst
  | H : unique_check _ _ _ _ = (Ok _, _) |- _ => apply unique_check_ok in H as [? ?]; subst
  | H : fresh_uuid _ = (Ok _, _) |- _ => unfold fresh_uuid in H; injection H as <- <-
  | H : get _ = (Ok _, _) |- _ => injection H as <- <-
  | _ => run_step
  end.
Ltac db_run := cbn zeta in *; repeat db_step.


(** Instantiate every [forallb] hypothesis at the element that [Hx] puts in its list. *)
Ltac use_forallb Hx :=
  apply list_elem_of_In in Hx;
  repeat match goal with
  | H : forallb _ _ = true |- _ => rewrite forallb_forall in H; specialize (H _ Hx); cbn beta in H
  end; bool_to_Z.

Section Effects.
Context {pg : Postgres}.

Lemma create_entry_ok f db e db' : create_entry f db = (Ok e, db') ->
  e = f (uuid (uuidCounter db)) /\ db' = set_entries (fun l => l ++ [e]) (set_uuid N.succ db) /\
  forall x, x ∈ journalEntries db -> je_id x <> je_id e /\ je_reference x <> je_reference e.
Proof.
  intros H. unfold create_entry in H. db_run.
  split; [done|]. split; [done|]. intros x Hx. use_forallb Hx. done.
Qed.

Lemma create_posting_ok f db p db' : create_posting f db = (Ok p, db') ->
  p = f (uuid (uuidCounter db)) /\ db' = set_postings (fun l => l ++ [p]) (set_uuid N.succ db) /\
  0 < jp_amountMinor p /\ is_Some (ledgerAccounts db !! jp_ledgerAccountId p) /\
  0 <= jp_sequence p < 32.
Proof.
  intros H. unfold create_posting in H. db_run. bool_to_Z. done.
Qed.

Lemma update_projection_ok id f db u db' : update_projection id f db = (Ok u, db') ->
  exists b, balanceProjections db !! id = Some b /\
    db' = set_projections <[id := f b]> db /\
    0 <= bp_debitTotalMinor (f b) < 2 ^ 63 /\ 0 <= bp_creditTotalMinor (f b) < 2 ^ 63.
Proof.
  intros H. unfold update_projection in H. db_run. bool_to_Z.
  unfold int64_ok, int32_ok in *. bool_to_Z. eexists. repeat split; eauto; lia.
Qed.
End Effects.
