(* ===== verification/Idempotency.v ===== *)
(** * Exactly-once execution ([services/ledger/src/idempotency/idempotency.service.ts]) *)

From Stdlib Require Import ZArith Lia Ascii String.
From stdpp Require Import base strings list gmap.
From S2P Require Import Prelude.
From S2P Require Import Js.
From S2P Require Import Contracts.
From S2P Require Import Security.
From S2P Require Import LedgerDb.

Open Scope Z_scope.

Record LedgerConfig := mkLedgerConfig {
  lc_nodeEnvironment : string;
  lc_host : string;
  lc_port : Z;
  lc_databaseUrl : string;
  lc_internalToken : string;
  lc_defaultCurrency : string;
  idempotencyRetentionHours : Z;
  maxPostingRetries : Z;
  lc_riskServiceUrl : string;
  lc_riskLedgerSourceToken : string;
  lc_riskTimeoutMs : Z
}.

Inductive IdempotencyScope := defaultCustomerAccount | journalEntry.
Definition IDEMPOTENCY_SCOPES (s : IdempotencyScope) : string :=
  match s with
  | defaultCustomerAccount => "customer-account:default"
  | journalEntry => "journal-entry"
  end.

Record IdempotentOutcome (T : Type) := mkOutcome { result_of : T; replayed : bool }.
Arguments mkOutcome {T} _ _.
Arguments result_of {T} _.
Arguments replayed {T} _.

Fixpoint is_prefix (p s : string) : bool :=
  match p, s with
  | EmptyString, _ => true
  | String c p', String d s' => Ascii.eqb c d && is_prefix p' s'
  | _, _ => false
  end.
Fixpoint str_contains (p s : string) : bool :=
  is_prefix p s || match s with EmptyString => false | String _ s' => str_contains p s' end.

Section Idempotency.
Context {crypto : Crypto} {pg : Postgres}.
Variable config : LedgerConfig.
Variable now : Z.

Definition uniqueViolationTarget (error : LedgerErr) : option string :=
  match error with P2002 table fields => Some (prisma_target table fields) | _ => None end.

Definition isIdempotencyConflict (error : LedgerErr) : bool :=
  match uniqueViolationTarget error with
  | None => false
  | Some target =>
      negb (str_contains "customer_accounts" target || str_contains "journal_entries" target)
  end.

Definition expiry : Z := now + idempotencyRetentionHours config * 3600000.

Section Execute.
Context {T : Type}.
Variable scope : IdempotencyScope.
Variable idempotencyKey : string.
Variable payload : json.
Variable run : DbM T.
Variable encode : T -> ResponseBody.
Variable decode : ResponseBody -> option T.

Definition record_key (keyHash : string) : string * string := (IDEMPOTENCY_SCOPES scope, keyHash).

Definition replayIfSettled (keyHash requestHash : string) (conflicted : bool)
  : DbM (option (IdempotentOutcome T)) :=
  existing ← gets (fun db => idempotencyRecords db !! record_key keyHash);
  match existing with
  | None => mret None
  | Some existing =>
      _ ← throw_when (negb (timingSafeStringEqual (ir_requestHash existing) requestHash))
            idempotencyConflictError;
      match ir_completed existing, ir_responseBody existing with
      | true, Some body =>
          v ← require (decode body) (JsError "ZodError");
          mret (Some (mkOutcome v true))
      | _, _ =>
          _ ← throw_when conflicted idempotencyInProgressError;
          mret None
      end
  end.

(** [tx.idempotencyRecord.create] and [tx.idempotencyRecord.update] *)
Definition create_record (keyHash requestHash : string) : DbM unit :=
  _ ← fresh_uuid;
  db ← get;
  _ ← unique_check (negb (bool_decide (is_Some (idempotencyRecords db !! record_key keyHash))))
        "idempotency_records" ["scope"; "keyHash"];
  modify (set_records <[record_key keyHash := mkRecord requestHash false None expiry]>).
Definition complete_record (keyHash : string) (body : ResponseBody) : DbM unit :=
  db ← get;
  r ← require (idempotencyRecords db !! record_key keyHash) (DbError "P2025");
  modify (set_records
    <[record_key keyHash := mkRecord (ir_requestHash r) true (Some body) (ir_expiresAt r)]>).

Definition execute_tx (keyHash requestHash : string) : DbM T :=
  transaction commit_checks
    (_ ← create_record keyHash requestHash;
     value ← run;
     _ ← complete_record keyHash (encode value);
     mret value).

Definition execute : LedgerM (IdempotentOutcome T) :=
  let keyHash := sha256 idempotencyKey in
  requestHash ← require (canonicalRequestHash payload) (JsError "TypeError");
  settled ← atomically (replayIfSettled keyHash requestHash false);
  match settled with
  | Some settled => mret settled
  | None =>
      try_catch
        (result ← atomically (execute_tx keyHash requestHash); mret (mkOutcome result false))
        (fun error =>
           if negb (isIdempotencyConflict error) then throw error
           else
             replay ← atomically (replayIfSettled keyHash requestHash true);
             match replay with
             | Some replay => mret replay
             | None => throw idempotencyInProgressError
             end)
  end.
End Execute.
End Idempotency.

(** * Exactly-once execution: what a reservation guarantees *)

(** ** Invariants of a request that runs among others *)
Definition world_inv (P : LedgerDb -> Prop) (w : World) : Prop :=
  P (wdb w) /\ Forall (fun f => forall db, P db -> P (f db)) (wothers w).

Lemma preserves_atomically {A} P (m : DbM A) :
  preserves P m -> preserves (world_inv P) (atomically m).
Proof.
  intros Hm [db fs] [Hdb Hfs]. unfold atomically. cbn in *.
  assert (Hstep : forall db0 rest, P db0 -> Forall (fun f => forall db, P db -> P (f db)) rest ->
    match (let '(r, db') := m db0 in (r, mkWorld db' rest)) with
    | (Ok _, w) => world_inv P w | (Err _, w) => world_inv P w end).
  { intros db0 rest H0 Hrest. specialize (Hm db0 H0). by destruct (m db0) as [[|] ?]. }
  destruct fs as [|f fs]; [by apply Hstep|]. inversion Hfs; subst. apply Hstep; auto.
Qed.
#[export] Hint Resolve preserves_atomically : preserve.

(** A request without interference stays without. *)
Definition calm (w : World) : Prop := wothers w = [].
Lemma calm_atomically {A} (m : DbM A) : preserves calm (atomically m).
Proof.
  intros [db fs] Hfs. unfold calm in *. cbn in Hfs. subst. unfold atomically. cbn.
  by destruct (m db) as [[|] ?].
Qed.
#[export] Hint Resolve calm_atomically : preserve.
Lemma calm_run {A} (m : LedgerM A) db r w : preserves calm m -> m (quiet db) = (r, w) ->
  w = quiet (wdb w).
Proof.
  intros Hm H. specialize (Hm (quiet db) eq_refl). rewrite H in Hm.
  destruct w as [db' fs]. destruct r; unfold calm in Hm; cbn in Hm; by subst.
Qed.

Section Idempotency.
Context {crypto : Crypto} {pg : Postgres}.
Variable config : LedgerConfig.
Variable now : Z.

Section Execute.
Context {T : Type}.
Variable scope : IdempotencyScope.
Variable idempotencyKey : string.
Variable payload : json.
Variable run : DbM T.
Variable encode : T -> ResponseBody.
Variable decode : ResponseBody -> option T.

Let key := record_key scope (sha256 idempotencyKey).
Abbreviation tx := (execute_tx config now scope run encode).
Abbreviation exec := (execute config now scope idempotencyKey payload run encode decode).
Abbreviation settle := (replayIfSettled scope decode).

Lemma replay_pure keyHash h c db r db' : settle keyHash h c db = (r, db') -> db' = db.
Proof.
  unfold replayIfSettled, gets, mbind, M_bind, throw_when, require.
  destruct (idempotencyRecords db !! record_key scope keyHash) as [[h' c' b' x]|]; cbn;
    [|by intros [= _ <-]].
  destruct (negb _); cbn; [by intros [= _ <-]|].
  destruct c', b' as [body|]; cbn; try (destruct c; by intros [= _ <-]).
  destruct (decode body); by intros [= _ <-].
Qed.
Lemma replay_preserves P keyHash h c : preserves P (settle keyHash h c).
Proof.
  intros db Hdb. destruct (settle keyHash h c db) as [r db'] eqn:Hr.
  apply replay_pure in Hr as ->. by destruct r.
Qed.

Lemma replay_some keyHash h c db o db' : settle keyHash h c db = (Ok (Some o), db') ->
  db' = db /\ replayed o = true /\
  exists r body, idempotencyRecords db !! record_key scope keyHash = Some r /\
    ir_requestHash r = h /\ ir_completed r = true /\ ir_responseBody r = Some body /\
    decode body = Some (result_of o).
Proof.
  intros H. unfold replayIfSettled in H. run.
  destruct (idempotencyRecords db !! record_key scope keyHash) as [r|] eqn:Hrec; [|done].
  run. apply negb_false_iff, timingSafeStringEqual_eq in Hb as [Hb _].
  destruct (ir_completed r) eqn:Hc; [destruct (ir_responseBody r) as [body|] eqn:Hbody|];
    run; try done. split; [done|]. split; [done|]. by exists r, body.
Qed.

(** A settled record answers every later request with its key and payload. *)
Lemma replay_settled keyHash h c db r body v :
  idempotencyRecords db !! record_key scope keyHash = Some r ->
  ir_requestHash r = h -> h <> ""%string -> ir_completed r = true ->
  ir_responseBody r = Some body -> decode body = Some v ->
  settle keyHash h c db = (Ok (Some (mkOutcome v true)), db).
Proof.
  intros Hr Hh Hne Hc Hb Hd. unfold replayIfSettled, gets, mbind, M_bind. cbn. rewrite Hr.
  replace (timingSafeStringEqual (ir_requestHash r) h) with true
    by (symmetry; apply timingSafeStringEqual_eq; by subst).
  cbn. rewrite Hc, Hb. cbn. by rewrite Hd.
Qed.

Lemma replay_conflict keyHash h c db r :
  idempotencyRecords db !! record_key scope keyHash = Some r -> ir_requestHash r <> h ->
  settle keyHash h c db = (Err idempotencyConflictError, db).
Proof.
  intros Hr Hh. unfold replayIfSettled, gets, mbind, M_bind. cbn. rewrite Hr.
  replace (timingSafeStringEqual (ir_requestHash r) h) with false; [done|].
  symmetry. apply not_true_is_false. rewrite timingSafeStringEqual_eq. naive_solver.
Qed.

(** A committed transaction: the work ran once, after the reservation, and
    the record holds its result. *)
Lemma execute_tx_ok keyHash h db v db' :
  (forall d w d', run d = (Ok w, d') -> idempotencyRecords d' = idempotencyRecords d) ->
  tx keyHash h db = (Ok v, db') ->
  let reserved := set_records <[record_key scope keyHash := mkRecord h false None (expiry config now)]>
                    (set_uuid N.succ db) in
  idempotencyRecords db !! record_key scope keyHash = None /\
  exists db2, run reserved = (Ok v, db2) /\
    db' = set_records <[record_key scope keyHash :=
            mkRecord h true (Some (encode v)) (expiry config now)]> db2 /\
    commit_checks db db' = None.
Proof.
  intros Hrun H. unfold execute_tx in H. apply transaction_Ok_inv in H as [H Hc].
  run. rename Hs into Hcreate, Hs0 into Hwork, Hs1 into Hdone.
  unfold create_record in Hcreate. db_run. bool_to_Z.
  unfold complete_record in Hdone. db_run. rename Ho into Hrec.
  match goal with H : ~ is_Some _ |- _ => rename H into Hnone end.
  split; [by apply eq_None_not_Some|]. eexists. split; [exact Hwork|]. split; [|exact Hc].
  rewrite (Hrun _ _ _ Hwork) in Hrec. cbn in Hrec. rewrite lookup_insert_eq in Hrec.
  injection Hrec as <-. done.
Qed.

Lemma atomically_inv {A} (m : DbM A) w r w' : atomically m w = (r, w') ->
  exists db, m db = (r, wdb w') /\
    match wothers w with
    | [] => db = wdb w /\ wothers w' = []
    | f :: fs => db = f (wdb w) /\ wothers w' = fs
    end.
Proof.
  unfold atomically. destruct (wothers w) as [|f fs].
  - destruct (m (wdb w)) as [r0 db0] eqn:Hm. intros [= <- <-]. by exists (wdb w).
  - destruct (m (f (wdb w))) as [r0 db0] eqn:Hm. intros [= <- <-]. by exists (f (wdb w)).
Qed.

(** A reserved transaction keeps the invariant when its work keeps the
    accounting part and leaves the other records alone. *)
Lemma execute_tx_inv keyHash h :
  (forall d r d', LedgerCore d -> run d = (Ok r, d') ->
     LedgerCore d' /\ idempotencyRecords d' = idempotencyRecords d) ->
  (forall d w d', run d = (Ok w, d') -> idempotencyRecords d' = idempotencyRecords d) ->
  preserves LedgerInv (tx keyHash h).
Proof.
  intros Hrun Hrec db Hdb. destruct (tx keyHash h db) as [[v|e] db'] eqn:Htx.
  - apply execute_tx_ok in Htx as (Hnone & db2 & Hwork & -> & _); [|done].
    destruct Hdb as [Hcore Hrecs]. apply Hrun in Hwork as [Hcore' Hr];
      [|by apply LedgerCore_records, LedgerCore_uuid].
    constructor; [by apply LedgerCore_records|]. intros k r. cbn. rewrite Hr. cbn.
    rewrite insert_insert_eq. intros [[_ <-]|[_ Hk]]%lookup_insert_Some; [|by apply (Hrecs k)].
    split; [done|by eexists].
  - unfold execute_tx in Htx. by apply transaction_err in Htx as ->.
Qed.

(** A record that exists is never written again. *)
Definition has_record (k : string * string) (rec : IdempotencyRecord) (db : LedgerDb) : Prop :=
  idempotencyRecords db !! k = Some rec.
Lemma execute_tx_record keyHash h k rec :
  (forall d w d', run d = (Ok w, d') -> idempotencyRecords d' = idempotencyRecords d) ->
  preserves (has_record k rec) (tx keyHash h).
Proof.
  intros Hrec db Hdb. destruct (tx keyHash h db) as [[v|e] db'] eqn:Htx.
  - apply execute_tx_ok in Htx as (Hnone & db2 & Hwork & -> & _); [|done]. unfold has_record in *. cbn.
    rewrite (Hrec _ _ _ Hwork). cbn. rewrite insert_insert_eq, lookup_insert_ne; [done|]. intros <-. congruence.
  - unfold execute_tx in Htx. by apply transaction_err in Htx as ->.
Qed.

(** A settled outcome is either a replay of the stored response or the
    result of one committed transaction. *)
Lemma execute_ok w o w' : exec w = (Ok o, w') ->
  exists h, canonicalRequestHash payload = Some h /\
    ((replayed o = true /\ exists r body, idempotencyRecords (wdb w') !! key = Some r /\
        ir_requestHash r = h /\ ir_completed r = true /\ ir_responseBody r = Some body /\
        decode body = Some (result_of o)) \/
     (replayed o = false /\ exists db, tx (sha256 idempotencyKey) h db = (Ok (result_of o), wdb w'))).
Proof.
  intros H. unfold execute in H. cbn zeta in H. run. exists s. split; [done|].
  match goal with H : atomically _ _ = _ |- _ => apply atomically_inv in H as (db & Hs & _) end.
  match goal with H : match ?o with _ => _ end _ = _ |- _ => destruct o as [o'|] end.
  - run. apply replay_some in Hs as (-> & Hr & Hrec). left. by rewrite Hr.
  - unfold try_catch in H.
    match type of H with match ?t with _ => _ end = _ => destruct t as [[o1|e] w1] eqn:Ht end.
    + injection H as -> ->. run.
      match goal with H : atomically _ _ = _ |- _ => apply atomically_inv in H as (db1 & Hs0 & _) end.
      right. eauto.
    + destruct (isIdempotencyConflict e); cbn [negb] in H; [|done]. run.
      match goal with H : atomically _ _ = _ |- _ => apply atomically_inv in H as (db1 & Hs0 & _) end.
      match goal with H : match ?o with _ => _ end _ = _ |- _ => destruct o as [o2|]; [|done] end. run.
      apply replay_some in Hs0 as (-> & Hr & Hrec). left. by rewrite Hr.
Qed.

(** Without interference, a success under a fresh key is one committed
    transaction from the current state. *)
Lemma execute_fresh db o w' :
  idempotencyRecords db !! key = None -> exec (quiet db) = (Ok o, w') ->
  exists h, canonicalRequestHash payload = Some h /\ replayed o = false /\
    tx (sha256 idempotencyKey) h db = (Ok (result_of o), wdb w') /\ w' = quiet (wdb w').
Proof.
  intros Hnone H. unfold execute in H. cbn zeta in H.
  destruct (canonicalRequestHash payload) as [h|] eqn:Hh; [|done]. exists h. split; [done|].
  assert (Hs : forall h c, settle (sha256 idempotencyKey) h c db = (Ok None, db)).
  { intros h' c. unfold replayIfSettled, gets, mbind, M_bind. cbn.
    unfold key in Hnone. by rewrite Hnone. }
  cbn [require] in H. erewrite bind_Ok in H by reflexivity.
  erewrite bind_Ok in H by (by rewrite atomically_quiet, Hs).
  unfold try_catch, mbind, M_bind in H. rewrite atomically_quiet in H. cbn [fst snd] in H.
  destruct (tx (sha256 idempotencyKey) h db) as [[v|e] db1] eqn:Htx.
  - cbn in H. injection H as <- <-. done.
  - apply transaction_err in Htx as ->. cbn [fst snd] in H.
    destruct (isIdempotencyConflict e); cbn [negb] in H; [|done].
    rewrite atomically_quiet, Hs in H. done.
Qed.

(** Without interference, an error leaves the database as it was. *)
Lemma execute_err db e w' : exec (quiet db) = (Err e, w') -> w' = quiet db.
Proof.
  intros H. unfold execute in H. cbn zeta in H.
  destruct (canonicalRequestHash payload) as [h|] eqn:Hh; [|cbn in H; by injection H as _ <-].
  cbn [require] in H. erewrite bind_Ok in H by reflexivity.
  destruct (settle (sha256 idempotencyKey) h false db) as [[o|e1] db1] eqn:Hs;
    apply replay_pure in Hs as Hpure; subst db1.
  2:{ erewrite bind_Err in H by (by rewrite atomically_quiet, Hs). by injection H as _ <-. }
  erewrite bind_Ok in H by (by rewrite atomically_quiet, Hs). destruct o as [o|]; [by cbn in H|].
  unfold try_catch, mbind, M_bind in H. rewrite atomically_quiet in H. cbn [fst snd] in H.
  destruct (tx (sha256 idempotencyKey) h db) as [[v|e2] db2] eqn:Htx; [by cbn in H|].
  apply transaction_err in Htx as ->. cbn [fst snd] in H.
  destruct (isIdempotencyConflict e2); cbn [negb] in H; [|by injection H as _ <-].
  rewrite atomically_quiet in H.
  destruct (settle (sha256 idempotencyKey) h true db) as [[o|e3] db3] eqn:Hs2;
    apply replay_pure in Hs2 as ->; cbn in H; [|by injection H as _ <-].
  destruct o as [o|]; cbn in H; [done|by injection H as _ <-].
Qed.

(** A success under a key already settled ran nothing. *)
Lemma execute_recorded db rec o w' :
  idempotencyRecords db !! key = Some rec -> ir_completed rec = true -> is_Some (ir_responseBody rec) ->
  exec (quiet db) = (Ok o, w') -> w' = quiet db.
Proof.
  intros Hr Hc [body Hb] H. unfold execute in H. cbn zeta in H.
  destruct (canonicalRequestHash payload) as [h|] eqn:Hh; [|done]. cbn [require] in H.
  erewrite bind_Ok in H by reflexivity.
  destruct (settle (sha256 idempotencyKey) h false db) as [[o'|e] db1] eqn:Hs;
    apply replay_pure in Hs as Hpure; subst db1.
  2:{ erewrite bind_Err in H by (by rewrite atomically_quiet, Hs). done. }
  erewrite bind_Ok in H by (by rewrite atomically_quiet, Hs).
  destruct o' as [o'|]; [cbn in H; by injection H as _ <-|]. exfalso.
  unfold replayIfSettled, gets, mbind, M_bind in Hs. unfold key in Hr. cbn in Hs. rewrite Hr in Hs.
  destruct (negb _); cbn in Hs; [done|]. rewrite Hc, Hb in Hs. destruct (decode body); done.
Qed.

(** With a settled record, the next request replays it and runs nothing. *)
Lemma execute_replays w db h r body v :
  canonicalRequestHash payload = Some h -> h <> ""%string ->
  db = match wothers w with [] => wdb w | f :: _ => f (wdb w) end ->
  idempotencyRecords db !! key = Some r -> ir_requestHash r = h ->
  ir_completed r = true -> ir_responseBody r = Some body -> decode body = Some v ->
  exec w = (Ok (mkOutcome v true), mkWorld db (tail (wothers w))).
Proof.
  intros Hh Hne -> Hr Hrh Hc Hb Hd. unfold execute. cbn zeta. rewrite Hh. cbn [require].
  erewrite bind_Ok; [|reflexivity].
  assert (atomically (settle (sha256 idempotencyKey) h false) w =
    (Ok (Some (mkOutcome v true)), mkWorld (match wothers w with [] => wdb w | f :: _ => f (wdb w) end)
                                     (tail (wothers w)))) as Hat.
  { unfold atomically. destruct (wothers w) as [|f fs]; by erewrite replay_settled by eauto. }
  by rewrite (bind_Ok _ _ _ _ _ _ _ Hat).
Qed.

Lemma execute_conflict w db h r :
  canonicalRequestHash payload = Some h ->
  db = match wothers w with [] => wdb w | f :: _ => f (wdb w) end ->
  idempotencyRecords db !! key = Some r -> ir_requestHash r <> h ->
  exec w = (Err idempotencyConflictError, mkWorld db (tail (wothers w))).
Proof.
  intros Hh -> Hr Hrh. unfold execute. cbn zeta. rewrite Hh. cbn [require].
  erewrite bind_Ok; [|reflexivity]. apply bind_Err.
  unfold atomically. destruct (wothers w) as [|f fs]; by erewrite replay_conflict by eauto.
Qed.

Lemma execute_calm : preserves calm exec.
Proof.
  unfold execute. cbn zeta. apply preserves_bind; [apply preserves_require|intros h].
  apply preserves_bind; [apply calm_atomically|intros [o|]]; [apply preserves_ret|].
  apply preserves_catch.
  - apply preserves_bind; [apply calm_atomically|intros v; apply preserves_ret].
  - intros e. destruct (negb _); [apply preserves_throw|].
    apply preserves_bind; [apply calm_atomically|].
    intros [o|]; [apply preserves_ret|apply preserves_throw].
Qed.

Lemma execute_preserves (P : LedgerDb -> Prop) :
  (forall keyHash h, preserves P (tx keyHash h)) -> preserves (world_inv P) exec.
Proof.
  intros Htx. unfold execute. cbn zeta. apply preserves_bind; [apply preserves_require|intros h].
  apply preserves_bind; [apply preserves_atomically, replay_preserves|intros [o|]].
  - apply preserves_ret.
  - apply preserves_catch.
    + apply preserves_bind; [apply preserves_atomically, Htx|intros v; apply preserves_ret].
    + intros e. destruct (negb _); [apply preserves_throw|].
      apply preserves_bind; [apply preserves_atomically, replay_preserves|].
      intros [o|]; [apply preserves_ret|apply preserves_throw].
Qed.

End Execute.
End Idempotency.
