(* ===== verification/Journal.v ===== *)
(** * Double-entry posting ([services/ledger/src/ledger/journal.service.ts]) *)

From Stdlib Require Import ZArith Lia Ascii String.
From stdpp Require Import base strings list gmap sorting.
From S2P Require Import Prelude.
From S2P Require Import Js.
From S2P Require Import Contracts.
From S2P Require Import Security.
From S2P Require Import LedgerDb.
From S2P Require Import Idempotency.

Open Scope Z_scope.

Record JournalActor := mkActor { actor_type : string; actor_id : string }.

Record LockedAccount := mkLocked {
  lk_id : string;
  lk_currency : string;
  lk_accountClass : LedgerAccountClass;
  lk_allowNegativeBalance : bool;
  lk_debitTotalMinor : Z;
  lk_creditTotalMinor : Z;
  lk_version : Z
}.

(** A posting with its amount as a BigInt. *)
Record Posting := mkNormalised {
  np_ledgerAccountId : string;
  np_direction : PostingDirection;
  np_amountMinor : Z
}.

Definition posting_key (account : string) (d : PostingDirection) : string :=
  account +:+ ":" +:+ direction_str d.

(** [normalisePostings]: [None] is the TypeError of [parseMinorUnits]. *)
Fixpoint combine_postings (postings : list JournalPostingRequest) (combined : jmap Posting)
  : option (jmap Posting) :=
  match postings with
  | [] => Some combined
  | p :: rest =>
      let key := posting_key (pr_ledgerAccountId p) (pr_direction p) in
      amountMinor ← parseMinorUnits (pr_amountMinor p);
      match jget key combined with
      | Some existing =>
          combine_postings rest
            (jset key (mkNormalised (np_ledgerAccountId existing) (np_direction existing)
                         (np_amountMinor existing + amountMinor)) combined)
      | None =>
          combine_postings rest
            (jset key (mkNormalised (pr_ledgerAccountId p) (pr_direction p) amountMinor) combined)
      end
  end.
Definition normalisePostings (postings : list JournalPostingRequest) : option (list Posting) :=
  m ← combine_postings postings []; Some (jvalues m).

(** [assertBalanced]: [None] is the thrown [unbalancedJournalError]. *)
Fixpoint balance_loop (postings : list Posting) (debitTotal creditTotal : Z) : option (Z * Z) :=
  match postings with
  | [] => Some (debitTotal, creditTotal)
  | p :: rest =>
      if np_amountMinor p <=? 0 then None
      else match np_direction p with
           | DEBIT => balance_loop rest (debitTotal + np_amountMinor p) creditTotal
           | CREDIT => balance_loop rest debitTotal (creditTotal + np_amountMinor p)
           end
  end.
Definition assertBalanced (postings : list Posting) : option Z :=
  if (length postings <? 2)%nat then None
  else
    totals ← balance_loop postings 0 0;
    if negb (totals.1 =? totals.2) || (totals.1 =? 0) then None else Some totals.1.

Definition deterministicAccountOrder (ledgerAccountIds : list string) : list string :=
  sort_strings (unique ledgerAccountIds).

Definition optional_json (f : string -> json) (o : option string) : json :=
  match o with Some s => f s | None => JUndef end.

(** The payload that is hashed to compare two requests with one key. *)
Definition posting_json (p : Posting) : json :=
  JObj [("ledgerAccountId", JStr (np_ledgerAccountId p));
        ("direction", JStr (direction_str (np_direction p)));
        ("amountMinor", JStr (serializeMinorUnits (np_amountMinor p)))].
Definition journal_payload (request : InternalJournalRequest) (postings : list Posting) : json :=
  JObj [("entryType", JStr (entryType_str (jr_entryType request)));
        ("currency", JStr (jr_currency request));
        ("reference", optional_json JStr (jr_reference request));
        ("description", optional_json JStr (jr_description request));
        ("effectiveAt", optional_json JStr (jr_effectiveAt request));
        ("metadata", match jr_metadata request with Some m => JObj m | None => JUndef end);
        ("postings", JArr (posting_json <$>
           sort_by (fun p => posting_key (np_ledgerAccountId p) (np_direction p)) postings))].

Section Journal.
Context {zod : Zod} {crypto : Crypto} {pg : Postgres}.
Variable config : LedgerConfig.
Variable now : Z.

(** [lockAccounts]: the rows of the accounts that have a projection, by
    ascending identifier. *)
Definition locked_row (db : LedgerDb) (id : string) : option LockedAccount :=
  a ← ledgerAccounts db !! id;
  b ← balanceProjections db !! id;
  Some (mkLocked id (la_currency a) (la_accountClass a) (la_allowNegativeBalance a)
          (bp_debitTotalMinor b) (bp_creditTotalMinor b) (bp_version b)).
Definition lockAccounts (ledgerAccountIds : list string) : DbM (list LockedAccount) :=
  let uniqueIds := deterministicAccountOrder ledgerAccountIds in
  _ ← db_check (forallb pg_uuid uniqueIds) "invalid input syntax for type uuid";
  rows ← gets (fun db => omap (locked_row db) uniqueIds);
  _ ← throw_when (negb (length rows =? length uniqueIds)%nat) accountNotFoundError;
  mret rows.

Fixpoint assertPostableAccounts (accounts : list LockedAccount) (currency : string)
  : result LedgerErr unit :=
  match accounts with
  | [] => Ok tt
  | a :: rest => if negb (String.eqb (lk_currency a) currency) then Err currencyMismatchError
                 else assertPostableAccounts rest currency
  end.

Definition with_totals (a : LockedAccount) (t : Z * Z) : LockedAccount :=
  mkLocked (lk_id a) (lk_currency a) (lk_accountClass a) (lk_allowNegativeBalance a) t.1 t.2
    (lk_version a).

(** The loop that applies every posting to the locked copies. *)
Fixpoint project (postings : list Posting) (projected : jmap LockedAccount)
  : result LedgerErr (jmap LockedAccount) :=
  match postings with
  | [] => Ok projected
  | p :: rest =>
      match jget (np_ledgerAccountId p) projected with
      | None => Err accountNotFoundError
      | Some a =>
          let totals := applyDirection (np_direction p) (np_amountMinor p)
                          (lk_debitTotalMinor a, lk_creditTotalMinor a) in
          project rest (jset (np_ledgerAccountId p) (with_totals a totals) projected)
      end
  end.

Definition overdrawn (a : LockedAccount) : bool :=
  (signedBalanceMinor (lk_accountClass a) (lk_debitTotalMinor a) (lk_creditTotalMinor a) <? 0)
  && negb (lk_allowNegativeBalance a).

Definition index_from {A} (i : Z) (l : list A) : list (Z * A) :=
  zip (Z.add i ∘ Z.of_nat <$> seq 0 (length l)) l.

(** The body of the transaction ([run] of [post]). *)
Definition post_run (request : InternalJournalRequest) (correlationId : string)
  (actor : JournalActor) (postings : list Posting) (totalMinor : Z) : DbM JournalResult :=
  accounts ← lockAccounts (np_ledgerAccountId <$> postings);
  _ ← lift_result (assertPostableAccounts accounts (jr_currency request));
  projected ← lift_result (project postings ((fun a => (lk_id a, a)) <$> accounts));
  _ ← throw_when (existsb overdrawn (jvalues projected)) insufficientFundsError;
  effectiveAt ← match jr_effectiveAt request with
                | Some text => require (date_parse text) (DbError "Invalid Date")
                | None => mret now
                end;
  reference ← match jr_reference request with
              | Some r => mret r
              | None => id ← fresh_uuid; mret ("JRN-" +:+ id)
              end;
  entry ← create_entry (fun id =>
    mkEntry id reference (jr_entryType request) (jr_currency request) (jr_description request)
      correlationId effectiveAt now (actor_type actor) (str_take 64 (actor_id actor))
      (JObj (default [] (jr_metadata request))));
  createdPostings ← for_each (fun '(sequence, posting) =>
    created ← create_posting (fun id =>
      mkPosting id (je_id entry) (np_ledgerAccountId posting) (np_direction posting)
        (np_amountMinor posting) (jr_currency request) sequence now);
    mret (mkPostingResult (jp_id created) (np_ledgerAccountId posting) (np_direction posting)
            (serializeMinorUnits (np_amountMinor posting)) sequence))
    (index_from 0 postings);
  _ ← for_each (fun account =>
    update_projection (lk_id account) (fun bp =>
      mkProjection (lk_debitTotalMinor account) (lk_creditTotalMinor account)
        (bp_version bp + 1) now))
    (jvalues projected);
  mret (mkJournalResult (je_id entry) (je_reference entry) (jr_entryType request)
          (jr_currency request) (serializeMinorUnits totalMinor)
          (toISOString effectiveAt) (toISOString (je_createdAt entry)) createdPostings).

Definition decode_journal (body : ResponseBody) : option JournalResult :=
  match body with RJournal r => journalResultSchema r | RProvision _ => None end.

(** [JournalService.post] *)
Definition post (request : InternalJournalRequest) (correlationId : string) (actor : JournalActor)
  : LedgerM JournalResult :=
  postings ← require (normalisePostings (jr_postings request)) (JsError "TypeError");
  totalMinor ← require (assertBalanced postings) unbalancedJournalError;
  outcome ← execute config now journalEntry (jr_idempotencyKey request)
    (journal_payload request postings)
    (post_run request correlationId actor postings totalMinor) RJournal decode_journal;
  mret (result_of outcome).

Definition maxRetries : Z := maxPostingRetries config.
End Journal.
