(* ===== verification/JournalProofs.v ===== *)
(** * Posting: functional effect, balance, conservation, invariant *)

From Stdlib Require Import ZArith Lia Ascii String.
From stdpp Require Import base strings list gmap sorting.
From S2P Require Import Prelude.
From S2P Require Import Js.
From S2P Require Import Regex.
From S2P Require Import Contracts.
From S2P Require Import Security.
From S2P Require Import LedgerDb.
From S2P Require Import Idempotency.
From S2P Require Import Journal.

Open Scope Z_scope.

(** ** Pure parts *)

(** What a list of normalised postings adds to an account in a direction. *)
Definition np_directed (d : PostingDirection) (p : Posting) : Z :=
  if decide (np_direction p = d) then np_amountMinor p else 0.
Definition posted (id : string) (d : PostingDirection) (ps : list Posting) : Z :=
  sum_by (fun p => if decide (np_ledgerAccountId p = id) then np_directed d p else 0) ps.

Lemma posted_cons id d p ps : posted id d (p :: ps) =
  (if decide (np_ledgerAccountId p = id) then np_directed d p else 0) + posted id d ps.
Proof. done. Qed.

Lemma posted_nonneg id d ps :
  (forall p, p ∈ ps -> 0 < np_amountMinor p) -> 0 <= posted id d ps.
Proof.
  intros H. apply sum_by_nonneg. intros p Hp. specialize (H p Hp).
  unfold np_directed. repeat case_decide; lia.
Qed.

(** What a request asks for on an account in a direction. *)
Definition requested (id : string) (d : PostingDirection) (ps : list JournalPostingRequest) : Z :=
  sum_by (fun p => if decide (pr_ledgerAccountId p = id)
                   then if decide (pr_direction p = d) then BigInt (pr_amountMinor p) else 0
                   else 0) ps.

Lemma posting_key_inj a d a' d' : posting_key a d = posting_key a' d' -> a = a' /\ d = d'.
Proof.
  unfold posting_key. intros H. pose proof (f_equal String.length H) as Hl.
  rewrite !str_length_app in Hl. destruct d, d'; cbn in Hl.
  - split; [|done]. by apply str_app_inj_r in H.
  - apply (f_equal (str_drop (String.length a + 3))) in H. rewrite str_drop_app in H.
    replace (String.length a + 3)%nat with (String.length a' + 4)%nat in H by lia.
    rewrite str_drop_app in H. done.
  - apply (f_equal (str_drop (String.length a + 4))) in H. rewrite str_drop_app in H.
    replace (String.length a + 4)%nat with (String.length a' + 3)%nat in H by lia.
    rewrite str_drop_app in H. done.
  - split; [|done]. by apply str_app_inj_r in H.
Qed.

(** Each value of the map is filed under its own account and direction. *)
Definition keyed (m : jmap Posting) : Prop :=
  NoDup (jkeys m) /\ forall k v, (k, v) ∈ m -> k = posting_key (np_ledgerAccountId v) (np_direction v).

Lemma keyed_jset k v m : keyed m -> k = posting_key (np_ledgerAccountId v) (np_direction v) ->
  keyed (jset k v m).
Proof.
  intros [Hn Hk] ->. split; [by apply jkeys_jset_NoDup|]. intros k' v' Hin.
  destruct (jget (posting_key (np_ledgerAccountId v) (np_direction v)) m) as [v0|] eqn:Hg.
  - destruct (jset_old _ v _ _ Hg) as (m1 & m2 & Hm & Hs & _). rewrite Hs in Hin.
    apply elem_of_app in Hin as [Hin|[[= -> ->]|Hin]%elem_of_cons]; [|done|];
      apply Hk; rewrite Hm; set_solver.
  - rewrite jset_new in Hin by done. apply elem_of_app in Hin as [Hin|Hin]; [by apply Hk|].
    by apply list_elem_of_singleton in Hin as [= -> ->].
Qed.

Lemma posted_app id d l1 l2 : posted id d (l1 ++ l2) = posted id d l1 + posted id d l2.
Proof. apply sum_by_app. Qed.

Lemma posted_one id d p :
  posted id d [p] = if decide (np_ledgerAccountId p = id) then np_directed d p else 0.
Proof. apply Z.add_0_r. Qed.

Lemma posted_jset id d k v m v0 : jget k m = Some v0 ->
  posted id d (jvalues (jset k v m)) = posted id d (jvalues m) - posted id d [v0] + posted id d [v].
Proof.
  intros Hg. destruct (jset_old _ v _ _ Hg) as (m1 & m2 & -> & -> & _).
  unfold jvalues. rewrite !fmap_app, !fmap_cons, !posted_app. rewrite !(posted_cons id d _ (snd <$> m2)).
  rewrite !(posted_cons id d _ []). cbn [snd]. lia.
Qed.

Lemma combine_spec ps m m' : combine_postings ps m = Some m' -> keyed m ->
  keyed m' /\ forall id d, posted id d (jvalues m') = posted id d (jvalues m) + requested id d ps.
Proof.
  revert m. induction ps as [|p ps IH]; intros m; cbn [combine_postings].
  - intros [= <-] Hk. split; [done|]. intros. cbn. lia.
  - destruct (parseMinorUnits (pr_amountMinor p)) as [z|] eqn:Hz; [|done]. cbn [mbind option_bind].
    assert (BigInt (pr_amountMinor p) = z) as Hv.
    { unfold parseMinorUnits in Hz. destruct (rx_match _ _); [by injection Hz|done]. }
    assert (Hreq : forall id d, requested id d (p :: ps) =
      posted id d [mkNormalised (pr_ledgerAccountId p) (pr_direction p) z] + requested id d ps).
    { intros. unfold requested. by rewrite sum_by_cons, Hv, posted_one. }
    destruct (jget _ m) as [v|] eqn:Hg; intros H Hk.
    + destruct Hk as [Hn Hk]. apply jget_elem in Hg as Hin. apply Hk in Hin as Hin'.
      apply posting_key_inj in Hin' as [Ha Hd]. apply IH in H as [Hk' Hp].
      2:{ apply keyed_jset; [by split|]. cbn. by rewrite Ha, Hd. }
      split; [done|]. intros id d. rewrite Hp, Hreq, (posted_jset _ _ _ _ _ _ Hg).
      rewrite !posted_one. unfold np_directed. cbn. rewrite <- Ha, <- Hd.
      repeat case_decide; try congruence; lia.
    + apply IH in H as [Hk' Hp]; [|by apply keyed_jset]. split; [done|]. intros id d.
      rewrite Hp, Hreq, jset_new by done. unfold jvalues. rewrite fmap_app, posted_app. cbn. lia.
Qed.

Lemma normalise_spec ps postings : normalisePostings ps = Some postings ->
  (forall id d, posted id d postings = requested id d ps) /\
  NoDup ((fun p => posting_key (np_ledgerAccountId p) (np_direction p)) <$> postings).
Proof.
  unfold normalisePostings. destruct (combine_postings ps []) as [m|] eqn:Hm; [|done].
  intros [= <-]. apply combine_spec in Hm as [[Hn Hk] Hp]; [|split; [constructor|by inversion 1]].
  split; [intros; rewrite Hp; done|]. assert ((fun p => posting_key (np_ledgerAccountId p)
    (np_direction p)) <$> jvalues m = jkeys m) as ->; [|done].
  clear Hn Hp. induction m as [|[k v] m IH]; [done|]. cbn. f_equal.
  - symmetry. apply Hk. by left.
  - apply IH. intros k' v' Hin. apply Hk. by right.
Qed.

Lemma balance_loop_spec ps d c t : balance_loop ps d c = Some t ->
  t = (d + sum_by (np_directed DEBIT) ps, c + sum_by (np_directed CREDIT) ps) /\
  forall p, p ∈ ps -> 0 < np_amountMinor p.
Proof.
  revert d c. induction ps as [|p ps IH]; intros d c; cbn [balance_loop].
  - intros [= <-]. cbn. rewrite !Z.add_0_r. split; [done|by inversion 1].
  - destruct (Z.leb_spec (np_amountMinor p) 0) as [|Hp]; [done|].
    assert (Hd : forall d', np_directed d' p = if decide (np_direction p = d') then np_amountMinor p else 0)
      by done.
    rewrite !sum_by_cons, !Hd.
    destruct (np_direction p); intros H; apply IH in H as [-> H];
      (split; [f_equal; repeat case_decide; (done || lia)|]); intros q [->|Hq]%elem_of_cons; auto.
Qed.

Lemma balance_loop_None ps d c :
  balance_loop ps d c = None <-> exists p, p ∈ ps /\ np_amountMinor p <= 0.
Proof.
  revert d c. induction ps as [|p ps IH]; intros d c; cbn.
  - split; [done|]. intros (p & Hp & _). by inversion Hp.
  - destruct (Z.leb_spec (np_amountMinor p) 0) as [Hle|Hlt].
    + split; [|done]. intros _. exists p. split; [by left|done].
    + assert ((exists q, q ∈ ps /\ np_amountMinor q <= 0) <->
              exists q, q ∈ p :: ps /\ np_amountMinor q <= 0) as <-.
      { split; intros (q & Hq & Hle); exists q; (split; [|done]); [by right|].
        apply elem_of_cons in Hq as [->|]; [lia|done]. }
      destruct (np_direction p); apply IH.
Qed.

Lemma project_ok ps m m' : project ps m = Ok m' ->
  jkeys m' = jkeys m /\
  (forall id, jget id m' = (fun a => with_totals a (lk_debitTotalMinor a + posted id DEBIT ps,
                                           lk_creditTotalMinor a + posted id CREDIT ps)) <$> jget id m) /\
  (forall p, p ∈ ps -> is_Some (jget (np_ledgerAccountId p) m)).
Proof.
  revert m. induction ps as [|p ps IH]; intros m; cbn [project].
  - intros [= <-]. split; [done|]. split; [|by inversion 1]. intros id.
    destruct (jget id m) as [[]|]; [|done]. cbn. by rewrite !Z.add_0_r.
  - destruct (jget (np_ledgerAccountId p) m) as [a|] eqn:Ha; [|done].
    intros (Hk & Hg & Hs)%IH. destruct (jset_old _ (with_totals a (applyDirection (np_direction p)
      (np_amountMinor p) (lk_debitTotalMinor a, lk_creditTotalMinor a))) _ _ Ha)
      as (m1 & m2 & Hm & Hset & _).
    split; [|split].
    + rewrite Hk, Hset, Hm. unfold jkeys. by rewrite !fmap_app.
    + intros id. rewrite Hg, jget_jset, !posted_cons.
      destruct (String.eqb_spec id (np_ledgerAccountId p)) as [->|Hne].
      * rewrite Ha, !decide_True by done. simpl. f_equal. unfold with_totals, np_directed.
        destruct (np_direction p); simpl; f_equal; repeat case_decide; try done; lia.
      * destruct (jget id m); [|done]. rewrite !decide_False by congruence. done.
    + intros q [->|Hq]%elem_of_cons; [by eexists|]. specialize (Hs q Hq).
      rewrite jget_jset in Hs. destruct (String.eqb_spec (np_ledgerAccountId q) (np_ledgerAccountId p))
        as [->|]; [by eexists|done].
Qed.

Lemma assertPostable_ok accounts cur u : assertPostableAccounts accounts cur = Ok u ->
  forall a, a ∈ accounts -> lk_currency a = cur.
Proof.
  induction accounts as [|a l IH]; cbn; [by inversion 2|].
  destruct (String.eqb_spec (lk_currency a) cur) as [<-|]; [|done].
  intros H b [->|Hb]%elem_of_cons; auto.
Qed.

Section Locking.
Context {pg : Postgres}.

Lemma omap_full {A B} (f : A -> option B) l : length (omap f l) = length l ->
  forall x, x ∈ l -> is_Some (f x).
Proof.
  induction l as [|x l IH]; cbn; [by inversion 2|]. intros Hl y.
  assert (length (omap f l) <= length l)%nat.
  { clear. induction l as [|z l IH]; cbn; [lia|]. destruct (f z); cbn; lia. }
  destruct (f x) eqn:Hx; cbn in Hl; [|lia].
  intros [->|Hy]%elem_of_cons; [by eexists|]. apply IH; [lia|done].
Qed.

Lemma locked_row_id db id a : locked_row db id = Some a -> lk_id a = id.
Proof.
  unfold locked_row. destruct (ledgerAccounts db !! id); [|done].
  destruct (balanceProjections db !! id); [|done]. cbn. by intros [= <-].
Qed.

Lemma jget_rows db (ids : list string) id :
  jget id ((fun a => (lk_id a, a)) <$> omap (locked_row db) ids) =
  if decide (id ∈ ids) then locked_row db id else None.
Proof.
  induction ids as [|x ids IH]; cbn; [by rewrite decide_False by (by inversion 1)|].
  destruct (locked_row db x) as [a|] eqn:Ha; cbn; [|rewrite IH].
  - rewrite (locked_row_id _ _ _ Ha). destruct (String.eqb_spec id x) as [->|Hne].
    + rewrite decide_True by (by left). done.
    + rewrite IH. destruct (decide (id ∈ ids)); [rewrite decide_True by (by right)|
        rewrite decide_False by set_solver]; done.
  - destruct (decide (id ∈ ids)); [by rewrite decide_True by (by right)|].
    destruct (decide (id ∈ x :: ids)) as [Hin|]; [|done].
    apply elem_of_cons in Hin as [->|]; done.
Qed.

Lemma order_elem ids id : id ∈ deterministicAccountOrder ids <-> id ∈ ids.
Proof. unfold deterministicAccountOrder. by rewrite sort_strings_perm, unique_elem. Qed.
Lemma order_NoDup ids : NoDup (deterministicAccountOrder ids).
Proof. unfold deterministicAccountOrder. rewrite sort_strings_perm. apply unique_NoDup. Qed.

Lemma lockAccounts_ok ids db rows db' : lockAccounts ids db = (Ok rows, db') ->
  db' = db /\ rows = omap (locked_row db) (deterministicAccountOrder ids) /\
  forall id, id ∈ ids -> exists a b, ledgerAccounts db !! id = Some a /\
    balanceProjections db !! id = Some b.
Proof.
  intros H. unfold lockAccounts in H. db_run.
  match goal with H : negb (_ =? _)%nat = false |- _ => apply negb_false_iff, Nat.eqb_eq in H; rename H into Hl end.
  split; [done|]. split; [done|]. intros id Hid.
  destruct (omap_full _ _ Hl id) as [r Hr]; [by apply order_elem|].
  unfold locked_row in Hr. destruct (ledgerAccounts db !! id); [|done].
  destruct (balanceProjections db !! id); [eauto|done].
Qed.
End Locking.

(** ** Writing postings and projections *)
Definition written (eid cur : string) (now : Z) (ip : Z * Posting) (p : JournalPosting) : Prop :=
  exists id, p = mkPosting id eid (np_ledgerAccountId ip.2) (np_direction ip.2) (np_amountMinor ip.2)
                   cur ip.1 now.

Definition posting_result (p : JournalPosting) : JournalPostingResult :=
  mkPostingResult (jp_id p) (jp_ledgerAccountId p) (jp_direction p)
    (serializeMinorUnits (jp_amountMinor p)) (jp_sequence p).

(** The projection of an account after postings were applied to it. *)
Definition projected_by (now : Z) (id : string) (ps : list Posting) (b : BalanceProjection)
  : BalanceProjection :=
  mkProjection (bp_debitTotalMinor b + posted id DEBIT ps) (bp_creditTotalMinor b + posted id CREDIT ps)
    (bp_version b + 1) now.

Section Writing.
Context {pg : Postgres}.

Definition write_posting (eid cur : string) (now : Z) (ip : Z * Posting) : DbM JournalPostingResult :=
  let '(sequence, posting) := ip in
  created ← create_posting (fun id =>
    mkPosting id eid (np_ledgerAccountId posting) (np_direction posting)
      (np_amountMinor posting) cur sequence now);
  mret (mkPostingResult (jp_id created) (np_ledgerAccountId posting) (np_direction posting)
          (serializeMinorUnits (np_amountMinor posting)) sequence).

Lemma write_postings_ok eid cur now l db res db' :
  for_each (write_posting eid cur now) l db = (Ok res, db') ->
  exists ps n, Forall2 (written eid cur now) l ps /\
    db' = set_postings (fun q => q ++ ps) (set_uuid (fun _ => n) db) /\
    res = posting_result <$> ps /\
    forall ip, ip ∈ l -> 0 < np_amountMinor ip.2 /\
                         is_Some (ledgerAccounts db !! np_ledgerAccountId ip.2).
Proof.
  revert db res. induction l as [|[i p] l IH]; intros db res H; cbn [for_each] in H.
  - run. exists [], (uuidCounter db). split; [constructor|]. split; [|split; [done|by inversion 1]].
    destruct db; unfold set_postings, set_uuid; cbn. by rewrite app_nil_r.
  - run. cbn in Hs. run. apply create_posting_ok in Hs1 as (He & Hdb & Ha & Hl & _).
    apply IH in Hs0 as (ps & n & Hps & Hdb' & Hres & Hall).
    rewrite He in Ha, Hl, Hdb. cbn in Ha, Hl. rewrite He. subst.
    exists (mkPosting (uuid (uuidCounter db)) eid (np_ledgerAccountId p) (np_direction p)
              (np_amountMinor p) cur i now :: ps), n.
    split; [constructor; [by eexists|done]|]. split; [|split].
    + unfold set_postings, set_uuid. cbn. by rewrite <- app_assoc.
    + done.
    + intros ip [->|Hip]%elem_of_cons; [done|]. apply (Hall ip Hip).
Qed.

Definition write_projection (now : Z) (account : LockedAccount) : DbM unit :=
  update_projection (lk_id account) (fun bp =>
    mkProjection (lk_debitTotalMinor account) (lk_creditTotalMinor account) (bp_version bp + 1) now).

Lemma write_projections_ok now (m : jmap LockedAccount) db res db' :
  for_each (write_projection now) (jvalues m) db = (Ok res, db') ->
  NoDup (jkeys m) -> (forall k a, (k, a) ∈ m -> lk_id a = k) ->
  exists proj, db' = set_projections (fun _ => proj) db /\
    forall id, proj !! id =
      match jget id m with
      | Some a => (fun b => mkProjection (lk_debitTotalMinor a) (lk_creditTotalMinor a)
                              (bp_version b + 1) now) <$> balanceProjections db !! id
      | None => balanceProjections db !! id
      end.
Proof.
  revert db res. induction m as [|[k a] m IH]; intros db res H Hn Hid; cbn in H.
  - run. exists (balanceProjections db). split; [by destruct db|done].
  - run. apply update_projection_ok in Hs as (b & Hb & -> & _).
    assert (lk_id a = k) as Hk by (apply Hid; by left). rewrite Hk in *.
    apply NoDup_cons in Hn as [Hk' Hn]. apply IH in Hs0 as (proj & -> & Hproj); [|done|].
    2:{ intros k' a' Hin. apply Hid. by right. }
    exists proj. split; [done|]. intros id. rewrite Hproj. cbn.
    destruct (String.eqb_spec id k) as [->|Hne].
    + apply jget_None in Hk'. cbn in Hk'. rewrite Hk', lookup_insert_eq, Hb. done.
    + rewrite lookup_insert_ne by congruence. done.
Qed.
End Writing.

(** ** The effect of the transaction body *)

(** [journal_written db db' ...]: the tables of [db'] are those of [db] with one
    more entry, its postings, and the projections of its accounts moved. *)
Record journal_written (db db' : LedgerDb) (cur : string) (now : Z) (postings : list Posting)
    (e : JournalEntry) (ps : list JournalPosting) : Prop := {
  jw_accounts : ledgerAccounts db' = ledgerAccounts db;
  jw_customers : customerAccounts db' = customerAccounts db;
  jw_records : idempotencyRecords db' = idempotencyRecords db;
  jw_runs : reconciliationRuns db' = reconciliationRuns db;
  jw_entries : journalEntries db' = journalEntries db ++ [e];
  jw_postings : journalPostings db' = journalPostings db ++ ps;
  jw_projections : forall id, balanceProjections db' !! id =
    if decide (id ∈ np_ledgerAccountId <$> postings)
    then projected_by now id postings <$> balanceProjections db !! id
    else balanceProjections db !! id;
  jw_written : Forall2 (written (je_id e) cur now) (index_from 0 postings) ps;
  jw_currency : je_currency e = cur;
  jw_fresh : forall x, x ∈ journalEntries db -> je_id x <> je_id e /\ je_reference x <> je_reference e;
  jw_touched : forall p, p ∈ postings -> 0 < np_amountMinor p /\
    exists a, ledgerAccounts db !! np_ledgerAccountId p = Some a /\ la_currency a = cur;
  jw_covered : forall id a b, id ∈ np_ledgerAccountId <$> postings ->
    ledgerAccounts db !! id = Some a -> balanceProjections db' !! id = Some b ->
    la_allowNegativeBalance a = false ->
    0 <= signedBalanceMinor (la_accountClass a) (bp_debitTotalMinor b) (bp_creditTotalMinor b)
}.

Lemma index_from_length {A} i (l : list A) : length (index_from i l) = length l.
Proof. unfold index_from. rewrite length_zip, length_fmap, length_seq. lia. Qed.
Lemma index_from_snd {A} i (l : list A) : (index_from i l).*2 = l.
Proof. unfold index_from. apply snd_zip. rewrite length_fmap, length_seq. lia. Qed.

Section PostRun.
Context {zod : Zod} {crypto : Crypto} {pg : Postgres}.

Lemma locked_map_wf db (ids : list string) k a :
  (k, a) ∈ (fun a => (lk_id a, a)) <$> omap (locked_row db) ids -> lk_id a = k.
Proof. rewrite list_elem_of_fmap. by intros (b & [= -> ->] & _). Qed.

Lemma project_wf ps m m' : project ps m = Ok m' ->
  (forall k a, (k, a) ∈ m -> lk_id a = k) -> forall k a, (k, a) ∈ m' -> lk_id a = k.
Proof.
  revert m. induction ps as [|p ps IH]; intros m; cbn; [by intros [= <-]|].
  destruct (jget (np_ledgerAccountId p) m) as [b|] eqn:Hb; [|done].
  intros H Hm. eapply IH; [exact H|]. intros k a Hin.
  destruct (jset_old _ (with_totals b (applyDirection (np_direction p) (np_amountMinor p)
    (lk_debitTotalMinor b, lk_creditTotalMinor b))) _ _ Hb) as (m1 & m2 & Hm1 & Hset & _).
  rewrite Hset in Hin. apply elem_of_app in Hin as [Hin|Hin].
  - apply Hm. rewrite Hm1. set_solver.
  - apply elem_of_cons in Hin as [[= -> ->]|Hin].
    + cbn. apply Hm. rewrite Hm1. set_solver.
    + apply Hm. rewrite Hm1. set_solver.
Qed.

Lemma omap_keys_NoDup db (ids : list string) : NoDup ids ->
  NoDup (jkeys ((fun a => (lk_id a, a)) <$> omap (locked_row db) ids)).
Proof.
  intros Hn. assert (Heq : jkeys ((fun a => (lk_id a, a)) <$> omap (locked_row db) ids)
    = filter (fun id => is_Some (locked_row db id)) ids).
  { clear Hn. induction ids as [|x ids IH]; [done|]. rewrite filter_cons, <- IH.
    change (omap (locked_row db) (x :: ids)) with
      (match locked_row db x with Some b => b :: omap (locked_row db) ids
                                | None => omap (locked_row db) ids end).
    destruct (locked_row db x) as [a|] eqn:Ha.
    - rewrite decide_True by (by eexists). cbn. by rewrite (locked_row_id _ _ _ Ha).
    - by rewrite decide_False by (by intros [? ?]). }
  rewrite Heq. by apply NoDup_filter.
Qed.

Lemma not_overdrawn_elem m : existsb overdrawn (jvalues m) = false ->
  forall id a, jget id m = Some a -> lk_allowNegativeBalance a = false ->
  0 <= signedBalanceMinor (lk_accountClass a) (lk_debitTotalMinor a) (lk_creditTotalMinor a).
Proof.
  intros H id a Ha Hneg. apply jget_elem in Ha.
  assert (overdrawn a = false) as Ho.
  { destruct (overdrawn a) eqn:Ho; [|done]. enough (existsb overdrawn (jvalues m) = true) by congruence.
    apply existsb_exists. exists a. split; [|done]. apply list_elem_of_In, list_elem_of_fmap. by exists (id, a). }
  unfold overdrawn in Ho. rewrite Hneg in Ho. apply andb_false_iff in Ho as [Ho|]; [|done]. by bool_to_Z.
Qed.
End PostRun.

Section PostEffect.
Context {zod : Zod} {crypto : Crypto} {pg : Postgres}.
Variable now : Z.

Lemma locked_row_Some db id a : locked_row db id = Some a ->
  exists la b, ledgerAccounts db !! id = Some la /\ balanceProjections db !! id = Some b /\
    a = mkLocked id (la_currency la) (la_accountClass la) (la_allowNegativeBalance la)
          (bp_debitTotalMinor b) (bp_creditTotalMinor b) (bp_version b).
Proof.
  unfold locked_row. destruct (ledgerAccounts db !! id) as [la|]; [|done].
  destruct (balanceProjections db !! id) as [b|]; [|done]. intros [= <-]. eauto.
Qed.

(** The accounts that a successful locking and projecting leaves in the map. *)
Lemma projected_lookup db postings cur m :
  (forall p, p ∈ postings -> is_Some (locked_row db (np_ledgerAccountId p))) ->
  project postings ((fun a => (lk_id a, a)) <$>
    omap (locked_row db) (deterministicAccountOrder (np_ledgerAccountId <$> postings))) = Ok m ->
  assertPostableAccounts (omap (locked_row db)
    (deterministicAccountOrder (np_ledgerAccountId <$> postings))) cur = Ok tt ->
  forall id, jget id m =
    if decide (id ∈ np_ledgerAccountId <$> postings)
    then (fun a => with_totals a (lk_debitTotalMinor a + posted id DEBIT postings,
                                  lk_creditTotalMinor a + posted id CREDIT postings))
           <$> locked_row db id
    else None.
Proof.
  intros Hall Hp Hc id. apply project_ok in Hp as (_ & Hg & _). rewrite Hg, jget_rows.
  destruct (decide (id ∈ np_ledgerAccountId <$> postings)) as [Hin|Hout].
  - by rewrite decide_True by by apply order_elem.
  - by rewrite decide_False by by rewrite order_elem.
Qed.

(** The projections the loop writes, account by account. *)
Lemma written_projections db postings cur m (proj : gmap string BalanceProjection) :
  (forall id, id ∈ np_ledgerAccountId <$> postings ->
     exists a b, ledgerAccounts db !! id = Some a /\ balanceProjections db !! id = Some b) ->
  (forall id, jget id m =
    if decide (id ∈ np_ledgerAccountId <$> postings)
    then (fun a => with_totals a (lk_debitTotalMinor a + posted id DEBIT postings,
                                  lk_creditTotalMinor a + posted id CREDIT postings))
           <$> locked_row db id
    else None) ->
  existsb overdrawn (jvalues m) = false ->
  assertPostableAccounts (omap (locked_row db)
    (deterministicAccountOrder (np_ledgerAccountId <$> postings))) cur = Ok tt ->
  (forall id, proj !! id =
    match jget id m with
    | Some a => (fun b => mkProjection (lk_debitTotalMinor a) (lk_creditTotalMinor a)
                            (bp_version b + 1) now) <$> balanceProjections db !! id
    | None => balanceProjections db !! id
    end) ->
  (forall id, proj !! id =
     if decide (id ∈ np_ledgerAccountId <$> postings)
     then projected_by now id postings <$> balanceProjections db !! id
     else balanceProjections db !! id) /\
  (forall id a, id ∈ np_ledgerAccountId <$> postings -> ledgerAccounts db !! id = Some a ->
     la_currency a = cur /\
     forall b, proj !! id = Some b -> la_allowNegativeBalance a = false ->
     0 <= signedBalanceMinor (la_accountClass a) (bp_debitTotalMinor b) (bp_creditTotalMinor b)).
Proof.
  intros Hacc Hget Hover Hcur Hproj.
  assert (Hrow : forall id a b, id ∈ np_ledgerAccountId <$> postings ->
    ledgerAccounts db !! id = Some a -> balanceProjections db !! id = Some b ->
    locked_row db id = Some (mkLocked id (la_currency a) (la_accountClass a)
      (la_allowNegativeBalance a) (bp_debitTotalMinor b) (bp_creditTotalMinor b) (bp_version b))).
  { intros id a b _ Ha Hb. unfold locked_row. by rewrite Ha, Hb. }
  split.
  - intros id. rewrite Hproj, Hget. destruct (decide _) as [Hin|]; [|done].
    destruct (Hacc id Hin) as (a & b & Ha & Hb). by rewrite (Hrow id a b), Hb.
  - intros id a Hin Ha. destruct (Hacc id Hin) as (a' & b & Ha' & Hb).
    assert (a' = a) as -> by congruence. specialize (Hrow id a b Hin Ha Hb). split.
    + assert (Hel := assertPostable_ok _ _ _ Hcur). eapply Hel with (a := mkLocked id _ _ _ _ _ _).
      apply list_elem_of_omap. exists id. split; [by apply order_elem|exact Hrow].
    + intros b' Hb' Hneg. pose proof (Hget id) as Hg. rewrite decide_True, Hrow in Hg by done.
      rewrite Hproj, Hg, Hb in Hb'. injection Hb' as <-.
      apply (not_overdrawn_elem m Hover id _ Hg Hneg).
Qed.

Lemma effectiveAt_quiet (o : option string) (db : LedgerDb) t db' :
  (match o with Some text => require (date_parse text) (DbError "Invalid Date")
           | None => mret now end : DbM Z) db = (Ok t, db') -> db' = db.
Proof. destruct o; intros H; by db_run. Qed.
Lemma reference_quiet (o : option string) (db : LedgerDb) t db' :
  (match o with Some r => mret r | None => id ← fresh_uuid; mret ("JRN-" +:+ id) end : DbM string)
    db = (Ok t, db') ->
  (exists n, db' = set_uuid (fun _ => n) db) /\ (forall r, o = Some r -> t = r).
Proof.
  destruct o; intros H; db_run.
  - split; [|by intros ? [= <-]]. exists (uuidCounter db). by destruct db.
  - split; [by eexists|done].
Qed.

Lemma post_run_written request corr actor postings total db r db' :
  post_run now request corr actor postings total db = (Ok r, db') ->
  exists e ps, journal_written db db' (jr_currency request) now postings e ps /\
    je_entryType e = jr_entryType request /\ je_correlationId e = corr /\
    (forall ref, jr_reference request = Some ref -> je_reference e = ref) /\
    r = mkJournalResult (je_id e) (je_reference e) (jr_entryType request) (jr_currency request)
          (serializeMinorUnits total) (toISOString (je_effectiveAt e)) (toISOString now)
          (posting_result <$> ps).
Proof.
  intros H. unfold post_run in H. db_run.
  match goal with H : lockAccounts _ _ = _ |- _ => apply lockAccounts_ok in H as (-> & -> & Hacc) end.
  match goal with H : match jr_effectiveAt _ with _ => _ end _ = _ |- _ =>
    apply effectiveAt_quiet in H as -> end.
  match goal with H : match jr_reference _ with _ => _ end _ = _ |- _ =>
    apply reference_quiet in H as [[n ->] Href] end.
  match goal with H : create_entry _ _ = _ |- _ => apply create_entry_ok in H as (He & -> & Hfresh) end.
  match goal with H : for_each _ (index_from 0 postings) _ = _ |- _ =>
    apply write_postings_ok in H as (ps & n' & Hps & -> & -> & Hpos) end.
  match goal with H : project _ _ = Ok ?m, Hc : assertPostableAccounts _ _ = _,
                  Hw : for_each _ (jvalues ?m) _ = _ |- _ =>
    rename H into Hp, Hc into Hcur, Hw into Hupd end.
  apply write_projections_ok in Hupd as (proj & -> & Hproj).
  2:{ destruct (project_ok _ _ _ Hp) as (-> & _ & _). apply omap_keys_NoDup, order_NoDup. }
  2:{ eapply project_wf; [exact Hp|]. apply locked_map_wf. }
  assert (Hlk : forall p, p ∈ postings -> is_Some (locked_row db (np_ledgerAccountId p))).
  { intros p Hin. destruct (Hacc (np_ledgerAccountId p)) as (a0 & b0 & Ha0 & Hb0);
      [by apply list_elem_of_fmap_2|]. unfold locked_row. rewrite Ha0, Hb0. by eexists. }
  destruct (written_projections db postings (jr_currency request) a proj Hacc
    (projected_lookup _ _ _ _ Hlk Hp Hcur)) as [Hproj' Hcov]; [done..|].
  exists x11, ps. split; [|rewrite He; done]. constructor; try done; cbn.
  - by rewrite He.
  - intros p Hin. rewrite <- (index_from_snd 0 postings) in Hin.
    apply list_elem_of_fmap in Hin as (ip & -> & Hin). destruct (Hpos ip Hin) as [? [la Hla]].
    split; [done|]. exists la. split; [done|].
    refine (proj1 (Hcov (np_ledgerAccountId ip.2) la _ Hla)). apply list_elem_of_fmap_2.
    rewrite <- (index_from_snd 0 postings). by apply list_elem_of_fmap_2.
  - intros id la b Hin Hla Hbal Hneg. by apply (proj2 (Hcov id la Hin Hla)).
Qed.
End PostEffect.

(** ** The invariant *)
Lemma written_totals eid cur now ips ps id d : Forall2 (written eid cur now) ips ps ->
  sum_by (on_account id d) ps = posted id d ips.*2.
Proof.
  induction 1 as [|[i p] q ips ps [id' Hw] _ IH]; [done|]. cbn [fmap list_fmap snd].
  rewrite sum_by_cons, posted_cons, IH. f_equal.
  rewrite Hw. unfold on_account, directed, np_directed. cbn. done.
Qed.
Lemma written_directed eid cur now ips ps d : Forall2 (written eid cur now) ips ps ->
  sum_by (directed d) ps = sum_by (np_directed d) ips.*2.
Proof.
  induction 1 as [|[i p] q ips ps [id' Hw] _ IH]; [done|]. cbn [fmap list_fmap snd].
  rewrite !sum_by_cons, IH. f_equal. by rewrite Hw.
Qed.
Lemma written_elem eid cur now ips ps q : Forall2 (written eid cur now) ips ps -> q ∈ ps ->
  exists ip, ip ∈ ips /\ written eid cur now ip q.
Proof.
  intros Hw Hq. apply list_elem_of_lookup in Hq as [i Hi].
  destruct (Forall2_lookup_r _ _ _ _ _ Hw Hi) as (ip & Hip & ?).
  exists ip. split; [by eapply list_elem_of_lookup_2|done].
Qed.

Lemma posted_untouched id d ps : id ∉ np_ledgerAccountId <$> ps -> posted id d ps = 0.
Proof.
  induction ps as [|p ps IH]; [done|]. rewrite fmap_cons, not_elem_of_cons, posted_cons.
  intros [Hne Hin]. rewrite decide_False by congruence. by rewrite IH.
Qed.

Lemma filter_all {A} (P : A -> Prop) `{forall x, Decision (P x)} (l : list A) :
  (forall x, x ∈ l -> P x) -> filter P l = l.
Proof.
  induction l as [|x l IH]; intros Hl; [done|]. rewrite filter_cons, decide_True by (apply Hl; by left).
  f_equal. apply IH. intros y Hy. apply Hl. by right.
Qed.
Lemma filter_none {A} (P : A -> Prop) `{forall x, Decision (P x)} (l : list A) :
  (forall x, x ∈ l -> ~ P x) -> filter P l = [].
Proof.
  induction l as [|x l IH]; intros Hl; [done|]. rewrite filter_cons, decide_False by (apply Hl; by left).
  apply IH. intros y Hy. apply Hl. by right.
Qed.

Section JournalInv.
Context (db db' : LedgerDb) (cur : string) (now : Z) (postings : list Posting)
  (e : JournalEntry) (ps : list JournalPosting).
Hypothesis Hcore : LedgerCore db.
Hypothesis Hw : journal_written db db' cur now postings e ps.

Lemma jw_elem q : q ∈ ps -> exists ip, ip.2 ∈ postings /\ written (je_id e) cur now ip q.
Proof.
  intros Hq. destruct (written_elem _ _ _ _ _ _ (jw_written _ _ _ _ _ _ _ Hw) Hq) as (ip & Hin & Hq').
  exists ip. split; [|done]. rewrite <- (index_from_snd 0 postings). by apply list_elem_of_fmap_2.
Qed.

Lemma entry_postings_old id : id <> je_id e -> entry_postings db' id = entry_postings db id.
Proof.
  intros Hne. unfold entry_postings. rewrite (jw_postings _ _ _ _ _ _ _ Hw), filter_app.
  rewrite (filter_none _ ps); [by rewrite app_nil_r|].
  intros q Hq. destruct (jw_elem q Hq) as (ip & _ & i & ->). cbn. congruence.
Qed.
Lemma entry_postings_new : entry_postings db' (je_id e) = ps.
Proof.
  unfold entry_postings. rewrite (jw_postings _ _ _ _ _ _ _ Hw), filter_app.
  rewrite (filter_none _ (journalPostings db)), filter_all; [done| |].
  - intros q Hq. by destruct (jw_elem q Hq) as (ip & _ & i & ->).
  - intros q Hq Heq. destruct (inv_postings _ Hcore q Hq) as (_ & (x & Hx & Hid) & _).
    apply (jw_fresh _ _ _ _ _ _ _ Hw) in Hx as [Hne _]. congruence.
Qed.
Lemma find_entry_old id x : find_entry db id = Some x -> find_entry db' id = Some x.
Proof.
  unfold find_entry. rewrite (jw_entries _ _ _ _ _ _ _ Hw). induction (journalEntries db) as [|y l IH];
    cbn; [done|]. destruct (String.eqb (je_id y) id); auto.
Qed.
Lemma find_entry_new : find_entry db' (je_id e) = Some e.
Proof.
  unfold find_entry. rewrite (jw_entries _ _ _ _ _ _ _ Hw).
  pose proof (jw_fresh _ _ _ _ _ _ _ Hw) as Hf. induction (journalEntries db) as [|y l IH]; cbn.
  - by rewrite String.eqb_refl.
  - destruct (String.eqb_spec (je_id y) (je_id e)) as [Heq|].
    + destruct (Hf y) as [Hne _]; [by left|congruence].
    + apply IH. intros x Hx. apply Hf. by right.
Qed.

Lemma integrity_old x : x ∈ journalEntries db -> assert_journal_integrity db' (je_id x) = None.
Proof.
  intros Hx. pose proof (inv_entries _ Hcore x Hx) as Hi. unfold assert_journal_integrity in *.
  destruct (find_entry db (je_id x)) as [y|] eqn:Hy; [|done].
  rewrite (find_entry_old _ _ Hy), (jw_accounts _ _ _ _ _ _ _ Hw), entry_postings_old; [done|].
  by apply (jw_fresh _ _ _ _ _ _ _ Hw) in Hx as [? _].
Qed.

Lemma integrity_new : (2 <= length postings)%nat ->
  sum_by (np_directed DEBIT) postings = sum_by (np_directed CREDIT) postings ->
  assert_journal_integrity db' (je_id e) = None.
Proof.
  intros Hlen Hbal. pose proof (jw_written _ _ _ _ _ _ _ Hw) as Hf. unfold assert_journal_integrity.
  rewrite find_entry_new, entry_postings_new, <- (Forall2_length _ _ _ Hf), index_from_length.
  destruct (Nat.ltb_spec (length postings) 2); [lia|].
  assert (forall f, (forall q, q ∈ ps -> f q = false) -> existsb f ps = false) as Hex.
  { intros f Hff. destruct (existsb f ps) eqn:Hx; [|done].
    apply existsb_exists in Hx as (q & Hq%list_elem_of_In & Hfq). rewrite Hff in Hfq; done. }
  rewrite Hex, Hex.
  - rewrite !(written_directed _ _ _ _ _ _ Hf), !index_from_snd, Hbal, Z.eqb_refl. done.
  - intros q Hq. destruct (jw_elem q Hq) as (ip & Hip & i & ->). cbn.
    destruct (jw_touched _ _ _ _ _ _ _ Hw _ Hip) as (_ & a & Ha & Hc).
    by rewrite (jw_accounts _ _ _ _ _ _ _ Hw), Ha, Hc, String.eqb_refl.
  - intros q Hq. destruct (jw_elem q Hq) as (ip & Hip & i & ->). cbn.
    by rewrite (jw_currency _ _ _ _ _ _ _ Hw), String.eqb_refl.
Qed.

Lemma account_total_after id d : account_total db' id d = account_total db id d + posted id d postings.
Proof.
  unfold account_total. rewrite (jw_postings _ _ _ _ _ _ _ Hw), sum_by_app.
  by rewrite (written_totals _ _ _ _ _ _ _ (jw_written _ _ _ _ _ _ _ Hw)), index_from_snd.
Qed.

Lemma journal_written_core : (2 <= length postings)%nat ->
  sum_by (np_directed DEBIT) postings = sum_by (np_directed CREDIT) postings -> LedgerCore db'.
Proof.
  intros Hlen Hbal. destruct Hcore as [H1 H2 H3 H4 H5 H6 H7 H8 H9 H10].
  pose proof (jw_projections _ _ _ _ _ _ _ Hw) as Hproj.
  pose proof (jw_accounts _ _ _ _ _ _ _ Hw) as Hacc.
  pose proof (jw_customers _ _ _ _ _ _ _ Hw) as Hcus.
  constructor; rewrite ?Hcus; try done.
  - intros id. rewrite Hacc, Hproj, H1. case_decide; [|done]. by rewrite fmap_is_Some.
  - intros id b Hb. rewrite !account_total_after. rewrite Hproj in Hb. case_decide as Hin.
    + apply fmap_Some in Hb as (b0 & Hb0 & ->). apply H2 in Hb0 as [<- <-]. done.
    + apply H2 in Hb as [-> ->]. rewrite !posted_untouched by done. lia.
  - intros x. rewrite (jw_entries _ _ _ _ _ _ _ Hw), elem_of_app, list_elem_of_singleton.
    intros [Hx| ->]; [by apply integrity_old|by apply integrity_new].
  - rewrite (jw_entries _ _ _ _ _ _ _ Hw), fmap_app. apply NoDup_app. split; [done|].
    split; [|apply NoDup_singleton]. intros x (y & -> & Hy)%list_elem_of_fmap Hx%list_elem_of_singleton.
    by apply (jw_fresh _ _ _ _ _ _ _ Hw) in Hy as [? _].
  - intros q. unfold posting_wf. rewrite (jw_postings _ _ _ _ _ _ _ Hw),
      (jw_entries _ _ _ _ _ _ _ Hw), Hacc, elem_of_app. intros [Hq|Hq].
    + destruct (H5 q Hq) as (? & (x & Hx & ?) & ?). split; [done|]. split; [|done].
      exists x. split; [|done]. apply elem_of_app. by left.
    + destruct (jw_elem q Hq) as (ip & Hip & i & ->). cbn.
      destruct (jw_touched _ _ _ _ _ _ _ Hw _ Hip) as (? & a & Ha & _).
      split; [done|]. split; [|by eexists]. exists e. split; [|done]. apply elem_of_app. right. by left.
  - intros id a b Ha Hb Hneg. rewrite Hacc in Ha.
    destruct (decide (id ∈ np_ledgerAccountId <$> postings)) as [Hin|Hout].
    + by apply (jw_covered _ _ _ _ _ _ _ Hw id a b).
    + rewrite Hproj, decide_False in Hb by done. by apply (H6 id a b).
  - intros c Hc. unfold customer_backed. rewrite Hacc. by apply H7.
Qed.
End JournalInv.
