(* ===== verification/JournalProperties.v ===== *)
(** * What journal posting guarantees *)

From Stdlib Require Import ZArith Lia Ascii String.
From stdpp Require Import base strings list gmap sorting.
From S2P Require Import Prelude.
From S2P Require Import Js.
From S2P Require Import Regex.
From S2P Require Import Contracts.
From S2P Require Import Security.
From S2P Require Import LedgerDb.
From S2P Require Import Idempotency.
From S2P Require Import Journal.
From S2P Require Import JournalProofs.

Open Scope Z_scope.

Lemma assertBalanced_spec postings total : assertBalanced postings = Some total ->
  (2 <= length postings)%nat /\ (forall p, p ∈ postings -> 0 < np_amountMinor p) /\
  sum_by (np_directed DEBIT) postings = total /\ sum_by (np_directed CREDIT) postings = total /\
  total <> 0.
Proof.
  unfold assertBalanced. destruct (Nat.ltb_spec (length postings) 2) as [|Hl]; [done|].
  destruct (balance_loop postings 0 0) as [t|] eqn:Ht; [|done]. cbn.
  apply balance_loop_spec in Ht as [-> Hpos]. cbn.
  destruct (negb _ || _) eqn:Hb; [done|]. intros [= <-]. bool_to_Z. split; [lia|].
  split; [done|]. lia.
Qed.

(** The balance of an account after postings on it. *)
Definition balance_after (c : LedgerAccountClass) (id : string) (ps : list JournalPostingRequest) (b : Z)
  : Z := b + signedBalanceMinor c (requested id DEBIT ps) (requested id CREDIT ps).

Lemma projected_balance now c id postings ps b :
  (forall d, posted id d postings = requested id d ps) ->
  let b' := projected_by now id postings b in
  signedBalanceMinor c (bp_debitTotalMinor b') (bp_creditTotalMinor b') =
  balance_after c id ps (signedBalanceMinor c (bp_debitTotalMinor b) (bp_creditTotalMinor b)).
Proof.
  intros Hp. cbn. rewrite !Hp. unfold balance_after, signedBalanceMinor.
  destruct (DEBIT_POSITIVE_CLASSES c); lia.
Qed.

Lemma journal_written_balance db db' cur now postings e jps ps id a :
  (forall id d, posted id d postings = requested id d ps) ->
  journal_written db db' cur now postings e jps -> ledgerAccounts db !! id = Some a ->
  account_balance db' id = balance_after (la_accountClass a) id ps <$> account_balance db id.
Proof.
  intros Hp Hw Ha. unfold account_balance.
  rewrite (jw_accounts _ _ _ _ _ _ _ Hw), (jw_projections _ _ _ _ _ _ _ Hw), Ha. cbn.
  destruct (decide _) as [Hin|Hout].
  - destruct (balanceProjections db !! id) as [b|]; [|done]. cbn. f_equal.
    by apply (projected_balance now _ _ postings).
  - destruct (balanceProjections db !! id) as [b|]; [|done]. cbn. f_equal.
    unfold balance_after. rewrite <- !Hp, !posted_untouched by done.
    unfold signedBalanceMinor. destruct (DEBIT_POSITIVE_CLASSES _); lia.
Qed.

(** ** Sums over a partition *)
Lemma sum_by_partition {A} (f : A -> Z) (key : A -> string) (ids : list string) (l : list A) :
  NoDup ids -> (forall x, x ∈ l -> key x ∈ ids) ->
  sum_by f l = sum_by (fun id => sum_by f (filter (fun x => key x = id) l)) ids.
Proof.
  intros Hn. induction l as [|x l IH]; intros Hin.
  - cbn. by rewrite sum_by_zero.
  - rewrite sum_by_cons, IH by (intros y Hy; apply Hin; by right).
    assert (Hx : key x ∈ ids) by (apply Hin; by left). clear IH Hin.
    symmetry. rewrite (sum_by_ext _ (fun id => (if decide (key x = id) then f x else 0) +
                                     sum_by f (filter (fun x => key x = id) l)) ids).
    2:{ intros id _. cbn beta. rewrite filter_cons. case_decide; [by rewrite sum_by_cons|lia]. }
    rewrite sum_by_plus. f_equal. induction Hn as [|y ids Hy Hn IH]; [by inversion Hx|].
    rewrite sum_by_cons. apply elem_of_cons in Hx as [->|Hx].
    + rewrite decide_True by done. rewrite (sum_by_ext _ (fun _ => 0)), sum_by_zero; [lia|].
      intros id Hid. rewrite decide_False; [done|]. by intros <-.
    + rewrite decide_False by (by intros <-). by rewrite IH.
Qed.

(** The trial balance: debit and credit totals of all the projections. *)
Definition trial_balance (db : LedgerDb) : Z * Z :=
  let bs := (map_to_list (balanceProjections db)).*2 in
  (sum_by bp_debitTotalMinor bs, sum_by bp_creditTotalMinor bs).

Lemma entry_balanced db id : assert_journal_integrity db id = None ->
  sum_by (directed DEBIT) (entry_postings db id) = sum_by (directed CREDIT) (entry_postings db id).
Proof.
  unfold assert_journal_integrity. destruct (find_entry db id); [|done].
  repeat (case_match; [done|]). intros _. by bool_to_Z.
Qed.

Lemma postings_balanced db : LedgerCore db ->
  sum_by (directed DEBIT) (journalPostings db) = sum_by (directed CREDIT) (journalPostings db).
Proof.
  intros H. rewrite !(sum_by_partition _ jp_journalEntryId (je_id <$> journalEntries db)).
  - apply sum_by_ext. intros id (e & -> & He)%list_elem_of_fmap. by apply entry_balanced, H.
  - apply H.
  - intros p Hp. destruct (inv_postings _ H p Hp) as (_ & (e & He & <-) & _). by apply list_elem_of_fmap_2.
  - apply H.
  - intros p Hp. destruct (inv_postings _ H p Hp) as (_ & (e & He & <-) & _). by apply list_elem_of_fmap_2.
Qed.

Lemma projections_total db d (total : BalanceProjection -> Z) : LedgerCore db ->
  (forall id b, balanceProjections db !! id = Some b -> total b = account_total db id d) ->
  sum_by total (map_to_list (balanceProjections db)).*2 = sum_by (directed d) (journalPostings db).
Proof.
  intros H Ht.
  rewrite (sum_by_partition (directed d) jp_ledgerAccountId (map_to_list (balanceProjections db)).*1).
  - assert (Hall : forall kv, kv ∈ map_to_list (balanceProjections db) ->
      total kv.2 = account_total db kv.1 d).
    { intros [id b] Hin%elem_of_map_to_list. by apply Ht. }
    induction (map_to_list (balanceProjections db)) as [|[id b] l IH]; [done|].
    rewrite !fmap_cons, !sum_by_cons, IH by (intros kv Hkv; apply Hall; by right).
    f_equal. cbn [snd]. pose proof (Hall (id, b)) as Hb. cbn in Hb. rewrite Hb by (by left).
    unfold account_total. cbn [fst]. by rewrite filter_sum.
  - apply NoDup_fst_map_to_list.
  - intros p Hp. destruct (inv_postings _ H p Hp) as (_ & _ & Ha).
    apply (inv_domains _ H) in Ha as [b Hb]. apply list_elem_of_fmap.
    exists (jp_ledgerAccountId p, b). split; [done|]. by apply elem_of_map_to_list.
Qed.

Section JournalProperties.
Context {zod : Zod} {crypto : Crypto} {pg : Postgres}.
Variable config : LedgerConfig.
Variable now : Z.
Abbreviation post := (post config now).

Lemma post_run_records request corr actor postings total db r db' :
  post_run now request corr actor postings total db = (Ok r, db') ->
  idempotencyRecords db' = idempotencyRecords db.
Proof. intros (e & ps & Hw & _)%post_run_written. apply Hw. Qed.

Lemma post_run_core request corr actor postings total db r db' :
  assertBalanced postings = Some total -> LedgerCore db ->
  post_run now request corr actor postings total db = (Ok r, db') -> LedgerCore db'.
Proof.
  intros (Hl & _ & Hd & Hc & _)%assertBalanced_spec Hcore (e & ps & Hw & _)%post_run_written.
  eapply journal_written_core; [done|done|done|congruence].
Qed.

Lemma post_keeps_inv request corr actor :
  preserves (world_inv LedgerInv) (post request corr actor).
Proof.
  unfold Journal.post. apply preserves_bind; [apply preserves_require|intros postings].
  destruct (assertBalanced postings) as [total|] eqn:Hb; [|by intros w Hw].
  eapply triple_bind with (Q1 := fun t w => t = total /\ world_inv LedgerInv w); [by intros w Hw|].
  intros t w [-> Hw]. revert w Hw. apply preserves_bind; [|intros o; apply preserves_ret].
  apply execute_preserves. intros keyHash h. apply execute_tx_inv.
  - intros d r d' Hd Hrun. split; [by eapply post_run_core|by eapply post_run_records].
  - intros d r d' Hrun. by eapply post_run_records.
Qed.

(** Posting a journal keeps the ledger invariant (every entry balanced in
    one currency, every projection equal to the totals of its postings, no
    overdraft, settled records only), whether it returns or throws, and
    whatever other invariant-keeping transactions run between its steps. *)
Theorem post_preserves_inv request corr actor :
  preserves (world_inv LedgerInv) (post request corr actor).
Proof. apply post_keeps_inv. Qed.

Lemma post_calm request corr actor : preserves calm (post request corr actor).
Proof.
  unfold Journal.post. do 2 (apply preserves_bind; [apply preserves_require|intros ?]).
  apply preserves_bind; [apply execute_calm|intros o; apply preserves_ret].
Qed.

(** In every state that satisfies the invariant the books balance: the
    debit totals of all the account projections add up to the credit totals,
    so money is only moved between accounts, never created. *)
Theorem trial_balance_holds db : LedgerInv db -> (trial_balance db).1 = (trial_balance db).2.
Proof.
  intros [H _]. unfold trial_balance. cbn.
  rewrite (projections_total db DEBIT), (projections_total db CREDIT); [by apply postings_balanced|done| |done|];
    intros id b Hb; by apply (inv_projections _ H) in Hb as [? ?].
Qed.

(** The rows of a posted journal: one per account and direction, numbered from
    zero, and together what the request asks for. *)
Record posted_rows (request : InternalJournalRequest) (e : JournalEntry) (rows : list JournalPosting) : Prop := {
  pw_entry : forall p, p ∈ rows -> jp_journalEntryId p = je_id e /\ jp_currency p = jr_currency request /\
    jp_createdAt p = now /\ 0 < jp_amountMinor p;
  pw_amounts : forall id d, sum_by (on_account id d) rows = requested id d (jr_postings request);
  pw_single : NoDup ((fun p => (jp_ledgerAccountId p, jp_direction p)) <$> rows);
  pw_sequence : jp_sequence <$> rows = Z.of_nat <$> seq 0 (length rows)
}.
Lemma index_from_fst {A} i (l : list A) : (index_from i l).*1 = Z.add i ∘ Z.of_nat <$> seq 0 (length l).
Proof. unfold index_from. apply fst_zip. rewrite length_fmap, length_seq. lia. Qed.
Lemma written_fields {A} (f : JournalPosting -> A) (g : Z * Posting -> A) eid cur ips rows :
  Forall2 (written eid cur now) ips rows -> (forall ip p, written eid cur now ip p -> f p = g ip) -> f <$> rows = g <$> ips.
Proof. intros H Hfg. induction H as [|ip p ips rows Hp _ IH]; [done|]. cbn. by rewrite IH, (Hfg ip p Hp). Qed.
Lemma posted_rows_of request postings total db db' e rows : normalisePostings (jr_postings request) = Some postings ->
  assertBalanced postings = Some total -> journal_written db db' (jr_currency request) now postings e rows -> posted_rows request e rows.
Proof.
  intros [Hp Hn]%normalise_spec (_ & Hpos & _)%assertBalanced_spec Hw. pose proof (jw_written _ _ _ _ _ _ _ Hw) as Hf. constructor.
  - intros p [i Hi]%list_elem_of_lookup. destruct (Forall2_lookup_r _ _ _ _ _ Hf Hi) as (ip & Hip & pid & ->). repeat split; try done. cbn.
    apply Hpos. rewrite <- (index_from_snd 0 postings). by apply list_elem_of_fmap_2, (list_elem_of_lookup_2 _ i).
  - intros id d. rewrite <- Hp. by rewrite (written_totals _ _ _ _ _ _ _ Hf), index_from_snd.
  - rewrite (written_fields _ (fun ip => (np_ledgerAccountId ip.2, np_direction ip.2)) _ _ _ _ Hf) by (by intros ip p [pid ->]).
    rewrite <- (index_from_snd 0 postings), <- list_fmap_compose in Hn.
    apply (NoDup_fmap_1 (fun k : string * PostingDirection => posting_key k.1 k.2)). by rewrite <- list_fmap_compose.
  - rewrite (written_fields _ fst _ _ _ _ Hf) by (by intros ip p [pid ->]). rewrite index_from_fst.
    rewrite <- (Forall2_length _ _ _ Hf), index_from_length. apply list_fmap_ext. intros i n _. cbn. lia.
Qed.

Lemma post_moves request corr actor db r w' :
  idempotencyRecords db !! record_key journalEntry (sha256 (jr_idempotencyKey request)) = None ->
  post request corr actor (quiet db) = (Ok r, w') ->
  (forall id a, ledgerAccounts db !! id = Some a ->
     account_balance (wdb w') id =
     balance_after (la_accountClass a) id (jr_postings request) <$> account_balance db id) /\
  ledgerAccounts (wdb w') = ledgerAccounts db /\
  exists e rows, journalEntries (wdb w') = journalEntries db ++ [e] /\
    journalPostings (wdb w') = journalPostings db ++ rows /\ posted_rows request e rows /\
    je_entryType e = jr_entryType request /\ je_currency e = jr_currency request /\ je_correlationId e = corr /\
    (forall reference, jr_reference request = Some reference -> je_reference e = reference) /\
    jres_id r = je_id e /\ jres_reference r = je_reference e /\ jres_postings r = posting_result <$> rows.
Proof.
  intros Hnone H. unfold Journal.post in H. run.
  match goal with H : execute _ _ _ _ _ _ _ _ _ = _ |- _ =>
    apply execute_fresh in H as (h & _ & _ & Htx & _); [|done] end.
  apply execute_tx_ok in Htx as (_ & db2 & Hrun & -> & _); [|by intros; eapply post_run_records].
  apply post_run_written in Hrun as (e & rows & Hw & Ht & Hcorr & Href & Hr).
  match goal with H : normalisePostings _ = Some _ |- _ => rename H into Hnorm end.
  match goal with H : assertBalanced _ = Some _ |- _ => pose proof (posted_rows_of _ _ _ _ _ _ _ Hnorm H Hw) as Hrows end.
  apply normalise_spec in Hnorm as [Hp _]. split; [|split; [apply Hw|]].
  - intros id a Ha. by apply (journal_written_balance _ _ _ _ _ _ _ _ _ _ Hp Hw).
  - exists e, rows. rewrite Hr. split_and!; try apply Hw; done.
Qed.

(** A refused post changes nothing. *)
Lemma post_err request corr actor db e w' : post request corr actor (quiet db) = (Err e, w') -> w' = quiet db.
Proof.
  unfold Journal.post. intros H.
  apply bind_Err_inv in H as [H|(postings & w1 & Hp & H)].
  { unfold require in H. destruct (normalisePostings _); by injection H as _ <-. }
  run. apply bind_Err_inv in H as [H|(total & w3 & Ht & H)].
  { unfold require in H. destruct (assertBalanced _); by injection H as _ <-. }
  run. apply bind_Err_inv in H as [H|(o & w2 & Hexec & H)]; [|by cbn in H].
  by apply execute_err in H.
Qed.

(** A success under a key already used changes nothing. *)
Lemma post_recorded request corr actor db r w' : LedgerInv db ->
  is_Some (idempotencyRecords db !! record_key journalEntry (sha256 (jr_idempotencyKey request))) ->
  post request corr actor (quiet db) = (Ok r, w') -> w' = quiet db.
Proof.
  intros Hinv [rec Hrec] H. unfold Journal.post in H. run.
  match goal with H : execute _ _ _ _ _ _ _ _ _ = _ |- _ => eapply execute_recorded in H; [exact H|exact Hrec|..] end;
    by eapply inv_records.
Qed.

(** Every account of a balanced post appears among the returned postings. *)
Lemma post_fresh_postings request corr actor db r w' id d :
  idempotencyRecords db !! record_key journalEntry (sha256 (jr_idempotencyKey request)) = None ->
  post request corr actor (quiet db) = (Ok r, w') ->
  requested id d (jr_postings request) <> 0 ->
  exists p, p ∈ jres_postings r /\ ps_ledgerAccountId p = id.
Proof.
  intros Hnone H Hreq. unfold Journal.post in H. run.
  match goal with H : execute _ _ _ _ _ _ _ _ _ = _ |- _ =>
    apply execute_fresh in H as (h & _ & _ & Htx & _); [|done] end.
  apply execute_tx_ok in Htx as (_ & db2 & Hrun & -> & _); [|by intros; eapply post_run_records].
  apply post_run_written in Hrun as (e & ps & Hw & _ & _ & _ & Hr).
  match goal with H : normalisePostings _ = Some ?l |- _ =>
    apply normalise_spec in H as [Hp _]; rename l into postings end.
  assert (id ∈ np_ledgerAccountId <$> postings) as Hin.
  { destruct (decide (id ∈ np_ledgerAccountId <$> postings)) as [|Hno]; [done|].
    destruct Hreq. by rewrite <- Hp, (posted_untouched id d postings Hno). }
  apply list_elem_of_fmap in Hin as (q & -> & Hq).
  rewrite <- (index_from_snd 0 postings) in Hq. apply list_elem_of_fmap in Hq as (ip & -> & Hip).
  apply list_elem_of_lookup in Hip as [i Hi].
  destruct (Forall2_lookup_l _ _ _ _ _ (jw_written _ _ _ _ _ _ _ Hw) Hi) as (p & Hpi & pid & Hpp).
  rewrite Hr. exists (posting_result p). split; [|by rewrite Hpp].
  by apply list_elem_of_fmap_2, (list_elem_of_lookup_2 _ i).
Qed.

(** C18: a journal posted under a fresh key appends exactly one entry with the
    request's fields and exactly its postings: one row per account and
    direction, numbered from zero, positive, in the entry and currency of the
    request, adding up to what the request asks for; the answer lists these
    rows, and every account balance moves by exactly what the request's
    postings ask for on that account. *)
Theorem post_effect request corr actor db r w' :
  idempotencyRecords db !! record_key journalEntry (sha256 (jr_idempotencyKey request)) = None ->
  post request corr actor (quiet db) = (Ok r, w') ->
  (forall id a, ledgerAccounts db !! id = Some a ->
     account_balance (wdb w') id =
     balance_after (la_accountClass a) id (jr_postings request) <$> account_balance db id) /\
  ledgerAccounts (wdb w') = ledgerAccounts db /\
  exists e rows, journalEntries (wdb w') = journalEntries db ++ [e] /\
    journalPostings (wdb w') = journalPostings db ++ rows /\ posted_rows request e rows /\
    je_entryType e = jr_entryType request /\ je_currency e = jr_currency request /\ je_correlationId e = corr /\
    (forall reference, jr_reference request = Some reference -> je_reference e = reference) /\
    jres_id r = je_id e /\ jres_reference r = je_reference e /\ jres_postings r = posting_result <$> rows.
Proof. apply post_moves. Qed.

Lemma post_keeps_record k rec request corr actor : preserves (world_inv (has_record k rec)) (post request corr actor).
Proof.
  unfold Journal.post. do 2 (apply preserves_bind; [apply preserves_require|intros ?]).
  apply preserves_bind; [|intros o; apply preserves_ret].
  apply execute_preserves. intros keyHash h. apply execute_tx_record. intros d r d'. apply post_run_records.
Qed.

(** The record that answers a repeated request with [r]. *)
Definition answers (request : InternalJournalRequest) (r : JournalResult) (rec : IdempotencyRecord) : Prop :=
  exists postings total h body, normalisePostings (jr_postings request) = Some postings /\
    assertBalanced postings = Some total /\ canonicalRequestHash (journal_payload request postings) = Some h /\
    ir_requestHash rec = h /\ ir_completed rec = true /\ ir_responseBody rec = Some body /\ decode_journal body = Some r.
Definition post_key (request : InternalJournalRequest) : string * string :=
  record_key journalEntry (sha256 (jr_idempotencyKey request)).
Lemma post_settles request corr actor w r w' : journalResultSchema r = Some r -> post request corr actor w = (Ok r, w') ->
  exists rec, has_record (post_key request) rec (wdb w') /\ answers request r rec.
Proof.
  intros Hok H. unfold Journal.post in H. run.
  match goal with H : execute _ _ _ _ _ _ _ _ _ = (Ok ?o, _) |- _ =>
    apply execute_ok in H as (h & Hh & Hcase); destruct o as [v b]; cbn [result_of replayed] in * end.
  destruct Hcase as [(_ & rec & body & Hrec & Hrh & Hc & Hb & Hd)|(_ & db1 & Htx)].
  { exists rec. split; [exact Hrec|]. eexists _, _, _, _. done. }
  apply execute_tx_ok in Htx as (_ & db2 & _ & -> & _); [|by intros; eapply post_run_records].
  eexists. split; [apply lookup_insert_eq|]. eexists _, _, _, _. done.
Qed.
(** Such a record answers at any time, among any requests that leave it there. *)
Lemma answers_again request corr actor w r rec : (forall text, sha256 text <> ""%string) ->
  let db := match wothers w with [] => wdb w | f :: _ => f (wdb w) end in
  has_record (post_key request) rec db -> answers request r rec ->
  post request corr actor w = (Ok r, mkWorld db (tail (wothers w))).
Proof.
  intros Hsha db Hrec (postings & total & h & body & Hn & Hbal & Hh & Hrh & Hc & Hb & Hd). unfold Journal.post.
  rewrite Hn. erewrite bind_Ok by reflexivity. cbn beta. rewrite Hbal. erewrite bind_Ok by reflexivity. cbn beta.
  refine (bind_Ok _ _ _ _ _ (mkOutcome r true) (mkWorld db (tail (wothers w))) _).
  refine (execute_replays _ _ _ _ _ _ _ _ _ _ h rec body r Hh _ eq_refl Hrec Hrh Hc Hb Hd).
  intros ->. unfold canonicalRequestHash in Hh. destruct (canonicalJson _); [|done]. injection Hh. apply Hsha.
Qed.

(** C21: the deferred database triggers never reject what the service wrote:
    their checks pass on every state that a transaction body of [post] leaves. *)
Theorem triggers_accept request corr actor postings total db r db' f :
  LedgerInv db -> assertBalanced postings = Some total ->
  post_run now request corr actor postings total db = (Ok r, db') ->
  commit_checks db (set_records f db') = None.
Proof.
  intros [Hcore _] Hb Hrun. apply assertBalanced_spec in Hb as (Hl & _ & Hd & Hc & _).
  apply post_run_written in Hrun as (e & ps & Hw & _).
  assert (Hi : assert_journal_integrity (set_records f db') (je_id e) = None).
  { apply (integrity_new db db' (jr_currency request) now postings e ps Hcore Hw Hl). congruence. }
  unfold commit_checks. cbn. rewrite (jw_entries _ _ _ _ _ _ _ Hw), (jw_postings _ _ _ _ _ _ _ Hw).
  rewrite !drop_app_length. cbn. rewrite Hi.
  assert (Hps : forall q, q ∈ ps -> jp_journalEntryId q = je_id e).
  { intros q Hq. by destruct (jw_elem _ _ _ _ _ _ _ Hw q Hq) as (ip & _ & i & ->). }
  clear -Hi Hps. induction ps as [|q ps IH]; [done|]. cbn. rewrite (Hps q) by (by left).
  rewrite Hi. apply IH. intros q' Hq'. apply Hps. by right.
Qed.
End JournalProperties.
