(* ===== verification/Accounts.v ===== *)
(** * Customer accounts ([services/ledger/src/accounts]) *)

From Stdlib Require Import ZArith Lia Ascii String.
From stdpp Require Import base strings list numbers gmap sorting.
From S2P Require Import Prelude.
From S2P Require Import Js.
From S2P Require Import Regex.
From S2P Require Import Contracts.
From S2P Require Import Security.
From S2P Require Import LedgerDb.
From S2P Require Import Idempotency.
From S2P Require Import Journal.
From S2P Require Import JournalProofs.
From S2P Require Import JournalProperties.

Open Scope Z_scope.

(** ** Public references ([account-reference.ts]) *)
Definition REFERENCE_ALPHABET : string := "ABCDEFGHJKLMNPQRSTUVWXYZ23456789".
Definition GROUP_LENGTH : nat := 4.
Definition GROUP_COUNT : nat := 3.

Section References.
(** [randomInt(32)]: the i-th draw of one call of [generatePublicAccountReference]. *)
Variable draw : nat -> nat.

Definition alphabet_at (i : nat) : string := slice i (i + 1) REFERENCE_ALPHABET.
Fixpoint randomGroup (start n : nat) : string :=
  match n with
  | O => ""
  | S n' => alphabet_at (draw start) +:+ randomGroup (S start) n'
  end.
Definition generatePublicAccountReference : string :=
  "AEGIS-" +:+ join "-" (map (fun g => randomGroup (g * GROUP_LENGTH) GROUP_LENGTH) (seq 0 GROUP_COUNT)).
End References.

(** [maskAccountReference]: [None] is the TypeError. *)
Definition maskAccountReference (publicReference : string) : option string :=
  let groups := split_on "-" publicReference in
  match last groups with
  | Some lastGroup =>
      if negb (length groups =? GROUP_COUNT + 1)%nat || String.eqb lastGroup ""
      then None else Some ("AEGIS-****-****-" +:+ lastGroup)
  | None => None
  end.

(** ** The service ([account.service.ts]) *)
Record AccountRow := mkRow {
  row_account : CustomerAccount;
  row_class : LedgerAccountClass;
  row_projection : option BalanceProjection
}.

Definition MAX_REFERENCE_ATTEMPTS : nat := 5.

Section Accounts.
Context {zod : Zod} {crypto : Crypto} {pg : Postgres}.
Variable config : LedgerConfig.
Variable now : Z.
(** [draws attempt i]: the random integers of each attempt. *)
Variable draws : nat -> nat -> nat.

(** [ACCOUNT_SELECTION]: the account with its ledger account and projection. *)
Definition account_row (db : LedgerDb) (c : CustomerAccount) : option AccountRow :=
  a ← ledgerAccounts db !! ca_ledgerAccountId c;
  Some (mkRow c (la_accountClass a) (balanceProjections db !! ca_ledgerAccountId c)).

Definition balanceMinor (row : AccountRow) : result LedgerErr Z :=
  match row_projection row with
  | None => Err (JsError "Ledger account is missing its balance projection.")
  | Some p => Ok (signedBalanceMinor (row_class row) (bp_debitTotalMinor p) (bp_creditTotalMinor p))
  end.

Definition toSummary (row : AccountRow) : CustomerAccountSummary :=
  let c := row_account row in
  mkAccountSummary (ca_id c) (ca_maskedReference c) (ca_productType c) (ca_status c)
    (ca_currency c) (toISOString (ca_createdAt c)).

Definition toDetail (row : AccountRow) : result LedgerErr CustomerAccountDetail :=
  balance ← balanceMinor row;
  mret (mkAccountDetail (toSummary row)
          (mkMoney (ca_currency (row_account row)) (serializeMinorUnits balance))
          (ca_publicReference (row_account row))).

Definition find_customer (f : CustomerAccount -> bool) : DbM (option CustomerAccount) :=
  gets (fun db => find f (customerAccounts db)).
(** The selection of an account that a statement returned. *)
Definition select_row (c : CustomerAccount) : DbM AccountRow :=
  db ← get; require (account_row db c) (DbError "inconsistent join").

Fixpoint createAccount_loop (customerId : string) (productType : AccountProductType)
  (currency : string) (attempts : list nat) : DbM AccountRow :=
  match attempts with
  | [] => throw (JsError "Could not allocate a unique public account reference.")
  | attempt :: rest =>
      let publicReference := generatePublicAccountReference (draws attempt) in
      collision ← find_customer (fun c => String.eqb (ca_publicReference c) publicReference);
      match collision with
      | Some _ => createAccount_loop customerId productType currency rest
      | None =>
          masked ← require (maskAccountReference publicReference)
                     (JsError "Public account reference format is invalid.");
          ledgerAccountId ← create_ledger_account now
            (mkLedgerAccount ("CUST-" +:+ publicReference) ("Customer wallet " +:+ masked) currency
               LIABILITY CREDIT None false now);
          account ← create_customer_account (fun id =>
            mkCustomerAccount id customerId publicReference masked productType currency ACTIVE
              ledgerAccountId now);
          select_row account
      end
  end.
Definition createAccount (customerId : string) (productType : AccountProductType) (currency : string)
  : DbM AccountRow := createAccount_loop customerId productType currency (seq 0 MAX_REFERENCE_ATTEMPTS).

Definition has_identity (customerId : string) (productType : AccountProductType) (currency : string)
  (c : CustomerAccount) : bool :=
  String.eqb (ca_customerId c) customerId && bool_decide (ca_productType c = productType)
  && String.eqb (ca_currency c) currency.

(** The transaction body of [provisionDefault]. The advisory lock
    [advisoryLockKey('customer-account:' + identity)] only delays: a transaction is one step here. *)
Definition provision_run (customerId : string) (productType : AccountProductType) (currency : string)
  : DbM ProvisionDefaultAccountResult :=
  existing ← find_customer (has_identity customerId productType currency);
  match existing with
  | Some existing =>
      row ← select_row existing;
      detail ← lift_result (toDetail row);
      mret (mkProvisionResult detail false)
  | None =>
      created ← createAccount customerId productType currency;
      detail ← lift_result (toDetail created);
      mret (mkProvisionResult detail true)
  end.

Definition decode_provision (body : ResponseBody) : option ProvisionDefaultAccountResult :=
  match body with RProvision r => provisionDefaultAccountResultSchema r | RJournal _ => None end.

Definition provisionDefault (input : InternalProvisionDefaultAccountInput)
  : LedgerM ProvisionDefaultAccountResult :=
  let customerId := pi_customerId input in
  let productType := pi_productType input in
  let currency := pi_currency input in
  outcome ← execute config now defaultCustomerAccount (pi_idempotencyKey input)
    (JObj [("customerId", JStr customerId); ("productType", JStr (productType_str productType));
           ("currency", JStr currency)])
    (provision_run customerId productType currency) RProvision decode_provision;
  mret (result_of outcome).

(** [findMany({ orderBy: { createdAt: 'asc' }, take: 32 })] *)
Definition by_creation : list CustomerAccount -> list CustomerAccount :=
  sort_by_Z ca_createdAt.
Definition listForCustomer (customerId : string) : DbM (list CustomerAccountSummary) :=
  rows ← gets (fun db => omap (account_row db)
    (take 32 (by_creation (filter (fun c => ca_customerId c = customerId) (customerAccounts db)))));
  mret (toSummary <$> rows).

Definition requireOwnedAccount (customerId accountId : string) : DbM AccountRow :=
  row ← find_customer (fun c => String.eqb (ca_id c) accountId && String.eqb (ca_customerId c) customerId);
  c ← require row accountNotFoundError;
  select_row c.

Definition getForCustomer (customerId accountId : string) : DbM CustomerAccountDetail :=
  row ← requireOwnedAccount customerId accountId;
  lift_result (toDetail row).

Definition getBalanceForCustomer (customerId accountId : string) : DbM AccountBalance :=
  row ← requireOwnedAccount customerId accountId;
  balance ← lift_result (balanceMinor row);
  let c := row_account row in
  mret (mkAccountBalance (ca_id c) (mkMoney (ca_currency c) (serializeMinorUnits balance))
          (toISOString (match row_projection row with
                        | Some p => bp_updatedAt p
                        | None => ca_createdAt c
                        end))).
End Accounts.

(** * Provisioning: new wallets start empty and keep the invariant *)

Section Statements.
Context {pg : Postgres}.

Lemma create_ledger_account_ok now a db id db' : create_ledger_account now a db = (Ok id, db') ->
  ledgerAccounts db !! id = None /\
  db' = set_projections (fun m => match m !! id with Some _ => m
                                  | None => <[id := mkProjection 0 0 0 now]> m end)
          (set_accounts <[id := a]> (set_uuid N.succ db)).
Proof.
  intros H. unfold create_ledger_account in H. db_run. bool_to_Z.
  split; [|done]. by apply eq_None_not_Some.
Qed.

Lemma create_customer_account_ok f db a db' : create_customer_account f db = (Ok a, db') ->
  a = f (uuid (uuidCounter db)) /\
  db' = set_customers (fun l => l ++ [a]) (set_uuid N.succ db) /\
  (forall x, x ∈ customerAccounts db ->
     ca_publicReference x <> ca_publicReference a /\
     ca_ledgerAccountId x <> ca_ledgerAccountId a /\
     customer_identity x <> customer_identity a).
Proof.
  intros H. unfold create_customer_account in H. db_run. split; [done|]. split; [done|].
  intros x Hx. use_forallb Hx. split; [done|]. split; [done|]. unfold customer_identity.
  intros [[E1 E2]%pair_eq E3]%pair_eq. rewrite <- E1, <- E2, <- E3 in *.
  repeat match goal with H : _ && _ = false |- _ => apply andb_false_iff in H as [H|H] end;
    bool_to_Z; congruence.
Qed.
End Statements.

(** The accounts that the postings of a well-formed database mention. *)
Lemma account_total_absent db id d : LedgerCore db -> ledgerAccounts db !! id = None ->
  account_total db id d = 0.
Proof.
  intros H Hid. unfold account_total. rewrite (sum_by_ext _ (fun _ => 0)); [apply sum_by_zero|].
  intros p Hp. unfold on_account. rewrite decide_False; [done|]. intros <-.
  destruct (inv_postings _ H p Hp) as (_ & _ & [a Ha]). congruence.
Qed.

Lemma existsb_same {A} (f g : A -> bool) l : (forall x, x ∈ l -> f x = g x) -> existsb f l = existsb g l.
Proof.
  induction l as [|x l IH]; intros H; [done|]. cbn. rewrite (H x) by (by left). f_equal.
  apply IH. intros y Hy. apply H. by right.
Qed.

Section Wallets.
Context (db : LedgerDb) (id : string) (a : LedgerAccount) (now : Z).
Hypothesis Hcore : LedgerCore db.
Hypothesis Hfresh : ledgerAccounts db !! id = None.

Let db' := set_projections (fun m => match m !! id with Some _ => m
                                     | None => <[id := mkProjection 0 0 0 now]> m end)
             (set_accounts <[id := a]> (set_uuid N.succ db)).

Lemma wallet_projections : balanceProjections db' =
  <[id := mkProjection 0 0 0 now]> (balanceProjections db).
Proof.
  unfold db'. cbn. destruct (balanceProjections db !! id) eqn:Hb; [|done].
  assert (is_Some (ledgerAccounts db !! id)) as [? ?] by (apply Hcore; by eexists). congruence.
Qed.

Lemma wallet_integrity e : e ∈ journalEntries db -> assert_journal_integrity db' (je_id e) = None.
Proof.
  intros He. pose proof (inv_entries _ Hcore e He) as Hi. unfold assert_journal_integrity in *.
  change (find_entry db' (je_id e)) with (find_entry db (je_id e)).
  change (entry_postings db' (je_id e)) with (entry_postings db (je_id e)).
  change (ledgerAccounts db') with (<[id:=a]> (ledgerAccounts db)).
  destruct (find_entry db (je_id e)); [|done]. etransitivity; [|exact Hi].
  rewrite (existsb_same (fun p => match <[id:=a]> (ledgerAccounts db) !! jp_ledgerAccountId p with
    | Some a => negb (String.eqb (la_currency a) (jp_currency p)) | None => false end)
    (fun p => match ledgerAccounts db !! jp_ledgerAccountId p with
    | Some a => negb (String.eqb (la_currency a) (jp_currency p)) | None => false end)); [done|].
  intros q Hq. unfold entry_postings in Hq. apply list_elem_of_filter in Hq as [_ Hq].
  rewrite lookup_insert_ne; [done|]. intros Heq.
  destruct (inv_postings _ Hcore q Hq) as (_ & _ & [b Hb]). congruence.
Qed.

Lemma wallet_core : la_allowNegativeBalance a = false -> LedgerCore db'.
Proof.
  intros Hneg. pose proof wallet_projections as Hp. destruct Hcore as [H1 H2 H3 H4 H5 H6 H7 H8 H9 H10].
  assert (Hne : forall k, is_Some (ledgerAccounts db !! k) -> k <> id).
  { intros k [b Hb] ->. congruence. }
  constructor; rewrite ?Hp; try done; cbn.
  - intros k. destruct (decide (k = id)) as [->|].
    + rewrite !lookup_insert_eq. split; by eexists.
    + rewrite !lookup_insert_ne by done. apply H1.
  - intros k b. destruct (decide (k = id)) as [->|].
    + rewrite lookup_insert_eq. intros [= <-]. cbn.
      split; symmetry; by apply (account_total_absent db id).
    + rewrite lookup_insert_ne by done. apply H2.
  - apply wallet_integrity.
  - intros q Hq. unfold posting_wf. cbn. destruct (H5 q Hq) as (? & ? & Hs). split; [done|].
    split; [done|]. rewrite lookup_insert_ne; [done|]. symmetry. by apply Hne.
  - intros k la b. destruct (decide (k = id)) as [->|].
    + rewrite !lookup_insert_eq. intros [= <-] [= <-] _. cbn. unfold signedBalanceMinor.
      by destruct (DEBIT_POSITIVE_CLASSES _).
    + rewrite !lookup_insert_ne by done. apply H6.
  - intros c Hc. destruct (H7 c Hc) as (la & Hla & ?). exists la. cbn. split; [|done].
    rewrite lookup_insert_ne; [done|]. symmetry. apply Hne. by eexists.
Qed.
End Wallets.

Lemma customer_core db c f : LedgerCore db -> customer_backed db c ->
  (forall x, x ∈ customerAccounts db ->
     ca_publicReference x <> ca_publicReference c /\ ca_ledgerAccountId x <> ca_ledgerAccountId c /\
     customer_identity x <> customer_identity c) ->
  LedgerCore (set_customers (fun l => l ++ [c]) (set_uuid f db)).
Proof.
  intros [H1 H2 H3 H4 H5 H6 H7 H8 H9 H10] Hb Hne. constructor; try done; cbn.
  - intros x Hx. apply elem_of_app in Hx as [Hx| ->%list_elem_of_singleton]; [by apply H7|done].
  - rewrite fmap_app. apply NoDup_app. split; [done|]. split; [|apply NoDup_singleton].
    intros x (y & -> & Hy)%list_elem_of_fmap Hx%list_elem_of_singleton. by destruct (Hne y Hy) as (_ & _ & ?).
  - rewrite fmap_app. apply NoDup_app. split; [done|]. split; [|apply NoDup_singleton].
    intros x (y & -> & Hy)%list_elem_of_fmap Hx%list_elem_of_singleton. by destruct (Hne y Hy) as (? & _).
  - rewrite fmap_app. apply NoDup_app. split; [done|]. split; [|apply NoDup_singleton].
    intros x (y & -> & Hy)%list_elem_of_fmap Hx%list_elem_of_singleton. by destruct (Hne y Hy) as (_ & ? & _).
Qed.

Section Provision.
Context {zod : Zod} {crypto : Crypto} {pg : Postgres}.
Variable config : LedgerConfig.
Variable now : Z.
Variable draws : nat -> nat -> nat.

(** What a created account leaves in the database. *)
Record wallet_created (db db' : LedgerDb) (c : CustomerAccount) : Prop := {
  wc_core : LedgerCore db -> LedgerCore db';
  wc_records : idempotencyRecords db' = idempotencyRecords db;
  wc_entries : journalEntries db' = journalEntries db;
  wc_postings : journalPostings db' = journalPostings db;
  wc_customers : customerAccounts db' = customerAccounts db ++ [c];
  wc_balance : LedgerCore db -> account_balance db' (ca_ledgerAccountId c) = Some 0
}.

Lemma createAccount_ok cust pt cur attempts db row db' :
  createAccount_loop now draws cust pt cur attempts db = (Ok row, db') ->
  exists c, wallet_created db db' c /\ customer_identity c = (cust, pt, cur) /\
    ca_status c = ACTIVE /\ account_row db' c = Some row.
Proof.
  induction attempts as [|n l IH]; cbn [createAccount_loop]; intros H; [done|].
  unfold find_customer in H. run. case_match; [by apply IH|]. run.
  repeat match goal with
  | H : create_ledger_account _ _ _ = _ |- _ => apply create_ledger_account_ok in H as [Hnone ->]
  | H : create_customer_account _ _ = _ |- _ => apply create_customer_account_ok in H as (Hc & -> & Hne)
  | H : select_row _ _ = _ |- _ => unfold select_row in H
  end. db_run.
  match goal with H : account_row _ ?c = Some _ |- _ => exists c end.
  split; [|split_and!; [by rewrite Hc|by rewrite Hc|done]].
  constructor; try done.
  - intros Hcore. apply customer_core; [by apply wallet_core| |done].
    rewrite Hc. eexists. cbn. rewrite lookup_insert_eq. done.
  - intros Hcore. rewrite Hc. unfold account_balance. cbn. rewrite lookup_insert_eq. cbn.
    pose proof (wallet_projections db x1 (mkLedgerAccount ("CUST-" +:+
      generatePublicAccountReference (draws n)) ("Customer wallet " +:+ s) cur LIABILITY CREDIT None
      false now) now Hcore Hnone) as Hp. cbn in Hp. by rewrite Hp, lookup_insert_eq.
Qed.

Lemma provision_run_ok cust pt cur db r db' :
  provision_run now draws cust pt cur db = (Ok r, db') ->
  (pv_created r = true /\ (forall x, x ∈ customerAccounts db -> customer_identity x <> (cust, pt, cur)) /\
     exists c, wallet_created db db' c /\ customer_identity c = (cust, pt, cur) /\
       (LedgerCore db -> minorUnits (cad_balance (pv_account r)) = "0"%string)) \/
  (pv_created r = false /\ db' = db /\
     exists c, c ∈ customerAccounts db /\ customer_identity c = (cust, pt, cur)).
Proof.
  intros H. unfold provision_run, find_customer in H. run.
  destruct (find _ (customerAccounts db)) as [c|] eqn:Hf.
  - right. run. unfold select_row in *. db_run. split; [done|]. split; [done|].
    apply find_some in Hf as [Hin%list_elem_of_In Hid]. exists c. split; [done|].
    unfold has_identity in Hid. bool_to_Z. unfold customer_identity. congruence.
  - left. run. unfold createAccount in *.
    match goal with H : createAccount_loop _ _ _ _ _ _ _ = _ |- _ =>
      apply createAccount_ok in H as (c & Hw & Hid & _ & Hrow) end.
    split; [done|]. split.
    + intros y Hy%list_elem_of_In Heq. pose proof (find_none _ _ Hf y Hy) as Hb. cbn in Hb.
      unfold has_identity in Hb. unfold customer_identity in Heq. injection Heq as E1 E3.
      rewrite E1, E3, !String.eqb_refl in Hb. by destruct (ca_productType y), pt.
    + exists c. split; [done|]. split; [done|]. intros Hcore. cbn.
      pose proof (wc_balance _ _ _ Hw Hcore) as Hb. unfold account_balance in Hb.
      unfold account_row in Hrow. destruct (ledgerAccounts _ !! _); [|done].
      injection Hrow as <-.
      match goal with H : toDetail _ = Ok _ |- _ => unfold toDetail, balanceMinor in H; cbn in H end.
      destruct (balanceProjections _ !! _); [|done].
      match goal with H : _ = Ok _ |- _ => injection H as <- end. cbn in *.
      injection Hb as ->. done.
Qed.

Lemma provision_run_core cust pt cur db r db' : LedgerCore db ->
  provision_run now draws cust pt cur db = (Ok r, db') ->
  LedgerCore db' /\ idempotencyRecords db' = idempotencyRecords db.
Proof.
  intros Hcore [(_ & _ & c & Hw & _)|(_ & -> & _)]%provision_run_ok; [|done].
  split; [by apply Hw|apply Hw].
Qed.
Lemma provision_run_records cust pt cur db r db' :
  provision_run now draws cust pt cur db = (Ok r, db') ->
  idempotencyRecords db' = idempotencyRecords db.
Proof. intros [(_ & _ & c & Hw & _)|(_ & -> & _)]%provision_run_ok; [apply Hw|done]. Qed.

Lemma provision_keeps_inv input :
  preserves (world_inv LedgerInv) (provisionDefault config now draws input).
Proof.
  unfold provisionDefault. cbn zeta. apply preserves_bind; [|intros o; apply preserves_ret].
  apply execute_preserves. intros keyHash h. apply execute_tx_inv.
  - intros d r d'. apply provision_run_core.
  - intros d r d'. apply provision_run_records.
Qed.

Lemma provision_keeps_record k rec input :
  preserves (world_inv (has_record k rec)) (provisionDefault config now draws input).
Proof.
  unfold provisionDefault. cbn zeta. apply preserves_bind; [|intros o; apply preserves_ret].
  apply execute_preserves. intros keyHash h. apply execute_tx_record. intros d r d'. apply provision_run_records.
Qed.

(** Under a fresh key, provisioning either returns the customer's existing
    account and adds none, or adds exactly one account, for an identity that
    had none, with a balance of zero and without writing any journal. *)
Theorem provision_effect input db r w' :
  LedgerInv db ->
  idempotencyRecords db !! record_key defaultCustomerAccount (sha256 (pi_idempotencyKey input)) = None ->
  provisionDefault config now draws input (quiet db) = (Ok r, w') ->
  let identity := (pi_customerId input, pi_productType input, pi_currency input) in
  journalEntries (wdb w') = journalEntries db /\
  (if pv_created r then
     (identity ∉ (customer_identity <$> customerAccounts db)) /\
     exists c, customerAccounts (wdb w') = customerAccounts db ++ [c] /\
       customer_identity c = identity /\
       account_balance (wdb w') (ca_ledgerAccountId c) = Some 0 /\
       minorUnits (cad_balance (pv_account r)) = "0"%string
   else customerAccounts (wdb w') = customerAccounts db /\
        (identity ∈ (customer_identity <$> customerAccounts db))).
Proof.
  intros [Hcore _] Hnone H. cbn zeta. unfold provisionDefault in H. cbn zeta in H. run.
  match goal with H : execute _ _ _ _ _ _ _ _ _ = _ |- _ =>
    apply execute_fresh in H as (h & _ & _ & Htx & _); [|done] end.
  apply execute_tx_ok in Htx as (_ & db2 & Hrun & -> & _); [|intros ? ? ?; apply provision_run_records].
  assert (Hcore1 : forall f, LedgerCore (set_records f (set_uuid N.succ db)))
    by (intros f; by apply LedgerCore_records, LedgerCore_uuid).
  apply provision_run_ok in Hrun as [(-> & Hn & c & Hw & Hid & Hb)|(-> & -> & c & Hc & Hid)].
  - split; [apply Hw|]. split.
    + intros (y & Hy & Hin)%list_elem_of_fmap. by apply (Hn y).
    + exists c. split; [apply Hw|]. split; [done|]. split; [|by apply Hb].
      by apply (wc_balance _ _ _ Hw).
  - split; [done|]. split; [done|]. rewrite <- Hid. by apply list_elem_of_fmap_2.
Qed.
End Provision.
