(* ===== verification/CustomerTransfer.v ===== *)
(** * Customer transfers and channel operations of the Ledger
    ([services/ledger/src/transfers], [services/ledger/src/channels]) *)

From Stdlib Require Import ZArith Lia Ascii String.
From stdpp Require Import base strings list gmap sorting.
From S2P Require Import Prelude.
From S2P Require Import Js.
From S2P Require Import Regex.
From S2P Require Import Contracts.
From S2P Require Import Security.
From S2P Require Import LedgerDb.
From S2P Require Import Idempotency.
From S2P Require Import Journal.
From S2P Require Import JournalProofs.
From S2P Require Import JournalProperties.

Open Scope Z_scope.

(** ** Contracts ([payments/v1.ts]) *)
Record InternalTransferPreview := mkTransferPreview {
  tp_senderCustomerId : string;
  tp_sourceAccountId : string;
  tp_recipientReference : string;
  tp_amountMinor : string;
  tp_currency : string
}.
Record InternalTransferPreviewResult := mkTransferPreviewResult {
  tpr_sourceAccountId : string;
  tpr_sourceMaskedReference : string;
  tpr_sourceBalance : Money;
  tpr_recipientAccountId : string;
  tpr_recipientCustomerId : string;
  tpr_recipientMaskedReference : string;
  tpr_currency : string
}.
Record InternalLedgerTransferCommand := mkTransferCommand {
  tc_preview : InternalTransferPreview;
  tc_transferId : string;
  tc_transferReference : string;
  tc_idempotencyKey : string
}.
Record InternalLedgerTransferResult := mkTransferResult {
  tr_journalId : string;
  tr_senderPostingId : string;
  tr_recipientPostingId : string;
  tr_senderAccountId : string;
  tr_recipientAccountId : string;
  tr_senderMaskedReference : string;
  tr_recipientMaskedReference : string;
  tr_senderBalanceAfter : Money;
  tr_recipientBalanceAfter : Money;
  tr_currency : string;
  tr_amount : Money;
  tr_postedAt : string
}.

Section Commands.
Context {zod : Zod}.

Definition internalTransferPreviewSchema (i : InternalTransferPreview) : option InternalTransferPreview :=
  if z_uuid (tp_senderCustomerId i) && z_uuid (tp_sourceAccountId i) then
    r ← publicAccountReferenceSchema (tp_recipientReference i);
    a ← positiveMinorUnitsSchema (tp_amountMinor i);
    c ← currencyCodeSchema (tp_currency i);
    Some (mkTransferPreview (tp_senderCustomerId i) (tp_sourceAccountId i) r a c)
  else None.

Definition internalLedgerTransferCommandSchema (i : InternalLedgerTransferCommand)
  : option InternalLedgerTransferCommand :=
  p ← internalTransferPreviewSchema (tc_preview i);
  if z_uuid (tc_transferId i) then
    r ← transferDisplayReferenceSchema (tc_transferReference i);
    k ← paymentKeySchema (tc_idempotencyKey i);
    Some (mkTransferCommand p (tc_transferId i) r k)
  else None.
End Commands.

(** A customer account with its ledger account and projection. *)
Record Account := mkAccount {
  ac_row : CustomerAccount;
  ac_ledger : LedgerAccount;
  ac_projection : option BalanceProjection
}.
Definition with_ledger (db : LedgerDb) (c : CustomerAccount) : option Account :=
  a ← ledgerAccounts db !! ca_ledgerAccountId c;
  Some (mkAccount c a (balanceProjections db !! ca_ledgerAccountId c)).

Section Transfers.
Context {zod : Zod} {crypto : Crypto} {pg : Postgres}.
Variable config : LedgerConfig.
Variable now : Z.

(** [findFirst({ where: { id, customerId } })] and [findUnique({ where: { publicReference } })] *)
Definition find_owned (accountId customerId : string) : DbM (option Account) :=
  gets (fun db => c ← find (fun c => String.eqb (ca_id c) accountId &&
                                     String.eqb (ca_customerId c) customerId) (customerAccounts db);
                  with_ledger db c).
Definition find_reference (reference : string) : DbM (option Account) :=
  gets (fun db => c ← find (fun c => String.eqb (ca_publicReference c) reference) (customerAccounts db);
                  with_ledger db c).

Definition resolve (input : InternalTransferPreview) : LedgerM (Account * Account) :=
  source ← atomically (find_owned (tp_sourceAccountId input) (tp_senderCustomerId input));
  recipient ← atomically (find_reference (tp_recipientReference input));
  source ← require source accountNotFoundError;
  recipient ← require recipient
    (LedgerError "ACCOUNT_NOT_FOUND" "The transfer recipient is unavailable." 409);
  let s := ac_row source in let r := ac_row recipient in
  _ ← throw_when (negb (bool_decide (ca_status s = ACTIVE)) || negb (bool_decide (ca_status r = ACTIVE)))
        accountNotActiveError;
  _ ← throw_when (String.eqb (ca_id s) (ca_id r))
        (LedgerError "SELF_TRANSFER" "A transfer cannot use the same account." 409);
  _ ← throw_when (negb (String.eqb (ca_currency s) (ca_currency r))
                  || negb (String.eqb (ca_currency s) (tp_currency input))) currencyMismatchError;
  mret (source, recipient).

Definition balance (account : Account) : result LedgerErr Z :=
  match ac_projection account with
  | None => Err accountNotFoundError
  | Some p => Ok (signedBalanceMinor (la_accountClass (ac_ledger account))
                    (bp_debitTotalMinor p) (bp_creditTotalMinor p))
  end.

Definition preview (input : InternalTransferPreview) : LedgerM InternalTransferPreviewResult :=
  '(source, recipient) ← resolve input;
  b ← lift_result (balance source);
  let s := ac_row source in let r := ac_row recipient in
  mret (mkTransferPreviewResult (ca_id s) (ca_maskedReference s)
          (mkMoney (ca_currency s) (serializeMinorUnits b)) (ca_id r) (ca_customerId r)
          (ca_maskedReference r) (ca_currency s)).

(** The journal request of a transfer. *)
Definition transfer_request (input : InternalLedgerTransferCommand) (source recipient : string)
  : InternalJournalRequest :=
  let p := tc_preview input in
  mkJournalRequest (Some (tc_transferReference input)) CUSTOMER_TRANSFER (tp_currency p)
    (Some "Customer transfer"%string) None (tc_idempotencyKey input)
    [mkPostingRequest source DEBIT (tp_amountMinor p);
     mkPostingRequest recipient CREDIT (tp_amountMinor p)]
    (Some [("transferId", JStr (tc_transferId input));
           ("transferReference", JStr (tc_transferReference input))]).

Definition payments_actor : JournalActor := mkActor "SERVICE" "payments".

Definition find_projection (id : string) : DbM BalanceProjection :=
  db ← get; require (balanceProjections db !! id) (DbError "P2025").
Definition liability_money (currency : string) (p : BalanceProjection) : Money :=
  mkMoney currency (serializeMinorUnits
    (signedBalanceMinor LIABILITY (bp_debitTotalMinor p) (bp_creditTotalMinor p))).
Definition find_posting (id : string) (r : JournalResult) : option JournalPostingResult :=
  find (fun p => String.eqb (ps_ledgerAccountId p) id) (jres_postings r).

Definition transfer (input : InternalLedgerTransferCommand) (correlationId : string)
  : LedgerM InternalLedgerTransferResult :=
  let p := tc_preview input in
  '(source, recipient) ← resolve p;
  let s := ac_row source in let r := ac_row recipient in
  let amount := BigInt (tp_amountMinor p) in
  _ ← throw_when (amount <=? 0) (LedgerError "INVALID_REQUEST" "The request is invalid." 400);
  b ← lift_result (balance source);
  _ ← throw_when (b <? amount) insufficientFundsError;
  journal ← post config now
    (transfer_request input (ca_ledgerAccountId s) (ca_ledgerAccountId r)) correlationId payments_actor;
  senderPosting ← require (find_posting (ca_ledgerAccountId s) journal) accountNotFoundError;
  recipientPosting ← require (find_posting (ca_ledgerAccountId r) journal) accountNotFoundError;
  sourceAfter ← atomically (find_projection (ca_ledgerAccountId s));
  recipientAfter ← atomically (find_projection (ca_ledgerAccountId r));
  mret (mkTransferResult (jres_id journal) (ps_id senderPosting) (ps_id recipientPosting)
          (ca_id s) (ca_id r) (ca_maskedReference s) (ca_maskedReference r)
          (liability_money (ca_currency s) sourceAfter) (liability_money (ca_currency r) recipientAfter)
          (tp_currency p) (mkMoney (tp_currency p) (tp_amountMinor p)) (jres_createdAt journal)).

(** The HTTP handler [POST /internal/customer-transfers]: the body is parsed first. *)
Definition transfer_endpoint (body : InternalLedgerTransferCommand) (correlationId : string)
  : LedgerM InternalLedgerTransferResult :=
  input ← require (internalLedgerTransferCommandSchema body) invalidRequestError;
  transfer input correlationId.
Definition preview_endpoint (body : InternalTransferPreview) : LedgerM InternalTransferPreviewResult :=
  input ← require (internalTransferPreviewSchema body) invalidRequestError;
  preview input.

(** ** Channel operations ([channel-operations.service.ts]) *)
Record QrPaymentInput := mkQrPaymentInput {
  qp_sourceAccountId : string;
  qp_recipientAccountId : string;
  qp_currency : string;
  qp_amountMinor : string;
  qp_transferReference : string;
  qp_transferId : string;
  qp_idempotencyKey : string
}.
Record AgentCashInput := mkAgentCashInput {
  aci_customerAccountId : string;
  aci_currency : string;
  aci_amountMinor : string;
  aci_operationReference : string;
  aci_operationId : string;
  aci_agentId : string;
  aci_idempotencyKey : string
}.

Definition resolveAccountByReference (publicReference : string) : LedgerM (string * string * string) :=
  account ← atomically (gets (fun db =>
    find (fun c => String.eqb (ca_publicReference c) publicReference) (customerAccounts db)));
  a ← require account accountNotFoundError;
  mret (ca_id a, ca_customerId a, ca_maskedReference a).

Definition getCustomerAccount (accountId : string) : LedgerM Account :=
  acc ← atomically (gets (fun db =>
    c ← find (fun c => String.eqb (ca_id c) accountId) (customerAccounts db); with_ledger db c));
  acc ← require acc accountNotFoundError;
  _ ← throw_when (negb (bool_decide (ca_status (ac_row acc) = ACTIVE))) accountNotActiveError;
  mret acc.

Definition is_system (type : SystemAccountType) (currency : string) (kv : string * LedgerAccount) : bool :=
  bool_decide (la_systemAccountType kv.2 = Some type) && String.eqb (la_currency kv.2) currency.
Definition getSystemAccount (type : SystemAccountType) (currency : string) : LedgerM string :=
  acc ← atomically (gets (fun db => find (is_system type currency) (map_to_list (ledgerAccounts db))));
  acc ← require acc (LedgerError "INTERNAL_ERROR" "System account not found" 500);
  mret acc.1.

Definition channel_request (type : JournalEntryType) (description reference currency amount key : string)
  (debit credit : string) (metadata : list (string * json)) : InternalJournalRequest :=
  mkJournalRequest (Some reference) type currency (Some description) None key
    [mkPostingRequest debit DEBIT amount; mkPostingRequest credit CREDIT amount] (Some metadata).

(** [BigInt(text)] throws a SyntaxError on text that is not an integer; the
    channel controllers do not validate their bodies. *)
Definition hex_char (c : ascii) : bool :=
  is_digit c || in_range "a" "f" c || in_range "A" "F" c.
Fixpoint radix_value (radix acc : Z) (s : string) : Z :=
  match s with EmptyString => acc | String c s' => radix_value radix (radix * acc + hex_value c) s' end.
Definition parse_radix (radix : Z) (ok : ascii -> bool) (t : string) : option Z :=
  let digits := str_drop 2 t in
  if (1 <=? String.length digits)%nat && str_all ok digits then Some (radix_value radix 0 digits) else None.
Definition parse_bigint (text : string) : option Z :=
  let t := trim text in
  if String.eqb t "" then Some 0
  else if is_prefix "0x" t || is_prefix "0X" t then parse_radix 16 hex_char t
  else if is_prefix "0o" t || is_prefix "0O" t then parse_radix 8 (in_range "0" "7") t
  else if is_prefix "0b" t || is_prefix "0B" t then parse_radix 2 (in_range "0" "1") t
  else
    let unsigned := if is_prefix "+" t then str_drop 1 t else t in
    if rx_match (opt (chr "-") · digit · Star digit)%rx unsigned
       && negb (is_prefix "+" t && is_prefix "-" unsigned)
    then Some (BigInt unsigned) else None.

Definition qrPayment (input : QrPaymentInput) (correlationId : string) : LedgerM string :=
  source ← getCustomerAccount (qp_sourceAccountId input);
  recipient ← getCustomerAccount (qp_recipientAccountId input);
  let s := ac_row source in let r := ac_row recipient in
  _ ← throw_when (String.eqb (ca_id s) (ca_id r))
        (LedgerError "SELF_TRANSFER" "Cannot transfer to self" 409);
  _ ← throw_when (negb (String.eqb (ca_currency s) (ca_currency r))
                  || negb (String.eqb (ca_currency s) (qp_currency input)))
        (LedgerError "CURRENCY_MISMATCH" "Currency mismatch" 409);
  amount ← require (parse_bigint (qp_amountMinor input)) (JsError "SyntaxError");
  _ ← throw_when (amount <=? 0) (LedgerError "INVALID_REQUEST" "Invalid amount" 400);
  b ← lift_result (balance source);
  _ ← throw_when (b <? amount) insufficientFundsError;
  journal ← post config now
    (channel_request QR_PAYMENT "QR Payment" (qp_transferReference input) (qp_currency input)
       (qp_amountMinor input) (qp_idempotencyKey input) (ca_ledgerAccountId s) (ca_ledgerAccountId r)
       [("transferId", JStr (qp_transferId input))]) correlationId payments_actor;
  mret (jres_id journal).

Definition agent_metadata (input : AgentCashInput) : list (string * json) :=
  [("operationId", JStr (aci_operationId input)); ("agentId", JStr (aci_agentId input))].

Definition agentCashIn (input : AgentCashInput) (correlationId : string) : LedgerM string :=
  customer ← getCustomerAccount (aci_customerAccountId input);
  float ← getSystemAccount AGENT_FLOAT (aci_currency input);
  amount ← require (parse_bigint (aci_amountMinor input)) (JsError "SyntaxError");
  _ ← throw_when (amount <=? 0) (LedgerError "INVALID_REQUEST" "Invalid amount" 400);
  journal ← post config now
    (channel_request AGENT_CASH_IN "Agent Cash In" (aci_operationReference input) (aci_currency input)
       (aci_amountMinor input) (aci_idempotencyKey input) float (ca_ledgerAccountId (ac_row customer))
       (agent_metadata input)) correlationId payments_actor;
  mret (jres_id journal).

Definition agentCashOut (input : AgentCashInput) (correlationId : string) : LedgerM string :=
  customer ← getCustomerAccount (aci_customerAccountId input);
  float ← getSystemAccount AGENT_FLOAT (aci_currency input);
  amount ← require (parse_bigint (aci_amountMinor input)) (JsError "SyntaxError");
  _ ← throw_when (amount <=? 0) (LedgerError "INVALID_REQUEST" "Invalid amount" 400);
  b ← lift_result (balance customer);
  _ ← throw_when (b <? amount) insufficientFundsError;
  journal ← post config now
    (channel_request AGENT_CASH_OUT "Agent Cash Out" (aci_operationReference input) (aci_currency input)
       (aci_amountMinor input) (aci_idempotencyKey input) (ca_ledgerAccountId (ac_row customer)) float
       (agent_metadata input)) correlationId payments_actor;
  mret (jres_id journal).
End Transfers.

(** * Customer transfers: who pays, who receives, and what a retry does *)

Section Transfers.
Context {zod : Zod} {crypto : Crypto} {pg : Postgres}.
Variable config : LedgerConfig.
Variable now : Z.

Lemma resolve_inv P input : preserves (world_inv P) (resolve input).
Proof.
  unfold resolve, find_owned, find_reference.
  repeat (cbn zeta; apply preserves_bind; [auto with preserve|intros ?]); auto with preserve.
Qed.

Lemma find_projection_inv P id : preserves P (find_projection id).
Proof.
  unfold find_projection. apply preserves_bind; [by intros db|intros db; apply preserves_require].
Qed.

Lemma find_projection_state id db : (find_projection id db).2 = db.
Proof. unfold find_projection, mbind, M_bind. cbn. by destruct (balanceProjections db !! id). Qed.

Lemma balance_read db c acc b : with_ledger db c = Some acc -> balance acc = Ok b ->
  account_balance db (ca_ledgerAccountId c) = Some b.
Proof.
  unfold with_ledger, balance, account_balance. destruct (ledgerAccounts db !! _); [|done].
  intros [= <-]. cbn. destruct (balanceProjections db !! _); [|done]. cbn. by intros [= <-].
Qed.

(** A customer transfer keeps the ledger invariant, whether it returns or
    throws, among other invariant-keeping transactions: in particular it can
    never overdraw the sender's wallet, although the balance it checks itself
    was read before the posting transaction. *)
Lemma transfer_keeps P input corr : (forall r corr actor, preserves (world_inv P) (post config now r corr actor)) ->
  preserves (world_inv P) (transfer config now input corr).
Proof.
  intros Hpost.
  unfold transfer. cbn zeta. apply preserves_bind; [apply resolve_inv|intros [s r]].
  do 3 (apply preserves_bind; [auto with preserve|intros ?]).
  apply preserves_bind; [apply Hpost|intros j].
  do 2 (apply preserves_bind; [auto with preserve|intros ?]).
  do 2 (apply preserves_bind; [apply preserves_atomically, find_projection_inv|intros ?]).
  apply preserves_ret.
Qed.
Lemma transfer_keeps_inv input corr : preserves (world_inv LedgerInv) (transfer config now input corr).
Proof. apply transfer_keeps. intros. apply post_keeps_inv. Qed.

Lemma find_some_elem {A} (f : A -> bool) l x : find f l = Some x -> x ∈ l /\ f x = true.
Proof. intros [Hin Hf]%find_some. split; [by apply list_elem_of_In|done]. Qed.

Lemma resolve_ok input db s r w : resolve input (quiet db) = (Ok (s, r), w) ->
  w = quiet db /\
  ac_row s ∈ customerAccounts db /\ with_ledger db (ac_row s) = Some s /\
  ac_row r ∈ customerAccounts db /\ with_ledger db (ac_row r) = Some r /\
  ca_id (ac_row s) = tp_sourceAccountId input /\ ca_customerId (ac_row s) = tp_senderCustomerId input /\
  ca_publicReference (ac_row r) = tp_recipientReference input /\
  ca_status (ac_row s) = ACTIVE /\ ca_status (ac_row r) = ACTIVE /\
  ca_id (ac_row s) <> ca_id (ac_row r) /\
  ca_currency (ac_row s) = tp_currency input /\ ca_currency (ac_row r) = tp_currency input.
Proof.
  intros H. unfold resolve in H. run.
  repeat match goal with
  | H : atomically _ (quiet _) = _ |- _ =>
      rewrite atomically_quiet in H; unfold find_owned, find_reference, gets in H; injection H as H <-
  end.
  bool_to_Z. destruct (find _ (customerAccounts db)) as [c1|] eqn:Hf1; [|done].
  destruct (find (fun c => String.eqb (ca_publicReference c) _) _) as [c2|] eqn:Hf2; [|done].
  apply find_some_elem in Hf1 as [Hf1 Hb1], Hf2 as [Hf2 Hb2]. bool_to_Z.
  assert (Hrow : forall c a, with_ledger db c = Some a -> ac_row a = c).
  { intros c acc Ha. unfold with_ledger in Ha. destruct (ledgerAccounts db !! _); [|done].
    by injection Ha as <-. }
  simpl in *. rewrite (Hrow _ _ Hs), (Hrow _ _ Hs0) in *. split_and!; congruence || done.
Qed.

(** The wallets of two different customer accounts are different. *)
Lemma wallets_differ db c1 c2 : LedgerCore db -> c1 ∈ customerAccounts db -> c2 ∈ customerAccounts db ->
  ca_id c1 <> ca_id c2 -> ca_ledgerAccountId c1 <> ca_ledgerAccountId c2.
Proof.
  intros H [i Hi]%list_elem_of_lookup [j Hj]%list_elem_of_lookup Hne Heq.
  assert (i = j) as ->; [|congruence].
  apply (NoDup_lookup (ca_ledgerAccountId <$> customerAccounts db) i j (ca_ledgerAccountId c1));
    [apply H| |]; rewrite list_lookup_fmap; [by rewrite Hi|by rewrite Hj, Heq].
Qed.

Lemma requested_pair s r amount : s <> r ->
  let ps := [mkPostingRequest s DEBIT amount; mkPostingRequest r CREDIT amount] in
  requested s DEBIT ps = BigInt amount /\ requested s CREDIT ps = 0 /\
  requested r DEBIT ps = 0 /\ requested r CREDIT ps = BigInt amount /\
  forall id d, id <> s -> id <> r -> requested id d ps = 0.
Proof.
  intros Hne. unfold requested. cbn zeta.
  split_and!; intros; rewrite !sum_by_cons, sum_by_nil; cbn [pr_ledgerAccountId pr_direction pr_amountMinor];
    repeat case_decide; congruence || lia.
Qed.

(** What the answer of a transfer says of the ledger it leaves. *)
Definition reported (input : InternalLedgerTransferCommand) (s r : CustomerAccount) (db : LedgerDb)
    (res : InternalLedgerTransferResult) : Prop :=
  (exists e, last (journalEntries db) = Some e /\ tr_journalId res = je_id e) /\
  tr_senderAccountId res = ca_id s /\ tr_recipientAccountId res = ca_id r /\
  tr_senderMaskedReference res = ca_maskedReference s /\ tr_recipientMaskedReference res = ca_maskedReference r /\
  tr_amount res = mkMoney (tp_currency (tc_preview input)) (tp_amountMinor (tc_preview input)) /\
  (toMoney (ca_currency s) <$> account_balance db (ca_ledgerAccountId s)) = Some (tr_senderBalanceAfter res) /\
  (toMoney (ca_currency r) <$> account_balance db (ca_ledgerAccountId r)) = Some (tr_recipientBalanceAfter res).
Lemma liability_balance db id la p cur : ledgerAccounts db !! id = Some la -> la_accountClass la = LIABILITY ->
  balanceProjections db !! id = Some p -> toMoney cur <$> account_balance db id = Some (liability_money cur p).
Proof. intros Hl Hc Hp. unfold account_balance. by rewrite Hl; cbn; rewrite Hp; cbn; rewrite Hc. Qed.
Lemma find_projection_ok id db b w : atomically (find_projection id) (quiet db) = (Ok b, w) ->
  balanceProjections db !! id = Some b /\ w = quiet db.
Proof.
  rewrite atomically_quiet. unfold find_projection, mbind, M_bind. cbn. destruct (balanceProjections db !! id); [|done].
  by intros [= -> <-].
Qed.

Lemma transfer_moves input corr db res w' :
  LedgerInv db ->
  idempotencyRecords db !! record_key journalEntry (sha256 (tc_idempotencyKey input)) = None ->
  transfer config now input corr (quiet db) = (Ok res, w') ->
  let amount := BigInt (tp_amountMinor (tc_preview input)) in
  exists s r, s ∈ customerAccounts db /\ r ∈ customerAccounts db /\
    ca_id s = tp_sourceAccountId (tc_preview input) /\
    ca_customerId s = tp_senderCustomerId (tc_preview input) /\
    ca_publicReference r = tp_recipientReference (tc_preview input) /\
    0 < amount /\
    (exists b, account_balance db (ca_ledgerAccountId s) = Some b /\ amount <= b /\
       account_balance (wdb w') (ca_ledgerAccountId s) = Some (b - amount)) /\
    account_balance (wdb w') (ca_ledgerAccountId r) =
      Z.add amount <$> account_balance db (ca_ledgerAccountId r) /\
    (forall id, id <> ca_ledgerAccountId s -> id <> ca_ledgerAccountId r ->
      account_balance (wdb w') id = account_balance db id) /\
    reported input s r (wdb w') res.
Proof.
  intros [Hcore _] Hnone H. cbn zeta. unfold transfer in H. cbn zeta in H.
  apply bind_Ok_inv in H as ([s r] & w1 & Hres & H).
  apply resolve_ok in Hres as (-> & Hs & Hsl & Hr & Hrl & Hsid & Hsc & Hrr & _ & _ & Hne & _).
  run. match goal with H : post _ _ _ _ _ _ = (Ok _, ?w) |- _ => rename H into Hpost, w into w1 end.
  pose proof (calm_run _ _ _ _ (post_calm _ _ _ _ _) Hpost) as Hq.
  apply post_moves in Hpost as (Hbal & Hacc & e & rows & Hent & _ & _ & _ & _ & _ & _ & Hjid & _); [|done].
  do 2 match goal with H : atomically (find_projection _) ?w = _ |- _ =>
    first [rewrite Hq in H|idtac]; apply find_projection_ok in H as [? ->] end.
  cbn [wdb quiet]. bool_to_Z.
  pose proof (wallets_differ db _ _ Hcore Hs Hr Hne) as Hw.
  destruct (inv_customers _ Hcore _ Hs) as (ls & Hls & Hcs & _).
  destruct (inv_customers _ Hcore _ Hr) as (lr & Hlr & Hcr & _).
  match goal with H : balance s = Ok ?b |- _ => pose proof (balance_read _ _ _ _ Hsl H) as Hbs end.
  destruct (requested_pair _ _ (tp_amountMinor (tc_preview input)) Hw) as (R1 & R2 & R3 & R4 & R5).
  exists (ac_row s), (ac_row r). split_and!; try done.
  - eexists. split; [exact Hbs|]. split; [done|]. rewrite (Hbal _ _ Hls), Hbs, Hcs. cbn. f_equal.
    unfold balance_after. cbn [jr_postings transfer_request]. rewrite R1, R2.
    unfold signedBalanceMinor. change (DEBIT_POSITIVE_CLASSES LIABILITY) with false. cbv iota. lia.
  - rewrite (Hbal _ _ Hlr), Hcr.
    destruct (account_balance db (ca_ledgerAccountId (ac_row r))) as [b|]; [|done]. cbn. f_equal.
    unfold balance_after. cbn [jr_postings transfer_request]. rewrite R3, R4.
    unfold signedBalanceMinor. change (DEBIT_POSITIVE_CLASSES LIABILITY) with false. cbv iota. lia.
  - intros id Hid1 Hid2. destruct (ledgerAccounts db !! id) as [la|] eqn:Hla.
    + rewrite (Hbal _ _ Hla). destruct (account_balance db id) as [b|]; [|done]. cbn. f_equal.
      unfold balance_after. cbn [jr_postings transfer_request]. rewrite !R5 by done.
      unfold signedBalanceMinor. destruct (DEBIT_POSITIVE_CLASSES _); lia.
    + unfold account_balance. by rewrite Hacc, Hla.
  - split; [exists e; by rewrite Hent, last_snoc|]. do 5 (split; [done|]).
    split; eapply liability_balance; [rewrite Hacc; exact Hls|exact Hcs|eassumption|rewrite Hacc; exact Hlr|exact Hcr|eassumption].
Qed.

(** ** Refusals *)
Lemma resolve_pure input db r w : resolve input (quiet db) = (r, w) -> w = quiet db.
Proof.
  unfold resolve, find_owned, find_reference. intros H.
  erewrite bind_Ok in H by (by rewrite atomically_quiet). cbn zeta in H.
  erewrite bind_Ok in H by (by rewrite atomically_quiet).
  unfold require, throw_when, throw, mbind, M_bind, mret, M_ret in H. cbn in H.
  repeat (case_match; simplify_eq; try done).
Qed.

Lemma find_posting_some id r p : p ∈ jres_postings r -> ps_ledgerAccountId p = id ->
  is_Some (find_posting id r).
Proof.
  intros Hp Hid. unfold find_posting. destruct (find _ _) as [q|] eqn:Hf; [by eexists|].
  apply list_elem_of_In in Hp. pose proof (find_none _ _ Hf _ Hp) as H. cbn in H.
  by rewrite Hid, String.eqb_refl in H.
Qed.

Lemma find_projection_read id db b : balanceProjections db !! id = Some b ->
  atomically (find_projection id) (quiet db) = (Ok b, quiet db).
Proof.
  intros Hb. rewrite atomically_quiet. unfold find_projection, get, require, mbind, M_bind. by rewrite Hb.
Qed.

Lemma find_projection_pure id db r w : atomically (find_projection id) (quiet db) = (r, w) -> w = quiet db.
Proof.
  rewrite atomically_quiet. unfold find_projection, get, mbind, M_bind. intros [= _ <-].
  by destruct (balanceProjections db !! id).
Qed.

(** After its journal a transfer cannot fail: the journal lists both wallets
    and both projections exist. *)
Lemma transfer_refused input corr db e w' : LedgerInv db ->
  transfer config now input corr (quiet db) = (Err e, w') -> w' = quiet db.
Proof.
  intros Hinv H. unfold transfer in H. cbn zeta in H.
  apply bind_Err_inv in H as [H|([s r] & w1 & Hres & H)]; [by apply resolve_pure in H|].
  apply resolve_ok in Hres as (-> & Hs & Hsl & Hr & Hrl & _ & _ & _ & _ & _ & Hne & _).
  apply bind_Err_inv in H as [H|(? & ? & Hpos & H)]; [by apply throw_when_state in H|]. run.
  apply bind_Err_inv in H as [H|(b & ? & Hbal & H)]; [by apply lift_result_state in H|]. run.
  apply bind_Err_inv in H as [H|(? & ? & Hfunds & H)]; [by apply throw_when_state in H|].
  run. bool_to_Z. apply bind_Err_inv in H as [H|(j & w1 & Hpost & H)]; [by apply post_err in H|].
  destruct (idempotencyRecords db !! record_key journalEntry (sha256 (tc_idempotencyKey input))) as [rec|] eqn:Hrec.
  { apply post_recorded in Hpost as ->; [|done|by exists rec].
    do 2 (apply bind_Err_inv in H as [H|(? & ? & ? & H)]; [by apply require_state in H|run]).
    apply bind_Err_inv in H as [H|(? & ? & Hp1 & H)]; [by apply find_projection_pure in H|].
    apply find_projection_pure in Hp1 as ->.
    apply bind_Err_inv in H as [H|(? & ? & Hp1 & H)]; [by apply find_projection_pure in H|done]. }
  exfalso. pose proof (calm_run _ _ _ _ (post_calm _ _ _ _ _) Hpost) as Hq.
  assert (LedgerInv (wdb w1)) as Hinv'.
  { assert (world_inv LedgerInv (quiet db)) as Hw by (split; [done|constructor]).
    eapply post_keeps_inv in Hw. rewrite Hpost in Hw. by destruct Hw. }
  pose proof Hpost as Hmoves. apply post_moves in Hmoves as (_ & Hacc & _); [|done].
  pose proof (wallets_differ db _ _ (inv_core _ Hinv) Hs Hr Hne) as Hw.
  destruct (requested_pair _ _ (tp_amountMinor (tc_preview input)) Hw) as (R1 & _ & _ & R4 & _).
  assert (Hlisted : forall id d, requested id d (jr_postings (transfer_request input (ca_ledgerAccountId (ac_row s))
      (ca_ledgerAccountId (ac_row r)))) <> 0 -> exists p, p ∈ jres_postings j /\ ps_ledgerAccountId p = id)
    by (intros id d; eapply post_fresh_postings; [exact Hrec|exact Hpost]).
  destruct (Hlisted (ca_ledgerAccountId (ac_row s)) DEBIT) as (ps & Hps & Hpsid); [cbn [jr_postings transfer_request]; lia|].
  destruct (Hlisted (ca_ledgerAccountId (ac_row r)) CREDIT) as (pr & Hpr & Hprid); [cbn [jr_postings transfer_request]; lia|].
  destruct (find_posting_some _ _ _ Hps Hpsid) as [xs Hxs], (find_posting_some _ _ _ Hpr Hprid) as [xr Hxr].
  rewrite Hxs, Hxr in H. cbn [require] in H. do 2 erewrite bind_Ok in H by reflexivity.
  assert (Hproj : forall c, c ∈ customerAccounts db -> is_Some (balanceProjections (wdb w1) !! ca_ledgerAccountId c)).
  { intros c Hc. apply (inv_domains _ (inv_core _ Hinv')). rewrite Hacc.
    destruct (inv_customers _ (inv_core _ Hinv) c Hc) as (la & Ha & _). by eexists. }
  destruct (Hproj _ Hs) as [bs Hbs], (Hproj _ Hr) as [br Hbr]. rewrite Hq in H.
  erewrite bind_Ok in H by (by apply find_projection_read). cbn [wdb quiet] in H.
  erewrite bind_Ok in H by (by apply find_projection_read). done.
Qed.

(** A transfer that is refused leaves the whole ledger as it was, wherever
    the refusal comes from: no error is reported after money moved. *)
Theorem transfer_refused_unchanged input corr db e w' : LedgerInv db ->
  transfer config now input corr (quiet db) = (Err e, w') -> w' = quiet db.
Proof. apply transfer_refused. Qed.

(** C15: a transfer that returns under a fresh key moved exactly its amount
    from the wallet of the sender's own account to the wallet of the account
    with the recipient reference, and no other balance changed; the answer
    names the journal entry it added, the two accounts and the amount, and
    reports the balances that the two wallets now have. *)
Theorem transfer_effect input corr db res w' :
  LedgerInv db ->
  idempotencyRecords db !! record_key journalEntry (sha256 (tc_idempotencyKey input)) = None ->
  transfer config now input corr (quiet db) = (Ok res, w') ->
  let amount := BigInt (tp_amountMinor (tc_preview input)) in
  exists s r, s ∈ customerAccounts db /\ r ∈ customerAccounts db /\
    ca_id s = tp_sourceAccountId (tc_preview input) /\
    ca_customerId s = tp_senderCustomerId (tc_preview input) /\
    ca_publicReference r = tp_recipientReference (tc_preview input) /\
    0 < amount /\
    (exists b, account_balance db (ca_ledgerAccountId s) = Some b /\ amount <= b /\
       account_balance (wdb w') (ca_ledgerAccountId s) = Some (b - amount)) /\
    account_balance (wdb w') (ca_ledgerAccountId r) =
      Z.add amount <$> account_balance db (ca_ledgerAccountId r) /\
    (forall id, id <> ca_ledgerAccountId s -> id <> ca_ledgerAccountId r ->
      account_balance (wdb w') id = account_balance db id) /\
    reported input s r (wdb w') res.
Proof. apply transfer_moves. Qed.
End Transfers.
