(* ===== verification/LedgerReconciliation.v ===== *)
(** * Reconciliation of the Ledger
    ([services/ledger/src/reconciliation/reconciliation.service.ts]) *)

From Stdlib Require Import ZArith Lia Ascii String.
From stdpp Require Import base strings list numbers gmap sorting.
From S2P Require Import Prelude.
From S2P Require Import Js.
From S2P Require Import Regex.
From S2P Require Import Contracts.
From S2P Require Import Security.
From S2P Require Import LedgerDb.
From S2P Require Import Idempotency.
From S2P Require Import JournalProperties.

Open Scope Z_scope.

(** ** The queries: the identifiers of the offending rows *)
Section Queries.
Variable db : LedgerDb.

Definition entry_unbalanced (e : JournalEntry) : bool :=
  let ps := entry_postings db (je_id e) in
  (length ps <? 2)%nat || negb (sum_by (directed DEBIT) ps =? sum_by (directed CREDIT) ps).
Definition unbalanced_journals : list (option string) :=
  (fun e => Some (je_reference e)) <$> filter entry_unbalanced (journalEntries db).

(** A posting joined with its entry and its account. *)
Definition joined (p : JournalPosting) : option (JournalEntry * LedgerAccount) :=
  e ← find_entry db (jp_journalEntryId p); a ← ledgerAccounts db !! jp_ledgerAccountId p; Some (e, a).
Definition currency_mismatches : list (option string) :=
  omap (fun p => match joined p with
                 | Some (e, a) =>
                     if negb (String.eqb (jp_currency p) (je_currency e))
                        || negb (String.eqb (jp_currency p) (la_currency a))
                     then Some (Some (je_reference e)) else None
                 | None => None
                 end) (journalPostings db).
Definition non_positive_amounts : list (option string) :=
  omap (fun p => match find_entry db (jp_journalEntryId p) with
                 | Some e => if jp_amountMinor p <=? 0 then Some (Some (je_reference e)) else None
                 | None => None
                 end) (journalPostings db).
Definition projection_drift : list (option string) :=
  omap (fun '(id, a) => match balanceProjections db !! id with
                        | Some b =>
                            if negb (bp_debitTotalMinor b =? account_total db id DEBIT)
                               || negb (bp_creditTotalMinor b =? account_total db id CREDIT)
                            then Some (Some (la_code a)) else None
                        | None => None
                        end) (map_to_list (ledgerAccounts db)).
Definition missing_projections : list (option string) :=
  omap (fun '(id, a) => match balanceProjections db !! id with
                        | Some _ => None
                        | None => Some (Some (la_code a))
                        end) (map_to_list (ledgerAccounts db)).
Definition customer_mismatches : list (option string) :=
  omap (fun c => match ledgerAccounts db !! ca_ledgerAccountId c with
                 | None => Some (Some (ca_maskedReference c))
                 | Some a =>
                     if negb (bool_decide (la_accountClass a = LIABILITY))
                        || negb (String.eqb (la_currency a) (ca_currency c))
                     then Some (Some (ca_maskedReference c)) else None
                 end) (customerAccounts db).
(** [GROUP BY identity HAVING COUNT( * ) > 1], each group at its first row. *)
Fixpoint duplicate_identities (l : list CustomerAccount) : list (option string) :=
  match l with
  | [] => []
  | c :: rest =>
      let same := filter (fun x => customer_identity x = customer_identity c) rest in
      let others := duplicate_identities rest in
      match same with
      | [] => others
      | _ => head (sort_strings (ca_maskedReference <$> c :: same)) :: others
      end
  end.
Definition negative_balances : list (option string) :=
  omap (fun c => match ledgerAccounts db !! ca_ledgerAccountId c,
                       balanceProjections db !! ca_ledgerAccountId c with
                 | Some _, Some b =>
                     if bp_creditTotalMinor b - bp_debitTotalMinor b <? 0
                     then Some (Some (ca_maskedReference c)) else None
                 | _, _ => None
                 end) (customerAccounts db).
Definition system_account_types : list SystemAccountType :=
  remove_dups (omap (fun kv => la_systemAccountType kv.2) (map_to_list (ledgerAccounts db))).
End Queries.

(** [LIMIT 50] *)
Definition limited (f : LedgerDb -> list (option string)) : LedgerM (list (option string)) :=
  atomically (gets (fun db => take MAX_RECONCILIATION_ISSUES (f db))).

Definition issue_of (code : string) (error : bool) (identifier : option string) : ReconciliationIssue :=
  mkIssue code error
    (match identifier with
     | Some i => if String.eqb i "" then None else Some (str_take 64 i)
     | None => None
     end).

(** [add]: stops when there are 50 issues. *)
Fixpoint add (code : string) (error : bool) (rows : list (option string))
  (issues : list ReconciliationIssue) : list ReconciliationIssue :=
  match rows with
  | [] => issues
  | row :: rest =>
      if (MAX_RECONCILIATION_ISSUES <=? length issues)%nat then issues
      else add code error rest (issues ++ [issue_of code error row])
  end.

Section Reconciliation.
Context {zod : Zod} {pg : Postgres}.
Variable now : Z.

Definition count {A} (f : LedgerDb -> list A) : LedgerM Z :=
  atomically (gets (fun db => Z.of_nat (length (f db)))).

(** [client.reconciliationRun.create] *)
Definition create_run (f : string -> ReconciliationRun) : DbM ReconciliationRun :=
  id ← fresh_uuid;
  let r := f id in
  db ← get;
  _ ← unique_check (forallb (fun x => negb (String.eqb (rr_id x) (rr_id r))) (reconciliationRuns db))
        "reconciliation_runs" ["id"];
  _ ← db_check (int32_ok (rr_checkedJournalEntries r) && int32_ok (rr_checkedPostings r)
                && int32_ok (rr_checkedLedgerAccounts r) && int32_ok (rr_checkedCustomerAccounts r))
        "integer out of range";
  _ ← modify (set_runs (fun l => l ++ [r]));
  mret r.

(** [run]: the stored run, and the integrity code of the anomaly event sent
    to the Risk service when the status is FAIL. *)
Definition run_reconciliation (correlationId : string) : LedgerM (ReconciliationRun * option string) :=
  let startedAt := now in
  journalCount ← count journalEntries;
  postingCount ← count journalPostings;
  ledgerAccountCount ← count (fun db => map_to_list (ledgerAccounts db));
  customerAccountCount ← count customerAccounts;
  rows ← limited unbalanced_journals;
  let issues := add "UNBALANCED_JOURNAL" true rows [] in
  rows ← limited currency_mismatches;
  let issues := add "POSTING_CURRENCY_MISMATCH" true rows issues in
  rows ← limited non_positive_amounts;
  let issues := add "NON_POSITIVE_POSTING_AMOUNT" true rows issues in
  rows ← limited projection_drift;
  let issues := add "BALANCE_PROJECTION_DRIFT" true rows issues in
  rows ← limited missing_projections;
  let issues := add "MISSING_BALANCE_PROJECTION" true rows issues in
  rows ← limited customer_mismatches;
  let issues := add "CUSTOMER_ACCOUNT_LEDGER_MISMATCH" true rows issues in
  rows ← limited (fun db => duplicate_identities (customerAccounts db));
  let issues := add "DUPLICATE_DEFAULT_ACCOUNT" true rows issues in
  rows ← limited negative_balances;
  let issues := add "NEGATIVE_CUSTOMER_BALANCE" true rows issues in
  systemAccounts ← count system_account_types;
  let issues := if systemAccounts <? 2 then add "MISSING_SYSTEM_ACCOUNT" true [None] issues else issues in
  let fails := existsb is_error issues in
  stored ← atomically (create_run (fun id =>
    mkRun id (negb fails) startedAt now journalCount postingCount ledgerAccountCount
      customerAccountCount issues correlationId now));
  mret (stored, if fails then match issues with
                              | i :: _ => Some (is_code i)
                              | [] => Some "RECONCILIATION_ANOMALY"%string
                              end else None).

(** [latest]: the run with the greatest [createdAt]. *)
Definition latest : DbM (option ReconciliationRun) :=
  gets (fun db => last (sort_by_Z rr_createdAt (reconciliationRuns db))).
End Reconciliation.

(** ** On a consistent ledger no query returns a row *)
Lemma omap_none {A B} (f : A -> option B) (l : list A) : (forall x, x ∈ l -> f x = None) -> omap f l = [].
Proof.
  induction l as [|x l IH]; intros H; [done|]. cbn. rewrite (H x) by (by left).
  apply IH. intros y Hy. apply H. by right.
Qed.
Lemma find_entry_elem db e : LedgerCore db -> e ∈ journalEntries db -> find_entry db (je_id e) = Some e.
Proof.
  intros H He. unfold find_entry. pose proof (inv_entry_ids _ H) as Hn.
  induction (journalEntries db) as [|x l IH]; [by inversion He|]. cbn in *.
  apply NoDup_cons in Hn as [Hx Hn]. apply elem_of_cons in He as [->|He]; [by rewrite String.eqb_refl|].
  destruct (String.eqb_spec (je_id x) (je_id e)) as [Heq|]; [|by apply IH].
  destruct Hx. rewrite Heq. by apply list_elem_of_fmap_2.
Qed.

Section Consistent.
Variable db : LedgerDb.
Hypothesis H : LedgerCore db.

Lemma entry_ok e : e ∈ journalEntries db ->
  (2 <= length (entry_postings db (je_id e)))%nat /\
  (forall p a, p ∈ entry_postings db (je_id e) -> ledgerAccounts db !! jp_ledgerAccountId p = Some a ->
     jp_currency p = je_currency e /\ la_currency a = jp_currency p) /\
  sum_by (directed DEBIT) (entry_postings db (je_id e)) =
  sum_by (directed CREDIT) (entry_postings db (je_id e)).
Proof.
  intros He. pose proof (inv_entries _ H e He) as Hi. pose proof (entry_balanced _ _ Hi) as Hb.
  unfold assert_journal_integrity in Hi. rewrite find_entry_elem in Hi by done.
  destruct (Nat.ltb_spec (length (entry_postings db (je_id e))) 2) as [|Hl]; [done|].
  destruct (existsb (fun p => negb (String.eqb _ (je_currency e))) _) eqn:Hc; [done|].
  match type of Hi with (if ?x then _ else _) = _ => destruct x eqn:Ha; [done|] end.
  split; [lia|]. split; [|done]. intros p a Hp Hpa.
  assert (Hno : forall f, existsb f (entry_postings db (je_id e)) = false -> f p = false).
  { intros f Hf. destruct (f p) eqn:Hfp; [|done].
    enough (existsb f (entry_postings db (je_id e)) = true) by congruence.
    apply existsb_exists. exists p. split; [by apply list_elem_of_In|done]. }
  apply Hno in Hc, Ha. rewrite Hpa in Ha. cbn beta in *. by bool_to_Z.
Qed.

Lemma posting_entry p : p ∈ journalPostings db ->
  exists e, e ∈ journalEntries db /\ find_entry db (jp_journalEntryId p) = Some e /\
    p ∈ entry_postings db (je_id e).
Proof.
  intros Hp. destruct (inv_postings _ H p Hp) as (_ & (e & He & Hid) & _). exists e.
  split; [done|]. rewrite <- Hid. split; [by apply find_entry_elem|].
  by apply list_elem_of_filter.
Qed.

Lemma unbalanced_none : unbalanced_journals db = [].
Proof.
  unfold unbalanced_journals. rewrite (JournalProofs.filter_none _ (journalEntries db)); [done|].
  intros e He Hu. destruct (entry_ok e He) as (Hl & _ & Hb). unfold entry_unbalanced in Hu.
  rewrite Hb, Z.eqb_refl in Hu. apply Nat.ltb_ge in Hl. rewrite Hl in Hu. done.
Qed.
Lemma currency_none : currency_mismatches db = [].
Proof.
  apply omap_none. intros p Hp. destruct (posting_entry p Hp) as (e & He & Hf & Hpe).
  unfold joined. rewrite Hf. cbn. destruct (ledgerAccounts db !! jp_ledgerAccountId p) as [a|] eqn:Ha; [|done].
  destruct (entry_ok e He) as (_ & Hc & _). destruct (Hc p a Hpe Ha) as [E1 E2].
  cbn. by rewrite E1, <- E1, <- E2, !String.eqb_refl.
Qed.
Lemma amounts_none : non_positive_amounts db = [].
Proof.
  apply omap_none. intros p Hp. destruct (inv_postings _ H p Hp) as [Ha _].
  destruct (find_entry _ _); [|done]. destruct (Z.leb_spec (jp_amountMinor p) 0); [lia|done].
Qed.
Lemma drift_none : projection_drift db = [].
Proof.
  apply omap_none. intros [id a] _. destruct (balanceProjections db !! id) as [b|] eqn:Hb; [|done].
  apply (inv_projections _ H) in Hb as [-> ->]. by rewrite !Z.eqb_refl.
Qed.
Lemma missing_none : missing_projections db = [].
Proof.
  apply omap_none. intros [id a] Ha%elem_of_map_to_list.
  assert (is_Some (balanceProjections db !! id)) as [b ->] by (apply H; by eexists). done.
Qed.
Lemma customers_none : customer_mismatches db = [].
Proof.
  apply omap_none. intros c Hc. destruct (inv_customers _ H c Hc) as (a & -> & Hcl & _ & Hcur).
  by rewrite Hcl, Hcur, bool_decide_eq_true_2, String.eqb_refl.
Qed.
Lemma duplicates_none : duplicate_identities (customerAccounts db) = [].
Proof.
  pose proof (inv_identities _ H) as Hn. induction (customerAccounts db) as [|c l IH]; [done|].
  cbn in *. apply NoDup_cons in Hn as [Hc Hn].
  rewrite (JournalProofs.filter_none _ l); [by apply IH|].
  intros x Hx Heq. destruct Hc. rewrite <- Heq. by apply list_elem_of_fmap_2.
Qed.
Lemma negatives_none : negative_balances db = [].
Proof.
  apply omap_none. intros c Hc. destruct (inv_customers _ H c Hc) as (a & Ha & Hcl & Hneg & _).
  rewrite Ha. destruct (balanceProjections db !! _) as [b|] eqn:Hb; [|done].
  pose proof (inv_nonneg _ H _ _ _ Ha Hb Hneg) as Hnn. rewrite Hcl in Hnn.
  unfold signedBalanceMinor in Hnn. cbn in Hnn.
  by destruct (Z.ltb_spec (bp_creditTotalMinor b - bp_debitTotalMinor b) 0); [lia|].
Qed.
End Consistent.

(** ** Issues and rows *)
Lemma add_errors code rows issues : Forall (fun i => is_error i = true) issues ->
  Forall (fun i => is_error i = true) (add code true rows issues).
Proof.
  revert issues. induction rows as [|r rows IH]; intros issues H; cbn; [done|].
  case_match; [done|]. apply IH, Forall_app. split; [done|]. by constructor.
Qed.
Lemma add_nonempty code rows issues : issues <> [] -> add code true rows issues <> [].
Proof.
  revert issues. induction rows as [|r rows IH]; intros issues H; cbn; [done|].
  case_match; [done|]. apply IH. by destruct issues.
Qed.
Lemma add_nil code rows issues : add code true rows issues = [] -> rows = [] /\ issues = [].
Proof.
  destruct issues as [|i issues]; [|intros H; by apply add_nonempty in H].
  destruct rows as [|r rows]; [done|]. cbn. intros H. by apply add_nonempty in H.
Qed.
Lemma no_error_nil issues : Forall (fun i => is_error i = true) issues ->
  existsb is_error issues = false -> issues = [].
Proof. destruct 1 as [|i l Hi _]; [done|]. cbn. by rewrite Hi. Qed.
#[export] Hint Resolve add_errors Forall_nil_2 : preserve.

Section Results.
Context {zod : Zod} {pg : Postgres}.
Variable now : Z.

(** A consistent ledger with the system accounts of the migration. *)
Definition consistent (db : LedgerDb) : Prop :=
  LedgerInv db /\ (2 <= length (system_account_types db))%nat.

Lemma count_inv {A} P (f : LedgerDb -> list A) : preserves (world_inv P) (count f).
Proof. apply preserves_atomically, preserves_gets. Qed.

Lemma triple_atomically {A} P (m : DbM A) (Q : A -> Prop) :
  triple P m (fun a db => Q a /\ P db) (fun _ => P) ->
  triple (world_inv P) (atomically m) (fun a w => Q a /\ world_inv P w) (fun _ => world_inv P).
Proof.
  intros Hm [db fs] [Hdb Hfs]. unfold atomically. cbn in *.
  assert (Hstep : forall db0 rest, P db0 -> Forall (fun f => forall db, P db -> P (f db)) rest ->
    match (let '(r, db') := m db0 in (r, mkWorld db' rest)) with
    | (Ok a, w) => Q a /\ world_inv P w | (Err _, w) => world_inv P w end).
  { intros db0 rest H0 Hrest. specialize (Hm db0 H0). destruct (m db0) as [[a|e] db']; [|done].
    destruct Hm. by split. }
  destruct fs as [|f fs]; [by apply Hstep|]. inversion Hfs; subst. apply Hstep; auto.
Qed.
Lemma limited_empty (f : LedgerDb -> list (option string)) :
  (forall db, LedgerCore db -> f db = []) ->
  triple (world_inv consistent) (limited f) (fun rows w => rows = [] /\ world_inv consistent w)
    (fun _ => world_inv consistent).
Proof.
  intros Hf. apply triple_atomically. intros db Hdb. cbn. rewrite Hf; [done|apply Hdb].
Qed.

Lemma create_run_keeps f : preserves LedgerInv (create_run f).
Proof.
  unfold create_run, unique_check, db_check. cbn zeta. apply preserves_bind; [|intros id].
  { intros db [Hcore Hrec]. constructor; [by apply LedgerCore_uuid|done]. }
  apply preserves_bind; [by intros db Hdb|intros db].
  do 2 (apply preserves_bind; [auto with preserve|intros ?]).
  apply preserves_bind; [|intros ?; auto with preserve].
  intros db' [Hcore Hrec]. constructor; [by apply LedgerCore_runs|done].
Qed.
Lemma create_run_accounts f db r db' : create_run f db = (r, db') -> ledgerAccounts db' = ledgerAccounts db.
Proof.
  unfold create_run, fresh_uuid, get, modify, unique_check, db_check, throw_when, throw, mbind, M_bind, mret, M_ret.
  intros H. repeat case_match; by simplify_eq.
Qed.
Lemma create_run_inv f : preserves consistent (create_run f).
Proof.
  intros db [Hdb Hsys]. pose proof (create_run_keeps f db Hdb) as Hinv.
  destruct (create_run f db) as [r db'] eqn:Hr. pose proof (create_run_accounts _ _ _ _ Hr) as Ha.
  unfold consistent, system_account_types in *. rewrite Ha. by destruct r.
Qed.

Lemma create_run_record k rec f : preserves (has_record k rec) (create_run f).
Proof.
  unfold create_run, unique_check, db_check, has_record. cbn zeta. apply preserves_bind; [by intros db|intros id].
  apply preserves_bind; [by intros db Hdb|intros db].
  do 2 (apply preserves_bind; [auto with preserve|intros ?]).
  apply preserves_bind; [by intros d|intros ?; auto with preserve].
Qed.
Lemma reconciliation_keeps P corr : (forall f, preserves P (create_run f)) -> preserves (world_inv P) (run_reconciliation now corr).
Proof.
  intros Hcreate. assert (Hl : forall f, preserves (world_inv P) (limited f)) by (intros; apply preserves_atomically, preserves_gets).
  unfold run_reconciliation. cbn zeta.
  do 4 (apply preserves_bind; [apply count_inv|intros ?]).
  do 8 (apply preserves_bind; [apply Hl|intros ?]).
  apply preserves_bind; [apply count_inv|intros ?].
  apply preserves_bind; [apply preserves_atomically, Hcreate|intros ?]. apply preserves_ret.
Qed.
Lemma reconciliation_keeps_inv corr : preserves (world_inv LedgerInv) (run_reconciliation now corr).
Proof. apply reconciliation_keeps, create_run_keeps. Qed.

(** Reconciliation of a consistent ledger passes with no issue and raises
    no anomaly, whatever invariant-keeping transactions run between its
    queries: it gives no false alarm on the balances that posting maintains. *)
Theorem reconciliation_passes corr :
  triple (world_inv consistent) (run_reconciliation now corr)
    (fun '(r, anomaly) w => rr_pass r = true /\ rr_issues r = [] /\ anomaly = None /\
                            world_inv consistent w)
    (fun _ => world_inv consistent).
Proof.
  unfold run_reconciliation. cbn zeta.
  do 4 (eapply triple_bind; [apply count_inv|intros ?; cbv beta]).
  eapply triple_bind; [apply limited_empty, unbalanced_none|intros rows w [-> Hw]; revert w Hw].
  eapply triple_bind; [apply limited_empty, currency_none|intros rows w [-> Hw]; revert w Hw].
  eapply triple_bind; [apply limited_empty, amounts_none|intros rows w [-> Hw]; revert w Hw].
  eapply triple_bind; [apply limited_empty, drift_none|intros rows w [-> Hw]; revert w Hw].
  eapply triple_bind; [apply limited_empty, missing_none|intros rows w [-> Hw]; revert w Hw].
  eapply triple_bind; [apply limited_empty, customers_none|intros rows w [-> Hw]; revert w Hw].
  eapply triple_bind; [apply limited_empty, duplicates_none|intros rows w [-> Hw]; revert w Hw].
  eapply triple_bind; [apply limited_empty, negatives_none|intros rows w [-> Hw]; revert w Hw].
  cbn [add].
  eapply triple_bind; [apply (triple_atomically consistent _ (fun n => 2 <= n))|intros n w [Hn Hw]].
  { intros db [Hdb Hsys]. cbn. split; [lia|by split]. }
  destruct (Z.ltb_spec n 2); [lia|]. cbn [existsb negb]. revert w Hw.
  eapply triple_bind;
    [apply (triple_atomically consistent _ (fun r => rr_pass r = true /\ rr_issues r = []))|].
  - intros db Hdb. pose proof (create_run_inv (fun id => mkRun id true now now a a0 a1 a2 [] corr now) db Hdb) as Hinv.
    destruct (create_run _ db) as [[r|e] db'] eqn:Hr; [|done]. split; [|done].
    unfold create_run in Hr. db_run. done.
  - intros r w [[Hp Hi] Hw]. cbn. done.
Qed.

Lemma limited_ok f db rows w : limited f (quiet db) = (Ok rows, w) ->
  rows = take MAX_RECONCILIATION_ISSUES (f db) /\ w = quiet db.
Proof. unfold limited. rewrite atomically_quiet. cbn. by intros [= <- <-]. Qed.
Lemma count_ok {A} (f : LedgerDb -> list A) db n w : count f (quiet db) = (Ok n, w) ->
  n = Z.of_nat (length (f db)) /\ w = quiet db.
Proof. unfold count. rewrite atomically_quiet. cbn. by intros [= <- <-]. Qed.

Lemma take_nil {A} (l : list A) : take MAX_RECONCILIATION_ISSUES l = [] -> l = [].
Proof. by destruct l. Qed.
Lemma omap_nil {A B} (f : A -> option B) (l : list A) : omap f l = [] -> forall x, x ∈ l -> f x = None.
Proof.
  induction l as [|y l IH]; [by inversion 2|]. cbn. destruct (f y) eqn:Hy; [done|].
  intros H x [->|Hx]%elem_of_cons; auto.
Qed.
(** What the empty answers of three of the queries say. *)
Lemma reconciled_facts db :
  take MAX_RECONCILIATION_ISSUES (unbalanced_journals db) = [] ->
  take MAX_RECONCILIATION_ISSUES (projection_drift db) = [] ->
  take MAX_RECONCILIATION_ISSUES (missing_projections db) = [] ->
  (forall e, e ∈ journalEntries db -> (2 <= length (entry_postings db (je_id e)))%nat /\
     sum_by (directed DEBIT) (entry_postings db (je_id e)) =
     sum_by (directed CREDIT) (entry_postings db (je_id e))) /\
  (forall id a, ledgerAccounts db !! id = Some a -> exists b, balanceProjections db !! id = Some b /\
     bp_debitTotalMinor b = account_total db id DEBIT /\
     bp_creditTotalMinor b = account_total db id CREDIT).
Proof.
  intros Hu%take_nil Hd%take_nil Hm%take_nil. split.
  - intros e He. unfold unbalanced_journals in Hu. apply fmap_nil_inv in Hu.
    assert (entry_unbalanced db e = false) as Hb.
    { destruct (entry_unbalanced db e) eqn:Hb; [|done]. exfalso.
      assert (e ∈ filter (entry_unbalanced db) (journalEntries db)) as Hin
        by (apply list_elem_of_filter; by rewrite Hb).
      rewrite Hu in Hin. by inversion Hin. }
    unfold entry_unbalanced in Hb. apply orb_false_elim in Hb as [Hl Hb].
    apply Nat.ltb_ge in Hl. by bool_to_Z.
  - intros id a Ha%elem_of_map_to_list. pose proof (omap_nil _ _ Hm _ Ha) as H1.
    pose proof (omap_nil _ _ Hd _ Ha) as H2. cbn in H1, H2.
    destruct (balanceProjections db !! id) as [b|]; [|done]. exists b. split; [done|].
    destruct (_ || _) eqn:Hb; [done|]. bool_to_Z. done.
Qed.

#[local] Arguments add : simpl never.

(** C19: a PASS is a proof of the books: on the state it read, every journal has
    two postings or more and balances, and every projection equals the totals
    recomputed from the postings. *)
Theorem reconciliation_sound corr db r anomaly w :
  run_reconciliation now corr (quiet db) = (Ok (r, anomaly), w) -> rr_pass r = true ->
  (forall e, e ∈ journalEntries db -> (2 <= length (entry_postings db (je_id e)))%nat /\
     sum_by (directed DEBIT) (entry_postings db (je_id e)) =
     sum_by (directed CREDIT) (entry_postings db (je_id e))) /\
  (forall id a, ledgerAccounts db !! id = Some a -> exists b, balanceProjections db !! id = Some b /\
     bp_debitTotalMinor b = account_total db id DEBIT /\
     bp_creditTotalMinor b = account_total db id CREDIT).
Proof.
  intros H Hpass. unfold run_reconciliation in H. cbn zeta in H.
  do 4 (apply bind_Ok_inv in H as (? & ? & [-> ->]%count_ok & H)).
  do 8 (apply bind_Ok_inv in H as (? & ? & [-> ->]%limited_ok & H)).
  apply bind_Ok_inv in H as (? & ? & [-> ->]%count_ok & H). run.
  match goal with H : atomically (create_run _) _ = _ |- _ => rename H into Hrun end.
  rewrite atomically_quiet in Hrun. injection Hrun as Hrun _.
  destruct (create_run _ db) as [r' db'] eqn:Hc. cbn [fst] in Hrun. subst r'.
  unfold create_run in Hc. db_run. cbn [rr_pass] in Hpass. apply negb_true_iff in Hpass.
  apply no_error_nil in Hpass; [|destruct (_ <? 2); auto 20 with preserve].
  match goal with H : context [if ?b then add _ _ _ _ else _] |- _ => destruct b end; [apply add_nil in Hpass as [_ Hpass]|].
  all: do 8 (apply add_nil in Hpass as [? Hpass]).
  all: match goal with Hd : take _ (projection_drift ?d) = [], Hm : take _ (missing_projections ?d) = [],
                  Hu : take _ (unbalanced_journals ?d) = [] |- _ =>
    apply (reconciled_facts d Hu Hd Hm) end.
Qed.
End Results.
