(* ===== verification/LedgerSystem.v ===== *)
(** * The Ledger service as a state machine: every request it serves, in any
    order, among the transactions of other requests. *)

From Stdlib Require Import ZArith Lia Ascii String.
From stdpp Require Import base strings list gmap.
From S2P Require Import Prelude.
From S2P Require Import Js.
From S2P Require Import Contracts.
From S2P Require Import Security.
From S2P Require Import LedgerDb.
From S2P Require Import Idempotency.
From S2P Require Import Journal.
From S2P Require Import JournalProofs.
From S2P Require Import JournalProperties.
From S2P Require Import Accounts.
From S2P Require Import CustomerTransfer.
From S2P Require Import LedgerReconciliation.

Open Scope Z_scope.

Inductive LedgerRequest :=
| PostJournal (r : InternalJournalRequest) (correlationId : string) (actor : JournalActor)
| ProvisionDefault (draws : nat -> nat -> nat) (i : InternalProvisionDefaultAccountInput)
| PreviewTransfer (i : InternalTransferPreview)
| CustomerTransfer (i : InternalLedgerTransferCommand) (correlationId : string)
| QrPayment (i : QrPaymentInput) (correlationId : string)
| AgentCashIn (i : AgentCashInput) (correlationId : string)
| AgentCashOut (i : AgentCashInput) (correlationId : string)
| Reconcile (correlationId : string).

Section System.
Context {zod : Zod} {crypto : Crypto} {pg : Postgres}.
Variable config : LedgerConfig.

(** The database a request leaves, whether it answers or throws. *)
Definition serve (now : Z) (request : LedgerRequest) (w : World) : LedgerDb :=
  match request with
  | PostJournal r corr actor => wdb (post config now r corr actor w).2
  | ProvisionDefault draws i => wdb (provisionDefault config now draws i w).2
  | PreviewTransfer i => wdb (preview_endpoint i w).2
  | CustomerTransfer i corr => wdb (transfer_endpoint config now i corr w).2
  | QrPayment i corr => wdb (qrPayment config now i corr w).2
  | AgentCashIn i corr => wdb (agentCashIn config now i corr w).2
  | AgentCashOut i corr => wdb (agentCashOut config now i corr w).2
  | Reconcile corr => wdb (run_reconciliation now corr w).2
  end.

(** The states of a ledger that started in [start]: one request at a time moves
    on, at any clock, among transactions that keep the invariant. *)
Inductive reachable (start : LedgerDb) : LedgerDb -> Prop :=
| reach_start : reachable start start
| reach_step now request db others :
    reachable start db ->
    Forall (fun f => forall d, LedgerInv d -> LedgerInv (f d)) others ->
    reachable start (serve now request (mkWorld db others)).

(** ** What every request keeps, given what its transactions keep *)
Section Serving.
Variable P : LedgerDb -> Prop.
Hypothesis post_keeps : forall now r corr actor, preserves (world_inv P) (post config now r corr actor).
Hypothesis provision_keeps : forall now draws i, preserves (world_inv P) (provisionDefault config now draws i).
Hypothesis run_keeps : forall f, preserves P (create_run f).
Abbreviation keeps := (preserves (world_inv P)).

Lemma account_lookup_keeps accountId : keeps (getCustomerAccount accountId).
Proof.
  apply preserves_bind; [apply preserves_atomically, preserves_gets|intros o].
  do 2 (apply preserves_bind; [auto with preserve|intros ?]). auto with preserve.
Qed.
Lemma system_lookup_keeps type cur : keeps (getSystemAccount type cur).
Proof.
  apply preserves_bind; [apply preserves_atomically, preserves_gets|intros o].
  apply preserves_bind; auto with preserve.
Qed.
#[local] Hint Resolve account_lookup_keeps system_lookup_keeps : preserve.

Lemma post_then_keeps {A} now r corr actor (k : JournalResult -> A) : keeps (j ← post config now r corr actor; mret (k j)).
Proof. apply preserves_bind; [apply post_keeps|auto with preserve]. Qed.
Ltac keep := apply preserves_bind; [auto with preserve|intros ?].

Lemma qrPayment_keeps now i corr : keeps (qrPayment config now i corr).
Proof. do 8 keep. apply post_then_keeps. Qed.
Lemma agentCashIn_keeps now i corr : keeps (agentCashIn config now i corr).
Proof. do 4 keep. apply post_then_keeps. Qed.
Lemma agentCashOut_keeps now i corr : keeps (agentCashOut config now i corr).
Proof. do 6 keep. apply post_then_keeps. Qed.

Lemma keeps_db {A} (m : LedgerM A) w : keeps m -> world_inv P w -> P (wdb (m w).2).
Proof. intros Hm Hw. specialize (Hm w Hw). destruct (m w) as [[a|e] w']; apply Hm. Qed.

Lemma serve_keeps now request w : world_inv P w -> P (serve now request w).
Proof.
  intros Hw. destruct request; apply keeps_db; try exact Hw.
  - apply post_keeps.
  - apply provision_keeps.
  - apply preserves_bind; [auto with preserve|intros p].
    apply preserves_bind; [apply resolve_inv|intros [s r]]. keep. auto with preserve.
  - apply preserves_bind; [auto with preserve|intros p]. apply transfer_keeps, post_keeps.
  - apply qrPayment_keeps.
  - apply agentCashIn_keeps.
  - apply agentCashOut_keeps.
  - apply reconciliation_keeps, run_keeps.
Qed.
End Serving.

Lemma qrPayment_keeps_inv now i corr : preserves (world_inv LedgerInv) (qrPayment config now i corr).
Proof. apply qrPayment_keeps, post_keeps_inv. Qed.
Lemma agentCashIn_keeps_inv now i corr : preserves (world_inv LedgerInv) (agentCashIn config now i corr).
Proof. apply agentCashIn_keeps, post_keeps_inv. Qed.
Lemma agentCashOut_keeps_inv now i corr : preserves (world_inv LedgerInv) (agentCashOut config now i corr).
Proof. apply agentCashOut_keeps, post_keeps_inv. Qed.
Lemma serve_keeps_inv now request w : world_inv LedgerInv w -> LedgerInv (serve now request w).
Proof. apply serve_keeps; [apply post_keeps_inv|apply provision_keeps_inv|apply create_run_keeps]. Qed.
Lemma serve_keeps_record k rec now request w : world_inv (has_record k rec) w -> has_record k rec (serve now request w).
Proof. apply serve_keeps; intros; [apply post_keeps_record|apply provision_keeps_record|apply create_run_record]. Qed.

(** C1: in every state the Ledger can reach from a consistent start, by any
    sequence of journal posts, provisionings, transfers, QR payments, agent
    cash operations and reconciliations, successful or not, each interleaved
    with other transactions, every entry is balanced in one currency, every
    projection equals its posted totals and no wallet is overdrawn. *)
Theorem ledger_reachable_inv start db : LedgerInv start -> reachable start db -> LedgerInv db.
Proof.
  intros Hstart. induction 1 as [|now request db others _ IH Hothers]; [done|].
  by apply serve_keeps_inv.
Qed.

(** ** Settled requests *)
(** A transaction that keeps every settled record, as all of the Ledger's do
    ([serve_keeps_settled]). *)
Definition keeps_settled (f : LedgerDb -> LedgerDb) : Prop :=
  forall db k rec, has_record k rec db -> ir_completed rec = true -> has_record k rec (f db).
Lemma settled_world k rec w : ir_completed rec = true -> has_record k rec (wdb w) -> Forall keeps_settled (wothers w) ->
  world_inv (has_record k rec) w.
Proof. intros Hc Hr Ho. split; [done|]. eapply Forall_impl; [exact Ho|]. intros f Hf db Hdb. by apply Hf. Qed.
Lemma serve_keeps_settled now request others : Forall keeps_settled others ->
  keeps_settled (fun db => serve now request (mkWorld db others)).
Proof. intros Ho db k rec Hr Hc. by apply serve_keeps_record, settled_world. Qed.
(** Any requests of the Ledger at any times, each among other such transactions. *)
Inductive later (start : LedgerDb) : LedgerDb -> Prop :=
| later_now : later start start
| later_step now request db others : later start db -> Forall keeps_settled others ->
    later start (serve now request (mkWorld db others)).
Lemma later_settled start db k rec : later start db -> has_record k rec start -> ir_completed rec = true -> has_record k rec db.
Proof. intros H Hr Hc. induction H as [|now request db others _ IH Ho]; [done|]. by apply (serve_keeps_settled now request others Ho). Qed.

(** C17: a success is final. After a journal post has returned, whatever
    requests the Ledger serves at whatever times, other posts among them and
    each among other transactions, the same request returns the same result at
    any later time and changes nothing. The result is one that the schema of
    results, which reads the stored answer, leaves as it is; no digest is
    empty. *)
Theorem post_replays request corr actor corr' actor' now now' w r w' db others :
  (forall text, sha256 text <> ""%string) -> journalResultSchema r = Some r ->
  post config now request corr actor w = (Ok r, w') ->
  later (wdb w') db -> Forall keeps_settled others ->
  post config now' request corr' actor' (mkWorld db others) =
    (Ok r, mkWorld (match others with [] => db | f :: _ => f db end) (tail others)).
Proof.
  intros Hsha Hok H Hlater Ho. apply post_settles in H as (rec & Hrec & Ha); [|done].
  assert (Hc : ir_completed rec = true) by (destruct Ha as (? & ? & ? & ? & ?); tauto).
  pose proof (later_settled _ _ _ _ Hlater Hrec Hc) as Hdb. refine (answers_again config now' request corr' actor' (mkWorld db others) r rec Hsha _ Ha).
  cbn. destruct others as [|f others]; [done|]. inversion Ho; subst. by apply H1.
Qed.
End System.
