(* ===== verification/Transactions.v ===== *)
(** * Transaction history ([services/ledger/src/transactions/transaction.service.ts]) *)

From Stdlib Require Import ZArith Lia Ascii String.
From stdpp Require Import base strings list numbers gmap sorting.
From S2P Require Import Prelude.
From S2P Require Import Js.
From S2P Require Import Codec.
From S2P Require Import Regex.
From S2P Require Import Contracts.
From S2P Require Import Security.
From S2P Require Import Calendar.
From S2P Require Import LedgerDb.
From S2P Require Import JournalProofs.
From S2P Require Import JournalProperties.
From S2P Require Import LedgerReconciliation.

Open Scope Z_scope.

Inductive TransactionDirection := INCOMING | OUTGOING.
Inductive TransactionCategory := FUNDING | ADJUSTMENT | TRANSFER | OTHER.
#[export] Instance TransactionDirection_eq_dec : EqDecision TransactionDirection.
Proof. solve_decision. Defined.
#[export] Instance TransactionCategory_eq_dec : EqDecision TransactionCategory.
Proof. solve_decision. Defined.
Definition transactionDirection_str (d : TransactionDirection) : string :=
  match d with INCOMING => "INCOMING" | OUTGOING => "OUTGOING" end.
Definition category_str (c : TransactionCategory) : string :=
  match c with
  | FUNDING => "FUNDING" | ADJUSTMENT => "ADJUSTMENT" | TRANSFER => "TRANSFER" | OTHER => "OTHER"
  end.

Record TransactionHistoryQuery := mkHistoryQuery {
  hq_direction : option TransactionDirection;
  hq_category : option TransactionCategory;
  hq_dateFrom : option string;
  hq_dateTo : option string;
  hq_pageSize : nat;
  hq_cursor : option string
}.

Record CustomerTransactionSummary := mkTransaction {
  ct_id : string;
  ct_displayReference : string;
  ct_accountId : string;
  ct_direction : TransactionDirection;
  ct_category : TransactionCategory;
  ct_amount : Money;
  ct_balanceAfter : Money;
  ct_effectiveAt : string;
  ct_postedAt : string
}.
Record CustomerTransactionDetail := mkTransactionDetail {
  ctd_summary : CustomerTransactionSummary;
  ctd_maskedAccountReference : string;
  ctd_productType : AccountProductType
}.

Record Cursor := mkCursor { cur_e : string; cur_r : string; cur_f : string }.

Definition displayReference (id : string) : string :=
  let value := toUpperCase (str_filter (fun c => negb (Ascii.eqb c "-")) id) in
  "AEGIS-TXN-" +:+ slice 0 4 value +:+ "-" +:+ slice 4 8 value +:+ "-" +:+ slice 8 12 value.

Definition category (entryType : JournalEntryType) : TransactionCategory :=
  match entryType with
  | SETTLEMENT_FUNDING => FUNDING
  | ACCOUNT_ADJUSTMENT => ADJUSTMENT
  | CUSTOMER_TRANSFER => TRANSFER
  | _ => OTHER
  end.

(** [JSON.stringify] of an object with optional string properties. *)
Definition optional_str (o : option string) : json := match o with Some s => JStr s | None => JUndef end.
Definition json_fields (fs : list (string * json)) : list string :=
  omap (fun '(k, v) => match canonicalJson v with Some t => Some (quote k +:+ ":" +:+ t) | None => None end) fs.
Definition json_object (fs : list (string * json)) : string := "{" +:+ join "," (json_fields fs) +:+ "}".

Section Cursors.
Context {crypto : Crypto}.

(** [createHash('sha256').update(s).digest('base64url').slice(0, 24)] *)
Definition digest24 (s : string) : string := slice 0 24 (base64url_encode (hex_bytes (sha256 s))).

Definition fingerprint (query : TransactionHistoryQuery) : string :=
  digest24 (json_object
    [("direction", optional_str (transactionDirection_str <$> hq_direction query));
     ("category", optional_str (category_str <$> hq_category query));
     ("dateFrom", optional_str (hq_dateFrom query)); ("dateTo", optional_str (hq_dateTo query))]).

Definition cursorError : LedgerErr :=
  LedgerError "INVALID_REQUEST" "Invalid transaction history cursor." 400.

Definition decodeCursor (value : option string) (expected : string) : result LedgerErr (option Cursor) :=
  match value with
  | None => Ok None
  | Some text =>
      if String.eqb text "" then Ok None
      else
        match cursor_json text with
        | None => Err cursorError
        | Some parsed =>
            match jfield "v" parsed, jfield "e" parsed, jfield "r" parsed, jfield "f" parsed with
            | JNum 1, JStr e, JStr r, JStr f =>
                if String.eqb f expected && rx_match displayTransactionReference_rx r
                   && bool_decide (is_Some (date_parse e))
                then Ok (Some (mkCursor e r f)) else Err cursorError
            | _, _, _, _ => Err cursorError
            end
        end
  end.

Definition encodeCursor (c : Cursor) : string :=
  cursor_text (JObj [("v", JNum 1); ("e", JStr (cur_e c)); ("r", JStr (cur_r c)); ("f", JStr (cur_f c))]).
End Cursors.

(** ** History *)
Definition account (customerId accountId : string) : DbM CustomerAccount :=
  a ← gets (fun db => find (fun c => String.eqb (ca_id c) accountId &&
                                     String.eqb (ca_customerId c) customerId) (customerAccounts db));
  require a accountNotFoundError.

(** [orderBy: [{ createdAt: 'asc' }, { id: 'asc' }]] *)
Definition posting_le (a b : JournalPosting) : Prop :=
  jp_createdAt a < jp_createdAt b \/ (jp_createdAt a = jp_createdAt b /\ String.le (jp_id a) (jp_id b)).
#[export] Instance posting_le_dec a b : Decision (posting_le a b).
Proof. unfold posting_le. apply _. Defined.
Definition account_postings (db : LedgerDb) (ledgerAccountId : string) : list (JournalPosting * JournalEntry) :=
  omap (fun p => e ← find_entry db (jp_journalEntryId p); Some (p, e))
    (merge_sort posting_le (filter (fun p => jp_ledgerAccountId p = ledgerAccountId) (journalPostings db))).

Definition signed_amount (p : JournalPosting) : Z :=
  match jp_direction p with CREDIT => jp_amountMinor p | DEBIT => - jp_amountMinor p end.

(** The [map] that threads the running balance. *)
Fixpoint running (accountId currency : string) (balance : Z) (rows : list (JournalPosting * JournalEntry))
  : list CustomerTransactionSummary :=
  match rows with
  | [] => []
  | (p, e) :: rest =>
      let balance := balance + signed_amount p in
      mkTransaction (jp_id p) (displayReference (jp_id p)) accountId
        (match jp_direction p with CREDIT => INCOMING | DEBIT => OUTGOING end)
        (category (je_entryType e))
        (mkMoney currency (serializeMinorUnits (jp_amountMinor p)))
        (mkMoney currency (serializeMinorUnits balance))
        (toISOString (je_effectiveAt e)) (toISOString (jp_createdAt p))
      :: running accountId currency balance rest
  end.

Definition history (customerId accountId : string)
  : DbM (CustomerAccount * list CustomerTransactionSummary) :=
  a ← account customerId accountId;
  rows ← gets (fun db => account_postings db (ca_ledgerAccountId a));
  mret (a, running accountId (ca_currency a) 0 rows).

(** Newest first: [b.postedAt.localeCompare(a.postedAt) || b.id.localeCompare(a.id)]. *)
Definition newer (a b : CustomerTransactionSummary) : Prop :=
  (ct_postedAt a <> ct_postedAt b /\ String.le (ct_postedAt b) (ct_postedAt a)) \/
  (ct_postedAt a = ct_postedAt b /\ String.le (ct_id b) (ct_id a)).
#[export] Instance newer_dec a b : Decision (newer a b).
Proof. unfold newer. apply _. Defined.

Fixpoint findIndex {A} (f : A -> bool) (l : list A) : option nat :=
  match l with
  | [] => None
  | x :: l' => if f x then Some O else S <$> findIndex f l'
  end.

(** [item.effectiveAt >= from] and [<= to] as times. *)
Definition time_ok (f : Z -> Z -> bool) (bound : option string) (at_ : string) : bool :=
  match bound with
  | None => true
  | Some text => match date_parse text, date_parse at_ with
                 | Some b, Some t => f t b
                 | _, _ => false
                 end
  end.
Definition matches (query : TransactionHistoryQuery) (item : CustomerTransactionSummary) : bool :=
  match hq_direction query with Some d => bool_decide (ct_direction item = d) | None => true end
  && match hq_category query with Some c => bool_decide (ct_category item = c) | None => true end
  && time_ok Z.geb (hq_dateFrom query) (ct_effectiveAt item)
  && time_ok Z.leb (hq_dateTo query) (ct_effectiveAt item).
Definition filtered (query : TransactionHistoryQuery) (transactions : list CustomerTransactionSummary)
  : list CustomerTransactionSummary := merge_sort newer (filter (matches query) transactions).

Definition at_cursor (cursor : Cursor) (item : CustomerTransactionSummary) : bool :=
  String.eqb (ct_displayReference item) (cur_r cursor) && String.eqb (ct_postedAt item) (cur_e cursor).

Section Service.
Context {crypto : Crypto}.

(** One page of the filtered list. *)
Definition page_of (query : TransactionHistoryQuery) (items : list CustomerTransactionSummary)
  : result LedgerErr (list CustomerTransactionSummary * option string) :=
  let filter_print := fingerprint query in
  c ← decodeCursor (hq_cursor query) filter_print;
  start ← match c with
          | None => Ok O
          | Some c => match findIndex (at_cursor c) items with
                      | Some i => Ok (S i)
                      | None => Err cursorError
                      end
          end;
  let page := take (hq_pageSize query) (drop start items) in
  Ok (page,
      match last page with
      | Some tail =>
          if (start + length page <? length items)%nat
          then Some (encodeCursor (mkCursor (ct_postedAt tail) (ct_displayReference tail) filter_print))
          else None
      | None => None
      end).

Definition list_transactions (customerId accountId : string) (query : TransactionHistoryQuery)
  : DbM (list CustomerTransactionSummary * option string) :=
  h ← history customerId accountId;
  lift_result (page_of query (filtered query h.2)).

Definition detail (customerId accountId transactionId : string) : DbM CustomerTransactionDetail :=
  h ← history customerId accountId;
  item ← require (find (fun t => String.eqb (ct_id t) transactionId) h.2) accountNotFoundError;
  mret (mkTransactionDetail item (ca_maskedReference h.1) (ca_productType h.1)).
End Service.

(** * History: the running balance and the pages *)

(** ** The running balance *)
Lemma running_last account cur b rows t : last (running account cur b rows) = Some t ->
  minorUnits (ct_balanceAfter t) = serializeMinorUnits (b + sum_by (fun r => signed_amount r.1) rows).
Proof.
  revert b. induction rows as [|[p e] rows IH]; intros b; [done|]. cbn [running].
  rewrite sum_by_cons. cbn [fst]. destruct rows as [|[p' e'] rows].
  - cbn. intros [= <-]. cbn. f_equal. lia.
  - cbn [running] in *. rewrite last_cons_cons. intros H. rewrite (IH _ H). f_equal. lia.
Qed.

Lemma signed_amount_directed p : signed_amount p = directed CREDIT p - directed DEBIT p.
Proof. unfold signed_amount, directed. destruct (jp_direction p); repeat case_decide; try done; lia. Qed.

Lemma sum_by_minus {A} (f g : A -> Z) l : sum_by (fun x => f x - g x) l = sum_by f l - sum_by g l.
Proof. induction l as [|x l IH]; [done|]. rewrite !sum_by_cons, IH. lia. Qed.

Lemma account_postings_sum db id (f : JournalPosting -> Z) : LedgerCore db ->
  sum_by (fun r => f r.1) (account_postings db id) =
  sum_by f (filter (fun p => jp_ledgerAccountId p = id) (journalPostings db)).
Proof.
  intros H. unfold account_postings.
  set (l := filter (fun p => jp_ledgerAccountId p = id) (journalPostings db)).
  rewrite <- (sum_by_Permutation f _ _ (merge_sort_Permutation posting_le l)).
  assert (Hall : forall p, p ∈ merge_sort posting_le l -> is_Some (find_entry db (jp_journalEntryId p))).
  { intros p Hp. rewrite merge_sort_Permutation in Hp. apply list_elem_of_filter in Hp as [_ Hp].
    destruct (posting_entry db H p Hp) as (e & _ & -> & _). by eexists. }
  induction (merge_sort posting_le l) as [|p ps IH]; [done|]. rewrite sum_by_cons. cbn.
  destruct (Hall p) as [e He]; [by left|]. rewrite He. cbn.
  f_equal. apply IH. intros q Hq. apply Hall. by right.
Qed.

Section Balance.
Context {pg : Postgres}.

(** The balance shown after the newest transaction of a customer's
    account is the balance of that account. *)
Theorem history_balance db customerId accountId c ts t db' :
  LedgerInv db -> history customerId accountId db = (Ok (c, ts), db') -> last ts = Some t ->
  exists b, account_balance db (ca_ledgerAccountId c) = Some b /\
    minorUnits (ct_balanceAfter t) = serializeMinorUnits b.
Proof.
  intros [H _] Hh Ht. unfold history, account in Hh. run.
  match goal with H : find _ _ = Some c |- _ => apply find_some in H as [Hc%list_elem_of_In _] end.
  destruct (inv_customers _ H c Hc) as (a & Ha & Hcl & _).
  assert (is_Some (balanceProjections db !! ca_ledgerAccountId c)) as [b Hb] by (apply H; by eexists).
  unfold account_balance. rewrite Ha. cbn [mbind option_bind]. rewrite Hb. cbn [mbind option_bind]. rewrite Hcl. eexists. split; [reflexivity|].
  rewrite (running_last _ _ _ _ _ Ht). f_equal. rewrite account_postings_sum by done.
  destruct (inv_projections _ H _ _ Hb) as [-> ->].
  rewrite (sum_by_ext _ (fun p => directed CREDIT p - directed DEBIT p)), sum_by_minus;
    [|intros; apply signed_amount_directed].
  unfold account_total. rewrite !filter_sum. unfold signedBalanceMinor. cbn. done.
Qed.
End Balance.

(** ** Pages *)
Section Pages.
Context {crypto : Crypto}.
(** Node reads back the JSON object of strings it wrote. *)
Definition cursor_object (e r f : string) : json :=
  JObj [("v", JNum 1); ("e", JStr e); ("r", JStr r); ("f", JStr f)].

Variable query : TransactionHistoryQuery.
Variable items : list CustomerTransactionSummary.
Hypothesis page_size : (1 <= hq_pageSize query)%nat.
Hypothesis presentable : forall t, t ∈ items ->
  rx_match displayTransactionReference_rx (ct_displayReference t) = true /\
  is_Some (date_parse (ct_postedAt t)).
Hypothesis distinct : NoDup ((fun t => (ct_displayReference t, ct_postedAt t)) <$> items).

Definition with_cursor (text : option string) : TransactionHistoryQuery :=
  mkHistoryQuery (hq_direction query) (hq_category query) (hq_dateFrom query) (hq_dateTo query)
    (hq_pageSize query) text.

(** A client that follows [nextCursor] to the end. *)
Fixpoint read_all (fuel : nat) (text : option string) : result LedgerErr (list CustomerTransactionSummary) :=
  match fuel with
  | O => Ok []
  | S fuel =>
      '(page, next) ← page_of (with_cursor text) items;
      match next with
      | None => Ok page
      | Some text => rest ← read_all fuel (Some text); Ok (page ++ rest)
      end
  end.

Definition cursor_after (t : CustomerTransactionSummary) : string :=
  encodeCursor (mkCursor (ct_postedAt t) (ct_displayReference t) (fingerprint query)).

Lemma decode_after t : t ∈ items ->
  decodeCursor (Some (cursor_after t)) (fingerprint query) =
  Ok (Some (mkCursor (ct_postedAt t) (ct_displayReference t) (fingerprint query))).
Proof.
  intros Ht. destruct (presentable t Ht) as [Hr Hd]. unfold decodeCursor, cursor_after, encodeCursor.
  cbn [cur_e cur_r cur_f]. set (j := JObj _).
  assert (cursor_json (cursor_text j) = Some j) as -> by (apply cursor_roundtrip; reflexivity).
  change (jfield "v" j) with (JNum 1). change (jfield "e" j) with (JStr (ct_postedAt t)).
  change (jfield "r" j) with (JStr (ct_displayReference t)).
  change (jfield "f" j) with (JStr (fingerprint query)). cbv iota.
  rewrite String.eqb_refl, Hr, bool_decide_eq_true_2 by exact Hd.
  destruct (String.eqb_spec (cursor_text j) "") as [He|_]; [by destruct (cursor_nonempty j eq_refl)|done].
Qed.

Lemma findIndex_at (l1 l2 : list CustomerTransactionSummary) t : items = l1 ++ t :: l2 ->
  findIndex (at_cursor (mkCursor (ct_postedAt t) (ct_displayReference t) (fingerprint query))) items
  = Some (length l1).
Proof.
  intros Heq. rewrite Heq in *. clear Heq presentable. induction l1 as [|x l1 IH]; cbn in *.
  - unfold at_cursor. cbn. by rewrite !String.eqb_refl.
  - apply NoDup_cons in distinct as [Hx Hn]. rewrite IH by done.
    destruct (at_cursor _ x) eqn:Hat; [|done]. unfold at_cursor in Hat. cbn in Hat. bool_to_Z.
    destruct Hx. rewrite fmap_app. apply elem_of_app. right. cbn. rewrite H, H0. by left.
Qed.

Lemma page_at start text :
  (text = None /\ start = O) \/
  (exists l1 t l2, text = Some (cursor_after t) /\ items = l1 ++ t :: l2 /\ start = S (length l1)) ->
  let page := take (hq_pageSize query) (drop start items) in
  page_of (with_cursor text) items =
  Ok (page, match last page with
            | Some tail => if (start + length page <? length items)%nat
                           then Some (cursor_after tail) else None
            | None => None
            end).
Proof.
  intros [[-> ->]|(l1 & t & l2 & -> & Heq & ->)]; unfold page_of; cbn [with_cursor hq_cursor hq_pageSize].
  - reflexivity.
  - change (fingerprint (with_cursor (Some (cursor_after t)))) with (fingerprint query).
    rewrite decode_after by (rewrite Heq; set_solver). cbn [mbind result_bind].
    rewrite (findIndex_at l1 l2 t Heq). reflexivity.
Qed.

Lemma read_from fuel start text : (length items - start <= fuel)%nat -> (0 < fuel)%nat -> (start <= length items)%nat ->
  (text = None /\ start = O) \/
  (exists l1 t l2, text = Some (cursor_after t) /\ items = l1 ++ t :: l2 /\ start = S (length l1)) ->
  read_all fuel text = Ok (drop start items).
Proof.
  revert start text. induction fuel as [|fuel IH]; intros start text Hfuel Hpos Hle Hat; [lia|].
  cbn [read_all]. rewrite (page_at start text Hat). cbn [mbind result_bind].
  set (page := take (hq_pageSize query) (drop start items)).
  assert (Hlen : length page = Nat.min (hq_pageSize query) (length items - start))
    by (unfold page; by rewrite length_take, length_drop).
  assert (Hdrop : drop start items = page ++ drop (start + length page) items).
  { rewrite <- drop_drop, Hlen. unfold page. rewrite <- length_drop.
    rewrite <- (take_drop (hq_pageSize query) (drop start items)) at 1. f_equal.
    destruct (Nat.min_spec (hq_pageSize query) (length (drop start items))) as [[_ ->]|[Hge ->]]; [done|].
    by rewrite !drop_ge. }
  destruct (Nat.ltb_spec (start + length page) (length items)) as [Hlt|Hge].
  - assert (page <> []) as Hne by (intros Hp; rewrite Hp in Hlen; cbn in Hlen; lia).
    destruct (last page) as [tail|] eqn:Hlast; [|by apply last_None in Hlast].
    apply last_Some in Hlast as [front Hfront].
    assert (0 < length page)%nat by (destruct page; [done|cbn; lia]).
    rewrite (IH (start + length page)%nat); [cbn; by rewrite <- Hdrop|lia|lia|lia|].
    right. exists (take start items ++ front), tail, (drop (start + length page) items).
    split; [done|]. split.
    + rewrite <- app_assoc. cbn. rewrite <- (take_drop start items) at 1. f_equal.
      rewrite Hdrop at 1. rewrite Hfront at 1. by rewrite <- app_assoc.
    + rewrite length_app, length_take, Hfront, length_app. cbn. lia.
  - rewrite Hdrop, drop_ge, app_nil_r by lia. by destruct (last page).
Qed.

(** The first page and the cursors it starts read all of [items], in at most
    one page per item, and one when there are none. *)
Lemma read_complete : read_all (Nat.max 1 (length items)) None = Ok items.
Proof. rewrite (read_from _ O); [by rewrite drop_0|lia|lia|lia|by left]. Qed.
End Pages.

(** *** The pages of an account's history *)
#[export] Instance newer_total : Total newer.
Proof.
  intros a b. unfold newer. destruct (decide (ct_postedAt a = ct_postedAt b)) as [He|Hne].
  - destruct (total String.le (ct_id a) (ct_id b)); [right|left]; right; by rewrite ?He.
  - destruct (total String.le (ct_postedAt a) (ct_postedAt b)); [right|left]; left; split; congruence.
Qed.
Lemma running_elem account cur b rows t : t ∈ running account cur b rows ->
  exists p e, (p, e) ∈ rows /\ ct_displayReference t = displayReference (jp_id p) /\ ct_postedAt t = toISOString (jp_createdAt p).
Proof.
  revert b. induction rows as [|[p e] rows IH]; intros b; cbn [running]; [by intros ?%not_elem_of_nil|].
  intros [->|(p' & e' & Hin & H)%IH]%elem_of_cons; [exists p, e; split; [by left|done]|]. exists p', e'. split; [by right|done].
Qed.
Section Following.
Context {crypto : Crypto} {pg : Postgres}.
Variables customerId accountId : string.
Variable query : TransactionHistoryQuery.
(** A client that asks for the first page and then for the page of every
    [nextCursor], [fuel] pages at most. *)
Fixpoint follow (fuel : nat) (cursor : option string) : DbM (list CustomerTransactionSummary) :=
  match fuel with
  | O => mret []
  | S fuel =>
      '(page, next) ← list_transactions customerId accountId (with_cursor query cursor);
      match next with
      | None => mret page
      | Some cursor => rest ← follow fuel (Some cursor); mret (page ++ rest)
      end
  end.
Lemma history_reads db h db' : history customerId accountId db = (Ok h, db') -> db' = db /\
  forall t, t ∈ h.2 -> exists p, p ∈ journalPostings db /\ ct_displayReference t = displayReference (jp_id p) /\
    ct_postedAt t = toISOString (jp_createdAt p).
Proof.
  unfold history, account. intros H. run. split; [done|]. cbn. intros t (p & e & Hin & Hr & Ht)%running_elem. exists p. split; [|done].
  unfold account_postings in Hin. apply list_elem_of_omap in Hin as (q & Hq & He). destruct (find_entry db _); [|done]. injection He as -> _.
  rewrite merge_sort_Permutation in Hq. by apply list_elem_of_filter in Hq as [_ Hq].
Qed.
Lemma follow_reads db a ts fuel cursor l : history customerId accountId db = (Ok (a, ts), db) ->
  read_all query (filtered query ts) fuel cursor = Ok l -> follow fuel cursor db = (Ok l, db).
Proof.
  intros Hh. revert cursor l. induction fuel as [|fuel IH]; intros cursor l; cbn [read_all follow]; [by intros [= ->]|].
  unfold list_transactions. change (filtered (with_cursor query cursor)) with (filtered query).
  destruct (page_of (with_cursor query cursor) (filtered query ts)) as [[page next]|e] eqn:Hp; [|done]. cbn [mbind result_bind].
  intros H. assert (Hl : (h ← history customerId accountId; lift_result (page_of (with_cursor query cursor) (filtered query h.2))) db = (Ok (page, next), db)).
  { rewrite (bind_Ok _ _ _ _ _ _ _ Hh). cbn [snd]. by rewrite Hp. }
  rewrite (bind_Ok _ _ _ _ _ _ _ Hl). destruct next as [text|]; [|by injection H as ->].
  destruct (read_all _ _ fuel (Some text)) as [rest|e] eqn:Hrest; [|done]. injection H as <-.
  by rewrite (bind_Ok _ _ _ _ _ _ _ (IH _ _ Hrest)).
Qed.
(** C22: a client that follows the cursors of an account's history reads exactly
    the transactions that match its query, each once, newest first, in at most
    one page per transaction (one page when there are none), and changes
    nothing, provided that pages are not empty, that the identifiers and times
    of the postings make well-formed references and dates, and that no two of
    the matching transactions have both the same time and the same display
    reference, by which a cursor tells them apart. *)
Theorem pages_complete db a ts db' : history customerId accountId db = (Ok (a, ts), db') ->
  (1 <= hq_pageSize query)%nat ->
  (forall p, p ∈ journalPostings db -> four_digit_year (jp_createdAt p) /\
     rx_match displayTransactionReference_rx (displayReference (jp_id p)) = true) ->
  let items := filtered query ts in
  NoDup ((fun t => (ct_displayReference t, ct_postedAt t)) <$> items) ->
  follow (Nat.max 1 (length items)) None db = (Ok items, db) /\
  items ≡ₚ filter (matches query) ts /\ Sorted newer items.
Proof.
  intros Hh Hsize Hposts items Hdistinct. apply history_reads in Hh as Hr. destruct Hr as [-> Helem]. cbn [snd] in Helem.
  split; [|split; [apply merge_sort_Permutation|apply Sorted_merge_sort; apply _]].
  eapply follow_reads; [exact Hh|]. apply read_complete; [done| |done]. intros t Ht. unfold items, filtered in Ht.
  rewrite merge_sort_Permutation in Ht. apply list_elem_of_filter in Ht as [_ Ht]. destruct (Helem t Ht) as (p & Hp & -> & ->).
  destruct (Hposts p Hp) as [Hy Hx]. split; [done|]. rewrite date_parse_toISOString by done. by eexists.
Qed.
End Following.
