(* ===== verification/Fixtures.v ===== *)
(** * Concrete instances of the parameters, and a small ledger built by running
    the operations: the inputs of the witnesses. *)

From Stdlib Require Import ZArith Lia Ascii String.
From stdpp Require Import base strings list gmap sorting.
From S2P Require Import Prelude.
From S2P Require Import Js.
From S2P Require Import Regex.
From S2P Require Import Contracts.
From S2P Require Import Security.
From S2P Require Import LedgerDb.
From S2P Require Import Idempotency.
From S2P Require Import Journal.
From S2P Require Import Accounts.
From S2P Require Import CustomerTransfer.

Open Scope Z_scope.

#[export] Instance fx_zod : Zod := {|
  z_uuid := fun s => (String.length s =? 36)%nat;
  z_datetime := fun s => bool_decide (is_Some (date_parse s))
|}.
#[export] Instance fx_pg : Postgres := {|
  pg_uuid := fun s => (String.length s =? 36)%nat;
  prisma_target := fun _ fields => join "," fields;
  uuid := fun n => "00000000-0000-4000-8000-" +:+ padded 12 (Z.of_N n)
|}.
#[export] Instance fx_crypto : Crypto := {| sha256 := fun s => "#" +:+ s |}.

Definition fx_config : LedgerConfig := 
  mkLedgerConfig "development" "127.0.0.1" 4102 "postgresql://ledger" "ledger-token" "LKR" 24 3 "http://127.0.0.1:4105"
    "ledger-source-token" 2000.
Definition fx_now : Z := 1785508245678.
Definition fx_id (n : Z) : string := "00000000-0000-4000-8000-" +:+ padded 12 n.
Definition fx_correlation : string := fx_id 999.

(** The chart of accounts of the migration. *)
Definition settlement : LedgerAccount :=
  mkLedgerAccount "SYS-PLATFORM-SETTLEMENT-LKR" "Platform settlement (LKR)" "LKR" ASSET DEBIT
    (Some PLATFORM_SETTLEMENT_ASSET) true fx_now.
Definition control : LedgerAccount :=
  mkLedgerAccount "SYS-CUSTOMER-FUNDS-CONTROL-LKR" "Customer funds control (LKR)" "LKR" LIABILITY CREDIT
    (Some CUSTOMER_FUNDS_LIABILITY_CONTROL) true fx_now.
Definition settlement_id : string := fx_id 900.
Definition control_id : string := fx_id 901.
Definition migrated : LedgerDb :=
  mkDb {[ settlement_id := settlement; control_id := control ]}
    {[ settlement_id := mkProjection 0 0 0 fx_now; control_id := mkProjection 0 0 0 fx_now ]}
    [] [] [] ∅ [] 0.

Definition state_of {A} (x : result LedgerErr A * World) : LedgerDb := wdb x.2.
Definition ok_of {A} (x : result LedgerErr A * World) : option A :=
  match x.1 with Ok a => Some a | Err _ => None end.

Definition alice : string := fx_id 801.
Definition bob : string := fx_id 802.
Definition provision_input (customer key : string) : InternalProvisionDefaultAccountInput :=
  mkProvisionInput customer TIER0_WALLET "LKR" key.
Definition db_alice : LedgerDb := Eval vm_compute in
  state_of (provisionDefault fx_config fx_now (fun a i => a + i)%nat
              (provision_input alice "provision-alice-01") (quiet migrated)).
Definition db_wallets : LedgerDb := Eval vm_compute in
  state_of (provisionDefault fx_config fx_now (fun a i => a + 2 * i + 1)%nat
              (provision_input bob "provision-bob-0001") (quiet db_alice)).

Definition account_of (db : LedgerDb) (customer : string) : option CustomerAccount :=
  find (fun c => String.eqb (ca_customerId c) customer) (customerAccounts db).
Definition alice_wallet : string := Eval vm_compute in
  match account_of db_wallets alice with Some c => ca_ledgerAccountId c | None => "" end.
Definition bob_wallet : string := Eval vm_compute in
  match account_of db_wallets bob with Some c => ca_ledgerAccountId c | None => "" end.

(** The settlement account funds Alice with 1,000.00 LKR. *)
Definition funding : InternalJournalRequest :=
  mkJournalRequest (Some "FUNDING-0001"%string) SETTLEMENT_FUNDING "LKR" None None "funding-key-000001"
    [mkPostingRequest settlement_id DEBIT "100000"; mkPostingRequest alice_wallet CREDIT "100000"]
    None.
Definition internal_actor : JournalActor := mkActor "SERVICE" "internal".
Abbreviation fx_post r := (post fx_config fx_now r fx_correlation internal_actor).
Definition db_funded : LedgerDb := Eval vm_compute in state_of (fx_post funding (quiet db_wallets)).

(** Alice sends Bob 600.00 LKR. *)
Definition alice_to_bob : InternalLedgerTransferCommand :=
  match account_of db_wallets alice, account_of db_wallets bob with
  | Some a, Some b =>
      mkTransferCommand
        (mkTransferPreview alice (ca_id a) (ca_publicReference b) "60000" "LKR")
        (fx_id 701) "AEGIS-TRF-0000-0000-0001" "transfer:key-00000001"
  | _, _ => mkTransferCommand (mkTransferPreview "" "" "" "" "") "" "" ""
  end.
Abbreviation fx_transfer c :=
  (transfer_endpoint fx_config fx_now c fx_correlation).
Definition db_transferred : LedgerDb := Eval vm_compute in
  state_of (fx_transfer alice_to_bob (quiet db_funded)).

Example fx_balances :
  (account_balance db_funded alice_wallet, account_balance db_transferred alice_wallet,
   account_balance db_transferred bob_wallet) = (Some 100000, Some 40000, Some 60000).
Proof. vm_compute. reflexivity. Qed.

(** ** An executable check of the invariant *)
Definition is_none {A} (o : option A) : bool := match o with None => true | Some _ => false end.
Definition ledger_check (db : LedgerDb) : bool :=
  forallb (fun '(id, a) => match balanceProjections db !! id with
    | Some b => la_allowNegativeBalance a
        || (0 <=? signedBalanceMinor (la_accountClass a) (bp_debitTotalMinor b) (bp_creditTotalMinor b))
    | None => false end) (map_to_list (ledgerAccounts db))
  && forallb (fun '(id, b) => negb (is_none (ledgerAccounts db !! id))
       && (bp_debitTotalMinor b =? account_total db id DEBIT)
       && (bp_creditTotalMinor b =? account_total db id CREDIT)) (map_to_list (balanceProjections db))
  && forallb (fun e => is_none (assert_journal_integrity db (je_id e))) (journalEntries db)
  && bool_decide (NoDup (je_id <$> journalEntries db))
  && forallb (fun p => (0 <? jp_amountMinor p)
       && existsb (fun e => String.eqb (je_id e) (jp_journalEntryId p)) (journalEntries db)
       && negb (is_none (ledgerAccounts db !! jp_ledgerAccountId p))) (journalPostings db)
  && forallb (fun c => match ledgerAccounts db !! ca_ledgerAccountId c with
       | Some a => bool_decide (la_accountClass a = LIABILITY) && negb (la_allowNegativeBalance a)
                   && String.eqb (la_currency a) (ca_currency c)
       | None => false end) (customerAccounts db)
  && bool_decide (NoDup (customer_identity <$> customerAccounts db))
  && bool_decide (NoDup (ca_publicReference <$> customerAccounts db))
  && bool_decide (NoDup (ca_ledgerAccountId <$> customerAccounts db))
  && forallb (fun '(_, r) => ir_completed r && negb (is_none (ir_responseBody r)))
       (map_to_list (idempotencyRecords db)).

Lemma negb_is_none {A} (o : option A) : negb (is_none o) = true -> is_Some o.
Proof. by destruct o; [eexists|]. Qed.
Lemma forallb_elem {A} (f : A -> bool) l x : forallb f l = true -> x ∈ l -> f x = true.
Proof. rewrite forallb_forall. intros H Hx. by apply H, list_elem_of_In. Qed.

Lemma ledger_check_sound db : ledger_check db = true -> LedgerInv db.
Proof.
  unfold ledger_check. intros H. repeat apply andb_prop in H as [H ?].
  repeat match goal with H : bool_decide _ = true |- _ => apply bool_decide_eq_true in H end.
  repeat match goal with H : forallb _ _ = true |- _ => pose proof (fun x => forallb_elem _ _ x H); clear H end.
  assert (Hacc : forall id a, ledgerAccounts db !! id = Some a -> exists b, balanceProjections db !! id = Some b /\
    (la_allowNegativeBalance a = false ->
     0 <= signedBalanceMinor (la_accountClass a) (bp_debitTotalMinor b) (bp_creditTotalMinor b))).
  { intros id a Ha%elem_of_map_to_list.
    match goal with H : forall x, x ∈ map_to_list (ledgerAccounts db) -> _ |- _ => specialize (H _ Ha); cbn beta iota in H; rename H into Hb end.
    destruct (balanceProjections db !! id) as [b|]; [|done]. exists b. split; [done|]. intros Hn.
    rewrite Hn in Hb. cbn [orb] in Hb. by bool_to_Z. }
  assert (Hproj : forall id b, balanceProjections db !! id = Some b -> is_Some (ledgerAccounts db !! id) /\
    bp_debitTotalMinor b = account_total db id DEBIT /\ bp_creditTotalMinor b = account_total db id CREDIT).
  { intros id b Hb%elem_of_map_to_list.
    match goal with H : forall x, x ∈ map_to_list (balanceProjections db) -> _ |- _ => specialize (H _ Hb); cbn beta iota in H; rename H into Hc end.
    apply andb_prop in Hc as [[Hc1 Hc2]%andb_prop Hc3]. apply negb_is_none in Hc1. bool_to_Z. done. }
  constructor; [constructor|]; try done.
  - intros id. split; [intros [a Ha]; destruct (Hacc _ _ Ha) as (b & -> & _); by eexists|].
    intros [b Hb]. by apply Hproj in Hb as [? _].
  - intros id b Hb. by apply Hproj in Hb as (_ & ? & ?).
  - intros e He. match goal with H : forall x, x ∈ journalEntries db -> _ |- _ => specialize (H e He); cbn beta iota in H end.
    by destruct (assert_journal_integrity db (je_id e)).
  - intros p Hp. match goal with H : forall x, x ∈ journalPostings db -> _ |- _ => specialize (H p Hp); cbn beta iota in H; rename H into Hc end.
    apply andb_prop in Hc as [[Hc1 Hc2]%andb_prop Hc3]. apply negb_is_none in Hc3.
    apply existsb_exists in Hc2 as (e & He%list_elem_of_In & Hid). bool_to_Z.
    split; [done|]. split; [by exists e|done].
  - intros id a b Ha Hb Hn. destruct (Hacc _ _ Ha) as (b' & Hb' & Hpos). rewrite Hb in Hb'.
    injection Hb' as <-. auto.
  - intros c Hc. match goal with H : forall x, x ∈ customerAccounts db -> _ |- _ => specialize (H c Hc); cbn beta iota in H; rename H into Hb end.
    unfold customer_backed. destruct (ledgerAccounts db !! ca_ledgerAccountId c) as [a|]; [|done].
    exists a. bool_to_Z. done.
  - intros k r Hr%elem_of_map_to_list.
    match goal with H : forall x, x ∈ map_to_list (idempotencyRecords db) -> _ |- _ => specialize (H _ Hr); cbn beta iota in H; rename H into Hb end.
    apply andb_prop in Hb as [Hc Hb]. by apply negb_is_none in Hb.
Qed.

Lemma funded_inv : LedgerInv db_funded.
Proof. apply ledger_check_sound. vm_compute. reflexivity. Qed.
Lemma wallets_inv : LedgerInv db_wallets.
Proof. apply ledger_check_sound. vm_compute. reflexivity. Qed.
Lemma migrated_inv : LedgerInv migrated.
Proof. apply ledger_check_sound. vm_compute. reflexivity. Qed.
Lemma transferred_inv : LedgerInv db_transferred.
Proof. apply ledger_check_sound. vm_compute. reflexivity. Qed.
