(* ===== verification/LedgerWitnesses.v ===== *)
(** * The Ledger theorems at concrete inputs *)

From Stdlib Require Import ZArith Lia Ascii String.
From stdpp Require Import base strings list gmap sorting.
From S2P Require Import Prelude.
From S2P Require Import Js.
From S2P Require Import Regex.
From S2P Require Import Contracts.
From S2P Require Import Security.
From S2P Require Import Calendar.
From S2P Require Import LedgerDb.
From S2P Require Import Idempotency.
From S2P Require Import Journal.
From S2P Require Import JournalProofs.
From S2P Require Import JournalProperties.
From S2P Require Import Accounts.
From S2P Require Import CustomerTransfer.
From S2P Require Import LedgerReconciliation.
From S2P Require Import LedgerSystem.
From S2P Require Import Transactions.
From S2P Require Import Fixtures.

Open Scope Z_scope.

(** A second funding of Alice, under a fresh key. *)
Definition refunding : InternalJournalRequest :=
  mkJournalRequest (Some "FUNDING-0002"%string) SETTLEMENT_FUNDING "LKR" None None "funding-key-000002"
    [mkPostingRequest settlement_id DEBIT "500"; mkPostingRequest alice_wallet CREDIT "300";
     mkPostingRequest alice_wallet CREDIT "200"] None.

Definition keep (P : LedgerDb -> Prop) (w : World) (H : world_inv P w) : P (wdb w) := proj1 H.
Lemma quiet_inv P db : P db -> world_inv P (quiet db).
Proof. intros H. split; [exact H|constructor]. Qed.

(** A run that returns, and a property of what it returns, both computed. *)
Lemma returned {S A} (x : result LedgerErr A * S) (f : A -> S -> bool) :
  match x with (Ok a, s) => f a s | _ => false end = true -> exists a s, x = (Ok a, s) /\ f a s = true.
Proof. destruct x as [[a|e] s]; [eauto|discriminate]. Qed.
Definition any {A S} (_ : A) (_ : S) : bool := true.

Lemma post_preserves_inv_witness :
  world_inv LedgerInv (fx_post refunding (quiet db_funded)).2.
Proof.
  pose proof (post_preserves_inv fx_config fx_now refunding fx_correlation internal_actor
    (quiet db_funded) (quiet_inv _ _ funded_inv)) as H.
  destruct (post fx_config fx_now refunding _ _ _) as [[r|e] w]; exact H.
Defined.

Lemma trial_balance_holds_witness : (trial_balance db_funded).1 = 100000 /\
  (trial_balance db_funded).1 = (trial_balance db_funded).2.
Proof. split; [vm_compute; reflexivity|apply (trial_balance_holds db_funded funded_inv)]. Defined.

Lemma refunding_fresh : idempotencyRecords db_funded !!
  record_key journalEntry (sha256 (jr_idempotencyKey refunding)) = None.
Proof. vm_compute. reflexivity. Qed.
Lemma refunding_ok : exists r w', fx_post refunding (quiet db_funded) = (Ok r, w') /\ any r w' = true.
Proof. apply returned. vm_compute. reflexivity. Qed.
Definition alice_account : LedgerAccount := Eval vm_compute in
  match ledgerAccounts db_funded !! alice_wallet with Some a => a | None => settlement end.
Lemma alice_account_ok : ledgerAccounts db_funded !! alice_wallet = Some alice_account.
Proof. vm_compute. reflexivity. Qed.

Lemma post_effect_witness :
  exists r w', fx_post refunding (quiet db_funded) = (Ok r, w') /\
    account_balance (wdb w') alice_wallet =
    balance_after (la_accountClass alice_account) alice_wallet (jr_postings refunding)
      <$> account_balance db_funded alice_wallet.
Proof.
  destruct refunding_ok as (r & w' & H & _). exists r, w'. split; [exact H|].
  destruct (post_effect fx_config fx_now refunding fx_correlation internal_actor db_funded r w'
    refunding_fresh H) as (Hb & _).
  exact (Hb alice_wallet alice_account alice_account_ok).
Defined.

Definition well_formed (r : JournalResult) (w : World) : bool :=
  match journalResultSchema r with
  | Some r' => String.eqb (jres_reference r') (jres_reference r) && String.eqb (jres_currency r') (jres_currency r)
  | None => false
  end.
Definition funding_result : JournalResult := Eval vm_compute in
  match fx_post funding (quiet db_wallets) with
  | (Ok r, _) => r
  | _ => mkJournalResult "" "" INTERNAL_TEST "" "" "" "" []
  end.
Lemma funding_run : fx_post funding (quiet db_wallets) = (Ok funding_result, quiet db_funded).
Proof. vm_compute. reflexivity. Qed.
Lemma funding_schema : journalResultSchema funding_result = Some funding_result.
Proof. vm_compute. reflexivity. Qed.
(** Alice's transfer and a reconciliation come between. *)
Definition db_between : LedgerDb := Eval vm_compute in
  serve fx_config (fx_now + 2000) (Reconcile fx_correlation)
    (quiet (serve fx_config (fx_now + 1000) (CustomerTransfer alice_to_bob fx_correlation) (quiet db_funded))).
Lemma settled_between : later fx_config db_funded db_between.
Proof.
  assert (H : later fx_config db_funded (serve fx_config (fx_now + 2000) (Reconcile fx_correlation)
    (quiet (serve fx_config (fx_now + 1000) (CustomerTransfer alice_to_bob fx_correlation) (quiet db_funded)))))
    by (repeat (apply later_step; [|constructor]); apply later_now).
  refine (eq_rect _ (later fx_config db_funded) H _ _). vm_compute. reflexivity.
Qed.
Lemma post_replays_witness : length (journalEntries db_between) = 2%nat /\
  post fx_config (fx_now + 3000) funding fx_correlation internal_actor (mkWorld db_between [set_runs (fun _ => [])]) =
  (Ok funding_result, mkWorld (set_runs (fun _ => []) db_between) []).
Proof.
  split; [reflexivity|].
  apply (post_replays fx_config funding fx_correlation internal_actor fx_correlation internal_actor fx_now (fx_now + 3000)
    (quiet db_wallets) funding_result (quiet db_funded) db_between [set_runs (fun _ => [])]);
    [intros t Ht; discriminate|exact funding_schema|exact funding_run|exact settled_between|].
  constructor; [|constructor]. intros db k rec Hr _. exact Hr.
Defined.

Definition refunding_postings : list Posting :=
  [mkNormalised settlement_id DEBIT 500; mkNormalised alice_wallet CREDIT 500].
Lemma refunding_normal : normalisePostings (jr_postings refunding) = Some refunding_postings.
Proof. vm_compute. reflexivity. Qed.
Lemma refunding_balanced : assertBalanced refunding_postings = Some 500.
Proof. vm_compute. reflexivity. Qed.
Lemma refunding_body : exists r db',
  post_run fx_now refunding fx_correlation internal_actor refunding_postings 500 db_funded = (Ok r, db') /\
  any r db' = true.
Proof. apply returned. vm_compute. reflexivity. Qed.

Lemma triggers_accept_witness :
  exists r db', post_run fx_now refunding fx_correlation internal_actor refunding_postings 500 db_funded
      = (Ok r, db') /\ commit_checks db_funded (set_records (fun m => m) db') = None.
Proof.
  destruct refunding_body as (r & db' & H & _). exists r, db'. split; [exact H|].
  exact (triggers_accept fx_now refunding fx_correlation internal_actor refunding_postings 500 db_funded
    r db' (fun m => m) funded_inv refunding_balanced H).
Defined.

Abbreviation provision_alice := (provisionDefault fx_config fx_now (fun a i => a + i)%nat
  (provision_input alice "provision-alice-01") (quiet migrated)).
Lemma provision_alice_ok : exists r w', provision_alice = (Ok r, w') /\ pv_created r = true.
Proof. apply (returned _ (fun r _ => pv_created r)). vm_compute. reflexivity. Qed.
Lemma migrated_fresh key : idempotencyRecords migrated !! key = None.
Proof. reflexivity. Qed.

Lemma provision_effect_witness :
  exists r w', provision_alice = (Ok r, w') /\ exists c, customerAccounts (wdb w') = [c] /\
    account_balance (wdb w') (ca_ledgerAccountId c) = Some 0.
Proof.
  destruct provision_alice_ok as (r & w' & H & Hc). exists r, w'. split; [exact H|].
  destruct (provision_effect fx_config fx_now (fun a i => a + i)%nat
    (provision_input alice "provision-alice-01") migrated r w' migrated_inv (migrated_fresh _) H) as (_ & He).
  rewrite Hc in He. destruct He as (_ & c & Hl & _ & Hb & _). exists c. split; [exact Hl|exact Hb].
Defined.

Lemma alice_to_bob_ok : exists r w',
  transfer fx_config fx_now alice_to_bob fx_correlation (quiet db_funded) = (Ok r, w') /\ any r w' = true.
Proof. apply returned. vm_compute. reflexivity. Qed.
Lemma alice_to_bob_fresh : idempotencyRecords db_funded !!
  record_key journalEntry (sha256 (tc_idempotencyKey alice_to_bob)) = None.
Proof. vm_compute. reflexivity. Qed.

Lemma transfer_effect_witness :
  exists res w', transfer fx_config fx_now alice_to_bob fx_correlation (quiet db_funded) = (Ok res, w') /\
    exists s b, s ∈ customerAccounts db_funded /\
      account_balance db_funded (ca_ledgerAccountId s) = Some b /\
      account_balance (wdb w') (ca_ledgerAccountId s) =
        Some (b - BigInt (tp_amountMinor (tc_preview alice_to_bob))).
Proof.
  destruct alice_to_bob_ok as (res & w' & H & _). exists res, w'. split; [exact H|].
  destruct (transfer_effect fx_config fx_now alice_to_bob fx_correlation db_funded res w' funded_inv
    alice_to_bob_fresh H) as (s & r & Hs & _ & _ & _ & _ & _ & (b & Hb & _ & Hb') & _).
  exists s, b. split; [exact Hs|]. split; [exact Hb|exact Hb'].
Defined.

Lemma transferred_consistent : consistent db_transferred.
Proof. split; [exact transferred_inv|]. apply Nat.leb_le. vm_compute. reflexivity. Qed.
Lemma reconciled : exists r w,
  run_reconciliation fx_now fx_correlation (quiet db_transferred) = (Ok r, w) /\ rr_pass r.1 = true.
Proof. apply (returned _ (fun r _ => rr_pass r.1)). vm_compute. reflexivity. Qed.

Lemma reconciliation_passes_witness :
  exists r w, run_reconciliation fx_now fx_correlation (quiet db_transferred) = (Ok (r, None), w) /\
    rr_issues r = [].
Proof.
  pose proof (reconciliation_passes fx_now fx_correlation (quiet db_transferred)
    (quiet_inv _ _ transferred_consistent)) as H.
  destruct reconciled as ([r o] & w & Hr & _). rewrite Hr in H. destruct H as (_ & Hi & Ho & _).
  exists r, w. rewrite <- Ho. split; [exact Hr|exact Hi].
Defined.

Lemma reconciliation_sound_witness :
  exists r w, run_reconciliation fx_now fx_correlation (quiet db_transferred) = (Ok r, w) /\
    forall e, e ∈ journalEntries db_transferred ->
      (2 <= length (entry_postings db_transferred (je_id e)))%nat.
Proof.
  destruct reconciled as ([r o] & w & Hr & Hp). exists (r, o), w. split; [exact Hr|].
  destruct (reconciliation_sound fx_now fx_correlation db_transferred r o w Hr Hp) as [He _].
  intros e Hin. exact (proj1 (He e Hin)).
Defined.

Definition alice_account_id : string := Eval vm_compute in
  match account_of db_wallets alice with Some a => ca_id a | None => "" end.
Definition has_last (h : CustomerAccount * list CustomerTransactionSummary) (_ : LedgerDb) : bool :=
  match last h.2 with Some _ => true | None => false end.
Lemma alice_history : exists h db', history alice alice_account_id db_transferred = (Ok h, db') /\
  has_last h db' = true.
Proof. apply returned. vm_compute. reflexivity. Qed.

Lemma history_balance_witness :
  exists c ts t db', history alice alice_account_id db_transferred = (Ok (c, ts), db') /\
    exists b, account_balance db_transferred (ca_ledgerAccountId c) = Some b /\
      minorUnits (ct_balanceAfter t) = serializeMinorUnits b.
Proof.
  destruct alice_history as ([c ts] & db' & H & Hl). unfold has_last in Hl. cbn in Hl.
  destruct (last ts) as [t|] eqn:Ht; [|discriminate]. exists c, ts, t, db'. split; [exact H|].
  exact (history_balance db_transferred alice alice_account_id c ts t db' transferred_inv H Ht).
Defined.

Definition db_twice : LedgerDb := Eval vm_compute in
  state_of (transfer_endpoint fx_config (fx_now + 1000) alice_to_bob fx_correlation (quiet db_funded)).
Definition one_per_page : TransactionHistoryQuery := mkHistoryQuery None None None None 1 None.
Definition two_transactions : CustomerAccount * list CustomerTransactionSummary := Eval vm_compute in
  match history alice alice_account_id db_twice with
  | (Ok h, _) => h
  | _ => (mkCustomerAccount "" "" "" "" TIER0_WALLET "" ACTIVE "" 0, [])
  end.
Lemma two_history : history alice alice_account_id db_twice = (Ok (two_transactions.1, two_transactions.2), db_twice).
Proof. vm_compute. reflexivity. Qed.
Lemma two_postings : forallb (fun p => bool_decide (four_digit_year (jp_createdAt p))
  && rx_match displayTransactionReference_rx (displayReference (jp_id p))) (journalPostings db_twice) = true.
Proof. vm_compute. reflexivity. Qed.
Lemma two_distinct : NoDup ((fun t => (ct_displayReference t, ct_postedAt t)) <$> filtered one_per_page two_transactions.2).
Proof. apply (bool_decide_unpack _). vm_compute. exact I. Qed.

Lemma pages_complete_witness :
  length (filtered one_per_page two_transactions.2) = 2%nat /\
  follow alice alice_account_id one_per_page 2 None db_twice = (Ok (filtered one_per_page two_transactions.2), db_twice).
Proof.
  split; [vm_compute; reflexivity|].
  refine (proj1 (pages_complete alice alice_account_id one_per_page db_twice two_transactions.1 two_transactions.2 db_twice two_history _ _ two_distinct)).
  - apply Nat.leb_le. reflexivity.
  - intros p Hp. pose proof (forallb_elem _ _ p two_postings Hp) as H.
    apply andb_prop in H as [H1 H2]. apply bool_decide_eq_true in H1. exact (conj H1 H2).
Defined.
