(* ===== verification/PaymentsDb.v ===== *)
(** * The Payments database: tables and statements ([services/payments/prisma]),
    errors and hashing helpers ([services/payments/src/common]) *)

From Stdlib Require Import ZArith Lia Ascii String.
From stdpp Require Import base strings list gmap.
From S2P Require Import Prelude.
From S2P Require Import Js.
From S2P Require Import Codec.
From S2P Require Import Regex.
From S2P Require Import Contracts.
From S2P Require Import Security.
From S2P Require Import LedgerDb.

Open Scope Z_scope.

(** ** Errors *)
Inductive PaymentsErr :=
| PaymentsError (code message : string) (status : Z)
| LedgerCallError (status : Z) (code : option string)
| PayP2002 (table : string) (fields : list string)
| PayDbError (what : string)
| PayJsError (message : string).

(** [new PaymentsError(code)] with the default message and status. *)
Definition paymentsError (code : string) : PaymentsErr :=
  PaymentsError code "The transfer could not be completed." 409.

Record PaymentsConfig := mkPaymentsConfig {
  pc_nodeEnvironment : string;
  pc_host : string;
  pc_port : Z;
  pc_databaseUrl : string;
  pc_internalToken : string;
  pc_ledgerServiceUrl : string;
  pc_ledgerInternalToken : string;
  minTransferMinor : Z;
  maxTransferMinor : Z;
  dailyOutgoingLimitMinor : Z;
  intentTtlSeconds : Z;
  pc_httpTimeoutMs : Z;
  recoveryStaleSeconds : Z;
  maxProcessingAttempts : Z;
  pc_idempotencyRetentionHours : Z;
  pc_riskServiceUrl : string;
  pc_riskInternalToken : string;
  pc_riskPaymentsSourceToken : string;
  pc_riskTimeoutMs : Z;
  qrSigningKey : string;
  qrDynamicTtlSeconds : Z;
  qrStaticTtlHours : Z;
  pc_redisUrl : string;
  pc_redisKeyPrefix : string
}.

(** ** Hashes and references ([common/security/security.ts]) *)

(** [a.localeCompare(b)] on ASCII letters and digits: letters compare without
    case, and a lower-case letter comes before its capital. *)
Definition swap_case (c : ascii) : ascii :=
  if is_lower c then to_upper_char c else to_lower_char c.
Definition locale_key (s : string) : string :=
  toLowerCase s +:+ String (ascii_of_nat 0) (str_map swap_case s).

Fixpoint sorted_json (v : json) : json :=
  match v with
  | JArr l => JArr (map sorted_json l)
  | JObj fs =>
      JObj (sort_by (fun kv => locale_key kv.1)
              (omap (fun '(k, v) => match v with JUndef => None | _ => Some (k, sorted_json v) end) fs))
  | _ => v
  end.

Definition canonicalHash {crypto : Crypto} (v : json) : string :=
  sha256 (default "undefined"%string (stringify (sorted_json v))).

(** [AEGIS-TRF-XXXX-XXXX-XXXX] of 24 random upper-case hexadecimal digits. *)
Definition reference_of (prefix value : string) : string :=
  prefix +:+ slice 0 4 value +:+ "-" +:+ slice 4 8 value +:+ "-" +:+ slice 8 12 value.
Definition newTransferReference (random : string) : string := reference_of "AEGIS-TRF-" random.

(** ** Tables *)
Inductive TransferStatus := PROCESSING | COMPLETED | FAILED | REQUIRES_REVIEW.
Inductive TransferFailureCode :=
| F_INSUFFICIENT_FUNDS | F_ACCOUNT_NOT_FOUND | F_ACCOUNT_NOT_ACTIVE | F_CURRENCY_MISMATCH
| F_SELF_TRANSFER | F_LIMIT_EXCEEDED | F_INTENT_EXPIRED | F_AUTHORIZATION_FAILED
| F_IDEMPOTENCY_CONFLICT | F_LEDGER_UNAVAILABLE | F_PROCESSING_TIMEOUT | F_INTERNAL_ERROR.
Inductive TransferEventType :=
| EV_INTENT_CREATED | EV_AUTHORIZED | EV_PROCESSING_STARTED | EV_LEDGER_POSTED | EV_COMPLETED
| EV_FAILED | EV_RECOVERY_RETRY | EV_REQUIRES_REVIEW.
Inductive QrType := STATIC | DYNAMIC.
Inductive QrStatus := QR_ACTIVE | QR_REDEEMED | QR_EXPIRED | QR_CANCELLED.
Inductive QrPaymentStatus := QP_PROCESSING | QP_COMPLETED | QP_FAILED.
Inductive AgentCashOperationType := OP_CASH_IN | OP_CASH_OUT.
Inductive AgentCashOperationStatus :=
| AG_PENDING_CONFIRMATION | AG_PROCESSING | AG_COMPLETED | AG_FAILED | AG_CANCELLED.

#[export] Instance TransferStatus_eq_dec : EqDecision TransferStatus.
Proof. solve_decision. Defined.
#[export] Instance TransferFailureCode_eq_dec : EqDecision TransferFailureCode.
Proof. solve_decision. Defined.
#[export] Instance QrType_eq_dec : EqDecision QrType.
Proof. solve_decision. Defined.
#[export] Instance QrStatus_eq_dec : EqDecision QrStatus.
Proof. solve_decision. Defined.
#[export] Instance QrPaymentStatus_eq_dec : EqDecision QrPaymentStatus.
Proof. solve_decision. Defined.
#[export] Instance AgentCashOperationType_eq_dec : EqDecision AgentCashOperationType.
Proof. solve_decision. Defined.
#[export] Instance AgentCashOperationStatus_eq_dec : EqDecision AgentCashOperationStatus.
Proof. solve_decision. Defined.

Record TransferIntent := mkIntent {
  ti_id : string;
  ti_tokenHash : string;
  ti_senderCustomerId : string;
  ti_sourceAccountId : string;
  ti_recipientPublicReference : string;
  ti_sourceMaskedReference : string;
  ti_recipientMaskedReference : string;
  ti_recipientCustomerId : string;
  ti_recipientAccountId : string;
  ti_currency : string;
  ti_amountMinor : Z;
  ti_sourceBalanceSnapshotMinor : Z;
  ti_expiresAt : Z;
  ti_authorizedAt : option Z;
  ti_consumedAt : option Z
}.

(** A transfer: what its creation fixes, and its progress. *)
Record TransferData := mkTransferData {
  td_displayReference : string;
  td_senderCustomerId : string;
  td_recipientCustomerId : string;
  td_senderAccountId : string;
  td_recipientAccountId : string;
  td_senderMaskedReference : string;
  td_recipientMaskedReference : string;
  td_recipientPublicReference : string;
  td_currency : string;
  td_amountMinor : Z;
  td_idempotencyKeyHash : string;
  td_requestHash : string;
  td_intentId : string;
  td_correlationId : string
}.
Record TransferProgress := mkProgress {
  tg_status : TransferStatus;
  tg_failureCode : option TransferFailureCode;
  tg_ledgerJournalId : option string;
  tg_senderPostingId : option string;
  tg_recipientPostingId : option string;
  tg_senderBalanceAfterMinor : option Z;
  tg_recipientBalanceAfterMinor : option Z;
  tg_attemptCount : Z;
  tg_nextAttemptAt : option Z;
  tg_updatedAt : Z;
  tg_completedAt : option Z;
  tg_failedAt : option Z
}.
Record Transfer := mkTransfer {
  tf_id : string;
  tf_data : TransferData;
  tf_createdAt : Z;
  tf_progress : TransferProgress
}.
Definition tf_status (t : Transfer) : TransferStatus := tg_status (tf_progress t).
Definition tf_sender (t : Transfer) : string := td_senderCustomerId (tf_data t).
Definition tf_amount (t : Transfer) : Z := td_amountMinor (tf_data t).

Record TransferEvent := mkTransferEvent {
  te_transferId : string;
  te_eventType : TransferEventType;
  te_previousStatus : option TransferStatus;
  te_nextStatus : option TransferStatus;
  te_safeCode : option TransferFailureCode;
  te_occurredAt : Z
}.

Inductive IssueSeverity := ERROR | WARNING.
#[export] Instance IssueSeverity_eq_dec : EqDecision IssueSeverity.
Proof. solve_decision. Defined.
Record PaymentsRun := mkPaymentsRun {
  pn_pass : bool;
  pn_checkedTransfers : Z;
  pn_checkedIntents : Z;
  pn_issueCount : Z;
  pn_issues : list (string * IssueSeverity);
  pn_startedAt : Z;
  pn_completedAt : Z
}.

Record QrPaymentRequest := mkQrRequest {
  qr_id : string;
  qr_type : QrType;
  qr_status : QrStatus;
  qr_recipientCustomerId : string;
  qr_recipientAccountId : string;
  qr_recipientMaskedReference : string;
  qr_recipientPublicReference : string;
  qr_currency : string;
  qr_amountMinor : option Z;
  qr_purpose : option string;
  qr_nonceHash : string;
  qr_signatureHash : string;
  qr_expiresAt : Z;
  qr_redeemedAt : option Z;
  qr_createdAt : Z
}.
Record QrRedemption := mkRedemption {
  rd_id : string;
  rd_qrPaymentRequestId : string;
  rd_displayReference : string;
  rd_senderCustomerId : string;
  rd_senderAccountId : string;
  rd_senderMaskedReference : string;
  rd_recipientCustomerId : string;
  rd_recipientAccountId : string;
  rd_recipientMaskedReference : string;
  rd_currency : string;
  rd_amountMinor : Z;
  rd_status : QrPaymentStatus;
  rd_intentTokenHash : string;
  rd_idempotencyKeyHash : string;
  rd_requestHash : string;
  rd_ledgerJournalId : option string;
  rd_senderBalanceAfterMinor : option Z;
  rd_recipientBalanceAfterMinor : option Z;
  rd_correlationId : string;
  rd_createdAt : Z;
  rd_completedAt : option Z;
  rd_failedAt : option Z
}.
Record ChannelEvent := mkChannelEvent {
  ce_subject : string;
  ce_eventType : string;
  ce_previousStatus : option string;
  ce_nextStatus : option string;
  ce_safeCode : option string;
  ce_occurredAt : Z
}.
Record AgentCashOperation := mkCashOperation {
  ag_id : string;
  ag_displayReference : string;
  ag_operationType : AgentCashOperationType;
  ag_status : AgentCashOperationStatus;
  ag_agentId : string;
  ag_agentReference : string;
  ag_customerCustomerId : string;
  ag_customerAccountId : string;
  ag_customerMaskedReference : string;
  ag_customerPublicReference : string;
  ag_agentAccountId : string;
  ag_currency : string;
  ag_amountMinor : Z;
  ag_intentTokenHash : string;
  ag_idempotencyKeyHash : string;
  ag_requestHash : string;
  ag_ledgerJournalId : option string;
  ag_correlationId : string;
  ag_expiresAt : Z;
  ag_confirmedAt : option Z;
  ag_createdAt : Z;
  ag_completedAt : option Z;
  ag_failedAt : option Z
}.

Record PaymentsDb := mkPaymentsDb {
  transferIntents : list TransferIntent;
  transfers : list Transfer;
  transferEvents : list TransferEvent;
  paymentsRuns : list PaymentsRun;
  qrPaymentRequests : list QrPaymentRequest;
  qrRedemptions : list QrRedemption;
  qrPaymentEvents : list ChannelEvent;
  agentCashOperations : list AgentCashOperation;
  agentCashEvents : list ChannelEvent;
  pay_uuidCounter : N
}.
Definition emptyPayments : PaymentsDb := mkPaymentsDb [] [] [] [] [] [] [] [] [] 0.

Definition set_intents f db := mkPaymentsDb (f (transferIntents db)) (transfers db) (transferEvents db)
  (paymentsRuns db) (qrPaymentRequests db) (qrRedemptions db) (qrPaymentEvents db)
  (agentCashOperations db) (agentCashEvents db) (pay_uuidCounter db).
Definition set_transfers f db := mkPaymentsDb (transferIntents db) (f (transfers db)) (transferEvents db)
  (paymentsRuns db) (qrPaymentRequests db) (qrRedemptions db) (qrPaymentEvents db)
  (agentCashOperations db) (agentCashEvents db) (pay_uuidCounter db).
Definition set_events f db := mkPaymentsDb (transferIntents db) (transfers db) (f (transferEvents db))
  (paymentsRuns db) (qrPaymentRequests db) (qrRedemptions db) (qrPaymentEvents db)
  (agentCashOperations db) (agentCashEvents db) (pay_uuidCounter db).
Definition set_payments_runs f db := mkPaymentsDb (transferIntents db) (transfers db) (transferEvents db)
  (f (paymentsRuns db)) (qrPaymentRequests db) (qrRedemptions db) (qrPaymentEvents db)
  (agentCashOperations db) (agentCashEvents db) (pay_uuidCounter db).
Definition set_qr_requests f db := mkPaymentsDb (transferIntents db) (transfers db) (transferEvents db)
  (paymentsRuns db) (f (qrPaymentRequests db)) (qrRedemptions db) (qrPaymentEvents db)
  (agentCashOperations db) (agentCashEvents db) (pay_uuidCounter db).
Definition set_redemptions f db := mkPaymentsDb (transferIntents db) (transfers db) (transferEvents db)
  (paymentsRuns db) (qrPaymentRequests db) (f (qrRedemptions db)) (qrPaymentEvents db)
  (agentCashOperations db) (agentCashEvents db) (pay_uuidCounter db).
Definition set_qr_events f db := mkPaymentsDb (transferIntents db) (transfers db) (transferEvents db)
  (paymentsRuns db) (qrPaymentRequests db) (qrRedemptions db) (f (qrPaymentEvents db))
  (agentCashOperations db) (agentCashEvents db) (pay_uuidCounter db).
Definition set_operations f db := mkPaymentsDb (transferIntents db) (transfers db) (transferEvents db)
  (paymentsRuns db) (qrPaymentRequests db) (qrRedemptions db) (qrPaymentEvents db)
  (f (agentCashOperations db)) (agentCashEvents db) (pay_uuidCounter db).
Definition set_agent_events f db := mkPaymentsDb (transferIntents db) (transfers db) (transferEvents db)
  (paymentsRuns db) (qrPaymentRequests db) (qrRedemptions db) (qrPaymentEvents db)
  (agentCashOperations db) (f (agentCashEvents db)) (pay_uuidCounter db).
Definition set_pay_uuid f db := mkPaymentsDb (transferIntents db) (transfers db) (transferEvents db)
  (paymentsRuns db) (qrPaymentRequests db) (qrRedemptions db) (qrPaymentEvents db)
  (agentCashOperations db) (agentCashEvents db) (f (pay_uuidCounter db)).

Abbreviation PayM := (M PaymentsDb PaymentsErr).

Definition pay_check (ok : bool) (what : string) : PayM unit := throw_when (negb ok) (PayDbError what).
Definition pay_unique {A} (rows : list A) (same : A -> bool) (table : string) (fields : list string)
  : PayM unit := throw_when (existsb same rows) (PayP2002 table fields).
Definition same_journal (a b : option string) : bool :=
  match a, b with Some x, Some y => String.eqb x y | _, _ => false end.

(** [VARCHAR(n)] and [CHAR(n)] columns refuse longer text. *)
Definition fits (n : nat) (s : string) : bool := (String.length s <=? n)%nat.

(** [tx.x.update({ where: { id }, data })]: the row must exist. *)
Definition update_row {A} (id_of : A -> string) (id : string) (f : A -> A) (rows : list A) : list A :=
  map (fun r => if String.eqb (id_of r) id then f r else r) rows.
Definition find_row {A} (id_of : A -> string) (id : string) (rows : list A) : option A :=
  find (fun r => String.eqb (id_of r) id) rows.

Section Statements.
Context {pg : Postgres}.

Definition pay_uuid : PayM string :=
  fun db => (Ok (uuid (pay_uuidCounter db)), set_pay_uuid N.succ db).

(** [transferIntent.create] *)
Definition create_intent (i : string -> TransferIntent) : PayM TransferIntent :=
  id ← pay_uuid;
  let i := i id in
  db ← get;
  _ ← pay_unique (transferIntents db) (fun x => String.eqb (ti_id x) id) "transfer_intents" ["id"];
  _ ← pay_unique (transferIntents db) (fun x => String.eqb (ti_tokenHash x) (ti_tokenHash i))
        "transfer_intents" ["tokenHash"];
  _ ← pay_check (int64_ok (ti_amountMinor i) && int64_ok (ti_sourceBalanceSnapshotMinor i)
                 && pg_uuid (ti_senderCustomerId i) && pg_uuid (ti_sourceAccountId i)
                 && pg_uuid (ti_recipientCustomerId i) && pg_uuid (ti_recipientAccountId i))
        "transfer_intents";
  _ ← modify (set_intents (fun l => l ++ [i]));
  mret i.

(** [tx.transferIntent.update] *)
Definition update_intent (id : string) (f : TransferIntent -> TransferIntent) : PayM unit :=
  db ← get;
  _ ← require (find_row ti_id id (transferIntents db)) (PayDbError "P2025");
  modify (set_intents (update_row ti_id id f)).

Definition add_events (es : list TransferEvent) : PayM unit := modify (set_events (fun l => l ++ es)).

(** [tx.transfer.create], with its nested events. *)
Definition create_transfer (now : Z) (d : TransferData) (events : string -> list TransferEvent)
  : PayM Transfer :=
  id ← pay_uuid;
  db ← get;
  let t := mkTransfer id d now
             (mkProgress PROCESSING None None None None None None 0 None now None None) in
  let differs same := pay_unique (transfers db) same "transfers" in
  _ ← differs (fun x => String.eqb (tf_id x) id) ["id"];
  _ ← differs (fun x => String.eqb (td_displayReference (tf_data x)) (td_displayReference d))
        ["displayReference"];
  _ ← differs (fun x => String.eqb (td_intentId (tf_data x)) (td_intentId d)) ["intentId"];
  _ ← differs (fun x => String.eqb (tf_sender x) (td_senderCustomerId d)
                        && String.eqb (td_idempotencyKeyHash (tf_data x)) (td_idempotencyKeyHash d))
        ["senderCustomerId"; "idempotencyKeyHash"];
  _ ← pay_check (existsb (fun i => String.eqb (ti_id i) (td_intentId d)) (transferIntents db))
        "transfers_intent_id_fkey";
  _ ← pay_check (int64_ok (td_amountMinor d) && pg_uuid (td_correlationId d)) "transfers";
  _ ← modify (set_transfers (fun l => l ++ [t]));
  _ ← add_events (events id);
  mret t.

(** [tx.transfer.update], with its nested events; [updatedAt] is refreshed. *)
Definition update_transfer (now : Z) (id : string) (f : TransferProgress -> TransferProgress)
    (events : list TransferEvent) : PayM Transfer :=
  db ← get;
  old ← require (find_row tf_id id (transfers db)) (PayDbError "P2025");
  let g := f (tf_progress old) in
  let g := mkProgress (tg_status g) (tg_failureCode g) (tg_ledgerJournalId g) (tg_senderPostingId g)
             (tg_recipientPostingId g) (tg_senderBalanceAfterMinor g) (tg_recipientBalanceAfterMinor g)
             (tg_attemptCount g) (tg_nextAttemptAt g) now (tg_completedAt g) (tg_failedAt g) in
  let t := mkTransfer id (tf_data old) (tf_createdAt old) g in
  _ ← pay_unique (transfers db)
        (fun x => negb (String.eqb (tf_id x) id)
                  && same_journal (tg_ledgerJournalId (tf_progress x)) (tg_ledgerJournalId g))
        "transfers" ["ledgerJournalId"];
  _ ← pay_check (int64_ok (default 0 (tg_senderBalanceAfterMinor g))
                 && int64_ok (default 0 (tg_recipientBalanceAfterMinor g))
                 && int32_ok (tg_attemptCount g)) "transfers";
  _ ← modify (set_transfers (update_row tf_id id (fun _ => t)));
  _ ← add_events events;
  mret t.
End Statements.
