(* ===== verification/Peers.v ===== *)
(** * Calls between services: the Ledger and Risk clients of Payments
    ([services/payments/src/transfers/ledger.client.ts], [risk.client.ts]) *)

From Stdlib Require Import ZArith Lia Ascii String.
From stdpp Require Import base strings list gmap.
From S2P Require Import Prelude.
From S2P Require Import Js.
From S2P Require Import Contracts.
From S2P Require Import Security.
From S2P Require Import Services.
From S2P Require Import RiskTypes.
From S2P Require Import LedgerDb.
From S2P Require Import Idempotency.
From S2P Require Import Journal.
From S2P Require Import Accounts.
From S2P Require Import CustomerTransfer.
From S2P Require Import PaymentsDb.

Open Scope Z_scope.

(** What a client sees of an HTTP exchange. *)
Inductive HttpReply (T : Type) : Type :=
| Success (body : option T)                       (* 2xx; [None]: a body that is no JSON *)
| Failure (status : Z) (code : option string)     (* any other status, and [error.code] *)
| NoReply.                                        (* refused, reset or timed out *)
Arguments Success {T}.
Arguments Failure {T}.
Arguments NoReply {T}.

Record AccountHolder := mkHolder { ah_maskedReference : string; ah_receivingReference : string }.
Record ResolvedAccount := mkResolved {
  ra_customerId : string;
  ra_accountId : string;
  ra_maskedReference : string
}.

(** The services Payments calls: each request may change the environment. *)
Class Peers (Env : Type) := {
  post_preview : InternalTransferPreview -> string -> Env -> HttpReply InternalTransferPreviewResult * Env;
  post_transfer : InternalLedgerTransferCommand -> string -> Env -> HttpReply InternalLedgerTransferResult * Env;
  get_account : string -> string -> string -> Env -> HttpReply AccountHolder * Env;
  get_resolve : string -> string -> Env -> HttpReply ResolvedAccount * Env;
  post_controls_check : ControlCheckRequest -> Env -> HttpReply ControlCheckResponse * Env;
  post_evaluate : RiskEvaluationRequest -> Env -> HttpReply RiskAssessment * Env;
  post_event : SecurityEventV1 -> Env -> HttpReply unit * Env
}.

Section Schemas.
Context {zod : Zod}.

Definition internalTransferPreviewResultSchema (r : InternalTransferPreviewResult)
  : option InternalTransferPreviewResult :=
  if z_uuid (tpr_sourceAccountId r) && z_uuid (tpr_recipientAccountId r) && z_uuid (tpr_recipientCustomerId r) then
    _ ← maskedAccountReferenceSchema (tpr_sourceMaskedReference r);
    m ← moneySchema (tpr_sourceBalance r);
    _ ← maskedAccountReferenceSchema (tpr_recipientMaskedReference r);
    c ← currencyCodeSchema (tpr_currency r);
    Some (mkTransferPreviewResult (tpr_sourceAccountId r) (tpr_sourceMaskedReference r) m
            (tpr_recipientAccountId r) (tpr_recipientCustomerId r) (tpr_recipientMaskedReference r) c)
  else None.

Definition internalLedgerTransferResultSchema (r : InternalLedgerTransferResult)
  : option InternalLedgerTransferResult :=
  if z_uuid (tr_journalId r) && z_uuid (tr_senderPostingId r) && z_uuid (tr_recipientPostingId r)
     && z_uuid (tr_senderAccountId r) && z_uuid (tr_recipientAccountId r) && z_datetime (tr_postedAt r) then
    _ ← maskedAccountReferenceSchema (tr_senderMaskedReference r);
    _ ← maskedAccountReferenceSchema (tr_recipientMaskedReference r);
    s ← moneySchema (tr_senderBalanceAfter r);
    b ← moneySchema (tr_recipientBalanceAfter r);
    c ← currencyCodeSchema (tr_currency r);
    a ← moneySchema (tr_amount r);
    Some (mkTransferResult (tr_journalId r) (tr_senderPostingId r) (tr_recipientPostingId r)
            (tr_senderAccountId r) (tr_recipientAccountId r) (tr_senderMaskedReference r)
            (tr_recipientMaskedReference r) s b c a (tr_postedAt r))
  else None.
End Schemas.

Section Clients.
Context {DB Env : Type} {peers : Peers Env} {zod : Zod}.
Abbreviation PayS := (M (System DB Env) PaymentsErr).

Definition zodError : PaymentsErr := PayJsError "ZodError".
Definition ask {T} (call : Env -> HttpReply T * Env) : PayS (HttpReply T) :=
  remote (fun env => let '(r, env') := call env in (Ok r, env')).
Lemma ask_alone {T} (call : Env -> HttpReply T * Env) (db : DB) env :
  ask call (alone db env) = (Ok (call env).1, alone db (call env).2).
Proof. unfold ask. rewrite remote_alone. by destruct (call env). Qed.

(** ** [LedgerClient] *)
Definition ledgerUnavailable : PaymentsErr :=
  PaymentsError "LEDGER_UNAVAILABLE" "The transfer is processing." 202.

(** [call(path, body, correlationId)] followed by [schema.parse]. *)
Definition ledger_call {T} (call : Env -> HttpReply T * Env) (schema : T -> option T) : PayS T :=
  r ← ask call;
  match r with
  | Success body => require (b ← body; schema b) zodError
  | Failure status code => throw (LedgerCallError status code)
  | NoReply => throw ledgerUnavailable
  end.

Definition reply_result {T} (schema : T -> option T) (reply : HttpReply T) : result PaymentsErr T :=
  match reply with
  | Success body => match b ← body; schema b with Some r => Ok r | None => Err zodError end
  | Failure st c => Err (LedgerCallError st c)
  | NoReply => Err ledgerUnavailable
  end.
Lemma ledger_call_alone {T} (call : Env -> HttpReply T * Env) schema (db : DB) net :
  ledger_call call schema (alone db net) = (reply_result schema (call net).1, alone db (call net).2).
Proof.
  unfold ledger_call. rewrite (bind_Ok _ _ _ _ _ _ _ (ask_alone call db net)).
  destruct (call net).1 as [body|st c|]; cbn [reply_result]; try done.
  unfold require. by destruct (b ← body; schema b).
Qed.

Definition ledger_preview (input : InternalTransferPreview) (correlationId : string)
  : PayS InternalTransferPreviewResult :=
  ledger_call (post_preview input correlationId) internalTransferPreviewResultSchema.
Definition ledger_transfer (input : InternalLedgerTransferCommand) (correlationId : string)
  : PayS InternalLedgerTransferResult :=
  ledger_call (post_transfer input correlationId) internalLedgerTransferResultSchema.

(** [getAccountDetail] and [resolveAccountByReference] read the body unchecked
    and let a network failure through. *)
Definition unchecked_call {T} (call : Env -> HttpReply T * Env) : PayS T :=
  r ← ask call;
  match r with
  | Success (Some b) => mret b
  | Success None => throw (PayJsError "SyntaxError")
  | Failure status _ => throw (LedgerCallError status None)
  | NoReply => throw (PayJsError "AbortError")
  end.
Definition getAccountDetail (accountId customerId correlationId : string) : PayS AccountHolder :=
  unchecked_call (get_account accountId customerId correlationId).
Definition resolveAccountByReference (reference correlationId : string) : PayS ResolvedAccount :=
  unchecked_call (get_resolve reference correlationId).

(** ** [PaymentsRiskClient] *)
Definition riskUnavailable : PaymentsErr :=
  PaymentsError "RISK_UNAVAILABLE" "The transfer could not be completed securely." 503.
Definition securityControlActive : PaymentsErr :=
  PaymentsError "SECURITY_CONTROL_ACTIVE" "The transfer could not be completed." 403.

Definition risk_internal {T} (call : Env -> HttpReply T * Env) (schema : T -> bool) : PayS T :=
  r ← ask call;
  match r with
  | Success (Some b) => if schema b then mret b else throw zodError
  | Success None => throw zodError
  | _ => throw riskUnavailable
  end.

Definition allowing (d : RiskDecision) : bool :=
  match d with ALLOW | ALLOW_WITH_MONITORING => true | _ => false end.
Definition scope_when (type : ControlScope) (id : option string) : list ScopeRef :=
  match id with Some id => if String.eqb id "" then [] else [mkScope type id] | None => [] end.

(** [enforce(input)]: controls first, then a fresh assessment. *)
Definition enforce (input : RiskEvaluationRequest) : PayS RiskAssessment :=
  let scopes :=
    [mkScope CUSTOMER (ev_subjectId input)]
    ++ scope_when ACCOUNT (ev_accountId input) ++ scope_when RECIPIENT (ev_recipientId input) in
  controls ← risk_internal
    (post_controls_check (mkControlCheck (operation_str (ev_operation input)) scopes (ev_correlationId input)))
    controlCheckResponseSchema;
  _ ← throw_when (negb (cr_allowed controls)) securityControlActive;
  assessment ← risk_internal (post_evaluate input) riskAssessmentSchema;
  _ ← throw_when (negb (allowing (as_decision assessment))) securityControlActive;
  mret assessment.

(** [emit(input)]: telemetry never fails the caller once the event is valid. *)
Definition emit (event : SecurityEventV1) : PayS unit :=
  _ ← throw_when (negb (securityEventV1Schema event)) zodError;
  _ ← ask (post_event event);
  mret tt.
End Clients.

(** * Payments and the Ledger joined by a network that loses messages

    The environment of the Payments service: the whole Ledger model behind its
    HTTP handlers, a schedule of what the network does to each exchange, and
    the Risk service as two functions. *)

Inductive Fault := Deliver | LoseRequest | LoseReply.

Record Net := mkNet {
  net_ledger : World;
  net_faults : list Fault
}.

(** The Ledger's [StructuredExceptionFilter]: status and [error.code]. *)
Definition ledger_failure {T} (e : LedgerErr) : HttpReply T :=
  match e with
  | LedgerError code _ status => Failure status (Some code)
  | _ => Failure 500 (Some "INTERNAL_ERROR"%string)
  end.
Definition ledger_reply {T} (r : result LedgerErr T) : HttpReply T :=
  match r with Ok a => Success (Some a) | Err e => ledger_failure e end.

(** One exchange with the Ledger. *)
Definition exchange {T} (m : LedgerM T) (net : Net) : HttpReply T * Net :=
  match net_faults net with
  | LoseRequest :: fs => (NoReply, mkNet (net_ledger net) fs)
  | LoseReply :: fs => (NoReply, mkNet (m (net_ledger net)).2 fs)
  | fs => let '(r, w) := m (net_ledger net) in (ledger_reply r, mkNet w (tail fs))
  end.

Section Network.
Context {zod : Zod} {crypto : Crypto} {pg : Postgres}.
Variable ledger_config : LedgerConfig.
Variable ledger_now : Z.
Variable risk_check : ControlCheckRequest -> HttpReply ControlCheckResponse.
Variable risk_evaluate : RiskEvaluationRequest -> HttpReply RiskAssessment.

Definition account_holder (customerId accountId : string) : LedgerM AccountHolder :=
  d ← atomically (getForCustomer customerId accountId);
  mret (mkHolder (cas_maskedReference (cad_summary d)) (cad_receivingReference d)).
Definition resolve_reference (reference : string) : LedgerM ResolvedAccount :=
  '(id, customerId, masked) ← CustomerTransfer.resolveAccountByReference reference;
  mret (mkResolved customerId id masked).

Definition ledger_network : Peers Net := {|
  post_preview := fun i corr => exchange (preview_endpoint i);
  post_transfer := fun i corr => exchange (transfer_endpoint ledger_config ledger_now i corr);
  get_account := fun accountId customerId corr => exchange (account_holder customerId accountId);
  get_resolve := fun reference corr => exchange (resolve_reference reference);
  post_controls_check := fun r net => (risk_check r, net);
  post_evaluate := fun r net => (risk_evaluate r, net);
  post_event := fun e net => (Success (Some tt), net)
|}.
End Network.
