(* ===== verification/PaymentTransfers.v ===== *)
(** * The transfer saga of Payments
    ([services/payments/src/transfers/transfers.service.ts]) *)

From Stdlib Require Import ZArith Lia Ascii String.
From stdpp Require Import base strings list gmap sorting.
From S2P Require Import Prelude.
From S2P Require Import Js.
From S2P Require Import Codec.
From S2P Require Import Calendar.
From S2P Require Import Regex.
From S2P Require Import Contracts.
From S2P Require Import Security.
From S2P Require Import LedgerDb.
From S2P Require Import CustomerTransfer.
From S2P Require Import Transactions.
From S2P Require Import RiskTypes.
From S2P Require Import Services.
From S2P Require Import PaymentsDb.
From S2P Require Import Peers.

Open Scope Z_scope.

(** ** Contracts ([payments/v1.ts]) *)
Record InternalTransferIntentRequest := mkIntentRequest {
  ir_senderCustomerId : string;
  ir_sourceAccountId : string;
  ir_recipientReference : string;
  ir_amount : string
}.
Record TransferPolicy := mkPolicy {
  po_currency : string;
  po_minimum : Money;
  po_maximum : Money;
  po_dailyOutgoingMaximum : Money
}.
Record TransferPreviewResponse := mkPreviewResponse {
  pv_intentToken : string;
  pv_sourceMaskedReference : string;
  pv_recipientMaskedReference : string;
  pv_amount : Money;
  pv_sourceBalance : Money;
  pv_policy : TransferPolicy;
  pv_expiresAt : string
}.
Record InternalTransferConfirmation := mkConfirmation {
  cf_senderCustomerId : string;
  cf_intentToken : string;
  cf_idempotencyKey : string
}.
Inductive TransferDirection := SENT | RECEIVED.
Record TransferSummary := mkSummary {
  ts_id : string;
  ts_displayReference : string;
  ts_direction : TransferDirection;
  ts_status : TransferStatus;
  ts_accountId : string;
  ts_counterpartyMaskedReference : string;
  ts_amount : Money;
  ts_createdAt : string;
  ts_completedAt : option string
}.
Record TransferDetail := mkDetail {
  tdt_summary : TransferSummary;
  tdt_transactionId : option string;
  tdt_balanceAfter : option Money;
  tdt_failureCode : option TransferFailureCode;
  tdt_ownMaskedReference : string
}.
Record TransferListQuery := mkListQuery {
  lq_direction : option TransferDirection;
  lq_status : option TransferStatus;
  lq_dateFrom : option string;
  lq_dateTo : option string;
  lq_pageSize : nat;
  lq_cursor : option string
}.
Definition MAX_TRANSFER_PAGE_SIZE : nat := 50.

Definition transferStatus_str (s : TransferStatus) : string :=
  match s with
  | PROCESSING => "PROCESSING" | COMPLETED => "COMPLETED" | FAILED => "FAILED"
  | REQUIRES_REVIEW => "REQUIRES_REVIEW"
  end.
Definition transferDirection_str (d : TransferDirection) : string :=
  match d with SENT => "SENT" | RECEIVED => "RECEIVED" end.

Section Schemas.
Context {zod : Zod}.
Definition accepts {A B} (f : A -> option B) (a : A) : bool :=
  match f a with Some _ => true | None => false end.

Definition internalTransferIntentRequestSchema (r : InternalTransferIntentRequest) : bool :=
  z_uuid (ir_senderCustomerId r) && z_uuid (ir_sourceAccountId r)
  && accepts publicAccountReferenceSchema (ir_recipientReference r)
  && accepts humanLkrAmountSchema (ir_amount r).
Definition internalTransferConfirmationSchema (c : InternalTransferConfirmation) : bool :=
  z_uuid (cf_senderCustomerId c) && accepts opaqueIntentTokenSchema (cf_intentToken c)
  && accepts paymentKeySchema (cf_idempotencyKey c).
Definition transferSummarySchema (s : TransferSummary) : bool :=
  z_uuid (ts_id s) && accepts transferDisplayReferenceSchema (ts_displayReference s)
  && z_uuid (ts_accountId s) && accepts maskedAccountReferenceSchema (ts_counterpartyMaskedReference s)
  && accepts moneySchema (ts_amount s) && z_datetime (ts_createdAt s)
  && when_present z_datetime (ts_completedAt s).
Definition transferDetailSchema (d : TransferDetail) : bool :=
  transferSummarySchema (tdt_summary d) && when_present z_uuid (tdt_transactionId d)
  && when_present (accepts moneySchema) (tdt_balanceAfter d)
  && accepts maskedAccountReferenceSchema (tdt_ownMaskedReference d).
Definition transferPolicySchema (p : TransferPolicy) : bool :=
  String.eqb (po_currency p) "LKR" && accepts moneySchema (po_minimum p)
  && accepts moneySchema (po_maximum p) && accepts moneySchema (po_dailyOutgoingMaximum p).
Definition transferPreviewResponseSchema (p : TransferPreviewResponse) : bool :=
  accepts opaqueIntentTokenSchema (pv_intentToken p)
  && accepts maskedAccountReferenceSchema (pv_sourceMaskedReference p)
  && accepts maskedAccountReferenceSchema (pv_recipientMaskedReference p)
  && accepts moneySchema (pv_amount p) && accepts moneySchema (pv_sourceBalance p)
  && transferPolicySchema (pv_policy p) && z_datetime (pv_expiresAt p).
End Schemas.

(** ** The service *)
Definition safeFailure (code : option string) : TransferFailureCode :=
  match code with
  | Some c =>
      if String.eqb c "INSUFFICIENT_FUNDS" then F_INSUFFICIENT_FUNDS
      else if String.eqb c "ACCOUNT_NOT_FOUND" then F_ACCOUNT_NOT_FOUND
      else if String.eqb c "ACCOUNT_NOT_ACTIVE" then F_ACCOUNT_NOT_ACTIVE
      else if String.eqb c "CURRENCY_MISMATCH" then F_CURRENCY_MISMATCH
      else if String.eqb c "SELF_TRANSFER" then F_SELF_TRANSFER
      else if String.eqb c "LIMIT_EXCEEDED" then F_LIMIT_EXCEEDED
      else if String.eqb c "INTENT_EXPIRED" then F_INTENT_EXPIRED
      else if String.eqb c "AUTHORIZATION_FAILED" then F_AUTHORIZATION_FAILED
      else if String.eqb c "IDEMPOTENCY_CONFLICT" then F_IDEMPOTENCY_CONFLICT
      else F_LEDGER_UNAVAILABLE
  | None => F_LEDGER_UNAVAILABLE
  end.

Section Service.
Context {Env : Type} {peers : Peers Env} {zod : Zod} {crypto : Crypto} {pg : Postgres}.
Abbreviation PayS := (M (System PaymentsDb Env) PaymentsErr).
Variable config : PaymentsConfig.
Variable now : Z.

Definition minor_money (z : Z) : Money := mkMoney "LKR" (bigint_to_string z).

Definition policy : result PaymentsErr TransferPolicy :=
  let p := mkPolicy "LKR" (minor_money (minTransferMinor config)) (minor_money (maxTransferMinor config))
             (minor_money (dailyOutgoingLimitMinor config)) in
  if transferPolicySchema p then Ok p else Err zodError.

Definition assertAmount (amountMinor : Z) : PayS unit :=
  throw_when ((amountMinor <? minTransferMinor config) || (maxTransferMinor config <? amountMinor))
    (paymentsError "LIMIT_EXCEEDED").

Definition asSummary (row : Transfer) (customerId : string) : TransferSummary :=
  let d := tf_data row in
  let sent := String.eqb (td_senderCustomerId d) customerId in
  mkSummary (tf_id row) (td_displayReference d) (if sent then SENT else RECEIVED) (tf_status row)
    (if sent then td_senderAccountId d else td_recipientAccountId d)
    (if sent then td_recipientMaskedReference d else td_senderMaskedReference d)
    (mkMoney (td_currency d) (bigint_to_string (td_amountMinor d)))
    (toISOString (tf_createdAt row)) (toISOString <$> tg_completedAt (tf_progress row)).

Definition detail_of (row : Transfer) (customerId : string) : TransferDetail :=
  let d := tf_data row in let g := tf_progress row in
  let sent := String.eqb (td_senderCustomerId d) customerId in
  mkDetail (asSummary row customerId)
    (if sent then tg_senderPostingId g else tg_recipientPostingId g)
    ((fun b => mkMoney (td_currency d) (bigint_to_string b)) <$>
       (if sent then tg_senderBalanceAfterMinor g else tg_recipientBalanceAfterMinor g))
    (tg_failureCode g)
    (if sent then td_senderMaskedReference d else td_recipientMaskedReference d).
Definition asDetail (row : Transfer) (customerId : string) : result PaymentsErr TransferDetail :=
  let d := detail_of row customerId in if transferDetailSchema d then Ok d else Err zodError.

(** [createIntent(input, correlationId)]; [token], [eventId] and
    [sourceEventId] come from the random source. *)
Definition createIntent (token eventId sourceEventId : string) (input : InternalTransferIntentRequest)
    (correlationId : string) : PayS TransferPreviewResponse :=
  minor ← require (lkrAmountToMinorUnits (ir_amount input)) zodError;
  let amountMinor := BigInt minor in
  _ ← assertAmount amountMinor;
  preview ← try_catch
    (ledger_preview (mkTransferPreview (ir_senderCustomerId input) (ir_sourceAccountId input)
       (ir_recipientReference input) (bigint_to_string amountMinor) "LKR") correlationId)
    (fun e => match e with LedgerCallError _ _ => throw (paymentsError "ACCOUNT_NOT_FOUND") | _ => throw e end);
  _ ← throw_when (String.eqb (tpr_sourceAccountId preview) (tpr_recipientAccountId preview))
        (paymentsError "SELF_TRANSFER");
  let expiresAt := now + intentTtlSeconds config * 1000 in
  _ ← atomic (create_intent (fun id =>
        mkIntent id (sha256 token) (ir_senderCustomerId input) (tpr_sourceAccountId preview)
          (ir_recipientReference input) (tpr_sourceMaskedReference preview)
          (tpr_recipientMaskedReference preview) (tpr_recipientCustomerId preview)
          (tpr_recipientAccountId preview) (tpr_currency preview) amountMinor
          (BigInt (minorUnits (tpr_sourceBalance preview))) expiresAt None None));
  let high := maxTransferMinor config <=? amountMinor in
  _ ← emit (mkSecurityEvent eventId PAYMENTS sourceEventId
        (if high then HIGH_VALUE_TRANSFER else TRANSFER_PREVIEW) (if high then SEV_HIGH else SEV_INFO)
        (toISOString now) (Some (ir_senderCustomerId input)) (Some (tpr_sourceAccountId preview)) None None
        (Some (ir_recipientReference input)) correlationId
        [("operation", JStr "TRANSFER_PREVIEW"); ("amountMinor", JStr (bigint_to_string amountMinor));
         ("currency", JStr (tpr_currency preview))]);
  p ← lift_result policy;
  let response := mkPreviewResponse token (tpr_sourceMaskedReference preview)
    (tpr_recipientMaskedReference preview) (mkMoney (tpr_currency preview) (bigint_to_string amountMinor))
    (tpr_sourceBalance preview) p (toISOString expiresAt) in
  _ ← throw_when (negb (transferPreviewResponseSchema response)) zodError;
  mret response.

Definition find_intent (tokenHash senderCustomerId : string) : PayM (option TransferIntent) :=
  gets (fun db => find (fun i => String.eqb (ti_tokenHash i) tokenHash
                                 && String.eqb (ti_senderCustomerId i) senderCustomerId) (transferIntents db)).

Definition authorize (senderCustomerId token : string) : PayS unit :=
  intent ← atomic (find_intent (sha256 token) senderCustomerId);
  intent ← require intent (paymentsError "INTENT_EXPIRED");
  match ti_consumedAt intent with
  | Some _ =>
      replay ← atomic (gets (fun db => find (fun t => String.eqb (td_intentId (tf_data t)) (ti_id intent)
                               && String.eqb (tf_sender t) senderCustomerId) (transfers db)));
      match replay with
      | Some _ => mret tt
      | None => throw (paymentsError "INTENT_EXPIRED")
      end
  | None =>
      _ ← throw_when (ti_expiresAt intent <=? now) (paymentsError "INTENT_EXPIRED");
      atomic (update_intent (ti_id intent) (fun i =>
        mkIntent (ti_id i) (ti_tokenHash i) (ti_senderCustomerId i) (ti_sourceAccountId i)
          (ti_recipientPublicReference i) (ti_sourceMaskedReference i) (ti_recipientMaskedReference i)
          (ti_recipientCustomerId i) (ti_recipientAccountId i) (ti_currency i) (ti_amountMinor i)
          (ti_sourceBalanceSnapshotMinor i) (ti_expiresAt i) (Some now) (ti_consumedAt i)))
  end.

(** *** Settlement *)
Definition settle_command (row : Transfer) : InternalLedgerTransferCommand :=
  let d := tf_data row in
  mkTransferCommand
    (mkTransferPreview (td_senderCustomerId d) (td_senderAccountId d) (td_recipientPublicReference d)
       (bigint_to_string (td_amountMinor d)) (td_currency d))
    (tf_id row) (td_displayReference d) ("transfer:" +:+ tf_id row).

Definition completed (r : InternalLedgerTransferResult) (g : TransferProgress) : TransferProgress :=
  mkProgress COMPLETED (tg_failureCode g) (Some (tr_journalId r)) (Some (tr_senderPostingId r))
    (Some (tr_recipientPostingId r)) (Some (BigInt (minorUnits (tr_senderBalanceAfter r))))
    (Some (BigInt (minorUnits (tr_recipientBalanceAfter r)))) (tg_attemptCount g) None (tg_updatedAt g)
    (Some now) (tg_failedAt g).
Definition failed (code : TransferFailureCode) (g : TransferProgress) : TransferProgress :=
  mkProgress FAILED (Some code) (tg_ledgerJournalId g) (tg_senderPostingId g) (tg_recipientPostingId g)
    (tg_senderBalanceAfterMinor g) (tg_recipientBalanceAfterMinor g) (tg_attemptCount g) None
    (tg_updatedAt g) (tg_completedAt g) (Some now).

Definition settle (row : Transfer) (correlationId : string) : PayS Transfer :=
  let id := tf_id row in
  try_catch
    (result ← ledger_transfer (settle_command row) correlationId;
     atomic (update_transfer now id (completed result)
       [mkTransferEvent id EV_LEDGER_POSTED (Some PROCESSING) (Some COMPLETED) None now;
        mkTransferEvent id EV_COMPLETED (Some PROCESSING) (Some COMPLETED) None now]))
    (fun e => match e with
              | LedgerCallError status code =>
                  if status <? 500 then
                    atomic (update_transfer now id (failed (safeFailure code))
                      [mkTransferEvent id EV_FAILED (Some PROCESSING) (Some FAILED)
                         (Some (safeFailure code)) now])
                  else mret row
              | _ => mret row
              end).

(** *** Confirmation *)
Definition request_hash (senderCustomerId : string) (i : TransferIntent) : string :=
  canonicalHash (JObj [("senderCustomerId", JStr senderCustomerId); ("intentId", JStr (ti_id i));
    ("sourceAccountId", JStr (ti_sourceAccountId i)); ("recipientAccountId", JStr (ti_recipientAccountId i));
    ("amountMinor", JStr (bigint_to_string (ti_amountMinor i))); ("currency", JStr (ti_currency i))]).

Definition find_replay (senderCustomerId keyHash : string) : PayM (option Transfer) :=
  gets (fun db => find (fun t => String.eqb (tf_sender t) senderCustomerId
                                 && String.eqb (td_idempotencyKeyHash (tf_data t)) keyHash) (transfers db)).

(** The sum of today's transfers that hold or may still take money. *)
Definition reserving (s : TransferStatus) : bool :=
  match s with FAILED => false | _ => true end.
Definition reserved_sum (senderCustomerId : string) (since : Z) (db : PaymentsDb) : Z :=
  sum_by tf_amount (filter (fun t => tf_sender t = senderCustomerId /\ reserving (tf_status t) = true
                                     /\ since <= tf_createdAt t) (transfers db)).

Definition consume (i : TransferIntent) : TransferIntent :=
  mkIntent (ti_id i) (ti_tokenHash i) (ti_senderCustomerId i) (ti_sourceAccountId i)
    (ti_recipientPublicReference i) (ti_sourceMaskedReference i) (ti_recipientMaskedReference i)
    (ti_recipientCustomerId i) (ti_recipientAccountId i) (ti_currency i) (ti_amountMinor i)
    (ti_sourceBalanceSnapshotMinor i) (ti_expiresAt i) (ti_authorizedAt i) (Some now).

(** The transaction of [confirm]: replay, or reserve a new transfer. *)
Definition prepare (random : string) (input : InternalTransferConfirmation) (correlationId : string)
  : PayM (Transfer * bool) :=
  let sender := cf_senderCustomerId input in
  let keyHash := sha256 (cf_idempotencyKey input) in
  intent ← find_intent (sha256 (cf_intentToken input)) sender;
  intent ← require intent (paymentsError "INTENT_EXPIRED");
  let hash := request_hash sender intent in
  existing ← find_replay sender keyHash;
  match existing with
  | Some t =>
      _ ← throw_when (negb (String.eqb (td_requestHash (tf_data t)) hash)) (paymentsError "IDEMPOTENCY_CONFLICT");
      mret (t, true)
  | None =>
      _ ← throw_when ((ti_expiresAt intent <=? now) || bool_decide (is_Some (ti_consumedAt intent))
                      || negb (bool_decide (is_Some (ti_authorizedAt intent)))) (paymentsError "INTENT_EXPIRED");
      since ← require (day_start now) (PayDbError "Invalid Date");
      reserved ← gets (reserved_sum sender since);
      _ ← throw_when (dailyOutgoingLimitMinor config <? reserved + ti_amountMinor intent)
            (paymentsError "LIMIT_EXCEEDED");
      row ← create_transfer now
        (mkTransferData (newTransferReference random) sender (ti_recipientCustomerId intent)
           (ti_sourceAccountId intent) (ti_recipientAccountId intent) (ti_sourceMaskedReference intent)
           (ti_recipientMaskedReference intent) (ti_recipientPublicReference intent) (ti_currency intent)
           (ti_amountMinor intent) keyHash hash (ti_id intent) correlationId)
        (fun id => [mkTransferEvent id EV_AUTHORIZED None None None now;
                    mkTransferEvent id EV_PROCESSING_STARTED None (Some PROCESSING) None now]);
      _ ← update_intent (ti_id intent) consume;
      mret (row, false)
  end.

Definition confirm (random evaluationId : string) (input : InternalTransferConfirmation)
    (correlationId : string) : PayS TransferDetail :=
  let sender := cf_senderCustomerId input in
  preflight ← atomic (find_intent (sha256 (cf_intentToken input)) sender);
  preflight ← require preflight (paymentsError "AUTHORIZATION_FAILED");
  _ ← throw_when (negb (bool_decide (is_Some (ti_authorizedAt preflight))))
        (paymentsError "AUTHORIZATION_FAILED");
  existing ← atomic (find_replay sender (sha256 (cf_idempotencyKey input)));
  match existing with
  | Some t =>
      _ ← throw_when (negb (String.eqb (td_requestHash (tf_data t)) (request_hash sender preflight)))
            (paymentsError "IDEMPOTENCY_CONFLICT");
      lift_result (asDetail t sender)
  | None =>
      _ ← enforce (mkEvaluation evaluationId TRANSFER_CONFIRMATION_OP sender None None
            (Some (ti_sourceAccountId preflight)) (Some (ti_recipientPublicReference preflight))
            (Some (bigint_to_string (ti_amountMinor preflight))) (Some (ti_currency preflight)) true
            (toISOString now) correlationId);
      '(row, replayed) ← atomic (transaction (fun _ _ => None) (prepare random input correlationId));
      if replayed || negb (bool_decide (tf_status row = PROCESSING)) then lift_result (asDetail row sender)
      else row ← settle row correlationId; lift_result (asDetail row sender)
  end.

(** *** Recovery *)
Definition recovery_order (a b : Transfer) : Prop :=
  tg_updatedAt (tf_progress a) < tg_updatedAt (tf_progress b)
  \/ (tg_updatedAt (tf_progress a) = tg_updatedAt (tf_progress b) /\ String.le (tf_id a) (tf_id b)).
#[export] Instance recovery_order_dec a b : Decision (recovery_order a b).
Proof. unfold recovery_order. apply _. Defined.

Definition stale (t : Transfer) : Prop :=
  tf_status t = PROCESSING /\ tg_updatedAt (tf_progress t) < now - recoveryStaleSeconds config * 1000
  /\ match tg_nextAttemptAt (tf_progress t) with None => True | Some at_ => at_ <= now end.
#[export] Instance stale_dec t : Decision (stale t).
Proof. unfold stale. destruct (tg_nextAttemptAt (tf_progress t)); apply _. Defined.

Definition claimable (db : PaymentsDb) : list string :=
  tf_id <$> take 20 (merge_sort recovery_order (filter stale (transfers db))).

Definition review (attempt : Z) (g : TransferProgress) : TransferProgress :=
  mkProgress REQUIRES_REVIEW (tg_failureCode g) (tg_ledgerJournalId g) (tg_senderPostingId g)
    (tg_recipientPostingId g) (tg_senderBalanceAfterMinor g) (tg_recipientBalanceAfterMinor g) attempt
    None (tg_updatedAt g) (tg_completedAt g) (tg_failedAt g).
Definition retried (attempt : Z) (g : TransferProgress) : TransferProgress :=
  mkProgress (tg_status g) (tg_failureCode g) (tg_ledgerJournalId g) (tg_senderPostingId g)
    (tg_recipientPostingId g) (tg_senderBalanceAfterMinor g) (tg_recipientBalanceAfterMinor g) attempt
    (Some (now + recoveryStaleSeconds config * 1000)) (tg_updatedAt g) (tg_completedAt g) (tg_failedAt g).

(** One claimed row: [None] when it goes to review. *)
Definition claim_one (id : string) : PayM (option Transfer) :=
  db ← get;
  current ← require (find_row tf_id id (transfers db)) (PayDbError "P2025");
  let nextAttempt := tg_attemptCount (tf_progress current) + 1 in
  if maxProcessingAttempts config <=? nextAttempt then
    _ ← update_transfer now id (review nextAttempt)
          [mkTransferEvent id EV_REQUIRES_REVIEW (Some PROCESSING) (Some REQUIRES_REVIEW) None now];
    mret None
  else
    row ← update_transfer now id (retried nextAttempt)
            [mkTransferEvent id EV_RECOVERY_RETRY None None None now];
    mret (Some row).

Definition claim : PayM (nat * list Transfer) :=
  ids ← gets claimable;
  rows ← for_each claim_one ids;
  mret (length ids, omap id rows).

Definition recover : PayS nat :=
  '(selected, retry) ← atomic (transaction (fun _ _ => None) claim);
  _ ← for_each (fun row => settle row (td_correlationId (tf_data row))) retry;
  mret selected.

(** *** Reading *)
Definition visible (customerId : string) (t : Transfer) : bool :=
  String.eqb (tf_sender t) customerId || String.eqb (td_recipientCustomerId (tf_data t)) customerId.

Definition detail (customerId id : string) : PayS TransferDetail :=
  row ← atomic (gets (fun db => find (fun t => String.eqb (tf_id t) id && visible customerId t) (transfers db)));
  row ← require row (PaymentsError "TRANSFER_NOT_FOUND" "The transfer could not be found." 404);
  lift_result (asDetail row customerId).

Record ListCursor := mkListCursor { lc_createdAt : json; lc_id : string; lc_filter : string }.

Definition list_filter (q : TransferListQuery) : string :=
  json_object [("direction", optional_str (transferDirection_str <$> lq_direction q));
               ("status", optional_str (transferStatus_str <$> lq_status q));
               ("dateFrom", optional_str (lq_dateFrom q)); ("dateTo", optional_str (lq_dateTo q))].
Definition invalidRequest : PaymentsErr := PaymentsError "INVALID_REQUEST" "The request is invalid." 400.
Definition cursorId_rx : rx :=
  rep 36 (Cls (fun c => Ascii.eqb c "-" || in_range "a" "f" c || is_digit c)).

Definition decode_list_cursor (q : TransferListQuery) : result PaymentsErr (option ListCursor) :=
  match lq_cursor q with
  | None => Ok None
  | Some text =>
      match cursor_json text with
      | None => Err invalidRequest
      | Some parsed =>
          match jfield "filter" parsed, jfield "id" parsed with
          | JStr f, JStr id =>
              if String.eqb f (list_filter q) && rx_match cursorId_rx id
              then Ok (Some (mkListCursor (jfield "createdAt" parsed) id f))
              else Err invalidRequest
          | _, _ => Err invalidRequest
          end
      end
  end.

(** [orderBy: [{ createdAt: 'desc' }, { id: 'desc' }]] *)
Definition list_order (a b : Transfer) : Prop :=
  tf_createdAt b < tf_createdAt a \/ (tf_createdAt a = tf_createdAt b /\ String.le (tf_id b) (tf_id a)).
#[export] Instance list_order_dec a b : Decision (list_order a b).
Proof. unfold list_order. apply _. Defined.

(** [new Date(v)] of a parsed JSON value; arrays and objects are no dates. *)
Definition date_of (v : json) : option Z :=
  match v with
  | JStr s => date_parse s
  | JNum z => if Z.abs z <=? 8640000000000000 then Some z else None
  | JNull => Some 0
  | JBool b => Some (if b then 1 else 0)
  | _ => None
  end.

(** [row.createdAt < cursor || (equal && row.id < cursor.id)]: every comparison
    with an invalid date is false. *)
Definition after_cursor (c : ListCursor) (t : Transfer) : bool :=
  match date_of (lc_createdAt c) with
  | None => false
  | Some at_ => (tf_createdAt t <? at_)
                || ((tf_createdAt t =? at_)
                    && bool_decide (String.le (tf_id t) (lc_id c)) && negb (String.eqb (tf_id t) (lc_id c)))
  end.

Definition direction_ok (customerId : string) (q : TransferListQuery) (t : Transfer) : bool :=
  match lq_direction q with
  | None => true
  | Some SENT => String.eqb (tf_sender t) customerId
  | Some RECEIVED => String.eqb (td_recipientCustomerId (tf_data t)) customerId
  end.

Definition list_rows (customerId : string) (q : TransferListQuery) (from to : option Z) (db : PaymentsDb)
  : list Transfer :=
  take 500 (merge_sort list_order (filter (fun t =>
    visible customerId t && (match lq_status q with None => true | Some s => bool_decide (tf_status t = s) end)
    && (match from with None => true | Some a => a <=? tf_createdAt t end)
    && (match to with None => true | Some b => tf_createdAt t <=? b end) = true) (transfers db))).

Definition page_rows (customerId : string) (q : TransferListQuery) (c : option ListCursor) (rows : list Transfer)
  : list Transfer * option string :=
  let directionFiltered := filter (fun t => direction_ok customerId q t = true) rows in
  let after := match c with
               | Some c => filter (fun t => after_cursor c t = true) directionFiltered
               | None => directionFiltered
               end in
  let page := take (lq_pageSize q) after in
  (page, match last page with
         | Some tail => if (length page <? length after)%nat
             then Some (cursor_text (JObj [("createdAt", JStr (toISOString (tf_createdAt tail)));
                                           ("id", JStr (tf_id tail)); ("filter", JStr (list_filter q))]))
             else None
         | None => None
         end).

Definition instant (text : option string) : PayS (option Z) :=
  match text with
  | None => mret None
  | Some s => t ← require (date_parse s) (PayDbError "Invalid Date"); mret (Some t)
  end.

Definition list_transfers (customerId : string) (q : TransferListQuery)
  : PayS (list TransferSummary * option string) :=
  c ← lift_result (decode_list_cursor q);
  from ← instant (lq_dateFrom q);
  to ← instant (lq_dateTo q);
  rows ← atomic (gets (list_rows customerId q from to));
  let '(page, next) := page_rows customerId q c rows in
  let summaries := map (fun t => asSummary t customerId) page in
  _ ← throw_when (negb (forallb transferSummarySchema summaries
                        && (length summaries <=? MAX_TRANSFER_PAGE_SIZE)%nat
                        && when_present (len_between 1 1024) next)) zodError;
  mret (summaries, next).
End Service.
