(* ===== verification/PaymentsInv.v ===== *)
(** * The Payments invariant: limits, intents and finished transfers *)

From Stdlib Require Import ZArith Lia Ascii String.
From stdpp Require Import base strings list gmap sorting.
From S2P Require Import Prelude.
From S2P Require Import Js.
From S2P Require Import Calendar.
From S2P Require Import Contracts.
From S2P Require Import Security.
From S2P Require Import LedgerDb.
From S2P Require Import CustomerTransfer.
From S2P Require Import Services.
From S2P Require Import PaymentsDb.
From S2P Require Import Peers.
From S2P Require Import PaymentTransfers.

Open Scope Z_scope.

(** What a customer has sent, or may still send, on a day. *)
Definition counted (customer day : string) (t : Transfer) : Prop :=
  tf_sender t = customer /\ reserving (tf_status t) = true /\ day_text (tf_createdAt t) = day.
#[export] Instance counted_dec customer day t : Decision (counted customer day t).
Proof. unfold counted. apply _. Defined.
Definition sent_on (customer day : string) (db : PaymentsDb) : Z :=
  sum_by tf_amount (filter (counted customer day) (transfers db)).

(** One row: finished transfers carry the ledger's identifiers, only failures a
    failure code, and a transfer in progress has attempts left. *)
Record transfer_ok (config : PaymentsConfig) (t : Transfer) : Prop := {
  to_completed : tf_status t = COMPLETED ->
    is_Some (tg_ledgerJournalId (tf_progress t)) /\ is_Some (tg_senderPostingId (tf_progress t))
    /\ is_Some (tg_recipientPostingId (tf_progress t));
  to_failure : tf_status t <> FAILED -> tg_failureCode (tf_progress t) = None;
  to_attempts : 0 <= tg_attemptCount (tf_progress t) /\
    (tf_status t = PROCESSING -> tg_attemptCount (tf_progress t) < maxProcessingAttempts config);
  to_amount : 0 <= tf_amount t;
  to_year : four_digit_year (tf_createdAt t)
}.

Record PaymentsInv (config : PaymentsConfig) (db : PaymentsDb) : Prop := {
  py_ids : NoDup (tf_id <$> transfers db);
  py_intents : NoDup (ti_id <$> transferIntents db);
  py_amounts : forall i, i ∈ transferIntents db -> 0 <= ti_amountMinor i;
  py_limit : forall customer day, sent_on customer day db <= dailyOutgoingLimitMinor config;
  py_rows : forall t, t ∈ transfers db -> transfer_ok config t;
  py_consumed : forall i, i ∈ transferIntents db -> is_Some (ti_consumedAt i) ->
    exists t, t ∈ transfers db /\ td_intentId (tf_data t) = ti_id i
}.

(** ** Rows *)
Lemma existsb_none {A} (f : A -> bool) l x : existsb f l = false -> x ∈ l -> f x = false.
Proof.
  intros H Hx. destruct (f x) eqn:Hf; [|done]. rewrite <- H. symmetry. apply existsb_exists.
  exists x. by rewrite <- list_elem_of_In.
Qed.
Section Rows.
Context {A : Type}.
Variable id_of : A -> string.

Lemma find_row_spec id rows r : find_row id_of id rows = Some r -> r ∈ rows /\ id_of r = id.
Proof.
  unfold find_row. intros H. apply find_some in H as [Hin He]. split; [by apply list_elem_of_In|].
  by apply String.eqb_eq.
Qed.
Lemma find_row_elem id rows r : NoDup (id_of <$> rows) -> r ∈ rows -> id_of r = id ->
  find_row id_of id rows = Some r.
Proof.
  unfold find_row. induction rows as [|x rows IH]; [by inversion 2|].
  cbn. intros [Hx Hn]%NoDup_cons Hin Hid. destruct (String.eqb_spec (id_of x) id) as [He|Hne].
  - apply elem_of_cons in Hin as [->|Hin]; [done|]. destruct Hx. rewrite He, <- Hid. by apply list_elem_of_fmap_2.
  - apply elem_of_cons in Hin as [->|Hin]; [done|auto].
Qed.
Lemma update_row_ids id f rows : (forall r, id_of r = id -> id_of (f r) = id) ->
  id_of <$> update_row id_of id f rows = id_of <$> rows.
Proof.
  intros Hf. induction rows as [|x rows IH]; [done|]. cbn. f_equal; [|exact IH].
  destruct (String.eqb_spec (id_of x) id) as [He|]; [|done]. by rewrite Hf, He.
Qed.
Lemma update_row_elem id f rows r : r ∈ update_row id_of id f rows ->
  (r ∈ rows /\ id_of r <> id) \/ exists r0, r0 ∈ rows /\ id_of r0 = id /\ r = f r0.
Proof.
  unfold update_row. intros H. apply list_elem_of_fmap in H as (x & -> & Hx).
  destruct (String.eqb_spec (id_of x) id) as [He|Hne]; [right; eauto|by left].
Qed.
Lemma update_row_in id f rows r0 : r0 ∈ rows ->
  (if String.eqb (id_of r0) id then f r0 else r0) ∈ update_row id_of id f rows.
Proof. intros H. unfold update_row. by apply (list_elem_of_fmap_2 (fun r => if String.eqb (id_of r) id then f r else r)). Qed.
End Rows.

Lemma NoDup_fmap_filter {A B} (f : A -> B) (P : A -> Prop) `{forall x, Decision (P x)} l :
  NoDup (f <$> l) -> NoDup (f <$> filter P l).
Proof.
  induction l as [|x l IH]; [done|]. rewrite fmap_cons, filter_cons. intros [Hx Hn]%NoDup_cons.
  destruct (decide (P x)); [|auto]. rewrite fmap_cons. apply NoDup_cons. split; [|auto].
  intros (y & Hy & Hin)%list_elem_of_fmap. apply Hx. rewrite Hy. apply list_elem_of_fmap_2.
  by apply list_elem_of_filter in Hin as [_ Hin].
Qed.

Section Payments.
Context {Env : Type} {peers : Peers Env} {zod : Zod} {crypto : Crypto} {pg : Postgres}.
Variable config : PaymentsConfig.
Variable now : Z.
Hypothesis attempts_allowed : 0 < maxProcessingAttempts config.
Hypothesis now_year : four_digit_year now.

Abbreviation inv := (PaymentsInv config).

(** ** Updates of one row *)
Definition moves_to (old new : TransferProgress) : Prop :=
  (reserving (tg_status new) = true -> reserving (tg_status old) = true)
  /\ (tg_status new = COMPLETED -> is_Some (tg_ledgerJournalId new) /\ is_Some (tg_senderPostingId new)
        /\ is_Some (tg_recipientPostingId new))
  /\ (tg_status new <> FAILED -> tg_failureCode new = None)
  /\ 0 <= tg_attemptCount new
  /\ (tg_status new = PROCESSING -> tg_attemptCount new < maxProcessingAttempts config).

Lemma update_transfer_ok id f events db t db' :
  update_transfer now id f events db = (Ok t, db') ->
  exists old, find_row tf_id id (transfers db) = Some old /\
    tf_id t = id /\ tf_data t = tf_data old /\ tf_createdAt t = tf_createdAt old /\
    (let g := f (tf_progress old) in
     tf_progress t = mkProgress (tg_status g) (tg_failureCode g) (tg_ledgerJournalId g) (tg_senderPostingId g)
             (tg_recipientPostingId g) (tg_senderBalanceAfterMinor g) (tg_recipientBalanceAfterMinor g)
             (tg_attemptCount g) (tg_nextAttemptAt g) now (tg_completedAt g) (tg_failedAt g)) /\
    transfers db' = update_row tf_id id (fun _ => t) (transfers db) /\
    transferIntents db' = transferIntents db.
Proof.
  unfold update_transfer, pay_unique, pay_check, add_events. intros H. run.
  eexists. split; [reflexivity|]. by repeat split.
Qed.

Lemma update_transfer_inv id f events db t db' old : inv db ->
  update_transfer now id f events db = (Ok t, db') ->
  find_row tf_id id (transfers db) = Some old -> moves_to (tf_progress old) (f (tf_progress old)) -> inv db'.
Proof.
  intros Hinv H Hold (Hres & Hc & Hf & Ha0 & Ha).
  apply update_transfer_ok in H as (old' & Hold' & Hid & Hdata & Hat & Hg & Htr & Hin).
  rewrite Hold in Hold'. injection Hold' as <-. apply find_row_spec in Hold as [Helem Hoid].
  destruct (py_rows _ _ Hinv old Helem) as [? ? ? Hamt Hyr]. cbv zeta in Hg.
  constructor; rewrite ?Htr, ?Hin; try apply Hinv.
  - rewrite update_row_ids by (by intros; rewrite Hid). apply Hinv.
  - intros customer day. eapply Z.le_trans; [|apply (py_limit _ _ Hinv customer day)].
    unfold sent_on. rewrite Htr, !filter_sum. unfold update_row. rewrite sum_by_map.
    apply sum_by_mono. intros x Hx. destruct (String.eqb_spec (tf_id x) id) as [Hxid|]; [|done].
    assert (x = old) as ->.
    { pose proof (find_row_elem tf_id id _ x (py_ids _ _ Hinv) Hx Hxid).
      pose proof (find_row_elem tf_id id _ old (py_ids _ _ Hinv) Helem Hoid). congruence. }
    destruct (decide (counted customer day t)) as [Hct|]; [|destruct (decide _); lia].
    destruct (decide (counted customer day old)) as [|Hno]; [unfold tf_amount; by rewrite Hdata|].
    destruct Hno. destruct Hct as (H1 & H2 & H3). unfold tf_sender, tf_status in *.
    rewrite Hdata in H1. rewrite Hat in H3. rewrite Hg in H2. cbn in H2. by repeat split; [|apply Hres|].
  - intros x Hx. apply update_row_elem in Hx as [[Hx _]|(x0 & _ & _ & ->)]; [by apply Hinv|].
    unfold tf_status, tf_amount in *.
    constructor; unfold tf_status, tf_amount; rewrite ?Hg, ?Hdata, ?Hat; cbn; done.
  - intros i Hi Hcons. destruct (py_consumed _ _ Hinv i Hi Hcons) as (x & Hx & Hxi).
    eexists. split; [by apply (update_row_in tf_id id (fun _ => t))|].
    destruct (String.eqb_spec (tf_id x) id) as [Hxid|]; [|done]. rewrite Hdata.
    assert (x = old) as ->; [|done].
    pose proof (find_row_elem tf_id id _ x (py_ids _ _ Hinv) Hx Hxid).
    pose proof (find_row_elem tf_id id _ old (py_ids _ _ Hinv) Helem Hoid). congruence.
Qed.

(** ** Intents *)
Definition same_intent (i j : TransferIntent) : Prop :=
  ti_id i = ti_id j /\ ti_amountMinor i = ti_amountMinor j.

Lemma update_intent_inv id f db db' : inv db ->
  update_intent id f db = (Ok tt, db') ->
  (forall i, same_intent (f i) i) ->
  (forall i, i ∈ transferIntents db -> ti_id i = id -> is_Some (ti_consumedAt (f i)) ->
     exists t, t ∈ transfers db /\ td_intentId (tf_data t) = ti_id i) -> inv db'.
Proof.
  intros Hinv H Hf Hc. unfold update_intent in H. run.
  constructor; cbn; try apply Hinv.
  - rewrite update_row_ids; [apply Hinv|]. intros r <-. apply Hf.
  - intros i Hi. apply update_row_elem in Hi as [[Hi _]|(i0 & Hi & _ & ->)]; [by apply Hinv|].
    destruct (Hf i0) as [_ ->]. by apply Hinv.
  - intros i Hi Hcons. apply update_row_elem in Hi as [[Hi _]|(i0 & Hi & Hid & ->)]; [by apply (py_consumed _ _ Hinv)|].
    destruct (Hf i0) as [-> _]. by apply Hc.
Qed.

Lemma create_intent_ok mk db i db' : create_intent mk db = (Ok i, db') ->
  exists id, i = mk id /\ (id ∉ (ti_id <$> transferIntents db)) /\ transferIntents db' = transferIntents db ++ [i] /\ transfers db' = transfers db.
Proof.
  unfold create_intent, pay_uuid, pay_unique, pay_check. intros H. apply bind_Ok_inv in H as (id & db1 & [= <- <-] & H). run. cbn in *.
  eexists. split; [reflexivity|]. split; [|done]. intros (j & Hj & Hin)%list_elem_of_fmap.
  assert (existsb (fun x => String.eqb (ti_id x) (uuid (pay_uuidCounter db))) (transferIntents db) = true); [|congruence].
  apply existsb_exists. exists j. split; [by apply list_elem_of_In|]. rewrite <- Hj. apply String.eqb_refl.
Qed.
Lemma create_intent_err mk db e db' : create_intent mk db = (Err e, db') -> exists n, db' = set_pay_uuid n db.
Proof.
  unfold create_intent, pay_uuid, pay_unique, pay_check, throw_when. intros H.
  apply bind_Err_inv in H as [H|(id & db1 & [= <- <-] & H)]; [discriminate|]. exists N.succ.
  unfold get, mbind, M_bind, modify, throw, mret, M_ret in H. repeat (case_match; try discriminate); by simplify_eq.
Qed.
Lemma create_intent_inv mk : (forall id, ti_id (mk id) = id /\ 0 <= ti_amountMinor (mk id) /\ ti_consumedAt (mk id) = None) ->
  preserves inv (create_intent mk).
Proof.
  intros Hmk db Hinv. destruct (create_intent mk db) as [[i|e] db'] eqn:H.
  - apply create_intent_ok in H as (id & -> & Hfresh & Hin & Htr). destruct (Hmk id) as (Hid & Hamt & Hcons).
    constructor; rewrite ?Hin, ?Htr; try apply Hinv.
    + rewrite fmap_app. apply NoDup_app. split; [apply Hinv|]. split; [|apply NoDup_singleton].
      intros k Hk Hk'%list_elem_of_singleton. subst k. by rewrite Hid in Hk.
    + intros j [Hj|Hj%list_elem_of_singleton]%elem_of_app; [by apply Hinv|by subst].
    + intros customer day. unfold sent_on. rewrite Htr. apply Hinv.
    + intros j [Hj|Hj%list_elem_of_singleton]%elem_of_app Hc; [by apply (py_consumed _ _ Hinv)|].
      subst. rewrite Hcons in Hc. by destruct Hc.
  - apply create_intent_err in H as [n ->]. constructor; apply Hinv.
Qed.
End Payments.
