(* ===== verification/PaymentsReconciliation.v ===== *)
(** * Reconciliation of Payments
    ([services/payments/src/reconciliation/payments-reconciliation.service.ts]) *)

From Stdlib Require Import ZArith Lia Ascii String.
From stdpp Require Import base strings list gmap sorting.
From S2P Require Import Prelude.
From S2P Require Import Js.
From S2P Require Import Contracts.
From S2P Require Import LedgerDb.
From S2P Require Import Services.
From S2P Require Import PaymentsDb.
From S2P Require Import PaymentTransfers.
From S2P Require Import PaymentsInv.

Open Scope Z_scope.

Definition Issue : Type := string * IssueSeverity.

(** [for (let i = 0; i < Math.min(count, 50 - issues.length); i += 1)
    issues.push(...)]: the bound is computed again after every push. *)
Fixpoint add_loop (fuel : nat) (i : Z) (issue : Issue) (count : Z) (issues : list Issue) : list Issue :=
  match fuel with
  | O => issues
  | S fuel =>
      if i <? Z.min count (50 - Z.of_nat (length issues))
      then add_loop fuel (i + 1) issue count (issues ++ [issue])
      else issues
  end.
Definition add (code : string) (severity : IssueSeverity) (count : Z) (issues : list Issue) : list Issue :=
  add_loop 50 0 (code, severity) count issues.

Record Counts := mkCounts {
  ct_missing : Z; ct_orphan : Z; ct_bad : Z; ct_stale : Z; ct_qr : Z; ct_agent : Z
}.
Definition issues_of (c : Counts) : list Issue :=
  add "COMPLETED_AGENT_MISSING_LEDGER_DATA" ERROR (ct_agent c)
  (add "COMPLETED_QR_MISSING_LEDGER_DATA" ERROR (ct_qr c)
  (add "STALE_PROCESSING_TRANSFER" WARNING (ct_stale c)
  (add "COMPLETED_TRANSFER_HAS_FAILURE" ERROR (ct_bad c)
  (add "CONSUMED_INTENT_WITHOUT_TRANSFER" ERROR (ct_orphan c)
  (add "COMPLETED_TRANSFER_LEDGER_DATA_MISSING" ERROR (ct_missing c) []))))).
Definition verdict (issues : list Issue) : bool :=
  negb (existsb (fun i => bool_decide (i.2 = ERROR)) issues).

Definition count_if {A} (P : A -> bool) (l : list A) : Z := Z.of_nat (length (filter (fun a => P a = true) l)).
Definition is_completed (t : Transfer) : bool := bool_decide (tf_status t = COMPLETED).
Definition absent {A} (o : option A) : bool := match o with None => true | Some _ => false end.

Definition missing_count (db : PaymentsDb) : Z :=
  count_if (fun t => is_completed t
    && (absent (tg_ledgerJournalId (tf_progress t)) || absent (tg_senderPostingId (tf_progress t))
        || absent (tg_recipientPostingId (tf_progress t)))) (transfers db).
Definition orphan_count (db : PaymentsDb) : Z :=
  count_if (fun i => negb (absent (ti_consumedAt i))
    && negb (existsb (fun t => String.eqb (td_intentId (tf_data t)) (ti_id i)) (transfers db))) (transferIntents db).
Definition bad_count (db : PaymentsDb) : Z :=
  count_if (fun t => is_completed t && negb (absent (tg_failureCode (tf_progress t)))) (transfers db).
Definition stale_count (now : Z) (db : PaymentsDb) : Z :=
  count_if (fun t => bool_decide (tf_status t = PROCESSING)
    && (tg_updatedAt (tf_progress t) <? now - 30000)) (transfers db).
Definition qr_missing_count (db : PaymentsDb) : Z :=
  count_if (fun r => bool_decide (rd_status r = QP_COMPLETED) && absent (rd_ledgerJournalId r)) (qrRedemptions db).
Definition agent_missing_count (db : PaymentsDb) : Z :=
  count_if (fun o => bool_decide (ag_status o = AG_COMPLETED) && absent (ag_ledgerJournalId o))
    (agentCashOperations db).

Section Run.
Context {Env : Type}.
Abbreviation PayS := (M (System PaymentsDb Env) PaymentsErr).
Variable now : Z.

(** [reconciliationRun.create] *)
Definition create_payments_run (r : PaymentsRun) : PayM unit :=
  _ ← pay_check (int32_ok (pn_checkedTransfers r) && int32_ok (pn_checkedIntents r)
                 && int32_ok (pn_issueCount r)) "reconciliation_runs";
  modify (set_payments_runs (fun l => l ++ [r])).

(** [run()]: the eight counts are separate statements, other requests may run
    between them. *)
Definition run_payments_reconciliation : PayS PaymentsRun :=
  checkedTransfers ← atomic (gets (fun db => Z.of_nat (length (transfers db))));
  checkedIntents ← atomic (gets (fun db => Z.of_nat (length (transferIntents db))));
  missing ← atomic (gets missing_count);
  orphan ← atomic (gets orphan_count);
  bad ← atomic (gets bad_count);
  stale ← atomic (gets (stale_count now));
  qr ← atomic (gets qr_missing_count);
  agent ← atomic (gets agent_missing_count);
  let issues := issues_of (mkCounts missing orphan bad stale qr agent) in
  let r := mkPaymentsRun (verdict issues) checkedTransfers checkedIntents (Z.of_nat (length issues))
             issues now now in
  _ ← atomic (create_payments_run r);
  mret r.
End Run.

(** ** The issue list *)

(** How many issues of [count] are reported when [len] are there already. *)
Definition reported (count : Z) (len : nat) : Z :=
  Z.max 0 (Z.min count ((50 - Z.of_nat len + 1) / 2)).

Lemma half_bound r i : 0 <= i -> i < r -> i < (r + i + 1) / 2.
Proof. intros. Z.to_euclidean_division_equations; lia. Qed.
Lemma half_stop r i : 0 <= i -> r <= i -> (r + i + 1) / 2 <= i.
Proof. intros. Z.to_euclidean_division_equations; lia. Qed.

Lemma add_loop_spec fuel i issue count issues :
  0 <= i <= Z.of_nat (length issues) -> 50 <= Z.of_nat (length issues) + Z.of_nat fuel ->
  Z.of_nat (length issues) <= 50 ->
  add_loop fuel i issue count issues =
  issues ++ replicate (Z.to_nat (reported count (length issues - Z.to_nat i) - i)) issue.
Proof.
  revert i issues. induction fuel as [|fuel IH]; intros i issues Hi Hfuel Hlen; cbn [add_loop].
  all: assert (Hr : reported count (length issues - Z.to_nat i) =
    Z.max 0 (Z.min count ((50 - Z.of_nat (length issues) + i + 1) / 2)))
    by (unfold reported; rewrite Nat2Z.inj_sub, Z2Nat.id by lia; do 3 f_equal; lia).
  - pose proof (half_stop (50 - Z.of_nat (length issues)) i) as Hh. rewrite Hr.
    replace (Z.to_nat _) with O by lia. by rewrite app_nil_r.
  - destruct (Z.ltb_spec i (Z.min count (50 - Z.of_nat (length issues)))) as [Hlt|Hge].
    + pose proof (half_bound (50 - Z.of_nat (length issues)) i) as Hh.
      rewrite IH; rewrite ?length_app; cbn [length]; try lia.
      replace (length issues + 1 - Z.to_nat (i + 1))%nat with (length issues - Z.to_nat i)%nat by lia.
      rewrite <- app_assoc. f_equal. rewrite Hr. set (m := Z.max 0 _) in *.
      assert (i < m) by lia. replace (Z.to_nat (m - i)) with (S (Z.to_nat (m - (i + 1)))) by lia. done.
    + pose proof (half_stop (50 - Z.of_nat (length issues)) i) as Hh. rewrite Hr.
      replace (Z.to_nat _) with O by lia. by rewrite app_nil_r.
Qed.

Lemma add_spec code severity count issues : Z.of_nat (length issues) <= 50 ->
  add code severity count issues =
  issues ++ replicate (Z.to_nat (reported count (length issues))) (code, severity).
Proof.
  intros H. unfold add. rewrite add_loop_spec by (cbn; lia). cbn. by rewrite Nat.sub_0_r, Z.sub_0_r.
Qed.

(** Each kind of issue leaves half of the room to the next ones. *)
Definition room (issues : list Issue) : Z := 50 - Z.of_nat (length issues).
Lemma add_room code severity count issues : 0 <= room issues ->
  room issues / 2 <= room (add code severity count issues) <= room issues.
Proof.
  unfold room. intros H. rewrite add_spec by lia.
  rewrite length_app, length_replicate, Nat2Z.inj_add. unfold reported. rewrite Z2Nat.id by lia.
  Z.to_euclidean_division_equations; lia.
Qed.

Definition is_error (i : Issue) : bool := bool_decide (i.2 = ERROR).
Lemma existsb_replicate {A} (f : A -> bool) n x : existsb f (replicate n x) = (0 <? Z.of_nat n) && f x.
Proof.
  induction n as [|n IH]; [done|]. cbn [replicate existsb]. rewrite IH.
  replace (0 <? Z.of_nat (S n)) with true by (symmetry; apply Z.ltb_lt; lia).
  destruct (f x); [done|]. by rewrite andb_false_r.
Qed.
Lemma added_errors code severity count issues : 1 <= room issues ->
  existsb is_error (add code severity count issues) =
  existsb is_error issues || ((0 <? count) && bool_decide (severity = ERROR)).
Proof.
  unfold room. intros H. rewrite add_spec by lia. rewrite existsb_app, existsb_replicate.
  do 2 f_equal. unfold reported.
  destruct (Z.ltb_spec 0 count); [apply Z.ltb_lt|apply Z.ltb_ge]; rewrite Z2Nat.id by lia;
    Z.to_euclidean_division_equations; lia.
Qed.

(** Whatever the numbers, at least one issue of every kind that occurs is on
    the list, within the cap of 50. *)
Lemma issues_verdict c :
  room (issues_of c) >= 0 /\
  verdict (issues_of c) = negb ((0 <? ct_missing c) || (0 <? ct_orphan c) || (0 <? ct_bad c)
                                || (0 <? ct_qr c) || (0 <? ct_agent c)).
Proof.
  unfold issues_of.
  pose proof (add_room "COMPLETED_TRANSFER_LEDGER_DATA_MISSING" ERROR (ct_missing c) []) as H1.
  change (room []) with 50 in H1. set (l1 := add _ _ (ct_missing c) []) in *.
  pose proof (add_room "CONSUMED_INTENT_WITHOUT_TRANSFER" ERROR (ct_orphan c) l1) as H2.
  set (l2 := add _ _ (ct_orphan c) l1) in *.
  pose proof (add_room "COMPLETED_TRANSFER_HAS_FAILURE" ERROR (ct_bad c) l2) as H3.
  set (l3 := add _ _ (ct_bad c) l2) in *.
  pose proof (add_room "STALE_PROCESSING_TRANSFER" WARNING (ct_stale c) l3) as H4.
  set (l4 := add _ _ (ct_stale c) l3) in *.
  pose proof (add_room "COMPLETED_QR_MISSING_LEDGER_DATA" ERROR (ct_qr c) l4) as H5.
  set (l5 := add _ _ (ct_qr c) l4) in *.
  pose proof (add_room "COMPLETED_AGENT_MISSING_LEDGER_DATA" ERROR (ct_agent c) l5) as H6.
  assert (H7 : 25 <= room l1 /\ 12 <= room l2 /\ 6 <= room l3 /\ 3 <= room l4 /\ 1 <= room l5)
    by (Z.to_euclidean_division_equations; lia).
  split; [Z.to_euclidean_division_equations; lia|].
  unfold verdict. change (fun i : Issue => bool_decide (i.2 = ERROR)) with is_error. f_equal.
  rewrite added_errors by lia. unfold l5. rewrite added_errors by lia. unfold l4. rewrite added_errors by lia.
  unfold l3. rewrite added_errors by lia. unfold l2. rewrite added_errors by lia. unfold l1. rewrite added_errors by done.
  cbn. by rewrite !andb_true_r, andb_false_r, orb_false_r.
Qed.

(** ** What a run certifies *)
Record books_closed (db : PaymentsDb) : Prop := {
  bc_transfers : forall t, t ∈ transfers db -> tf_status t = COMPLETED ->
    is_Some (tg_ledgerJournalId (tf_progress t)) /\ is_Some (tg_senderPostingId (tf_progress t))
    /\ is_Some (tg_recipientPostingId (tf_progress t)) /\ tg_failureCode (tf_progress t) = None;
  bc_intents : forall i, i ∈ transferIntents db -> is_Some (ti_consumedAt i) ->
    exists t, t ∈ transfers db /\ td_intentId (tf_data t) = ti_id i;
  bc_qr : forall r, r ∈ qrRedemptions db -> rd_status r = QP_COMPLETED -> is_Some (rd_ledgerJournalId r);
  bc_agents : forall o, o ∈ agentCashOperations db -> ag_status o = AG_COMPLETED -> is_Some (ag_ledgerJournalId o)
}.

Lemma count_if_zero {A} (P : A -> bool) l : (0 <? count_if P l) = false <-> forall x, x ∈ l -> P x = false.
Proof.
  unfold count_if. rewrite Z.ltb_ge. split.
  - intros H x Hx. destruct (P x) eqn:Hp; [|done].
    assert (x ∈ filter (fun a => P a = true) l) as Hin by (by apply list_elem_of_filter).
    apply list_elem_of_lookup in Hin as [k Hk%lookup_lt_Some]. lia.
  - intros H. induction l as [|x l IH]; [done|]. rewrite filter_cons, decide_False.
    + apply IH. intros y Hy. apply H. by right.
    + rewrite H by left. done.
Qed.
Lemma absent_false {A} (o : option A) : absent o = false <-> is_Some o.
Proof. destruct o; cbn; split; intros H; try done; by destruct H. Qed.

Lemma missing_zero db : (0 <? missing_count db) = false <->
  forall t, t ∈ transfers db -> tf_status t = COMPLETED ->
    is_Some (tg_ledgerJournalId (tf_progress t)) /\ is_Some (tg_senderPostingId (tf_progress t))
    /\ is_Some (tg_recipientPostingId (tf_progress t)).
Proof.
  unfold missing_count. rewrite count_if_zero. unfold is_completed.
  split; intros H t Ht; specialize (H t Ht); rewrite <- !absent_false in *.
  - intros Hs. rewrite bool_decide_eq_true_2 in H by done. cbn in H. bool_to_Z. done.
  - destruct (bool_decide _) eqn:Hs; [|done]. bool_to_Z. destruct (H Hs) as (-> & -> & ->). done.
Qed.
Lemma bad_zero db : (0 <? bad_count db) = false <->
  forall t, t ∈ transfers db -> tf_status t = COMPLETED -> tg_failureCode (tf_progress t) = None.
Proof.
  unfold bad_count. rewrite count_if_zero. unfold is_completed.
  split; intros H t Ht; specialize (H t Ht).
  - intros Hs. rewrite bool_decide_eq_true_2 in H by done. cbn in H. by destruct (tg_failureCode _).
  - destruct (bool_decide _) eqn:Hs; [|done]. bool_to_Z. by rewrite (H Hs).
Qed.
Lemma orphan_zero db : (0 <? orphan_count db) = false <->
  forall i, i ∈ transferIntents db -> is_Some (ti_consumedAt i) ->
    exists t, t ∈ transfers db /\ td_intentId (tf_data t) = ti_id i.
Proof.
  unfold orphan_count. rewrite count_if_zero. split; intros H i Hi; specialize (H i Hi).
  - intros [c Hc]. rewrite Hc in H. cbn in H. bool_to_Z. apply existsb_exists in H as (t & Ht & He).
    exists t. bool_to_Z. split; [by apply list_elem_of_In|done].
  - destruct (ti_consumedAt i) as [c|]; [|done]. destruct H as (t & Ht & He); [by eexists|].
    cbn. apply negb_false_iff, existsb_exists. exists t. split; [by apply list_elem_of_In|by apply String.eqb_eq].
Qed.
Lemma qr_zero db : (0 <? qr_missing_count db) = false <->
  forall r, r ∈ qrRedemptions db -> rd_status r = QP_COMPLETED -> is_Some (rd_ledgerJournalId r).
Proof.
  unfold qr_missing_count. rewrite count_if_zero. split; intros H r Hr; specialize (H r Hr); rewrite <- absent_false in *.
  - intros Hs. by rewrite bool_decide_eq_true_2 in H.
  - destruct (bool_decide _) eqn:Hs; [|done]. bool_to_Z. by rewrite (H Hs).
Qed.
Lemma agent_zero db : (0 <? agent_missing_count db) = false <->
  forall o, o ∈ agentCashOperations db -> ag_status o = AG_COMPLETED -> is_Some (ag_ledgerJournalId o).
Proof.
  unfold agent_missing_count. rewrite count_if_zero. split; intros H r Hr; specialize (H r Hr); rewrite <- absent_false in *.
  - intros Hs. by rewrite bool_decide_eq_true_2 in H.
  - destruct (bool_decide _) eqn:Hs; [|done]. bool_to_Z. by rewrite (H Hs).
Qed.

Definition counts_of (now : Z) (db : PaymentsDb) : Counts :=
  mkCounts (missing_count db) (orphan_count db) (bad_count db) (stale_count now db)
    (qr_missing_count db) (agent_missing_count db).
Lemma verdict_closed now db : verdict (issues_of (counts_of now db)) = true <-> books_closed db.
Proof.
  rewrite (proj2 (issues_verdict _)), negb_true_iff, !orb_false_iff. cbn.
  rewrite missing_zero, orphan_zero, bad_zero, qr_zero, agent_zero. split.
  - intros [[[[H1 H2] H3] H4] H5]. constructor; try done. intros t Ht Hs.
    destruct (H1 t Ht Hs) as (? & ? & ?). auto.
  - intros [H1 H2 H3 H4]. repeat split; try done; intros; by eapply H1.
Qed.

(** C23: a reconciliation run passes exactly on books that are closed: every
    completed transfer, QR redemption and agent operation has its journal, no
    completed transfer carries a failure, every consumed intent has its
    transfer. Neither the cap on the issues nor a flood of stale transfers can
    hide an error. *)
Theorem payments_reconciliation_verdict {Env : Type} now db (env : Env) r s' :
  run_payments_reconciliation now (alone db env) = (Ok r, s') ->
  (pn_pass r = true <-> books_closed db) /\ pn_issueCount r <= 50 /\
  sdb s' = set_payments_runs (fun l => l ++ [r]) db.
Proof.
  unfold run_payments_reconciliation. intros H. run.
  repeat match goal with H : atomic (gets _) _ = (Ok _, _) |- _ =>
    rewrite atomic_alone in H; cbn in H; injection H as <- <- end.
  match goal with H : atomic (create_payments_run _) _ = _ |- _ => rewrite atomic_alone in H; rename H into Hc end.
  unfold create_payments_run in Hc. destruct (_ ≫= _) as [[[]|e] db'] eqn:Hrun in Hc; cbn in Hc; [|done].
  injection Hc as <-. unfold pay_check in Hrun. run. cbn [pn_pass pn_issueCount sdb].
  change (mkCounts _ _ _ _ _ _) with (counts_of now db). rewrite verdict_closed.
  pose proof (proj1 (issues_verdict (counts_of now db))) as Hroom. unfold room in Hroom.
  split; [done|]. split; [lia|]. done.
Qed.

(** The invariant, and journals on what the channels completed. *)
Definition auditable (config : PaymentsConfig) (db : PaymentsDb) : Prop :=
  PaymentsInv config db
  /\ (forall r, r ∈ qrRedemptions db -> rd_status r = QP_COMPLETED -> is_Some (rd_ledgerJournalId r))
  /\ (forall o, o ∈ agentCashOperations db -> ag_status o = AG_COMPLETED -> is_Some (ag_ledgerJournalId o)).

Section Concurrent.
Context {Env : Type}.
Variable config : PaymentsConfig.
Variable now : Z.
Abbreviation ok := (sys_ok (Env := Env) (auditable config) (fun _ _ => True)).

Definition none (n : Z) : Prop := (0 <? n) = false.
Lemma read_ok {A} (f : PaymentsDb -> A) (Q : A -> Prop) : (forall db, auditable config db -> Q (f db)) ->
  triple ok (atomic (gets (E := PaymentsErr) f)) (fun a s => ok s /\ Q a) (fun _ => ok).
Proof.
  intros HQ. eapply triple_conseq.
  - apply (triple_atomic (auditable config) (fun _ _ => True) (fun _ => True) (gets f) (fun a _ => Q a) (fun _ _ => True)); [done|].
    intros db Hdb _. split; [done|auto].
  - done.
  - done.
  - by intros e s [Hs _].
Qed.
Lemma read_then {A B} (f : PaymentsDb -> A) (Q : A -> Prop) (k : A -> M (System PaymentsDb Env) PaymentsErr B) post :
  (forall db, auditable config db -> Q (f db)) ->
  (forall a, Q a -> triple ok (k a) post (fun _ => ok)) ->
  triple ok (atomic (gets f) ≫= k) post (fun _ => ok).
Proof.
  intros HQ Hk. eapply triple_bind; [by apply read_ok|]. cbn beta. intros a s [Hs Ha]. by apply (Hk a Ha).
Qed.

Lemma payments_run_keeps r : preserves (auditable config) (create_payments_run r).
Proof.
  intros db (Hinv & Hqr & Hag). destruct (create_payments_run r db) as [[u|e] db'] eqn:H.
  - unfold create_payments_run, pay_check in H. run. split; [constructor; apply Hinv|]. by split.
  - unfold create_payments_run in H. apply bind_Err_inv in H as [H|(u & d & _ & H)]; [|discriminate].
    by apply throw_when_state in H as ->.
Qed.

Lemma inv_no_orphan db : auditable config db -> (0 <? orphan_count db) = false.
Proof. intros [H _]. apply orphan_zero. apply H. Qed.
Lemma inv_no_missing db : auditable config db -> (0 <? missing_count db) = false.
Proof. intros [H _]. apply missing_zero. intros t Ht Hs. by apply (to_completed _ _ (py_rows _ _ H t Ht)). Qed.
Lemma inv_no_bad db : auditable config db -> (0 <? bad_count db) = false.
Proof.
  intros [H _]. apply bad_zero. intros t Ht Hs. apply (to_failure _ _ (py_rows _ _ H t Ht)). by rewrite Hs.
Qed.

(** Under the Payments invariant and closed channels, with any number of
    other requests running between its statements, a run that finishes passes. *)
Theorem payments_reconciliation_passes :
  triple ok (run_payments_reconciliation now) (fun r s => ok s /\ pn_pass r = true) (fun _ => ok).
Proof.
  apply (read_then _ (fun _ => True)); [done|intros nt _].
  apply (read_then _ (fun _ => True)); [done|intros ni _].
  apply (read_then _ none _ _ inv_no_missing); intros missing Hm.
  apply (read_then _ none _ _ inv_no_orphan); intros orphan Ho.
  apply (read_then _ none _ _ inv_no_bad); intros bad Hb.
  apply (read_then _ (fun _ => True)); [done|intros stale _].
  apply (read_then _ none); [intros db (_ & H & _); by apply qr_zero|intros qr Hq].
  apply (read_then _ none); [intros db (_ & _ & H); by apply agent_zero|intros agent Ha].
  cbv zeta. set (r := mkPaymentsRun _ _ _ _ _ _ _).
  assert (Hr : pn_pass r = true)
    by (unfold r; cbn [pn_pass]; rewrite (proj2 (issues_verdict _)); cbn; unfold none in *; by rewrite Hm, Ho, Hb, Hq, Ha).
  eapply triple_bind; [apply preserves_atomic, payments_run_keeps|intros u]. by apply triple_ret.
Qed.
End Concurrent.
