(* ===== verification/PaymentProofs.v ===== *)
(** * The transfer saga keeps the Payments invariant *)

From Stdlib Require Import ZArith Lia Ascii String.
From stdpp Require Import base strings list gmap sorting.
From S2P Require Import Prelude.
From S2P Require Import Js.
From S2P Require Import Contracts.
From S2P Require Import Security.
From S2P Require Import Calendar.
From S2P Require Import Services.
From S2P Require Import LedgerDb.
From S2P Require Import CustomerTransfer.
From S2P Require Import PaymentsDb.
From S2P Require Import Peers.
From S2P Require Import PaymentTransfers.
From S2P Require Import PaymentsInv.

Open Scope Z_scope.

(** ** Statements that keep whatever the requests keep *)
Section Keeps.
Context {Env : Type} {peers : Peers Env} {zod : Zod} {crypto : Crypto} {pg : Postgres}.
Variable P : PaymentsDb -> Prop.
Variable R : PaymentsDb -> PaymentsDb -> Prop.
Abbreviation keeps := (preserves (sys_ok (Env := Env) P R)).

Lemma find_intent_keeps hash sender : preserves P (find_intent hash sender).
Proof. apply preserves_gets. Qed.
Lemma find_replay_keeps sender keyHash : preserves P (find_replay sender keyHash).
Proof. apply preserves_gets. Qed.
Lemma ask_keeps {T} (call : Env -> HttpReply T * Env) : keeps (ask call).
Proof. apply preserves_remote. Qed.
Hint Resolve find_intent_keeps find_replay_keeps ask_keeps : preserve.

Lemma ledger_call_keeps {T} (call : Env -> HttpReply T * Env) schema : keeps (ledger_call call schema).
Proof. apply preserves_bind; [auto with preserve|]. intros [b|st c|]; auto with preserve. Qed.
Lemma risk_internal_keeps {T} (call : Env -> HttpReply T * Env) schema : keeps (risk_internal call schema).
Proof.
  apply preserves_bind; [auto with preserve|]. intros [[b|]|st c|]; auto with preserve.
  destruct (schema b); auto with preserve.
Qed.
Hint Resolve ledger_call_keeps risk_internal_keeps : preserve.

Lemma enforce_keeps input : keeps (enforce input).
Proof.
  repeat (apply preserves_bind; [auto with preserve|intros ?]). auto with preserve.
Qed.
Lemma emit_keeps event : keeps (emit event).
Proof. repeat (apply preserves_bind; [auto with preserve|intros ?]). auto with preserve. Qed.
Hint Resolve enforce_keeps emit_keeps : preserve.

(** Creating an intent writes one row, with an amount no smaller than the minimum. *)
Lemma createIntent_keeps config now token eventId sourceEventId input corr : 0 <= minTransferMinor config ->
  (forall mk, (forall id, ti_id (mk id) = id /\ 0 <= ti_amountMinor (mk id) /\ ti_consumedAt (mk id) = None) ->
     preserves P (create_intent mk)) ->
  keeps (createIntent config now token eventId sourceEventId input corr).
Proof.
  intros Hmin Hmk. apply preserves_bind; [auto with preserve|intros minor].
  unfold assertAmount. destruct (_ || _) eqn:Ha; [intros s Hs; exact Hs|]. bool_to_Z.
  apply preserves_bind; [auto with preserve|intros _].
  apply preserves_bind.
  { apply preserves_catch; [apply ledger_call_keeps|intros e]. destruct e; auto with preserve. }
  intros preview. apply preserves_bind; [auto with preserve|intros _].
  apply preserves_bind; [apply preserves_atomic, Hmk; cbn; auto with lia|intros i].
  apply preserves_bind; [auto with preserve|intros _].
  apply preserves_bind; [auto with preserve|intros p].
  apply preserves_bind; [auto with preserve|intros _]. auto with preserve.
Qed.
End Keeps.
#[export] Hint Resolve find_intent_keeps find_replay_keeps ask_keeps ledger_call_keeps risk_internal_keeps
  enforce_keeps emit_keeps : preserve.

Section Payments.
Context {Env : Type} {peers : Peers Env} {zod : Zod} {crypto : Crypto} {pg : Postgres}.
Variable config : PaymentsConfig.
Variable now : Z.
Hypothesis attempts_allowed : 0 < maxProcessingAttempts config.
Hypothesis now_year : four_digit_year now.

Abbreviation inv := (PaymentsInv config).
Abbreviation PayS := (M (System PaymentsDb Env) PaymentsErr).

Lemma find_intent_spec hash sender db o db' : find_intent hash sender db = (Ok o, db') ->
  db' = db /\ forall i, o = Some i -> i ∈ transferIntents db /\ ti_senderCustomerId i = sender /\ ti_tokenHash i = hash.
Proof.
  unfold find_intent. intros H. run. split; [done|]. intros i Hi.
  apply find_some in Hi as [Hi Hb]. bool_to_Z. split; [by apply list_elem_of_In|done].
Qed.
Lemma find_replay_spec sender keyHash db o db' : find_replay sender keyHash db = (Ok o, db') ->
  db' = db /\ match o with
  | Some t => t ∈ transfers db /\ tf_sender t = sender /\ td_idempotencyKeyHash (tf_data t) = keyHash
  | None => True end.
Proof.
  unfold find_replay. intros H. run. split; [done|]. destruct (find _ _) as [t|] eqn:Hf; [|done].
  apply find_some in Hf as [Hi Hb]. bool_to_Z. split; [by apply list_elem_of_In|done].
Qed.

(** Today's transfers are among those the limit check adds up. *)
Lemma sent_on_reserved customer since db : inv db -> day_start now = Some since ->
  sent_on customer (day_text now) db <= reserved_sum customer since db.
Proof.
  intros Hinv Hs. rewrite day_start_floor in Hs by done. injection Hs as <-.
  unfold sent_on, reserved_sum. rewrite !filter_sum. apply sum_by_mono. intros t Ht.
  destruct (py_rows _ _ Hinv t Ht) as [_ _ _ Hamt Hyr].
  destruct (decide (counted _ _ t)) as [(H1 & H2 & H3)|]; [|destruct (decide _); lia].
  rewrite decide_True; [done|]. split; [done|]. split; [done|].
  apply day_text_inj in H3; [|done..]. rewrite <- H3, Z.mul_comm. by apply Z.mul_div_le.
Qed.

Lemma create_transfer_ok d events db t db' : create_transfer now d events db = (Ok t, db') ->
  t = mkTransfer (tf_id t) d now (mkProgress PROCESSING None None None None None None 0 None now None None) /\
  transfers db' = transfers db ++ [t] /\ transferIntents db' = transferIntents db /\
  (tf_id t ∉ (tf_id <$> transfers db)) /\
  transferEvents db' = transferEvents db ++ events (tf_id t).
Proof.
  unfold create_transfer, pay_uuid, pay_unique, pay_check, add_events. intros H.
  apply bind_Ok_inv in H as (id & db1 & [= <- <-] & H). run. cbn in *. repeat split.
  intros (x & Hx & Hin)%list_elem_of_fmap.
  assert (existsb (fun x => String.eqb (tf_id x) (uuid (pay_uuidCounter db))) (transfers db) = true); [|congruence].
  apply existsb_exists. exists x. split; [by apply list_elem_of_In|]. rewrite <- Hx. apply String.eqb_refl.
Qed.

Lemma create_transfer_inv d events db t db' since : inv db ->
  create_transfer now d events db = (Ok t, db') -> 0 <= td_amountMinor d ->
  day_start now = Some since ->
  reserved_sum (td_senderCustomerId d) since db + td_amountMinor d <= dailyOutgoingLimitMinor config ->
  inv db'.
Proof.
  intros Hinv H Hamt Hs Hlim. apply create_transfer_ok in H as (Ht & Htr & Hin & Hfresh & _).
  constructor; rewrite ?Htr, ?Hin; try apply Hinv.
  - rewrite fmap_app. apply NoDup_app. split; [apply Hinv|]. split; [|apply NoDup_singleton].
    by intros k Hk ->%list_elem_of_singleton.
  - intros customer day. unfold sent_on. rewrite Htr, filter_app, sum_by_app.
    change (sent_on customer day db + sum_by tf_amount (filter (counted customer day) [t]) <= dailyOutgoingLimitMinor config).
    pose proof (py_limit _ _ Hinv customer day). rewrite filter_cons, filter_nil.
    destruct (decide (counted customer day t)) as [(H1 & _ & H3)|]; cbn; [|lia].
    rewrite Ht in H1, H3 |- *. unfold tf_sender, tf_amount in *. cbn in *. subst day customer.
    pose proof (sent_on_reserved (td_senderCustomerId d) since db Hinv Hs). lia.
  - intros x [Hx|Hx%list_elem_of_singleton]%elem_of_app; [by apply Hinv|]. subst x. rewrite Ht.
    constructor; unfold tf_status, tf_amount; cbn; done.
  - intros i Hi Hc. destruct (py_consumed _ _ Hinv i Hi Hc) as (x & Hx & Hxi). exists x. set_solver.
Qed.

Lemma prepare_inv random input corr db r db' : inv db ->
  prepare config now random input corr db = (Ok r, db') -> inv db'.
Proof.
  intros Hinv H. unfold prepare in H. run.
  match goal with H : find_intent _ _ _ = _ |- _ => apply find_intent_spec in H as [-> Hi] end.
  match goal with H : find_replay _ _ _ = _ |- _ => apply find_replay_spec in H as [-> Hr] end.
  match type of H with match ?o with _ => _ end _ = _ => destruct o end; run; [done|].
  destruct (Hi _ eq_refl) as (Hin & Hsender & _). bool_to_Z.
  match goal with H : create_transfer _ _ _ _ = (Ok ?t, ?d) |- _ =>
    pose proof (create_transfer_ok _ _ _ _ _ H) as (Ht & Htr & Hint & _);
    eapply create_transfer_inv in H; [|done|cbn; by apply Hinv|eassumption|cbn; lia] end.
  match goal with H : update_intent _ _ _ = _ |- _ => eapply update_intent_inv in H; [exact H|done|done|] end.
  intros i Hi' Hid _. eexists. rewrite Htr. split; [apply elem_of_app; right; by apply list_elem_of_singleton|].
  rewrite Ht. by rewrite Hid.
Qed.

(** ** Settlement among other requests *)

(** The transfer still holds its place against the limit. *)
Definition live (id : string) (db : PaymentsDb) : Prop :=
  exists t, t ∈ transfers db /\ tf_id t = id /\ reserving (tf_status t) = true.
(** Other requests do not fail a transfer this one is settling. *)
Definition keeps_live (db db' : PaymentsDb) : Prop := forall id, live id db -> live id db'.
Abbreviation ok := (sys_ok (Env := Env) inv keeps_live).


Lemma update_transfer_err id f events db e db' :
  update_transfer now id f events db = (Err e, db') -> db' = db /\ (forall s c, e <> LedgerCallError s c).
Proof.
  unfold update_transfer, get, require, pay_unique, pay_check, throw_when, throw, modify, add_events,
    mbind, M_bind, mret, M_ret. intros H.
  repeat case_match; simplify_eq; done.
Qed.

Lemma completed_moves result old : reserving (tg_status old) = true ->
  (tg_status old <> FAILED -> tg_failureCode old = None) -> 0 <= tg_attemptCount old ->
  moves_to config old (completed now result old).
Proof. intros Hr Hf Ha. repeat split; cbn; try done; [by eexists..|]. intros _. apply Hf. by destruct (tg_status old). Qed.
Lemma failed_moves code old : 0 <= tg_attemptCount old -> moves_to config old (failed now code old).
Proof. by repeat split. Qed.

Lemma update_live_inv id f events db t db' : inv db -> live id db ->
  update_transfer now id f events db = (Ok t, db') ->
  (forall old, old ∈ transfers db -> tf_id old = id -> reserving (tf_status old) = true ->
     moves_to config (tf_progress old) (f (tf_progress old))) -> inv db'.
Proof.
  intros Hinv (x & Hx & Hxid & Hl) H Hm.
  pose proof (find_row_elem tf_id id _ x (py_ids _ _ Hinv) Hx Hxid) as Hfind.
  eapply update_transfer_inv; [done..|exact H|exact Hfind|by apply Hm].
Qed.

Definition all_live (ids : list string) (db : PaymentsDb) : Prop := forall id, id ∈ ids -> live id db.
Lemma all_live_stable ids : stable keeps_live (all_live ids).
Proof. intros db db' H Hk id Hid. by apply Hk, H. Qed.

(** An update keeps the other transfers alive, and its own when it keeps the
    status among the reserving ones. *)
Lemma update_transfer_live id f events db t db' tid : inv db ->
  update_transfer now id f events db = (Ok t, db') ->
  (tid = id -> forall old, reserving (tg_status old) = true -> reserving (tg_status (f old)) = true) ->
  live tid db -> live tid db'.
Proof.
  intros Hinv H Hf (x & Hx & Hid & Hl).
  apply update_transfer_ok in H as (old & Hold & Htid & _ & _ & Hg & Htr & _).
  pose proof (update_row_in tf_id id (fun _ => t) (transfers db) x Hx) as Hin. rewrite <- Htr in Hin.
  destruct (String.eqb_spec (tf_id x) id) as [He|Hne]; [|by exists x].
  rewrite (find_row_elem tf_id id _ x (py_ids _ _ Hinv) Hx He) in Hold. injection Hold as <-.
  exists t. split; [done|]. split; [congruence|]. unfold tf_status. rewrite Hg. cbn.
  apply Hf; [congruence|exact Hl].
Qed.

Lemma settle_update_ok ids id f events (err : PaymentsErr -> PaymentsDb -> Prop) :
  id ∉ ids ->
  (forall old, transfer_ok config old -> reserving (tf_status old) = true ->
     moves_to config (tf_progress old) (f (tf_progress old))) ->
  (forall e db, (forall st c, e <> LedgerCallError st c) -> err e db) ->
  triple (fun s => ok s /\ all_live (id :: ids) (sdb s)) (atomic (update_transfer now id f events))
         (fun _ s => ok s /\ all_live ids (sdb s))
         (fun e s => ok s /\ all_live ids (sdb s) /\ err e (sdb s)).
Proof.
  intros Hid Hf Herr. eapply triple_conseq.
  - apply (triple_atomic inv keeps_live (all_live (id :: ids)) _ (fun _ => all_live ids)
      (fun e db => all_live ids db /\ err e db)); [apply all_live_stable|].
    intros db Hinv Hlive. destruct (update_transfer _ _ _ _ db) as [[t|e] db'] eqn:Hu.
    + split.
      * eapply update_live_inv; [exact Hinv|apply Hlive; by left|exact Hu|].
        intros old Hold _ Hr. apply Hf; [by apply Hinv|done].
      * intros i Hi. eapply update_transfer_live; [exact Hinv|exact Hu| |apply Hlive; by right].
        by intros ->.
    + apply update_transfer_err in Hu as [-> Hne]. split; [done|]. split; [|auto].
      intros i Hi. apply Hlive. by right.
  - done.
  - done.
  - intros e s (? & ? & ?). done.
Qed.

(** The ledger call and the update of a success; a refusal leaves the row alive. *)
Lemma settle_call_ok ids row corr events : tf_id row ∉ ids ->
  triple (fun s => ok s /\ all_live (tf_id row :: ids) (sdb s))
    (result ← ledger_transfer (settle_command row) corr;
     atomic (update_transfer now (tf_id row) (completed now result) events))
    (fun _ s => ok s /\ all_live ids (sdb s))
    (fun e s => ok s /\ all_live ids (sdb s) /\
       forall st c, e = LedgerCallError st c -> all_live (tf_id row :: ids) (sdb s)).
Proof.
  intros Hid. eapply (triple_bind _ _ _ _ _ (fun _ s => ok s /\ all_live (tf_id row :: ids) (sdb s))).
  - unfold ledger_transfer, ledger_call, ask.
    eapply triple_bind; [eapply triple_conseq; [apply (triple_remote inv keeps_live (all_live (tf_id row :: ids)))|done|..]|].
    + intros a s Hs. exact Hs.
    + intros e s [Hs Hl]. split; [done|]. split; [|done]. intros i Hi. apply Hl. by right.
    + intros r s [Hs Hl]. assert (all_live ids (sdb s)) by (intros i Hi; apply Hl; by right).
      destruct r as [[b|]|st c|]; cbn; [destruct (internalLedgerTransferResultSchema b); cbn|..]; auto.
  - intros result. eapply triple_conseq; [apply (settle_update_ok ids (tf_id row) _ _
      (fun e _ => forall st c, e <> LedgerCallError st c) Hid); [|done]|done|done|].
    + intros old Hok Hr. by apply completed_moves; [done|apply Hok..].
    + intros e s (Hs & Hl & Hne). split; [done|]. split; [done|]. intros st c He. by destruct (Hne st c).
Qed.

Lemma settle_ok ids row corr : tf_id row ∉ ids ->
  triple (fun s => ok s /\ all_live (tf_id row :: ids) (sdb s)) (settle now row corr)
         (fun _ s => ok s /\ all_live ids (sdb s)) (fun _ => ok).
Proof.
  intros Hid. unfold settle. eapply triple_catch; [by apply settle_call_ok|].
  intros e. destruct e as [| st c | | |]; cbn; try (intros s (Hs & Hl & _); by split).
  destruct (st <? 500); [|intros s (Hs & Hl & _); by split].
  eapply triple_conseq; [apply (settle_update_ok ids (tf_id row) _ _ (fun _ _ => True) Hid); [|done]|..].
  - intros old Hok _. apply failed_moves, Hok.
  - intros s (Hs & _ & Hl). split; [done|]. by apply (Hl st c).
  - done.
  - by intros e s [Hs _].
Qed.

(** ** Requests *)
Lemma update_intent_live id f db u db' tid : update_intent id f db = (Ok u, db') -> live tid db -> live tid db'.
Proof. unfold update_intent. intros H. run. done. Qed.

(** A transfer that [prepare] has just reserved. *)
Lemma prepare_live random input corr db row db' :
  prepare config now random input corr db = (Ok (row, false), db') -> live (tf_id row) db'.
Proof.
  unfold prepare. intros H. run.
  match type of H with match ?o with _ => _ end _ = _ => destruct o end; run; [done|].
  eapply update_intent_live; [eassumption|].
  match goal with H : create_transfer _ _ _ _ = _ |- _ => apply create_transfer_ok in H as (Ht & Htr & _) end.
  eexists. split; [rewrite Htr; apply elem_of_app; right; by apply list_elem_of_singleton|].
  by rewrite Ht at 2.
Qed.

(** Whatever other requests and the other services do, [confirm] keeps every
    customer within the daily limit, leaves no consumed intent without its
    transfer, and completes no transfer without the ledger's identifiers. *)
Theorem confirm_preserves_inv random evaluationId input corr :
  preserves ok (confirm config now random evaluationId input corr).
Proof.
  apply preserves_bind; [auto with preserve|intros preflight].
  apply preserves_bind; [auto with preserve|intros i].
  apply preserves_bind; [auto with preserve|intros _].
  apply preserves_bind; [auto with preserve|intros [t|]].
  - apply preserves_bind; auto with preserve.
  - apply preserves_bind; [auto with preserve|intros _].
    eapply (triple_bind _ _ _ _ _ (fun '(row, replayed) s => ok s /\ (replayed = false -> live (tf_id row) (sdb s)))).
    + eapply triple_conseq.
      * apply (triple_atomic inv keeps_live (fun _ => True) _
          (fun '(row, replayed) db => replayed = false -> live (tf_id row) db) (fun _ _ => True)); [done|].
        intros db Hinv _. destruct (transaction _ _ db) as [[[row replayed]|e] db'] eqn:Ht.
        -- apply transaction_Ok_inv in Ht as [Ht _]. split; [by eapply prepare_inv|].
           intros ->. by eapply prepare_live.
        -- by apply transaction_err in Ht as ->.
      * done.
      * by intros [row replayed] s Hs.
      * by intros e s [Hs _].
    + intros [row replayed]. destruct replayed; [by intros s [Hs _]; apply (preserves_lift _ ok)|].
      destruct (negb _); [by intros s [Hs _]; apply (preserves_lift _ ok)|].
      eapply triple_bind; [|intros a; apply preserves_lift].
      eapply triple_conseq; [apply (settle_ok []), not_elem_of_nil| |by intros ? ? [? _]|done].
      intros s [Hs Hl]. split; [done|]. intros k ->%list_elem_of_singleton. auto.
Qed.

Lemma update_intent_err id f db e db' : update_intent id f db = (Err e, db') -> db' = db.
Proof.
  unfold update_intent, require, get, modify, throw, mbind, M_bind, mret, M_ret. intros Hu.
  repeat case_match; by simplify_eq.
Qed.
Lemma authorize_preserves_inv sender token : preserves ok (authorize now sender token).
Proof.
  apply preserves_bind; [auto with preserve|intros o].
  apply preserves_bind; [auto with preserve|intros i]. destruct (ti_consumedAt i) as [c|] eqn:Hc.
  - apply preserves_bind; [apply preserves_atomic, preserves_gets|intros [t|]; auto with preserve].
  - apply preserves_bind; [auto with preserve|intros _]. apply preserves_atomic. intros db Hinv.
    destruct (update_intent _ _ db) as [[[]|e] db'] eqn:Hu.
    + eapply update_intent_inv; [done|exact Hu|done|]. intros j Hj _ Hcons. by apply (py_consumed _ _ Hinv).
    + by apply update_intent_err in Hu as ->.
Qed.

(** ** Recovery *)
Lemma claim_one_ok id db o db' : inv db -> live id db -> claim_one config now id db = (Ok o, db') ->
  inv db' /\ (forall tid, live tid db -> live tid db') /\ (forall row, o = Some row -> tf_id row = id).
Proof.
  intros Hinv Hlive H. unfold claim_one in H. run.
  match goal with H : find_row _ _ _ = Some ?c |- _ => rename c into current; rename H into Hcur end.
  pose proof (find_row_spec tf_id _ _ _ Hcur) as [Hin Hid].
  destruct (py_rows _ _ Hinv _ Hin) as [Hc Hf [Ha _] _ _].
  destruct Hlive as (x & Hx & Hxid & Hr).
  pose proof (find_row_elem tf_id id _ x (py_ids _ _ Hinv) Hx Hxid) as Hfind.
  assert (current = x) as -> by congruence. clear Hcur.
  assert (tg_failureCode (tf_progress x) = None) by (apply Hf; intros He; by rewrite He in Hr).
  destruct (Z.leb_spec (maxProcessingAttempts config) (tg_attemptCount (tf_progress x) + 1)); run.
  all: match goal with H : update_transfer _ _ _ _ _ = (Ok ?t, ?d) |- _ =>
    pose proof (update_transfer_ok now _ _ _ _ _ _ H) as (_ & _ & Htid & _);
    split; [eapply update_transfer_inv; [done|exact H|exact Hfind|]|
            split; [intros tid Ht; eapply update_transfer_live; [done|exact H| |exact Ht]; by intros|]] end.
  - repeat split; cbn; try done; lia.
  - done.
  - repeat split; cbn; try done; try (by apply Hc); lia.
  - by intros row [= <-].
Qed.

Lemma claim_rows_ok ids db rows db' : inv db -> all_live ids db ->
  for_each (claim_one config now) ids db = (Ok rows, db') ->
  inv db' /\ (forall tid, live tid db -> live tid db') /\
  (tf_id <$> omap id rows) `sublist_of` ids.
Proof.
  revert db rows. induction ids as [|i ids IH]; intros db rows Hinv Hl H; cbn in H; run.
  - split; [done|]. split; [done|]. constructor.
  - match goal with H : claim_one _ _ _ _ = _ |- _ => apply claim_one_ok in H as (Hinv1 & Hl1 & Hid1); [|done|apply Hl; by left] end.
    match goal with H : for_each _ _ _ = _ |- _ => apply IH in H as (Hinv2 & Hl2 & Hsub);
      [|done|intros k Hk; apply Hl1, Hl; by right] end.
    split; [done|]. split; [auto|].
    match goal with |- context [omap id (?o :: _)] => destruct o as [row|] end; cbn.
    + rewrite (Hid1 row eq_refl). by constructor.
    + by constructor.
Qed.

Lemma claimable_ok db : inv db -> all_live (claimable config now db) db /\ NoDup (claimable config now db).
Proof.
  intros Hinv. unfold claimable.
  set (l := merge_sort recovery_order (filter (stale config now) (transfers db))).
  assert (Hp : l ≡ₚ filter (stale config now) (transfers db)) by apply merge_sort_Permutation.
  split.
  - intros i Hi. apply list_elem_of_fmap in Hi as (t & -> & Ht).
    assert (t ∈ l) as Htl by (rewrite <- (take_drop 20 l); set_solver).
    rewrite Hp in Htl. apply list_elem_of_filter in Htl as [(Hs & _) Htl].
    exists t. by rewrite Hs.
  - rewrite fmap_take. apply (sublist_NoDup _ (tf_id <$> l)); [|apply sublist_take].
    rewrite Hp. apply NoDup_fmap_filter, Hinv.
Qed.

Lemma settle_all_ok rows : NoDup (tf_id <$> rows) ->
  triple (fun s => ok s /\ all_live (tf_id <$> rows) (sdb s))
    (for_each (fun row => settle now row (td_correlationId (tf_data row))) rows) (fun _ => ok) (fun _ => ok).
Proof.
  induction rows as [|row rows IH]; intros Hn.
  - cbn. apply triple_ret. by intros s [Hs _].
  - rewrite fmap_cons in *. apply NoDup_cons in Hn as [Hrow Hn]. cbn [for_each].
    eapply triple_bind; [apply (settle_ok (tf_id <$> rows) row _ Hrow)|intros t].
    eapply triple_bind; [apply (IH Hn)|intros ts]. by apply triple_ret.
Qed.

(** A recovery run keeps the invariant: it revives no failed transfer and
    never retries beyond the allowed attempts. *)
Theorem recover_preserves_inv : preserves ok (recover config now).
Proof.
  eapply (triple_bind _ _ _ _ _ (fun '(_, rows) s => ok s /\ all_live (tf_id <$> rows) (sdb s)
                                    /\ NoDup (tf_id <$> rows))).
  - eapply triple_conseq.
    + apply (triple_atomic inv keeps_live (fun _ => True) _
        (fun '(_, rows) db => all_live (tf_id <$> rows) db /\ NoDup (tf_id <$> rows)) (fun _ _ => True)); [done|].
      intros db Hinv _. destruct (transaction _ _ db) as [[[n rows]|e] db'] eqn:Ht;
        [|by apply transaction_err in Ht as ->].
      apply transaction_Ok_inv in Ht as [Ht _]. unfold claim in Ht. run. subst db'.
      destruct (claimable_ok db Hinv) as [Hl Hn].
      match goal with H : for_each _ _ _ = _ |- _ => apply claim_rows_ok in H as (Hinv' & Hl' & Hsub); [|done..] end.
      split; [done|]. split; [|by eapply sublist_NoDup].
      intros i Hi. apply Hl', Hl. by eapply elem_of_sublist.
    + done.
    + by intros [n rows] s Hs.
    + by intros e s [Hs _].
  - intros [n rows]. eapply (triple_bind _ _ _ _ _ (fun _ => ok)).
    + intros s (Hs & Hl & Hn). by apply (settle_all_ok rows Hn).
    + intros ts. by apply triple_ret.
Qed.

(** Creating an intent keeps the invariant, whatever the other services answer. *)
Theorem createIntent_preserves_inv token eventId sourceEventId input corr :
  0 <= minTransferMinor config -> preserves ok (createIntent config now token eventId sourceEventId input corr).
Proof. intros Hmin. apply createIntent_keeps; [done|]. intros mk Hmk. by apply create_intent_inv. Qed.
End Payments.

(** * What holds whatever runs in between

    The daily limit counts transfers that have not failed, and [settle] writes
    its outcome without looking at the row again: when two recovery runs settle
    one transfer at the same time, a transfer that one of them failed may be
    completed by the other. So the limit needs that nobody fails a transfer
    that another request is settling ([keeps_live]); the rest of the invariant
    needs nothing of other requests but that they keep it too. *)
Record row_core (config : PaymentsConfig) (t : Transfer) : Prop := {
  ro_completed : tf_status t = COMPLETED ->
    is_Some (tg_ledgerJournalId (tf_progress t)) /\ is_Some (tg_senderPostingId (tf_progress t))
    /\ is_Some (tg_recipientPostingId (tf_progress t));
  ro_attempts : 0 <= tg_attemptCount (tf_progress t) /\
    (tf_status t = PROCESSING -> tg_attemptCount (tf_progress t) < maxProcessingAttempts config);
  ro_amount : 0 <= tf_amount t
}.
Record PaymentsCore (config : PaymentsConfig) (db : PaymentsDb) : Prop := {
  pc_ids : NoDup (tf_id <$> transfers db);
  pc_intents : NoDup (ti_id <$> transferIntents db);
  pc_amounts : forall i, i ∈ transferIntents db -> 0 <= ti_amountMinor i;
  pc_rows : forall t, t ∈ transfers db -> row_core config t;
  pc_consumed : forall i, i ∈ transferIntents db -> is_Some (ti_consumedAt i) ->
    exists t, t ∈ transfers db /\ td_intentId (tf_data t) = ti_id i
}.
Section Core.
Context {Env : Type} {peers : Peers Env} {zod : Zod} {crypto : Crypto} {pg : Postgres}.
Variable config : PaymentsConfig.
Variable now : Z.
Hypothesis attempts_allowed : 0 < maxProcessingAttempts config.
Abbreviation core := (PaymentsCore config).
Abbreviation anything := (fun _ _ : PaymentsDb => True).
Abbreviation ok := (sys_ok (Env := Env) core anything).

Definition settles_to (old new : TransferProgress) : Prop :=
  (tg_status new = COMPLETED -> is_Some (tg_ledgerJournalId new) /\ is_Some (tg_senderPostingId new)
     /\ is_Some (tg_recipientPostingId new))
  /\ 0 <= tg_attemptCount new
  /\ (tg_status new = PROCESSING -> tg_attemptCount new < maxProcessingAttempts config).
Lemma update_transfer_settles id f events db t db' old : core db ->
  update_transfer now id f events db = (Ok t, db') -> find_row tf_id id (transfers db) = Some old ->
  settles_to (tf_progress old) (f (tf_progress old)) -> core db'.
Proof.
  intros Hc Hu Hold' (H1 & H2 & H3).
  apply update_transfer_ok in Hu as (old' & Hold & Hid & Hdata & _ & Hg & Htr & Hin). assert (old' = old) as -> by congruence.
  apply find_row_spec in Hold as [Helem Hoid]. destruct (pc_rows _ _ Hc old Helem) as [? ? Hamt]. cbv zeta in Hg.
  constructor; rewrite ?Htr, ?Hin; try apply Hc.
  - rewrite update_row_ids by (by intros; rewrite Hid). apply Hc.
  - intros x Hx. apply update_row_elem in Hx as [[Hx _]|(x0 & _ & _ & ->)]; [by apply Hc|].
    constructor; unfold tf_status, tf_amount; rewrite ?Hg, ?Hdata; cbn; done.
  - intros i Hi Hcons. destruct (pc_consumed _ _ Hc i Hi Hcons) as (x & Hx & Hxi).
    eexists. split; [by apply (update_row_in tf_id id (fun _ => t))|].
    destruct (String.eqb_spec (tf_id x) id) as [Hxid|]; [|done]. rewrite Hdata. assert (x = old) as ->; [|done].
    pose proof (find_row_elem tf_id id _ x (pc_ids _ _ Hc) Hx Hxid).
    pose proof (find_row_elem tf_id id _ old (pc_ids _ _ Hc) Helem Hoid). congruence.
Qed.
Lemma update_transfer_core id f events :
  (forall old, row_core config old -> settles_to (tf_progress old) (f (tf_progress old))) ->
  preserves core (update_transfer now id f events).
Proof.
  intros Hf db Hc. destruct (update_transfer now id f events db) as [[t|e] db'] eqn:Hu; [|by apply update_transfer_err in Hu as [-> _]].
  pose proof Hu as (old & Hold & _)%update_transfer_ok. eapply update_transfer_settles; [done|exact Hu|exact Hold|].
  apply Hf. apply find_row_spec in Hold as [Hin _]. by apply Hc.
Qed.
Lemma update_intent_core id f db db' : core db -> update_intent id f db = (Ok tt, db') ->
  (forall i, same_intent (f i) i) ->
  (forall i, i ∈ transferIntents db -> ti_id i = id -> is_Some (ti_consumedAt (f i)) ->
     exists t, t ∈ transfers db /\ td_intentId (tf_data t) = ti_id i) -> core db'.
Proof.
  intros Hc H Hf Hd. unfold update_intent in H. run.
  constructor; cbn; try apply Hc.
  - rewrite update_row_ids; [apply Hc|]. intros r <-. apply Hf.
  - intros i Hi. apply update_row_elem in Hi as [[Hi _]|(i0 & Hi & _ & ->)]; [by apply Hc|].
    destruct (Hf i0) as [_ ->]. by apply Hc.
  - intros i Hi Hcons. apply update_row_elem in Hi as [[Hi _]|(i0 & Hi & Hid & ->)]; [by apply (pc_consumed _ _ Hc)|].
    destruct (Hf i0) as [-> _]. by apply Hd.
Qed.
Lemma create_intent_core mk : (forall id, ti_id (mk id) = id /\ 0 <= ti_amountMinor (mk id) /\ ti_consumedAt (mk id) = None) ->
  preserves core (create_intent mk).
Proof.
  intros Hmk db Hc. destruct (create_intent mk db) as [[i|e] db'] eqn:H; [|by apply create_intent_err in H as [n ->]; constructor; apply Hc].
  apply create_intent_ok in H as (id & -> & Hfresh & Hin & Htr). destruct (Hmk id) as (Hid & Hamt & Hcons).
  constructor; rewrite ?Hin, ?Htr; try apply Hc.
  - rewrite fmap_app. apply NoDup_app. split; [apply Hc|]. split; [|apply NoDup_singleton]. intros k Hk Hk'%list_elem_of_singleton. subst k.
    by rewrite Hid in Hk.
  - intros j [Hj|Hj%list_elem_of_singleton]%elem_of_app; [by apply Hc|by subst].
  - intros j [Hj|Hj%list_elem_of_singleton]%elem_of_app Hj'; [by apply (pc_consumed _ _ Hc)|].
    subst. rewrite Hcons in Hj'. by destruct Hj'.
Qed.
Lemma create_transfer_core d events db t db' : core db -> create_transfer now d events db = (Ok t, db') -> 0 <= td_amountMinor d -> core db'.
Proof.
  intros Hc H Hamt. apply create_transfer_ok in H as (Ht & Htr & Hin & Hfresh & _). constructor; rewrite ?Htr, ?Hin; try apply Hc.
  - rewrite fmap_app. apply NoDup_app. split; [apply Hc|]. split; [|apply NoDup_singleton]. by intros k Hk ->%list_elem_of_singleton.
  - intros x [Hx|Hx%list_elem_of_singleton]%elem_of_app; [by apply Hc|]. subst x. rewrite Ht.
    constructor; unfold tf_status, tf_amount; cbn; done.
  - intros i Hi Hi'. destruct (pc_consumed _ _ Hc i Hi Hi') as (x & Hx & Hxi). exists x. set_solver.
Qed.
Lemma prepare_core random input corr : preserves core (transaction (fun _ _ => None) (prepare config now random input corr)).
Proof.
  intros db Hc. destruct (transaction _ _ db) as [[r|e] db'] eqn:Ht; [|by apply transaction_err in Ht as ->].
  apply transaction_Ok_inv in Ht as [H _]. unfold prepare in H. run.
  match goal with H : find_intent _ _ _ = _ |- _ => apply find_intent_spec in H as [-> Hi] end.
  match goal with H : find_replay _ _ _ = _ |- _ => apply find_replay_spec in H as [-> Hr] end.
  match type of H with match ?o with _ => _ end _ = _ => destruct o end; run; [done|].
  destruct (Hi _ eq_refl) as (Hin & _ & _). bool_to_Z.
  match goal with H : create_transfer _ _ _ _ = (Ok ?t, ?d) |- _ =>
    pose proof (create_transfer_ok _ _ _ _ _ _ H) as (Ht & Htr & Hint & _);
    eapply create_transfer_core in H; [|done|cbn; by apply Hc] end.
  match goal with H : update_intent _ _ _ = _ |- _ => eapply update_intent_core in H; [exact H|done|done|] end.
  intros i Hi' Hid _. eexists. rewrite Htr. split; [apply elem_of_app; right; by apply list_elem_of_singleton|].
  rewrite Ht. by rewrite Hid.
Qed.

(** *** Requests, whatever runs between their statements *)
Lemma settle_core row corr : preserves ok (settle now row corr).
Proof.
  apply preserves_catch.
  - apply preserves_bind; [apply ledger_call_keeps|intros r]. apply preserves_atomic, update_transfer_core. intros old Ho.
    repeat split; cbn; try done; [by eexists..|]. apply Ho.
  - intros e. destruct e as [| st c | | |]; cbn; auto with preserve. destruct (st <? 500); auto with preserve.
    apply preserves_atomic, update_transfer_core. intros old Ho. repeat split; cbn; try done. apply Ho.
Qed.
Lemma claim_one_core id : preserves core (claim_one config now id).
Proof.
  intros db Hc. unfold claim_one, get, mbind, M_bind, require, throw, mret, M_ret.
  destruct (find_row tf_id id (transfers db)) as [cur|] eqn:Hcur; [|exact Hc].
  destruct (Z.leb_spec (maxProcessingAttempts config) (tg_attemptCount (tf_progress cur) + 1)) as [|Hlt];
    (destruct (update_transfer _ _ _ _ db) as [[t|e] db'] eqn:Hu; [|by apply update_transfer_err in Hu as [-> _]]);
    apply (update_transfer_settles id _ _ db t db' cur Hc Hu Hcur);
    apply find_row_spec in Hcur as [Hin _]; destruct (pc_rows _ _ Hc cur Hin) as [? [? ?] ?];
    (split; [|split]); cbn; try done; lia.
Qed.
Lemma recover_core : preserves ok (recover config now).
Proof.
  apply preserves_bind.
  - apply preserves_atomic, preserves_transaction. intros db r db' Hc Hr _.
    assert (Hk : preserves core (claim config now)); [|specialize (Hk db Hc); by rewrite Hr in Hk].
    apply preserves_bind; [auto with preserve|intros ids].
    apply preserves_bind; [apply preserves_for_each; intros id; apply claim_one_core|intros rows; auto with preserve].
  - intros [n rows]. apply preserves_bind; [|intros _; auto with preserve].
    apply preserves_for_each. intros row. apply settle_core.
Qed.
Lemma confirm_core random evaluationId input corr : preserves ok (confirm config now random evaluationId input corr).
Proof.
  do 3 (apply preserves_bind; [auto with preserve|intros ?]).
  apply preserves_bind; [auto with preserve|intros [t|]].
  - apply preserves_bind; auto with preserve.
  - apply preserves_bind; [auto with preserve|intros _].
    apply preserves_bind; [apply preserves_atomic, prepare_core|intros [row replayed]].
    destruct (_ || _); [auto with preserve|]. apply preserves_bind; [apply settle_core|auto with preserve].
Qed.
Lemma authorize_core sender token : preserves ok (authorize now sender token).
Proof.
  do 2 (apply preserves_bind; [auto with preserve|intros ?]). case_match.
  - apply preserves_bind; [auto with preserve|intros [t|]; auto with preserve].
  - apply preserves_bind; [auto with preserve|intros _]. apply preserves_atomic. intros db Hc.
    destruct (update_intent _ _ db) as [[[]|e] db'] eqn:Hu.
    + eapply update_intent_core; [done|exact Hu|done|]. intros j Hj _ Hcons. by apply (pc_consumed _ _ Hc).
    + by apply update_intent_err in Hu as ->.
Qed.
Lemma createIntent_core token eventId sourceEventId input corr :
  0 <= minTransferMinor config -> preserves ok (createIntent config now token eventId sourceEventId input corr).
Proof.
  intros Hmin. apply createIntent_keeps; [done|]. intros mk Hmk. by apply create_intent_core.
Qed.
End Core.

(** * Every history of the Payments transfer service *)

Section History.
Context {Env : Type} {peers : Peers Env} {zod : Zod} {crypto : Crypto} {pg : Postgres}.
Variable config : PaymentsConfig.
Abbreviation PayS := (M (System PaymentsDb Env) PaymentsErr).

(** The calls of the transfer service that write, with the values they draw. *)
Inductive PaymentsCall :=
| CallCreateIntent (token eventId sourceEventId : string) (input : InternalTransferIntentRequest) (correlationId : string)
| CallAuthorize (senderCustomerId token : string)
| CallConfirm (random evaluationId : string) (input : InternalTransferConfirmation) (correlationId : string)
| CallRecover.
Definition payments_call (now : Z) (c : PaymentsCall) : PayS unit :=
  match c with
  | CallCreateIntent token eventId sourceEventId input corr => _ ← createIntent config now token eventId sourceEventId input corr; mret tt
  | CallAuthorize sender token => authorize now sender token
  | CallConfirm random evaluationId input corr => _ ← confirm config now random evaluationId input corr; mret tt
  | CallRecover => _ ← recover config now; mret tt
  end.
(** The other requests, of which one runs before a statement: [keeps_core] asks
    of them what [payments_call_core] proves of the calls of the service;
    [harmless] asks in addition that they fail no transfer. *)
Definition keeps_core (f : PaymentsDb -> PaymentsDb) : Prop :=
  forall db, PaymentsCore config db -> PaymentsCore config (f db).
Definition harmless (f : PaymentsDb -> PaymentsDb) : Prop :=
  forall db, PaymentsInv config db -> PaymentsInv config (f db) /\ keeps_live db (f db).
(** Calls at any times, other requests between any two statements of each, and
    the other services in any state at every call. *)
Inductive payments_history (other : (PaymentsDb -> PaymentsDb) -> Prop) : PaymentsDb -> Prop :=
| history_start : payments_history other emptyPayments
| history_call db now c env others : payments_history other db -> four_digit_year now -> Forall other others ->
    payments_history other (sdb (payments_call now c (mkSystem db env others)).2).

Lemma preserves_discard {A} (m : PayS A) P : preserves P m -> preserves P (_ ← m; mret tt).
Proof. intros H. apply preserves_bind; [done|]. intros a. by apply triple_ret. Qed.
Lemma payments_call_inv now c : 0 < maxProcessingAttempts config -> 0 <= minTransferMinor config -> four_digit_year now ->
  preserves (sys_ok (Env := Env) (PaymentsInv config) keeps_live) (payments_call now c).
Proof.
  intros Ha Hm Hy. destruct c; cbn [payments_call]; try apply preserves_discard.
  - by apply createIntent_preserves_inv.
  - by apply authorize_preserves_inv.
  - by apply confirm_preserves_inv.
  - by apply recover_preserves_inv.
Qed.

Lemma payments_call_core now c : 0 < maxProcessingAttempts config -> 0 <= minTransferMinor config ->
  preserves (sys_ok (Env := Env) (PaymentsCore config) (fun _ _ => True)) (payments_call now c).
Proof.
  intros Ha Hm. destruct c; cbn [payments_call]; try apply preserves_discard.
  - by apply createIntent_core.
  - by apply authorize_core.
  - by apply confirm_core.
  - by apply recover_core.
Qed.

(** The histories of a service whose limits and attempts make sense. *)
Lemma history_keeps (P : PaymentsDb -> Prop) R other db : P emptyPayments ->
  (forall f, other f -> forall d, P d -> P (f d) /\ R d (f d)) ->
  (forall now c, four_digit_year now -> preserves (sys_ok (Env := Env) P R) (payments_call now c)) ->
  payments_history other db -> P db.
Proof.
  intros H0 Hother Hcall. induction 1 as [|db now c env others _ IH Hy Ho]; [exact H0|].
  assert (Hs : sys_ok P R (mkSystem db env others)) by (split; [exact IH|by eapply Forall_impl]).
  pose proof (Hcall now c Hy _ Hs) as H. destruct (payments_call now c _) as [[a|e] s]; apply H.
Qed.
Lemma payments_history_core db : 0 < maxProcessingAttempts config -> 0 <= minTransferMinor config ->
  payments_history keeps_core db -> PaymentsCore config db.
Proof.
  intros Ha Hm. apply (history_keeps _ (fun _ _ => True)).
  - constructor; try apply NoDup_nil_2; by intros ? ?%not_elem_of_nil.
  - intros f Hf d Hd. split; [by apply Hf|done].
  - intros now c _. by apply payments_call_core.
Qed.
Lemma payments_history_inv db : 0 < maxProcessingAttempts config -> 0 <= minTransferMinor config ->
  0 <= dailyOutgoingLimitMinor config -> payments_history harmless db -> PaymentsInv config db.
Proof.
  intros Ha Hm Hl. apply (history_keeps _ keeps_live).
  - constructor; try apply NoDup_nil_2; try (by intros ? ?%not_elem_of_nil). done.
  - intros f Hf d Hd. by apply Hf.
  - intros now c Hy. by apply payments_call_inv.
Qed.
End History.
