(* ===== verification/PaymentSettlement.v ===== *)
(** * What a transfer's status says about the money: Payments over the Ledger *)

From Stdlib Require Import ZArith Lia Ascii String.
From stdpp Require Import base strings list gmap sorting.
From S2P Require Import Prelude.
From S2P Require Import Js.
From S2P Require Import Regex.
From S2P Require Import Contracts.
From S2P Require Import Security.
From S2P Require Import LedgerDb.
From S2P Require Import Idempotency.
From S2P Require Import Journal.
From S2P Require Import CustomerTransfer.
From S2P Require Import RiskTypes.
From S2P Require Import Services.
From S2P Require Import PaymentsDb.
From S2P Require Import Peers.
From S2P Require Import PaymentTransfers.
From S2P Require Import PaymentsInv.
From S2P Require Import PaymentProofs.

Open Scope Z_scope.

(** The transfer moved exactly [amount] between the two wallets. *)
Definition moved (before after : LedgerDb) (customer source reference : string) (amount : Z) : Prop :=
  exists s r, s ∈ customerAccounts before /\ r ∈ customerAccounts before /\
    ca_id s = source /\ ca_customerId s = customer /\ ca_publicReference r = reference /\
    (exists b, account_balance before (ca_ledgerAccountId s) = Some b /\ amount <= b /\
       account_balance after (ca_ledgerAccountId s) = Some (b - amount)) /\
    account_balance after (ca_ledgerAccountId r) =
      Z.add amount <$> account_balance before (ca_ledgerAccountId r) /\
    forall id, id <> ca_ledgerAccountId s -> id <> ca_ledgerAccountId r ->
      account_balance after id = account_balance before id.

Section Settlement.
Context {zod : Zod} {crypto : Crypto} {pg : Postgres}.
Variable ledger_config : LedgerConfig.
Variable ledger_now : Z.
Variable risk_check : ControlCheckRequest -> HttpReply ControlCheckResponse.
Variable risk_evaluate : RiskEvaluationRequest -> HttpReply RiskAssessment.
Variable config : PaymentsConfig.
Variable now : Z.

#[local] Instance network : Peers Net := ledger_network ledger_config ledger_now risk_check risk_evaluate.

Lemma z_regex_some r s t : z_regex r s = Some t -> t = s.
Proof. unfold z_regex. destruct (rx_match r s); [by intros [= <-]|done]. Qed.

Lemma bind_some {A B} (o : option A) (k : A -> option B) b :
  (o ≫= k) = Some b -> exists a, o = Some a /\ k a = Some b.
Proof. destruct o; [eauto|done]. Qed.
Lemma preview_parsed i p : internalTransferPreviewSchema i = Some p ->
  tp_senderCustomerId p = tp_senderCustomerId i /\ tp_sourceAccountId p = tp_sourceAccountId i /\
  tp_recipientReference p = tp_recipientReference i /\ tp_amountMinor p = tp_amountMinor i.
Proof.
  unfold internalTransferPreviewSchema. destruct (z_uuid _ && z_uuid _); [|done].
  intros (r & Hr & (a & Ha & (c & _ & [= <-])%bind_some)%bind_some)%bind_some.
  apply z_regex_some in Hr, Ha. by subst.
Qed.
Lemma command_parsed c p : internalLedgerTransferCommandSchema c = Some p ->
  tc_idempotencyKey p = tc_idempotencyKey c /\
  tp_senderCustomerId (tc_preview p) = tp_senderCustomerId (tc_preview c) /\
  tp_sourceAccountId (tc_preview p) = tp_sourceAccountId (tc_preview c) /\
  tp_recipientReference (tc_preview p) = tp_recipientReference (tc_preview c) /\
  tp_amountMinor (tc_preview p) = tp_amountMinor (tc_preview c).
Proof.
  unfold internalLedgerTransferCommandSchema. intros (q & Hq & H)%bind_some.
  destruct (z_uuid _); [|done]. apply bind_some in H as (r & _ & H).
  apply bind_some in H as (k & Hk & [= <-]). apply z_regex_some in Hk. subst k.
  split; [done|]. by apply preview_parsed.
Qed.

(** One delivered exchange of a fresh transfer command. *)
Lemma exchange_fresh c corr ldb fs reply net' :
  LedgerInv ldb ->
  idempotencyRecords ldb !! record_key journalEntry (sha256 (tc_idempotencyKey c)) = None ->
  post_transfer c corr (mkNet (quiet ldb) fs) = (reply, net') ->
  let p := tc_preview c in
  match reply with
  | Success _ => moved ldb (wdb (net_ledger net')) (tp_senderCustomerId p) (tp_sourceAccountId p)
                   (tp_recipientReference p) (BigInt (tp_amountMinor p))
  | Failure _ _ => net_ledger net' = quiet ldb
  | NoReply => net_ledger net' = quiet ldb \/
               moved ldb (wdb (net_ledger net')) (tp_senderCustomerId p) (tp_sourceAccountId p)
                   (tp_recipientReference p) (BigInt (tp_amountMinor p))
  end.
Proof.
  intros Hinv Hnone H. cbn zeta. change (post_transfer c corr) with
    (exchange (transfer_endpoint ledger_config ledger_now c corr)) in H.
  assert (Hrun : forall r w, transfer_endpoint ledger_config ledger_now c corr (quiet ldb) = (r, w) ->
    match r with
    | Ok _ => moved ldb (wdb w) (tp_senderCustomerId (tc_preview c)) (tp_sourceAccountId (tc_preview c))
                (tp_recipientReference (tc_preview c)) (BigInt (tp_amountMinor (tc_preview c)))
    | Err _ => w = quiet ldb
    end).
  { intros r w Hr. unfold transfer_endpoint in Hr.
    destruct (internalLedgerTransferCommandSchema c) as [p|] eqn:Hp; [|by injection Hr as <- <-].
    change (transfer ledger_config ledger_now p corr (quiet ldb) = (r, w)) in Hr.
    apply command_parsed in Hp as (Hk & H1 & H2 & H3 & H4). rewrite <- H1, <- H2, <- H3, <- H4.
    destruct r as [res|e].
    - apply transfer_moves in Hr as (s & r & ? & ? & ? & ? & ? & _ & ? & ? & ? & _); [|done|by rewrite Hk].
      by exists s, r.
    - by apply transfer_refused in Hr. }
  destruct (transfer_endpoint ledger_config ledger_now c corr (quiet ldb)) as [r w] eqn:Hr.
  specialize (Hrun r w eq_refl). unfold exchange in H. cbn [net_faults net_ledger] in H.
  destruct fs as [|[] fs]; rewrite ?Hr in H; injection H as <- <-; cbn [net_ledger]; try (by left).
  - destruct r as [a|[]]; done.
  - destruct r as [a|[]]; done.
  - destruct r as [a|e]; [by right|by left].
Qed.

(** The command carries the amount of the row. *)
Definition row_moved (before after : LedgerDb) (t : Transfer) : Prop :=
  moved before after (tf_sender t) (td_senderAccountId (tf_data t))
    (td_recipientPublicReference (tf_data t)) (tf_amount t).

(** An update whose new status is known. *)
Lemma update_alone id f events db (net : Net) t s' :
  atomic (update_transfer now id f events) (alone db net) = (Ok t, s') ->
  senv s' = net /\ exists old, tg_status (tf_progress t) = tg_status (f old).
Proof.
  rewrite atomic_alone. destruct (update_transfer now id f events db) as [r db'] eqn:Hu. cbn.
  intros [= -> <-]. apply update_transfer_ok in Hu as (old & _ & _ & _ & _ & Hg & _).
  split; [done|]. exists (tf_progress old). by rewrite Hg.
Qed.
Lemma update_alone_err id f events db (net : Net) e s' :
  atomic (update_transfer now id f events) (alone db net) = (Err e, s') ->
  s' = alone db net /\ forall st c, e <> LedgerCallError st c.
Proof.
  rewrite atomic_alone. destruct (update_transfer now id f events db) as [r db'] eqn:Hu. cbn.
  intros [= -> <-]. by apply update_transfer_err in Hu as [-> Hne].
Qed.

(** What [settle] returns for a fresh command, whatever the network does. *)
Lemma settle_agrees row corr db ldb fs t s' :
  LedgerInv ldb ->
  idempotencyRecords ldb !! record_key journalEntry (sha256 ("transfer:" +:+ tf_id row)) = None ->
  settle now row corr (alone db (mkNet (quiet ldb) fs)) = (Ok t, s') ->
  let after := net_ledger (senv s') in
  (after = quiet ldb \/ row_moved ldb (wdb after) row) /\
  (t = row \/ (tf_status t = COMPLETED /\ row_moved ldb (wdb after) row)
           \/ (tf_status t = FAILED /\ after = quiet ldb)).
Proof.
  intros Hinv Hnone H. cbn zeta.
  destruct (post_transfer (settle_command row) corr (mkNet (quiet ldb) fs)) as [reply net'] eqn:Hpost.
  pose proof (exchange_fresh (settle_command row) corr ldb fs reply net' Hinv Hnone Hpost) as Hex.
  cbn [settle_command tc_preview tp_senderCustomerId tp_sourceAccountId tp_recipientReference tp_amountMinor] in Hex.
  rewrite BigInt_to_string in Hex.
  pose proof (ledger_call_alone (post_transfer (settle_command row) corr) internalLedgerTransferResultSchema db
    (mkNet (quiet ldb) fs)) as Hcall. rewrite Hpost in Hcall. cbn [fst snd] in Hcall.
  unfold settle, try_catch in H.
  destruct reply as [body|st c|]; cbn [reply_result] in Hcall.
  - destruct (b ← body; internalLedgerTransferResultSchema b) as [res|].
    + rewrite (bind_Ok _ _ _ _ _ _ _ Hcall) in H.
      match type of H with context [atomic ?m ?s] => destruct (atomic m s) as [[t'|e] s1] eqn:Hu end.
      * injection H as -> <-. apply update_alone in Hu as [-> (old & Hst)].
        split; [by right|]. right. left. by split.
      * apply update_alone_err in Hu as [-> Hne].
        destruct e as [| st c | | |]; try (injection H as <- <-; split; [by right|by left]).
        by destruct (Hne st c).
    + rewrite (bind_Err _ _ _ _ _ _ _ Hcall) in H. injection H as <- <-. split; [by right|by left].
  - rewrite (bind_Err _ _ _ _ _ _ _ Hcall) in H.
    destruct (st <? 500); [|injection H as <- <-; cbn; split; by left].
    apply update_alone in H as [-> (old & Hst)]. split; [by left|]. right. right. by split.
  - rewrite (bind_Err _ _ _ _ _ _ _ Hcall) in H. injection H as <- <-. cbn. split; [exact Hex|by left].
Qed.

Lemma risk_internal_alone {T} (call : Net -> HttpReply T * Net) schema (db : PaymentsDb) net r s' :
  (forall n, (call n).2 = n) ->
  risk_internal call schema (alone db net) = (r, s') -> s' = alone db net.
Proof.
  intros Hcall. unfold risk_internal. rewrite (bind_Ok _ _ _ _ _ _ _ (ask_alone call db net)), Hcall.
  destruct (call net).1 as [[b|]| |]; [destruct (schema b)|..]; by intros [= _ <-].
Qed.
Lemma enforce_alone input (db : PaymentsDb) net r s' : enforce input (alone db net) = (r, s') -> s' = alone db net.
Proof.
  unfold enforce. set (scopes := (_ ++ _)%list). intros H. destruct r as [a|e].
  - run. match goal with H : risk_internal _ _ _ = _ |- _ => apply risk_internal_alone in H as ->; [|done] end.
    by match goal with H : risk_internal _ _ _ = _ |- _ => apply risk_internal_alone in H as ->; [|done] end.
  - apply bind_Err_inv in H as [H|(c & s1 & Hc & H)]; [by apply risk_internal_alone in H|].
    apply risk_internal_alone in Hc as ->; [|done].
    apply bind_Err_inv in H as [H%throw_when_state|([] & s2 & Ht%throw_when_state & H)]; [done|subst s2].
    apply bind_Err_inv in H as [H|(b & s3 & Hb & H)]; [by apply risk_internal_alone in H|].
    apply risk_internal_alone in Hb as ->; [|done].
    apply bind_Err_inv in H as [H%throw_when_state|([] & s4 & Ht%throw_when_state & H)]; [done|].
    discriminate H.
Qed.

(** What [prepare] reserves for a key that has no transfer yet. *)
Definition for_intent (row : Transfer) (i : TransferIntent) : Prop :=
  tf_sender row = ti_senderCustomerId i /\ tf_amount row = ti_amountMinor i /\
  td_senderAccountId (tf_data row) = ti_sourceAccountId i /\
  td_recipientPublicReference (tf_data row) = ti_recipientPublicReference i.
Definition no_transfer_for (input : InternalTransferConfirmation) (db : PaymentsDb) : Prop :=
  forall t, t ∈ transfers db -> tf_sender t = cf_senderCustomerId input ->
    td_idempotencyKeyHash (tf_data t) <> sha256 (cf_idempotencyKey input).

Lemma prepare_fresh random input corr db row b db' : no_transfer_for input db ->
  prepare config now random input corr db = (Ok (row, b), db') ->
  b = false /\ tf_status row = PROCESSING /\ tf_id row = uuid (pay_uuidCounter db) /\
  exists i, i ∈ transferIntents db /\ ti_senderCustomerId i = cf_senderCustomerId input /\
    ti_tokenHash i = sha256 (cf_intentToken input) /\ for_intent row i.
Proof.
  intros Hnone H. unfold prepare in H. run.
  match goal with H : find_intent _ _ _ = _ |- _ => apply find_intent_spec in H as [-> Hi] end.
  match goal with H : find_replay _ _ _ = _ |- _ => apply find_replay_spec in H as [-> Hr] end.
  match type of H with match ?o with _ => _ end _ = _ => destruct o as [t0|] end.
  { destruct Hr as (Ht & Hs & Hk). by destruct (Hnone t0 Ht Hs). }
  run. destruct (Hi _ eq_refl) as (Hin & Hsender & Htok).
  match goal with H : create_transfer _ _ _ _ = (Ok ?r, _) |- _ => rename r into row; rename H into Hct end.
  pose proof (create_transfer_ok _ _ _ _ _ _ Hct) as (Ht & _).
  assert (tf_id row = uuid (pay_uuidCounter db)).
  { unfold create_transfer, pay_uuid in Hct. apply bind_Ok_inv in Hct as (id & db1 & [= <- <-] & Hct). by run. }
  repeat split; [by rewrite Ht|done|]. eexists. split; [exact Hin|].
  rewrite Ht. by repeat split.
Qed.

Lemma find_replay_none input db : no_transfer_for input db ->
  find_replay (cf_senderCustomerId input) (sha256 (cf_idempotencyKey input)) db = (Ok None, db).
Proof.
  intros Hnone. destruct (find_replay _ _ db) as [[o|e] db'] eqn:H; [|by unfold find_replay in H].
  apply find_replay_spec in H as [-> Ho]. destruct o as [t|]; [|done]. destruct Ho as (Ht & Hs & Hk).
  by destruct (Hnone t Ht Hs).
Qed.
Lemma asDetail_status row customer d : asDetail row customer = Ok d -> ts_status (tdt_summary d) = tf_status row.
Proof. unfold asDetail. destruct (transferDetailSchema _); [by intros [= <-]|done]. Qed.

(** What a fresh confirmation tells the customer agrees with the ledger. *)
Definition agrees (status : TransferStatus) (before : LedgerDb) (after : World) (i : TransferIntent) : Prop :=
  let paid := moved before (wdb after) (ti_senderCustomerId i) (ti_sourceAccountId i)
                (ti_recipientPublicReference i) (ti_amountMinor i) in
  match status with
  | COMPLETED => paid
  | FAILED => after = quiet before
  | PROCESSING => after = quiet before \/ paid
  | REQUIRES_REVIEW => False
  end.

Lemma confirm_settles random evaluationId input corr db ldb fs d s' :
  LedgerInv ldb -> no_transfer_for input db ->
  idempotencyRecords ldb !! record_key journalEntry (sha256 ("transfer:" +:+ uuid (pay_uuidCounter db))) = None ->
  confirm config now random evaluationId input corr (alone db (mkNet (quiet ldb) fs)) = (Ok d, s') ->
  exists i, i ∈ transferIntents db /\ ti_senderCustomerId i = cf_senderCustomerId input /\
    ti_tokenHash i = sha256 (cf_intentToken input) /\
    agrees (ts_status (tdt_summary d)) ldb (net_ledger (senv s')) i.
Proof.
  intros Hinv Hnone Hrec H. unfold confirm in H. run.
  match goal with H : atomic (find_intent _ _) _ = _ |- _ => rewrite atomic_alone in H; cbn in H; injection H as _ <- end.
  match goal with H : atomic (find_replay _ _) _ = _ |- _ => rewrite atomic_alone, find_replay_none in H by done;
    cbn in H; injection H as <- <- end.
  run. match goal with H : enforce _ _ = _ |- _ => apply enforce_alone in H as -> end.
  match goal with H : atomic (transaction _ _) _ = _ |- _ => rewrite atomic_alone in H; rename H into Ht end.
  destruct (transaction _ _ db) as [r db1] eqn:Htr. cbn in Ht. injection Ht as -> <-.
  match goal with H : (let '(_, _) := ?x in _) _ = _ |- _ => destruct x as [row replayed] end.
  apply transaction_Ok_inv in Htr as [Hp _]. apply prepare_fresh in Hp as (-> & Hst & Hid & i & Hi & Hs & Htok & Hrow); [|done].
  exists i. split; [done|]. split; [done|]. split; [done|].
  rewrite Hst in H. cbn in H. apply bind_Ok_inv in H as (settled & s1 & Hset & H). run.
  match goal with H : asDetail _ _ = Ok _ |- _ => apply asDetail_status in H as -> end.
  apply settle_agrees in Hset as [Hany Hst']; [|done|by rewrite Hid].
  destruct Hrow as (Hr1 & Hr2 & Hr3 & Hr4). unfold row_moved in *. rewrite Hr1, Hr2, Hr3, Hr4 in *.
  unfold agrees. destruct Hst' as [->|[[-> ?]|[-> ?]]]; [by rewrite Hst|done..].
Qed.

(** C2: for a fresh idempotency key and whatever exchanges the network loses, a
    confirmation that says COMPLETED has moved exactly the intent's amount
    between the two wallets, one that says FAILED has left the ledger as it was,
    and one that says PROCESSING has done one or the other. *)
Theorem confirm_agrees random evaluationId input corr db ldb fs d s' :
  LedgerInv ldb -> no_transfer_for input db ->
  idempotencyRecords ldb !! record_key journalEntry (sha256 ("transfer:" +:+ uuid (pay_uuidCounter db))) = None ->
  confirm config now random evaluationId input corr (alone db (mkNet (quiet ldb) fs)) = (Ok d, s') ->
  exists i, i ∈ transferIntents db /\ ti_senderCustomerId i = cf_senderCustomerId input /\
    ti_tokenHash i = sha256 (cf_intentToken input) /\
    agrees (ts_status (tdt_summary d)) ldb (net_ledger (senv s')) i.
Proof. apply confirm_settles. Qed.

(** ** A lost reply

    [LedgerCustomerTransferService.transfer] compares the balance with the
    amount before it looks for the idempotency record, so a command that already
    succeeded is refused for lack of funds when it is sent again. *)
Lemma retry_refused c p corr ldb v w : internalLedgerTransferCommandSchema c = Some p ->
  preview_endpoint (tc_preview c) (quiet ldb) = (Ok v, w) -> 0 < BigInt (tp_amountMinor (tc_preview c)) ->
  BigInt (minorUnits (tpr_sourceBalance v)) < BigInt (tp_amountMinor (tc_preview c)) ->
  transfer_endpoint ledger_config ledger_now c corr (quiet ldb) = (Err insufficientFundsError, quiet ldb).
Proof.
  intros Hp Hv Hpos Hlow. pose proof (command_parsed _ _ Hp) as (_ & _ & _ & _ & Hamt). unfold transfer_endpoint. rewrite Hp.
  erewrite bind_Ok by reflexivity. unfold preview_endpoint in Hv.
  assert (Hq : internalTransferPreviewSchema (tc_preview c) = Some (tc_preview p)).
  { unfold internalLedgerTransferCommandSchema in Hp. apply bind_some in Hp as (q & Hq & Hp). destruct (z_uuid _); [|done].
    apply bind_some in Hp as (r & _ & Hp). by apply bind_some in Hp as (k & _ & [= <-]). }
  rewrite Hq in Hv. apply bind_Ok_inv in Hv as (q & w0 & [= <- <-] & Hv). unfold preview in Hv.
  apply bind_Ok_inv in Hv as ([s r] & w1 & Hres & Hv). pose proof (resolve_pure _ _ _ _ Hres) as ->.
  apply bind_Ok_inv in Hv as (b & w2 & Hb & Hv). injection Hv as <- _. cbn [tpr_sourceBalance minorUnits] in Hlow.
  unfold serializeMinorUnits in Hlow. rewrite BigInt_to_string in Hlow. unfold CustomerTransfer.transfer. cbn zeta.
  rewrite (bind_Ok _ _ _ _ _ _ _ Hres). rewrite Hamt. unfold throw_when at 1. destruct (Z.leb_spec (BigInt (tp_amountMinor (tc_preview c))) 0); [lia|].
  erewrite bind_Ok by reflexivity. unfold lift_result in Hb |- *. injection Hb as Hb <-. rewrite Hb. erewrite bind_Ok by reflexivity.
  unfold throw_when. destruct (Z.ltb_spec b (BigInt (tp_amountMinor (tc_preview c)))); [done|lia].
Qed.

(** The statements of a recovery run that finds one stale transfer. *)
Lemma find_row_update id f rows old : find_row tf_id id rows = Some old -> tf_id (f old) = id ->
  find_row tf_id id (update_row tf_id id f rows) = Some (f old).
Proof.
  unfold find_row, update_row. intros H Hf. induction rows as [|x rows IH]; [done|]. cbn in *.
  destruct (String.eqb_spec (tf_id x) id) as [He|Hne].
  - injection H as ->. by rewrite (proj2 (String.eqb_eq _ _) Hf).
  - rewrite (proj2 (String.eqb_neq _ _) Hne). by apply IH.
Qed.
Definition unsettled (g : TransferProgress) : Prop :=
  tg_ledgerJournalId g = None /\ tg_senderBalanceAfterMinor g = None /\ tg_recipientBalanceAfterMinor g = None /\
  int32_ok (tg_attemptCount g) = true.
Lemma update_unsettled at_ id f events db old : find_row tf_id id (transfers db) = Some old -> unsettled (f (tf_progress old)) ->
  exists t db', update_transfer at_ id f events db = (Ok t, db') /\ find_row tf_id id (transfers db') = Some t /\
    tf_id t = id /\ tf_data t = tf_data old /\ tf_status t = tg_status (f (tf_progress old)) /\
    tg_failureCode (tf_progress t) = tg_failureCode (f (tf_progress old)) /\
    (unsettled (f (tf_progress old)) -> unsettled (tf_progress t)).
Proof.
  intros Hf (Hj & Hs & Hr & Ha). unfold update_transfer. erewrite bind_Ok by reflexivity. rewrite Hf. erewrite bind_Ok by reflexivity. cbn zeta.
  unfold pay_unique, pay_check, throw_when. cbn [tg_ledgerJournalId tg_senderBalanceAfterMinor tg_recipientBalanceAfterMinor tg_attemptCount].
  rewrite Hj, Hs, Hr, Ha.
  assert (He : existsb (fun x => negb (String.eqb (tf_id x) id) && same_journal (tg_ledgerJournalId (tf_progress x)) None) (transfers db) = false).
  { apply not_true_is_false. intros (x & _ & [_ Hx]%andb_true_iff)%existsb_exists. by destruct (tg_ledgerJournalId (tf_progress x)). }
  rewrite He. erewrite bind_Ok by reflexivity. cbn [default int64_ok andb negb]. erewrite bind_Ok by reflexivity.
  erewrite bind_Ok by reflexivity. unfold add_events. erewrite bind_Ok by reflexivity. eexists _, _. split; [reflexivity|].
  split; [|done]. cbn [transfers set_events set_transfers]. by rewrite (find_row_update _ _ _ _ Hf).
Qed.
Lemma recover_alone now' db t0 ldb : claimable config now' db = [tf_id t0] -> find_row tf_id (tf_id t0) (transfers db) = Some t0 ->
  unsettled (tf_progress t0) -> 0 <= tg_attemptCount (tf_progress t0) ->
  tg_attemptCount (tf_progress t0) + 1 < maxProcessingAttempts config -> tg_attemptCount (tf_progress t0) < 2147483647 ->
  exists row db', recover config now' (alone db (mkNet (quiet ldb) [])) =
      (_ ← settle now' row (td_correlationId (tf_data row)); mret 1%nat) (alone db' (mkNet (quiet ldb) [])) /\
    tf_id row = tf_id t0 /\ tf_data row = tf_data t0 /\ find_row tf_id (tf_id t0) (transfers db') = Some row /\ unsettled (tf_progress row).
Proof.
  intros Hc Hf (Hj & Hs & Hr & Ha) Hnn Hmax Hint.
  destruct (update_unsettled now' (tf_id t0) (retried config now' (tg_attemptCount (tf_progress t0) + 1))
    [mkTransferEvent (tf_id t0) EV_RECOVERY_RETRY None None None now'] db t0 Hf) as (row & db' & Hu & Hf' & Hid & Hd & _ & _ & Hun).
  { split_and!; try done. cbn. apply andb_true_iff. split; [apply Z.leb_le|apply Z.ltb_lt]; lia. }
  exists row, db'. split; [|split_and!; try done].
  2:{ apply Hun. split_and!; try done. cbn. apply andb_true_iff. split; [apply Z.leb_le|apply Z.ltb_lt]; lia. }
  assert (Hone : claim_one config now' (tf_id t0) db = (Ok (Some row), db')).
  { unfold claim_one. erewrite bind_Ok by reflexivity. rewrite Hf. erewrite bind_Ok by reflexivity.
    destruct (Z.leb_spec (maxProcessingAttempts config) (tg_attemptCount (tf_progress t0) + 1)); [lia|]. by rewrite (bind_Ok _ _ _ _ _ _ _ Hu). }
  assert (Hclaim : claim config now' db = (Ok (1%nat, [row]), db')).
  { unfold claim. erewrite bind_Ok by reflexivity. rewrite Hc.
    assert (Hall : for_each (claim_one config now') [tf_id t0] db = (Ok [Some row], db')).
    { cbn [for_each]. by rewrite (bind_Ok _ _ _ _ _ _ _ Hone). }
    by rewrite (bind_Ok _ _ _ _ _ _ _ Hall). }
  unfold recover. assert (Hat : atomic (transaction (fun _ _ => None) (claim config now')) (alone db (mkNet (quiet ldb) [])) =
    (Ok (1%nat, [row]), alone db' (mkNet (quiet ldb) []))).
  { rewrite atomic_alone. unfold transaction. by rewrite Hclaim. }
  rewrite (bind_Ok _ _ _ _ _ _ _ Hat). cbn [for_each]. unfold mbind, M_bind.
  destruct (settle now' row _ _) as [[t|e] s1]; done.
Qed.

Lemma settle_reply_lost row corr db ldb res w1 :
  transfer_endpoint ledger_config ledger_now (settle_command row) corr (quiet ldb) = (Ok res, w1) ->
  settle now row corr (alone db (mkNet (quiet ldb) [LoseReply])) = (Ok row, alone db (mkNet w1 [])).
Proof.
  intros Hrun. unfold settle, try_catch, ledger_transfer.
  assert (Hcall : ledger_call (post_transfer (settle_command row) corr) internalLedgerTransferResultSchema
    (alone db (mkNet (quiet ldb) [LoseReply])) = (Err ledgerUnavailable, alone db (mkNet w1 []))).
  { rewrite ledger_call_alone. change (post_transfer (settle_command row) corr) with (exchange (transfer_endpoint ledger_config ledger_now (settle_command row) corr)).
    unfold exchange. cbn [net_faults net_ledger]. by rewrite Hrun. }
  by rewrite (bind_Err _ _ _ _ _ _ _ Hcall).
Qed.
Lemma settle_refused now' row corr db ldb t db' :
  transfer_endpoint ledger_config ledger_now (settle_command row) corr (quiet ldb) = (Err insufficientFundsError, quiet ldb) ->
  update_transfer now' (tf_id row) (failed now' F_INSUFFICIENT_FUNDS)
    [mkTransferEvent (tf_id row) EV_FAILED (Some PROCESSING) (Some FAILED) (Some F_INSUFFICIENT_FUNDS) now'] db = (Ok t, db') ->
  settle now' row corr (alone db (mkNet (quiet ldb) [])) = (Ok t, alone db' (mkNet (quiet ldb) [])).
Proof.
  intros Hrun Hu. unfold settle, try_catch, ledger_transfer.
  assert (Hcall : ledger_call (post_transfer (settle_command row) corr) internalLedgerTransferResultSchema (alone db (mkNet (quiet ldb) [])) =
    (Err (LedgerCallError 409 (Some "INSUFFICIENT_FUNDS"%string)), alone db (mkNet (quiet ldb) []))).
  { rewrite ledger_call_alone. change (post_transfer (settle_command row) corr) with (exchange (transfer_endpoint ledger_config ledger_now (settle_command row) corr)).
    unfold exchange. cbn [net_faults net_ledger]. by rewrite Hrun. }
  rewrite (bind_Err _ _ _ _ _ _ _ Hcall). change (409 <? 500) with true. cbv iota. change (safeFailure _) with F_INSUFFICIENT_FUNDS.
  by rewrite atomic_alone, Hu.
Qed.
(** C20: suppose the Ledger carries out the command of a transfer and its reply is
    lost. Payments then goes on to say that the transfer is in progress although
    exactly its amount has moved. If the recovery run that later retries it
    finds the sender's balance below the amount (a preview of the same transfer
    shows it), it marks the transfer FAILED for lack of funds, whatever else
    the ledger holds by then, and the money stays where it is. *)
Theorem lost_reply_reported_failed row corr db ldb res w1 now' db' t0 ldb' v w :
  LedgerInv ldb ->
  idempotencyRecords ldb !! record_key journalEntry (sha256 ("transfer:" +:+ tf_id row)) = None ->
  transfer_endpoint ledger_config ledger_now (settle_command row) corr (quiet ldb) = (Ok res, w1) ->
  claimable config now' db' = [tf_id row] -> find_row tf_id (tf_id row) (transfers db') = Some t0 ->
  tf_data t0 = tf_data row -> unsettled (tf_progress t0) -> 0 <= tg_attemptCount (tf_progress t0) < 2147483647 ->
  tg_attemptCount (tf_progress t0) + 1 < maxProcessingAttempts config ->
  preview_endpoint (tc_preview (settle_command row)) (quiet ldb') = (Ok v, w) ->
  BigInt (minorUnits (tpr_sourceBalance v)) < tf_amount row ->
  settle now row corr (alone db (mkNet (quiet ldb) [LoseReply])) = (Ok row, alone db (mkNet w1 [])) /\
  row_moved ldb (wdb w1) row /\
  exists s' t, recover config now' (alone db' (mkNet (quiet ldb') [])) = (Ok 1%nat, s') /\
    net_ledger (senv s') = quiet ldb' /\ find_row tf_id (tf_id row) (transfers (sdb s')) = Some t /\
    tf_status t = FAILED /\ tg_failureCode (tf_progress t) = Some F_INSUFFICIENT_FUNDS.
Proof.
  intros Hinv Hnone Hfirst Hclaim Hfind Hdata Hun Hatt Hmax Hprev Hlow.
  assert (Hsettle := settle_reply_lost row corr db ldb res w1 Hfirst).
  destruct (internalLedgerTransferCommandSchema (settle_command row)) as [p|] eqn:Hp;
    [|unfold transfer_endpoint in Hfirst; by rewrite Hp in Hfirst].
  pose proof (command_parsed _ _ Hp) as (Hk & Hc1 & Hc2 & Hc3 & Hc4). cbn [settle_command tc_preview tp_amountMinor tc_idempotencyKey] in Hk, Hc4.
  assert (Hrun : transfer ledger_config ledger_now p corr (quiet ldb) = (Ok res, w1)).
  { unfold transfer_endpoint in Hfirst. rewrite Hp in Hfirst. exact Hfirst. }
  apply transfer_moves in Hrun as (s & r & Hs & Hr & Hsid & Hsc & Hrr & Hpos & Hsb & Hrb & Hothers & _); [|done|by rewrite Hk].
  rewrite Hc4, BigInt_to_string in Hpos, Hsb, Hrb.
  split; [done|]. split.
  { exists s, r. rewrite Hsid, Hsc, Hrr, Hc1, Hc2, Hc3. by split_and!. }
  assert (Ht0 : tf_id t0 = tf_id row) by (by apply find_row_spec in Hfind as [_ ?]). rewrite <- Ht0 in Hclaim, Hfind |- *.
  destruct (recover_alone now' db' t0 ldb') as (row' & db1 & -> & Hid & Hd & Hf & Hun'); try done; try lia.
  assert (Hcommand : settle_command row' = settle_command row).
  { unfold settle_command. by rewrite Hd, Hdata, Hid, Ht0. }
  pose proof (retry_refused (settle_command row) p (td_correlationId (tf_data row')) ldb' v w Hp Hprev) as Hretry.
  cbn [settle_command tc_preview tp_amountMinor] in Hretry. rewrite BigInt_to_string in Hretry.
  specialize (Hretry Hpos Hlow).
  destruct (update_unsettled now' (tf_id row') (failed now' F_INSUFFICIENT_FUNDS)
    [mkTransferEvent (tf_id row') EV_FAILED (Some PROCESSING) (Some FAILED) (Some F_INSUFFICIENT_FUNDS) now'] db1 row')
    as (t & db2 & Hu & Hft & _ & _ & Hst & Hcode & _); [by rewrite Hid|by destruct Hun' as (? & ? & ? & ?)|].
  exists (alone db2 (mkNet (quiet ldb') [])), t. split; [|split_and!; try done; by rewrite <- Hid].
  assert (Hend := settle_refused now' row' (td_correlationId (tf_data row')) db1 ldb' t db2 (eq_ind_r (fun c => transfer_endpoint _ _ c _ _ = _) Hretry Hcommand) Hu).
  by rewrite (bind_Ok _ _ _ _ _ _ _ Hend).
Qed.

(** A repeated confirmation answers with the transfer its key already has:
    no call, no new transfer, nothing written. *)
Theorem confirm_replays random evaluationId input corr db net i t :
  find (fun i => String.eqb (ti_tokenHash i) (sha256 (cf_intentToken input))
                 && String.eqb (ti_senderCustomerId i) (cf_senderCustomerId input)) (transferIntents db) = Some i ->
  is_Some (ti_authorizedAt i) ->
  find (fun t => String.eqb (tf_sender t) (cf_senderCustomerId input)
                 && String.eqb (td_idempotencyKeyHash (tf_data t)) (sha256 (cf_idempotencyKey input)))
       (transfers db) = Some t ->
  confirm config now random evaluationId input corr (alone db net) =
  (if String.eqb (td_requestHash (tf_data t)) (request_hash (cf_senderCustomerId input) i)
   then asDetail t (cf_senderCustomerId input) else Err (paymentsError "IDEMPOTENCY_CONFLICT"),
   alone (Env := Net) db net).
Proof.
  intros Hi [at_ Hat] Ht. unfold confirm.
  erewrite bind_Ok; [|rewrite atomic_alone; unfold find_intent, gets; cbn; by rewrite Hi].
  unfold require. erewrite bind_Ok; [|done]. rewrite Hat. cbn [negb bool_decide].
  erewrite bind_Ok; [|done].
  erewrite bind_Ok; [|rewrite atomic_alone; unfold find_replay, gets; cbn; by rewrite Ht].
  cbn. destruct (String.eqb _ _); cbn; done.
Qed.
End Settlement.
