(* ===== verification/PaymentWitnesses.v ===== *)
(** * A concrete Payments service over the concrete Ledger of [Fixtures] *)

From Stdlib Require Import ZArith Lia Ascii String.
From stdpp Require Import base strings list gmap sorting.
From S2P Require Import Prelude.
From S2P Require Import Js.
From S2P Require Import Contracts.
From S2P Require Import Security.
From S2P Require Import Calendar.
From S2P Require Import Services.
From S2P Require Import RiskTypes.
From S2P Require Import LedgerDb.
From S2P Require Import Idempotency.
From S2P Require Import Journal.
From S2P Require Import Accounts.
From S2P Require Import CustomerTransfer.
From S2P Require Import LedgerSystem.
From S2P Require Import Transactions.
From S2P Require Import Fixtures.
From S2P Require Import LedgerWitnesses.
From S2P Require Import PaymentsDb.
From S2P Require Import Peers.
From S2P Require Import PaymentTransfers.
From S2P Require Import PaymentsInv.
From S2P Require Import PaymentProofs.
From S2P Require Import PaymentSettlement.

Open Scope Z_scope.

(** 10.00 to 100,000.00 LKR, 250,000.00 a day. *)
Definition fx_payments : PaymentsConfig :=
  mkPaymentsConfig "development" "127.0.0.1" 4104 "postgresql://payments" "payments-token" "http://127.0.0.1:4102" "ledger-token"
    1000 10000000 25000000 300 5000 60 5 24 "http://127.0.0.1:4105" "risk-token" "payments-source-token" 2000
    "0123456789abcdef0123456789abcdef" 300 24 "redis://127.0.0.1" "aegis:payments:".

(** A Risk service that allows everything. *)
Definition allow_controls (r : ControlCheckRequest) : HttpReply ControlCheckResponse :=
  Success (Some (mkControlResponse true ALLOW [] false None)).
Definition allow_evaluation (r : RiskEvaluationRequest) : HttpReply RiskAssessment :=
  Success (Some (mkAssessment (fx_id 500) 0 LOW ALLOW [] [] None (toISOString fx_now) "test-1" "allowed")).
#[export] Instance fx_peers : Peers Net := ledger_network fx_config fx_now allow_controls allow_evaluation.

Abbreviation fx_state := (System PaymentsDb Net).
Definition fx_net (ldb : LedgerDb) (fs : list Fault) : Net := mkNet (quiet ldb) fs.
Definition pay_state {A} (x : result PaymentsErr A * fx_state) : PaymentsDb := sdb x.2.

Definition fx_token : string := "0123456789012345678901234567890123456789012".
Definition fx_intent_request : InternalTransferIntentRequest :=
  match account_of db_wallets alice, account_of db_wallets bob with
  | Some a, Some b => mkIntentRequest alice (ca_id a) (ca_publicReference b) "600.00"
  | _, _ => mkIntentRequest "" "" "" ""
  end.
Definition with_intent : PaymentsDb := Eval vm_compute in
  pay_state (createIntent fx_payments fx_now fx_token (fx_id 610) (fx_id 611) fx_intent_request fx_correlation
               (alone emptyPayments (fx_net db_funded []))).
Definition authorized : PaymentsDb := Eval vm_compute in
  pay_state (authorize fx_now alice fx_token (alone with_intent (fx_net db_funded []))).
Definition fx_confirmation : InternalTransferConfirmation :=
  mkConfirmation alice fx_token "confirm-key-0000001".
Abbreviation fx_confirm :=
  (confirm fx_payments fx_now "0A1B2C3D4E5F6071829A0B1C" (fx_id 620) fx_confirmation fx_correlation).

Definition status_of {A B} (f : A -> B) (x : result PaymentsErr A * fx_state) : option B :=
  match x.1 with Ok a => Some (f a) | Err _ => None end.
Definition balances_of {A} (x : result PaymentsErr A * fx_state) : option Z * option Z :=
  (account_balance (wdb (net_ledger (senv x.2))) alice_wallet,
   account_balance (wdb (net_ledger (senv x.2))) bob_wallet).

(** The reply to the first attempt is lost: the row stays PROCESSING. *)
Definition processing : PaymentsDb := Eval vm_compute in
  pay_state (fx_confirm (alone authorized (fx_net db_funded [LoseReply]))).
Definition moved_ledger : LedgerDb := Eval vm_compute in
  wdb (net_ledger (senv (fx_confirm (alone authorized (fx_net db_funded [LoseReply]))).2)).
Definition later : Z := fx_now + 120000.
Abbreviation fx_recover := (recover fx_payments later).

(** ** A lost reply

    Alice confirms a transfer of 600.00 of her 1,000.00, the reply of the Ledger
    is lost, and the recovery run, which finds 400.00, tells her that it failed. *)
Example lost_reply_run :
  let first := fx_confirm (alone authorized (fx_net db_funded [LoseReply])) in
  let second := fx_recover (alone (sdb first.2) (senv first.2)) in
  status_of (fun d => ts_status (tdt_summary d)) first = Some PROCESSING /\
  status_of id second = Some 1%nat /\
  map (fun t => (tf_status t, tg_failureCode (tf_progress t))) (transfers (sdb second.2)) =
    [(FAILED, Some F_INSUFFICIENT_FUNDS)] /\
  (account_balance db_funded alice_wallet, account_balance db_funded bob_wallet) = (Some 100000, Some 0) /\
  balances_of second = (Some 40000, Some 60000).
Proof. vm_compute. repeat split. Qed.

(** * The Payments theorems at concrete inputs *)

Lemma fx_year : four_digit_year fx_now.
Proof. vm_compute. split; congruence. Qed.
Lemma later_year : four_digit_year later.
Proof. vm_compute. split; congruence. Qed.
Lemma fx_attempts : 0 < maxProcessingAttempts fx_payments.
Proof. reflexivity. Qed.

Lemma empty_inv : PaymentsInv fx_payments emptyPayments.
Proof.
  constructor; try apply NoDup_nil_2; try (by intros ? ?%not_elem_of_nil).
  by intros customer day.
Qed.
Lemma authorized_inv : PaymentsInv fx_payments authorized.
Proof.
  constructor; cbn; try apply NoDup_nil_2; try (by intros ? ?%not_elem_of_nil); try done.
  - apply NoDup_singleton.
  - by intros i ->%list_elem_of_singleton.
  - intros i ->%list_elem_of_singleton [x Hx]. discriminate Hx.
Qed.
Lemma processing_inv : PaymentsInv fx_payments processing.
Proof.
  constructor; cbn -[sent_on].
  - apply NoDup_singleton.
  - apply NoDup_singleton.
  - by intros i ->%list_elem_of_singleton.
  - intros customer day. unfold sent_on. rewrite filter_sum. cbn -[counted].
    destruct (decide _); cbn; lia.
  - intros t ->%list_elem_of_singleton. constructor; cbn; try done; vm_compute; split; congruence.
  - intros i ->%list_elem_of_singleton _. eexists. split; [by apply list_elem_of_singleton|done].
Qed.

(** Another request runs between the statements of this one: an insert that
    fails after its identifier was drawn. *)
Definition other_request : PaymentsDb -> PaymentsDb := set_pay_uuid N.succ.
Definition among (db : PaymentsDb) (net : Net) : fx_state := mkSystem db net [other_request; other_request].
Lemma other_ok db : PaymentsInv fx_payments db ->
  PaymentsInv fx_payments (other_request db) /\ keeps_live db (other_request db).
Proof. intros H. split; [constructor; apply H|by intros i Hi]. Qed.
Lemma among_ok db net : PaymentsInv fx_payments db ->
  sys_ok (PaymentsInv fx_payments) keeps_live (among db net).
Proof.
  intros H. split; [exact H|]. apply Forall_forall. intros f Hf db' [Hq Hl]%other_ok.
  assert (f = other_request) as -> by (cbn in Hf; set_solver). by split.
Qed.

Lemma returned_pay {S A} (x : result PaymentsErr A * S) (f : A -> S -> bool) :
  match x with (Ok a, s) => f a s | _ => false end = true -> exists a s, x = (Ok a, s) /\ f a s = true.
Proof. destruct x as [[a|e] s]; [eauto|discriminate]. Qed.
Lemma triple_run {S A} (P : S -> Prop) (m : M S PaymentsErr A) s : preserves P m -> P s -> P (m s).2.
Proof. intros H Hs. specialize (H s Hs). by destruct (m s) as [[a|e] s']. Qed.

Lemma confirm_preserves_inv_witness :
  PaymentsInv fx_payments (sdb (fx_confirm (among authorized (fx_net db_funded []))).2).
Proof.
  exact (proj1 (triple_run _ _ (among authorized (fx_net db_funded []))
    (confirm_preserves_inv fx_payments fx_now fx_attempts fx_year "0A1B2C3D4E5F6071829A0B1C" (fx_id 620)
       fx_confirmation fx_correlation) (among_ok _ _ authorized_inv))).
Defined.
Lemma recover_preserves_inv_witness :
  PaymentsInv fx_payments (sdb (fx_recover (among processing (fx_net moved_ledger []))).2).
Proof.
  exact (proj1 (triple_run _ _ (among processing (fx_net moved_ledger []))
    (recover_preserves_inv fx_payments later fx_attempts later_year) (among_ok _ _ processing_inv))).
Defined.
Lemma createIntent_preserves_inv_witness :
  PaymentsInv fx_payments (sdb (createIntent fx_payments fx_now fx_token (fx_id 610) (fx_id 611)
    fx_intent_request fx_correlation (among emptyPayments (fx_net db_funded []))).2).
Proof.
  refine (proj1 (triple_run _ _ (among emptyPayments (fx_net db_funded []))
    (createIntent_preserves_inv fx_payments fx_now fx_token (fx_id 610) (fx_id 611)
       fx_intent_request fx_correlation _) (among_ok _ _ empty_inv))).
  discriminate.
Defined.

(** Alice asks for an intent, confirms it while another request runs beside
    hers, the Ledger's reply is lost, and the recovery settles the transfer. *)
Lemma other_harmless : harmless fx_payments other_request.
Proof. intros db. apply other_ok. Qed.
Definition day_of_transfers : PaymentsDb :=
  let call now c db net others := sdb (payments_call fx_payments now c (mkSystem db net others)).2 in
  let db := call fx_now (CallCreateIntent fx_token (fx_id 610) (fx_id 611) fx_intent_request fx_correlation)
              emptyPayments (fx_net db_funded []) [] in
  let db := call fx_now (CallAuthorize alice fx_token) db (fx_net db_funded []) [] in
  let db := call fx_now (CallConfirm "0A1B2C3D4E5F6071829A0B1C" (fx_id 620) fx_confirmation fx_correlation)
              db (fx_net db_funded [LoseReply]) [other_request; other_request] in
  call later CallRecover db (fx_net moved_ledger []) [other_request].
Lemma other_keeps_core : keeps_core fx_payments other_request.
Proof. intros db H. constructor; apply H. Qed.
Lemma day_history_of other : other other_request -> payments_history fx_payments other day_of_transfers.
Proof.
  intros Hother. unfold day_of_transfers. cbv zeta beta.
  repeat (apply history_call; [|exact fx_year || exact later_year|repeat (apply Forall_cons_2; [exact Hother|]); apply Forall_nil_2]).
  apply history_start.
Qed.

(** *** The limit, when a settled transfer is settled again

    A recovery run moves Alice's 600.00 and stalls before it writes so. A minute
    later the next run claims the transfer again, is told that 400.00 remain,
    and marks it FAILED; Alice, who may send 900.00 a day, sends 400.00 more;
    then the first run writes COMPLETED over FAILED. *)
Definition small_limit : PaymentsConfig :=
  mkPaymentsConfig "development" "127.0.0.1" 4104 "postgresql://payments" "payments-token" "http://127.0.0.1:4102" "ledger-token"
    1000 80000 90000 300 5000 60 5 24 "http://127.0.0.1:4105" "risk-token" "payments-source-token" 2000
    "0123456789abcdef0123456789abcdef" 300 24 "redis://127.0.0.1" "aegis:payments:".
Definition much_later : Z := later + 61000.
Definition second_token : string := "9876543210987654321098765432109876543210987".
Definition small_call now c net (db : PaymentsDb) (others : list (PaymentsDb -> PaymentsDb)) : PaymentsDb :=
  sdb (payments_call small_limit now c (mkSystem db net others)).2.
Definition fx_second_request : InternalTransferIntentRequest :=
  mkIntentRequest alice (ir_sourceAccountId fx_intent_request) (ir_recipientReference fx_intent_request) "400.00".
Definition next_run (db : PaymentsDb) : PaymentsDb :=
  let net := fx_net moved_ledger [] in
  let db := small_call much_later CallRecover net db [] in
  let db := small_call much_later (CallCreateIntent second_token (fx_id 630) (fx_id 631) fx_second_request fx_correlation) net db [] in
  let db := small_call much_later (CallAuthorize alice second_token) net db [] in
  small_call much_later (CallConfirm "1A1B2C3D4E5F6071829A0B1C" (fx_id 640)
    (mkConfirmation alice second_token "confirm-key-0000002") fx_correlation) net db [].
Definition revived : PaymentsDb :=
  let net := fx_net db_funded [] in
  let db := small_call fx_now (CallCreateIntent fx_token (fx_id 610) (fx_id 611) fx_intent_request fx_correlation) net emptyPayments [] in
  let db := small_call fx_now (CallAuthorize alice fx_token) net db [] in
  let db := small_call fx_now (CallConfirm "0A1B2C3D4E5F6071829A0B1C" (fx_id 620) fx_confirmation fx_correlation)
              (fx_net db_funded [LoseRequest]) db [] in
  small_call later CallRecover net db [other_request; next_run].
Lemma small_call_core now c net db : PaymentsCore small_limit db -> PaymentsCore small_limit (small_call now c net db []).
Proof.
  intros H. unfold small_call. assert (Hm : 0 <= minTransferMinor small_limit) by discriminate.
  pose proof (payments_call_core small_limit now c eq_refl Hm (mkSystem db net []) (conj H (Forall_nil_2 _))) as Hc.
  destruct (payments_call _ _ _ _) as [[a|e] s]; apply Hc.
Qed.
Lemma next_run_keeps : keeps_core small_limit next_run.
Proof. intros db H. unfold next_run. cbv zeta. by do 4 apply small_call_core. Qed.
Lemma limit_exceeded_by_revival : payments_history small_limit (keeps_core small_limit) revived /\
  ((fun t => (tf_status t, tg_failureCode (tf_progress t))) <$> transfers revived) =
    [(COMPLETED, Some F_INSUFFICIENT_FUNDS); (COMPLETED, None)] /\
  sent_on alice (day_text fx_now) revived = 100000 /\ dailyOutgoingLimitMinor small_limit = 90000.
Proof.
  split; [|vm_compute; repeat split]. unfold revived, small_call. cbv zeta.
  repeat (apply history_call; [|exact fx_year || exact later_year|
    repeat (apply Forall_cons_2; [exact next_run_keeps || (intros db H; constructor; apply H)|]); apply Forall_nil_2]).
  apply history_start.
Qed.

(** ** Settlement *)
Lemma fx_confirms : exists d s', fx_confirm (alone authorized (fx_net db_funded [])) = (Ok d, s') /\
  bool_decide (ts_status (tdt_summary d) = COMPLETED) = true.
Proof. apply (returned_pay _ (fun d _ => bool_decide (ts_status (tdt_summary d) = COMPLETED))). vm_compute. reflexivity. Qed.
Lemma no_transfer : no_transfer_for fx_confirmation authorized.
Proof. intros t Ht. by apply not_elem_of_nil in Ht. Qed.
Lemma no_record : idempotencyRecords db_funded !!
  record_key journalEntry (sha256 ("transfer:" +:+ uuid (pay_uuidCounter authorized))) = None.
Proof. vm_compute. reflexivity. Qed.

Lemma confirm_agrees_witness :
  exists d s' i, fx_confirm (alone authorized (fx_net db_funded [])) = (Ok d, s') /\
    i ∈ transferIntents authorized /\ agrees COMPLETED db_funded (net_ledger (senv s')) i.
Proof.
  destruct fx_confirms as (d & s' & H & Hst). exists d, s'.
  destruct (confirm_agrees fx_config fx_now allow_controls allow_evaluation fx_payments fx_now
    "0A1B2C3D4E5F6071829A0B1C" (fx_id 620) fx_confirmation fx_correlation authorized db_funded [] d s'
    funded_inv no_transfer no_record H) as (i & Hi & _ & _ & Ha).
  exists i. split; [exact H|]. split; [exact Hi|]. apply bool_decide_eq_true in Hst. rewrite <- Hst. exact Ha.
Defined.

Definition first_intent : TransferIntent := Eval vm_compute in
  match transferIntents processing with i :: _ => i | [] =>
    mkIntent "" "" "" "" "" "" "" "" "" "" 0 0 0 None None end.
Definition first_transfer : Transfer := Eval vm_compute in
  match transfers processing with t :: _ => t | [] =>
    mkTransfer "" (mkTransferData "" "" "" "" "" "" "" "" "" 0 "" "" "" "") 0
      (mkProgress FAILED None None None None None None 0 None 0 None None) end.
Lemma confirm_replays_witness :
  fx_confirm (alone processing (fx_net moved_ledger [])) =
  (if String.eqb (td_requestHash (tf_data first_transfer)) (request_hash alice first_intent)
   then asDetail first_transfer alice else Err (paymentsError "IDEMPOTENCY_CONFLICT"),
   alone processing (fx_net moved_ledger [])).
Proof.
  apply (confirm_replays fx_config fx_now allow_controls allow_evaluation fx_payments fx_now
    "0A1B2C3D4E5F6071829A0B1C" (fx_id 620) fx_confirmation fx_correlation processing
    (fx_net moved_ledger []) first_intent first_transfer); [reflexivity|by eexists|reflexivity].
Defined.

(** The same run, as an instance of the general statement. *)
Definition lost_preview : InternalTransferPreviewResult := Eval vm_compute in
  match preview_endpoint (tc_preview (settle_command first_transfer)) (quiet moved_ledger) with
  | (Ok v, _) => v
  | _ => mkTransferPreviewResult "" "" (mkMoney "" "") "" "" "" ""
  end.
Lemma lost_preview_run : preview_endpoint (tc_preview (settle_command first_transfer)) (quiet moved_ledger) = (Ok lost_preview, quiet moved_ledger).
Proof. vm_compute. reflexivity. Qed.
Lemma lost_command_run : exists res w1,
  transfer_endpoint fx_config fx_now (settle_command first_transfer) fx_correlation (quiet db_funded) = (Ok res, w1) /\ any res w1 = true.
Proof. apply returned. vm_compute. reflexivity. Qed.
Lemma lost_reply_reported_failed_witness : BigInt (minorUnits (tpr_sourceBalance lost_preview)) = 40000 /\
  exists s' t, fx_recover (alone processing (fx_net moved_ledger [])) = (Ok 1%nat, s') /\
    find_row tf_id (tf_id first_transfer) (transfers (sdb s')) = Some t /\ tf_status t = FAILED.
Proof.
  split; [vm_compute; reflexivity|]. destruct lost_command_run as (res & w1 & Hrun & _).
  destruct (lost_reply_reported_failed fx_config fx_now allow_controls allow_evaluation fx_payments fx_now first_transfer fx_correlation
    processing db_funded res w1 later processing first_transfer moved_ledger lost_preview (quiet moved_ledger) funded_inv)
    as (_ & _ & s' & t & Hrec & _ & Hfind & Hst & _);
    [reflexivity|exact Hrun|vm_compute; reflexivity|reflexivity|reflexivity|repeat split|vm_compute; split; congruence|vm_compute; reflexivity|
     exact lost_preview_run|vm_compute; reflexivity|].
  exists s', t. split; [exact Hrec|]. split; [exact Hfind|exact Hst].
Defined.

(** ** The Ledger as a system *)
Definition ledger_requests : list LedgerRequest :=
  [CustomerTransfer alice_to_bob fx_correlation; Reconcile fx_correlation].
Lemma ledger_reachable_inv_witness :
  LedgerInv (serve fx_config fx_now (Reconcile fx_correlation)
    (mkWorld (serve fx_config fx_now (CustomerTransfer alice_to_bob fx_correlation) (quiet db_funded))
       [set_runs (fun _ => [])])).
Proof.
  apply (ledger_reachable_inv fx_config db_funded); [exact funded_inv|].
  apply reach_step; [apply reach_step; [apply reach_start|constructor]|].
  constructor; [|constructor]. intros d Hd. constructor; [constructor|..]; apply Hd.
Defined.

Lemma overdraft_refused : exists e w',
  transfer fx_config fx_now alice_to_bob fx_correlation (quiet db_transferred) = (Err e, w').
Proof.
  destruct (transfer fx_config fx_now alice_to_bob fx_correlation (quiet db_transferred)) as [[r|e] w'] eqn:H;
    [|eauto].
  exfalso. assert (is_ok (transfer fx_config fx_now alice_to_bob fx_correlation (quiet db_transferred)).1 = false)
    as Hx by (vm_compute; reflexivity). by rewrite H in Hx.
Qed.
Lemma transfer_refused_unchanged_witness : exists e,
  transfer fx_config fx_now alice_to_bob fx_correlation (quiet db_transferred) = (Err e, quiet db_transferred).
Proof.
  destruct overdraft_refused as (e & w' & H). exists e.
  pose proof (transfer_refused_unchanged fx_config fx_now alice_to_bob fx_correlation db_transferred e w'
    transferred_inv H) as Hw. rewrite <- Hw at 2. exact H.
Defined.
