(* ===== verification/QrPayments.v ===== *)
(** * QR codes: signed payloads, issuing, previews and payments
    ([services/payments/src/qr])

    HMAC-SHA256 is a parameter: a function of the key and the text to
    hexadecimal digits. *)

From Stdlib Require Import ZArith Lia Ascii String.
From stdpp Require Import base strings list gmap sorting.
From S2P Require Import Prelude.
From S2P Require Import Js.
From S2P Require Import Codec.
From S2P Require Import Contracts.
From S2P Require Import Security.
From S2P Require Import Services.
From S2P Require Import RiskTypes.
From S2P Require Import LedgerDb.
From S2P Require Import CustomerTransfer.
From S2P Require Import PaymentsDb.
From S2P Require Import Peers.
From S2P Require Import PaymentTransfers.

Open Scope Z_scope.

Definition QR_PROTOCOL_VERSION : Z := 1.

Record QrPayloadData := mkQrPayload {
  qd_version : Z;
  qd_recipientRef : string;
  qd_currency : string;
  qd_amountMinor : option string;
  qd_nonce : string;
  qd_expiresAt : string;
  qd_type : QrType;
  qd_purpose : option string;
  qd_keyId : string
}.
Record SignedQrPayload := mkSigned { sq_data : QrPayloadData; sq_signature : string }.

Definition qrType_str (t : QrType) : string := match t with STATIC => "STATIC" | DYNAMIC => "DYNAMIC" end.

Definition newQrPaymentReference (random : string) : string := reference_of "AEGIS-QRP-" random.

Definition optional_entry (k : string) (o : option string) : list (string * string) :=
  match o with Some v => [(k, v)] | None => [] end.
Definition canonicalPayloadString (d : QrPayloadData) : string :=
  let entries :=
    [("currency", qd_currency d); ("expiresAt", qd_expiresAt d); ("keyId", qd_keyId d);
     ("nonce", qd_nonce d); ("recipientRef", qd_recipientRef d); ("type", qrType_str (qd_type d));
     ("version", bigint_to_string (qd_version d))]%string
    ++ optional_entry "amountMinor" (qd_amountMinor d) ++ optional_entry "purpose" (qd_purpose d) in
  join "&" (map (fun '(k, v) => k +:+ "=" +:+ v) (sort_by (fun kv => locale_key kv.1) entries)).

Section Signing.
Context {hmac : Hmac}.

Definition signQrPayload (data : QrPayloadData) (signingKey : string) : SignedQrPayload :=
  mkSigned data (hmac_sha256 signingKey (canonicalPayloadString data)).

Definition verifyQrSignature (payload : SignedQrPayload) (signingKey : string) : bool :=
  let expected := hmac_sha256 signingKey (canonicalPayloadString (sq_data payload)) in
  let sigBuf := hex_bytes (sq_signature payload) in
  let expBuf := hex_bytes expected in
  if negb (String.length sigBuf =? String.length expBuf)%nat || (String.length sigBuf =? 0)%nat then false
  else String.eqb sigBuf expBuf.
End Signing.

(** ** The text of the QR code *)
Definition optional_field (k : string) (o : option string) : list (string * json) :=
  match o with Some v => [(k, JStr v)] | None => [] end.
Definition payload_json (p : SignedQrPayload) : json :=
  let d := sq_data p in
  JObj ([("version", JNum (qd_version d)); ("recipientRef", JStr (qd_recipientRef d));
         ("currency", JStr (qd_currency d))]%string
        ++ optional_field "amountMinor" (qd_amountMinor d)
        ++ [("nonce", JStr (qd_nonce d)); ("expiresAt", JStr (qd_expiresAt d));
            ("type", JStr (qrType_str (qd_type d)))]%string
        ++ optional_field "purpose" (qd_purpose d)
        ++ [("keyId", JStr (qd_keyId d)); ("signature", JStr (sq_signature p))]%string).
Definition encodeQrPayload (p : SignedQrPayload) : string := cursor_text (payload_json p).

(** [isSignedQrPayload], reading the fields it accepts. *)
Definition optional_string (v : json) : option (option string) :=
  match v with JUndef => Some None | JStr s => Some (Some s) | _ => None end.
Definition isSignedQrPayload (v : json) : option SignedQrPayload :=
  match jfield "version" v, jfield "recipientRef" v, jfield "currency" v, jfield "nonce" v,
        jfield "expiresAt" v, jfield "type" v, jfield "signature" v, jfield "keyId" v with
  | JNum version, JStr recipientRef, JStr currency, JStr nonce, JStr expiresAt, JStr type,
    JStr signature, JStr keyId =>
      t ← (if String.eqb type "STATIC" then Some STATIC
           else if String.eqb type "DYNAMIC" then Some DYNAMIC else None);
      amount ← optional_string (jfield "amountMinor" v);
      purpose ← optional_string (jfield "purpose" v);
      Some (mkSigned (mkQrPayload version recipientRef currency amount nonce expiresAt t purpose keyId) signature)
  | _, _, _, _, _, _, _, _ => None
  end.
Definition decodeQrPayload (encoded : string) : option SignedQrPayload :=
  parsed ← cursor_json encoded; isSignedQrPayload parsed.

(** ** Lemmas *)

(** The entries in the order of their keys. *)
Definition canonical_fields (d : QrPayloadData) : list string :=
  map (fun '(k, v) => k +:+ "=" +:+ v)
    (optional_entry "amountMinor" (qd_amountMinor d)
     ++ [("currency", qd_currency d); ("expiresAt", qd_expiresAt d); ("keyId", qd_keyId d);
         ("nonce", qd_nonce d)]%string
     ++ optional_entry "purpose" (qd_purpose d)
     ++ [("recipientRef", qd_recipientRef d); ("type", qrType_str (qd_type d));
         ("version", bigint_to_string (qd_version d))]%string).
Lemma canonical_sorted d : canonicalPayloadString d = join "&" (canonical_fields d).
Proof.
  unfold canonicalPayloadString, canonical_fields. f_equal. f_equal.
  generalize (qrType_str (qd_type d)), (bigint_to_string (qd_version d)). intros t v.
  destruct d as [? ref cur am nonce ex ? pur key]. cbn [qd_currency qd_expiresAt qd_keyId qd_nonce qd_recipientRef qd_amountMinor qd_purpose].
  destruct am as [am|], pur as [pur|]; vm_compute; reflexivity.
Qed.

Definition no_amp (s : string) : bool := str_all (fun c => negb (Ascii.eqb c "&")) s.
Lemma split_app x s : no_amp x = true -> split_on "&" (x +:+ String "&" s) = x :: split_on "&" s.
Proof.
  induction x as [|c x IH]; [done|]. unfold no_amp. cbn [str_all]. intros [Hc Hx]%andb_prop.
  rewrite str_app_cons. cbn [split_on]. apply negb_true_iff in Hc. rewrite Hc, IH by done. done.
Qed.
Lemma split_none x : no_amp x = true -> split_on "&" x = [x].
Proof.
  induction x as [|c x IH]; [done|]. unfold no_amp. cbn [str_all split_on]. intros [Hc Hx]%andb_prop.
  apply negb_true_iff in Hc. by rewrite Hc, IH.
Qed.
Lemma split_join l : l <> [] -> forallb no_amp l = true -> split_on "&" (join "&" l) = l.
Proof.
  induction l as [|x l IH]; [done|]. intros _. cbn [forallb]. intros [Hx Hl]%andb_prop.
  destruct l as [|y l]; [by apply split_none|]. change (join "&" (x :: y :: l)) with (x +:+ String "&" (join "&" (y :: l))).
  rewrite split_app by done. by rewrite IH.
Qed.

(** The fields hold no [&]: the references and dates the service writes never
    do, an amount is digits, a purpose is the issuer's text. *)
Definition amp_free (d : QrPayloadData) : bool :=
  no_amp (qd_recipientRef d) && no_amp (qd_currency d) && no_amp (qd_nonce d) && no_amp (qd_expiresAt d)
  && no_amp (qd_keyId d) && match qd_amountMinor d with Some a => no_amp a | None => true end
  && match qd_purpose d with Some p => no_amp p | None => true end.
Lemma digits_no_amp s : str_all is_digit s = true -> no_amp s = true.
Proof.
  unfold no_amp. induction s as [|c s IH]; [done|]. cbn [str_all]. intros [Hc Hs]%andb_prop.
  rewrite IH by done. rewrite andb_true_r. by destruct c as [[] [] [] [] [] [] [] []].
Qed.
Lemma number_no_amp z : no_amp (bigint_to_string z) = true.
Proof.
  unfold bigint_to_string. destruct (Z.ltb_spec z 0).
  - destruct (nat_text (- z)) as (Ha & _); [lia|]. unfold no_amp. cbn [str_all]. by apply digits_no_amp.
  - destruct (nat_text z) as (Ha & _); [lia|]. by apply digits_no_amp.
Qed.
Lemma no_amp_app a b : no_amp (a +:+ b) = no_amp a && no_amp b.
Proof. apply str_all_app. Qed.
Lemma fields_no_amp d : amp_free d = true -> forallb no_amp (canonical_fields d) = true.
Proof.
  unfold amp_free, canonical_fields. intros H. repeat apply andb_prop in H as [H ?].
  pose proof (number_no_amp (qd_version d)) as Hv.
  assert (no_amp (qrType_str (qd_type d)) = true) as Ht by (by destruct (qd_type d)).
  destruct (qd_amountMinor d), (qd_purpose d); cbn [optional_entry app map forallb];
    rewrite !no_amp_app; by repeat match goal with H : no_amp _ = true |- _ => rewrite H; clear H end.
Qed.
Lemma qrType_str_inj a b : qrType_str a = qrType_str b -> a = b.
Proof. by destruct a, b. Qed.
Lemma signed_same d1 d2 : amp_free d1 = true -> amp_free d2 = true ->
  canonicalPayloadString d1 = canonicalPayloadString d2 -> d1 = d2.
Proof.
  intros H1 H2 H. rewrite !canonical_sorted in H.
  apply (f_equal (split_on "&")) in H. rewrite !split_join in H; try by apply fields_no_amp.
  2,3: unfold canonical_fields; by destruct (qd_amountMinor _).
  unfold canonical_fields in H.
  destruct d1 as [v1 r1 c1 a1 n1 e1 t1 p1 k1], d2 as [v2 r2 c2 a2 n2 e2 t2 p2 k2].
  cbn [qd_version qd_currency qd_expiresAt qd_keyId qd_nonce qd_recipientRef qd_amountMinor qd_purpose qd_type] in H.
  destruct a1 as [a1|], a2 as [a2|], p1 as [p1|], p2 as [p2|]; cbn [optional_entry app map] in H;
    try discriminate H; simplify_eq.
  all: match goal with H : qrType_str _ = _ |- _ => apply qrType_str_inj in H end.
  all: match goal with H : bigint_to_string _ = _ |- _ => apply bigint_to_string_inj in H end; by subst.
Qed.

Lemma payload_read p : isSignedQrPayload (payload_json p) = Some p.
Proof. by destruct p as [[v r c [a|] n e [] [pu|] k] sig]. Qed.
Lemma payload_plain p : plain (payload_json p) = true.
Proof. by destruct p as [[v r c [a|] n e t [pu|] k] sig]. Qed.
Lemma payload_roundtrip p : decodeQrPayload (encodeQrPayload p) = Some p.
Proof.
  unfold decodeQrPayload, encodeQrPayload. rewrite cursor_roundtrip by apply payload_plain. apply payload_read.
Qed.

(** What a phone reads from a QR code is the payload that was signed, and its
    signature verifies under the key it was signed with. *)
Theorem qr_text_verifies {hmac : Hmac} data key :
  hex_bytes (hmac_sha256 key (canonicalPayloadString data)) <> ""%string ->
  decodeQrPayload (encodeQrPayload (signQrPayload data key)) = Some (signQrPayload data key) /\
  verifyQrSignature (signQrPayload data key) key = true.
Proof.
  intros Hne. split; [apply payload_roundtrip|]. unfold verifyQrSignature, signQrPayload. cbn [sq_data sq_signature].
  rewrite Nat.eqb_refl. cbn [negb orb]. destruct (hex_bytes _) as [|c s]; [done|]. cbn. by rewrite Ascii.eqb_refl, String.eqb_refl.
Qed.

(** The signed text binds every field: two payloads whose fields hold no [&]
    have the same signed text only when they are the same payload. *)
Theorem canonical_binds d1 d2 : amp_free d1 = true -> amp_free d2 = true ->
  canonicalPayloadString d1 = canonicalPayloadString d2 -> d1 = d2.
Proof. apply signed_same. Qed.

(** The delimiters are not escaped: with an [&] in a field two payloads share
    their signed text, so a signature of one verifies for the other. *)
Definition purpose_payload : QrPayloadData :=
  mkQrPayload 1 "AEGIS-AAAA-BBBB-CCCC" "LKR" None "0011" "2026-07-31T14:30:45.678Z" STATIC
    (Some "tea"%string) "aegis-qr-v1".
Definition shifted_payload : QrPayloadData :=
  mkQrPayload 1 "AEGIS-AAAA-BBBB-CCCC" "LKR" None "0011&purpose=tea" "2026-07-31T14:30:45.678Z" STATIC
    None "aegis-qr-v1".
Lemma canonical_ambiguous :
  canonicalPayloadString purpose_payload = canonicalPayloadString shifted_payload /\
  purpose_payload <> shifted_payload.
Proof. split; [vm_compute; reflexivity|done]. Qed.

(** * QR payments ([services/payments/src/qr/qr.service.ts]) *)

Record QrIssueInput := mkQrIssue {
  qi_customerId : string;
  qi_accountId : string;
  qi_type : QrType;
  qi_amountMinor : option string;
  qi_currency : string;
  qi_purpose : option string
}.
Record QrIssued := mkQrIssued {
  qo_qrId : string;
  qo_payload : string;
  qo_type : QrType;
  qo_expiresAt : string
}.
Record QrPreviewInput := mkQrPreviewInput {
  qp_payload : string;
  qp_senderCustomerId : string;
  qp_sourceAccountId : string
}.
Record QrPreview := mkQrPreview {
  qv_qrId : string;
  qv_recipientMaskedReference : string;
  qv_amount : option Money;
  qv_purpose : option string;
  qv_type : QrType;
  qv_expiresAt : string;
  qv_intentToken : string
}.
Record QrConfirmInput := mkQrConfirm {
  qc_senderCustomerId : string;
  qc_intentToken : string;
  qc_idempotencyKey : string
}.
Record RedemptionView := mkRedemptionView {
  rv_id : string;
  rv_displayReference : string;
  rv_status : QrPaymentStatus;
  rv_senderMaskedReference : string;
  rv_recipientMaskedReference : string;
  rv_amount : Money;
  rv_senderBalanceAfter : option Money;
  rv_createdAt : string;
  rv_completedAt : option string
}.

(** [x ? ... : ...] on an optional string, and on an optional bigint. *)
Definition truthy (o : option string) : option string :=
  match o with Some s => if String.eqb s "" then None else Some s | None => None end.
Definition nonzero (o : option Z) : option Z :=
  match o with Some z => if z =? 0 then None else Some z | None => None end.

(** ** Statements *)
Section Statements.
Context {pg : Postgres}.

Definition create_qr_event (e : ChannelEvent) : PayM unit :=
  db ← get;
  _ ← pay_check (existsb (fun q => String.eqb (qr_id q) (ce_subject e)) (qrPaymentRequests db)
                 && match ce_safeCode e with Some c => fits 64 c | None => true end) "qr_payment_events";
  modify (set_qr_events (fun l => l ++ [e])).

(** [qrPaymentRequest.create], with its nested event. *)
Definition create_qr (now : Z) (mk : string -> QrPaymentRequest) : PayM QrPaymentRequest :=
  id ← pay_uuid;
  db ← get;
  let q := mk id in
  _ ← pay_unique (qrPaymentRequests db) (fun x => String.eqb (qr_id x) id) "qr_payment_requests" ["id"];
  _ ← pay_unique (qrPaymentRequests db) (fun x => String.eqb (qr_nonceHash x) (qr_nonceHash q))
        "qr_payment_requests" ["nonceHash"];
  _ ← pay_check (pg_uuid (qr_recipientCustomerId q) && pg_uuid (qr_recipientAccountId q)
                 && fits 24 (qr_recipientMaskedReference q) && fits 24 (qr_recipientPublicReference q)
                 && fits 3 (qr_currency q) && int64_ok (default 0 (qr_amountMinor q))
                 && match qr_purpose q with Some p => fits 64 p | None => true end) "qr_payment_requests";
  _ ← modify (set_qr_requests (fun l => l ++ [q]));
  _ ← create_qr_event (mkChannelEvent id "QR_ISSUED" None (Some "ACTIVE"%string) None now);
  mret q.
Definition update_qr (id : string) (f : QrPaymentRequest -> QrPaymentRequest) : PayM unit :=
  db ← get;
  _ ← require (find_row qr_id id (qrPaymentRequests db)) (PayDbError "P2025");
  modify (set_qr_requests (update_row qr_id id f)).

(** [qrRedemption.create] *)
Definition create_redemption (mk : string -> QrRedemption) : PayM unit :=
  id ← pay_uuid;
  db ← get;
  let r := mk id in
  let differs same := pay_unique (qrRedemptions db) same "qr_redemptions" in
  _ ← differs (fun x => String.eqb (rd_id x) id) ["id"];
  _ ← differs (fun x => String.eqb (rd_qrPaymentRequestId x) (rd_qrPaymentRequestId r)) ["qrPaymentRequestId"];
  _ ← differs (fun x => String.eqb (rd_displayReference x) (rd_displayReference r)) ["displayReference"];
  _ ← differs (fun x => String.eqb (rd_intentTokenHash x) (rd_intentTokenHash r)) ["intentTokenHash"];
  _ ← differs (fun x => String.eqb (rd_senderCustomerId x) (rd_senderCustomerId r)
                        && String.eqb (rd_idempotencyKeyHash x) (rd_idempotencyKeyHash r))
        ["senderCustomerId"; "idempotencyKeyHash"];
  _ ← pay_check (existsb (fun q => String.eqb (qr_id q) (rd_qrPaymentRequestId r)) (qrPaymentRequests db)
                 && pg_uuid (rd_senderCustomerId r) && pg_uuid (rd_senderAccountId r)
                 && fits 24 (rd_senderMaskedReference r) && int64_ok (rd_amountMinor r)) "qr_redemptions";
  modify (set_redemptions (fun l => l ++ [r])).
(** [qrRedemption.update] *)
Definition update_redemption (id : string) (f : QrRedemption -> QrRedemption) : PayM QrRedemption :=
  db ← get;
  old ← require (find_row rd_id id (qrRedemptions db)) (PayDbError "P2025");
  let r := f old in
  let others same := pay_unique (qrRedemptions db)
    (fun x => negb (String.eqb (rd_id x) id) && same x) "qr_redemptions" in
  _ ← others (fun x => String.eqb (rd_senderCustomerId x) (rd_senderCustomerId r)
                       && String.eqb (rd_idempotencyKeyHash x) (rd_idempotencyKeyHash r))
        ["senderCustomerId"; "idempotencyKeyHash"];
  _ ← others (fun x => same_journal (rd_ledgerJournalId x) (rd_ledgerJournalId r)) ["ledgerJournalId"];
  _ ← pay_check (int64_ok (default 0 (rd_senderBalanceAfterMinor r))
                 && int64_ok (default 0 (rd_recipientBalanceAfterMinor r))) "qr_redemptions";
  _ ← modify (set_redemptions (update_row rd_id id (fun _ => r)));
  mret r.
End Statements.

Section Service.
Context {Env : Type} {peers : Peers Env} {zod : Zod} {crypto : Crypto} {pg : Postgres} {hmac : Hmac}.
Abbreviation PayS := (M (System PaymentsDb Env) PaymentsErr).
Variable config : PaymentsConfig.
Variable now : Z.

(** ** Issuing *)
Definition qr_ttl (type : QrType) : Z :=
  match type with
  | DYNAMIC => qrDynamicTtlSeconds config * 1000
  | STATIC => qrStaticTtlHours config * 3600 * 1000
  end.

(** [issue(input)]: [nonce] and [correlationId] come from the random source. *)
Definition issue (nonce correlationId : string) (input : QrIssueInput) : PayS QrIssued :=
  account ← try_catch (getAccountDetail (qi_accountId input) (qi_customerId input) correlationId)
    (fun e => match e with
              | LedgerCallError status _ =>
                  if status =? 404 then throw (PaymentsError "ACCOUNT_NOT_FOUND" "Account not found." 404)
                  else throw e
              | _ => throw e
              end);
  let expiresAt := now + qr_ttl (qi_type input) in
  let signed := signQrPayload
    (mkQrPayload QR_PROTOCOL_VERSION (ah_receivingReference account) (qi_currency input)
       (truthy (qi_amountMinor input)) nonce (toISOString expiresAt) (qi_type input)
       (truthy (qi_purpose input)) "aegis-qr-v1") (qrSigningKey config) in
  amount ← match truthy (qi_amountMinor input) with
           | Some a => z ← require (BigInt_of a) (PayJsError "SyntaxError"); mret (Some z)
           | None => mret None
           end;
  qr ← atomic (create_qr now (fun id =>
    mkQrRequest id (qi_type input) QR_ACTIVE (qi_customerId input) (qi_accountId input)
      (ah_maskedReference account) (ah_receivingReference account) (qi_currency input) amount
      (truthy (qi_purpose input)) (sha256 nonce) (sha256 (sq_signature signed)) expiresAt None now));
  mret (mkQrIssued (qr_id qr) (encodeQrPayload signed) (qi_type input) (toISOString expiresAt)).

(** ** Previewing a scanned code *)
Definition qr_error (code message : string) (status : Z) : PaymentsErr := PaymentsError code message status.

(** The checks on the scanned text, before the database is asked. *)
Definition check_payload (payload : string) : result PaymentsErr SignedQrPayload :=
  match decodeQrPayload payload with
  | None => Err (qr_error "QR_INVALID" "The QR code is malformed." 400)
  | Some p =>
      let d := sq_data p in
      if negb (qd_version d =? QR_PROTOCOL_VERSION) then
        Err (qr_error "QR_UNSUPPORTED_VERSION" "This QR version is not supported." 400)
      else if negb (verifyQrSignature p (qrSigningKey config)) then
        Err (qr_error "QR_INVALID_SIGNATURE" "QR signature verification failed." 400)
      else if match date_parse (qd_expiresAt d) with Some at_ => at_ <=? now | None => false end then
        Err (qr_error "QR_EXPIRED" "This QR code has expired." 410)
      else if negb (String.eqb (qd_currency d) "LKR") then
        Err (qr_error "QR_INVALID_CURRENCY" "Currency is not supported." 400)
      else match qd_amountMinor d with
           | None => Ok p
           | Some a =>
               match BigInt_of a with
               | None => Err (PayJsError "SyntaxError")
               | Some z => if z <=? 0 then Err (qr_error "QR_INVALID_AMOUNT" "Amount must be positive." 400)
                           else Ok p
               end
           end
  end.

Definition qr_preview (intentToken random redemptionCorrelation lookupCorrelation : string)
    (input : QrPreviewInput) : PayS QrPreview :=
  decoded ← lift_result (check_payload (qp_payload input));
  let d := sq_data decoded in
  record ← atomic (gets (fun db => find (fun q => String.eqb (qr_nonceHash q) (sha256 (qd_nonce d)))
                                         (qrPaymentRequests db)));
  record ← require record (qr_error "QR_INVALID" "QR code not found." 404);
  _ ← throw_when (bool_decide (qr_type record = DYNAMIC) && bool_decide (qr_status record = QR_REDEEMED))
        (qr_error "QR_ALREADY_REDEEMED" "This QR code has already been used." 409);
  _ ← throw_when (bool_decide (qr_status record = QR_EXPIRED) || bool_decide (qr_status record = QR_CANCELLED))
        (qr_error "QR_EXPIRED" "This QR code is no longer valid." 410);
  _ ← throw_when (String.eqb (qr_recipientCustomerId record) (qp_senderCustomerId input))
        (qr_error "SELF_TRANSFER" "You cannot pay yourself." 409);
  account ← try_catch
    (getAccountDetail (qp_sourceAccountId input) (qp_senderCustomerId input) lookupCorrelation)
    (fun _ => throw (qr_error "ACCOUNT_NOT_FOUND" "Sender account not found" 404));
  amount ← match qr_amountMinor record with
           | Some z => mret z
           | None => require (BigInt_of (default "0"%string (truthy (qd_amountMinor d)))) (PayJsError "SyntaxError")
           end;
  _ ← atomic (transaction (fun _ _ => None)
    (_ ← create_qr_event (mkChannelEvent (qr_id record) "QR_SCANNED" None None None now);
     create_redemption (fun id =>
       mkRedemption id (qr_id record) (newQrPaymentReference random) (qp_senderCustomerId input)
         (qp_sourceAccountId input) (ah_maskedReference account) (qr_recipientCustomerId record)
         (qr_recipientAccountId record) (qr_recipientMaskedReference record) (qr_currency record) amount
         QP_PROCESSING (sha256 intentToken) (sha256 ("temp-" +:+ intentToken)) (sha256 "pending")
         None None None redemptionCorrelation now None None)));
  mret (mkQrPreview (qr_id record) (qr_recipientMaskedReference record)
    ((fun z => mkMoney (qr_currency record) (bigint_to_string z)) <$> nonzero (qr_amountMinor record))
    (qr_purpose record) (qr_type record) (toISOString (qr_expiresAt record)) intentToken).

(** ** Settling a redemption *)
Definition qr_command (r : QrRedemption) (q : QrPaymentRequest) : InternalLedgerTransferCommand :=
  mkTransferCommand
    (mkTransferPreview (rd_senderCustomerId r) (rd_senderAccountId r) (qr_recipientPublicReference q)
       (bigint_to_string (rd_amountMinor r)) (rd_currency r))
    (rd_id r) (rd_displayReference r) ("qr-pay:" +:+ rd_id r).

Definition redemption_with (r : QrRedemption) (status : QrPaymentStatus) (keyHash requestHash : string)
    (journal : option string) (sender recipient completedAt failedAt : option Z) : QrRedemption :=
  mkRedemption (rd_id r) (rd_qrPaymentRequestId r) (rd_displayReference r) (rd_senderCustomerId r)
    (rd_senderAccountId r) (rd_senderMaskedReference r) (rd_recipientCustomerId r) (rd_recipientAccountId r)
    (rd_recipientMaskedReference r) (rd_currency r) (rd_amountMinor r) status (rd_intentTokenHash r)
    keyHash requestHash journal sender recipient (rd_correlationId r) (rd_createdAt r) completedAt failedAt.
Definition redemption_keyed (keyHash requestHash : string) (r : QrRedemption) : QrRedemption :=
  redemption_with r (rd_status r) keyHash requestHash (rd_ledgerJournalId r) (rd_senderBalanceAfterMinor r)
    (rd_recipientBalanceAfterMinor r) (rd_completedAt r) (rd_failedAt r).
Definition redemption_completed (res : InternalLedgerTransferResult) (r : QrRedemption) : QrRedemption :=
  redemption_with r QP_COMPLETED (rd_idempotencyKeyHash r) (rd_requestHash r) (Some (tr_journalId res))
    (Some (BigInt (minorUnits (tr_senderBalanceAfter res))))
    (Some (BigInt (minorUnits (tr_recipientBalanceAfter res)))) (Some now) (rd_failedAt r).
Definition redemption_failed (r : QrRedemption) : QrRedemption :=
  redemption_with r QP_FAILED (rd_idempotencyKeyHash r) (rd_requestHash r) (rd_ledgerJournalId r)
    (rd_senderBalanceAfterMinor r) (rd_recipientBalanceAfterMinor r) (rd_completedAt r) (Some now).
Definition qr_redeemed (q : QrPaymentRequest) : QrPaymentRequest :=
  mkQrRequest (qr_id q) (qr_type q) QR_REDEEMED (qr_recipientCustomerId q) (qr_recipientAccountId q)
    (qr_recipientMaskedReference q) (qr_recipientPublicReference q) (qr_currency q) (qr_amountMinor q)
    (qr_purpose q) (qr_nonceHash q) (qr_signatureHash q) (qr_expiresAt q) (Some now) (qr_createdAt q).

Definition qr_settle (r : QrRedemption) (q : QrPaymentRequest) (correlationId : string) : PayS QrRedemption :=
  let event type status code :=
    mkChannelEvent (rd_qrPaymentRequestId r) type (Some "PROCESSING"%string) (Some status) code now in
  try_catch
    (result ← ledger_transfer (qr_command r q) correlationId;
     updated ← atomic (update_redemption (rd_id r) (redemption_completed result));
     _ ← atomic (update_qr (rd_qrPaymentRequestId r) qr_redeemed);
     _ ← atomic (create_qr_event (event "COMPLETED" "COMPLETED" None)%string);
     mret updated)
    (fun e => match e with
              | LedgerCallError status code =>
                  if status <? 500 then
                    updated ← atomic (update_redemption (rd_id r) redemption_failed);
                    _ ← atomic (create_qr_event (event "FAILED" "FAILED" (Some (default "UNKNOWN" code)))%string);
                    mret updated
                  else mret r
              | _ => mret r
              end).

(** ** Confirmation *)
Definition qr_request_hash (senderCustomerId intentTokenHash : string) : string :=
  canonicalHash (JObj [("senderCustomerId", JStr senderCustomerId); ("intentTokenHash", JStr intentTokenHash)]).

Definition formatRedemption (r : QrRedemption) : RedemptionView :=
  mkRedemptionView (rd_id r) (rd_displayReference r) (rd_status r) (rd_senderMaskedReference r)
    (rd_recipientMaskedReference r) (mkMoney (rd_currency r) (bigint_to_string (rd_amountMinor r)))
    ((fun z => mkMoney (rd_currency r) (bigint_to_string z)) <$> nonzero (rd_senderBalanceAfterMinor r))
    (toISOString (rd_createdAt r)) (toISOString <$> rd_completedAt r).

(** The transaction of [confirm]: the redemption, its QR request, and whether
    the key was seen before. *)
Definition claim_redemption (input : QrConfirmInput) : PayM (QrRedemption * option QrPaymentRequest) :=
  let sender := qc_senderCustomerId input in
  let tokenHash := sha256 (qc_intentToken input) in
  let keyHash := sha256 (qc_idempotencyKey input) in
  existing ← gets (fun db => find (fun r => String.eqb (rd_senderCustomerId r) sender
                                           && String.eqb (rd_idempotencyKeyHash r) keyHash) (qrRedemptions db));
  match existing with
  | Some r =>
      _ ← throw_when (negb (String.eqb (rd_requestHash r) (qr_request_hash sender tokenHash)))
            (paymentsError "IDEMPOTENCY_CONFLICT");
      mret (r, None)
  | None =>
      r ← gets (fun db => find (fun r => String.eqb (rd_intentTokenHash r) tokenHash) (qrRedemptions db));
      r ← require r (qr_error "QR_INVALID" "Invalid or expired session." 400);
      q ← gets (fun db => find_row qr_id (rd_qrPaymentRequestId r) (qrPaymentRequests db));
      q ← require q (PayDbError "qr_redemptions_fkey");
      _ ← throw_when (negb (bool_decide (rd_status r = QP_PROCESSING)))
            (qr_error "QR_ALREADY_REDEEMED" "This QR code has already been processed." 409);
      _ ← throw_when ((qr_expiresAt q <=? now) || bool_decide (qr_status q = QR_EXPIRED))
            (qr_error "QR_EXPIRED" "This QR code has expired." 410);
      r ← update_redemption (rd_id r) (redemption_keyed keyHash (qr_request_hash sender tokenHash));
      mret (r, Some q)
  end.

Definition qr_confirm (input : QrConfirmInput) (correlationId : string) : PayS RedemptionView :=
  '(r, q) ← atomic (transaction (fun _ _ => None) (claim_redemption input));
  match q with
  | None => mret (formatRedemption r)
  | Some q => r ← qr_settle r q correlationId; mret (formatRedemption r)
  end.

(** ** Reading *)
Definition find_redemption (customerId qrId : string) : PayS QrRedemption :=
  r ← atomic (gets (fun db => find (fun r => String.eqb (rd_qrPaymentRequestId r) qrId
        && (String.eqb (rd_senderCustomerId r) customerId || String.eqb (rd_recipientCustomerId r) customerId))
        (qrRedemptions db)));
  require r (PaymentsError "TRANSFER_NOT_FOUND" "QR payment not found." 404).
Record RedemptionStatus := mkRedemptionStatus {
  rs_id : string;
  rs_displayReference : string;
  rs_status : QrPaymentStatus;
  rs_amount : Money;
  rs_createdAt : string;
  rs_completedAt : option string
}.
Definition qr_payment_status (customerId qrId : string) : PayS RedemptionStatus :=
  r ← find_redemption customerId qrId;
  mret (mkRedemptionStatus (rd_id r) (rd_displayReference r) (rd_status r)
          (mkMoney (rd_currency r) (bigint_to_string (rd_amountMinor r)))
          (toISOString (rd_createdAt r)) (toISOString <$> rd_completedAt r)).
(** [receipt]: the view, its receipt reference and the purpose. *)
Definition receipt (customerId qrId : string) : PayS (string * RedemptionView * option string) :=
  r ← find_redemption customerId qrId;
  q ← atomic (gets (fun db => find_row qr_id (rd_qrPaymentRequestId r) (qrPaymentRequests db)));
  q ← require q (PayDbError "qr_redemptions_fkey");
  mret ("RCPT-" +:+ rd_displayReference r, formatRedemption r, qr_purpose q).
End Service.
