(* ===== verification/ChannelRefusals.v ===== *)
(** * Transfer commands whose reference the Ledger refuses

    [internalLedgerTransferCommandSchema] accepts [AEGIS-TRF-...] references
    only; the QR and agent channels send references of their own. *)

From Stdlib Require Import ZArith Lia Ascii String.
From stdpp Require Import base strings list gmap.
From S2P Require Import Prelude.
From S2P Require Import Js.
From S2P Require Import Regex.
From S2P Require Import Contracts.
From S2P Require Import Security.
From S2P Require Import LedgerDb.
From S2P Require Import Idempotency.
From S2P Require Import CustomerTransfer.
From S2P Require Import RiskTypes.
From S2P Require Import Services.
From S2P Require Import PaymentsDb.
From S2P Require Import Peers.

Open Scope Z_scope.

Definition foreign (reference : string) : Prop := transferDisplayReferenceSchema reference = None.

Lemma empty_matches s : rx_match Empty s = false.
Proof. by induction s. Qed.
Lemma foreign_qrp s : foreign ("AEGIS-QRP-" +:+ s).
Proof.
  unfold foreign, transferDisplayReferenceSchema, z_regex. rewrite !str_app_cons, str_app_nil_l.
  assert (rx_match transferDisplayReference_rx (String "A" (String "E" (String "G" (String "I" (String "S"
    (String "-" (String "Q" (String "R" (String "P" (String "-" s)))))))))) = false) as ->; [|done].
  apply (empty_matches (String "R" (String "P" (String "-" s)))).
Qed.
Lemma foreign_agt s : foreign ("AEGIS-AGT-" +:+ s).
Proof.
  unfold foreign, transferDisplayReferenceSchema, z_regex. rewrite !str_app_cons, str_app_nil_l.
  assert (rx_match transferDisplayReference_rx (String "A" (String "E" (String "G" (String "I" (String "S"
    (String "-" (String "A" (String "G" (String "T" (String "-" s)))))))))) = false) as ->; [|done].
  apply (empty_matches (String "G" (String "T" (String "-" s)))).
Qed.

(** ** A request during which the ledger stands still

    The other requests of the service keep [P] and do what they want. *)
Abbreviation any_rely := (fun _ _ : PaymentsDb => True).
Definition Still (P : PaymentsDb -> Prop) (w : World) (s : System PaymentsDb Net) : Prop :=
  sys_ok P any_rely s /\ net_ledger (senv s) = w.
Section Still.
Variable P : PaymentsDb -> Prop.
Variable w : World.
Abbreviation still := (Still P w).
Lemma atomic_still {A} (m : PayM A) (Q : A -> Prop) :
  (forall db, P db -> match m db with
                      | (Ok a, db') => P db' /\ Q a
                      | (Err _, db') => P db'
                      end) ->
  triple still (atomic m) (fun a s => still s /\ Q a) (fun _ => still).
Proof.
  intros Hm [db net fs] [[Hdb Hfs] Hw]. unfold atomic, Still, sys_ok. cbn in *.
  destruct fs as [|g fs].
  - specialize (Hm db Hdb). destruct (m db) as [[a|e] db']; cbn; tauto.
  - inversion Hfs as [|? ? Hg Hrest]; subst. specialize (Hm (g db) (proj1 (Hg db Hdb))).
    destruct (m (g db)) as [[a|e] db']; cbn; tauto.
Qed.
Lemma quiet_step {A} (m : PayM A) : preserves P m ->
  triple still (atomic m) (fun _ => still) (fun _ => still).
Proof.
  intros Hm. eapply triple_conseq; [apply (atomic_still m (fun _ => True))|done| |done].
  - intros db Hdb. specialize (Hm db Hdb). by destruct (m db) as [[a|e] db'].
  - by intros a s [Hs _].
Qed.
End Still.

Section Refused.
Context {zod : Zod} {crypto : Crypto} {pg : Postgres}.
Variable ledger_config : LedgerConfig.
Variable ledger_now : Z.
Variable risk_check : ControlCheckRequest -> HttpReply ControlCheckResponse.
Variable risk_evaluate : RiskEvaluationRequest -> HttpReply RiskAssessment.
#[local] Instance refusing_network : Peers Net := ledger_network ledger_config ledger_now risk_check risk_evaluate.

Lemma foreign_command c : foreign (tc_transferReference c) -> internalLedgerTransferCommandSchema c = None.
Proof.
  intros H. unfold internalLedgerTransferCommandSchema, foreign in *.
  destruct (internalTransferPreviewSchema _); [|done]. cbn. destruct (z_uuid _); [|done]. by rewrite H.
Qed.
Lemma foreign_transfer c corr net : foreign (tc_transferReference c) ->
  net_ledger (post_transfer c corr net).2 = net_ledger net /\
  forall body, (post_transfer c corr net).1 <> Success body.
Proof.
  intros H. change (post_transfer c corr) with (exchange (transfer_endpoint ledger_config ledger_now c corr)).
  assert (He : forall w, transfer_endpoint ledger_config ledger_now c corr w = (Err invalidRequestError, w))
    by (intros w; unfold transfer_endpoint; by rewrite (foreign_command c H)).
  unfold exchange. destruct (net_faults net) as [|[] fs]; rewrite ?He; by split.
Qed.

(** [LedgerClient.transfer] with such a command throws, and the ledger is as it was. *)
Lemma refused_call {T} (call : Net -> HttpReply T * Net) schema (w : World) (P : PaymentsDb -> Prop) :
  (forall net, net_ledger (call net).2 = net_ledger net /\ forall body, (call net).1 <> Success body) ->
  triple (Still P w) (ledger_call call schema) (fun _ _ => False) (fun _ => Still P w).
Proof.
  intros H [db net fs] [Hok Hw]. unfold ledger_call, ask, remote, mbind, M_bind, Still. cbn.
  destruct (H net) as [Hl Hs]. destruct (call net) as [r net'] eqn:Hp. cbn in *.
  destruct r as [body|st co|]; [by destruct (Hs body)|..]; cbn; (split; [exact Hok|congruence]).
Qed.
Lemma foreign_call c corr (w : World) (P : PaymentsDb -> Prop) :
  foreign (tc_transferReference c) ->
  triple (Still P w) (ledger_transfer c corr) (fun _ _ => False) (fun _ => Still P w).
Proof. intros H. apply refused_call. intros net. by apply foreign_transfer. Qed.
End Refused.
