(* ===== verification/QrProofs.v ===== *)
(** * Properties of QR payments *)

From Stdlib Require Import ZArith Lia Ascii String.
From stdpp Require Import base strings list gmap sorting.
From S2P Require Import Prelude.
From S2P Require Import Js.
From S2P Require Import Codec.
From S2P Require Import Regex.
From S2P Require Import Contracts.
From S2P Require Import Security.
From S2P Require Import LedgerDb.
From S2P Require Import Idempotency.
From S2P Require Import CustomerTransfer.
From S2P Require Import RiskTypes.
From S2P Require Import Services.
From S2P Require Import PaymentsDb.
From S2P Require Import Peers.
From S2P Require Import ChannelRefusals.
From S2P Require Import PaymentTransfers.
From S2P Require Import PaymentsInv.
From S2P Require Import QrPayments.

Open Scope Z_scope.

(** ** The scanned text *)
Section Preview.
Context {Env : Type} {peers : Peers Env} {zod : Zod} {crypto : Crypto} {pg : Postgres} {hmac : Hmac}.
Variable config : PaymentsConfig.
Variable now : Z.

(** Checked by the service and signed with its key; an expiry that is no date is
    not compared with the clock. *)
Definition valid_payload (text : string) (p : SignedQrPayload) : Prop :=
  decodeQrPayload text = Some p /\ qd_version (sq_data p) = QR_PROTOCOL_VERSION /\
  verifyQrSignature p (qrSigningKey config) = true /\ qd_currency (sq_data p) = "LKR"%string /\
  (forall t, date_parse (qd_expiresAt (sq_data p)) = Some t -> now < t) /\
  (forall a, qd_amountMinor (sq_data p) = Some a -> exists z, BigInt_of a = Some z /\ 0 < z).

Lemma check_payload_ok text p : check_payload config now text = Ok p -> valid_payload text p.
Proof.
  unfold check_payload, valid_payload. destruct (decodeQrPayload text) as [d|]; [|done].
  destruct (negb _) eqn:Hv; [done|]. destruct (negb _) eqn:Hs in |- *; [done|].
  destruct (match date_parse _ with Some _ => _ | None => _ end) eqn:He; [done|].
  destruct (negb _) eqn:Hc in |- *; [done|]. intros H.
  assert (p = d /\ forall a, qd_amountMinor (sq_data d) = Some a -> exists z, BigInt_of a = Some z /\ 0 < z) as [-> Ha].
  { destruct (qd_amountMinor (sq_data d)) as [a|]; [|by injection H].
    destruct (BigInt_of a) as [z|] eqn:Hz; [|done]. destruct (Z.leb_spec z 0); [done|]. injection H as ->.
    split; [done|]. intros a' [= <-]. by exists z. }
  bool_to_Z. repeat split; try done. intros t Ht. rewrite Ht in He. by bool_to_Z.
Qed.

Lemma create_qr_event_ok e db u db' : create_qr_event e db = (Ok u, db') ->
  db' = set_qr_events (fun l => l ++ [e]) db.
Proof. unfold create_qr_event, pay_check. intros H. by run. Qed.
Lemma create_redemption_ok mk db u db' : create_redemption mk db = (Ok u, db') ->
  let r := mk (uuid (pay_uuidCounter db)) in
  qrRedemptions db' = qrRedemptions db ++ [r] /\ qrPaymentRequests db' = qrPaymentRequests db /\
  (forall x, x ∈ qrRedemptions db -> rd_qrPaymentRequestId x <> rd_qrPaymentRequestId r).
Proof.
  unfold create_redemption, pay_uuid, pay_unique, pay_check. intros H.
  apply bind_Ok_inv in H as (id & db1 & [= <- <-] & H). run. cbn in *. repeat split.
  intros x Hx He.
  match goal with H : existsb (fun x => String.eqb (rd_qrPaymentRequestId x) _) _ = false |- _ =>
    pose proof (existsb_none _ _ x H Hx) as Hne end.
  cbn in Hne. by rewrite He, String.eqb_refl in Hne.
Qed.

Lemma account_lookup (db : PaymentsDb) env account customer corr (h : PaymentsErr -> PaymentsErr) a s' :
  try_catch (getAccountDetail account customer corr) (fun e => throw (h e)) (alone db env) = (Ok a, s') ->
  exists env', s' = alone db env'.
Proof.
  unfold try_catch, getAccountDetail, unchecked_call.
  rewrite (bind_Ok _ _ _ _ _ _ _ (ask_alone (get_account account customer corr) db env)).
  destruct (get_account _ _ _ env).1 as [[b|]|st c|]; cbn; try discriminate. intros [= _ <-]. eauto.
Qed.

(** What a preview adds: the redemption of this sender for this code. *)
Definition redemption_for (input : QrPreviewInput) (p : SignedQrPayload) (q : QrPaymentRequest) (token : string)
    (r : QrRedemption) : Prop :=
  rd_qrPaymentRequestId r = qr_id q /\ rd_senderCustomerId r = qp_senderCustomerId input /\
  rd_senderAccountId r = qp_sourceAccountId input /\ rd_recipientCustomerId r = qr_recipientCustomerId q /\
  rd_recipientAccountId r = qr_recipientAccountId q /\ rd_currency r = qr_currency q /\
  rd_status r = QP_PROCESSING /\ rd_intentTokenHash r = sha256 token /\
  (forall z, qr_amountMinor q = Some z -> rd_amountMinor r = z).

Lemma preview_run token random corr1 corr2 input db env v s' :
  qr_preview config now token random corr1 corr2 input (alone db env) = (Ok v, s') ->
  exists p q r, valid_payload (qp_payload input) p /\
    q ∈ qrPaymentRequests db /\ qr_nonceHash q = sha256 (qd_nonce (sq_data p)) /\
    qr_recipientCustomerId q <> qp_senderCustomerId input /\
    qr_status q <> QR_EXPIRED /\ qr_status q <> QR_CANCELLED /\
    redemption_for input p q token r /\
    qrRedemptions (sdb s') = qrRedemptions db ++ [r] /\
    (forall x, x ∈ qrRedemptions db -> rd_qrPaymentRequestId x <> qr_id q).
Proof.
  unfold qr_preview. intros H. run.
  match goal with H : check_payload _ _ _ = Ok ?p |- _ => rename p into payload; apply check_payload_ok in H as Hp end.
  match goal with H : atomic (gets _) _ = _ |- _ => rewrite atomic_alone in H; cbn in H; injection H as Hfind <- end.
  match goal with H : try_catch _ _ _ = _ |- _ =>
    apply (account_lookup db env _ _ _ (fun _ => qr_error "ACCOUNT_NOT_FOUND" "Sender account not found" 404))
      in H as [env' ->] end.
  match goal with H : match qr_amountMinor q with _ => _ end _ = (Ok ?z, ?s) |- _ =>
    rename z into amount; assert (s = alone db env' /\ forall z, qr_amountMinor q = Some z -> amount = z) as [-> Hamount];
    [destruct (qr_amountMinor q); [injection H as -> <-; split; [done|by intros ? [= ->]]
                                  |apply require_state in H as ->; by split]|clear H] end.
  match goal with H : atomic (transaction _ ?m) _ = _ |- _ => rewrite atomic_alone in H; rename H into Ht;
    destruct (transaction (fun _ _ => None) m db) as [res db'] eqn:Htx end.
  cbn in Ht. injection Ht as -> <-. apply transaction_Ok_inv in Htx as [Htx _].
  apply bind_Ok_inv in Htx as (u & db1 & He & Hc). apply create_qr_event_ok in He as ->.
  apply create_redemption_ok in Hc as (Hrows & _ & Hnew). cbn in Hrows, Hnew.
  apply find_some in Hfind as [Hq%list_elem_of_In Hnonce]. bool_to_Z.
  exists payload, q. eexists. split; [done|]. split; [done|]. split; [done|]. split; [done|].
  split; [done|]. split; [done|]. split; [|split; [exact Hrows|exact Hnew]].
  by repeat split.
Qed.

(** C24: a preview succeeds only for a payload whose signature the service's key
    verifies, in LKR, whose expiry is in the future if it can be read as a date,
    whose code is on record, neither expired nor cancelled there, and belongs to
    someone else; it adds one redemption whose recipient comes from the record,
    never from the text. An expiry that is no date passes, and a signature can be
    had for one: [expiry_evaded] of ChannelWitnesses previews an expired code. *)
Theorem qr_preview_sound token random corr1 corr2 input db env v s' :
  qr_preview config now token random corr1 corr2 input (alone db env) = (Ok v, s') ->
  exists p q r, valid_payload (qp_payload input) p /\
    q ∈ qrPaymentRequests db /\ qr_nonceHash q = sha256 (qd_nonce (sq_data p)) /\
    qr_recipientCustomerId q <> qp_senderCustomerId input /\
    qr_status q <> QR_EXPIRED /\ qr_status q <> QR_CANCELLED /\
    redemption_for input p q token r /\
    qrRedemptions (sdb s') = qrRedemptions db ++ [r] /\
    (forall x, x ∈ qrRedemptions db -> rd_qrPaymentRequestId x <> qr_id q).
Proof. apply preview_run. Qed.

(** Any code can be previewed once: after one preview, confirmed or not, every
    later preview of the code fails for every customer. The code means this for
    dynamic codes only. *)
Theorem qr_single_preview token random corr1 corr2 input db env q x p :
  NoDup (qr_nonceHash <$> qrPaymentRequests db) ->
  check_payload config now (qp_payload input) = Ok p ->
  q ∈ qrPaymentRequests db -> qr_nonceHash q = sha256 (qd_nonce (sq_data p)) ->
  x ∈ qrRedemptions db -> rd_qrPaymentRequestId x = qr_id q ->
  exists e s', qr_preview config now token random corr1 corr2 input (alone db env) = (Err e, s').
Proof.
  intros Hn Hp Hq Hnonce Hx Hxq.
  destruct (qr_preview config now token random corr1 corr2 input (alone db env)) as [[v|e] s'] eqn:H; [|eauto].
  apply preview_run in H as (p' & q' & r & Hp' & Hq' & Hnonce' & _ & _ & _ & _ & _ & Hno). exfalso.
  assert (p' = p) as -> by (apply check_payload_ok in Hp; destruct Hp as [Hd _], Hp' as [Hd' _]; congruence).
  apply (Hno x Hx). rewrite Hxq. f_equal.
  apply list_elem_of_lookup in Hq as [i Hi], Hq' as [j Hj].
  assert (i = j) as ->; [|congruence].
  apply (NoDup_lookup (qr_nonceHash <$> qrPaymentRequests db) i j (qr_nonceHash q)); [done|..].
  - by rewrite list_lookup_fmap, Hi.
  - rewrite list_lookup_fmap, Hj. cbn. by rewrite Hnonce, Hnonce'.
Qed.
End Preview.

(** ** Redemptions never complete *)
Section Refused.
Context {zod : Zod} {crypto : Crypto} {pg : Postgres} {hmac : Hmac}.
Variable ledger_config : LedgerConfig.
Variable ledger_now : Z.
Variable risk_check : ControlCheckRequest -> HttpReply ControlCheckResponse.
Variable risk_evaluate : RiskEvaluationRequest -> HttpReply RiskAssessment.
Variable config : PaymentsConfig.
#[local] Instance qr_network : Peers Net := ledger_network ledger_config ledger_now risk_check risk_evaluate.

Definition pending_row (r : QrRedemption) : Prop :=
  foreign (rd_displayReference r) /\ rd_status r <> QP_COMPLETED.
Definition qr_pending (db : PaymentsDb) : Prop := forall r, r ∈ qrRedemptions db -> pending_row r.
Abbreviation ok := (sys_ok (Env := Net) qr_pending any_rely).

Lemma update_redemption_pending id f db :
  (forall r, pending_row r -> pending_row (f r)) -> qr_pending db ->
  match update_redemption id f db with
  | (Ok r, db') => qr_pending db' /\ pending_row r
  | (Err _, db') => qr_pending db'
  end.
Proof.
  intros Hf Hdb. destruct (update_redemption id f db) as [[r|e] db'] eqn:H.
  - unfold update_redemption, pay_unique, pay_check in H. run.
    match goal with H : find_row _ _ _ = Some ?old |- _ => apply find_row_spec in H as [Hin _]; pose proof (Hf _ (Hdb _ Hin)) as Hr end.
    split; [|exact Hr]. intros x Hx. apply update_row_elem in Hx as [[Hx _]|(y & _ & _ & ->)]; [by apply Hdb|exact Hr].
  - unfold update_redemption, get, require, pay_unique, pay_check, throw_when, throw, modify, mbind, M_bind, mret, M_ret in H.
    repeat case_match; by simplify_eq.
Qed.
Abbreviation still w := (Still qr_pending w).
Lemma update_redemption_ok id f (w : World) : (forall r, pending_row r -> pending_row (f r)) ->
  triple (still w) (atomic (update_redemption id f)) (fun r s => still w s /\ pending_row r) (fun _ => still w).
Proof. intros Hf. apply atomic_still. intros db. by apply update_redemption_pending. Qed.
Lemma update_qr_keeps id f : preserves qr_pending (update_qr id f).
Proof.
  intros db Hdb. unfold update_qr, get, require, modify, throw, mbind, M_bind, mret, M_ret.
  by destruct (find_row qr_id id (qrPaymentRequests db)).
Qed.
Lemma create_qr_event_keeps e : preserves qr_pending (create_qr_event e).
Proof.
  intros db Hdb. unfold create_qr_event, pay_check, throw_when, get, modify, throw, mbind, M_bind, mret, M_ret.
  by destruct (negb _).
Qed.

Lemma failed_pending now r : pending_row r -> pending_row (redemption_failed now r).
Proof. by intros [H _]. Qed.
Lemma keyed_pending keyHash hash r : pending_row r -> pending_row (redemption_keyed keyHash hash r).
Proof. done. Qed.

Lemma qr_settle_refused now r q corr w : pending_row r ->
  triple (still w) (qr_settle now r q corr) (fun r' s => still w s /\ pending_row r') (fun _ => still w).
Proof.
  intros Hr. eapply (triple_catch _ _ _ _ _ _ (fun _ => still w)).
  - eapply triple_bind; [by apply foreign_call, Hr|]. intros res s [].
  - intros e. destruct e as [| st code | | |]; try (apply triple_ret; by intros s Hs).
    destruct (st <? 500); [|apply triple_ret; by intros s Hs].
    eapply triple_bind; [apply update_redemption_ok, failed_pending|]. intros r' s [Hs Hr'].
    eapply (triple_bind _ _ (still w) _ _ (fun _ => still w)); [apply quiet_step, create_qr_event_keeps|..| |exact Hs].
    intros u. apply triple_ret. by intros s1 Hs1.
Qed.

Lemma claim_pending now input db : qr_pending db ->
  match transaction (fun _ _ => None) (claim_redemption now input) db with
  | (Ok rq, db') => qr_pending db' /\ pending_row rq.1
  | (Err _, db') => qr_pending db'
  end.
Proof.
  intros Hdb. destruct (transaction _ _ db) as [[[r q]|e] db'] eqn:H; [|by apply transaction_err in H as ->].
  apply transaction_Ok_inv in H as [H _]. unfold claim_redemption in H. run.
  destruct (find _ (qrRedemptions db)) as [x|] eqn:Hf; run.
  - apply find_some in Hf as [Hin _]. subst. split; [exact Hdb|by apply Hdb, list_elem_of_In].
  - match goal with H : update_redemption ?id ?f ?d = _ |- _ =>
      pose proof (update_redemption_pending id f d (keyed_pending _ _) Hdb) as Hu; rewrite H in Hu end.
    by subst.
Qed.

Lemma confirm_refused now input corr w :
  triple (still w) (qr_confirm now input corr)
    (fun v s => still w s /\ rv_status v <> QP_COMPLETED) (fun _ => still w).
Proof.
  unfold qr_confirm. eapply (triple_bind _ _ _ _ _ (fun rq s => still w s /\ pending_row rq.1)).
  - apply atomic_still, claim_pending.
  - intros [r q] s [Hs Hr]. destruct q as [q|]; [|split; [exact Hs|apply Hr]].
    eapply (triple_bind _ _ (still w)); [by apply qr_settle_refused|..|exact Hs].
    intros r'. apply triple_ret. intros s' [Hs' Hr']. split; [exact Hs'|apply Hr'].
Qed.

(** ** Issuing and previewing *)
Lemma create_redemption_pending mk : (forall id, pending_row (mk id)) -> preserves qr_pending (create_redemption mk).
Proof.
  intros Hmk db Hdb. destruct (create_redemption mk db) as [[u|e] db'] eqn:H.
  - apply create_redemption_ok in H as (Hrows & _ & _). intros r. rewrite Hrows.
    intros [Hr|Hr%list_elem_of_singleton]%elem_of_app; [by apply Hdb|by subst].
  - assert (qrRedemptions db' = qrRedemptions db) as Heq; [|unfold qr_pending; by rewrite Heq].
    unfold create_redemption, pay_uuid, pay_unique, pay_check, throw_when, get, modify, throw, mbind, M_bind, mret, M_ret in H.
    repeat (case_match; try discriminate); by simplify_eq.
Qed.
Lemma create_qr_pending now mk : preserves qr_pending (create_qr now mk).
Proof.
  intros db Hdb. assert (Heq : qrRedemptions (create_qr now mk db).2 = qrRedemptions db).
  { unfold create_qr, create_qr_event, pay_uuid, pay_unique, pay_check, throw_when, get, modify, throw, mbind, M_bind, mret, M_ret.
    repeat case_match; by simplify_eq. }
  destruct (create_qr now mk db) as [[u|e] db']; unfold qr_pending; cbn in Heq; by rewrite Heq.
Qed.
Lemma account_keeps account customer corr : preserves ok (getAccountDetail account customer corr).
Proof.
  apply preserves_bind; [apply preserves_remote|]. intros [[b|]|st c|]; auto with preserve.
Qed.

Lemma qr_preview_pending now token random corr1 corr2 input :
  preserves ok (qr_preview config now token random corr1 corr2 input).
Proof.
  apply preserves_bind; [auto with preserve|intros decoded].
  apply preserves_bind; [apply preserves_atomic, preserves_gets|intros o].
  do 4 (apply preserves_bind; [auto with preserve|intros ?]).
  apply preserves_bind; [apply preserves_catch; [apply account_keeps|auto with preserve]|intros account].
  apply preserves_bind; [destruct (qr_amountMinor _); auto with preserve|intros amount].
  apply preserves_bind; [|auto with preserve].
  apply preserves_atomic, preserves_transaction. intros d u d' Hd H _.
  apply bind_Ok_inv in H as ([] & d1 & He & Hc). apply create_qr_event_ok in He as ->.
  match type of Hc with create_redemption ?mk _ = _ =>
    pose proof (create_redemption_pending mk) as Hk; specialize (Hk ltac:(intros id; split; [apply foreign_qrp|done]));
    specialize (Hk (set_qr_events (fun l => l ++ [mkChannelEvent (qr_id a) "QR_SCANNED" None None None now]) d) Hd);
    by rewrite Hc in Hk end.
Qed.
Lemma issue_pending now nonce corr input : preserves ok (issue config now nonce corr input).
Proof.
  apply preserves_bind.
  { apply preserves_catch; [apply account_keeps|]. intros [| st c | | |]; auto with preserve.
    destruct (st =? 404); auto with preserve. }
  intros account. cbv zeta. apply preserves_bind.
  { destruct (truthy _); [|auto with preserve]. apply preserves_bind; auto with preserve. }
  intros amount. apply preserves_bind; [apply preserves_atomic, create_qr_pending|auto with preserve].
Qed.

(** Any sequence of QR requests, each among other requests that keep what the
    channel promises, over any network faults. *)
Inductive qr_reached : PaymentsDb -> Net -> Prop :=
| reached_start db net : qrRedemptions db = [] -> qr_reached db net
| reached_issue now nonce corr input db net others : qr_reached db net ->
    Forall (fun f => forall d, qr_pending d -> qr_pending (f d) /\ True) others ->
    let s := (issue config now nonce corr input (mkSystem db net others)).2 in qr_reached (sdb s) (senv s)
| reached_preview now token random corr1 corr2 input db net others : qr_reached db net ->
    Forall (fun f => forall d, qr_pending d -> qr_pending (f d) /\ True) others ->
    let s := (qr_preview config now token random corr1 corr2 input (mkSystem db net others)).2 in
    qr_reached (sdb s) (senv s)
| reached_confirm now input corr db net others : qr_reached db net ->
    Forall (fun f => forall d, qr_pending d -> qr_pending (f d) /\ True) others ->
    let s := (qr_confirm now input corr (mkSystem db net others)).2 in qr_reached (sdb s) (senv s).

Lemma keeps_pending {A} (m : M (System PaymentsDb Net) PaymentsErr A) db net others :
  preserves ok m -> qr_pending db -> Forall (fun f => forall d, qr_pending d -> qr_pending (f d) /\ True) others ->
  qr_pending (sdb (m (mkSystem db net others)).2).
Proof.
  intros Hm Hdb Ho. specialize (Hm (mkSystem db net others) (conj Hdb Ho)). by destruct (m _) as [[a|e] s]; apply Hm.
Qed.
Lemma reached_pending db net : qr_reached db net -> qr_pending db.
Proof.
  induction 1 as [db net H| | |now input corr db net others Hr IH Ho]; [|cbv zeta in *..].
  - intros r Hin. rewrite H in Hin. by apply not_elem_of_nil in Hin.
  - apply keeps_pending; [apply issue_pending|done..].
  - apply keeps_pending; [apply qr_preview_pending|done..].
  - apply keeps_pending; [|done..]. intros [d n fs] Hs.
    pose proof (confirm_refused now input corr (net_ledger n) (mkSystem d n fs) (conj Hs eq_refl)) as Hc.
    destruct (qr_confirm now input corr (mkSystem d n fs)) as [[v'|e] s'']; apply Hc.
Qed.

(** C25: a QR payment never completes: in every state the QR service can reach
    against the Ledger, a confirmation reports no completion and leaves the
    ledger as it was, because the Ledger refuses the reference it sends. *)
Theorem qr_never_completes now input corr db net :
  qr_reached db net ->
  let '(r, s) := qr_confirm now input corr (alone db net) in
  net_ledger (senv s) = net_ledger net /\
  match r with Ok v => rv_status v <> QP_COMPLETED | Err _ => True end.
Proof.
  intros Hr. pose proof (confirm_refused now input corr (net_ledger net) (alone db net)) as H.
  assert (Hs : still (net_ledger net) (alone db net)) by (split; [split; [by eapply reached_pending|constructor]|done]).
  specialize (H Hs). destruct (qr_confirm _ _ _ _) as [[v|e] s]; unfold Still in H; tauto.
Qed.
End Refused.
