(* ===== verification/AgentCash.v ===== *)
(** * Agent cash operations ([services/payments/src/agent/agent.service.ts]) *)

From Stdlib Require Import ZArith Lia Ascii String.
From stdpp Require Import base strings list gmap sorting.
From S2P Require Import Prelude.
From S2P Require Import Js.
From S2P Require Import Codec.
From S2P Require Import Contracts.
From S2P Require Import Security.
From S2P Require Import Calendar.
From S2P Require Import Services.
From S2P Require Import RiskTypes.
From S2P Require Import LedgerDb.
From S2P Require Import Idempotency.
From S2P Require Import CustomerTransfer.
From S2P Require Import PaymentsDb.
From S2P Require Import Peers.
From S2P Require Import PaymentTransfers.
From S2P Require Import PaymentsInv.
From S2P Require Import ChannelRefusals.

Open Scope Z_scope.

Record AgentPreviewInput := mkAgentPreview {
  ap_agentId : string;
  ap_agentReference : string;
  ap_customerReference : string;
  ap_amountMinor : string;
  ap_currency : string;
  ap_operationType : AgentCashOperationType
}.
Record AgentPreview := mkAgentPreviewed {
  av_operationId : string;
  av_operationType : AgentCashOperationType;
  av_customerMaskedReference : string;
  av_agentReference : string;
  av_amount : Money;
  av_intentToken : string;
  av_expiresAt : string
}.
Record AgentConfirmInput := mkAgentConfirm {
  ac_agentId : string;
  ac_intentToken : string;
  ac_idempotencyKey : string
}.
Record OperationView := mkOperationView {
  ov_id : string;
  ov_displayReference : string;
  ov_operationType : AgentCashOperationType;
  ov_status : AgentCashOperationStatus;
  ov_customerMaskedReference : string;
  ov_agentReference : string;
  ov_amount : Money;
  ov_createdAt : string;
  ov_completedAt : option string
}.
Record AgentLimits := mkAgentLimits {
  al_agentReference : string;
  al_currency : string;
  al_minTransactionMinor : string;
  al_maxTransactionMinor : string;
  al_dailyCashInLimitMinor : string;
  al_dailyCashOutLimitMinor : string;
  al_dailyCashInUsedMinor : string;
  al_dailyCashOutUsedMinor : string;
  al_floatBalanceMinor : string;
  al_floatLimitMinor : string
}.

(** ** Statements *)
Section Statements.
Context {pg : Postgres}.
Definition create_agent_event (e : ChannelEvent) : PayM unit :=
  db ← get;
  _ ← pay_check (existsb (fun o => String.eqb (ag_id o) (ce_subject e)) (agentCashOperations db)) "agent_cash_events";
  modify (set_agent_events (fun l => l ++ [e])).

(** [agentCashOperation.create], with its nested event. *)
Definition create_operation (now : Z) (mk : string -> AgentCashOperation) : PayM AgentCashOperation :=
  id ← pay_uuid;
  db ← get;
  let o := mk id in
  let differs same := pay_unique (agentCashOperations db) same "agent_cash_operations" in
  _ ← differs (fun x => String.eqb (ag_id x) id) ["id"];
  _ ← differs (fun x => String.eqb (ag_displayReference x) (ag_displayReference o)) ["displayReference"];
  _ ← differs (fun x => String.eqb (ag_intentTokenHash x) (ag_intentTokenHash o)) ["intentTokenHash"];
  _ ← differs (fun x => String.eqb (ag_agentId x) (ag_agentId o)
                        && String.eqb (ag_idempotencyKeyHash x) (ag_idempotencyKeyHash o))
        ["agentId"; "idempotencyKeyHash"];
  _ ← pay_check (pg_uuid (ag_agentId o) && pg_uuid (ag_agentAccountId o) && pg_uuid (ag_customerCustomerId o)
                 && pg_uuid (ag_customerAccountId o) && pg_uuid (ag_correlationId o)
                 && fits 24 (ag_agentReference o) && fits 24 (ag_customerMaskedReference o)
                 && fits 24 (ag_customerPublicReference o) && fits 3 (ag_currency o)
                 && int64_ok (ag_amountMinor o)) "agent_cash_operations";
  _ ← modify (set_operations (fun l => l ++ [o]));
  _ ← create_agent_event (mkChannelEvent id "OPERATION_CREATED" None (Some "PENDING_CONFIRMATION"%string) None now);
  mret o.
(** [agentCashOperation.update] *)
Definition update_operation (id : string) (f : AgentCashOperation -> AgentCashOperation) : PayM AgentCashOperation :=
  db ← get;
  old ← require (find_row ag_id id (agentCashOperations db)) (PayDbError "P2025");
  let o := f old in
  let others same := pay_unique (agentCashOperations db)
    (fun x => negb (String.eqb (ag_id x) id) && same x) "agent_cash_operations" in
  _ ← others (fun x => String.eqb (ag_agentId x) (ag_agentId o)
                       && String.eqb (ag_idempotencyKeyHash x) (ag_idempotencyKeyHash o))
        ["agentId"; "idempotencyKeyHash"];
  _ ← others (fun x => same_journal (ag_ledgerJournalId x) (ag_ledgerJournalId o)) ["ledgerJournalId"];
  _ ← modify (set_operations (update_row ag_id id (fun _ => o)));
  mret o.
End Statements.

Section Service.
Context {Env : Type} {peers : Peers Env} {zod : Zod} {crypto : Crypto} {pg : Postgres}.
Abbreviation PayS := (M (System PaymentsDb Env) PaymentsErr).
Variable config : PaymentsConfig.
Variable now : Z.

Definition newAgentReference (random : string) : string := reference_of "AEGIS-AGT-" random.

(** ** Preview *)
Definition completed_today (agentId : string) (today : Z) (db : PaymentsDb) : Z :=
  sum_by ag_amountMinor (filter (fun o => ag_agentId o = agentId /\ ag_status o = AG_COMPLETED
                                          /\ today <= ag_createdAt o) (agentCashOperations db)).
(** [today.setUTCHours(0, 0, 0, 0)] *)
Definition midnight : Z := now / day_ms * day_ms.

Definition agent_preview (token random : string) (input : AgentPreviewInput) (correlationId : string)
  : PayS AgentPreview :=
  amount ← require (BigInt_of (ap_amountMinor input)) (PayJsError "SyntaxError");
  _ ← throw_when (amount <? minTransferMinor config)
        (PaymentsError "INVALID_REQUEST" "Amount is below minimum." 400);
  _ ← throw_when (maxTransferMinor config <? amount)
        (PaymentsError "LIMIT_EXCEEDED" "Amount exceeds maximum per transaction limit." 403);
  customer ← try_catch (resolveAccountByReference (ap_customerReference input) correlationId)
    (fun e => match e with
              | LedgerCallError status _ =>
                  if status =? 404 then throw (PaymentsError "ACCOUNT_NOT_FOUND" "Customer account not found." 404)
                  else throw e
              | _ => throw e
              end);
  dailyTotal ← atomic (gets (completed_today (ap_agentId input) midnight));
  _ ← throw_when (dailyOutgoingLimitMinor config <? dailyTotal + amount)
        (PaymentsError "LIMIT_EXCEEDED" "Daily agent limit exceeded." 403);
  let expiresAt := now + intentTtlSeconds config * 1000 in
  let reference := newAgentReference random in
  op ← atomic (create_operation now (fun id =>
    mkCashOperation id reference (ap_operationType input) AG_PENDING_CONFIRMATION (ap_agentId input)
      (ap_agentReference input) (ra_customerId customer) (ra_accountId customer) (ra_maskedReference customer)
      (ap_customerReference input) (ap_agentId input) (ap_currency input) amount (sha256 token)
      (sha256 ("temp-" +:+ reference)) (sha256 "pending") None correlationId expiresAt None now None None));
  mret (mkAgentPreviewed (ag_id op) (ag_operationType op) (ag_customerMaskedReference op) (ag_agentReference op)
    (mkMoney (ag_currency op) (bigint_to_string (ag_amountMinor op))) token (toISOString (ag_expiresAt op))).

(** ** Confirmation *)
Definition operation_with (o : AgentCashOperation) (status : AgentCashOperationStatus) (keyHash requestHash : string)
    (journal : option string) (confirmedAt completedAt failedAt : option Z) : AgentCashOperation :=
  mkCashOperation (ag_id o) (ag_displayReference o) (ag_operationType o) status (ag_agentId o)
    (ag_agentReference o) (ag_customerCustomerId o) (ag_customerAccountId o) (ag_customerMaskedReference o)
    (ag_customerPublicReference o) (ag_agentAccountId o) (ag_currency o) (ag_amountMinor o)
    (ag_intentTokenHash o) keyHash requestHash journal (ag_correlationId o) (ag_expiresAt o) confirmedAt
    (ag_createdAt o) completedAt failedAt.
Definition op_confirmed (keyHash requestHash : string) (o : AgentCashOperation) : AgentCashOperation :=
  operation_with o AG_PROCESSING keyHash requestHash (ag_ledgerJournalId o) (Some now) (ag_completedAt o) (ag_failedAt o).
Definition op_completed (journal : string) (o : AgentCashOperation) : AgentCashOperation :=
  operation_with o AG_COMPLETED (ag_idempotencyKeyHash o) (ag_requestHash o) (Some journal) (ag_confirmedAt o)
    (Some now) (ag_failedAt o).
Definition op_failed (o : AgentCashOperation) : AgentCashOperation :=
  operation_with o AG_FAILED (ag_idempotencyKeyHash o) (ag_requestHash o) (ag_ledgerJournalId o)
    (ag_confirmedAt o) (ag_completedAt o) (Some now).

Definition agent_request_hash (agentId tokenHash : string) : string :=
  canonicalHash (JObj [("agentId", JStr agentId); ("intentTokenHash", JStr tokenHash)]).

(** The transaction of [confirm]: the operation, and whether the key was seen. *)
Definition claim_operation (input : AgentConfirmInput) : PayM (AgentCashOperation * bool) :=
  let tokenHash := sha256 (ac_intentToken input) in
  let keyHash := sha256 (ac_idempotencyKey input) in
  let hash := agent_request_hash (ac_agentId input) tokenHash in
  existing ← gets (fun db => find (fun o => String.eqb (ag_agentId o) (ac_agentId input)
                                           && String.eqb (ag_idempotencyKeyHash o) keyHash) (agentCashOperations db));
  match existing with
  | Some o =>
      _ ← throw_when (negb (String.eqb (ag_requestHash o) hash)) (paymentsError "IDEMPOTENCY_CONFLICT");
      mret (o, true)
  | None =>
      op ← gets (fun db => find (fun o => String.eqb (ag_intentTokenHash o) tokenHash) (agentCashOperations db));
      op ← require op (PaymentsError "INVALID_REQUEST" "Operation not found or expired." 404);
      _ ← throw_when (negb (bool_decide (ag_status op = AG_PENDING_CONFIRMATION)))
            (PaymentsError "INVALID_REQUEST" "Operation already processed." 409);
      _ ← throw_when (ag_expiresAt op <=? now) (PaymentsError "INTENT_EXPIRED" "Operation has expired." 410);
      updated ← update_operation (ag_id op) (op_confirmed keyHash hash);
      _ ← create_agent_event (mkChannelEvent (ag_id op) "CUSTOMER_CONFIRMED" (Some "PENDING_CONFIRMATION"%string)
            (Some "PROCESSING"%string) None now);
      mret (updated, false)
  end.

Definition agent_command (o : AgentCashOperation) : InternalLedgerTransferCommand :=
  mkTransferCommand
    (mkTransferPreview "agent" (ag_agentAccountId o) (ag_customerPublicReference o)
       (bigint_to_string (ag_amountMinor o)) (ag_currency o))
    (ag_id o) (ag_displayReference o) ("agent-cash:" +:+ ag_id o).

Definition agent_settle (o : AgentCashOperation) (correlationId : string) : PayS AgentCashOperation :=
  let event type :=
    create_agent_event (mkChannelEvent (ag_id o) type (Some "PROCESSING"%string) (Some type) None now) in
  try_catch
    (result ← ledger_transfer (agent_command o) correlationId;
     updated ← atomic (update_operation (ag_id o) (op_completed (tr_journalId result)));
     _ ← atomic (event "COMPLETED"%string);
     mret updated)
    (fun e => match e with
              | LedgerCallError status _ =>
                  if status <? 500 then
                    updated ← atomic (update_operation (ag_id o) op_failed);
                    _ ← atomic (event "FAILED"%string);
                    mret updated
                  else mret o
              | _ => mret o
              end).

Definition formatOperation (o : AgentCashOperation) : OperationView :=
  mkOperationView (ag_id o) (ag_displayReference o) (ag_operationType o) (ag_status o)
    (ag_customerMaskedReference o) (ag_agentReference o)
    (mkMoney (ag_currency o) (bigint_to_string (ag_amountMinor o))) (toISOString (ag_createdAt o))
    (toISOString <$> ag_completedAt o).

Definition agent_confirm (input : AgentConfirmInput) (correlationId : string) : PayS OperationView :=
  '(o, replayed) ← atomic (transaction (fun _ _ => None) (claim_operation input));
  if replayed || negb (bool_decide (ag_status o = AG_PROCESSING)) then mret (formatOperation o)
  else o ← agent_settle o correlationId; mret (formatOperation o).

(** ** Reading *)
Definition agent_operation_status (agentId operationId : string) : PayS OperationView :=
  o ← atomic (gets (fun db => find (fun o => String.eqb (ag_id o) operationId && String.eqb (ag_agentId o) agentId)
                                   (agentCashOperations db)));
  o ← require o (PaymentsError "TRANSFER_NOT_FOUND" "Operation not found." 404);
  mret (formatOperation o).
Definition limits (agentReference : string) : AgentLimits :=
  let daily := bigint_to_string (dailyOutgoingLimitMinor config) in
  mkAgentLimits agentReference "LKR" (bigint_to_string (minTransferMinor config))
    (bigint_to_string (maxTransferMinor config)) daily daily "0" "0" "10000000" "50000000".
End Service.

(** * Properties of agent cash operations *)

Section Statements.
Context {pg : Postgres}.
Lemma create_operation_ok now mk db o db' : create_operation now mk db = (Ok o, db') ->
  o = mk (uuid (pay_uuidCounter db)) /\ agentCashOperations db' = agentCashOperations db ++ [o].
Proof.
  unfold create_operation, create_agent_event, pay_uuid, pay_unique, pay_check. intros H.
  apply bind_Ok_inv in H as (id & db1 & [= <- <-] & H). run. by subst.
Qed.
Lemma create_operation_err now mk db e db' : create_operation now mk db = (Err e, db') ->
  agentCashOperations db' = agentCashOperations db \/
  agentCashOperations db' = agentCashOperations db ++ [mk (uuid (pay_uuidCounter db))].
Proof.
  unfold create_operation, create_agent_event, pay_uuid, pay_unique, pay_check, throw_when, get, modify, throw,
    mbind, M_bind, mret, M_ret. intros H. repeat (case_match; try discriminate); simplify_eq; auto.
Qed.
Lemma update_operation_ok id f db o db' : update_operation id f db = (Ok o, db') ->
  exists old, find_row ag_id id (agentCashOperations db) = Some old /\ o = f old /\
    agentCashOperations db' = update_row ag_id id (fun _ => o) (agentCashOperations db).
Proof. unfold update_operation, pay_unique. intros H. run. by eexists. Qed.
Lemma update_operation_err id f db e db' : update_operation id f db = (Err e, db') -> db' = db.
Proof.
  unfold update_operation, get, require, pay_unique, throw_when, throw, modify, mbind, M_bind, mret, M_ret.
  intros H. repeat case_match; by simplify_eq.
Qed.
Lemma agent_event_rows e db r db' : create_agent_event e db = (r, db') ->
  agentCashOperations db' = agentCashOperations db.
Proof.
  unfold create_agent_event, pay_check, throw_when, get, modify, throw, mbind, M_bind, mret, M_ret.
  intros H. repeat case_match; by simplify_eq.
Qed.
End Statements.

(** ** Limits and single use *)
Section Operations.
Context {Env : Type} {peers : Peers Env} {zod : Zod} {crypto : Crypto} {pg : Postgres}.
Variable config : PaymentsConfig.
Variable now : Z.

Lemma resolve_db (db : PaymentsDb) env reference corr (h : PaymentsErr -> M (System PaymentsDb Env) PaymentsErr ResolvedAccount) a s' :
  (forall e s a s', h e s <> (Ok a, s')) ->
  try_catch (resolveAccountByReference reference corr) h (alone db env) = (Ok a, s') ->
  exists env', s' = alone db env'.
Proof.
  intros Hh. unfold try_catch, resolveAccountByReference, unchecked_call, ask, mbind, M_bind.
  rewrite remote_alone. destruct (get_resolve _ _ env) as [[[b|]|st c|] env']; cbn; intros H;
    try (by apply Hh in H). injection H as _ <-. by exists env'.
Qed.

(** An agent preview that succeeds is within the limits of one transaction
    and, with what the agent has completed today, of the day; it adds one
    operation that waits for its confirmation. *)
Theorem agent_preview_sound token random input corr db env v s' :
  agent_preview config now token random input corr (alone db env) = (Ok v, s') ->
  exists amount o, BigInt_of (ap_amountMinor input) = Some amount /\
    minTransferMinor config <= amount <= maxTransferMinor config /\
    completed_today (ap_agentId input) (midnight now) db + amount <= dailyOutgoingLimitMinor config /\
    agentCashOperations (sdb s') = agentCashOperations db ++ [o] /\
    ag_status o = AG_PENDING_CONFIRMATION /\ ag_amountMinor o = amount /\ ag_agentId o = ap_agentId input /\
    ag_intentTokenHash o = sha256 token /\ ag_ledgerJournalId o = None.
Proof.
  unfold agent_preview. intros H. run. bool_to_Z.
  match goal with H : try_catch _ _ _ = _ |- _ => apply resolve_db in H as [env' ->] end.
  2:{ intros e s a s'. by destruct e as [| st c | | |]; [..|destruct (st =? 404)| | |]. }
  match goal with H : atomic (gets _) _ = _ |- _ => rewrite atomic_alone in H; cbn in H; injection H as <- <- end.
  match goal with H : atomic (create_operation ?n ?mk) _ = _ |- _ => rewrite atomic_alone in H;
    destruct (create_operation n mk db) as [res db'] eqn:Hc; cbn in H; injection H as -> <- end.
  apply create_operation_ok in Hc as [-> Hrows]. 
  exists z. eexists. split; [done|]. split; [lia|]. split; [lia|]. split; [exact Hrows|]. by repeat split.
Qed.
End Operations.

(** ** Operations never complete *)
Section Refused.
Context {zod : Zod} {crypto : Crypto} {pg : Postgres}.
Variable ledger_config : LedgerConfig.
Variable ledger_now : Z.
Variable risk_check : ControlCheckRequest -> HttpReply ControlCheckResponse.
Variable risk_evaluate : RiskEvaluationRequest -> HttpReply RiskAssessment.
Variable config : PaymentsConfig.
#[local] Instance agent_network : Peers Net := ledger_network ledger_config ledger_now risk_check risk_evaluate.

Definition pending_operation (o : AgentCashOperation) : Prop :=
  foreign (ag_displayReference o) /\ ag_status o <> AG_COMPLETED.
Definition agent_pending (db : PaymentsDb) : Prop :=
  forall o, o ∈ agentCashOperations db -> pending_operation o.
Abbreviation ok := (sys_ok (Env := Net) agent_pending any_rely).
Abbreviation still w := (Still agent_pending w).

Lemma update_operation_pending id f db :
  (forall o, pending_operation o -> pending_operation (f o)) -> agent_pending db ->
  match update_operation id f db with
  | (Ok o, db') => agent_pending db' /\ pending_operation o
  | (Err _, db') => agent_pending db'
  end.
Proof.
  intros Hf Hdb. destruct (update_operation id f db) as [[o|e] db'] eqn:H.
  - apply update_operation_ok in H as (old & [Hin _]%find_row_spec & -> & Hrows).
    split; [|by apply Hf, Hdb]. intros x. rewrite Hrows.
    intros [[Hx _]|(y & _ & _ & ->)]%update_row_elem; [by apply Hdb|by apply Hf, Hdb].
  - by apply update_operation_err in H as ->.
Qed.
Lemma agent_event_keeps e : preserves agent_pending (create_agent_event e).
Proof.
  intros db Hdb. destruct (create_agent_event e db) as [r db'] eqn:H. apply agent_event_rows in H.
  assert (agent_pending db') by (unfold agent_pending; by rewrite H). by destruct r.
Qed.
Lemma create_operation_pending now mk : (forall id, pending_operation (mk id)) ->
  preserves agent_pending (create_operation now mk).
Proof.
  intros Hmk db Hdb.
  assert (Hadd : forall db', agentCashOperations db' = agentCashOperations db ++ [mk (uuid (pay_uuidCounter db))] ->
    agent_pending db').
  { intros db' Hr o. rewrite Hr. intros [Ho|Ho%list_elem_of_singleton]%elem_of_app; [by apply Hdb|subst; apply Hmk]. }
  destruct (create_operation now mk db) as [[o|e] db'] eqn:H.
  - apply create_operation_ok in H as [-> H]. by apply Hadd.
  - apply create_operation_err in H as [H|H]; [unfold agent_pending; by rewrite H|by apply Hadd].
Qed.

Lemma agent_settle_refused now o corr w : pending_operation o ->
  triple (still w) (agent_settle now o corr) (fun o' s => still w s /\ pending_operation o') (fun _ => still w).
Proof.
  intros Ho. eapply (triple_catch _ _ _ _ _ _ (fun _ => still w)).
  - eapply triple_bind; [by apply foreign_call, Ho|]. intros res s [].
  - intros e. destruct e as [| st code | | |]; try (apply triple_ret; by intros s Hs).
    destruct (st <? 500); [|apply triple_ret; by intros s Hs].
    eapply triple_bind; [apply atomic_still; intros db Hdb; apply update_operation_pending; [|exact Hdb];
      by intros x [Hx _]|].
    intros o' s [Hs Ho'].
    eapply (triple_bind _ _ (still w) _ _ (fun _ => still w)); [apply quiet_step, agent_event_keeps|..| |exact Hs].
    intros u. apply triple_ret. by intros s1 Hs1.
Qed.
Lemma claim_operation_pending now input db : agent_pending db ->
  match transaction (fun _ _ => None) (claim_operation now input) db with
  | (Ok r, db') => agent_pending db' /\ pending_operation r.1
  | (Err _, db') => agent_pending db'
  end.
Proof.
  intros Hdb. destruct (transaction _ _ db) as [[[o replayed]|e] db'] eqn:H; [|by apply transaction_err in H as ->].
  apply transaction_Ok_inv in H as [H _]. unfold claim_operation in H. run.
  match goal with H : match find ?f ?l with _ => _ end _ = _ |- _ => destruct (find f l) as [x|] eqn:Hf end; run.
  - subst. apply find_some in Hf as [Hin _]. split; [exact Hdb|by apply Hdb, list_elem_of_In].
  - subst. match goal with H : update_operation ?id ?f ?d = _, E : create_agent_event ?e _ = _ |- _ =>
      pose proof (update_operation_pending id f d ltac:(by intros x [Hx _]) Hdb) as Hu; rewrite H in Hu;
      pose proof (agent_event_keeps e _ (proj1 Hu)) as He; rewrite E in He end.
    split; [exact He|apply Hu].
Qed.
Lemma agent_confirm_refused now input corr w :
  triple (still w) (agent_confirm now input corr)
    (fun v s => still w s /\ ov_status v <> AG_COMPLETED) (fun _ => still w).
Proof.
  unfold agent_confirm. eapply (triple_bind _ _ _ _ _ (fun r s => still w s /\ pending_operation r.1)).
  - apply atomic_still, claim_operation_pending.
  - intros [o replayed] s [Hs Ho]. cbn in Ho. destruct (replayed || _); [split; [exact Hs|apply Ho]|].
    eapply (triple_bind _ _ (still w)); [by apply agent_settle_refused|..|exact Hs].
    intros o'. apply triple_ret. intros s' [Hs' Ho']. split; [exact Hs'|apply Ho'].
Qed.
Lemma agent_preview_pending now token random input corr :
  preserves ok (agent_preview config now token random input corr).
Proof.
  apply preserves_bind; [auto with preserve|intros amount].
  do 2 (apply preserves_bind; [auto with preserve|intros ?]).
  apply preserves_bind.
  { apply preserves_catch.
    - apply preserves_bind; [apply preserves_remote|]. intros [[b|]|st c|]; auto with preserve.
    - intros [| st c | | |]; auto with preserve. destruct (st =? 404); auto with preserve. }
  intros customer. apply preserves_bind; [apply preserves_atomic, preserves_gets|intros total].
  apply preserves_bind; [auto with preserve|intros ?].
  apply preserves_bind; [|auto with preserve].
  apply preserves_atomic, create_operation_pending. intros id. split; [apply foreign_agt|done].
Qed.

(** Any sequence of agent requests among other requests of the service. *)
Inductive agent_reached : PaymentsDb -> Net -> Prop :=
| agent_start db net : agentCashOperations db = [] -> agent_reached db net
| agent_previewed now token random input corr db net others : agent_reached db net ->
    Forall (fun f => forall d, agent_pending d -> agent_pending (f d) /\ True) others ->
    let s := (agent_preview config now token random input corr (mkSystem db net others)).2 in
    agent_reached (sdb s) (senv s)
| agent_confirmed now input corr db net others : agent_reached db net ->
    Forall (fun f => forall d, agent_pending d -> agent_pending (f d) /\ True) others ->
    let s := (agent_confirm now input corr (mkSystem db net others)).2 in agent_reached (sdb s) (senv s).
Lemma agent_reached_pending db net : agent_reached db net -> agent_pending db.
Proof.
  induction 1 as [db net H|now token random input corr db net others Hr IH Ho
                 |now input corr db net others Hr IH Ho]; cbv zeta in *.
  - intros o Hin. rewrite H in Hin. by apply not_elem_of_nil in Hin.
  - pose proof (agent_preview_pending now token random input corr (mkSystem db net others) (conj IH Ho)) as Hp.
    by destruct (agent_preview _ _ _ _ _ _ _) as [[a|e] s']; apply Hp.
  - pose proof (agent_confirm_refused now input corr (net_ledger net) (mkSystem db net others)
      (conj (conj IH Ho) eq_refl)) as Hc.
    by destruct (agent_confirm _ _ _ _) as [[v|e] s']; apply Hc.
Qed.

(** An agent cash operation never completes: in every state the agent
    service can reach against the Ledger, a confirmation reports no completion
    and leaves the ledger as it was, because the Ledger refuses its reference. *)
Theorem agent_never_completes now input corr db net :
  agent_reached db net ->
  let '(r, s) := agent_confirm now input corr (alone db net) in
  net_ledger (senv s) = net_ledger net /\
  match r with Ok v => ov_status v <> AG_COMPLETED | Err _ => True end.
Proof.
  intros Hr. pose proof (agent_confirm_refused now input corr (net_ledger net) (alone db net)) as H.
  assert (Hs : still (net_ledger net) (alone db net))
    by (split; [split; [by eapply agent_reached_pending|constructor]|done]).
  specialize (H Hs). destruct (agent_confirm _ _ _ _) as [[v|e] s]; unfold Still in H; tauto.
Qed.
End Refused.
