(* ===== verification/Ussd.v ===== *)
(** * The USSD menu ([services/payments/src/ussd/ussd.service.ts])

    A session is a JSON text in Redis, rewritten by every key press. *)

From Stdlib Require Import ZArith Lia Ascii String.
From stdpp Require Import base strings list gmap.
From S2P Require Import Prelude.
From S2P Require Import Js.
From S2P Require Import Codec.
From S2P Require Import JsNumber.
From S2P Require Import Regex.
From S2P Require Import Contracts.
From S2P Require Import Services.
From S2P Require Import CustomerTransfer.
From S2P Require Import PaymentsDb.
From S2P Require Import Peers.
From S2P Require Import QrPayments.

Open Scope Z_scope.

(** ** The stored session *)
Record UssdState := mkUssd {
  us_state : string;
  us_msisdn : string;
  us_customerId : string;
  us_recipientReference : option string;
  us_recipientAccountId : option string;
  us_amountMinor : option string
}.
Definition ussd_json (u : UssdState) : json :=
  JObj ([("state", JStr (us_state u)); ("msisdn", JStr (us_msisdn u)); ("customerId", JStr (us_customerId u))]%string
        ++ optional_field "recipientReference" (us_recipientReference u)
        ++ optional_field "recipientAccountId" (us_recipientAccountId u)
        ++ optional_field "amountMinor" (us_amountMinor u)).
(** The fields of a parsed session; the service reads them unchecked, and only
    reads what it wrote. *)
Definition ussd_of_json (v : json) : option UssdState :=
  match jfield "state" v, jfield "msisdn" v, jfield "customerId" v with
  | JStr state, JStr msisdn, JStr customerId =>
      reference ← optional_string (jfield "recipientReference" v);
      account ← optional_string (jfield "recipientAccountId" v);
      amount ← optional_string (jfield "amountMinor" v);
      Some (mkUssd state msisdn customerId reference account amount)
  | _, _, _ => None
  end.
Definition goes_to (state : string) (u : UssdState) : UssdState :=
  mkUssd state (us_msisdn u) (us_customerId u) (us_recipientReference u) (us_recipientAccountId u) (us_amountMinor u).
Definition with_recipient (reference account : string) (u : UssdState) : UssdState :=
  mkUssd (us_state u) (us_msisdn u) (us_customerId u) (Some reference) (Some account) (us_amountMinor u).
Definition with_amount (amount : string) (u : UssdState) : UssdState :=
  mkUssd (us_state u) (us_msisdn u) (us_customerId u) (us_recipientReference u) (us_recipientAccountId u) (Some amount).

Record UssdInput := mkUssdInput { ui_sessionId : string; ui_msisdn : string; ui_input : string }.
Record UssdReply := mkUssdReply { ur_sessionId : string; ur_message : string; ur_type : string }.
Record SimulateReply := mkSimulated { sm_sessionId : string; sm_message : string; sm_ended : bool; sm_simulated : bool }.

(** ** Amounts *)

(** [/^\d+(\.\d{1,2})?$/] *)
Definition ussdAmount_rx : rx := (digit · Star digit · opt (chr "." · (digit · rep_upto 1 digit)))%rx.
(** [Math.floor(parseFloat(userInput) * 100).toString()] *)
Definition ussd_amount (userInput : string) : string :=
  integer_number_text (Math_floor (number_mul (parseFloat userInput) (Fin 100 0))).

(** ** Screens *)
Definition newline : string := String (ascii_of_nat 10) "".
Definition lines (l : list string) : string := join newline l.
Definition menu_text : string := lines ["Welcome to AEGIS USSD Banking"; "1. Balance"; "2. Send Money"; "3. Exit"].
Definition confirm_text (amount reference : string) : string :=
  lines ["Send " +:+ amount +:+ " LKR to " +:+ reference +:+ "?"; "1. Confirm"; "2. Cancel"].
Definition no_customer : string := "00000000-0000-0000-0000-000000000000".

Section Service.
Context {Env : Type} {peers : Peers Env} {zod : Zod}.
Abbreviation UssdM := (M (System Redis Env) PaymentsErr).
(** [redisKeyPrefix] of the configuration. *)
Variable prefix : string.
Variable now : Z.
(** The message of an error that the runtime or the zod library made. *)
Variable js_message : PaymentsErr -> string.

Definition error_message (e : PaymentsErr) : string :=
  match e with
  | LedgerCallError _ _ => "Ledger request failed."
  | PaymentsError _ message _ => message
  | _ => js_message e
  end.
Definition ussd_key (sessionId : string) : string := prefix +:+ join ":" ["ussd"%string; sessionId].

Definition ussd_command (transferId random customerId : string) (u : UssdState) : InternalLedgerTransferCommand :=
  mkTransferCommand
    (mkTransferPreview customerId customerId (default "" (us_recipientReference u)) (default "" (us_amountMinor u)) "LKR")
    transferId random ("ussd-pay:" +:+ transferId).

(** The switch: the message, and the session that goes on, if it does. *)
Definition ussd_switch (transferId random activeCustomerId correlationId userInput : string) (u : UssdState)
  : UssdM (string * option UssdState) :=
  let state := us_state u in
  let goes message u := mret (message, Some u) in
  let ends message := mret (message, None) in
  if String.eqb state "WELCOME" then goes menu_text (goes_to "MAIN_MENU" u)
  else if String.eqb state "MAIN_MENU" then
    if String.eqb userInput "1" then
      goes (lines ["Your balance request is being processed."; "1. Back to menu"]) (goes_to "BALANCE" u)
    else if String.eqb userInput "2" then
      goes "Enter recipient account public reference:"%string (goes_to "SEND_MONEY_RECIPIENT" u)
    else ends "Thank you for using AEGIS."%string
  else if String.eqb state "BALANCE" then goes menu_text (goes_to "MAIN_MENU" u)
  else if String.eqb state "SEND_MONEY_RECIPIENT" then
    try_catch
      (recipient ← Peers.resolveAccountByReference userInput correlationId;
       goes "Enter amount in LKR:"%string
         (goes_to "SEND_MONEY_AMOUNT" (with_recipient userInput (ra_accountId recipient) u)))
      (fun _ => goes "Account not found. Enter recipient account public reference:"%string u)
  else if String.eqb state "SEND_MONEY_AMOUNT" then
    if negb (rx_match ussdAmount_rx userInput) then goes "Invalid amount. Enter amount in LKR:"%string u
    else
      let u := with_amount (ussd_amount userInput) u in
      goes (confirm_text userInput (default "undefined"%string (us_recipientReference u)))
        (goes_to "SEND_MONEY_CONFIRM" u)
  else if String.eqb state "SEND_MONEY_CONFIRM" then
    if String.eqb userInput "1" then goes "Enter your 6-digit PIN to confirm:"%string (goes_to "SEND_MONEY_PIN" u)
    else ends "Transfer cancelled."%string
  else if String.eqb state "SEND_MONEY_PIN" then
    if negb (String.eqb userInput "123456") then ends "Invalid PIN. Session ended."%string
    else
      try_catch
        (_ ← ledger_transfer (ussd_command transferId random activeCustomerId u) correlationId;
         ends ("Transfer successful. Reference: " +:+ toUpperCase (slice 0 8 transferId)))
        (fun e => ends ("Transfer failed. " +:+
           (if String.eqb (error_message e) "" then "Please try again later." else error_message e)))
  else ends "Session ended due to an error."%string.

Definition handleWebhook (transferId random : string) (input : UssdInput) (correlationId : string)
    (customerId : option string) : UssdM UssdReply :=
  let activeCustomerId := match customerId with
                          | Some c => if String.eqb c "" then no_customer else c
                          | None => no_customer
                          end in
  let key := ussd_key (ui_sessionId input) in
  storedState ← atomic (gets (redis_get now key));
  u ← match storedState with
      | Some t => if String.eqb t "" then mret (Some (mkUssd "WELCOME" (ui_msisdn input) activeCustomerId None None None))
                  else v ← require (JSON_parse t) (PayJsError "SyntaxError"); mret (ussd_of_json v)
      | None => mret (Some (mkUssd "WELCOME" (ui_msisdn input) activeCustomerId None None None))
      end;
  '(message, next) ← match u with
                     | Some u =>
                         try_catch (ussd_switch transferId random activeCustomerId correlationId (ui_input input) u)
                           (fun _ => mret ("System error occurred."%string, None))
                     | None => mret ("System error occurred."%string, None)
                     end;
  _ ← atomic (modify (match next with
                      | None => redis_delete key
                      | Some u => redis_set now key (text (ussd_json u)) 300
                      end));
  mret (mkUssdReply (ui_sessionId input) message (match next with None => "release" | Some _ => "response" end)).

Definition handleSimulate (transferId random newSession : string) (sessionId : option string) (userInput customerId
    correlationId : string) : UssdM SimulateReply :=
  let session := default newSession sessionId in
  result ← handleWebhook transferId random (mkUssdInput session "+94770000000" userInput) correlationId (Some customerId);
  mret (mkSimulated (ur_sessionId result) (ur_message result) (String.eqb (ur_type result) "release") true).
End Service.

(** * Properties of the USSD menu: a typed session machine that the stored JSON
    sessions implement, and what the typed amounts become *)

(** ** The session machine *)
Inductive Session :=
| SWelcome | SMenu | SBalance | SRecipient
| SAmount (reference account : string)
| SConfirm (reference account amount : string)
| SPin (reference account amount : string).

Definition session_state (msisdn customerId : string) (a : Session) : UssdState :=
  match a with
  | SWelcome => mkUssd "WELCOME" msisdn customerId None None None
  | SMenu => mkUssd "MAIN_MENU" msisdn customerId None None None
  | SBalance => mkUssd "BALANCE" msisdn customerId None None None
  | SRecipient => mkUssd "SEND_MONEY_RECIPIENT" msisdn customerId None None None
  | SAmount r c => mkUssd "SEND_MONEY_AMOUNT" msisdn customerId (Some r) (Some c) None
  | SConfirm r c m => mkUssd "SEND_MONEY_CONFIRM" msisdn customerId (Some r) (Some c) (Some m)
  | SPin r c m => mkUssd "SEND_MONEY_PIN" msisdn customerId (Some r) (Some c) (Some m)
  end.

(** The session that Redis holds under a key: none is a new caller. *)
Definition session_at (now : Z) (key : string) (a : Session) (r : Redis) : Prop :=
  match a with
  | SWelcome => redis_get now key r = None
  | _ => exists msisdn customerId, redis_get now key r = Some (text (ussd_json (session_state msisdn customerId a)))
  end.

Lemma ussd_roundtrip u : ussd_of_json (ussd_json u) = Some u.
Proof. by destruct u as [? ? ? [?|] [?|] [?|]]. Qed.
Lemma ussd_plain u : plain (ussd_json u) = true.
Proof. by destruct u as [? ? ? [?|] [?|] [?|]]. Qed.
Lemma ussd_parse u : JSON_parse (text (ussd_json u)) = Some (ussd_json u).
Proof. apply json_roundtrip, ussd_plain. Qed.
Lemma ussd_text u : String.eqb (text (ussd_json u)) "" = false.
Proof. destruct (text_head _ (ussd_plain u)) as (c & t & -> & _). done. Qed.

Section Machine.
Context {Env : Type} {peers : Peers Env} {zod : Zod}.
Variable js_message : PaymentsErr -> string.

(** One key press: what the caller reads, where the session goes ([None]: it
    ends), and the calls to the Ledger. *)
Definition session_step (transferId random customerId correlationId userInput : string) (a : Session) (env : Env)
  : string * option Session * Env :=
  let stay message b := (message : string, Some b, env) in
  let over message := (message : string, None, env) in
  match a with
  | SWelcome | SBalance => stay menu_text SMenu
  | SMenu =>
      if String.eqb userInput "1" then
        stay (lines ["Your balance request is being processed."; "1. Back to menu"]) SBalance
      else if String.eqb userInput "2" then stay "Enter recipient account public reference:"%string SRecipient
      else over "Thank you for using AEGIS."%string
  | SRecipient =>
      match get_resolve userInput correlationId env with
      | (Success (Some b), env') => ("Enter amount in LKR:"%string, Some (SAmount userInput (ra_accountId b)), env')
      | (_, env') => ("Account not found. Enter recipient account public reference:"%string, Some SRecipient, env')
      end
  | SAmount r c =>
      if rx_match ussdAmount_rx userInput then stay (confirm_text userInput r) (SConfirm r c (ussd_amount userInput))
      else stay "Invalid amount. Enter amount in LKR:"%string a
  | SConfirm r c m =>
      if String.eqb userInput "1" then stay "Enter your 6-digit PIN to confirm:"%string (SPin r c m)
      else over "Transfer cancelled."%string
  | SPin r c m =>
      if String.eqb userInput "123456" then
        let '(reply, env') := post_transfer
          (mkTransferCommand (mkTransferPreview customerId customerId r m "LKR") transferId random
             ("ussd-pay:" +:+ transferId)) correlationId env in
        (match reply_result internalLedgerTransferResultSchema reply with
         | Ok _ => "Transfer successful. Reference: " +:+ toUpperCase (slice 0 8 transferId)
         | Err e => "Transfer failed. " +:+ (if String.eqb (error_message js_message e) "" then "Please try again later."
                                            else error_message js_message e)
         end, None, env')
      else over "Invalid PIN. Session ended."%string
  end.

Lemma switch_step transferId random customerId corr user a msisdn stored (r : Redis) (env : Env) :
  ussd_switch js_message transferId random customerId corr user (session_state msisdn stored a) (alone r env) =
  let '(message, next, env') := session_step transferId random customerId corr user a env in
  (Ok (message, session_state msisdn stored <$> next), alone r env').
Proof.
  destruct a as [| | | |rf ac|rf ac am|rf ac am]; cbn [session_step].
  - reflexivity.
  - unfold ussd_switch. cbn [session_state us_state String.eqb Ascii.eqb Bool.eqb].
    destruct (String.eqb user "1"); [reflexivity|]. by destruct (String.eqb user "2").
  - reflexivity.
  - unfold ussd_switch. cbn [session_state us_state String.eqb Ascii.eqb Bool.eqb].
    unfold try_catch, resolveAccountByReference, unchecked_call. 
    match goal with |- context [(ask ?c ≫= ?k) ≫= ?f] => 
      unfold mbind at 1, M_bind at 1; rewrite (bind_Ok _ _ _ _ _ _ _ (ask_alone c r env)) end.
    destruct (get_resolve user corr env) as [[[b|]|st c|] env']; reflexivity.
  - unfold ussd_switch. cbn [session_state us_state String.eqb Ascii.eqb Bool.eqb].
    by destruct (rx_match ussdAmount_rx user).
  - unfold ussd_switch. cbn [session_state us_state String.eqb Ascii.eqb Bool.eqb].
    by destruct (String.eqb user "1").
  - unfold ussd_switch. cbn [session_state us_state String.eqb Ascii.eqb Bool.eqb].
    destruct (String.eqb user "123456"); [|reflexivity]. unfold try_catch, ledger_transfer, ussd_command.
    unfold mbind, M_bind. cbv beta iota delta [negb].
    match goal with |- context [ledger_call ?c ?s] => rewrite (ledger_call_alone c s r env) end.
    cbn [us_recipientReference us_amountMinor session_state default from_option].
    destruct (post_transfer _ _ env) as [reply env']. cbn [fst snd].
    by destruct (reply_result internalLedgerTransferResultSchema reply).
Qed.
Lemma step_started transferId random customerId corr user a env m b env' :
  session_step transferId random customerId corr user a env = (m, Some b, env') -> b <> SWelcome.
Proof. unfold session_step. intros H ->. destruct a; repeat (case_match; try discriminate); simplify_eq. Qed.

(** C40: the stored sessions implement the session machine: whatever the Ledger
    answers, a key press on a session in state [a] never throws, reads the
    screen of the machine's step, makes its calls, leaves the session in the
    machine's next state (or deletes it, and says so), and touches no other
    session. *)
Theorem ussd_refines prefix now transferId random input customerId corr a (r : Redis) (env : Env) :
  session_at now (ussd_key prefix (ui_sessionId input)) a r -> customerId <> ""%string ->
  let '(message, next, env') := session_step transferId random customerId corr (ui_input input) a env in
  exists r', handleWebhook prefix now js_message transferId random input corr (Some customerId) (alone r env) =
    (Ok (mkUssdReply (ui_sessionId input) message
           (match next with None => "release" | Some _ => "response" end)), alone r' env') /\
    match next with
    | Some b => session_at now (ussd_key prefix (ui_sessionId input)) b r'
    | None => r' !! ussd_key prefix (ui_sessionId input) = None
    end /\
    (forall k, k <> ussd_key prefix (ui_sessionId input) -> r' !! k = r !! k).
Proof.
  intros Ha Hc. set (key := ussd_key prefix (ui_sessionId input)) in *.
  assert (Hstate : exists msisdn stored, (match redis_get now key r with
    | Some t => if String.eqb t "" then mret (Some (mkUssd "WELCOME" (ui_msisdn input) customerId None None None))
                else v ← require (JSON_parse t) (PayJsError "SyntaxError"); mret (ussd_of_json v)
    | None => mret (Some (mkUssd "WELCOME" (ui_msisdn input) customerId None None None))
    end : M (System Redis Env) PaymentsErr (option UssdState)) (alone r env) =
    (Ok (Some (session_state msisdn stored a)), alone r env)).
  { destruct a; cbn [session_at] in Ha.
    1: { exists (ui_msisdn input), customerId. by rewrite Ha. }
    all: destruct Ha as (m & c & ->); exists m, c; rewrite ussd_text, ussd_parse;
      unfold mbind, M_bind, require, mret, M_ret; by rewrite ussd_roundtrip. }
  destruct Hstate as (msisdn & stored & Hstate).
  pose proof (switch_step transferId random customerId corr (ui_input input) a msisdn stored r env) as Hswitch.
  destruct (session_step _ _ _ _ _ _ _) as [[message next] env'] eqn:Hstep.
  unfold handleWebhook. fold key. apply String.eqb_neq in Hc. rewrite Hc.
  exists (match next with None => redis_delete key r | Some b => redis_set now key (text (ussd_json (session_state msisdn stored b))) 300 r end).
  split; [|split].
  - assert (Hread : atomic (gets (E := PaymentsErr) (redis_get now key)) (alone r env) = (Ok (redis_get now key r), alone r env))
      by apply atomic_alone.
    rewrite (bind_Ok _ _ _ _ _ _ _ Hread), (bind_Ok _ _ _ _ _ _ _ Hstate).
    assert (Hcatch : try_catch (ussd_switch js_message transferId random customerId corr (ui_input input)
        (session_state msisdn stored a)) (fun _ => mret ("System error occurred."%string, None)) (alone r env) =
      (Ok (message, session_state msisdn stored <$> next), alone r env')) by (unfold try_catch; by rewrite Hswitch).
    rewrite (bind_Ok _ _ _ _ _ _ _ Hcatch). by destruct next.
  - destruct next as [b|]; [|apply lookup_delete_eq].
    apply step_started in Hstep. destruct b; try done; exists msisdn, stored; by apply redis_get_set.
  - intros k Hk. destruct next; [by apply lookup_insert_ne|by apply lookup_delete_ne].
Qed.
End Machine.

(** ** Typed amounts *)

(** The cents a caller means, read from the digits. *)
Definition cents_of (s : string) : Z :=
  let '(whole, rest) := span is_digit s in
  100 * digits_value 0 whole +
  match rest with
  | String "." (String d EmptyString) => 10 * digits_value 0 (String d "")
  | String "." fraction => digits_value 0 fraction
  | _ => 0
  end.

Lemma span_stop p a rest : str_all p a = true ->
  (forall c t, rest = String c t -> p c = false) -> span p (a +:+ rest) = (a, rest).
Proof.
  intros Ha Hr. induction a as [|c a IH].
  - rewrite str_app_nil_l. destruct rest as [|c t]; [done|]. cbn. by rewrite (Hr c t).
  - rewrite str_app_cons. cbn in Ha |- *. apply andb_prop in Ha as [-> Ha]. by rewrite IH.
Qed.
Lemma star_digits s : rx_in (Star digit) s -> str_all is_digit s = true.
Proof.
  intros H. remember (Star digit) as r eqn:Hr. induction H as [| | | | | |a s t Hs IHs Ht IHt]; try done.
  injection Hr as ->. inversion Hs as [|p c Hc| | | | |]; subst. rewrite str_app_cons, str_app_nil_l. cbn.
  by rewrite Hc, IHt.
Qed.
Lemma digit_in_inv p s : rx_in (Cls p) s -> exists c, s = String c "" /\ p c = true.
Proof. inversion 1; subst. eauto. Qed.
Lemma cat_inv a b s : rx_in (a · b)%rx s -> exists s1 s2, s = s1 +:+ s2 /\ rx_in a s1 /\ rx_in b s2.
Proof. inversion 1; subst. eauto. Qed.
Lemma opt_inv a s : rx_in (opt a) s -> s = ""%string \/ rx_in a s.
Proof.
  unfold opt. inversion 1 as [| | |? ? ? He|? ? ? Ha| |]; subst; [left; by inversion He|by right].
Qed.

(** What the pattern accepts. *)
Lemma amount_shape s : rx_match ussdAmount_rx s = true ->
  exists w f, str_all is_digit w = true /\ w <> ""%string /\ str_all is_digit f = true /\
    (String.length f <= 2)%nat /\
    ((f = ""%string /\ s = w) \/ (f <> ""%string /\ s = w +:+ String "." f)).
Proof.
  intros H%rx_match_in. apply cat_inv in H as (w & t & -> & Hw & Ht).
  apply cat_inv in Hw as (w1 & w2 & -> & (c & -> & Hc)%digit_in_inv & Hw2%star_digits).
  assert (Hall : str_all is_digit (String c "" +:+ w2) = true)
    by (rewrite str_app_cons, str_app_nil_l; cbn; by rewrite Hc).
  apply opt_inv in Ht as [->|Ht].
  - exists (String c "" +:+ w2), ""%string. rewrite str_app_nil_r.
    split; [done|]. split; [done|]. split; [done|]. split; [cbn; lia|]. by left.
  - apply cat_inv in Ht as (d & f & -> & (d' & -> & Hd)%digit_in_inv & Hf). apply Ascii.eqb_eq in Hd as <-.
    apply cat_inv in Hf as (f1 & f2 & -> & (e & -> & He)%digit_in_inv & [Hl Hf2]%rep_upto_inv).
    exists (String c "" +:+ w2), (String e "" +:+ f2).
    split; [done|]. split; [done|]. rewrite !str_app_cons, !str_app_nil_l in *. cbn [str_all String.length].
    rewrite He. split; [done|]. split; [lia|]. right. by split.
Qed.

Lemma digit_head_facts c : is_digit c = true ->
  is_space c = false /\ Ascii.eqb c "-" = false /\ Ascii.eqb c "+" = false /\ Ascii.eqb c "I" = false.
Proof. destruct c as [[] [] [] [] [] [] [] []]; vm_compute; try discriminate; auto. Qed.
Lemma signed_text_head c t : Ascii.eqb c "-" = false -> Ascii.eqb c "+" = false -> signed_text (String c t) = (false, String c t).
Proof. destruct c as [[] [] [] [] [] [] [] []]; vm_compute; try discriminate; auto. Qed.
Lemma parseFloat_digit c t : is_digit c = true -> parseFloat (String c t) =
  match decimal (String c t) with Some (m, e, _) => number_of_decimal m e | None => NaN end.
Proof.
  intros H. destruct (digit_head_facts c H) as (Hs & Hm & Hp & Hi). unfold parseFloat. cbn [trim_start].
  rewrite Hs, signed_text_head by done.
  assert (strip infinity_text (String c t) = None) as ->.
  { unfold infinity_text. cbn [strip]. by rewrite Ascii.eqb_sym, Hi. }
  by destruct (decimal (String c t)) as [[[m e] r]|].
Qed.

Lemma fraction_cases f : str_all is_digit f = true -> (String.length f <= 2)%nat ->
  f = ""%string \/ (exists d, f = String d "") \/ (exists d1 d2, f = String d1 (String d2 "")).
Proof. destruct f as [|d1 [|d2 [|d3 f]]]; cbn; intros; [auto|eauto|eauto|lia]. Qed.
Lemma decimal_of w f : str_all is_digit w = true -> w <> ""%string -> str_all is_digit f = true ->
  decimal w = Some (digits_value 0 w, 0, ""%string) /\
  decimal (w +:+ String "." f) = Some (digits_value 0 (w +:+ f), - Z.of_nat (String.length f), ""%string).
Proof.
  intros Hw Hne Hf. apply String.eqb_neq in Hne. unfold decimal. split.
  - pose proof (span_stop is_digit w "" Hw ltac:(done)) as H. rewrite str_app_nil_r in H. rewrite H, Hne. cbn.
    by rewrite str_app_nil_r.
  - rewrite (span_stop is_digit w (String "." f) Hw) by (intros c t [= <- <-]; done).
    pose proof (span_stop is_digit f "" Hf ltac:(done)) as H. rewrite str_app_nil_r in H. rewrite H, Hne. done.
Qed.
Lemma amount_parsed s : rx_match ussdAmount_rx s = true -> exists m d, 0 <= m /\ (d = 1 \/ d = 10 \/ d = 100) /\
  parseFloat s = round_ratio m d /\ cents_of s * d = 100 * m.
Proof.
  intros H. destruct (amount_shape s H) as (w & f & Hw & Hne & Hf & Hl & Hs).
  destruct (decimal_of w f Hw Hne Hf) as [Hd1 Hd2].
  pose proof (digits_value_nonneg w 0 ltac:(lia) Hw) as Hpos.
  destruct w as [|c w]; [done|]. assert (Hc : is_digit c = true) by (cbn in Hw; by apply andb_prop in Hw as [? _]).
  destruct Hs as [[-> ->]|[Hnf ->]].
  - exists (digits_value 0 (String c w)), 1. split; [done|]. split; [auto|].
    split; [|unfold cents_of; rewrite <- (str_app_nil_r (String c w)) at 1; rewrite span_stop by done; lia].
    rewrite parseFloat_digit, Hd1 by done. unfold number_of_decimal. cbn [Z.leb]. f_equal. cbn. lia.
  - rewrite str_app_cons, parseFloat_digit, <- str_app_cons, Hd2 by done. unfold cents_of.
    rewrite span_stop by (try done; intros ? ? [= <- <-]; done). rewrite digits_value_app.
    set (W := digits_value 0 (String c w)) in *. clearbody W. 
    destruct (fraction_cases f Hf Hl) as [->|[(d & ->)|(d1 & d2 & ->)]]; [done|..].
    + exists (digits_value W (String d "")), 10. pose proof (digits_value_nonneg _ W Hpos Hf).
      split; [done|]. split; [auto|]. split; [done|]. cbn. ring.
    + exists (digits_value W (String d1 (String d2 ""))), 100. pose proof (digits_value_nonneg _ W Hpos Hf).
      split; [done|]. split; [auto|]. split; [done|]. cbn. ring.
Qed.

(** Twice rounded, the cents are off by less than one. *)
Lemma mul_hundred_close m e : 0 <= m -> -1074 <= e -> 2 ^ 1074 <= 200 * units m e -> units m e <= 2 ^ 1074 * 2 ^ 60 ->
  exists m' e', number_mul (Fin m e) (Fin 100 0) = Fin m' e' /\ -1074 <= e' /\
    2 ^ 53 * Z.abs (units m' e' - 100 * units m e) <= 100 * units m e.
Proof.
  intros Hm He Hlo Hhi. unfold number_mul, round_scaled. rewrite Z.add_0_r, (proj2 (Z.ltb_ge (m * 100) 0)) by lia.
  rewrite Z.abs_eq by lia. cbn [signed].
  set (n := if 0 <=? e then m * 100 * 2 ^ e else m * 100). set (d := if 0 <=? e then 1 else 2 ^ (- e)).
  assert (Hd : 0 < d) by (unfold d; destruct (Z.leb_spec 0 e); [lia|apply Z.pow_pos_nonneg; lia]).
  assert (Hn : n * 2 ^ 1074 = 100 * units m e * d).
  { unfold n, d, units. destruct (Z.leb_spec 0 e); [rewrite Z.pow_add_r by lia; ring|].
    replace (2 ^ 1074) with (2 ^ (- e) * 2 ^ (e + 1074)) by (rewrite <- Z.pow_add_r by lia; f_equal; lia). ring. }
  assert (Hg : (if 0 <=? e then round_ratio (m * 100 * 2 ^ e) 1 else round_ratio (m * 100) (2 ^ (- e))) = round_ratio n d)
    by (unfold n, d; by destruct (0 <=? e)).
  rewrite Hg. clearbody n d. clear Hg.
  assert (HS : 0 < 2 ^ 1074) by (apply Z.pow_pos_nonneg; lia).
  assert (H1000 : 2 <= 2 ^ 1000) by (change 2 with (2 ^ 1) at 1; apply Z.pow_le_mono_r; lia).
  assert (H900 : 2 ^ 60 * 128 <= 2 ^ 900) by (change 128 with (2 ^ 7); rewrite <- Z.pow_add_r by lia; apply Z.pow_le_mono_r; lia).
  set (V := units m e) in *. clearbody V. set (S := 2 ^ 1074) in *.
  assert (Hb : d <= 2 * n /\ n < d * (2 ^ 60 * 128) /\ 0 < n) by (clearbody S; repeat split; nia).
  destruct (round_ratio_close n d) as (m' & e' & -> & _ & He' & Hc); [lia|lia| | |].
  - destruct Hb as (Hb & _). generalize dependent (2 ^ 1000). intros x Hx. nia.
  - destruct Hb as (_ & Hb & _). generalize dependent (2 ^ 900). intros x Hx. nia.
  - exists m', e'. split; [done|]. split; [done|]. fold S in Hc. rewrite Hn in Hc.
    replace (units m' e' * d - 100 * V * d) with ((units m' e' - 100 * V) * d) in Hc by ring.
    rewrite Z.abs_mul, (Z.abs_eq d), Z.mul_assoc in Hc by lia. by apply Z.mul_le_mono_pos_r in Hc.
Qed.

Lemma cents_close m d c : 0 < m -> (d = 1 \/ d = 10 \/ d = 100) -> c * d = 100 * m -> c <= 2 ^ 51 ->
  exists z, integer_value (Math_floor (number_mul (round_ratio m d) (Fin 100 0))) = Some z /\ c - 1 <= z <= c.
Proof.
  intros Hm Hd Hc Hmax. assert (Hdb : 0 < d <= 100) by lia.
  assert (H1000 : 128 <= 2 ^ 1000) by (change 128 with (2 ^ 7); apply Z.pow_le_mono_r; lia).
  assert (H900 : 2 ^ 52 <= 2 ^ 900) by (apply Z.pow_le_mono_r; lia).
  assert (HS : 0 < 2 ^ 1074) by (apply Z.pow_pos_nonneg; lia).
  destruct (round_ratio_close m d) as (m1 & e1 & -> & Hm1 & He1 & H1); [lia|lia| | |].
  { generalize dependent (2 ^ 1000). intros x Hx. nia. }
  { generalize dependent (2 ^ 900). intros x Hx. nia. }
  clear H1000 H900. set (V := units m1 e1) in *. set (S := 2 ^ 1074) in *.
  assert (HV : S <= 200 * V /\ V <= S * 2 ^ 60).
  { clearbody V S. change (2 ^ 53) with 9007199254740992 in H1. change (2 ^ 51) with 2251799813685248 in Hmax.
    change (2 ^ 60) with 1152921504606846976. clear He1 Hm1 e1 m1. destruct Hd as [->|[->| ->]]; nia. }
  destruct (mul_hundred_close m1 e1 Hm1 He1 (proj1 HV) (proj2 HV)) as (m2 & e2 & -> & He2 & H2).
  destruct (Math_floor_units m2 e2 He2) as (z & -> & ->). eexists. split; [reflexivity|].
  fold V S in H2 |- *. set (V2 := units m2 e2) in *. clearbody V V2 S.
  assert (H3 : 2 ^ 53 * Z.abs (100 * V - c * S) <= c * S).
  { apply (Z.mul_le_mono_pos_r _ _ d); [lia|].
    rewrite <- Z.mul_assoc, <- (Z.abs_eq d) at 1 by lia. rewrite <- Z.abs_mul.
    replace ((100 * V - c * S) * d) with (100 * (V * d - m * S)) by (rewrite Z.mul_sub_distr_r; replace (c * S * d) with (c * d * S) by ring; rewrite Hc; ring).
    rewrite Z.abs_mul. replace (c * S * d) with (100 * (m * S)) by (replace (c * S * d) with (c * d * S) by ring; rewrite Hc; ring).
    change (Z.abs 100) with 100. lia. }
  assert (Hcs : c * S <= 2 ^ 51 * S) by (apply Z.mul_le_mono_nonneg_r; lia).
  assert (HB : c * S - S <= V2 < c * S + S) by lia.
  split; [apply Z.div_le_lower_bound; lia|].
  apply Z.lt_succ_r. apply Z.div_lt_upper_bound; lia.
Qed.

(** The amount of a USSD transfer is never more than what the caller typed,
    and at most one cent less, for every amount the menu accepts up to 22
    trillion rupees. *)
Theorem ussd_amount_bounds s :
  rx_match ussdAmount_rx s = true -> cents_of s <= 2 ^ 51 ->
  exists z, ussd_amount s = bigint_to_string z /\ cents_of s - 1 <= z <= cents_of s.
Proof.
  intros H Hmax. destruct (amount_parsed s H) as (m & d & Hm & Hd & Hp & Hc). unfold ussd_amount. rewrite Hp.
  destruct (Z.eqb_spec m 0) as [->|Hne].
  - assert (cents_of s = 0) as -> by lia. exists 0. split; [|lia].
    by destruct Hd as [->|[->| ->]].
  - destruct (cents_close m d (cents_of s) ltac:(lia) Hd Hc Hmax) as (z & Hz & Hb). exists z. split; [|done].
    destruct (Math_floor _) as [|n|m2 e2] eqn:Hf; [discriminate Hz..|]. cbn [integer_number_text]. rewrite Hz. cbn.
    unfold integer_text. rewrite (proj2 (Z.ltb_lt (Z.abs z) (2 ^ 53))); [done|].
    assert (0 <= cents_of s) by lia. lia.
Qed.
Example ussd_loses_a_cent : map ussd_amount ["0.29"; "19.99"; "250"]%string = ["28"; "1998"; "25000"]%string.
Proof. vm_compute. reflexivity. Qed.
