(* ===== verification/ChannelWitnesses.v ===== *)
(** * QR payments at concrete inputs *)

From Stdlib Require Import ZArith Lia Ascii String.
From stdpp Require Import base strings list gmap sorting.
From S2P Require Import Prelude.
From S2P Require Import Js.
From S2P Require Import Codec.
From S2P Require Import JsNumber.
From S2P Require Import Regex.
From S2P Require Import Contracts.
From S2P Require Import Security.
From S2P Require Import Services.
From S2P Require Import RiskTypes.
From S2P Require Import LedgerDb.
From S2P Require Import Idempotency.
From S2P Require Import CustomerTransfer.
From S2P Require Import Fixtures.
From S2P Require Import PaymentsDb.
From S2P Require Import Peers.
From S2P Require Import PaymentTransfers.
From S2P Require Import PaymentsReconciliation.
From S2P Require Import PaymentWitnesses.
From S2P Require Import QrPayments.
From S2P Require Import ChannelRefusals.
From S2P Require Import QrProofs.
From S2P Require Import AgentCash.
From S2P Require Import Ussd.

Open Scope Z_scope.

(** A stand-in for the HMAC: the key and the text, in hexadecimal. *)
Fixpoint hex_text (s : string) : string :=
  match s with
  | EmptyString => ""
  | String c s => String (hex_digit (code c / 16)) (String (hex_digit (code c mod 16)) (hex_text s))
  end.
#[export] Instance fx_hmac : Hmac := {| hmac_sha256 := fun k t => hex_text (k +:+ t) |}.

Lemma qr_text_verifies_witness :
  decodeQrPayload (encodeQrPayload (signQrPayload purpose_payload "key")) = Some (signQrPayload purpose_payload "key") /\
  verifyQrSignature (signQrPayload purpose_payload "key") "key" = true.
Proof. apply (qr_text_verifies purpose_payload "key"). discriminate. Defined.

Lemma canonical_binds_witness : amp_free purpose_payload = true /\ purpose_payload = purpose_payload.
Proof. split; [reflexivity|]. apply (canonical_binds purpose_payload purpose_payload); reflexivity. Defined.

(** Bob issues a dynamic code for 100.00 LKR; Alice scans it. *)
Definition wallet_of (customer : string) : string :=
  match account_of db_wallets customer with Some a => ca_id a | None => "" end.
Definition bob_issue : QrIssueInput :=
  mkQrIssue bob (wallet_of bob) DYNAMIC (Some "10000"%string) "LKR" (Some "tea"%string).
Abbreviation fx_issue := (issue fx_payments fx_now "00112233445566778899aabbccddeeff" (fx_id 630) bob_issue).
Definition issued : PaymentsDb := Eval vm_compute in pay_state (fx_issue (alone emptyPayments (fx_net db_funded []))).
Definition bob_code : string := Eval vm_compute in
  match (fx_issue (alone emptyPayments (fx_net db_funded []))).1 with Ok o => qo_payload o | Err _ => "" end.
Definition alice_scan : QrPreviewInput := mkQrPreviewInput bob_code alice (wallet_of alice).
Abbreviation fx_qr_preview :=
  (qr_preview fx_payments fx_now "qr-intent-token" "AABBCCDDEEFF001122334455" (fx_id 631) (fx_id 632) alice_scan).
Definition scanned : PaymentsDb := Eval vm_compute in pay_state (fx_qr_preview (alone issued (fx_net db_funded []))).
Definition alice_confirms : QrConfirmInput := mkQrConfirm alice "qr-intent-token" "qr-confirm-key-0001".
Abbreviation fx_qr_confirm := (qr_confirm fx_now alice_confirms fx_correlation).

Lemma scan_ok : exists v s', fx_qr_preview (alone issued (fx_net db_funded [])) = (Ok v, s') /\
  match qv_amount v with Some m => String.eqb (minorUnits m) "10000" | None => false end = true.
Proof.
  apply (returned_pay _ (fun v _ => match qv_amount v with Some m => String.eqb (minorUnits m) "10000" | None => false end)).
  vm_compute. reflexivity.
Qed.
Lemma qr_preview_sound_witness : exists v s' r,
  fx_qr_preview (alone issued (fx_net db_funded [])) = (Ok v, s') /\ qrRedemptions (sdb s') = [r] /\
  rd_senderCustomerId r = alice.
Proof.
  destruct scan_ok as (v & s' & H & _).
  destruct (qr_preview_sound fx_payments fx_now "qr-intent-token" "AABBCCDDEEFF001122334455" (fx_id 631)
    (fx_id 632) alice_scan issued (fx_net db_funded []) v s' H)
    as (p & q & r & _ & _ & _ & _ & _ & _ & Hr & Hrows & _).
  exists v, s', r. split; [exact H|]. split; [exact Hrows|exact (proj1 (proj2 Hr))].
Defined.

(** ** An expired code that is previewed all the same

    [new Date(x) <= new Date()] is false when [x] is no date, and the signature
    covers fields that are joined without escaping. Bob issues a second code
    whose purpose spells the key and the nonce of the first; read the other way,
    its signature covers the first code with an expiry that is no date. *)
Definition second_issue : QrIssueInput :=
  mkQrIssue bob (wallet_of bob) DYNAMIC (Some "10000"%string) "LKR" (Some "p&keyId=k&nonce=00112233445566778899aabbccddeeff"%string).
Definition second_code : string := Eval vm_compute in
  match (issue fx_payments fx_now "ffeeddccbbaa99887766554433221100" (fx_id 633) second_issue (alone issued (fx_net db_funded []))).1 with
  | Ok o => qo_payload o | Err _ => "" end.
Definition respelled : option SignedQrPayload :=
  p ← decodeQrPayload second_code;
  let d := sq_data p in
  Some (mkSigned (mkQrPayload (qd_version d) (qd_recipientRef d) (qd_currency d) (qd_amountMinor d)
          "00112233445566778899aabbccddeeff"
          (qd_expiresAt d +:+ "&keyId=" +:+ qd_keyId d +:+ "&nonce=" +:+ qd_nonce d +:+ "&purpose=p") (qd_type d) None "k") (sq_signature p)).
Definition next_day : Z := fx_now + 86400000.
Definition respelled_scan : QrPreviewInput :=
  mkQrPreviewInput (from_option encodeQrPayload ""%string respelled) alice (wallet_of alice).
Lemma expiry_evaded :
  (match check_payload fx_payments next_day bob_code with Err e => Some e | Ok _ => None end) =
    Some (qr_error "QR_EXPIRED" "This QR code has expired." 410) /\
  let run := qr_preview fx_payments next_day "qr-intent-token" "AABBCCDDEEFF001122334455" (fx_id 631) (fx_id 632)
               respelled_scan (alone issued (fx_net db_funded [])) in
  is_ok run.1 = true /\ length (qrRedemptions (sdb run.2)) = 1%nat.
Proof. vm_compute. repeat split. Qed.

Lemma bob_code_valid : exists p, check_payload fx_payments fx_now bob_code = Ok p /\
  String.eqb (qd_nonce (sq_data p)) "00112233445566778899aabbccddeeff" = true.
Proof.
  destruct (check_payload fx_payments fx_now bob_code) as [p|e] eqn:H.
  - exists p. split; [done|]. revert H. vm_compute. intros [= <-]. reflexivity.
  - revert H. vm_compute. discriminate.
Qed.
Definition first_code : QrPaymentRequest := Eval vm_compute in
  match qrPaymentRequests scanned with q :: _ => q | [] =>
    mkQrRequest "" STATIC QR_ACTIVE "" "" "" "" "" None None "" "" 0 None 0 end.
Definition first_redemption : QrRedemption := Eval vm_compute in
  match qrRedemptions scanned with r :: _ => r | [] =>
    mkRedemption "" "" "" "" "" "" "" "" "" "" 0 QP_FAILED "" "" "" None None None "" 0 None None end.
Lemma qr_single_preview_witness : exists e s',
  fx_qr_preview (alone scanned (fx_net db_funded [])) = (Err e, s').
Proof.
  destruct bob_code_valid as (p & Hp & Hn). apply String.eqb_eq in Hn.
  apply (qr_single_preview fx_payments fx_now "qr-intent-token" "AABBCCDDEEFF001122334455" (fx_id 631)
    (fx_id 632) alice_scan scanned (fx_net db_funded []) first_code first_redemption p).
  - apply NoDup_singleton.
  - exact Hp.
  - apply list_elem_of_singleton. reflexivity.
  - rewrite Hn. reflexivity.
  - apply list_elem_of_singleton. reflexivity.
  - reflexivity.
Defined.

(** Alice has 1,000.00 LKR and confirms; nothing moves. *)
Definition issue_state : fx_state := (fx_issue (alone emptyPayments (fx_net db_funded []))).2.
Definition scan_state : fx_state := (fx_qr_preview (alone (sdb issue_state) (senv issue_state))).2.
Lemma qr_never_completes_witness :
  let '(r, s) := fx_qr_confirm (alone (sdb scan_state) (senv scan_state)) in
  net_ledger (senv s) = net_ledger (senv scan_state) /\
  match r with Ok v => rv_status v <> QP_COMPLETED | Err _ => True end.
Proof.
  apply (qr_never_completes fx_config fx_now allow_controls allow_evaluation fx_payments fx_now alice_confirms
    fx_correlation (sdb scan_state) (senv scan_state)).
  apply (reached_preview fx_config fx_now allow_controls allow_evaluation fx_payments fx_now "qr-intent-token"
    "AABBCCDDEEFF001122334455" (fx_id 631) (fx_id 632) alice_scan (sdb issue_state) (senv issue_state) []);
    [|constructor].
  apply (reached_issue fx_config fx_now allow_controls allow_evaluation fx_payments fx_now
    "00112233445566778899aabbccddeeff" (fx_id 630) bob_issue emptyPayments (fx_net db_funded []) []); [|constructor].
  apply reached_start. reflexivity.
Defined.
Example qr_confirm_fails :
  status_of rv_status (fx_qr_confirm (alone scanned (fx_net db_funded []))) = Some QP_FAILED.
Proof. vm_compute. reflexivity. Qed.

(** * Agent cash and the Payments reconciliation at concrete inputs *)

(** An agent pays 250.00 LKR in cash to Bob. *)
Definition fx_agent : string := fx_id 700.
Definition cash_input : AgentPreviewInput :=
  match account_of db_wallets bob with
  | Some b => mkAgentPreview fx_agent "AGENT-0001" (ca_publicReference b) "25000" "LKR" OP_CASH_IN
  | None => mkAgentPreview "" "" "" "" "" OP_CASH_IN
  end.
Abbreviation fx_cash_preview :=
  (agent_preview fx_payments fx_now "agent-intent-token" "AABBCCDDEEFF001122334455" cash_input fx_correlation).
Abbreviation cash_start := (alone emptyPayments (fx_net db_funded [])).
Definition cash_state : fx_state := (fx_cash_preview cash_start).2.

Lemma cash_ok : exists v s', fx_cash_preview cash_start = (Ok v, s') /\
  String.eqb (minorUnits (av_amount v)) "25000" = true.
Proof. apply (returned_pay _ (fun v _ => String.eqb (minorUnits (av_amount v)) "25000")). vm_compute. reflexivity. Qed.
Lemma agent_preview_sound_witness : exists v s' o, fx_cash_preview cash_start = (Ok v, s') /\
  agentCashOperations (sdb s') = [o] /\ ag_amountMinor o = 25000.
Proof.
  destruct cash_ok as (v & s' & H & _).
  destruct (agent_preview_sound fx_payments fx_now "agent-intent-token" "AABBCCDDEEFF001122334455" cash_input
    fx_correlation emptyPayments (fx_net db_funded []) v s' H) as (a & o & Ha & _ & _ & Hrows & _ & Hm & _).
  exists v, s', o. split; [exact H|]. split; [exact Hrows|]. rewrite Hm.
  vm_compute in Ha. injection Ha as <-. reflexivity.
Defined.

Definition cash_confirm : AgentConfirmInput := mkAgentConfirm fx_agent "agent-intent-token" "agent-confirm-0001".
Abbreviation fx_cash_confirm := (agent_confirm fx_now cash_confirm fx_correlation).
Lemma agent_never_completes_witness :
  let '(r, s) := fx_cash_confirm (alone (sdb cash_state) (senv cash_state)) in
  net_ledger (senv s) = net_ledger (senv cash_state) /\
  match r with Ok v => ov_status v <> AG_COMPLETED | Err _ => True end.
Proof.
  apply (agent_never_completes fx_config fx_now allow_controls allow_evaluation fx_payments fx_now cash_confirm
    fx_correlation (sdb cash_state) (senv cash_state)).
  apply (agent_previewed fx_config fx_now allow_controls allow_evaluation fx_payments fx_now "agent-intent-token"
    "AABBCCDDEEFF001122334455" cash_input fx_correlation emptyPayments (fx_net db_funded []) []); [|constructor].
  apply agent_start. reflexivity.
Defined.
Example cash_confirm_fails :
  status_of ov_status (fx_cash_confirm (alone (sdb cash_state) (senv cash_state))) = Some AG_FAILED.
Proof. vm_compute. reflexivity. Qed.

(** ** Reconciliation *)
Lemma payments_reconciled : exists r s',
  run_payments_reconciliation fx_now (alone processing (fx_net moved_ledger [])) = (Ok r, s') /\ pn_pass r = true.
Proof. apply (returned_pay _ (fun r _ => pn_pass r)). vm_compute. reflexivity. Qed.
Lemma payments_reconciliation_verdict_witness : books_closed processing.
Proof.
  destruct payments_reconciled as (r & s' & H & Hp).
  exact (proj1 (proj1 (payments_reconciliation_verdict fx_now processing (fx_net moved_ledger []) r s' H)) Hp).
Defined.

(** * The USSD menu at concrete inputs *)

Lemma ussd_amount_bounds_witness :
  exists z, ussd_amount "0.29" = bigint_to_string z /\ cents_of "0.29" - 1 <= z <= cents_of "0.29".
Proof. apply (ussd_amount_bounds "0.29"); vm_compute; [reflexivity|discriminate]. Defined.

(** Alice is asked for an amount. *)
Definition quiet_message (e : PaymentsErr) : string := "error".
Definition fx_session : string := "session-1".
Definition asking : Redis :=
  {[ ussd_key "aegis:" fx_session :=
       (text (ussd_json (session_state "+94770000000" alice (SAmount "AEGIS-REF" "account"))), Some (fx_now + 1000)) ]}.
Definition typed (s : string) : UssdInput := mkUssdInput fx_session "+94770000000" s.
Lemma ussd_refines_witness : exists r' : Redis,
  handleWebhook "aegis:" fx_now quiet_message (fx_id 800) "0A1B2C3D" (typed "0.29") fx_correlation (Some alice)
    (alone asking (fx_net db_funded [])) =
  (Ok (mkUssdReply fx_session (confirm_text "0.29" "AEGIS-REF") "response"), alone r' (fx_net db_funded [])) /\
  session_at fx_now (ussd_key "aegis:" fx_session) (SConfirm "AEGIS-REF" "account" "28") r'.
Proof.
  destruct (ussd_refines quiet_message "aegis:" fx_now (fx_id 800) "0A1B2C3D" (typed "0.29") alice fx_correlation
    (SAmount "AEGIS-REF" "account") asking (fx_net db_funded [])) as (r' & Hrun & Hnext & _).
  - exists "+94770000000"%string, alice. vm_compute. reflexivity.
  - discriminate.
  - exists r'. split; [exact Hrun|exact Hnext].
Defined.
