(* ===== verification/RiskDb.v ===== *)
(** * The store of the Risk service: the tables of [services/risk/prisma] with
    the statements that write them, and the velocity counters in Redis
    ([events/velocity.service.ts], [redis/redis.service.ts]) *)

From Stdlib Require Import ZArith Lia Ascii String.
From stdpp Require Import base strings list gmap.
From S2P Require Import Prelude.
From S2P Require Import Js.
From S2P Require Import Services.
From S2P Require Import JsNumber.
From S2P Require Import Contracts.
From S2P Require Import Security.
From S2P Require Import LedgerDb.
From S2P Require Import RiskTypes.
From S2P Require Import PaymentsDb.

Open Scope Z_scope.

Inductive RiskErr :=
| RiskHttpError (status : Z) (code : string)   (* Nest's HttpException and its subclasses *)
| RiskUnique (fields : list string)            (* P2002 *)
| RiskDbError (code : string)                  (* any other database or Redis error *)
| RiskJsError (name : string).                 (* Error, SyntaxError, ZodError *)

Record RiskConfig := mkRiskConfig {
  rk_host : string;
  rk_port : Z;
  rk_databaseUrl : string;
  rk_redisUrl : string;
  rk_internalToken : string;
  sourceTokens : RiskSource -> string;
  redisPrefix : string;
  retentionDays : Z;
  assessmentTtlSeconds : Z;
  staleSourceSeconds : Z;
  operatorBootstrapToken : option string;
  operatorSessionTtlSeconds : Z;
  highValueMinor : Z;
  cumulativeValueMinor : Z;
  rk_identityServiceUrl : string;
  rk_identityInternalToken : string;
  rk_identityTimeoutMs : Z
}.

(** ** Rows *)
Record SecurityEventRow := mkEventRow {
  sr_event : SecurityEventV1;
  sr_occurredAt : Z;
  sr_receivedAt : Z
}.
Record AssessmentRow := mkAssessmentRow {
  am_id : string;
  am_evaluationId : string;
  am_subjectId : string;
  am_operation : RiskOperation;
  am_score : Z;
  am_band : RiskBand;
  am_decision : RiskDecision;
  am_triggeredRules : list string;
  am_reasonCodes : list string;
  am_controlRecommendation : option ControlType;
  am_inputFacts : json;
  am_ruleSetVersion : string;
  am_publicExplanation : string;
  am_expiresAt : Z;
  am_createdAt : Z
}.
Record ControlAction := mkControlAction {
  ca_controlId : string;
  ca_idempotencyKeyHash : string;
  ca_type : ControlType;
  ca_scopeType : ControlScope;
  ca_scopeId : string;
  ca_operation : option RiskOperation;
  ca_reasonCode : string;
  ca_controlStatus : ControlStatus;
  ca_assessmentId : option string;
  ca_incidentId : option string;
  ca_createdBy : string;
  ca_expiresAt : Z;
  ca_controlCreatedAt : Z
}.
Record ControlEvent := mkControlEvent {
  cv_controlId : string;
  cv_eventType : string;
  cv_actorId : string;
  cv_reason : string;
  cv_occurredAt : Z
}.
Record Incident := mkIncident {
  in_id : string;
  in_assessmentId : option string;
  in_severity : RiskSeverity;
  in_status : IncidentStatus;
  in_title : string;
  in_assignedTo : option string;
  in_resolutionReason : option string;
  in_createdAt : Z;
  in_resolvedAt : option Z
}.
Record IncidentEvent := mkIncidentEvent {
  ie_incidentId : string;
  ie_eventType : string;
  ie_actorId : string;
  ie_note : option string;
  ie_occurredAt : Z
}.
Record SourceHealth := mkSourceHealth {
  sh_source : RiskSource;
  sh_lastEventId : string;
  sh_lastOccurredAt : Z;
  sh_lastReceivedAt : Z;
  sh_acceptedCount : Z;
  sh_duplicateCount : Z
}.
Record OperatorAudit := mkOperatorAudit {
  oa_operatorId : string;
  oa_action : string;
  oa_targetType : string;
  oa_targetId : string;
  oa_reason : string;
  oa_correlationId : string;
  oa_occurredAt : Z
}.
(** A Redis counter and the time its key expires. *)
Record Counter := mkCounter { cn_value : Z; cn_expiresAt : option Z }.

Record RiskStore := mkRiskStore {
  securityEvents : list SecurityEventRow;
  assessments : list AssessmentRow;
  controlActions : list ControlAction;
  controlEvents : list ControlEvent;
  incidents : list Incident;
  incidentEvents : list IncidentEvent;
  sourceHealth : list SourceHealth;
  operatorAudits : list OperatorAudit;
  counters : gmap string Counter;
  operatorSessions : Redis;
  risk_uuidCounter : N
}.
Definition emptyRisk : RiskStore := mkRiskStore [] [] [] [] [] [] [] [] ∅ ∅ 0.
Definition set_security_events f st := mkRiskStore (f (securityEvents st)) (assessments st) (controlActions st) (controlEvents st)
  (incidents st) (incidentEvents st) (sourceHealth st) (operatorAudits st)
  (counters st) (operatorSessions st) (risk_uuidCounter st).
Definition set_assessments f st := mkRiskStore (securityEvents st) (f (assessments st)) (controlActions st) (controlEvents st)
  (incidents st) (incidentEvents st) (sourceHealth st) (operatorAudits st)
  (counters st) (operatorSessions st) (risk_uuidCounter st).
Definition set_controls f st := mkRiskStore (securityEvents st) (assessments st) (f (controlActions st)) (controlEvents st)
  (incidents st) (incidentEvents st) (sourceHealth st) (operatorAudits st)
  (counters st) (operatorSessions st) (risk_uuidCounter st).
Definition set_control_events f st := mkRiskStore (securityEvents st) (assessments st) (controlActions st) (f (controlEvents st))
  (incidents st) (incidentEvents st) (sourceHealth st) (operatorAudits st)
  (counters st) (operatorSessions st) (risk_uuidCounter st).
Definition set_incidents f st := mkRiskStore (securityEvents st) (assessments st) (controlActions st) (controlEvents st)
  (f (incidents st)) (incidentEvents st) (sourceHealth st) (operatorAudits st)
  (counters st) (operatorSessions st) (risk_uuidCounter st).
Definition set_incident_events f st := mkRiskStore (securityEvents st) (assessments st) (controlActions st) (controlEvents st)
  (incidents st) (f (incidentEvents st)) (sourceHealth st) (operatorAudits st)
  (counters st) (operatorSessions st) (risk_uuidCounter st).
Definition set_sources f st := mkRiskStore (securityEvents st) (assessments st) (controlActions st) (controlEvents st)
  (incidents st) (incidentEvents st) (f (sourceHealth st)) (operatorAudits st)
  (counters st) (operatorSessions st) (risk_uuidCounter st).
Definition set_audits f st := mkRiskStore (securityEvents st) (assessments st) (controlActions st) (controlEvents st)
  (incidents st) (incidentEvents st) (sourceHealth st) (f (operatorAudits st))
  (counters st) (operatorSessions st) (risk_uuidCounter st).
Definition set_counters f st := mkRiskStore (securityEvents st) (assessments st) (controlActions st) (controlEvents st)
  (incidents st) (incidentEvents st) (sourceHealth st) (operatorAudits st)
  (f (counters st)) (operatorSessions st) (risk_uuidCounter st).
Definition set_operator_sessions f st := mkRiskStore (securityEvents st) (assessments st) (controlActions st) (controlEvents st)
  (incidents st) (incidentEvents st) (sourceHealth st) (operatorAudits st)
  (counters st) (f (operatorSessions st)) (risk_uuidCounter st).
Definition set_risk_uuid f st := mkRiskStore (securityEvents st) (assessments st) (controlActions st) (controlEvents st)
  (incidents st) (incidentEvents st) (sourceHealth st) (operatorAudits st)
  (counters st) (operatorSessions st) (f (risk_uuidCounter st)).

Abbreviation RiskM := (M RiskStore RiskErr).

(** A query without [orderBy] returns its rows in an order of the database's
    own. *)
Class RowOrder := {
  unordered : forall {A}, list A -> list A;
  unordered_perm : forall {A} (l : list A), unordered l ≡ₚ l
}.

Definition risk_check (ok : bool) (what : string) : RiskM unit := throw_when (negb ok) (RiskDbError what).
Definition risk_unique {A} (rows : list A) (same : A -> bool) (fields : list string) : RiskM unit :=
  throw_when (existsb same rows) (RiskUnique fields).
Definition fits_option (n : nat) (o : option string) : bool := when_present (fits n) o.
Definition same_source (a b : RiskSource) : bool := bool_decide (a = b).

Section Statements.
Context {pg : Postgres}.
(** The clock of the service and of its database. *)
Variable now : Z.

Definition risk_uuid : RiskM string := fun st => (Ok (uuid (risk_uuidCounter st)), set_risk_uuid N.succ st).

(** [securityEvent.create] *)
Definition create_security_event (e : SecurityEventV1) : RiskM SecurityEventRow :=
  occurredAt ← require (date_parse (se_occurredAt e)) (RiskDbError "Invalid Date");
  st ← get;
  _ ← risk_unique (securityEvents st) (fun r => String.eqb (se_eventId (sr_event r)) (se_eventId e)) ["id"];
  _ ← risk_unique (securityEvents st)
        (fun r => same_source (se_source (sr_event r)) (se_source e)
                  && String.eqb (se_sourceEventId (sr_event r)) (se_sourceEventId e)) ["source"; "sourceEventId"];
  _ ← risk_check (pg_uuid (se_eventId e) && pg_uuid (se_correlationId e) && fits 128 (se_sourceEventId e)
                  && fits_option 128 (se_subjectId e) && fits_option 128 (se_accountId e)
                  && fits_option 128 (se_sessionId e) && fits_option 128 (se_deviceId e)
                  && fits_option 128 (se_recipientId e)) "security_events";
  let row := mkEventRow e occurredAt now in
  _ ← modify (set_security_events (fun l => l ++ [row]));
  mret row.

(** [sourceHealth.upsert] *)
Definition accept_source (e : SecurityEventV1) (receivedAt : Z) : RiskM unit :=
  occurredAt ← require (date_parse (se_occurredAt e)) (RiskDbError "Invalid Date");
  let mine r := same_source (sh_source r) (se_source e) in
  st ← get;
  if existsb mine (sourceHealth st) then
    modify (set_sources (map (fun r => if mine r then
      mkSourceHealth (sh_source r) (se_eventId e) occurredAt receivedAt (sh_acceptedCount r + 1) (sh_duplicateCount r)
      else r)))
  else modify (set_sources (fun l => l ++ [mkSourceHealth (se_source e) (se_eventId e) occurredAt receivedAt 1 0])).
(** [sourceHealth.update] *)
Definition count_duplicate (source : RiskSource) : RiskM unit :=
  let mine r := same_source (sh_source r) source in
  st ← get;
  _ ← risk_check (existsb mine (sourceHealth st)) "P2025";
  modify (set_sources (map (fun r => if mine r then
    mkSourceHealth (sh_source r) (sh_lastEventId r) (sh_lastOccurredAt r) (sh_lastReceivedAt r) (sh_acceptedCount r)
      (sh_duplicateCount r + 1)
    else r))).

(** [riskAssessment.create], with the checks of the migration. *)
Definition create_assessment (a : AssessmentRow) : RiskM AssessmentRow :=
  st ← get;
  _ ← risk_unique (assessments st) (fun r => String.eqb (am_id r) (am_id a)) ["id"];
  _ ← risk_unique (assessments st) (fun r => String.eqb (am_evaluationId r) (am_evaluationId a)) ["evaluationId"];
  _ ← risk_check (pg_uuid (am_id a) && pg_uuid (am_evaluationId a) && fits 128 (am_subjectId a)
                  && (0 <=? am_score a) && (am_score a <=? 100) && (am_createdAt a <? am_expiresAt a))
        "risk_assessments";
  _ ← modify (set_assessments (fun l => l ++ [a]));
  mret a.

(** [incident.create], with its nested event. *)
Definition create_incident (assessmentId : string) (severity : RiskSeverity) (title actor note : string) : RiskM Incident :=
  id ← risk_uuid;
  st ← get;
  _ ← risk_unique (incidents st) (fun r => String.eqb (in_id r) id) ["id"];
  _ ← risk_check (existsb (fun r => String.eqb (am_id r) assessmentId) (assessments st) && fits 160 title
                  && fits 1000 note) "incidents";
  let row := mkIncident id (Some assessmentId) severity OPEN title None None now None in
  _ ← modify (set_incidents (fun l => l ++ [row]));
  _ ← modify (set_incident_events (fun l => l ++ [mkIncidentEvent id "CREATED" actor (Some note) now]));
  mret row.

(** [controlAction.create], with its nested event: [assessmentId] and
    [incidentId] refer to rows. *)
Definition create_control (mk : string -> ControlAction) (actor reason : string) : RiskM ControlAction :=
  id ← risk_uuid;
  st ← get;
  let c := mk id in
  _ ← risk_unique (controlActions st) (fun r => String.eqb (ca_controlId r) id) ["id"];
  _ ← risk_unique (controlActions st)
        (fun r => String.eqb (ca_idempotencyKeyHash r) (ca_idempotencyKeyHash c)) ["idempotencyKeyHash"];
  _ ← risk_check (fits 128 (ca_scopeId c) && fits 64 (ca_reasonCode c) && fits 128 (ca_createdBy c) && fits 500 reason
                  && (ca_controlCreatedAt c <? ca_expiresAt c)
                  && when_present (fun a => existsb (fun r => String.eqb (am_id r) a) (assessments st)) (ca_assessmentId c)
                  && when_present (fun i => existsb (fun r => String.eqb (in_id r) i) (incidents st)) (ca_incidentId c))
        "control_actions";
  _ ← modify (set_controls (fun l => l ++ [c]));
  _ ← modify (set_control_events (fun l => l ++ [mkControlEvent id "CREATED" actor reason now]));
  mret c.
Definition with_status (status : ControlStatus) (c : ControlAction) : ControlAction :=
  mkControlAction (ca_controlId c) (ca_idempotencyKeyHash c) (ca_type c) (ca_scopeType c) (ca_scopeId c)
    (ca_operation c) (ca_reasonCode c) status (ca_assessmentId c) (ca_incidentId c) (ca_createdBy c) (ca_expiresAt c)
    (ca_controlCreatedAt c).
(** [controlAction.update({ data: { status, events: { create } } })] *)
Definition close_control (id : string) (status : ControlStatus) (eventType actor reason : string) : RiskM ControlAction :=
  st ← get;
  c ← require (find_row ca_controlId id (controlActions st)) (RiskDbError "P2025");
  _ ← risk_check (fits 500 reason && fits 128 actor) "control_events";
  _ ← modify (set_controls (update_row ca_controlId id (with_status status)));
  _ ← modify (set_control_events (fun l => l ++ [mkControlEvent id eventType actor reason now]));
  mret (with_status status c).

(** ** Counters *)
Definition live_counter (key : string) (st : RiskStore) : option Counter :=
  c ← counters st !! key;
  if when_present (fun t => now <? t) (cn_expiresAt c) then Some c else None.
(** [MULTI; INCRBY key amount; EXPIRE key seconds NX; EXEC] *)
Definition incr_expire (key : string) (amount seconds : Z) : RiskM Z := fun st =>
  let c := default (mkCounter 0 None) (live_counter key st) in
  let v := cn_value c + amount in
  let expiresAt := match cn_expiresAt c with Some t => Some t | None => Some (now + seconds * 1000) end in
  if int64_ok v then (Ok v, set_counters <[key := mkCounter v expiresAt]> st)
  else (Err (RiskDbError "ERR increment or decrement would overflow"), st).
End Statements.
