(* ===== verification/RiskService.v ===== *)
(** * The Risk service: assessments, controls, incidents, events, retention and
    reconciliation ([services/risk/src]) *)

From Stdlib Require Import ZArith Lia Ascii String.
From stdpp Require Import base strings list gmap.
From S2P Require Import Prelude.
From S2P Require Import Js.
From S2P Require Import JsNumber.
From S2P Require Import Contracts.
From S2P Require Import Security.
From S2P Require Import LedgerDb.
From S2P Require Import RiskTypes.
From S2P Require Import RiskEngine.
From S2P Require Import Services.
From S2P Require Import PaymentsDb.
From S2P Require Import RiskDb.

Open Scope Z_scope.

(** The Identity service: whether a revocation was answered with success. *)
Class IdentityPeer (Env : Type) := { post_revoke : string -> string -> string -> Env -> bool * Env }.

Record IngestResult := mkIngested { ig_id : string; ig_duplicate : bool; ig_receivedAt : string }.
Record ApplyControl := mkApplyControl {
  ap_idempotencyKey : string;
  ap_type : ControlType;
  ap_scopeType : ControlScope;
  ap_scopeId : string;
  ap_reasonCode : string;
  ap_controlExpiresAt : string;
  ap_incidentId : option string
}.
Record IncidentUpdate := mkIncidentUpdate {
  iu_status : option IncidentStatus;
  iu_assignedTo : option string;
  iu_note : option string;
  iu_resolutionReason : option string
}.
Record RiskIssues := mkRiskIssues {
  ri_orphanControls : Z;
  ri_orphanControlEvents : Z;
  ri_orphanIncidentEvents : Z;
  ri_unhandledHigh : Z;
  ri_staleSources : Z
}.
Record RiskRun := mkRiskRun { rr_pass : bool; rr_expiredControls : Z; rr_issues : RiskIssues }.

Definition automated : string := "automated:risk-engine".
Definition count_rows {A} (P : A -> bool) (l : list A) : Z := Z.of_nat (length (filter (fun a => P a = true) l)).
Definition truthy_string (o : option string) : option string :=
  match o with Some s => if String.eqb s "" then None else Some s | None => None end.
Definition or_else {A} (a b : option A) : option A := match a with Some x => Some x | None => b end.

Section Service.
Context {Env : Type} {zod : Zod} {crypto : Crypto} {pg : Postgres} {rows : RowOrder} {identity : IdentityPeer Env}.
Abbreviation RiskS := (M (System RiskStore Env) RiskErr).
Variable config : RiskConfig.
Variable now : Z.

(** ** Velocity *)

(** [part.replace(/[^A-Za-z0-9:_-]/gu, '_')] *)
Definition key_part (s : string) : string :=
  str_map (fun c => if in_range "a" "z" c || in_range "A" "Z" c || is_digit c || Ascii.eqb c ":" || Ascii.eqb c "_"
                       || Ascii.eqb c "-" then c else "_"%char) s.
Definition velocity_key (scopeId signal : string) : string :=
  redisPrefix config +:+ join ":" (map key_part ["velocity"%string; signal; sha256 scopeId]).
(** [Number(value)] of a counter. *)
Definition counter_number (v : Z) : Z := default v (integer_value (number_of_Z v)).
Definition increment (scopeId signal : string) (windowSeconds amount : Z) : RiskS Z :=
  v ← atomic (incr_expire now (velocity_key scopeId signal) amount windowSeconds);
  mret (counter_number v).
Definition read_counter (scopeId signal : string) (st : RiskStore) : Z :=
  match live_counter now (velocity_key scopeId signal) st with
  | Some c => counter_number (cn_value c)
  | None => 0
  end.
Definition read (scopeId signal : string) : RiskS Z := atomic (gets (read_counter scopeId signal)).

(** ** Events *)
Definition source_ok (expected token : string) : bool :=
  negb (String.eqb expected "") && timingSafeStringEqual token expected.
Definition authenticate (source : RiskSource) (token : string) : RiskS unit :=
  throw_when (negb (source_ok (sourceTokens config source) token)) (RiskHttpError 401 "Unauthorized").
Definition all_sources : list RiskSource := [GATEWAY; IDENTITY; PAYMENTS; LEDGER; INFRASTRUCTURE; CHANNEL_ADAPTER].
Definition authenticateSourceToken (token : string) : RiskS unit :=
  throw_when (negb (existsb (fun s => timingSafeStringEqual token (sourceTokens config s)) all_sources))
    (RiskHttpError 401 "Unauthorized").

(** [Number(event.attributes.amountMinor || 0)], when it is a positive safe
    integer. *)
Definition attribute_number (v : json) : number :=
  match v with
  | JStr s => if String.eqb s "" then Fin 0 0 else Number_of_string s
  | JNum z => number_of_Z z
  | JBool true => Fin 1 0
  | JBool false | JNull | JUndef => Fin 0 0
  | _ => NaN
  end.
Definition event_amount (e : SecurityEventV1) : option Z :=
  z ← safe_integer (attribute_number (jfield "amountMinor" (JObj (se_attributes e))));
  if 0 <? z then Some z else None.

Definition when (b : bool) (m : RiskS Z) : RiskS unit := if b then _ ← m; mret tt else mret tt.
Definition updateVelocity (e : SecurityEventV1) (subject : string) : RiskS unit :=
  let type := se_eventType e in
  let one signal seconds := increment subject signal seconds 1 in
  _ ← one "requests:60s"%string 60;
  _ ← when (bool_decide (type ∈ [LOGIN_FAILURE; PIN_FAILURE; OTP_FAILURE; ACCOUNT_LOCK]))
        (one "auth-failures:600s"%string 600);
  _ ← (if bool_decide (type ∈ [TRANSFER_PREVIEW; TRANSFER_CONFIRMATION]) then
         _ ← one "transfers:600s"%string 600;
         match event_amount e with
         | Some amount => _ ← increment subject "outgoing:86400s" 86400 amount; mret tt
         | None => mret tt
         end
       else mret tt);
  _ ← when (bool_decide (type = INSUFFICIENT_FUNDS_EVENT)) (one "insufficient:600s"%string 600);
  _ ← when (bool_decide (type = IDEMPOTENCY_CONFLICT_EVENT)) (one "idempotency:600s"%string 600);
  when (bool_decide (type ∈ [CSRF_FAILURE; MALFORMED_REQUEST])) (one "invalid-sensitive:600s"%string 600).

Definition same_event (source : RiskSource) (sourceEventId : string) (r : SecurityEventRow) : bool :=
  same_source (se_source (sr_event r)) source && String.eqb (se_sourceEventId (sr_event r)) sourceEventId.
Definition record_event (e : SecurityEventV1) : RiskM SecurityEventRow :=
  row ← create_security_event now e; _ ← accept_source e now; mret row.
Definition ingest (e : SecurityEventV1) (sourceToken : string) : RiskS IngestResult :=
  _ ← authenticate (se_source e) sourceToken;
  sourceRate ← increment (source_str (se_source e)) "ingestion-source:60s" 60 1;
  _ ← throw_when (1000 <? sourceRate) (RiskHttpError 429 "SOURCE_RATE_LIMITED");
  try_catch
    (created ← atomic (transaction (fun _ _ => None) (record_event e));
     _ ← match truthy_string (se_subjectId e) with
         | Some subject => updateVelocity e subject
         | None => mret tt
         end;
     mret (mkIngested (se_eventId (sr_event created)) false (toISOString (sr_receivedAt created))))
    (fun error => match error with
                  | RiskUnique _ =>
                      existing ← atomic (gets (fun st => find (same_event (se_source e) (se_sourceEventId e)) (securityEvents st)));
                      existing ← require existing (RiskDbError "P2025");
                      _ ← atomic (count_duplicate (se_source e));
                      mret (mkIngested (se_eventId (sr_event existing)) true (toISOString (sr_receivedAt existing)))
                  | _ => throw error
                  end).
(** [EventController.ingest] *)
Definition ingest_endpoint (e : SecurityEventV1) (token : option string) : RiskS IngestResult :=
  let sourceToken := trim (default "" token) in
  _ ← authenticateSourceToken sourceToken;
  _ ← throw_when (negb (securityEventV1Schema e)) (RiskJsError "ZodError");
  ingest e sourceToken.

(** ** Assessments *)
Definition integrity_events : list SecurityEventType :=
  [RECONCILIATION_ANOMALY; UNBALANCED_JOURNAL; INTEGRITY_FAILURE; TAMPER_SIGNAL].
Definition occurred_since (t : Z) (r : SecurityEventRow) : bool := t <=? sr_occurredAt r.
Definition has_subject (subject : string) (r : SecurityEventRow) : bool :=
  bool_decide (se_subjectId (sr_event r) = Some subject).
Definition device_subjects (deviceId : string) (st : RiskStore) : Z :=
  Z.of_nat (length (take 20 (remove_dups (omap (fun r =>
    if bool_decide (se_deviceId (sr_event r) = Some deviceId) && occurred_since (now - 86400000) r
    then se_subjectId (sr_event r) else None) (securityEvents st))))).
Definition count_events (subject : string) (types : list SecurityEventType) (since : Z) (st : RiskStore) : Z :=
  count_rows (fun r => has_subject subject r && bool_decide (se_eventType (sr_event r) ∈ types) && occurred_since since r)
    (securityEvents st).
Definition unresolved (i : Incident) : bool := bool_decide (in_status i ∈ [OPEN; INVESTIGATING; CONTAINED]).
Definition about_subject (subject : string) (st : RiskStore) (i : Incident) : bool :=
  existsb (fun a => bool_decide (in_assessmentId i = Some (am_id a)) && String.eqb (am_subjectId a) subject) (assessments st).
Definition active_incidents (subject : string) (st : RiskStore) : Z :=
  count_rows (fun i => about_subject subject st i && unresolved i) (incidents st).
Definition in_force (c : ControlAction) : bool := bool_decide (ca_controlStatus c = CS_ACTIVE) && (now <? ca_expiresAt c).
Definition customer_controls (subject : string) (st : RiskStore) : list ControlType :=
  ca_type <$> take 20 (unordered (filter (fun c => (bool_decide (ca_scopeType c = CUSTOMER)
    && String.eqb (ca_scopeId c) subject && in_force c) = true) (controlActions st))).
Definition blocking_types : list ControlType := [TEMPORARY_BLOCK; QUARANTINE; ACCOUNT_RESTRICT; RECIPIENT_BLOCK].

Definition facts (input : RiskEvaluationRequest) : RiskS RiskFacts :=
  let subject := ev_subjectId input in
  authFailures ← read subject "auth-failures:600s";
  requestVelocity ← read subject "requests:60s";
  transferVelocity ← read subject "transfers:600s";
  cumulative ← read subject "outgoing:86400s";
  insufficient ← read subject "insufficient:600s";
  idempotency ← read subject "idempotency:600s";
  invalid ← read subject "invalid-sensitive:600s";
  deviceSubjects ← match truthy_string (ev_deviceId input) with
                   | Some d => atomic (gets (device_subjects d))
                   | None => mret 0
                   end;
  integrity ← atomic (gets (count_events subject integrity_events (now - 86400000)));
  internalAuth ← atomic (gets (count_events subject [INTERNAL_AUTH_FAILURE; INVALID_SERVICE_TOKEN] (now - 3600000)));
  newRecipient ← match truthy_string (ev_recipientId input) with
                 | Some r => atomic (gets (fun st => count_rows (fun e =>
                     has_subject subject e && bool_decide (se_recipientId (sr_event e) = Some r)
                     && bool_decide (se_eventType (sr_event e) = NEW_RECIPIENT) && occurred_since (now - 86400000) e)
                     (securityEvents st)))
                 | None => mret 0
                 end;
  activeIncident ← atomic (gets (active_incidents subject));
  activeControls ← atomic (gets (customer_controls subject));
  let blocking := existsb (fun t => bool_decide (t ∈ blocking_types)) activeControls in
  let relevantControl :=
    existsb (fun t => negb (bool_decide (t = REQUIRE_STEP_UP)) || negb (ev_stepUpVerified input)) activeControls in
  mret (mkFacts authFailures requestVelocity transferVelocity cumulative (0 <? newRecipient) insufficient idempotency
          deviceSubjects false (0 <? integrity) internalAuth invalid blocking (0 <? activeIncident) relevantControl).

Definition service_thresholds : RiskThresholds :=
  mkThresholds 5 60 5 (cumulativeValueMinor config) (highValueMinor config) 3 2 3 5.
Definition response (row : AssessmentRow) : result RiskErr RiskAssessment :=
  let a := mkAssessment (am_id row) (am_score row) (am_band row) (am_decision row) (am_triggeredRules row)
             (am_reasonCodes row) (am_controlRecommendation row) (toISOString (am_expiresAt row))
             (am_ruleSetVersion row) (am_publicExplanation row) in
  if riskAssessmentSchema a then Ok a else Err (RiskJsError "ZodError").
Definition present (o : option string) : json := JBool (bool_decide (is_Some (truthy_string o))).
Definition input_facts (input : RiskEvaluationRequest) : json :=
  JObj [("operation", JStr (operation_str (ev_operation input))); ("hasSession", present (ev_sessionId input));
        ("hasDevice", present (ev_deviceId input)); ("hasAccount", present (ev_accountId input));
        ("hasRecipient", present (ev_recipientId input));
        ("amountMinor", from_option JStr JUndef (ev_amountMinor input));
        ("stepUpVerified", JBool (ev_stepUpVerified input))]%string.
Definition band_text (b : RiskBand) : string :=
  match b with LOW => "low" | MEDIUM => "medium" | HIGH => "high" | CRITICAL => "critical" end.
Definition alarming (b : RiskBand) : option RiskSeverity :=
  match b with HIGH => Some SEV_HIGH | CRITICAL => Some SEV_CRITICAL | _ => None end.
Definition control_text (t : ControlType) : string :=
  match t with
  | REQUIRE_STEP_UP => "REQUIRE_STEP_UP" | TEMPORARY_BLOCK => "TEMPORARY_BLOCK" | TRANSFER_HOLD => "TRANSFER_HOLD"
  | RECIPIENT_BLOCK => "RECIPIENT_BLOCK" | SESSION_REVOKE => "SESSION_REVOKE" | ACCOUNT_RESTRICT => "ACCOUNT_RESTRICT"
  | MANUAL_REVIEW => "MANUAL_REVIEW" | QUARANTINE => "QUARANTINE"
  end.
Definition control_seconds (b : RiskBand) : Z := match b with CRITICAL => 900 | HIGH => 600 | _ => 300 end.
Definition nonempty (s alternative : string) : string := if String.eqb s "" then alternative else s.

(** The transaction of [evaluate]. *)
Definition record_assessment (assessmentId : string) (input : RiskEvaluationRequest) (r : EngineResult)
  : RiskM AssessmentRow :=
  assessment ← create_assessment
    (mkAssessmentRow assessmentId (ev_evaluationId input) (ev_subjectId input) (ev_operation input) (en_score r)
       (en_band r) (en_decision r) (en_triggeredRules r) (en_reasonCodes r) (en_controlRecommendation r)
       (input_facts input) RULE_SET_VERSION (en_publicExplanation r) (now + assessmentTtlSeconds config * 1000) now);
  incidentId ← match alarming (en_band r) with
               | Some severity =>
                   incident ← create_incident now assessmentId severity
                     ("Automated " +:+ band_text (en_band r) +:+ " risk assessment") automated
                     (nonempty (join ", " (en_reasonCodes r)) "High aggregate risk");
                   mret (Some (in_id incident))
               | None => mret None
               end;
  _ ← match en_controlRecommendation r with
      | Some type =>
          c ← create_control now (fun id =>
            mkControlAction id (sha256 ("assessment:" +:+ assessmentId +:+ ":" +:+ control_text type)) type CUSTOMER
              (ev_subjectId input) (Some (ev_operation input))
              (nonempty (default ""%string (head (en_reasonCodes r))) "RISK_SCORE_THRESHOLD") CS_ACTIVE
              (Some assessmentId) incidentId automated (now + control_seconds (en_band r) * 1000) now)
            automated ("Deterministic assessment " +:+ assessmentId);
          mret tt
      | None => mret tt
      end;
  mret assessment.

Definition evaluate (assessmentId : string) (input : RiskEvaluationRequest) : RiskS RiskAssessment :=
  existing ← atomic (gets (fun st => find (fun a => String.eqb (am_evaluationId a) (ev_evaluationId input)) (assessments st)));
  match existing with
  | Some row => lift_result (response row)
  | None =>
      f ← facts input;
      r ← require (evaluateRisk input f service_thresholds) (RiskJsError "SyntaxError");
      created ← atomic (transaction (fun _ _ => None) (record_assessment assessmentId input r));
      lift_result (response created)
  end.

(** ** Controls *)
Definition due_controls (st : RiskStore) : list ControlAction :=
  take 500 (unordered (filter (fun c =>
    (bool_decide (ca_controlStatus c = CS_ACTIVE) && (ca_expiresAt c <=? now)) = true) (controlActions st))).
Definition expire : RiskS Z :=
  due ← atomic (gets due_controls);
  _ ← for_each (fun c => atomic (close_control now (ca_controlId c) CS_EXPIRED "EXPIRED" "automated:expiry-job"
        "Configured control expiry reached.")) due;
  mret (Z.of_nat (length due)).
Definition in_scope (scopes : list ScopeRef) (c : ControlAction) : bool :=
  existsb (fun s => bool_decide (ca_scopeType c = sc_type s) && String.eqb (ca_scopeId c) (sc_id s)) scopes.
Definition check_response (found : list ControlAction) : ControlCheckResponse :=
  let types := map ca_type found in
  let quarantine := existsb (fun t => bool_decide (t = QUARANTINE)) types in
  let blocked := quarantine
    || existsb (fun t => bool_decide (t ∈ [TEMPORARY_BLOCK; ACCOUNT_RESTRICT; RECIPIENT_BLOCK])) types in
  let held := existsb (fun t => bool_decide (t ∈ [TRANSFER_HOLD; MANUAL_REVIEW])) types in
  let stepUp := existsb (fun t => bool_decide (t = REQUIRE_STEP_UP)) types in
  mkControlResponse (negb blocked && negb held)
    (if quarantine then D_QUARANTINE else if blocked then BLOCK else if held then HOLD_FOR_REVIEW
     else if stepUp then D_REQUIRE_STEP_UP else ALLOW)
    (unique (map ca_reasonCode found)) stepUp
    (match found with
     | [] => None
     | c :: rest => Some (toISOString (foldl Z.min (ca_expiresAt c) (map ca_expiresAt rest)))
     end).
Definition matching (scopes : list ScopeRef) (st : RiskStore) : list ControlAction :=
  sort_by_Z ca_controlCreatedAt (unordered (filter (fun c => (in_force c && in_scope scopes c) = true) (controlActions st))).
Definition check (scopes : list ScopeRef) : RiskS ControlCheckResponse :=
  _ ← expire;
  found ← atomic (gets (matching scopes));
  mret (check_response found).

Definition revokeSession (c : ControlAction) : RiskS unit :=
  ok ← remote (fun env => let '(ok, env') := post_revoke (ca_scopeId c) (ca_controlId c) (ca_reasonCode c) env in (Ok ok, env'));
  throw_when (negb ok) (RiskHttpError 503 "IDENTITY_CONTROL_UNAVAILABLE").
Definition revoke_if_session (c : ControlAction) : RiskS ControlAction :=
  _ ← (if bool_decide (ca_type c = SESSION_REVOKE) then revokeSession c else mret tt);
  mret c.
Definition apply (input : ApplyControl) (operatorId : string) : RiskS ControlAction :=
  let hash := sha256 (ap_idempotencyKey input) in
  existing ← atomic (gets (fun st => find (fun c => String.eqb (ca_idempotencyKeyHash c) hash) (controlActions st)));
  match existing with
  | Some c => revoke_if_session c
  | None =>
      expiresAt ← require (date_parse (ap_controlExpiresAt input)) (RiskDbError "Invalid Date");
      c ← atomic (transaction (fun _ _ => None) (create_control now (fun id =>
            mkControlAction id hash (ap_type input) (ap_scopeType input) (ap_scopeId input) None (ap_reasonCode input)
              CS_ACTIVE None (ap_incidentId input) operatorId expiresAt now) operatorId (ap_reasonCode input)));
      revoke_if_session c
  end.
Definition release (id reason operatorId : string) : RiskS ControlAction :=
  current ← atomic (gets (fun st => find_row ca_controlId id (controlActions st)));
  current ← require current (RiskDbError "P2025");
  if negb (bool_decide (ca_controlStatus current = CS_ACTIVE)) then mret current
  else atomic (transaction (fun _ _ => None) (close_control now id CS_RELEASED "RELEASED" operatorId reason)).

(** ** Incidents *)
Definition closed_status (s : IncidentStatus) : bool := bool_decide (s ∈ [RESOLVED; FALSE_POSITIVE]).
Definition updated_incident (input : IncidentUpdate) (i : Incident) : Incident :=
  mkIncident (in_id i) (in_assessmentId i) (in_severity i) (default (in_status i) (iu_status input)) (in_title i)
    (or_else (iu_assignedTo input) (in_assignedTo i)) (or_else (iu_resolutionReason input) (in_resolutionReason i))
    (in_createdAt i)
    (match iu_status input with
     | Some s => if closed_status s then Some now else if bool_decide (s = OPEN) then None else in_resolvedAt i
     | None => in_resolvedAt i
     end).
Definition incident_event_type (input : IncidentUpdate) (current : Incident) : string :=
  match iu_status input with
  | Some s => if bool_decide (s = OPEN) && closed_status (in_status current) then "REOPENED" else "STATUS_CHANGED"
  | None => match truthy_string (iu_assignedTo input) with Some _ => "ASSIGNED" | None => "NOTE_ADDED" end
  end.
Definition write_incident (id : string) (input : IncidentUpdate) (current : Incident) (operatorId : string) : RiskM Incident :=
  st ← get;
  i ← require (find_row in_id id (incidents st)) (RiskDbError "P2025");
  let note := or_else (truthy_string (iu_note input))
                (or_else (truthy_string (iu_resolutionReason input)) (iu_assignedTo input)) in
  _ ← risk_check (fits_option 128 (iu_assignedTo input) && fits_option 500 (iu_resolutionReason input)
                  && fits_option 1000 note && fits 128 operatorId) "incidents";
  _ ← modify (set_incidents (update_row in_id id (updated_incident input)));
  _ ← modify (set_incident_events (fun l => l ++ [mkIncidentEvent id (incident_event_type input current) operatorId note now]));
  mret (updated_incident input i).
Definition update_incident (id : string) (input : IncidentUpdate) (operatorId : string) : RiskS Incident :=
  current ← atomic (gets (fun st => find_row in_id id (incidents st)));
  current ← require current (RiskDbError "P2025");
  let resolved := match iu_status input with Some s => closed_status s | None => false end in
  _ ← throw_when (resolved && negb (bool_decide (is_Some (truthy_string (iu_resolutionReason input)))))
        (RiskJsError "Error");
  atomic (transaction (fun _ _ => None) (write_incident id input current operatorId)).

(** ** Retention and reconciliation *)
Definition retention : RiskS Z :=
  let before := now - retentionDays config * 86400000 in
  atomic (fun st =>
    let old := filter (fun r => (sr_receivedAt r <? before) = true) (securityEvents st) in
    (Ok (Z.of_nat (length old)), set_security_events (filter (fun r => (sr_receivedAt r <? before) = false)) st)).

Definition orphan_controls (st : RiskStore) : Z :=
  count_rows (fun c => bool_decide (ca_assessmentId c = None) && bool_decide (ca_incidentId c = None)
                       && String.eqb (ca_createdBy c) automated) (controlActions st).
Definition orphan_control_events (st : RiskStore) : Z :=
  count_rows (fun e => negb (existsb (fun c => String.eqb (ca_controlId c) (cv_controlId e)) (controlActions st))) (controlEvents st).
Definition orphan_incident_events (st : RiskStore) : Z :=
  count_rows (fun e => negb (existsb (fun i => String.eqb (in_id i) (ie_incidentId e)) (incidents st))) (incidentEvents st).
Definition unhandled_high (st : RiskStore) : Z :=
  count_rows (fun a => bool_decide (is_Some (alarming (am_band a)))
                       && negb (existsb (fun i => bool_decide (in_assessmentId i = Some (am_id a))) (incidents st))) (assessments st).
Definition stale_sources (st : RiskStore) : Z :=
  count_rows (fun s => sh_lastReceivedAt s <? now - 900000) (sourceHealth st).
Definition no_issues (i : RiskIssues) : bool :=
  (ri_orphanControls i =? 0) && (ri_orphanControlEvents i =? 0) && (ri_orphanIncidentEvents i =? 0)
  && (ri_unhandledHigh i =? 0) && (ri_staleSources i =? 0).
Definition run_risk_reconciliation : RiskS RiskRun :=
  expired ← expire;
  orphanControls ← atomic (gets orphan_controls);
  orphanControlEvents ← atomic (gets orphan_control_events);
  orphanIncidentEvents ← atomic (gets orphan_incident_events);
  unhandledHigh ← atomic (gets unhandled_high);
  staleSources ← atomic (gets stale_sources);
  let issues := mkRiskIssues orphanControls orphanControlEvents orphanIncidentEvents unhandledHigh staleSources in
  mret (mkRiskRun (no_issues issues) expired issues).
End Service.
