(* ===== verification/RiskProofs.v ===== *)
(** * Properties of the Risk service: what its operations write, and the
    invariant they keep *)

From Stdlib Require Import ZArith Lia Ascii String.
From stdpp Require Import base strings list gmap.
From S2P Require Import Prelude.
From S2P Require Import Js.
From S2P Require Import Contracts.
From S2P Require Import Security.
From S2P Require Import LedgerDb.
From S2P Require Import RiskTypes.
From S2P Require Import RiskEngine.
From S2P Require Import Services.
From S2P Require Import PaymentsDb.
From S2P Require Import PaymentsInv.
From S2P Require Import RiskDb.
From S2P Require Import RiskService.

Open Scope Z_scope.

(** ** The life of a control *)
Definition control_ages (old new : ControlAction) : Prop :=
  exists s, new = with_status s old /\ (s = ca_controlStatus old \/ s <> CS_ACTIVE).
(** Controls are never removed, changed only by closing, and never reopened. *)
Definition store_ages (st st' : RiskStore) : Prop :=
  exists old new, controlActions st' = old ++ new /\ Forall2 control_ages (controlActions st) old.

Lemma control_ages_refl c : control_ages c c.
Proof. exists (ca_controlStatus c). split; [by destruct c|by left]. Qed.
Lemma control_ages_trans a b c : control_ages a b -> control_ages b c -> control_ages a c.
Proof.
  intros (s & -> & Hs) (t & -> & Ht). exists t. split; [done|]. cbn in Ht. destruct Ht as [->|Ht]; auto.
Qed.
Lemma store_ages_refl st : store_ages st st.
Proof.
  exists (controlActions st), []. rewrite app_nil_r. split; [done|].
  apply Forall_Forall2_diag, Forall_forall. intros c _. apply control_ages_refl.
Qed.
Lemma store_ages_same st st' : controlActions st' = controlActions st -> store_ages st st'.
Proof.
  intros H. destruct (store_ages_refl st) as (old & new & Ho & Hf). exists old, new. by rewrite H.
Qed.
Lemma store_ages_trans st1 st2 st3 : store_ages st1 st2 -> store_ages st2 st3 -> store_ages st1 st3.
Proof.
  intros (o1 & n1 & H1 & F1) (o2 & n2 & H2 & F2). rewrite H1 in F2.
  apply Forall2_app_inv_l in F2 as (p & q & Hp & Hq & ->). exists p, (q ++ n2). rewrite H2, app_assoc.
  split; [done|]. eapply Forall2_trans; [|exact F1|exact Hp].
  intros a b c. apply control_ages_trans.
Qed.
Lemma store_ages_add st st' new : controlActions st' = controlActions st ++ new -> store_ages st st'.
Proof.
  intros H. exists (controlActions st), new. split; [done|].
  apply Forall_Forall2_diag, Forall_forall. intros c _. apply control_ages_refl.
Qed.
Lemma close_ages id status l : status <> CS_ACTIVE ->
  Forall2 control_ages l (update_row ca_controlId id (with_status status) l).
Proof.
  intros Hs. unfold update_row. induction l as [|c l IH]; [constructor|]. cbn. constructor; [|done].
  destruct (String.eqb _ id); [|apply control_ages_refl]. exists status. auto.
Qed.
Lemma store_ages_close st st' id status : status <> CS_ACTIVE ->
  controlActions st' = update_row ca_controlId id (with_status status) (controlActions st) -> store_ages st st'.
Proof.
  intros Hs H. eexists _, []. rewrite app_nil_r. split; [exact H|]. by apply close_ages.
Qed.

(** ** The invariant *)
Record RiskInv (st : RiskStore) : Prop := {
  rk_high : forall a, a ∈ assessments st -> is_Some (alarming (am_band a)) ->
    exists i, i ∈ incidents st /\ in_assessmentId i = Some (am_id a);
  rk_score : forall a, a ∈ assessments st -> 0 <= am_score a <= 100 /\ am_createdAt a < am_expiresAt a;
  rk_control_events : forall e, e ∈ controlEvents st -> cv_controlId e ∈ ca_controlId <$> controlActions st;
  rk_incident_events : forall e, e ∈ incidentEvents st -> ie_incidentId e ∈ in_id <$> incidents st;
  rk_automated : forall c, c ∈ controlActions st -> ca_createdBy c = automated -> is_Some (ca_assessmentId c);
  rk_lifetime : forall c, c ∈ controlActions st -> ca_controlCreatedAt c < ca_expiresAt c;
  rk_control_ids : NoDup (ca_controlId <$> controlActions st)
}.

Lemma RiskInv_same st st' : assessments st' = assessments st -> controlActions st' = controlActions st ->
  controlEvents st' = controlEvents st -> incidents st' = incidents st -> incidentEvents st' = incidentEvents st ->
  RiskInv st -> RiskInv st'.
Proof. intros Ha Hc He Hi Hn []. constructor; rewrite ?Ha, ?Hc, ?He, ?Hi, ?Hn; done. Qed.

(** What every statement of the service guarantees. *)
Definition risk_step (st st' : RiskStore) : Prop := RiskInv st -> RiskInv st' /\ store_ages st st'.
Lemma risk_step_refl st : risk_step st st.
Proof. intros H. split; [done|apply store_ages_refl]. Qed.
Lemma risk_step_same st st' : assessments st' = assessments st -> controlActions st' = controlActions st ->
  controlEvents st' = controlEvents st -> incidents st' = incidents st -> incidentEvents st' = incidentEvents st ->
  risk_step st st'.
Proof. intros. split; [by eapply RiskInv_same|by apply store_ages_same]. Qed.

(** ** Statements *)
Section Statements.
Context {Env : Type} {zod : Zod} {crypto : Crypto} {pg : Postgres} {rows : RowOrder} {identity : IdentityPeer Env}.
Variable config : RiskConfig.
Variable now : Z.

Lemma create_assessment_ok a st r st' : create_assessment a st = (Ok r, st') ->
  r = a /\ st' = set_assessments (fun l => l ++ [a]) st /\ 0 <= am_score a <= 100 /\ am_createdAt a < am_expiresAt a.
Proof. unfold create_assessment, risk_unique, risk_check. intros H. run. bool_to_Z. by subst. Qed.
Lemma create_incident_ok aid sev title actor note st i st' : create_incident now aid sev title actor note st = (Ok i, st') ->
  in_assessmentId i = Some aid /\ in_severity i = sev /\ in_status i = OPEN /\
  st' = set_incident_events (fun l => l ++ [mkIncidentEvent (in_id i) "CREATED" actor (Some note) now])
          (set_incidents (fun l => l ++ [i]) (set_risk_uuid N.succ st)).
Proof.
  unfold create_incident, risk_unique, risk_check, risk_uuid. intros H.
  apply bind_Ok_inv in H as (id & st1 & [= <- <-] & H). run. by subst.
Qed.
Lemma create_control_ok mk actor reason st c st' : create_control now mk actor reason st = (Ok c, st') ->
  c = mk (uuid (risk_uuidCounter st)) /\ ca_controlCreatedAt c < ca_expiresAt c /\
  ~ (uuid (risk_uuidCounter st) ∈ ca_controlId <$> controlActions st) /\
  st' = set_control_events (fun l => l ++ [mkControlEvent (uuid (risk_uuidCounter st)) "CREATED" actor reason now])
          (set_controls (fun l => l ++ [c]) (set_risk_uuid N.succ st)).
Proof.
  unfold create_control, risk_unique, risk_check, risk_uuid. intros H.
  apply bind_Ok_inv in H as (id & st1 & [= <- <-] & H). run. bool_to_Z. subst. split; [done|]. split; [done|].
  split; [|done]. intros (c & Hc & Hin)%list_elem_of_fmap.
  match goal with H : existsb (fun r => String.eqb (ca_controlId r) _) _ = false |- _ =>
    pose proof (existsb_none _ _ c H Hin) as Hx end.
  cbn in Hx. by rewrite <- Hc, String.eqb_refl in Hx.
Qed.
Lemma close_control_ok id status type actor reason st c st' :
  close_control now id status type actor reason st = (Ok c, st') ->
  (exists old, find_row ca_controlId id (controlActions st) = Some old /\ c = with_status status old) /\
  st' = set_control_events (fun l => l ++ [mkControlEvent id type actor reason now])
          (set_controls (update_row ca_controlId id (with_status status)) st).
Proof. unfold close_control, risk_check. intros H. run. split; [by eexists|by subst]. Qed.
Lemma close_control_err id status type actor reason st e st' :
  close_control now id status type actor reason st = (Err e, st') -> st' = st.
Proof.
  unfold close_control, risk_check, require, throw_when, throw, get, modify, mbind, M_bind, mret, M_ret.
  intros H. repeat (case_match; try discriminate); by simplify_eq.
Qed.

(** What an assessment writes. *)
Definition incident_of (aid : string) (r : EngineResult) (i : Incident) : Prop :=
  in_assessmentId i = Some aid /\ Some (in_severity i) = alarming (en_band r) /\ in_status i = OPEN.
Definition control_of (aid subject : string) (r : EngineResult) (c : ControlAction) : Prop :=
  Some (ca_type c) = en_controlRecommendation r /\ ca_scopeType c = CUSTOMER /\ ca_scopeId c = subject /\
  ca_controlStatus c = CS_ACTIVE /\ ca_assessmentId c = Some aid /\ ca_createdBy c = automated /\
  ca_expiresAt c = now + control_seconds (en_band r) * 1000.
Lemma record_assessment_ok aid input r st a st' : record_assessment config now aid input r st = (Ok a, st') ->
  exists incs ctrls,
    assessments st' = assessments st ++ [a] /\ incidents st' = incidents st ++ incs /\
    controlActions st' = controlActions st ++ ctrls /\
    am_id a = aid /\ am_evaluationId a = ev_evaluationId input /\ am_subjectId a = ev_subjectId input /\
    am_score a = en_score r /\ am_band a = en_band r /\ am_decision a = en_decision r /\
    0 <= am_score a <= 100 /\ am_createdAt a < am_expiresAt a /\
    length incs = (if decide (is_Some (alarming (en_band r))) then 1 else 0)%nat /\ Forall (incident_of aid r) incs /\
    length ctrls = (if decide (is_Some (en_controlRecommendation r)) then 1 else 0)%nat /\
    Forall (control_of aid (ev_subjectId input) r) ctrls /\
    (forall c, c ∈ ctrls -> ca_controlCreatedAt c < ca_expiresAt c) /\
    (forall e, e ∈ incidentEvents st' -> e ∈ incidentEvents st \/ ie_incidentId e ∈ in_id <$> incs) /\
    (forall e, e ∈ controlEvents st' -> e ∈ controlEvents st \/ cv_controlId e ∈ ca_controlId <$> ctrls) /\
    (NoDup (ca_controlId <$> controlActions st) -> NoDup (ca_controlId <$> (controlActions st ++ ctrls))).
Proof.
  unfold record_assessment. intros H. apply bind_Ok_inv in H as (a0 & st1 & Ha & H).
  apply create_assessment_ok in Ha as (-> & -> & [Hsc1 Hsc2] & Hexp).
  apply bind_Ok_inv in H as (inc & st2 & Hi & H). apply bind_Ok_inv in H as ([] & st3 & Hc & H). run. subst.
  set (st1 := set_assessments _ st) in *.
  assert (Hincs : exists incs, incidents st2 = incidents st ++ incs /\ assessments st2 = assessments st1 /\
    controlActions st2 = controlActions st /\ controlEvents st2 = controlEvents st /\
    length incs = (if decide (is_Some (alarming (en_band r))) then 1 else 0)%nat /\ Forall (incident_of aid r) incs /\
    (forall e, e ∈ incidentEvents st2 -> e ∈ incidentEvents st \/ ie_incidentId e ∈ in_id <$> incs)).
  { destruct (alarming (en_band r)) as [sev|] eqn:Hal; run.
    - match goal with H : create_incident _ _ _ _ _ _ _ = (Ok ?i, _) |- _ =>
        apply create_incident_ok in H as (H1 & H2 & H3 & ->); exists [i] end.
      repeat split; try done; [by repeat constructor; rewrite ?H2|].
      cbn. intros e. rewrite elem_of_app, list_elem_of_singleton. intros [?| ->]; [by left|right; set_solver].
    - exists []. subst. repeat split; rewrite ?app_nil_r; try done. intros e He. by left. }
  destruct Hincs as (incs & Hi1 & Hi2 & Hi3 & Hi4 & Hi5 & Hi6 & Hi7).
  destruct (en_controlRecommendation r) as [type|] eqn:Hrec; run.
  - match goal with H : create_control _ _ _ _ _ = (Ok ?c, _) |- _ =>
      apply create_control_ok in H as (Hcc & Hlt & Hnew & ->); exists incs, [c] end.
    repeat split; try done; try (cbn; by rewrite ?Hi1, ?Hi2, ?Hi3).
    + constructor; [|constructor]. rewrite Hcc. unfold control_of. rewrite Hrec. by repeat split.
    + by intros c' ->%list_elem_of_singleton.
    + cbn. rewrite Hi4. intros e. rewrite elem_of_app, list_elem_of_singleton.
      intros [?| ->]; [by left|right; rewrite Hcc; set_solver].
    + intros Hnd. rewrite Hi3 in Hnew. rewrite fmap_app. apply NoDup_app. split; [done|]. split.
      * intros y Hy ->%list_elem_of_singleton. apply Hnew. by rewrite Hcc in Hy.
      * apply NoDup_singleton.
  - exists incs, []. subst. repeat split; try done; rewrite ?app_nil_r, ?Hi4; try done.
    + intros c' Hc'. by apply not_elem_of_nil in Hc'.
    + intros e He. by left.
Qed.

(** ** Steps *)
Definition stepping {A} (m : RiskM A) : Prop := forall st, risk_step st (m st).2.
Lemma stepping_transaction {A} (m : RiskM A) :
  (forall st a st', m st = (Ok a, st') -> risk_step st st') -> stepping (transaction (fun _ _ => None) m).
Proof.
  intros H st. destruct (transaction _ m st) as [[a|e] st'] eqn:Ht.
  - apply transaction_Ok_inv in Ht as [Ht _]. by eapply H.
  - apply transaction_err in Ht as ->. apply risk_step_refl.
Qed.
Lemma stepping_gets {A} (f : RiskStore -> A) : stepping (gets f).
Proof. intros st. apply risk_step_refl. Qed.

Lemma elem_fmap_app {A B} (f : A -> B) x l k : x ∈ f <$> l -> x ∈ f <$> (l ++ k).
Proof. rewrite fmap_app. set_solver. Qed.
Lemma record_assessment_step aid input r st a st' :
  record_assessment config now aid input r st = (Ok a, st') -> risk_step st st'.
Proof.
  intros H Hinv. apply record_assessment_ok in H as (incs & ctrls & Ha & Hi & Hc & Hid & _ & _ & _ & Hband & _ & Hsc & Hexp
    & Hlen & Hincs & _ & Hctrls & Hlife & Hie & Hce & Hnd).
  split; [|by eapply store_ages_add]. constructor.
  - intros x. rewrite Ha, Hi. intros [Hx|Hx%list_elem_of_singleton]%elem_of_app Hal.
    + destruct (rk_high _ Hinv x Hx Hal) as (i & Hin & Hix). exists i. set_solver.
    + subst x. rewrite Hband in Hal. rewrite decide_True in Hlen by done.
      destruct incs as [|i incs]; [done|]. apply Forall_cons in Hincs as [[Hia _] _].
      exists i. split; [set_solver|congruence].
  - intros x. rewrite Ha. intros [Hx|Hx%list_elem_of_singleton]%elem_of_app; [by apply (rk_score _ Hinv)|by subst].
  - intros e He. rewrite Hc. destruct (Hce e He) as [Hold|Hnew].
    + by apply elem_fmap_app, (rk_control_events _ Hinv).
    + rewrite fmap_app. set_solver.
  - intros e He. rewrite Hi. destruct (Hie e He) as [Hold|Hnew].
    + by apply elem_fmap_app, (rk_incident_events _ Hinv).
    + rewrite fmap_app. set_solver.
  - intros c. rewrite Hc. intros [Hx|Hx]%elem_of_app Hby; [by apply (rk_automated _ Hinv)|].
    rewrite Forall_forall in Hctrls. destruct (Hctrls c) as (_ & _ & _ & _ & -> & _); [done|by eexists].
  - intros c. rewrite Hc. intros [Hx|Hx]%elem_of_app; [by apply (rk_lifetime _ Hinv)|by apply Hlife].
  - rewrite Hc. apply Hnd, Hinv.
Qed.

Lemma record_event_step e st row st' : record_event now e st = (Ok row, st') -> risk_step st st'.
Proof.
  unfold record_event, create_security_event, accept_source, risk_unique, risk_check. intros H. run.
  match goal with H : (if ?b then _ else _) _ = _ |- _ => destruct b end; run; subst;
    match goal with H : require (Some _) _ _ = _ |- _ => injection H as <- <- end; by apply risk_step_same.
Qed.
Lemma count_duplicate_step source : stepping (count_duplicate source).
Proof.
  intros st. unfold count_duplicate, risk_check, throw_when, throw, get, modify, mbind, M_bind, mret, M_ret.
  by destruct (negb _); apply risk_step_same.
Qed.
Lemma incr_step key amount seconds : stepping (incr_expire now key amount seconds).
Proof. intros st. unfold incr_expire. by destruct (int64_ok _); apply risk_step_same. Qed.

Lemma update_ids (f : ControlAction -> ControlAction) id l : (forall c, ca_controlId (f c) = ca_controlId c) ->
  ca_controlId <$> update_row ca_controlId id f l = ca_controlId <$> l.
Proof.
  intros Hf. unfold update_row. induction l as [|c l IH]; [done|]. cbn. rewrite IH. f_equal.
  by destruct (String.eqb _ id).
Qed.
Lemma close_control_step id status type actor reason : status <> CS_ACTIVE ->
  stepping (close_control now id status type actor reason).
Proof.
  intros Hs st. destruct (close_control now id status type actor reason st) as [[c|e] st'] eqn:H;
    [|apply close_control_err in H as ->; apply risk_step_refl].
  apply close_control_ok in H as ((old & [Hin Hid]%find_row_spec & _) & ->). intros Hinv.
  split; [|by apply (store_ages_close st _ id status)].
  assert (Hrow : forall x, x ∈ update_row ca_controlId id (with_status status) (controlActions st) ->
    exists y s, y ∈ controlActions st /\ x = with_status s y).
  { intros x [[Hx _]|(y & Hy & _ & ->)]%update_row_elem; [|by eexists _, _].
    exists x, (ca_controlStatus x). split; [done|by destruct x]. }
  constructor; cbn; try apply Hinv.
  - intros e. rewrite update_ids, elem_of_app, list_elem_of_singleton by done.
    intros [He| ->]; [by apply (rk_control_events _ Hinv)|]. cbn. rewrite <- Hid. by apply list_elem_of_fmap_2.
  - intros x (y & s & Hy & ->)%Hrow. cbn. by apply (rk_automated _ Hinv).
  - intros x (y & s & Hy & ->)%Hrow. cbn. by apply (rk_lifetime _ Hinv).
  - rewrite update_ids by done. apply Hinv.
Qed.
Lemma create_control_step mk actor reason st c st' :
  (forall id, ca_createdBy (mk id) <> automated) -> (forall id, ca_controlId (mk id) = id) ->
  create_control now mk actor reason st = (Ok c, st') -> risk_step st st'.
Proof.
  intros Hby Hmk H. apply create_control_ok in H as (Hc & Hlife & Hnew & ->). intros Hinv.
  split; [|by apply (store_ages_add st _ [c])].
  constructor; cbn; try apply Hinv.
  - intros e. rewrite elem_of_app, list_elem_of_singleton, fmap_app. intros [He| ->].
    + pose proof (rk_control_events _ Hinv e He). set_solver.
    + cbn. rewrite Hc, Hmk. set_solver.
  - intros x. rewrite elem_of_app, list_elem_of_singleton. intros [Hx| ->]; [by apply (rk_automated _ Hinv)|].
    subst c. intros Hx. by apply Hby in Hx.
  - intros x. rewrite elem_of_app, list_elem_of_singleton. intros [Hx| ->]; [by apply (rk_lifetime _ Hinv)|done].
  - rewrite fmap_app. apply NoDup_app. split; [apply Hinv|]. split; [|apply NoDup_singleton].
    intros x Hx ->%list_elem_of_singleton. apply Hnew. by rewrite Hc, Hmk in Hx.
Qed.
Lemma write_incident_step id input current operator st i st' :
  write_incident now id input current operator st = (Ok i, st') -> risk_step st st'.
Proof.
  unfold write_incident, risk_check. intros H. run. subst.
  match goal with H : find_row _ _ _ = Some ?x |- _ => rename x into old; apply find_row_spec in H as [Hin Hid] end.
  intros Hinv. split; [|by apply store_ages_same]. constructor; cbn; try apply Hinv.
  - intros a Ha Hal. destruct (rk_high _ Hinv a Ha Hal) as (x & Hx & Hxa).
    pose proof (update_row_in in_id id (updated_incident now input) (incidents st) x Hx) as Hu.
    eexists. split; [exact Hu|]. by destruct (String.eqb _ id).
  - intros e. rewrite elem_of_app, list_elem_of_singleton. unfold update_row. rewrite <- list_fmap_compose.
    rewrite (list_fmap_ext _ in_id) by (intros k x _; cbn; by destruct (String.eqb _ id)).
    intros [He| ->]; [by apply (rk_incident_events _ Hinv)|].
    cbn. rewrite <- Hid. by apply list_elem_of_fmap_2.
Qed.
End Statements.
