(* ===== verification/RiskProperties.v ===== *)
(** * The Risk service among concurrent requests, and what its answers mean *)

From Stdlib Require Import ZArith Lia Ascii String.
From stdpp Require Import base strings list gmap sorting.
From S2P Require Import Prelude.
From S2P Require Import Js.
From S2P Require Import JsNumber.
From S2P Require Import Contracts.
From S2P Require Import Security.
From S2P Require Import Services.
From S2P Require Import RiskTypes.
From S2P Require Import RiskEngine.
From S2P Require Import LedgerDb.
From S2P Require Import PaymentsDb.
From S2P Require Import PaymentsInv.
From S2P Require Import RiskDb.
From S2P Require Import RiskService.
From S2P Require Import RiskProofs.

Open Scope Z_scope.

Section Properties.
Context {Env : Type} {zod : Zod} {crypto : Crypto} {pg : Postgres} {rows : RowOrder} {identity : IdentityPeer Env}.
Variable config : RiskConfig.
Abbreviation RiskS := (M (System RiskStore Env) RiskErr).

(** ** Requests *)

(** A store that satisfies the invariant and has aged from [st0]. *)
Definition aged (st0 st : RiskStore) : Prop := RiskInv st /\ store_ages st0 st.
Abbreviation ok st0 := (sys_ok (Env := Env) (aged st0) (fun _ _ => True)).

Lemma step_atomic {A} st0 (m : RiskM A) : stepping m -> preserves (ok st0) (atomic m).
Proof.
  intros Hm. apply preserves_atomic. intros st [Hinv Hages]. pose proof (Hm st Hinv) as [Hinv' Hages'].
  assert (aged st0 (m st).2) by (split; [done|by eapply store_ages_trans]). by destruct (m st) as [[a|e] st'].
Qed.
Lemma step_read {A} st0 (f : RiskStore -> A) : preserves (ok st0) (atomic (gets (E := RiskErr) f)).
Proof. apply step_atomic, stepping_gets. Qed.
Lemma step_remote {A} st0 (m : M Env RiskErr A) : preserves (ok st0) (remote m).
Proof. apply preserves_remote. Qed.
Hint Resolve step_read step_remote : preserve.

Lemma step_increment st0 now scope signal seconds amount : preserves (ok st0) (increment config now scope signal seconds amount).
Proof. apply preserves_bind; [apply step_atomic, incr_step|auto with preserve]. Qed.
Hint Resolve step_increment : preserve.
Ltac keep := repeat first
  [ progress auto with preserve
  | progress intros
  | apply preserves_bind; [|intros ?]
  | match goal with |- preserves _ (match ?x with _ => _ end) => destruct x end
  | match goal with |- preserves _ (when _ _) => unfold when end ].
Lemma step_velocity st0 now e subject : preserves (ok st0) (updateVelocity config now e subject).
Proof. unfold updateVelocity. keep. Qed.
Lemma step_ingest st0 now e token : preserves (ok st0) (ingest config now e token).
Proof.
  unfold ingest. do 3 (apply preserves_bind; [unfold authenticate; auto with preserve|intros ?]).
  apply preserves_catch.
  - apply preserves_bind; [apply step_atomic, stepping_transaction, record_event_step|intros row].
    apply preserves_bind; [|auto with preserve].
    destruct (truthy_string _); [apply step_velocity|auto with preserve].
  - intros [| | |]; keep. apply step_atomic, count_duplicate_step.
Qed.
Lemma step_facts st0 now input : preserves (ok st0) (facts config now input).
Proof. unfold facts, read. keep. Qed.
Lemma step_evaluate st0 now aid input : preserves (ok st0) (evaluate config now aid input).
Proof.
  unfold evaluate. apply preserves_bind; [auto with preserve|intros [row|]]; [auto with preserve|].
  apply preserves_bind; [apply step_facts|intros f]. apply preserves_bind; [auto with preserve|intros r].
  apply preserves_bind; [|auto with preserve].
  apply step_atomic, stepping_transaction. intros st a st'. apply record_assessment_step.
Qed.
Lemma step_expire st0 now : preserves (ok st0) (expire now).
Proof.
  unfold expire. apply preserves_bind; [auto with preserve|intros due].
  apply preserves_bind; [|auto with preserve]. apply preserves_for_each. intros c.
  by apply step_atomic, close_control_step.
Qed.
Lemma step_check st0 now scopes : preserves (ok st0) (check now scopes).
Proof. unfold check. apply preserves_bind; [apply step_expire|keep]. Qed.
Lemma step_revoke st0 c : preserves (ok st0) (revoke_if_session c).
Proof. unfold revoke_if_session, revokeSession. keep. Qed.
Lemma step_apply st0 now input operator : operator <> automated -> preserves (ok st0) (apply now input operator).
Proof.
  intros Ho. unfold apply. apply preserves_bind; [auto with preserve|intros [c|]]; [apply step_revoke|].
  apply preserves_bind; [auto with preserve|intros t]. apply preserves_bind; [|apply step_revoke].
  apply step_atomic, stepping_transaction. intros st a st'. by apply create_control_step.
Qed.
Lemma step_release st0 now id reason operator : preserves (ok st0) (release now id reason operator).
Proof.
  unfold release. apply preserves_bind; [auto with preserve|intros o].
  apply preserves_bind; [auto with preserve|intros c]. destruct (negb _); [auto with preserve|].
  apply step_atomic, stepping_transaction. intros st a st' H.
  pose proof (close_control_step now id CS_RELEASED "RELEASED" operator reason ltac:(done) st) as Hs. by rewrite H in Hs.
Qed.
Lemma step_incident st0 now id input operator : preserves (ok st0) (update_incident now id input operator).
Proof.
  unfold update_incident. do 3 (apply preserves_bind; [auto with preserve|intros ?]).
  apply step_atomic, stepping_transaction. intros st i st'. apply write_incident_step.
Qed.
Lemma step_retention st0 now : preserves (ok st0) (retention config now).
Proof. apply step_atomic. intros st. by apply risk_step_same. Qed.
Lemma step_reconciliation st0 now : preserves (ok st0) (run_risk_reconciliation now).
Proof. unfold run_risk_reconciliation. apply preserves_bind; [apply step_expire|keep]. Qed.

Inductive RiskRequest :=
| Evaluate (assessmentId : string) (input : RiskEvaluationRequest)
| Ingest (event : SecurityEventV1) (token : option string)
| Check (scopes : list ScopeRef)
| Apply (input : ApplyControl) (operatorId : string)
| Release (id reason operatorId : string)
| UpdateIncident (id : string) (input : IncidentUpdate) (operatorId : string)
| Expire
| Retain
| ReconcileRisk.
Definition serve_risk (now : Z) (r : RiskRequest) : RiskS unit :=
  let quiet {A} (m : RiskS A) := _ ← m; mret tt in
  match r with
  | Evaluate id input => quiet (evaluate config now id input)
  | Ingest e token => quiet (ingest_endpoint config now e token)
  | Check scopes => quiet (check now scopes)
  | Apply input operator => quiet (apply now input operator)
  | Release id reason operator => quiet (release now id reason operator)
  | UpdateIncident id input operator => quiet (update_incident now id input operator)
  | Expire => quiet (expire now)
  | Retain => quiet (retention config now)
  | ReconcileRisk => quiet (run_risk_reconciliation now)
  end.
(** Operators have names of their own. *)
Definition named (r : RiskRequest) : Prop :=
  match r with Apply _ operator => operator <> automated | _ => True end.
Lemma step_serve st0 now r : named r -> preserves (ok st0) (serve_risk now r).
Proof.
  intros Hr. destruct r; cbn; (apply preserves_bind; [|auto with preserve]);
    auto using step_evaluate, step_check, step_apply, step_release, step_incident, step_expire, step_retention, step_reconciliation.
  unfold ingest_endpoint, authenticateSourceToken. do 2 (apply preserves_bind; [auto with preserve|intros ?]). apply step_ingest.
Qed.

(** A history: requests at any times, each among other requests. *)
Inductive risk_history (st0 : RiskStore) (env0 : Env) : RiskStore -> Env -> Prop :=
| history_start : risk_history st0 env0 st0 env0
| history_step now r st env others : risk_history st0 env0 st env -> named r ->
    Forall (fun f => forall st, risk_step st (f st)) others ->
    let s := (serve_risk now r (mkSystem st env others)).2 in risk_history st0 env0 (sdb s) (senv s).

Lemma history_aged st0 env0 st env : RiskInv st0 -> risk_history st0 env0 st env -> aged st0 st.
Proof.
  intros H0. induction 1 as [|now r st env others Hh IH Hn Ho]; [split; [done|apply store_ages_refl]|].
  assert (Hok : ok st0 (mkSystem st env others)).
  { split; [exact IH|]. eapply Forall_impl; [exact Ho|]. intros f Hf st1 [Hinv Hages]. split; [|done].
    destruct (Hf st1 Hinv) as [? ?]. split; [done|by eapply store_ages_trans]. }
  pose proof (step_serve st0 now r Hn _ Hok) as Hs. cbv zeta.
  destruct (serve_risk now r _) as [[u|e] s']; apply Hs.
Qed.

(** C28: whatever requests the Risk service answers, in any order, at any times
    and among any other requests: every high or critical assessment keeps its
    incident, events refer to rows, automated controls to their assessment, and
    a control once closed is never active again nor changed otherwise. *)
Theorem risk_history_safe st0 env0 st env :
  RiskInv st0 -> risk_history st0 env0 st env -> RiskInv st /\ store_ages st0 st.
Proof. apply history_aged. Qed.

(** ** Assessments *)

(** The facts of a request, read at once. *)
Definition facts_in (now : Z) (input : RiskEvaluationRequest) (st : RiskStore) : RiskFacts :=
  let subject := ev_subjectId input in
  let counter signal := read_counter config now subject signal st in
  let types := customer_controls now subject st in
  mkFacts (counter "auth-failures:600s"%string) (counter "requests:60s"%string) (counter "transfers:600s"%string)
    (counter "outgoing:86400s"%string)
    (0 <? match truthy_string (ev_recipientId input) with
          | Some r => count_rows (fun e => has_subject subject e && bool_decide (se_recipientId (sr_event e) = Some r)
                        && bool_decide (se_eventType (sr_event e) = NEW_RECIPIENT) && occurred_since (now - 86400000) e)
                        (securityEvents st)
          | None => 0
          end)
    (counter "insufficient:600s"%string) (counter "idempotency:600s"%string)
    (match truthy_string (ev_deviceId input) with Some d => device_subjects now d st | None => 0 end) false
    (0 <? count_events subject integrity_events (now - 86400000) st)
    (count_events subject [INTERNAL_AUTH_FAILURE; INVALID_SERVICE_TOKEN] (now - 3600000) st)
    (counter "invalid-sensitive:600s"%string)
    (existsb (fun t => bool_decide (t ∈ blocking_types)) types) (0 <? active_incidents subject st)
    (existsb (fun t => negb (bool_decide (t = REQUIRE_STEP_UP)) || negb (ev_stepUpVerified input)) types).
Lemma read_bind {A B} (f : RiskStore -> A) (k : A -> RiskS B) st (env : Env) :
  (atomic (gets f) ≫= k) (alone st env) = k (f st) (alone st env).
Proof.
  rewrite (bind_Ok _ _ _ _ (alone st env) (f st) (alone st env)); [done|]. apply atomic_alone.
Qed.
Lemma facts_alone now input st (env : Env) : facts config now input (alone st env) = (Ok (facts_in now input st), alone st env).
Proof.
  unfold facts, read, facts_in. cbv zeta. rewrite !read_bind.
  destruct (truthy_string (ev_deviceId input)), (truthy_string (ev_recipientId input)); cbn [read_bind];
    rewrite ?read_bind; repeat (unfold mbind at 1, M_bind at 1; cbn [mret M_ret]; rewrite ?read_bind); reflexivity.
Qed.

Definition unseen (input : RiskEvaluationRequest) (st : RiskStore) : Prop :=
  forall a, a ∈ assessments st -> am_evaluationId a <> ev_evaluationId input.
Lemma evaluate_fresh now aid input st (env : Env) a s' : unseen input st ->
  evaluate config now aid input (alone st env) = (Ok a, s') ->
  exists r row st', evaluateRisk input (facts_in now input st) (service_thresholds config) = Some r /\
    record_assessment config now aid input r st = (Ok row, st') /\ s' = alone st' env /\ response row = Ok a.
Proof.
  intros Hnew. unfold evaluate. rewrite read_bind.
  destruct (find _ (assessments st)) as [x|] eqn:Hf.
  { apply find_some in Hf as [Hin He%String.eqb_eq]. by apply list_elem_of_In, Hnew in Hin. }
  rewrite (bind_Ok _ _ _ _ _ _ _ (facts_alone now input st env)). intros H.
  apply bind_Ok_inv in H as (r & s1 & Hr & H). unfold require in Hr.
  destruct (evaluateRisk _ _ _) as [r'|] eqn:Heval; [|discriminate]. injection Hr as -> <-.
  apply bind_Ok_inv in H as (row & s2 & Ha & H). rewrite atomic_alone in Ha.
  destruct (transaction _ _ st) as [res st'] eqn:Ht. cbn in Ha. injection Ha as -> <-.
  apply transaction_Ok_inv in Ht as [Ht _]. exists r, row, st'. unfold lift_result in H. injection H as Hresp <-. done.
Qed.
Lemma response_ok row a : response row = Ok a ->
  as_score a = am_score row /\ as_band a = am_band row /\ as_decision a = am_decision row /\ as_assessmentId a = am_id row.
Proof. unfold response. destruct (riskAssessmentSchema _); [|done]. by intros [= <-]. Qed.

(** A fresh evaluation answers with the engine's verdict on the facts of the
    store, records it, opens an incident exactly for high and critical bands,
    and puts the customer under the recommended control, both linked to the
    assessment. *)
Theorem evaluate_effect now aid input st (env : Env) a s' :
  unseen input st -> evaluate config now aid input (alone st env) = (Ok a, s') ->
  exists r row incs ctrls,
    evaluateRisk input (facts_in now input st) (service_thresholds config) = Some r /\
    as_score a = en_score r /\ as_band a = en_band r /\ as_decision a = en_decision r /\
    assessments (sdb s') = assessments st ++ [row] /\ am_evaluationId row = ev_evaluationId input /\
    incidents (sdb s') = incidents st ++ incs /\ controlActions (sdb s') = controlActions st ++ ctrls /\
    length incs = (if decide (is_Some (alarming (en_band r))) then 1 else 0)%nat /\ Forall (incident_of aid r) incs /\
    length ctrls = (if decide (is_Some (en_controlRecommendation r)) then 1 else 0)%nat /\
    Forall (control_of now aid (ev_subjectId input) r) ctrls.
Proof.
  intros Hnew H. apply evaluate_fresh in H as (r & row & st' & Hr & Hrec & -> & Hresp); [|done].
  apply response_ok in Hresp as (Hs & Hb & Hd & _).
  apply record_assessment_ok in Hrec as (incs & ctrls & Ha & Hi & Hc & _ & Hev & _ & Hrs & Hrb & Hrd & _ & _ & H1 & H2 & H3 & H4 & _).
  exists r, row, incs, ctrls. repeat split; try done; congruence.
Qed.

(** ** Open incidents *)
Lemma matched_weight r rules : (forall b x, (b, x) ∈ rules -> 0 <= ru_weight x) -> (true, r) ∈ rules ->
  ru_weight r <= sum_by ru_weight (matched_rules rules).
Proof.
  intros Hw Hin. assert (Hmem : r ∈ matched_rules rules) by (apply list_elem_of_omap; by exists (true, r)).
  assert (Hpos : forall x, x ∈ matched_rules rules -> 0 <= ru_weight x).
  { intros x ([b y] & Hy & Hx)%list_elem_of_omap. destruct b; [|done]. injection Hx as <-. by eapply Hw. }
  clear Hin Hw. induction (matched_rules rules) as [|y l IH]; [by apply not_elem_of_nil in Hmem|].
  rewrite sum_by_cons. pose proof (Hpos y ltac:(left)).
  assert (0 <= sum_by ru_weight l) by (apply sum_by_nonneg; intros x Hx; apply Hpos; by right).
  apply elem_of_cons in Hmem as [->|Hmem]; [lia|]. specialize (IH Hmem (fun x Hx => Hpos x ltac:(by right))). lia.
Qed.
Lemma active_incident_restricts input f th r : fa_activeIncident f = true -> evaluateRisk input f th = Some r ->
  (band_rank HIGH <= band_rank (en_band r))%nat /\ (restriction HOLD_FOR_REVIEW <= restriction (en_decision r))%nat.
Proof.
  intros Hf. unfold evaluateRisk, triggeredRiskRules. destruct (evaluated_amount input) as [amount|]; [|done]. cbn [mbind option_bind].
  assert (Hw : 50 <= sum_by ru_weight (matched_rules (risk_rules amount f th))).
  { apply (matched_weight (mkRule "EXISTING_RISK_STATE" "ACTIVE_INCIDENT_OR_CONTROL" 50)).
    - intros b x Hx. unfold risk_rules in Hx. repeat (apply elem_of_cons in Hx as [Hx|Hx]; [injection Hx as _ ->; cbn; lia|]).
      by apply not_elem_of_nil in Hx.
    - unfold risk_rules. rewrite Hf. do 14 right. left. }
  set (l := matched_rules _) in *. clearbody l. 
  assert (Hb : (band_rank HIGH <= band_rank (riskBand (risk_score l)))%nat)
    by (change HIGH with (riskBand 50); apply band_mono; unfold risk_score; lia).
  destruct (decide_risk (fa_blockedScope f) _ _ _) as [d c] eqn:Hd. intros [= <-]. cbn [en_band en_decision].
  split; [exact Hb|]. unfold decide_risk in Hd. destruct (fa_blockedScope f); [by injection Hd as <- _; cbn; lia|].
  destruct (riskBand (risk_score l)), (ev_stepUpVerified input); cbn in *; try lia; injection Hd as <- _; cbn; lia.
Qed.
Lemma count_rows_pos {A} (P : A -> bool) l x : x ∈ l -> P x = true -> 0 < count_rows P l.
Proof.
  intros Hx Hp. unfold count_rows. destruct (filter _ l) as [|y k] eqn:Hf; [|cbn; lia].
  assert (x ∈ filter (fun a => P a = true) l) as H by (by apply list_elem_of_filter). rewrite Hf in H.
  by apply not_elem_of_nil in H.
Qed.

(** While an incident about a customer is unresolved, no evaluation lets the
    customer through: every fresh one is held, blocked or quarantined, and opens
    another incident, so that only an operator ends the series. *)
Theorem incident_holds now aid input st (env : Env) a s' i :
  unseen input st -> i ∈ incidents st -> unresolved i = true -> about_subject (ev_subjectId input) st i = true ->
  evaluate config now aid input (alone st env) = (Ok a, s') ->
  (restriction HOLD_FOR_REVIEW <= restriction (as_decision a))%nat /\
  exists j, incidents (sdb s') = incidents st ++ [j] /\ unresolved j = true /\
    about_subject (ev_subjectId input) (sdb s') j = true.
Proof.
  intros Hnew Hi Hu Hab H. apply evaluate_fresh in H as (r & row & st' & Hr & Hrec & -> & Hresp); [|done].
  apply response_ok in Hresp as (_ & _ & Hd & _).
  apply record_assessment_ok in Hrec as (incs & ctrls & Ha & Hinc & _ & Hid & _ & Hsub & _ & Hrb & Hrd & _ & _ & Hlen & Hof & _).
  assert (Hact : fa_activeIncident (facts_in now input st) = true).
  { cbn. apply Z.ltb_lt. unfold active_incidents. eapply count_rows_pos; [exact Hi|]. by rewrite Hu, Hab. }
  destruct (active_incident_restricts _ _ _ _ Hact Hr) as [Hband Hdec]. split; [by rewrite Hd, Hrd|].
  assert (Hal : is_Some (alarming (en_band r))) by (destruct (en_band r); cbn in *; [lia|lia|by eexists..]).
  rewrite decide_True in Hlen by done. destruct incs as [|j [|k incs]]; [done| |done].
  apply Forall_cons in Hof as [(Hja & Hjs & Hjst) _]. exists j. split; [done|]. split.
  - unfold unresolved. rewrite Hjst. done.
  - unfold about_subject. apply existsb_exists. exists row. cbn [sdb alone]. rewrite Ha. split.
    + apply list_elem_of_In. set_solver.
    + rewrite Hja, Hid, Hsub, String.eqb_refl, andb_true_r. by apply bool_decide_eq_true.
Qed.
End Properties.

(** * What a control check answers *)

(** Types that stop the operation. *)
Definition stops (t : ControlType) : bool :=
  match t with
  | TEMPORARY_BLOCK | TRANSFER_HOLD | RECIPIENT_BLOCK | ACCOUNT_RESTRICT | MANUAL_REVIEW | QUARANTINE => true
  | REQUIRE_STEP_UP | SESSION_REVOKE => false
  end.

Section Verdict.
Context {Env : Type} {pg : Postgres} {rows : RowOrder}.
Variable now : Z.
Abbreviation check := (check (Env := Env)).
Abbreviation expire := (expire (Env := Env)).

(** ** Expiry *)

(** [id] is the row of controls that are due, and only of such. *)
Definition due_id (st : RiskStore) (id : string) : Prop :=
  id ∈ ca_controlId <$> controlActions st /\
  forall c, c ∈ controlActions st -> ca_controlId c = id -> ca_expiresAt c <= now.
Definition expired_store (id : string) (st : RiskStore) : RiskStore :=
  set_control_events (fun l => l ++ [mkControlEvent id "EXPIRED" "automated:expiry-job" "Configured control expiry reached." now])
    (set_controls (update_row ca_controlId id (with_status CS_EXPIRED)) st).

Lemma find_row_in {A} (id : A -> string) x l : x ∈ id <$> l -> is_Some (find_row id x l).
Proof.
  intros (a & -> & Ha)%list_elem_of_fmap. unfold find_row. destruct (find _ l) as [b|] eqn:Hf; [by eexists|].
  pose proof (find_none _ _ Hf a (proj1 (list_elem_of_In _ _) Ha)) as H. cbn in H. by rewrite String.eqb_refl in H.
Qed.
Lemma close_expired st id : due_id st id ->
  exists c, close_control now id CS_EXPIRED "EXPIRED" "automated:expiry-job" "Configured control expiry reached." st =
    (Ok c, expired_store id st).
Proof.
  intros [Hin _]. destruct (find_row_in _ _ _ Hin) as [c Hc]. exists (with_status CS_EXPIRED c).
  unfold close_control. rewrite (bind_Ok _ _ _ _ st st st); [|done]. rewrite Hc. reflexivity.
Qed.
Lemma expired_row c id l : c ∈ update_row ca_controlId id (with_status CS_EXPIRED) l ->
  exists c0, c0 ∈ l /\ ca_controlId c0 = ca_controlId c /\ ca_expiresAt c0 = ca_expiresAt c.
Proof. intros [[? _]|(c0 & ? & _ & ->)]%update_row_elem; [by exists c|by exists c0]. Qed.
Lemma due_expired st id id' : due_id st id -> due_id (expired_store id' st) id.
Proof.
  intros [Hin Hle]. split.
  - cbn. by rewrite update_ids.
  - cbn. intros c (c0 & H0 & Hid & <-)%expired_row Hc. apply Hle; [done|congruence].
Qed.
Lemma filter_expired st id (P : ControlAction -> bool) : due_id st id ->
  filter (fun c => (in_force now c && P c) = true) (controlActions (expired_store id st)) =
  filter (fun c => (in_force now c && P c) = true) (controlActions st).
Proof.
  intros [_ Hle]. cbn. unfold update_row. induction (controlActions st) as [|c l IH]; [done|]. cbn [map fmap list_fmap].
  assert (Hl : forall c0, c0 ∈ l -> ca_controlId c0 = id -> ca_expiresAt c0 <= now) by (intros; apply Hle; [by right|done]).
  specialize (IH Hl). destruct (String.eqb_spec (ca_controlId c) id) as [He|He].
  - assert (Hf : in_force now c = false).
    { unfold in_force. apply andb_false_intro2, Z.ltb_ge, Hle; [left|done]. }
    rewrite !filter_cons_False; [exact IH|by rewrite Hf|by unfold in_force].
  - rewrite !filter_cons. destruct (decide _); [by rewrite IH|exact IH].
Qed.

(** [st'] answers every question about controls in force as [st] does. *)
Definition same_force (st st' : RiskStore) : Prop := forall P,
  filter (fun c => (in_force now c && P c) = true) (controlActions st') =
  filter (fun c => (in_force now c && P c) = true) (controlActions st).
Lemma expire_all ids st (env : Env) : (forall c, c ∈ ids -> due_id st (ca_controlId c)) ->
  exists l st', for_each (fun c => atomic (close_control now (ca_controlId c) CS_EXPIRED "EXPIRED" "automated:expiry-job"
        "Configured control expiry reached.")) ids (alone st env) = (Ok l, alone st' env) /\ same_force st st'.
Proof.
  revert st. induction ids as [|c ids IH]; intros st Hdue; [by exists [], st|].
  destruct (close_expired st (ca_controlId c)) as [x Hx]; [apply Hdue; left|].
  destruct (IH (expired_store (ca_controlId c) st)) as (l & st' & Hrun & Hsame).
  { intros d Hd. apply due_expired, Hdue. by right. }
  exists (x :: l), st'. split.
  - cbn [for_each]. rewrite (bind_Ok _ _ _ _ _ x (alone (expired_store (ca_controlId c) st) env))
      by (rewrite atomic_alone, Hx; done).
    by rewrite (bind_Ok _ _ _ _ _ _ _ Hrun).
  - intros P. rewrite Hsame. apply filter_expired, Hdue. left.
Qed.
Lemma NoDup_fmap_eq {A B} (f : A -> B) l x y : NoDup (f <$> l) -> x ∈ l -> y ∈ l -> f x = f y -> x = y.
Proof.
  induction l as [|a l IH]; [by intros _ ?%not_elem_of_nil|]. cbn. intros [Ha Hl]%NoDup_cons.
  intros [->|Hx]%elem_of_cons [->|Hy]%elem_of_cons He; [done|..|by apply IH].
  - destruct Ha. rewrite He. by apply list_elem_of_fmap_2.
  - destruct Ha. rewrite <- He. by apply list_elem_of_fmap_2.
Qed.
Lemma expire_alone st (env : Env) : RiskInv st ->
  exists n st', expire now (alone st env) = (Ok n, alone st' env) /\ same_force st st'.
Proof.
  intros Hinv. unfold RiskService.expire. set (due := due_controls now st).
  destruct (expire_all due st env) as (l & st' & Hrun & Hsame).
  { intros c Hc. unfold due, due_controls in Hc. apply elem_of_take in Hc as (i & Hi & _). apply list_elem_of_lookup_2 in Hi.
    rewrite unordered_perm in Hi. apply list_elem_of_filter in Hi as [[_ Hle]%andb_prop Hin]. split; [by apply list_elem_of_fmap_2|].
    intros d Hd Heq. rewrite (NoDup_fmap_eq ca_controlId _ d c (rk_control_ids _ Hinv) Hd Hin Heq). by apply Z.leb_le. }
  exists (Z.of_nat (length due)), st'. split; [|done].
  rewrite (bind_Ok _ _ _ _ _ due (alone st env)) by (by rewrite atomic_alone).
  by rewrite (bind_Ok _ _ _ _ _ _ _ Hrun).
Qed.

(** ** The answer *)
Definition held_by (scopes : list ScopeRef) (types : ControlType -> bool) (st : RiskStore) : Prop :=
  exists c, c ∈ controlActions st /\ in_force now c = true /\ in_scope scopes c = true /\ types (ca_type c) = true.

Lemma held_by_app scopes more types st : held_by scopes types st -> held_by (scopes ++ more) types st.
Proof.
  intros (c & Hc & Hf & Hs & Ht). exists c. split; [exact Hc|]. split; [exact Hf|]. split; [|exact Ht].
  unfold in_scope in *. by rewrite existsb_app, Hs.
Qed.

Lemma matching_elem scopes st c : c ∈ matching now scopes st <->
  c ∈ controlActions st /\ in_force now c = true /\ in_scope scopes c = true.
Proof.
  unfold matching. rewrite sort_by_Z_perm, unordered_perm, list_elem_of_filter, andb_true_iff. tauto.
Qed.
Lemma existsb_types scopes st (types : ControlType -> bool) :
  existsb types (map ca_type (matching now scopes st)) = true <-> held_by scopes types st.
Proof.
  rewrite existsb_exists. split.
  - intros (t & (c & <- & Hc)%in_map_iff & Ht). apply list_elem_of_In, matching_elem in Hc as (? & ? & ?). by exists c.
  - intros (c & Hc & Hf & Hs & Ht). exists (ca_type c). split; [|done]. apply in_map, list_elem_of_In, matching_elem. auto.
Qed.
Lemma stops_split t : stops t = bool_decide (t = QUARANTINE) || bool_decide (t ∈ [TEMPORARY_BLOCK; ACCOUNT_RESTRICT; RECIPIENT_BLOCK])
  || bool_decide (t ∈ [TRANSFER_HOLD; MANUAL_REVIEW]).
Proof. by destruct t. Qed.
Lemma existsb_or {A} (f g : A -> bool) l : existsb f l || existsb g l = existsb (fun x => f x || g x) l.
Proof. induction l as [|x l IH]; [done|]. cbn. rewrite <- IH. by destruct (f x), (g x), (existsb f l). Qed.
Lemma check_response_allowed found : cr_allowed (check_response found) = negb (existsb stops (map ca_type found)).
Proof.
  unfold check_response. cbn [cr_allowed]. rewrite <- negb_orb, !existsb_or. f_equal.
  induction (map ca_type found) as [|t l IH]; [done|]. cbn. by rewrite IH, stops_split.
Qed.
Lemma check_alone scopes st (env : Env) : RiskInv st ->
  exists st', check now scopes (alone st env) = (Ok (check_response (matching now scopes st')), alone st' env) /\ same_force st st'.
Proof.
  intros Hinv. destruct (expire_alone st env Hinv) as (n & st' & Hrun & Hsame). exists st'. split; [|done].
  unfold RiskService.check. rewrite (bind_Ok _ _ _ _ _ _ _ Hrun).
  by rewrite (bind_Ok _ _ _ _ _ (matching now scopes st') (alone st' env)) by (by rewrite atomic_alone).
Qed.
Lemma held_same scopes types st st' : same_force st st' -> (held_by scopes types st' <-> held_by scopes types st).
Proof.
  intros Hs. specialize (Hs (fun _ => true)).
  assert (Hin : forall c, (c ∈ controlActions st' /\ in_force now c = true) <-> (c ∈ controlActions st /\ in_force now c = true)).
  { intros c. assert (Hf : forall l : list ControlAction, c ∈ l /\ in_force now c = true <-> c ∈ filter (fun c => (in_force now c && (fun _ => true) c) = true) l).
    { intros l. cbn beta. rewrite list_elem_of_filter, andb_true_r. tauto. }
    by rewrite !Hf, Hs. }
  unfold held_by. split; intros (c & Hc & Hf & ?); exists c; pose proof (Hin c); tauto.
Qed.

(** A control check always answers; it allows the operation exactly when no
    control in force on one of the scopes stops it, asks for a step-up exactly
    when one in force requires it, and its decision agrees with its verdict.
    Closing the controls that are due does not change the answer. *)
Theorem check_verdict scopes st (env : Env) : RiskInv st ->
  exists r st', check now scopes (alone st env) = (Ok r, alone st' env) /\
    (cr_allowed r = false <-> held_by scopes stops st) /\
    (cr_requiresStepUp r = true <-> held_by scopes (fun t => bool_decide (t = REQUIRE_STEP_UP)) st) /\
    (cr_allowed r = false <-> (restriction HOLD_FOR_REVIEW <= restriction (cr_decision r))%nat) /\
    (cr_expiresAt r = None <-> ~ held_by scopes (fun _ => true) st).
Proof.
  intros Hinv. destruct (check_alone scopes st env Hinv) as (st' & Hrun & Hsame). eexists _, st'. split; [exact Hrun|].
  split; [|split; [|split]].
  - rewrite check_response_allowed, <- (held_same _ _ _ _ Hsame), <- existsb_types. by destruct (existsb _ _).
  - rewrite <- (held_same _ _ _ _ Hsame), <- existsb_types. done.
  - cbn. repeat (destruct (existsb _ _); cbn); intuition (try discriminate; try lia).
  - rewrite <- (held_same _ _ _ _ Hsame), <- existsb_types. cbn. destruct (matching _ _ _); cbn; intuition discriminate.
Qed.
End Verdict.
