(* ===== verification/RiskOperators.v ===== *)
(** * The HTTP surface of the Risk service: its internal endpoints and the
    operators' ([operators/operator.service.ts], [operator.controller.ts],
    [controls/control.controller.ts], [assessments/assessment.controller.ts]) *)

From Stdlib Require Import ZArith Lia Ascii String.
From stdpp Require Import base strings list gmap sorting.
From S2P Require Import Prelude.
From S2P Require Import Js.
From S2P Require Import Codec.
From S2P Require Import Regex.
From S2P Require Import Contracts.
From S2P Require Import Security.
From S2P Require Import Services.
From S2P Require Import RiskTypes.
From S2P Require Import RiskEngine.
From S2P Require Import LedgerDb.
From S2P Require Import PaymentsDb.
From S2P Require Import PaymentsInv.
From S2P Require Import RiskDb.
From S2P Require Import RiskService.
From S2P Require Import RiskProofs.

Open Scope Z_scope.

(** ** Requests *)
Definition controlKey_rx : rx :=
  rep_range 16 128 (Cls (fun c => alnum c || Ascii.eqb c "." || Ascii.eqb c "_" || Ascii.eqb c ":" || Ascii.eqb c "-")).
Definition reasonCode_rx : rx := rep_range 3 64 (Cls (fun c => in_range "A" "Z" c || is_digit c || Ascii.eqb c "_")).

(** The headers an operator's request carries. *)
Record OperatorRequest := mkOperatorRequest {
  or_session : option string;
  or_csrf : option string;
  or_correlation : option string
}.
Record OperatorIdentity := mkOperator { op_operatorId : string; op_createdAt : string; op_expiresAt : string }.
Record OperatorSession := mkOperatorSession { os_sessionToken : string; os_csrfToken : string; os_identity : OperatorIdentity }.
Record RiskOverview := mkOverview {
  ov_eventsLast24Hours : Z;
  ov_activeControls : Z;
  ov_openIncidents : Z;
  ov_highCriticalAssessments : Z;
  ov_riskDistribution : Z * Z * Z * Z;                       (* LOW, MEDIUM, HIGH, CRITICAL *)
  ov_sourceHealth : list (RiskSource * string * bool)
}.

Definition security_operator : string := "SECURITY_OPERATOR".
Definition development_operator : string := "operator:development-security".
Definition operator_json (o : OperatorIdentity) (csrfHash : string) : json :=
  JObj [("operatorId", JStr (op_operatorId o)); ("role", JStr security_operator); ("createdAt", JStr (op_createdAt o));
        ("expiresAt", JStr (op_expiresAt o)); ("csrfHash", JStr csrfHash)]%string.
(** The fields of a stored session; the service reads only what it wrote. *)
Definition operator_of_json (v : json) : option (OperatorIdentity * string * string) :=
  match jfield "operatorId" v, jfield "role" v, jfield "createdAt" v, jfield "expiresAt" v, jfield "csrfHash" v with
  | JStr id, JStr role, JStr createdAt, JStr expiresAt, JStr csrfHash => Some (mkOperator id createdAt expiresAt, role, csrfHash)
  | _, _, _, _, _ => None
  end.

Section Endpoints.
Context {Env : Type} {zod : Zod} {crypto : Crypto} {pg : Postgres} {rows : RowOrder} {identity : IdentityPeer Env}.
Abbreviation RiskS := (M (System RiskStore Env) RiskErr).
Variable config : RiskConfig.
Variable now : Z.

Definition zod_refused : RiskErr := RiskJsError "ZodError".
Definition parse_with {A} (schema : A -> bool) (a : A) : RiskS A := if schema a then mret a else throw zod_refused.

Definition applyControlRequestSchema (i : ApplyControl) : bool :=
  rx_match controlKey_rx (ap_idempotencyKey i) && opaqueIdentifier (ap_scopeId i) && rx_match reasonCode_rx (ap_reasonCode i)
  && z_datetime (ap_controlExpiresAt i) && when_present z_uuid (ap_incidentId i).
(** [z.string().trim().min(8).max(500)] *)
Definition trimmed (lo hi : nat) (s : string) : option string := let t := trim s in if len_between lo hi t then Some t else None.
Definition releaseControlRequestSchema (reason : string) : option string := trimmed 8 500 reason.
Definition optional_trimmed (lo hi : nat) (o : option string) : option (option string) :=
  match o with Some s => t ← trimmed lo hi s; Some (Some t) | None => Some None end.
Definition some_field (i : IncidentUpdate) : bool :=
  bool_decide (is_Some (iu_status i)) || bool_decide (is_Some (iu_assignedTo i)) || bool_decide (is_Some (iu_note i))
  || bool_decide (is_Some (iu_resolutionReason i)).
Definition incidentUpdateSchema (i : IncidentUpdate) : option IncidentUpdate :=
  if when_present (len_between 8 128) (iu_assignedTo i) && some_field i then
    note ← optional_trimmed 3 1000 (iu_note i);
    reason ← optional_trimmed 8 500 (iu_resolutionReason i);
    Some (mkIncidentUpdate (iu_status i) (iu_assignedTo i) note reason)
  else None.

(** ** Internal endpoints *)
Definition evaluate_endpoint (input : RiskEvaluationRequest) : RiskS RiskAssessment :=
  input ← parse_with riskEvaluationRequestSchema input;
  id ← atomic risk_uuid;
  evaluate config now id input.
Definition check_endpoint (request : ControlCheckRequest) : RiskS ControlCheckResponse :=
  request ← parse_with controlCheckRequestSchema request;
  check now (cc_scopes request).
Definition trusted_service : string := "trusted:internal-service".
Definition apply_endpoint (input : ApplyControl) : RiskS ControlAction :=
  input ← parse_with applyControlRequestSchema input;
  apply now input trusted_service.
Definition release_endpoint (id reason : string) : RiskS ControlAction :=
  reason ← require (releaseControlRequestSchema reason) zod_refused;
  release now id reason trusted_service.

(** ** [OperatorService] *)
Definition unauthorized : RiskErr := RiskHttpError 401 "Unauthorized".
Definition session_key (sessionToken : string) : string :=
  redisPrefix config +:+ join ":" (map key_part ["operator-session"%string; sha256 sessionToken]).
Definition bootstrap (sessionToken csrfToken accessToken : string) : RiskS OperatorSession :=
  _ ← throw_when (match operatorBootstrapToken config with
                  | Some expected => String.eqb expected "" || negb (timingSafeStringEqual accessToken expected)
                  | None => true
                  end) unauthorized;
  let o := mkOperator development_operator (toISOString now) (toISOString (now + operatorSessionTtlSeconds config * 1000)) in
  _ ← atomic (modify (set_operator_sessions
        (redis_set now (session_key sessionToken) (text (operator_json o (sha256 csrfToken))) (operatorSessionTtlSeconds config))));
  mret (mkOperatorSession sessionToken csrfToken o).
Definition bootstrap_endpoint (sessionToken csrfToken accessToken : string) : RiskS OperatorSession :=
  accessToken ← parse_with (len_between 16 256) accessToken;
  bootstrap sessionToken csrfToken accessToken.
(** [new Date(value.expiresAt) <= new Date()]: false for an invalid date. *)
Definition past (expiresAt : string) : bool := match date_parse expiresAt with Some t => t <=? now | None => false end.
Definition validate (sessionToken : string) (csrfToken : option string) (mutation : bool) : RiskS OperatorIdentity :=
  raw ← atomic (gets (fun st => redis_get now (session_key sessionToken) (operatorSessions st)));
  raw ← require (truthy_string raw) unauthorized;
  value ← require (JSON_parse raw) (RiskJsError "SyntaxError");
  '(o, role, csrfHash) ← require (operator_of_json value) unauthorized;
  _ ← throw_when (negb (String.eqb role security_operator) || past (op_expiresAt o)) unauthorized;
  _ ← throw_when (mutation && match truthy_string csrfToken with
                              | Some token => negb (timingSafeStringEqual (sha256 token) csrfHash)
                              | None => true
                              end) (RiskHttpError 403 "Forbidden");
  mret o.
Definition revoke (sessionToken : string) : RiskS unit :=
  atomic (modify (set_operator_sessions (redis_delete (session_key sessionToken)))).

(** ** [OperatorController] *)
Definition token_of (r : OperatorRequest) : string := trim (default "" (or_session r)).
Definition csrf_of (r : OperatorRequest) : option string := trim <$> or_csrf r.
Definition watching (r : OperatorRequest) : RiskS OperatorIdentity := validate (token_of r) None false.
Definition acting (r : OperatorRequest) : RiskS OperatorIdentity := validate (token_of r) (csrf_of r) true.

Definition logout (r : OperatorRequest) : RiskS unit := _ ← acting r; revoke (token_of r).

Definition decode_page_cursor (value : option string) : RiskS (option (Z * string)) :=
  match truthy_string value with
  | None => mret None
  | Some t =>
      let invalid := RiskHttpError 400 "The pagination cursor is invalid." in
      parsed ← require (cursor_json t) invalid;
      match jfield "timestamp" parsed, jfield "id" parsed with
      | JStr timestamp, JStr id =>
          if z_datetime timestamp && z_uuid id
          then t ← require (date_parse timestamp) (RiskDbError "Invalid Date"); mret (Some (t, id))
          else throw invalid
      | _, _ => throw invalid
      end
  end.

(** [orderBy: [{ at: 'desc' }, { id: 'desc' }], take: 51], after a cursor. *)
Section Listing.
Context {A : Type} (at_of : A -> Z) (id_of : A -> string).
Definition newest (a b : A) : Prop := at_of b < at_of a \/ (at_of a = at_of b /\ String.le (id_of b) (id_of a)).
#[local] Instance newest_dec a b : Decision (newest a b).
Proof. unfold newest. apply _. Defined.
Definition older_than (c : option (Z * string)) (a : A) : bool :=
  match c with
  | None => true
  | Some (t, id) => (at_of a <? t)
                    || ((at_of a =? t) && bool_decide (String.le (id_of a) id) && negb (String.eqb (id_of a) id))
  end.
Definition listing (c : option (Z * string)) (l : list A) : list A :=
  take 51 (merge_sort newest (filter (fun a => older_than c a = true) l)).
End Listing.
Definition watch_list {A} (at_of : A -> Z) (id_of : A -> string) (table : RiskStore -> list A)
    (r : OperatorRequest) (cursor : option string) : RiskS (list A) :=
  _ ← watching r;
  c ← decode_page_cursor cursor;
  atomic (gets (fun st => listing at_of id_of c (table st))).
Definition events_endpoint := watch_list sr_receivedAt (fun r => se_eventId (sr_event r)) securityEvents.
Definition assessments_endpoint := watch_list am_createdAt am_id assessments.
Definition controlList_endpoint := watch_list ca_controlCreatedAt ca_controlId controlActions.
Definition incidentList_endpoint := watch_list in_createdAt in_id incidents.
Definition incident_endpoint (r : OperatorRequest) (id : string) : RiskS Incident :=
  _ ← watching r;
  id ← parse_with z_uuid id;
  i ← atomic (gets (fun st => find_row in_id id (incidents st)));
  require i (RiskDbError "P2025").

Definition source_order (a b : SourceHealth) : Prop := String.le (source_str (sh_source a)) (source_str (sh_source b)).
#[local] Instance source_order_dec a b : Decision (source_order a b).
Proof. unfold source_order. apply _. Defined.
Definition overview (r : OperatorRequest) : RiskS RiskOverview :=
  _ ← watching r;
  let since := now - 86400000 in
  let recent a := since <=? am_createdAt a in
  let banded b st := count_rows (fun a => bool_decide (am_band a = b) && recent a) (assessments st) in
  events ← atomic (gets (fun st => count_rows (fun e => since <=? sr_receivedAt e) (securityEvents st)));
  active ← atomic (gets (fun st => count_rows (in_force now) (controlActions st)));
  opened ← atomic (gets (fun st => count_rows unresolved (incidents st)));
  high ← atomic (gets (fun st => count_rows (fun a => bool_decide (is_Some (alarming (am_band a))) && recent a) (assessments st)));
  bands ← atomic (gets (fun st => (banded LOW st, banded MEDIUM st, banded HIGH st, banded CRITICAL st)));
  sources ← atomic (gets (fun st => merge_sort source_order (sourceHealth st)));
  mret (mkOverview events active opened high bands
          (map (fun s => (sh_source s, toISOString (sh_lastReceivedAt s), 900000 <? now - sh_lastReceivedAt s)) sources)).

(** [audit(...)]; [random] is the identifier of a request that brought none. *)
Definition audit (random operatorId action targetType targetId reason : string) (r : OperatorRequest) : RiskS unit :=
  let supplied := default ""%string (or_correlation r) in
  let row := mkOperatorAudit operatorId action targetType targetId reason (if z_uuid supplied then supplied else random) now in
  atomic (transaction (fun _ _ => None) (
    _ ← risk_check (fits 128 operatorId && fits 64 action && fits 32 targetType && fits 128 targetId && fits 500 reason
                    && pg_uuid (oa_correlationId row)) "operator_audits";
    modify (set_audits (fun l => l ++ [row])))).

Definition operator_apply (random : string) (r : OperatorRequest) (input : ApplyControl) : RiskS ControlAction :=
  operator ← acting r;
  input ← parse_with applyControlRequestSchema input;
  control ← apply now input (op_operatorId operator);
  _ ← audit random (op_operatorId operator) "CONTROL_APPLY" "CONTROL" (ca_controlId control) (ap_reasonCode input) r;
  mret control.
Definition operator_release (random : string) (r : OperatorRequest) (id reason : string) : RiskS ControlAction :=
  operator ← acting r;
  reason ← require (releaseControlRequestSchema reason) zod_refused;
  id ← parse_with z_uuid id;
  control ← release now id reason (op_operatorId operator);
  _ ← audit random (op_operatorId operator) "CONTROL_RELEASE" "CONTROL" (ca_controlId control) reason r;
  mret control.
Definition status_text (s : IncidentStatus) : string :=
  match s with
  | OPEN => "OPEN" | INVESTIGATING => "INVESTIGATING" | CONTAINED => "CONTAINED" | RESOLVED => "RESOLVED"
  | FALSE_POSITIVE => "FALSE_POSITIVE"
  end.
Definition update_reason (i : IncidentUpdate) : string :=
  default "assignment"%string
    (or_else (truthy_string (iu_note i)) (or_else (truthy_string (iu_resolutionReason i)) (status_text <$> iu_status i))).
Definition operator_update (random : string) (r : OperatorRequest) (id : string) (input : IncidentUpdate) : RiskS Incident :=
  operator ← acting r;
  input ← require (incidentUpdateSchema input) zod_refused;
  id ← parse_with z_uuid id;
  incident ← update_incident now id input (op_operatorId operator);
  _ ← audit random (op_operatorId operator) "INCIDENT_UPDATE" "INCIDENT" (in_id incident) (update_reason input) r;
  mret incident.
End Endpoints.

(** * What operators may do, and what is recorded of it *)

Section Operators.
Context {Env : Type} {zod : Zod} {crypto : Crypto} {pg : Postgres} {rows : RowOrder} {identity : IdentityPeer Env}.
Abbreviation RiskS := (M (System RiskStore Env) RiskErr).
Variable config : RiskConfig.
Variable now : Z.

Inductive OperatorAction :=
| OperatorApply (input : ApplyControl)
| OperatorRelease (id reason : string)
| OperatorUpdate (id : string) (input : IncidentUpdate)
| OperatorLogout.
Definition operator_act (random : string) (r : OperatorRequest) (a : OperatorAction) : RiskS unit :=
  match a with
  | OperatorApply input => _ ← operator_apply config now random r input; mret tt
  | OperatorRelease id reason => _ ← operator_release config now random r id reason; mret tt
  | OperatorUpdate id input => _ ← operator_update config now random r id input; mret tt
  | OperatorLogout => logout config now r
  end.

(** ** Sessions *)

(** The session of the request's token is live, is [o]'s, and the request
    carries its CSRF token. *)
Definition authorised (r : OperatorRequest) (st : RiskStore) (o : OperatorIdentity) : Prop :=
  exists raw v csrfHash csrf,
    redis_get now (session_key config (token_of r)) (operatorSessions st) = Some raw /\
    JSON_parse raw = Some v /\ operator_of_json v = Some (o, security_operator, csrfHash) /\
    past now (op_expiresAt o) = false /\ csrf_of r = Some csrf /\ timingSafeStringEqual (sha256 csrf) csrfHash = true.

Lemma truthy_some o s : truthy_string o = Some s -> o = Some s.
Proof. unfold truthy_string. destruct o as [t|]; [|done]. by destruct (String.eqb t ""); [|intros [= <-]]. Qed.
Lemma acting_alone r st (env : Env) : (acting config now r (alone st env)).2 = alone st env /\
  forall o, (acting config now r (alone st env)).1 = Ok o -> authorised r st o.
Proof.
  unfold acting, validate. rewrite (bind_Ok _ _ _ _ _ _ (alone st env)) by (by rewrite atomic_alone).
  destruct (truthy_string (redis_get now _ _)) as [raw|] eqn:Hraw; [|by split].
  rewrite (bind_Ok _ _ _ _ _ raw (alone st env)) by done.
  destruct (JSON_parse raw) as [v|] eqn:Hv; [|by split]. rewrite (bind_Ok _ _ _ _ _ v (alone st env)) by done.
  destruct (operator_of_json v) as [[[o role] h]|] eqn:Ho; [|by split].
  rewrite (bind_Ok _ _ _ _ _ (o, role, h) (alone st env)) by done.
  destruct (negb (String.eqb role security_operator) || past now (op_expiresAt o)) eqn:Hrole; [by split|].
  rewrite (bind_Ok _ _ _ _ _ tt (alone st env)) by done.
  destruct (truthy_string (csrf_of r)) as [c|] eqn:Hc; [|by split].
  destruct (negb (timingSafeStringEqual (sha256 c) h)) eqn:Ht; [by split|].
  split; [reflexivity|]. intros o' [= <-]. bool_to_Z. subst role.
  exists raw, v, h, c. repeat split; try done; by apply truthy_some.
Qed.

(** ** Audits *)
Definition audits_are (l : list OperatorAudit) (s : System RiskStore Env) : Prop := operatorAudits (sdb s) = l /\ sothers s = [].
Lemma audits_atomic {A} l (m : RiskM A) : (forall st, operatorAudits (m st).2 = operatorAudits st) ->
  preserves (audits_are l) (atomic m).
Proof.
  intros Hm [st env others] [Hl Ho]. cbn in Ho. subst others. change (mkSystem st env []) with (alone st env).
  rewrite atomic_alone. specialize (Hm st). cbn in Hl. destruct (m st) as [[a|e] st']; split; cbn in *; congruence.
Qed.
Lemma audits_transaction {A} (m : RiskM A) st :
  (forall a st', m st = (Ok a, st') -> operatorAudits st' = operatorAudits st) ->
  operatorAudits (transaction (fun _ _ => None) m st).2 = operatorAudits st.
Proof. intros H. unfold transaction. destruct (m st) as [[a|e] st'] eqn:Hm; [|done]. by eapply H. Qed.
Lemma audits_remote {A} l (m : M Env RiskErr A) : preserves (audits_are l) (remote m).
Proof.
  intros [st env others] [Hl Ho]. cbn in Ho. subst others. change (mkSystem st env []) with (alone st env).
  rewrite remote_alone. by destruct (m env) as [[a|e] env'].
Qed.
Lemma audits_revoke l c : preserves (audits_are l) (revoke_if_session c).
Proof.
  unfold revoke_if_session, revokeSession. apply preserves_bind; [|auto with preserve].
  destruct (bool_decide _); [|auto with preserve]. apply preserves_bind; [apply audits_remote|auto with preserve].
Qed.
Lemma audits_apply l input operator : preserves (audits_are l) (apply now input operator).
Proof.
  unfold apply. apply preserves_bind; [by apply audits_atomic|intros [c|]]; [apply audits_revoke|].
  apply preserves_bind; [auto with preserve|intros t]. apply preserves_bind; [|intros c; apply audits_revoke].
  apply audits_atomic. intros st. apply audits_transaction. intros a st' H.
  by apply create_control_ok in H as (_ & _ & _ & ->).
Qed.
Lemma audits_release l id reason operator : preserves (audits_are l) (release now id reason operator).
Proof.
  unfold release. apply preserves_bind; [by apply audits_atomic|intros o].
  apply preserves_bind; [auto with preserve|intros c]. destruct (negb _); [auto with preserve|].
  apply audits_atomic. intros st. apply audits_transaction. intros a st' H.
  by apply close_control_ok in H as (_ & ->).
Qed.
Lemma audits_update l id input operator : preserves (audits_are l) (update_incident now id input operator).
Proof.
  unfold update_incident. do 3 (apply preserves_bind; [by first [apply audits_atomic|auto with preserve]|intros ?]).
  apply audits_atomic. intros st. apply audits_transaction. intros i st' H. unfold write_incident, risk_check in H. run. by subst.
Qed.
Definition audit_of (o : OperatorIdentity) (row : OperatorAudit) : Prop :=
  oa_operatorId row = op_operatorId o /\ oa_occurredAt row = now.
(** [m] ends well only after it added one audit row of [o]. *)
Definition audits_one {A} l (o : OperatorIdentity) (m : RiskS A) : Prop :=
  triple (audits_are l) m (fun _ s => exists row, operatorAudits (sdb s) = l ++ [row] /\ audit_of o row) (fun _ _ => True).
Lemma audits_one_bind {A B} l o (m : RiskS A) (k : A -> RiskS B) :
  preserves (audits_are l) m -> (forall a, audits_one l o (k a)) -> audits_one l o (m ≫= k).
Proof.
  intros Hm Hk. eapply triple_bind; [|apply Hk].
  eapply triple_conseq; [apply Hm|done|done|done].
Qed.
Lemma audit_written {A} l random o action type id reason r (a : A) :
  audits_one l o (_ ← audit now random (op_operatorId o) action type id reason r; mret a).
Proof.
  apply (triple_bind _ _ _ _ _ (fun _ s => exists row, operatorAudits (sdb s) = l ++ [row] /\ audit_of o row));
    [|by intros u s Hs].
  intros [st env others] [Hl Ho]. cbn in Hl, Ho. subst. unfold audit. change (mkSystem st env []) with (alone st env).
  rewrite atomic_alone. destruct (transaction _ _ st) as [[[]|e] st'] eqn:Ht; [|done]. cbn [fst snd].
  apply transaction_Ok_inv in Ht as [Ht _]. unfold risk_check in Ht. run. eexists. split; [done|by split].
Qed.
Lemma audits_parse {A} l (schema : A -> bool) a : preserves (audits_are l) (parse_with (Env := Env) schema a).
Proof. unfold parse_with. destruct (schema a); auto with preserve. Qed.
Lemma action_audited l random r a o : match a with
  | OperatorApply input => audits_one l o (
      input ← parse_with applyControlRequestSchema input; control ← apply now input (op_operatorId o);
      _ ← audit now random (op_operatorId o) "CONTROL_APPLY" "CONTROL" (ca_controlId control) (ap_reasonCode input) r;
      mret control)
  | OperatorRelease id reason => audits_one l o (
      reason ← require (releaseControlRequestSchema reason) zod_refused; id ← parse_with z_uuid id;
      control ← release now id reason (op_operatorId o);
      _ ← audit now random (op_operatorId o) "CONTROL_RELEASE" "CONTROL" (ca_controlId control) reason r; mret control)
  | OperatorUpdate id input => audits_one l o (
      input ← require (incidentUpdateSchema input) zod_refused; id ← parse_with z_uuid id;
      incident ← update_incident now id input (op_operatorId o);
      _ ← audit now random (op_operatorId o) "INCIDENT_UPDATE" "INCIDENT" (in_id incident) (update_reason input) r;
      mret incident)
  | OperatorLogout => True
  end.
Proof.
  destruct a; [| | |done]; repeat (apply audits_one_bind;
    [by first [apply audits_parse|apply audits_apply|apply audits_release|apply audits_update|apply preserves_require]|intros ?]);
    apply audit_written.
Qed.
Lemma audits_one_alone {A} o (m : RiskS A) st (env : Env) u s' : audits_one (operatorAudits st) o m ->
  (_ ← m; mret tt) (alone st env) = (Ok u, s') ->
  exists row, operatorAudits (sdb s') = operatorAudits st ++ [row] /\ audit_of o row.
Proof.
  intros Hm H. apply bind_Ok_inv in H as (a & s1 & Hrun & H). injection H as <- <-.
  specialize (Hm (alone st env) (conj eq_refl eq_refl)). by rewrite Hrun in Hm.
Qed.

(** What an action that succeeded has recorded: a logout ends the session and
    writes no audit, every other action adds one row in the operator's name. *)
Definition recorded (r : OperatorRequest) (a : OperatorAction) (o : OperatorIdentity) (st st' : RiskStore) : Prop :=
  match a with
  | OperatorLogout => st' = set_operator_sessions (redis_delete (session_key config (token_of r))) st /\
      operatorAudits st' = operatorAudits st /\ forall o', ~ authorised r st' o'
  | _ => exists row, operatorAudits st' = operatorAudits st ++ [row] /\ audit_of o row
  end.
Lemma logged_out r st o : ~ authorised r (set_operator_sessions (redis_delete (session_key config (token_of r))) st) o.
Proof.
  intros (raw & v & h & c & Hget & _). cbn [set_operator_sessions operatorSessions] in Hget.
  unfold redis_get, redis_live, redis_delete in Hget. by rewrite lookup_delete_eq in Hget.
Qed.
(** C30: without a live operator session and its CSRF token an operator's action
    fails and changes nothing. An action that succeeds had both, and has added
    one audit row in the name of the session's operator, unless it is a logout:
    that ends the session, changes nothing else and is not audited. *)
Theorem operator_actions_guarded random r a st (env : Env) res s' :
  operator_act random r a (alone st env) = (res, s') ->
  ((forall o, ~ authorised r st o) -> (exists e, res = Err e) /\ s' = alone st env) /\
  (res = Ok tt -> exists o, authorised r st o /\ recorded r a o st (sdb s')).
Proof.
  destruct (acting_alone r st env) as [Hst Hauth]. destruct (acting config now r (alone st env)) as [[o|e] s1] eqn:Ha;
    cbn in Hst, Hauth; subst s1.
  - specialize (Hauth o eq_refl). intros H. split; [by intros Hno; destruct (Hno o)|]. intros ->. exists o. split; [done|].
    pose proof (action_audited (operatorAudits st) random r a o) as Hone. destruct a.
    4: { unfold operator_act, logout in H. rewrite (bind_Ok _ _ _ _ _ _ _ Ha) in H. unfold revoke in H. rewrite atomic_alone in H.
         injection H as <-. cbn [sdb recorded]. split; [done|]. split; [by destruct st|apply logged_out]. }
    all: unfold operator_act, operator_apply, operator_release, operator_update in H;
        apply bind_Ok_inv in H as (x & s1 & Hrun & H); rewrite (bind_Ok _ _ _ _ _ _ _ Ha) in Hrun;
        eapply audits_one_alone; try exact Hone; erewrite bind_Ok; eassumption || exact Hrun.
  - intros H. assert (Hfail : res = Err e /\ s' = alone st env).
    { destruct a; unfold operator_act, operator_apply, operator_release, operator_update, logout in H;
        rewrite (bind_Err _ _ _ _ _ e (alone st env)) in H; try (by injection H as <- <-); try done;
        by rewrite (bind_Err _ _ _ _ _ _ _ Ha). }
    destruct Hfail as [-> ->]. split; [intros _; split; [by eexists|done]|discriminate].
Qed.
End Operators.
