(* ===== verification/RiskNetwork.v ===== *)
(** * Payments, the Ledger and the Risk service joined by a network

    The environment of Payments: the Ledger behind its lossy network
    ([Peers]) and the Risk service on its store, behind one of its own. *)

From Stdlib Require Import ZArith Lia Ascii String.
From stdpp Require Import base strings list gmap sorting.
From S2P Require Import Prelude.
From S2P Require Import Js.
From S2P Require Import Contracts.
From S2P Require Import Security.
From S2P Require Import LedgerDb.
From S2P Require Import Idempotency.
From S2P Require Import CustomerTransfer.
From S2P Require Import RiskTypes.
From S2P Require Import RiskEngine.
From S2P Require Import Services.
From S2P Require Import PaymentsDb.
From S2P Require Import PaymentsInv.
From S2P Require Import Peers.
From S2P Require Import PaymentTransfers.
From S2P Require Import PaymentSettlement.
From S2P Require Import RiskDb.
From S2P Require Import RiskService.
From S2P Require Import RiskProofs.
From S2P Require Import RiskProperties.
From S2P Require Import RiskOperators.

Open Scope Z_scope.

Record Cluster := mkCluster {
  cl_net : Net;
  cl_risk : RiskStore;
  cl_riskFaults : list Fault
}.

(** The [StructuredExceptionFilter] of the Risk service. The body of a plain
    [UnauthorizedException] or [ForbiddenException] has no [error.code]. *)
Definition risk_failure {T} (e : RiskErr) : HttpReply T :=
  match e with
  | RiskHttpError status code => Failure status (if bool_decide (status ∈ [401; 403]) then None else Some code)
  | RiskJsError name => if String.eqb name "ZodError" then Failure 400 (Some "INVALID_REQUEST"%string)
                        else Failure 500 (Some "RISK_UNAVAILABLE"%string)
  | _ => Failure 500 (Some "RISK_UNAVAILABLE"%string)
  end.
Definition risk_reply {T} (r : result RiskErr T) : HttpReply T :=
  match r with Ok a => Success (Some a) | Err e => risk_failure e end.

Definition on_ledger {T} (call : Net -> HttpReply T * Net) (c : Cluster) : HttpReply T * Cluster :=
  let '(r, net) := call (cl_net c) in (r, mkCluster net (cl_risk c) (cl_riskFaults c)).
Definition on_risk {T} (m : M (System RiskStore unit) RiskErr T) (c : Cluster) : HttpReply T * Cluster :=
  let '(r, s) := m (alone (cl_risk c) tt) in
  match cl_riskFaults c with
  | LoseRequest :: fs => (NoReply, mkCluster (cl_net c) (cl_risk c) fs)
  | LoseReply :: fs => (NoReply, mkCluster (cl_net c) (sdb s) fs)
  | fs => (risk_reply r, mkCluster (cl_net c) (sdb s) (tail fs))
  end.

Section Cluster.
Context {zod : Zod} {crypto : Crypto} {pg : Postgres} {rows : RowOrder}.
Variable ledger_config : LedgerConfig.
Variable ledger_now : Z.
Variable risk_config : RiskConfig.
Variable risk_now : Z.
(** The source token of Payments. *)
Variable source_token : string.

(** The Ledger's part of [ledger_network]: its Risk functions are not used. *)
Definition ledger_side : Peers Net := ledger_network ledger_config ledger_now (fun _ => NoReply) (fun _ => NoReply).
#[local] Instance cluster : Peers Cluster := {|
  post_preview := fun i corr => on_ledger (@post_preview Net ledger_side i corr);
  post_transfer := fun i corr => on_ledger (@post_transfer Net ledger_side i corr);
  get_account := fun accountId customerId corr => on_ledger (@get_account Net ledger_side accountId customerId corr);
  get_resolve := fun reference corr => on_ledger (@get_resolve Net ledger_side reference corr);
  post_controls_check := fun r => on_risk (check_endpoint risk_now r);
  post_evaluate := fun r => on_risk (evaluate_endpoint risk_config risk_now r);
  post_event := fun e => on_risk (_ ← ingest_endpoint risk_config risk_now e (Some source_token); mret tt)
|}.

Lemma on_risk_net {T} (m : M (System RiskStore unit) RiskErr T) c : cl_net (on_risk m c).2 = cl_net c.
Proof. unfold on_risk. destruct (m _) as [r s], (cl_riskFaults c) as [|[] fs]; done. Qed.

(** ** A control in force stops every payment *)

(** The scopes Payments asks about. *)
Definition payment_scopes (input : InternalTransferConfirmation) (i : TransferIntent) : list ScopeRef :=
  [mkScope CUSTOMER (cf_senderCustomerId input)] ++ scope_when ACCOUNT (Some (ti_sourceAccountId i))
  ++ scope_when RECIPIENT (Some (ti_recipientPublicReference i)).
Definition intent_of (input : InternalTransferConfirmation) (db : PaymentsDb) : option TransferIntent :=
  find (fun i => String.eqb (ti_tokenHash i) (sha256 (cf_intentToken input))
                 && String.eqb (ti_senderCustomerId i) (cf_senderCustomerId input)) (transferIntents db).

Lemma risk_internal_state {T} (call : Cluster -> HttpReply T * Cluster) schema (db : PaymentsDb) c r s' :
  risk_internal call schema (alone db c) = (r, s') ->
  s' = alone db (call c).2 /\ forall a, r = Ok a -> (call c).1 = Success (Some a).
Proof.
  unfold risk_internal. rewrite (bind_Ok _ _ _ _ _ _ _ (ask_alone call db c)).
  destruct (call c).1 as [[b|]| |]; [destruct (schema b)|..]; intros [= <- <-]; split; try done. by intros a [= <-].
Qed.
Lemma check_refuses request c : RiskInv (cl_risk c) -> held_by risk_now (cc_scopes request) stops (cl_risk c) ->
  forall a, (on_risk (check_endpoint risk_now request) c).1 = Success (Some a) -> cr_allowed a = false.
Proof.
  intros Hinv Hheld a. unfold on_risk, check_endpoint, parse_with.
  destruct (controlCheckRequestSchema request).
  - destruct (check_alone risk_now (cc_scopes request) (cl_risk c) tt Hinv) as (st' & Hrun & Hsame).
    rewrite (bind_Ok _ _ _ _ _ request (alone (cl_risk c) tt)) by done. rewrite Hrun.
    assert (Hno : cr_allowed (check_response (matching risk_now (cc_scopes request) st')) = false).
    { rewrite check_response_allowed. apply negb_false_iff, existsb_types. by apply (held_same _ _ _ (cl_risk c)). }
    destruct (cl_riskFaults c) as [|[] fs]; cbn; try done; by intros [= <-].
  - rewrite (bind_Err _ _ _ _ (alone (cl_risk c) tt) zod_refused (alone (cl_risk c) tt)) by done.
    by destruct (cl_riskFaults c) as [|[] fs].
Qed.
Lemma enforce_refuses input (db : PaymentsDb) (c : Cluster) (r : result PaymentsErr RiskAssessment) s' : RiskInv (cl_risk c) ->
  held_by risk_now ([mkScope CUSTOMER (ev_subjectId input)] ++ scope_when ACCOUNT (ev_accountId input)
     ++ scope_when RECIPIENT (ev_recipientId input)) stops (cl_risk c) ->
  enforce input (alone db c) = (r, s') ->
  (exists e, r = Err e) /\ sdb s' = db /\ cl_net (senv s') = cl_net c.
Proof.
  intros Hinv Hheld. unfold enforce. set (scopes := (_ ++ _ ++ _)%list) in *. set (request := mkControlCheck _ scopes _).
  destruct (risk_internal (post_controls_check request) controlCheckResponseSchema (alone db c)) as [r1 s1] eqn:Hcheck.
  pose proof (risk_internal_state _ _ _ _ _ _ Hcheck) as [-> Hok].
  assert (Hnet : cl_net (post_controls_check request c).2 = cl_net c) by apply on_risk_net.
  destruct r1 as [a|e].
  - rewrite (bind_Ok _ _ _ _ _ _ _ Hcheck). specialize (Hok a eq_refl).
    rewrite (check_refuses request c Hinv Hheld a Hok). intros [= <- <-]. split; [by eexists|done].
  - rewrite (bind_Err _ _ _ _ _ _ _ Hcheck). intros [= <- <-]. split; [by eexists|done].
Qed.

(** C27: while a stopping control is in force on the customer, the source account
    or the recipient, no confirmation of a new transfer succeeds, whatever the
    networks lose: Payments writes nothing and the Ledger is not called. *)
Theorem held_customer_cannot_pay config now random evaluationId input corr db c i r s' :
  RiskInv (cl_risk c) -> no_transfer_for input db -> intent_of input db = Some i ->
  held_by risk_now (payment_scopes input i) stops (cl_risk c) ->
  confirm config now random evaluationId input corr (alone db c) = (r, s') ->
  (exists e, r = Err e) /\ sdb s' = db /\ cl_net (senv s') = cl_net c.
Proof.
  intros Hinv Hnew Hi Hheld. unfold confirm.
  erewrite bind_Ok; [|rewrite atomic_alone; unfold find_intent, gets; cbn [fst snd]; unfold intent_of in Hi; rewrite Hi; done].
  unfold require at 1. rewrite (bind_Ok _ _ _ _ _ i (alone db c)) by done.
  destruct (negb (bool_decide (is_Some (ti_authorizedAt i)))).
  { intros [= <- <-]. split; [by eexists|done]. }
  rewrite (bind_Ok _ _ _ _ _ tt (alone db c)) by done.
  rewrite (bind_Ok _ _ _ _ _ None (alone db c)) by (by rewrite atomic_alone, find_replay_none).
  match goal with |- context [enforce ?e ≫= _] => set (eval := e) end.
  destruct (enforce eval (alone db c)) as [r1 s1] eqn:He.
  pose proof (enforce_refuses eval db c r1 s1 Hinv Hheld He) as ([e ->] & Hdb & Hnet).
  rewrite (bind_Err _ _ _ _ _ _ _ He). intros [= <- <-]. split; [by eexists|done].
Qed.
End Cluster.
