(* ===== verification/RiskWitnesses.v ===== *)
(** * The Risk theorems at concrete inputs *)

From Stdlib Require Import ZArith Lia Ascii String.
From stdpp Require Import base strings list gmap sorting.
From S2P Require Import Prelude.
From S2P Require Import Js.
From S2P Require Import Codec.
From S2P Require Import Services.
From S2P Require Import Contracts.
From S2P Require Import Security.
From S2P Require Import LedgerDb.
From S2P Require Import CustomerTransfer.
From S2P Require Import Fixtures.
From S2P Require Import RiskTypes.
From S2P Require Import RiskEngine.
From S2P Require Import PaymentsDb.
From S2P Require Import PaymentsInv.
From S2P Require Import Peers.
From S2P Require Import PaymentTransfers.
From S2P Require Import PaymentWitnesses.
From S2P Require Import PaymentSettlement.
From S2P Require Import RiskDb.
From S2P Require Import RiskService.
From S2P Require Import RiskProofs.
From S2P Require Import RiskProperties.
From S2P Require Import RiskOperators.
From S2P Require Import RiskNetwork.

Open Scope Z_scope.

#[export] Instance fx_rows : RowOrder := {| unordered := fun A l => l; unordered_perm := fun A l => Permutation_refl l |}.
#[export] Instance fx_identity : IdentityPeer unit := {| post_revoke := fun _ _ _ env => (true, env) |}.
Definition fx_risk : RiskConfig :=
  mkRiskConfig "127.0.0.1" 4105 "postgresql://risk" "redis://127.0.0.1" "risk-token" (fun s => source_str s +:+ "-source-token")
    "aegis:risk:" 90 300 900 (Some "operator-bootstrap-token"%string) 1800 10000000 25000000 "http://127.0.0.1:4101" "identity-token" 3000.
Definition risk_state {A} (x : result RiskErr A * System RiskStore unit) : RiskStore := sdb x.2.
Abbreviation risk_alone st := (alone st tt).

(** ** The engine *)
Definition fx_evaluation (n : Z) (amount : string) : RiskEvaluationRequest :=
  mkEvaluation (fx_id n) TRANSFER_CONFIRMATION_OP alice None None None None (Some amount) (Some "LKR"%string) true
    (toISOString fx_now) fx_correlation.
Definition no_facts : RiskFacts := mkFacts 0 0 0 0 false 0 0 0 false false 0 0 false false false.
Definition bad_facts : RiskFacts := mkFacts 9 0 0 0 false 0 0 0 false true 0 0 false false false.
Lemma risk_monotone_witness : exists r1 r2,
  evaluateRisk (fx_evaluation 1 "500") no_facts DEFAULT_THRESHOLDS = Some r1 /\
  evaluateRisk (fx_evaluation 2 "900") bad_facts DEFAULT_THRESHOLDS = Some r2 /\
  (restriction (en_decision r1) <= restriction (en_decision r2))%nat.
Proof.
  eexists _, _. split; [vm_compute; reflexivity|]. split; [vm_compute; reflexivity|].
  apply (risk_monotone (fx_evaluation 1 "500") (fx_evaluation 2 "900") no_facts bad_facts DEFAULT_THRESHOLDS 500 900);
    first [vm_compute; reflexivity|lia|done|constructor; cbn; try lia; done].
Defined.

(** ** A tamper signal about Alice, and the assessment it leads to *)
Definition tamper_signal : SecurityEventV1 :=
  mkSecurityEvent (fx_id 650) PAYMENTS "payments-event-1" TAMPER_SIGNAL SEV_CRITICAL (toISOString fx_now) (Some alice) None None None
    None fx_correlation [].
Definition signalled : RiskStore := Eval vm_compute in
  risk_state (ingest_endpoint fx_risk fx_now tamper_signal (Some "PAYMENTS-source-token"%string) (risk_alone emptyRisk)).
Definition assessed : RiskStore := Eval vm_compute in
  risk_state (evaluate fx_risk fx_now (fx_id 660) (fx_evaluation 661 "60000") (risk_alone signalled)).
Example assessed_rows :
  (am_decision <$> assessments assessed, in_status <$> incidents assessed, ca_type <$> controlActions assessed)
  = ([HOLD_FOR_REVIEW], [OPEN], [TRANSFER_HOLD]).
Proof. vm_compute. reflexivity. Qed.

Lemma empty_risk_inv : RiskInv emptyRisk.
Proof. constructor; try (by intros ? ?%not_elem_of_nil). apply NoDup_nil_2. Qed.

Definition assess_request : RiskRequest := Evaluate (fx_id 660) (fx_evaluation 661 "60000").
Definition signal_request : RiskRequest := Ingest tamper_signal (Some "PAYMENTS-source-token"%string).
Lemma fx_history : risk_history fx_risk emptyRisk tt assessed tt.
Proof.
  pose proof (history_step fx_risk emptyRisk tt fx_now signal_request emptyRisk tt []
    (history_start fx_risk emptyRisk tt) I (Forall_nil_2 _)) as H1.
  assert (Hs : sdb (serve_risk fx_risk fx_now signal_request (risk_alone emptyRisk)).2 = signalled) by (vm_compute; reflexivity).
  cbv zeta in H1. change (mkSystem emptyRisk tt []) with (risk_alone emptyRisk) in H1. rewrite Hs in H1.
  destruct (senv (serve_risk fx_risk fx_now signal_request (risk_alone emptyRisk)).2).
  pose proof (history_step fx_risk emptyRisk tt fx_now assess_request signalled tt [] H1 I (Forall_nil_2 _)) as H2.
  assert (Ha : sdb (serve_risk fx_risk fx_now assess_request (risk_alone signalled)).2 = assessed) by (vm_compute; reflexivity).
  cbv zeta in H2. change (mkSystem signalled tt []) with (risk_alone signalled) in H2. rewrite Ha in H2.
  by destruct (senv (serve_risk fx_risk fx_now assess_request (risk_alone signalled)).2).
Qed.
Lemma assessed_inv : RiskInv assessed.
Proof. apply (history_aged fx_risk emptyRisk tt assessed tt empty_risk_inv fx_history). Qed.
Lemma risk_history_safe_witness : RiskInv assessed /\ store_ages emptyRisk assessed.
Proof. apply (risk_history_safe fx_risk emptyRisk tt assessed tt empty_risk_inv fx_history). Defined.

Lemma fx_unseen : unseen (fx_evaluation 661 "60000") signalled.
Proof. intros a Ha. by apply not_elem_of_nil in Ha. Qed.
Lemma evaluate_effect_witness : exists row incs ctrls r,
  assessments assessed = [] ++ [row] /\ incidents assessed = [] ++ incs /\ controlActions assessed = [] ++ ctrls /\
  Forall (incident_of (fx_id 660) r) incs /\ Forall (control_of fx_now (fx_id 660) alice r) ctrls.
Proof.
  destruct (evaluate fx_risk fx_now (fx_id 660) (fx_evaluation 661 "60000") (risk_alone signalled)) as [res s'] eqn:H.
  assert (Hs : sdb s' = assessed) by (change s' with (res, s').2; rewrite <- H; vm_compute; reflexivity).
  destruct res as [a|e]; [|exfalso; vm_compute in H; discriminate H].
  pose proof (evaluate_effect fx_risk fx_now (fx_id 660) (fx_evaluation 661 "60000") signalled tt a s' fx_unseen H) as He.
  destruct He as (r & row & incs & ctrls & _ & _ & _ & _ & Ha & _ & Hi & Hc & _ & Hof & _ & Hcof).
  rewrite Hs in Ha, Hi, Hc. exists row, incs, ctrls, r. auto.
Defined.

Definition fx_incident : Incident := match incidents assessed with i :: _ => i | [] => mkIncident "" None SEV_LOW OPEN "" None None 0 None end.
Lemma fx_unseen_again : unseen (fx_evaluation 671 "100") assessed.
Proof.
  intros x Hx. assert (Hid : am_evaluationId <$> assessments assessed = [fx_id 661]) by (vm_compute; reflexivity).
  apply (list_elem_of_fmap_2 am_evaluationId) in Hx. rewrite Hid, list_elem_of_singleton in Hx. rewrite Hx.
  vm_compute. discriminate.
Qed.
Lemma fx_incident_open : fx_incident ∈ incidents assessed /\ unresolved fx_incident = true /\
  about_subject alice assessed fx_incident = true.
Proof. split; [vm_compute; left|split; vm_compute; reflexivity]. Qed.
Lemma incident_holds_witness : exists a s',
  evaluate fx_risk fx_now (fx_id 670) (fx_evaluation 671 "100") (risk_alone assessed) = (Ok a, s') /\
  (restriction HOLD_FOR_REVIEW <= restriction (as_decision a))%nat.
Proof.
  destruct (evaluate fx_risk fx_now (fx_id 670) (fx_evaluation 671 "100") (risk_alone assessed)) as [res s'] eqn:H.
  destruct res as [a|e]; [|exfalso; vm_compute in H; discriminate H]. exists a, s'. split; [done|].
  destruct fx_incident_open as (Hi & Hu & Hab).
  exact (proj1 (incident_holds fx_risk fx_now (fx_id 670) (fx_evaluation 671 "100") assessed tt a s' fx_incident
    fx_unseen_again Hi Hu Hab H)).
Defined.

(** ** The hold stops Alice's payment *)
Lemma check_verdict_witness : exists r st',
  check fx_now [mkScope CUSTOMER alice] (risk_alone assessed) = (Ok r, alone st' tt) /\
  (cr_allowed r = false <-> held_by fx_now [mkScope CUSTOMER alice] stops assessed).
Proof.
  destruct (check_verdict fx_now [mkScope CUSTOMER alice] assessed tt assessed_inv) as (r & st' & Hrun & Hv & _).
  by exists r, st'.
Defined.

Definition fx_cluster : Cluster := mkCluster (fx_net db_funded []) assessed [].
Lemma alice_held : held_by fx_now [mkScope CUSTOMER alice] stops assessed.
Proof. eexists. split; [left|]. vm_compute. auto. Qed.
#[local] Instance fx_joined : Peers Cluster := cluster fx_config fx_now fx_risk fx_now "PAYMENTS-source-token".
Lemma held_customer_cannot_pay_witness : exists e s',
  confirm fx_payments fx_now "0A1B2C3D4E5F6071829A0B1C" (fx_id 620) fx_confirmation fx_correlation (alone authorized fx_cluster)
    = (Err e, s') /\ sdb s' = authorized /\ cl_net (senv s') = fx_net db_funded [].
Proof.
  destruct (confirm fx_payments fx_now "0A1B2C3D4E5F6071829A0B1C" (fx_id 620) fx_confirmation fx_correlation
    (alone authorized fx_cluster)) as [r s'] eqn:H.
  destruct (intent_of fx_confirmation authorized) as [i|] eqn:Hi; [|vm_compute in Hi; discriminate Hi].
  destruct (held_customer_cannot_pay fx_config fx_now fx_risk fx_now "PAYMENTS-source-token" fx_payments fx_now
    "0A1B2C3D4E5F6071829A0B1C" (fx_id 620) fx_confirmation fx_correlation authorized fx_cluster i r s') as ([e ->] & Hdb & Hnet).
  - exact assessed_inv.
  - intros t Ht. destruct (not_elem_of_nil t Ht).
  - exact Hi.
  - apply held_by_app, alice_held.
  - exact H.
  - exists e, s'. auto.
Defined.

(** ** Operators *)
Definition anonymous : OperatorRequest := mkOperatorRequest None None None.
Definition fx_update (note : string) : IncidentUpdate := mkIncidentUpdate (Some INVESTIGATING) None (Some note) None.
Lemma operator_actions_guarded_witness :
  (exists e, (operator_act fx_risk fx_now (fx_id 1) anonymous (OperatorUpdate (in_id fx_incident) (fx_update "note")) (risk_alone assessed)).1
     = Err e).
Proof.
  destruct (operator_act fx_risk fx_now (fx_id 1) anonymous (OperatorUpdate (in_id fx_incident) (fx_update "note")) (risk_alone assessed))
    as [res s'] eqn:H.
  destruct (operator_actions_guarded fx_risk fx_now (fx_id 1) anonymous (OperatorUpdate (in_id fx_incident) (fx_update "note")) assessed tt res s' H)
    as [Hno _].
  destruct Hno as [[e He] _]; [intros o (raw & v & h & c & Hr & _); vm_compute in Hr; discriminate Hr|].
  exists e. exact He.
Defined.

Definition fx_operator : OperatorRequest := mkOperatorRequest (Some "session-token"%string) (Some "csrf-token"%string) None.
Definition operated : RiskStore := Eval vm_compute in
  risk_state (bootstrap fx_risk fx_now "session-token" "csrf-token" "operator-bootstrap-token" (risk_alone assessed)).
(** A logout is a mutation that no audit row records. *)
Lemma logout_unaudited : let run := operator_act fx_risk fx_now (fx_id 1) fx_operator OperatorLogout (risk_alone operated) in
  run.1 = Ok tt /\ operatorAudits (sdb run.2) = operatorAudits operated.
Proof. vm_compute. split; reflexivity. Qed.
Definition update_with (note : string) := operator_update fx_risk fx_now (fx_id 1) fx_operator (in_id fx_incident) (fx_update note)
  (risk_alone operated).
(** The incident's note may have 1000 characters and the audit's reason 500:
    with a longer note the update is written and its audit is not. *)
Lemma operator_update_unaudited :
  let short := update_with "a short note" in let long := update_with (repeat_str "a" 501) in
  length (operatorAudits (risk_state short)) = 1%nat /\
  long.1 = Err (RiskDbError "operator_audits") /\ operatorAudits (risk_state long) = [] /\
  (in_status <$> incidents (risk_state long)) = [INVESTIGATING].
Proof. vm_compute. auto. Qed.
