(* ===== verification/IdentityDb.v ===== *)
(** * The store of the Identity service: the tables of
    [services/identity/prisma] with the statements that write them, and Redis *)

From Stdlib Require Import ZArith Lia Ascii String.
From stdpp Require Import base strings list gmap.
From S2P Require Import Prelude.
From S2P Require Import Js.
From S2P Require Import Services.
From S2P Require Import Contracts.
From S2P Require Import Security.
From S2P Require Import LedgerDb.
From S2P Require Import PaymentsDb.

Open Scope Z_scope.

Inductive IdentityErr :=
| AuthError (code message : string) (status : Z)
| IdDbError (code : string)                    (* Prisma and Redis *)
| IdJsError (name : string).                   (* SyntaxError, ZodError *)

Record IdentityConfig := mkIdentityConfig {
  id_nodeEnvironment : string;
  id_host : string;
  id_port : Z;
  id_databaseUrl : string;
  id_redisUrl : string;
  id_redisKeyPrefix : string;
  id_internalToken : string;
  id_sessionCookieName : string;
  id_csrfCookieName : string;
  sessionIdleTtlSeconds : Z;
  sessionAbsoluteTtlSeconds : Z;
  otpTtlSeconds : Z;
  otpResendCooldownSeconds : Z;
  otpMaxAttempts : Z;
  otpRequestLimitPerHour : Z;
  demoAuthEnabled : bool;
  webauthnRpName : string;
  webauthnRpId : string;
  webauthnOrigin : string;
  fieldEncryptionKey : string;
  transferStepUpMaxAttempts : Z;
  transferStepUpLockSeconds : Z;
  id_riskServiceUrl : string;
  id_riskIdentitySourceToken : string;
  id_riskTimeoutMs : Z
}.

(** ** Rows *)
Inductive PreferredLanguage := EN | SI | TA.
Inductive UserStatus := USER_PENDING | USER_ACTIVE | USER_LOCKED | USER_DISABLED.
#[export] Instance language_eq_dec : EqDecision PreferredLanguage.
Proof. solve_decision. Defined.
#[export] Instance user_status_eq_dec : EqDecision UserStatus.
Proof. solve_decision. Defined.

Record User := mkUser {
  usr_id : string;
  usr_phoneE164 : string;
  usr_preferredLanguage : PreferredLanguage;
  usr_kycTier : Z;
  usr_status : UserStatus;
  usr_consentAcceptedAt : Z;
  usr_phoneVerifiedAt : option Z;
  usr_createdAt : Z;
  usr_lastAuthenticatedAt : option Z;
  usr_failedLoginCount : Z;
  usr_lockedUntil : option Z
}.
Record PinCredential := mkPinCredential {
  pin_userId : string;
  pin_pinHash : string;
  pin_algorithm : string;
  pin_createdAt : Z;
  pin_rotatedAt : option Z
}.
Record PasskeyCredential := mkPasskey {
  pk_id : string;
  pk_userId : string;
  pk_credentialId : string;
  pk_publicKey : string;
  pk_counter : Z;
  pk_transports : list string;
  pk_deviceType : string;
  pk_backedUp : bool;
  pk_createdAt : Z;
  pk_lastUsedAt : option Z;
  pk_nickname : option string;
  pk_revokedAt : option Z
}.
Record AuthEvent := mkAuthEvent {
  au_id : string;
  au_userId : option string;
  au_eventType : string;
  au_outcome : string;
  au_correlationId : string;
  au_maskedActor : string;
  au_ipHash : option string;
  au_userAgentHash : option string;
  au_metadata : json;
  au_createdAt : Z
}.

Record IdentityStore := mkIdentityStore {
  users : list User;
  pinCredentials : list PinCredential;
  passkeyCredentials : list PasskeyCredential;
  authEvents : list AuthEvent;
  id_redis : Redis;
  id_uuidCounter : N
}.
Definition emptyIdentity : IdentityStore := mkIdentityStore [] [] [] [] ∅ 0.
Definition set_users f st := mkIdentityStore (f (users st)) (pinCredentials st) (passkeyCredentials st) (authEvents st)
  (id_redis st) (id_uuidCounter st).
Definition set_pins f st := mkIdentityStore (users st) (f (pinCredentials st)) (passkeyCredentials st) (authEvents st)
  (id_redis st) (id_uuidCounter st).
Definition set_passkeys f st := mkIdentityStore (users st) (pinCredentials st) (f (passkeyCredentials st)) (authEvents st)
  (id_redis st) (id_uuidCounter st).
Definition set_auth_events f st := mkIdentityStore (users st) (pinCredentials st) (passkeyCredentials st) (f (authEvents st))
  (id_redis st) (id_uuidCounter st).
Definition set_redis f st := mkIdentityStore (users st) (pinCredentials st) (passkeyCredentials st) (authEvents st)
  (f (id_redis st)) (id_uuidCounter st).
Definition set_identity_uuid f st := mkIdentityStore (users st) (pinCredentials st) (passkeyCredentials st) (authEvents st)
  (id_redis st) (f (id_uuidCounter st)).

Abbreviation IdM := (M IdentityStore IdentityErr).
Definition id_check (ok : bool) (what : string) : IdM unit := throw_when (negb ok) (IdDbError what).
Definition int32_ok (z : Z) : bool := (- 2 ^ 31 <=? z) && (z <? 2 ^ 31).

Section Statements.
Context {pg : Postgres}.
Variable now : Z.

Definition id_uuid : IdM string := fun st => (Ok (uuid (id_uuidCounter st)), set_identity_uuid N.succ st).
Definition is_user (id : string) (st : IdentityStore) : bool := existsb (fun u => String.eqb (usr_id u) id) (users st).

(** [user.create] *)
Definition create_user (phone : string) (language : PreferredLanguage) (consentAcceptedAt verifiedAt : Z) : IdM User :=
  id ← id_uuid;
  st ← get;
  _ ← id_check (negb (is_user id st)) "P2002";
  _ ← id_check (negb (existsb (fun u => String.eqb (usr_phoneE164 u) phone) (users st))) "P2002";
  _ ← id_check (String.length phone <=? 16)%nat "users";
  let u := mkUser id phone language 0 USER_PENDING consentAcceptedAt (Some verifiedAt) now None 0 None in
  _ ← modify (set_users (fun l => l ++ [u]));
  mret u.
(** [user.update({ where })]: [P] is the rest of the condition. *)
Definition update_user (id : string) (P : User -> bool) (f : User -> User) : IdM User :=
  st ← get;
  u ← require (find_row usr_id id (users st)) (IdDbError "P2025");
  _ ← id_check (P u) "P2025";
  _ ← id_check (int32_ok (usr_failedLoginCount (f u))) "users";
  _ ← modify (set_users (update_row usr_id id f));
  mret (f u).
(** [pinCredential.upsert] *)
Definition upsert_pin (userId pinHash algorithm : string) : IdM unit :=
  st ← get;
  if existsb (fun p => String.eqb (pin_userId p) userId) (pinCredentials st) then
    modify (set_pins (update_row pin_userId userId (fun p => mkPinCredential userId pinHash algorithm (pin_createdAt p) (Some now))))
  else
    _ ← id_check (is_user userId st && (String.length algorithm <=? 128)%nat) "pin_credentials";
    modify (set_pins (fun l => l ++ [mkPinCredential userId pinHash algorithm now None])).
(** [passkeyCredential.create] *)
Definition create_passkey (mk : string -> PasskeyCredential) : IdM PasskeyCredential :=
  id ← id_uuid;
  st ← get;
  let k := mk id in
  _ ← id_check (negb (existsb (fun r => String.eqb (pk_id r) id || String.eqb (pk_credentialId r) (pk_credentialId k))
                        (passkeyCredentials st))) "P2002";
  _ ← id_check (is_user (pk_userId k) st && int64_ok (pk_counter k) && (String.length (pk_deviceType k) <=? 32)%nat
                && match pk_nickname k with Some n => (String.length n <=? 64)%nat | None => true end) "passkey_credentials";
  _ ← modify (set_passkeys (fun l => l ++ [k]));
  mret k.
Definition used_passkey (counter : Z) (k : PasskeyCredential) : PasskeyCredential :=
  mkPasskey (pk_id k) (pk_userId k) (pk_credentialId k) (pk_publicKey k) counter (pk_transports k) (pk_deviceType k)
    (pk_backedUp k) (pk_createdAt k) (Some now) (pk_nickname k) (pk_revokedAt k).
Definition update_passkey (id : string) (counter : Z) : IdM unit :=
  st ← get;
  _ ← id_check (existsb (fun k => String.eqb (pk_id k) id) (passkeyCredentials st) && int64_ok counter) "passkey_credentials";
  modify (set_passkeys (update_row pk_id id (used_passkey counter))).
(** [authEvent.create] *)
Definition create_auth_event (mk : string -> AuthEvent) : IdM AuthEvent :=
  id ← id_uuid;
  st ← get;
  let e := mk id in
  _ ← id_check (match au_userId e with Some u => is_user u st | None => true end
                && (String.length (au_eventType e) <=? 64)%nat && (String.length (au_outcome e) <=? 32)%nat
                && pg_uuid (au_correlationId e) && (String.length (au_maskedActor e) <=? 64)%nat) "auth_events";
  _ ← modify (set_auth_events (fun l => l ++ [e]));
  mret e.

(** ** Redis ([redis.service.ts]) *)
Definition r_get (key : string) : IdM (option string) := gets (fun st => redis_get now key (id_redis st)).
Definition r_set (key value : string) (ttlSeconds : Z) : IdM unit := modify (set_redis (redis_set now key value ttlSeconds)).
Definition r_set_keepttl (key value : string) : IdM unit := modify (set_redis (redis_set_keepttl now key value)).
Definition r_delete (key : string) : IdM unit := modify (set_redis (redis_delete key)).
Definition r_getdel (key : string) : IdM (option string) := fun st =>
  (Ok (redis_get now key (id_redis st)), set_redis (redis_delete key) st).
Definition r_incr (key : string) : IdM Z := fun st =>
  match redis_incr now key (id_redis st) with
  | Some (n, r) => (Ok n, set_redis (fun _ => r) st)
  | None => (Err (IdDbError "ERR value is not an integer or out of range"), st)
  end.
Definition r_expire (key : string) (ttlSeconds : Z) : IdM unit := modify (set_redis (redis_expire now key ttlSeconds)).
End Statements.
