(* ===== verification/Identity.v ===== *)
(** * The Identity service: events, one-time codes, sessions, onboarding, PIN
    fallback and transfer step-up ([services/identity/src/auth]) *)

From Stdlib Require Import ZArith Lia Ascii String.
From stdpp Require Import base strings list gmap.
From S2P Require Import Prelude.
From S2P Require Import Js.
From S2P Require Import Codec.
From S2P Require Import Services.
From S2P Require Import Contracts.
From S2P Require Import Security.
From S2P Require Import LedgerDb.
From S2P Require Import RiskTypes.
From S2P Require Import PaymentsDb.
From S2P Require Import QrPayments.
From S2P Require Import RiskService.
From S2P Require Import IdentityDb.

Open Scope Z_scope.

(** Argon2: [hash] takes a salt of its own. *)
Class Argon2 := {
  argon2_hash : string -> string -> string;
  argon2_verify : string -> string -> bool;
  argon2_correct : forall salt pin, argon2_verify (argon2_hash salt pin) pin = true
}.
(** Telemetry to the Risk service: the reply is ignored. *)
Class RiskSink (Env : Type) := { send_event : SecurityEventV1 -> Env -> Env }.

(** ** Masks ([common/security/security.ts]) *)
Definition maskPhone (phone : string) : string :=
  let n := String.length phone in
  if (n <=? 7)%nat then "***" else slice 0 3 phone +:+ repeat_str "*" (n - 6) +:+ str_drop (n - 3) phone.

(** ** Requests and answers *)
Record RequestContext := mkContext { rc_correlationId : string; rc_ipHash : string; rc_userAgent : option string }.
Record AuthEventInput := mkEventInput {
  ei_userId : option string;
  ei_eventType : string;
  ei_outcome : string;
  ei_correlationId : string;
  ei_phone : option string;
  ei_ipHash : option string;
  ei_userAgent : option string;
  ei_metadata : json
}.
Inductive OtpPurpose := ONBOARDING | FALLBACK.
Record StoredOtpChallenge := mkChallenge {
  oc_phoneHash : string;
  oc_codeHash : string;
  oc_purpose : string;
  oc_attempts : Z;
  oc_preferredLanguage : option string;
  oc_consentAcceptedAt : option string
}.
Record OtpRequestResult := mkOtpRequested { or_challengeId : string; or_demoOtp : option string }.
Inductive AuthenticationMethod := PIN_OTP | PASSKEY.
Record StoredSession := mkStoredSession {
  ss_userId : string;
  ss_createdAt : string;
  ss_lastSeenAt : string;
  ss_absoluteExpiresAt : string;
  ss_csrfHash : string;
  ss_authenticationMethod : string;
  ss_device : option string;
  ss_version : Z
}.
Record MaskedUser := mkMaskedUser {
  mu_id : string;
  mu_phoneMasked : string;
  mu_preferredLanguage : PreferredLanguage;
  mu_kycTier : Z;
  mu_status : UserStatus;
  mu_phoneVerified : bool
}.
Record SessionResponse := mkSessionResponse { sp_authenticationMethod : string; sp_expiresAt : string; sp_user : MaskedUser }.
Record CreatedSession := mkCreatedSession {
  cs_sessionId : string;
  cs_csrfToken : string;
  cs_maxAgeSeconds : Z;
  cs_session : SessionResponse
}.
Record EnrollmentResult := mkEnrollment { en_token : string; en_expiresInSeconds : Z; en_user : MaskedUser }.

Definition purpose_text (p : OtpPurpose) : string := match p with ONBOARDING => "ONBOARDING" | FALLBACK => "FALLBACK" end.
Definition method_text (m : AuthenticationMethod) : string := match m with PIN_OTP => "PIN_OTP" | PASSKEY => "PASSKEY" end.
Definition language_text (l : PreferredLanguage) : string := match l with EN => "EN" | SI => "SI" | TA => "TA" end.
Definition language_of (s : string) : option PreferredLanguage :=
  if String.eqb s "EN" then Some EN else if String.eqb s "SI" then Some SI else if String.eqb s "TA" then Some TA else None.

Definition challenge_json (c : StoredOtpChallenge) : json :=
  JObj ([("phoneHash", JStr (oc_phoneHash c)); ("codeHash", JStr (oc_codeHash c)); ("purpose", JStr (oc_purpose c));
         ("attempts", JNum (oc_attempts c))]%string
        ++ optional_field "preferredLanguage" (oc_preferredLanguage c)
        ++ optional_field "consentAcceptedAt" (oc_consentAcceptedAt c)).
Definition session_json (s : StoredSession) : json :=
  JObj ([("userId", JStr (ss_userId s)); ("createdAt", JStr (ss_createdAt s)); ("lastSeenAt", JStr (ss_lastSeenAt s));
         ("absoluteExpiresAt", JStr (ss_absoluteExpiresAt s)); ("csrfHash", JStr (ss_csrfHash s));
         ("authenticationMethod", JStr (ss_authenticationMethod s))]%string
        ++ optional_field "device" (ss_device s) ++ [("version"%string, JNum (ss_version s))]).
(** The fields of stored JSON; the service reads only what it wrote. *)
Definition challenge_of_json (v : json) : option StoredOtpChallenge :=
  match jfield "phoneHash" v, jfield "codeHash" v, jfield "purpose" v, jfield "attempts" v with
  | JStr phoneHash, JStr codeHash, JStr purpose, JNum attempts =>
      language ← optional_string (jfield "preferredLanguage" v);
      consent ← optional_string (jfield "consentAcceptedAt" v);
      Some (mkChallenge phoneHash codeHash purpose attempts language consent)
  | _, _, _, _ => None
  end.
Definition session_of_json (v : json) : option StoredSession :=
  match jfield "userId" v, jfield "createdAt" v, jfield "lastSeenAt" v, jfield "absoluteExpiresAt" v, jfield "csrfHash" v,
        jfield "authenticationMethod" v, jfield "version" v with
  | JStr userId, JStr createdAt, JStr lastSeenAt, JStr absolute, JStr csrfHash, JStr method, JNum version =>
      device ← optional_string (jfield "device" v);
      Some (mkStoredSession userId createdAt lastSeenAt absolute csrfHash method device version)
  | _, _, _, _, _, _, _ => None
  end.

Section Service.
Context {Env : Type} {zod : Zod} {crypto : Crypto} {hmac : Hmac} {pg : Postgres} {argon2 : Argon2} {sink : RiskSink Env}.
Abbreviation IdS := (M (System IdentityStore Env) IdentityErr).
Variable config : IdentityConfig.
Variable now : Z.

Definition id_key (parts : list string) : string := id_redisKeyPrefix config +:+ join ":" parts.
Definition keyedDigest (value secret : string) : string := hmac_sha256 secret value.
Definition maskDevice (deviceId : option string) : option string :=
  d ← truthy_string deviceId; Some ("device:" +:+ str_take 12 (sha256 d)).
Definition incrementWithTtl (key : string) (ttlSeconds : Z) : IdS Z :=
  count ← atomic (r_incr now key);
  _ ← (if count =? 1 then atomic (r_expire now key ttlSeconds) else mret tt);
  mret count.

(** ** [AuthEventService] *)
Definition occurs (sub s : string) : bool := bool_decide (is_Some (String.index 0 sub s)).
Definition risk_event_type (eventType : string) (failed : bool) : SecurityEventType :=
  if String.eqb eventType "SESSION_CONTROL" then SESSION_REVOKED
  else if occurs "OTP" eventType then (if failed then OTP_FAILURE else LOGIN_SUCCESS)
  else if String.eqb eventType "TRANSFER_STEP_UP" then (if failed then PIN_FAILURE else LOGIN_SUCCESS)
  else if failed then LOGIN_FAILURE
  else if occurs "SESSION" eventType then SESSION_CREATED
  else LOGIN_SUCCESS.
Definition risk_event (eventId sourceEventId : string) (i : AuthEventInput) : SecurityEventV1 :=
  let failed := String.eqb (ei_outcome i) "FAILURE" || String.eqb (ei_outcome i) "LOCKED" in
  mkSecurityEvent eventId IDENTITY ("identity:" +:+ sourceEventId) (risk_event_type (ei_eventType i) failed)
    (if String.eqb (ei_outcome i) "LOCKED" then SEV_HIGH else if failed then SEV_MEDIUM else SEV_INFO)
    (toISOString now) (ei_userId i) None None (sha256 <$> truthy_string (ei_userAgent i)) None (ei_correlationId i)
    [("outcome", JStr (ei_outcome i)); ("operation", JStr (ei_eventType i))]%string.
Definition emitRiskEvent (eventId sourceEventId : string) (i : AuthEventInput) : IdS unit :=
  let body := risk_event eventId sourceEventId i in
  _ ← throw_when (negb (securityEventV1Schema body)) (IdJsError "ZodError");
  remote (fun env => (Ok tt, send_event body env)).
Definition record (eventId : string) (i : AuthEventInput) : IdS unit :=
  event ← atomic (transaction (fun _ _ => None) (create_auth_event (fun id =>
    mkAuthEvent id (ei_userId i) (ei_eventType i) (ei_outcome i) (ei_correlationId i)
      (match truthy_string (ei_phone i) with Some p => maskPhone p | None => "anonymous" end)
      (ei_ipHash i) (sha256 <$> truthy_string (ei_userAgent i)) (ei_metadata i) now)));
  emitRiskEvent eventId (au_id event) i.
Definition in_context (userId : option string) (eventType outcome : string) (phone : option string) (c : RequestContext)
    (metadata : json) : AuthEventInput :=
  mkEventInput userId eventType outcome (rc_correlationId c) phone (Some (rc_ipHash c)) (rc_userAgent c) metadata.

(** ** [OtpService] *)
Definition invalidOtp : IdentityErr := AuthError "INVALID_OTP" "The one-time code is invalid or expired." 401.
Definition phoneHash (phone : string) : string := keyedDigest phone (id_internalToken config).
Definition rateLimitAllows (phoneHash ipHash : string) : IdS bool :=
  phoneCount ← incrementWithTtl (id_key ["otp"; "rate"; "phone"; phoneHash]%string) 3600;
  ipCount ← incrementWithTtl (id_key ["otp"; "rate"; "ip"; ipHash]%string) 3600;
  mret ((phoneCount <=? otpRequestLimitPerHour config) && (ipCount <=? otpRequestLimitPerHour config * 4)).
Definition challenge_key (challengeId : string) : string := id_key ["otp"; "challenge"; challengeId]%string.
(** [code] is drawn below a million, [newChallengeId] is a fresh uuid. *)
Definition otp_request (newChallengeId : string) (code : Z) (phone : string) (purpose : OtpPurpose) (ipHash : string)
    (preferredLanguage consentAcceptedAt : option string) : IdS OtpRequestResult :=
  let hash := phoneHash phone in
  let cooldownKey := id_key ["otp"; "cooldown"; purpose_text purpose; hash]%string in
  existing ← atomic (r_get now cooldownKey);
  match truthy_string existing with
  | Some challengeId => mret (mkOtpRequested challengeId None)
  | None =>
      allowed ← rateLimitAllows hash ipHash;
      if negb allowed then mret (mkOtpRequested newChallengeId None)
      else
        let code := padded 6 code in
        let challenge := mkChallenge hash (keyedDigest code (id_internalToken config)) (purpose_text purpose) 0
                           preferredLanguage consentAcceptedAt in
        _ ← atomic (r_set now (challenge_key newChallengeId) (text (challenge_json challenge)) (otpTtlSeconds config));
        _ ← atomic (r_set now cooldownKey newChallengeId (otpResendCooldownSeconds config));
        mret (mkOtpRequested newChallengeId (if demoAuthEnabled config then Some code else None))
  end.
Definition failed_attempt (c : StoredOtpChallenge) : StoredOtpChallenge :=
  mkChallenge (oc_phoneHash c) (oc_codeHash c) (oc_purpose c) (oc_attempts c + 1) (oc_preferredLanguage c) (oc_consentAcceptedAt c).
Definition otp_matches (phone otp : string) (purpose : OtpPurpose) (c : StoredOtpChallenge) : bool :=
  timingSafeStringEqual (oc_phoneHash c) (phoneHash phone) && String.eqb (oc_purpose c) (purpose_text purpose)
  && timingSafeStringEqual (oc_codeHash c) (keyedDigest otp (id_internalToken config)).
Definition otp_verify (phone challengeId otp : string) (purpose : OtpPurpose) : IdS StoredOtpChallenge :=
  let key := challenge_key challengeId in
  raw ← atomic (r_get now key);
  raw ← require (truthy_string raw) invalidOtp;
  value ← require (JSON_parse raw) (IdJsError "SyntaxError");
  challenge ← require (challenge_of_json value) (IdJsError "TypeError");
  if negb (otp_matches phone otp purpose challenge) then
    let challenge := failed_attempt challenge in
    _ ← (if otpMaxAttempts config <=? oc_attempts challenge then atomic (r_delete key)
         else atomic (r_set_keepttl now key (text (challenge_json challenge))));
    throw invalidOtp
  else
    _ ← atomic (r_delete key);
    mret challenge.

(** ** [SessionService] *)
Definition unauthenticated : IdentityErr := AuthError "UNAUTHENTICATED" "Authentication is required." 401.
Definition session_redis_key (sessionId : string) : string := id_key ["session"; sha256 sessionId]%string.
Definition masked (u : User) (verified : bool) : MaskedUser :=
  mkMaskedUser (usr_id u) (maskPhone (usr_phoneE164 u)) (usr_preferredLanguage u) (usr_kycTier u) (usr_status u) verified.
Definition safeUser (userId : string) : IdS MaskedUser :=
  u ← atomic (gets (fun st => find_row usr_id userId (users st)));
  match u with
  | Some u => if bool_decide (usr_status u = USER_ACTIVE)
              then mret (masked u (bool_decide (is_Some (usr_phoneVerifiedAt u)))) else throw unauthenticated
  | None => throw unauthenticated
  end.
Definition session_create (sessionId csrfToken userId : string) (method : AuthenticationMethod) (deviceId : option string)
  : IdS CreatedSession :=
  let absolute := toISOString (now + sessionAbsoluteTtlSeconds config * 1000) in
  let stored := mkStoredSession userId (toISOString now) (toISOString now) absolute (sha256 csrfToken) (method_text method)
                  (maskDevice deviceId) 1 in
  _ ← atomic (r_set now (session_redis_key sessionId) (text (session_json stored)) (sessionIdleTtlSeconds config));
  user ← safeUser userId;
  mret (mkCreatedSession sessionId csrfToken (sessionAbsoluteTtlSeconds config)
          (mkSessionResponse (method_text method) absolute user)).
Definition session_read (sessionId : string) : IdS StoredSession :=
  let key := session_redis_key sessionId in
  raw ← atomic (r_get now key);
  raw ← require (truthy_string raw) unauthenticated;
  value ← require (JSON_parse raw) (IdJsError "SyntaxError");
  value ← require (session_of_json value) (IdJsError "TypeError");
  match date_parse (ss_absoluteExpiresAt value) with
  | Some t => if t <=? now then _ ← atomic (r_delete key); throw unauthenticated else mret value
  | None => mret value
  end.
Definition seen (t : string) (s : StoredSession) : StoredSession :=
  mkStoredSession (ss_userId s) (ss_createdAt s) t (ss_absoluteExpiresAt s) (ss_csrfHash s) (ss_authenticationMethod s)
    (ss_device s) (ss_version s).
Definition session_get (sessionId : string) : IdS SessionResponse :=
  value ← session_read sessionId;
  absolute ← require (date_parse (ss_absoluteExpiresAt value)) (IdDbError "ERR value is not an integer or out of range");
  let absoluteRemaining := Z.max 1 ((absolute - now) / 1000) in
  _ ← atomic (r_set now (session_redis_key sessionId) (text (session_json (seen (toISOString now) value)))
                (Z.min (sessionIdleTtlSeconds config) absoluteRemaining));
  user ← safeUser (ss_userId value);
  mret (mkSessionResponse (ss_authenticationMethod value) (ss_absoluteExpiresAt value) user).
Definition session_subject (sessionId : string) : IdS string := value ← session_read sessionId; mret (ss_userId value).
Definition requireCsrf (sessionId csrfToken : string) : IdS StoredSession :=
  value ← session_read sessionId;
  _ ← throw_when (negb (timingSafeStringEqual (ss_csrfHash value) (sha256 csrfToken)))
        (AuthError "INVALID_CSRF" "The CSRF token is invalid." 403);
  mret value.
Definition session_authorize (sessionId csrfToken : string) : IdS string :=
  value ← requireCsrf sessionId csrfToken; mret (ss_userId value).
Definition session_revoke (sessionId csrfToken : string) : IdS unit :=
  _ ← requireCsrf sessionId csrfToken;
  atomic (r_delete (session_redis_key sessionId)).
Definition revokeTrusted (sessionId : string) : IdS (option string) :=
  try_catch
    (userId ← session_subject sessionId;
     _ ← atomic (r_delete (session_redis_key sessionId));
     mret (Some userId))
    (fun e => match e with
              | AuthError _ _ status => if status =? 401 then mret None else throw e
              | _ => throw e
              end).
End Service.
