(* ===== verification/IdentityFlows.v ===== *)
(** * How customers enter: onboarding, PIN fallback, transfer step-up and
    passkeys ([services/identity/src/auth]) *)

From Stdlib Require Import ZArith Lia Ascii String.
From stdpp Require Import base strings list gmap.
From S2P Require Import Prelude.
From S2P Require Import Js.
From S2P Require Import Codec.
From S2P Require Import Services.
From S2P Require Import Regex.
From S2P Require Import Contracts.
From S2P Require Import Security.
From S2P Require Import LedgerDb.
From S2P Require Import RiskTypes.
From S2P Require Import PaymentsDb.
From S2P Require Import QrPayments.
From S2P Require Import RiskService.
From S2P Require Import IdentityDb.
From S2P Require Import Identity.

Open Scope Z_scope.

Definition PIN_ALGORITHM : string := "argon2id-v=19-m=19456,t=2,p=1".
Definition invalidCredentials : IdentityErr := AuthError "INVALID_CREDENTIALS" "Authentication could not be completed." 401.
Definition invalidPasskey : IdentityErr := AuthError "PASSKEY_FAILED" "Passkey verification could not be completed." 401.
Definition maxFailures : Z := 5.
Definition lockSeconds : Z := 300.
Definition enrollmentTtlSeconds : Z := 600.
Definition challengeTtlSeconds : Z := 300.

Record RegistrationInfo := mkRegistration {
  ri_credentialId : string;
  ri_publicKey : string;
  ri_counter : Z;
  ri_transports : list string;
  ri_deviceType : string;
  ri_backedUp : bool
}.
(** What a browser returns ([clientExtensionResults], which nothing reads, is
    left out; [type] is always public-key). *)
Record RegistrationCredential := mkRegistrationCredential {
  rg_id : string;
  rg_rawId : option string;
  rg_authenticatorAttachment : option string;
  rg_clientDataJSON : string;
  rg_attestationObject : string;
  rg_transports : option (list string);
  rg_authenticatorData : option string;
  rg_publicKey : option string;
  rg_publicKeyAlgorithm : option Z
}.
Record AuthenticationCredential := mkAuthenticationCredential {
  an_id : string;
  an_rawId : option string;
  an_authenticatorAttachment : option string;
  an_clientDataJSON : string;
  an_authenticatorData : string;
  an_signature : string;
  an_userHandle : option string
}.
(** The simplewebauthn library: [None] is a response it throws on, the result
    of a verification is its verdict with what it read. *)
Class WebAuthn := {
  verifyRegistrationResponse : RegistrationCredential -> string -> string -> string -> option (bool * option RegistrationInfo);
  verifyAuthenticationResponse : AuthenticationCredential -> string -> string -> string -> PasskeyCredential -> option (bool * Z)
}.

Section Flows.
Context {Env : Type} {zod : Zod} {crypto : Crypto} {hmac : Hmac} {pg : Postgres} {argon2 : Argon2} {sink : RiskSink Env}
  {webauthn : WebAuthn}.
Abbreviation IdS := (M (System IdentityStore Env) IdentityErr).
Variable config : IdentityConfig.
Variable now : Z.
Abbreviation record := (record now).

(** ** [TransferStepUpService] *)
Definition attempts_key (userId : string) : string := id_key config ["transfer-step-up"; sha256 userId]%string.
Definition lock_key (userId : string) : string := id_key config ["transfer-step-up-lock"; sha256 userId]%string.
Definition find_user (userId : string) : IdS (option (User * option PinCredential)) :=
  atomic (gets (fun st => u ← find_row usr_id userId (users st); Some (u, find_row pin_userId userId (pinCredentials st)))).
Definition step_up_verify (eventId sessionId pin : string) (c : RequestContext) : IdS unit :=
  userId ← session_subject config now sessionId;
  let event outcome := in_context (Some userId) "TRANSFER_STEP_UP" outcome None c (JObj []) in
  locked ← atomic (r_get now (lock_key userId));
  match truthy_string locked with
  | Some _ =>
      _ ← record eventId (event "LOCKED"%string);
      throw (AuthError "TRANSFER_STEP_UP_LOCKED" "Authorization is unavailable." 429)
  | None =>
      user ← find_user userId;
      let valid := match user with
                   | Some (u, Some credential) => bool_decide (usr_status u = USER_ACTIVE) && argon2_verify (pin_pinHash credential) pin
                   | _ => false
                   end in
      if negb valid then
        count ← incrementWithTtl now (attempts_key userId) (transferStepUpLockSeconds config);
        let exhausted := transferStepUpMaxAttempts config <=? count in
        _ ← (if exhausted then atomic (r_set now (lock_key userId) "1" (transferStepUpLockSeconds config)) else mret tt);
        _ ← record eventId (event (if exhausted then "LOCKED" else "FAILURE")%string);
        throw (AuthError "TRANSFER_STEP_UP_FAILED" "Authorization failed." 401)
      else
        _ ← atomic (r_delete (attempts_key userId));
        record eventId (event "SUCCESS"%string)
  end.

(** ** [FallbackService] *)
Definition failing (failures : Z) (locked : bool) (read : User) (u : User) : User :=
  mkUser (usr_id u) (usr_phoneE164 u) (usr_preferredLanguage u) (usr_kycTier u)
    (if locked then USER_LOCKED else usr_status read) (usr_consentAcceptedAt u) (usr_phoneVerifiedAt u) (usr_createdAt u)
    (usr_lastAuthenticatedAt u) failures (if locked then Some (now + lockSeconds * 1000) else usr_lockedUntil read).
Definition authenticated (u : User) : User :=
  mkUser (usr_id u) (usr_phoneE164 u) (usr_preferredLanguage u) (usr_kycTier u) USER_ACTIVE (usr_consentAcceptedAt u)
    (usr_phoneVerifiedAt u) (usr_createdAt u) (Some now) 0 None.
Definition find_by_phone (phone : string) : IdS (option (User * option PinCredential)) :=
  atomic (gets (fun st => u ← find_row usr_phoneE164 phone (users st); Some (u, find_row pin_userId (usr_id u) (pinCredentials st)))).
Definition locked_now (u : User) : bool := match usr_lockedUntil u with Some t => now <? t | None => false end.
Definition may_enter (u : User) : bool := bool_decide (usr_status u ∈ [USER_ACTIVE; USER_LOCKED]).
(** [verifyPin(phone, pin, context)] *)
Definition verifyPin (eventId phone pin : string) (c : RequestContext) : IdS User :=
  found ← find_by_phone phone;
  match found with
  | Some (user, Some credential) =>
      if locked_now user then throw invalidCredentials
      else if negb (argon2_verify (pin_pinHash credential) pin) || negb (may_enter user) then
        let failures := usr_failedLoginCount user + 1 in
        let locked := maxFailures <=? failures in
        _ ← atomic (update_user (usr_id user) (fun _ => true) (failing failures locked user));
        _ ← record eventId (in_context (Some (usr_id user)) (if locked then "ACCOUNT_LOCKED" else "PIN_LOGIN_FAILED")%string
                              "FAILURE" (Some phone) c (JObj [("temporary"%string, JBool locked)]));
        throw invalidCredentials
      else mret user
  | _ => throw invalidCredentials
  end.
Definition purpose_metadata (p : OtpPurpose) : json := JObj [("purpose"%string, JStr (purpose_text p))].
Definition fallback_request_otp (eventId newChallengeId : string) (code : Z) (phone pin : string) (c : RequestContext)
  : IdS OtpRequestResult :=
  user ← verifyPin eventId phone pin c;
  result ← otp_request config now newChallengeId code phone FALLBACK (rc_ipHash c) None None;
  _ ← record eventId (in_context (Some (usr_id user)) "OTP_REQUESTED" "ACCEPTED" (Some phone) c (purpose_metadata FALLBACK));
  mret result.
Definition fallback_login (eventId sessionId csrfToken phone pin challengeId otp : string) (deviceId : option string)
    (c : RequestContext) : IdS CreatedSession :=
  user ← verifyPin eventId phone pin c;
  _ ← otp_verify config now phone challengeId otp FALLBACK;
  _ ← atomic (update_user (usr_id user) (fun _ => true) authenticated);
  _ ← record eventId (in_context (Some (usr_id user)) "PIN_LOGIN_SUCCEEDED" "SUCCESS" (Some phone) c
                        (JObj [("secondFactor", JStr "OTP")]%string));
  session_create config now sessionId csrfToken (usr_id user) PIN_OTP deviceId.

(** ** [OnboardingService] *)
Definition onboarding_request_otp (eventId newChallengeId : string) (code : Z) (phone : string) (language : PreferredLanguage)
    (c : RequestContext) : IdS OtpRequestResult :=
  result ← otp_request config now newChallengeId code phone ONBOARDING (rc_ipHash c) (Some (language_text language))
             (Some (toISOString now));
  _ ← record eventId (in_context None "OTP_REQUESTED" "ACCEPTED" (Some phone) c (purpose_metadata ONBOARDING));
  mret result.
Definition enrollment_key (token : string) : string := id_key config ["enrollment"; sha256 token]%string.
Definition reverified (language : PreferredLanguage) (consent : Z) (u : User) : User :=
  mkUser (usr_id u) (usr_phoneE164 u) language (usr_kycTier u) (usr_status u) consent (Some now) (usr_createdAt u)
    (usr_lastAuthenticatedAt u) (usr_failedLoginCount u) (usr_lockedUntil u).
(** A challenge without a language keeps the column's default, or the row's
    language; any other text is no value of the enumeration. *)
Definition chosen_language (c : StoredOtpChallenge) (otherwise : PreferredLanguage) : option PreferredLanguage :=
  match oc_preferredLanguage c with Some s => language_of s | None => Some otherwise end.
Definition verify_onboarding (eventId enrollmentToken phone challengeId otp : string) (c : RequestContext)
  : IdS EnrollmentResult :=
  challenge ← otp_verify config now phone challengeId otp ONBOARDING;
  existing ← atomic (gets (fun st => find_row usr_phoneE164 phone (users st)));
  _ ← throw_when (match existing with Some u => negb (bool_decide (usr_status u = USER_PENDING)) | None => false end)
        (AuthError "ONBOARDING_UNAVAILABLE" "Onboarding could not be completed." 409);
  consent ← require (date_parse (default (toISOString now) (oc_consentAcceptedAt challenge))) (IdDbError "Invalid Date");
  user ← match existing with
         | Some u =>
             language ← require (chosen_language challenge (usr_preferredLanguage u)) (IdDbError "PreferredLanguage");
             atomic (update_user (usr_id u) (fun _ => true) (reverified language consent))
         | None =>
             language ← require (chosen_language challenge EN) (IdDbError "PreferredLanguage");
             atomic (transaction (fun _ _ => None) (create_user now phone language consent now))
         end;
  _ ← atomic (r_set now (enrollment_key enrollmentToken) (text (JObj [("userId"%string, JStr (usr_id user))])) enrollmentTtlSeconds);
  _ ← record eventId (in_context (Some (usr_id user))
        (match existing with Some _ => "OTP_VERIFIED" | None => "USER_CREATED" end)%string "SUCCESS" (Some phone) c
        (purpose_metadata ONBOARDING));
  mret (mkEnrollment enrollmentToken enrollmentTtlSeconds (masked user true)).
(** The transaction of [createPin]. *)
Definition configure_pin (userId pinHash : string) : IdM User :=
  _ ← upsert_pin now userId pinHash PIN_ALGORITHM;
  update_user userId (fun u => bool_decide (usr_status u = USER_PENDING)) authenticated.
Definition create_pin (eventId sessionId csrfToken salt enrollmentToken pin : string) (deviceId : option string)
    (c : RequestContext) : IdS CreatedSession :=
  let pinHash := argon2_hash salt pin in
  raw ← atomic (r_getdel now (enrollment_key enrollmentToken));
  raw ← require (truthy_string raw) (AuthError "INVALID_ENROLLMENT" "The enrollment token is invalid or expired." 401);
  value ← require (JSON_parse raw) (IdJsError "SyntaxError");
  match jfield "userId" value with
  | JStr userId =>
      user ← atomic (transaction (fun _ _ => None) (configure_pin userId pinHash));
      _ ← record eventId (in_context (Some userId) "PIN_CONFIGURED" "SUCCESS" (Some (usr_phoneE164 user)) c
            (JObj [("algorithm"%string, JStr PIN_ALGORITHM)]));
      session_create config now sessionId csrfToken userId PIN_OTP deviceId
  | _ => throw (IdDbError "PrismaClientValidationError")
  end.

(** ** [PasskeyService] *)
Definition registration_key (challenge : string) : string := id_key config ["webauthn"; "registration"; sha256 challenge]%string.
Definition authentication_key (challenge : string) : string := id_key config ["webauthn"; "authentication"; sha256 challenge]%string.
(** [challenge] is drawn by the library; the credentials are excluded. *)
Definition registration_options (challenge sessionId csrfToken : string) : IdS (string * list (string * list string)) :=
  userId ← session_authorize config now sessionId csrfToken;
  credentials ← atomic (gets (fun st => filter (fun k => pk_userId k = userId /\ pk_revokedAt k = None) (passkeyCredentials st)));
  _ ← atomic (r_set now (registration_key challenge)
        (text (JObj [("userId", JStr userId); ("sessionHash", JStr (sha256 sessionId))]%string)) challengeTtlSeconds);
  mret (challenge, map (fun k => (pk_credentialId k, pk_transports k)) credentials).
Definition verify_registration (eventId sessionId csrfToken challenge : string) (credential : RegistrationCredential)
    (nickname : option string) (correlationId : string) : IdS unit :=
  userId ← session_authorize config now sessionId csrfToken;
  raw ← atomic (r_getdel now (registration_key challenge));
  raw ← require (truthy_string raw) invalidPasskey;
  value ← require (JSON_parse raw) (IdJsError "SyntaxError");
  _ ← throw_when (match jfield "userId" value, jfield "sessionHash" value with
                  | JStr owner, JStr hash => negb (String.eqb owner userId) || negb (timingSafeStringEqual hash (sha256 sessionId))
                  | _, _ => true
                  end) invalidPasskey;
  verification ← require (verifyRegistrationResponse credential challenge (webauthnOrigin config) (webauthnRpId config))
                   (IdJsError "Error");
  info ← require (if fst verification : bool then snd verification else None) invalidPasskey;
  k ← atomic (transaction (fun _ _ => None) (create_passkey (fun id =>
        mkPasskey id userId (ri_credentialId info) (ri_publicKey info) (ri_counter info) (ri_transports info)
          (ri_deviceType info) (ri_backedUp info) now None nickname None)));
  record eventId (mkEventInput (Some userId) "PASSKEY_REGISTERED" "SUCCESS" correlationId None None None
    (JObj [("deviceType"%string, JStr (ri_deviceType info))])).
Definition authentication_options (challenge ipHash : string) : IdS string :=
  rateCount ← incrementWithTtl now (id_key config ["webauthn"; "rate"; ipHash]%string) 3600;
  _ ← throw_when (20 <? rateCount) (AuthError "RATE_LIMITED" "Try again later." 429);
  _ ← atomic (r_set now (authentication_key challenge) (text (JObj [("ipHash"%string, JStr ipHash)])) challengeTtlSeconds);
  mret challenge.
Definition max_safe : Z := 9007199254740991.
Definition verify_authentication (eventId newSessionId newCsrf challenge : string) (credential : AuthenticationCredential)
    (deviceId : option string) (ipHash correlationId : string) : IdS CreatedSession :=
  raw ← atomic (r_getdel now (authentication_key challenge));
  raw ← require (truthy_string raw) invalidPasskey;
  value ← require (JSON_parse raw) (IdJsError "SyntaxError");
  _ ← throw_when (match jfield "ipHash" value with JStr h => negb (timingSafeStringEqual h ipHash) | _ => true end) invalidPasskey;
  found ← atomic (gets (fun st => find_row pk_credentialId (an_id credential) (passkeyCredentials st)));
  k ← require found invalidPasskey;
  _ ← throw_when (bool_decide (is_Some (pk_revokedAt k))) invalidPasskey;
  _ ← throw_when (max_safe <? pk_counter k) invalidPasskey;
  '(verified, newCounter) ← require (verifyAuthenticationResponse credential challenge (webauthnOrigin config) (webauthnRpId config) k)
                              (IdJsError "Error");
  _ ← throw_when (negb verified || ((0 <? pk_counter k) && (newCounter <? pk_counter k))) invalidPasskey;
  _ ← atomic (update_passkey now (pk_id k) newCounter);
  _ ← record eventId (mkEventInput (Some (pk_userId k)) "PASSKEY_LOGIN_SUCCEEDED" "SUCCESS" correlationId None (Some ipHash) None
        (JObj [("userVerified"%string, JBool true)]));
  session_create config now newSessionId newCsrf (pk_userId k) PASSKEY deviceId.
End Flows.
