(* ===== verification/IdentityHttp.v ===== *)
(** * The HTTP surface of the Identity service
    ([services/identity/src/auth/auth.controller.ts],
    [sessions/session-control.controller.ts]) and its contracts
    ([packages/contracts/src/auth/v1.ts]) *)

From Stdlib Require Import ZArith Lia Ascii String.
From stdpp Require Import base strings list gmap.
From S2P Require Import Prelude.
From S2P Require Import Js.
From S2P Require Import Services.
From S2P Require Import Regex.
From S2P Require Import Contracts.
From S2P Require Import Security.
From S2P Require Import LedgerDb.
From S2P Require Import RiskTypes.
From S2P Require Import PaymentsDb.
From S2P Require Import RiskService.
From S2P Require Import RiskOperators.
From S2P Require Import IdentityDb.
From S2P Require Import Identity.
From S2P Require Import IdentityFlows.

Open Scope Z_scope.

(** ** Contracts *)
Definition e164_rx : rx := (chr "+" · digit19 · rep_range 7 14 digit)%rx.
Definition e164PhoneSchema (s : string) : option string := let t := trim s in if rx_match e164_rx t then Some t else None.
Definition sixDigit_rx : rx := rep 6 digit.
Definition sixDigits : string -> bool := rx_match sixDigit_rx.
Definition deviceIdSchema (o : option string) : option (option string) := optional_trimmed 1 128 o.
Definition weakPinValues : list string :=
  ["000000"; "111111"; "123456"; "234567"; "345678"; "456789"; "987654"; "876543"; "765432"; "654321"; "543210"]%string.
(** [/^(\d)\1{5}$/u.test(pin) || weakPinValues.has(pin)] *)
Definition repeated_digit (pin : string) : bool :=
  match pin with String c _ => is_digit c && String.eqb pin (repeat_str (String c "") 6) | EmptyString => false end.
Definition isWeakPrototypePin (pin : string) : bool := repeated_digit pin || bool_decide (pin ∈ weakPinValues).
Definition securePrototypePin (pin : string) : bool := sixDigits pin && negb (isWeakPrototypePin pin).

Record RequestOtpInput := mkRequestOtp {
  ro_phone : string; ro_preferredLanguage : PreferredLanguage; ro_consentAccepted : bool; ro_deviceId : option string }.
Record VerifyOtpInput := mkVerifyOtp { vo_phone : string; vo_challengeId : string; vo_otp : string }.
Record CreatePinInput := mkCreatePin {
  cp_enrollmentToken : string; cp_pin : string; cp_pinConfirmation : string; cp_deviceId : option string }.
Record PinFallbackRequestInput := mkFallbackRequest { fr_phone : string; fr_pin : string; fr_deviceId : option string }.
Record PinFallbackLoginInput := mkFallbackLogin {
  fl_phone : string; fl_pin : string; fl_challengeId : string; fl_otp : string; fl_deviceId : option string }.

Record PasskeyRegistrationVerificationInput := mkPasskeyRegistration {
  pr_challenge : string; pr_credential : RegistrationCredential; pr_nickname : option string }.
Record PasskeyAuthenticationVerificationInput := mkPasskeyAuthentication {
  pa_challenge : string; pa_credential : AuthenticationCredential; pa_deviceId : option string }.

(** What the middleware and the headers of a request give a handler. *)
Record HttpRequest := mkHttpRequest {
  hr_clientIpHash : option string;
  hr_ip : option string;
  hr_forwardedUserAgent : option string;
  hr_userAgent : option string;
  hr_correlationId : string
}.

Section Schemas.
Context {zod : Zod}.
Definition requestOtpSchema (i : RequestOtpInput) : option RequestOtpInput :=
  phone ← e164PhoneSchema (ro_phone i);
  device ← deviceIdSchema (ro_deviceId i);
  if ro_consentAccepted i then Some (mkRequestOtp phone (ro_preferredLanguage i) true device) else None.
Definition verifyOtpSchema (i : VerifyOtpInput) : option VerifyOtpInput :=
  phone ← e164PhoneSchema (vo_phone i);
  if z_uuid (vo_challengeId i) && sixDigits (vo_otp i) then Some (mkVerifyOtp phone (vo_challengeId i) (vo_otp i)) else None.
Definition createPinSchema (i : CreatePinInput) : option CreatePinInput :=
  device ← deviceIdSchema (cp_deviceId i);
  if len_between 32 512 (cp_enrollmentToken i) && securePrototypePin (cp_pin i) && sixDigits (cp_pinConfirmation i)
     && String.eqb (cp_pin i) (cp_pinConfirmation i)
  then Some (mkCreatePin (cp_enrollmentToken i) (cp_pin i) (cp_pinConfirmation i) device) else None.
Definition pinFallbackRequestSchema (i : PinFallbackRequestInput) : option PinFallbackRequestInput :=
  phone ← e164PhoneSchema (fr_phone i);
  device ← deviceIdSchema (fr_deviceId i);
  if sixDigits (fr_pin i) then Some (mkFallbackRequest phone (fr_pin i) device) else None.
Definition pinFallbackLoginSchema (i : PinFallbackLoginInput) : option PinFallbackLoginInput :=
  phone ← e164PhoneSchema (fl_phone i);
  device ← deviceIdSchema (fl_deviceId i);
  if sixDigits (fl_pin i) && z_uuid (fl_challengeId i) && sixDigits (fl_otp i)
  then Some (mkFallbackLogin phone (fl_pin i) (fl_challengeId i) (fl_otp i) device) else None.
Definition at_most (n : nat) (o : option string) : bool := match o with Some s => len_between 0 n s | None => true end.
Definition raw_id_ok (o : option string) : bool := match o with Some s => len_between 1 4096 s | None => true end.
Definition registrationCredentialSchema (c : RegistrationCredential) : bool :=
  len_between 1 2048 (rg_id c) && raw_id_ok (rg_rawId c) && at_most 64 (rg_authenticatorAttachment c)
  && len_between 1 16384 (rg_clientDataJSON c) && len_between 1 65536 (rg_attestationObject c)
  && match rg_transports c with
     | Some l => (length l <=? 16)%nat && forallb (len_between 0 64) l
     | None => true
     end
  && at_most 16384 (rg_authenticatorData c) && at_most 65536 (rg_publicKey c).
Definition authenticationCredentialSchema (c : AuthenticationCredential) : bool :=
  len_between 1 2048 (an_id c) && raw_id_ok (an_rawId c) && at_most 64 (an_authenticatorAttachment c)
  && len_between 1 16384 (an_clientDataJSON c) && len_between 1 16384 (an_authenticatorData c)
  && len_between 1 16384 (an_signature c) && at_most 4096 (an_userHandle c).
Definition passkeyRegistrationVerificationSchema (i : PasskeyRegistrationVerificationInput) : option PasskeyRegistrationVerificationInput :=
  nickname ← optional_trimmed 1 64 (pr_nickname i);
  if len_between 16 4096 (pr_challenge i) && registrationCredentialSchema (pr_credential i)
  then Some (mkPasskeyRegistration (pr_challenge i) (pr_credential i) nickname) else None.
Definition passkeyAuthenticationVerificationSchema (i : PasskeyAuthenticationVerificationInput) : option PasskeyAuthenticationVerificationInput :=
  device ← deviceIdSchema (pa_deviceId i);
  if len_between 16 4096 (pa_challenge i) && authenticationCredentialSchema (pa_credential i)
  then Some (mkPasskeyAuthentication (pa_challenge i) (pa_credential i) device) else None.
End Schemas.

Section Endpoints.
Context {Env : Type} {zod : Zod} {crypto : Crypto} {hmac : Hmac} {pg : Postgres} {argon2 : Argon2} {sink : RiskSink Env}
  {webauthn : WebAuthn}.
Abbreviation IdS := (M (System IdentityStore Env) IdentityErr).
Variable config : IdentityConfig.
Variable now : Z.

Definition invalidInput : IdentityErr := AuthError "INVALID_REQUEST" "The request is invalid." 400.
Definition parseInput {A B} (schema : A -> option B) (value : A) : IdS B := require (schema value) invalidInput.
Definition hexHash_rx : rx := rep 64 (Cls (fun c => in_range "a" "f" c || is_digit c)).
Definition or_text (o : option string) (alternative : string) : string := default alternative (truthy_string o).
Definition requestContext (r : HttpRequest) : RequestContext :=
  let supplied := default ""%string (hr_clientIpHash r) in
  mkContext (hr_correlationId r) (if rx_match hexHash_rx supplied then supplied else sha256 (or_text (hr_ip r) "unknown"))
    (or_else (truthy_string (str_take 512 <$> hr_forwardedUserAgent r)) (hr_userAgent r)).
Definition requiredHeader (value : option string) (code : string) : IdS string :=
  let t := trim (default ""%string value) in
  if String.eqb t "" then throw (AuthError code "Authentication is required." 401) else mret t.

Definition requestOnboardingOtp (eventId newChallengeId : string) (code : Z) (body : RequestOtpInput) (r : HttpRequest) : IdS OtpRequestResult :=
  i ← parseInput requestOtpSchema body;
  onboarding_request_otp config now eventId newChallengeId code (ro_phone i) (ro_preferredLanguage i) (requestContext r).
Definition verifyOnboardingOtp (eventId token : string) (body : VerifyOtpInput) (r : HttpRequest) : IdS EnrollmentResult :=
  i ← parseInput verifyOtpSchema body;
  verify_onboarding config now eventId token (vo_phone i) (vo_challengeId i) (vo_otp i) (requestContext r).
Definition createPin (eventId sessionId csrfToken salt : string) (body : CreatePinInput) (r : HttpRequest) : IdS CreatedSession :=
  i ← parseInput createPinSchema body;
  create_pin config now eventId sessionId csrfToken salt (cp_enrollmentToken i) (cp_pin i) (cp_deviceId i) (requestContext r).
Definition requestFallbackOtp (eventId newChallengeId : string) (code : Z) (body : PinFallbackRequestInput) (r : HttpRequest) : IdS OtpRequestResult :=
  i ← parseInput pinFallbackRequestSchema body;
  fallback_request_otp config now eventId newChallengeId code (fr_phone i) (fr_pin i) (requestContext r).
Definition fallbackLogin (eventId sessionId csrfToken : string) (body : PinFallbackLoginInput) (r : HttpRequest) : IdS CreatedSession :=
  i ← parseInput pinFallbackLoginSchema body;
  fallback_login config now eventId sessionId csrfToken (fl_phone i) (fl_pin i) (fl_challengeId i) (fl_otp i) (fl_deviceId i) (requestContext r).
Definition getSession (sessionId : option string) : IdS SessionResponse :=
  id ← requiredHeader sessionId "UNAUTHENTICATED"; session_get config now id.
Definition stepUpTransfer (eventId pin : string) (r : HttpRequest) (sessionId : option string) : IdS unit :=
  id ← requiredHeader sessionId "UNAUTHENTICATED";
  pin ← parseInput (fun p => if sixDigits p then Some p else None) pin;
  step_up_verify config now eventId id pin (requestContext r).
Definition identity_logout (sessionId csrfToken : option string) : IdS unit :=
  id ← requiredHeader sessionId "UNAUTHENTICATED";
  csrf ← requiredHeader csrfToken "INVALID_CSRF";
  session_revoke config now id csrf.

Definition passkey_session {A} (sessionId csrfToken : option string) (run : string -> string -> IdS A) : IdS A :=
  id ← requiredHeader sessionId "UNAUTHENTICATED";
  csrf ← requiredHeader csrfToken "INVALID_CSRF";
  run id csrf.
Definition registrationOptions (challenge : string) (sessionId csrfToken : option string)
  : IdS (string * list (string * list string)) :=
  passkey_session sessionId csrfToken (registration_options config now challenge).
Definition verifyRegistration (eventId : string) (body : PasskeyRegistrationVerificationInput) (r : HttpRequest)
    (sessionId csrfToken : option string) : IdS unit :=
  passkey_session sessionId csrfToken (fun id csrf =>
    i ← parseInput passkeyRegistrationVerificationSchema body;
    verify_registration config now eventId id csrf (pr_challenge i) (pr_credential i) (pr_nickname i) (hr_correlationId r)).
Definition authenticationOptions (challenge : string) (r : HttpRequest) : IdS string :=
  authentication_options config now challenge (rc_ipHash (requestContext r)).
Definition verifyAuthentication (eventId sessionId csrfToken : string) (body : PasskeyAuthenticationVerificationInput)
    (r : HttpRequest) : IdS CreatedSession :=
  let c := requestContext r in
  i ← parseInput passkeyAuthenticationVerificationSchema body;
  verify_authentication config now eventId sessionId csrfToken (pa_challenge i) (pa_credential i) (pa_deviceId i)
    (rc_ipHash c) (rc_correlationId c).

(** [SessionControlController.revoke] *)
Definition session_control (eventId : string) (sessionId : option string) (controlId reasonCode correlationId : string) : IdS bool :=
  id ← require sessionId (IdJsError "ZodError");
  _ ← throw_when (negb (len_between 32 256 id && z_uuid controlId && rx_match reasonCode_rx reasonCode)) (IdJsError "ZodError");
  userId ← revokeTrusted config now id;
  _ ← match truthy_string userId with
      | Some u => record now eventId (mkEventInput (Some u) "SESSION_CONTROL" "ACCEPTED" correlationId None None None
                    (JObj [("controlId", JStr controlId); ("reasonCode", JStr reasonCode)]%string))
      | None => mret tt
      end;
  mret (bool_decide (is_Some (truthy_string userId))).
End Endpoints.
