(* ===== verification/IdentityProperties.v ===== *)
(** * The invariant of the Identity service, and that every request keeps it *)

From Stdlib Require Import ZArith Lia Ascii String.
From stdpp Require Import base strings list gmap.
From S2P Require Import Prelude.
From S2P Require Import Js.
From S2P Require Import Codec.
From S2P Require Import Contracts.
From S2P Require Import Security.
From S2P Require Import Services.
From S2P Require Import RiskTypes.
From S2P Require Import LedgerDb.
From S2P Require Import PaymentsDb.
From S2P Require Import PaymentsInv.
From S2P Require Import RiskService.
From S2P Require Import IdentityDb.
From S2P Require Import Identity.
From S2P Require Import IdentityFlows.

Open Scope Z_scope.

(** ** The invariant *)
Record IdentityInv (st : IdentityStore) : Prop := {
  iv_ids : NoDup (usr_id <$> users st);
  iv_phones : NoDup (usr_phoneE164 <$> users st);
  iv_pins : NoDup (pin_userId <$> pinCredentials st);
  iv_pin_users : forall p, p ∈ pinCredentials st -> pin_userId p ∈ usr_id <$> users st;
  iv_pending : forall u, u ∈ users st -> (usr_id u ∈ pin_userId <$> pinCredentials st) <-> usr_status u <> USER_PENDING;
  iv_verified : forall u, u ∈ users st -> is_Some (usr_phoneVerifiedAt u);
  iv_passkeys : NoDup (pk_credentialId <$> passkeyCredentials st);
  iv_passkey_users : forall k, k ∈ passkeyCredentials st -> pk_userId k ∈ usr_id <$> users st;
  iv_event_users : forall e u, e ∈ authEvents st -> au_userId e = Some u -> u ∈ usr_id <$> users st
}.
(** No PIN is ever replaced or removed. *)
Definition pins_grow (st st' : IdentityStore) : Prop := exists more, pinCredentials st' = pinCredentials st ++ more.
Definition id_step (st st' : IdentityStore) : Prop := IdentityInv st -> IdentityInv st' /\ pins_grow st st'.

Lemma pins_grow_refl st : pins_grow st st.
Proof. exists []. by rewrite app_nil_r. Qed.
Lemma pins_grow_trans a b c : pins_grow a b -> pins_grow b c -> pins_grow a c.
Proof. intros [x Hx] [y Hy]. exists (x ++ y). by rewrite Hy, Hx, app_assoc. Qed.
Lemma pins_grow_same st st' : pinCredentials st' = pinCredentials st -> pins_grow st st'.
Proof. intros H. exists []. by rewrite app_nil_r. Qed.
Lemma id_step_refl st : id_step st st.
Proof. intros H. split; [done|apply pins_grow_refl]. Qed.
Lemma id_step_same st st' : users st' = users st -> pinCredentials st' = pinCredentials st ->
  passkeyCredentials st' = passkeyCredentials st -> authEvents st' = authEvents st -> id_step st st'.
Proof.
  intros Hu Hp Hk He [H1 H2 H3 H4 H5 H6 H7 H8 H9]. split; [|exists []; by rewrite app_nil_r].
  constructor; rewrite ?Hu, ?Hp, ?Hk, ?He; done.
Qed.

Definition stepping {A} (m : IdM A) : Prop := forall st, id_step st (m st).2.
Lemma id_stepping_transaction {A} (m : IdM A) :
  (forall st a st', m st = (Ok a, st') -> id_step st st') -> stepping (transaction (fun _ _ => None) m).
Proof.
  intros H st. destruct (transaction _ m st) as [[a|e] st'] eqn:Ht.
  - apply transaction_Ok_inv in Ht as [Ht _]. by eapply H.
  - apply transaction_err in Ht as ->. apply id_step_refl.
Qed.

Section Statements.
Context {pg : Postgres}.
Variable now : Z.

Lemma stepping_r_get key : stepping (r_get now key).
Proof. intros st. apply id_step_refl. Qed.
Lemma stepping_r_set key v ttl : stepping (r_set now key v ttl).
Proof. intros st. by apply id_step_same. Qed.
Lemma stepping_r_keep key v : stepping (r_set_keepttl now key v).
Proof. intros st. by apply id_step_same. Qed.
Lemma stepping_r_delete key : stepping (r_delete key).
Proof. intros st. by apply id_step_same. Qed.
Lemma stepping_r_getdel key : stepping (r_getdel now key).
Proof. intros st. by apply id_step_same. Qed.
Lemma stepping_r_incr key : stepping (r_incr now key).
Proof. intros st. unfold r_incr. destruct (redis_incr _ _ _) as [[n r]|]; by apply id_step_same. Qed.
Lemma stepping_r_expire key ttl : stepping (r_expire now key ttl).
Proof. intros st. by apply id_step_same. Qed.

Lemma is_user_elem id st : is_user id st = true <-> (id ∈ usr_id <$> users st).
Proof.
  unfold is_user. rewrite existsb_exists, list_elem_of_fmap. split.
  - intros (u & Hu & He%String.eqb_eq). exists u. by rewrite <- list_elem_of_In in Hu.
  - intros (u & -> & Hu%list_elem_of_In). exists u. by rewrite String.eqb_refl.
Qed.
Lemma create_auth_event_step mk st e st' : create_auth_event mk st = (Ok e, st') -> id_step st st'.
Proof.
  unfold create_auth_event, id_check, id_uuid. intros H. apply bind_Ok_inv in H as (id & st1 & [= <- <-] & H). run. subst.
  bool_to_Z. intros []. split; [|by apply pins_grow_same]. constructor; try done.
  intros e u. cbn. rewrite elem_of_app, list_elem_of_singleton. intros [He| ->] Hu; [by eapply iv_event_users0|].
  match goal with H : match au_userId _ with _ => _ end = true |- _ => rewrite Hu in H; by apply is_user_elem in H end.
Qed.
Lemma create_user_step phone language consent verified st u st' :
  create_user now phone language consent verified st = (Ok u, st') -> id_step st st'.
Proof.
  unfold create_user, id_check, id_uuid. intros H. apply bind_Ok_inv in H as (id & st1 & [= <- <-] & H). run. subst.
  bool_to_Z.
  set (id := uuid _) in *. set (st1 := set_identity_uuid N.succ st) in *.
  assert (Hid : id ∉ usr_id <$> users st).
  { change (users st) with (users st1). rewrite <- is_user_elem.
    match goal with H : is_user _ _ = false |- _ => by rewrite H end. }
  assert (Hph : phone ∉ usr_phoneE164 <$> users st).
  { intros (u & -> & Hu)%list_elem_of_fmap.
    match goal with H : existsb _ _ = false |- _ => pose proof (existsb_none _ _ u H Hu) as Hx end.
    cbn in Hx. by rewrite String.eqb_refl in Hx. }
  intros []. split; [|by apply pins_grow_same]. constructor; cbn; rewrite ?fmap_app; try done.
  - apply NoDup_app. split; [done|]. split; [|apply NoDup_singleton]. by intros x Hx ->%list_elem_of_singleton.
  - apply NoDup_app. split; [done|]. split; [|apply NoDup_singleton]. by intros x Hx ->%list_elem_of_singleton.
  - intros p Hp. apply elem_of_app. left. auto.
  - intros x. rewrite elem_of_app, list_elem_of_singleton. intros [Hx| ->]; [by apply iv_pending0|]. cbn.
    split; [|done]. intros (p & Hp & Hin)%list_elem_of_fmap. exfalso. apply Hid. rewrite Hp. auto.
  - intros x. rewrite elem_of_app, list_elem_of_singleton. intros [Hx| ->]; [auto|by eexists].
  - intros k Hk. apply elem_of_app. left. auto.
  - intros e x He Hx. apply elem_of_app. left. eauto.
Qed.

(** *** Updates of users *)
Lemma update_row_fmap {A B} (id_of : A -> string) (g : A -> B) id f l : (forall r, g (f r) = g r) ->
  g <$> update_row id_of id f l = g <$> l.
Proof.
  intros Hg. unfold update_row. induction l as [|x l IH]; [done|]. cbn. rewrite IH. f_equal.
  by destruct (String.eqb _ id).
Qed.
Lemma update_user_ok id P f st u st' : update_user id P f st = (Ok u, st') ->
  exists old, old ∈ users st /\ usr_id old = id /\ P old = true /\ u = f old /\ st' = set_users (update_row usr_id id f) st.
Proof.
  unfold update_user, id_check. intros H. run. subst. bool_to_Z.
  match goal with H : find_row _ _ _ = Some ?x |- _ => apply find_row_spec in H as [Hin Hid]; exists x end. auto.
Qed.
Lemma update_user_err id P f st e st' : update_user id P f st = (Err e, st') -> st' = st.
Proof.
  unfold update_user, id_check, require, throw_when, throw, get, modify, mbind, M_bind, mret, M_ret.
  intros H. repeat (case_match; try discriminate); by simplify_eq.
Qed.
(** [f] changes neither the identity nor the phone of a user. *)
Definition keeps_identity (f : User -> User) : Prop :=
  forall u, usr_id (f u) = usr_id u /\ usr_phoneE164 (f u) = usr_phoneE164 u.
Lemma users_updated st id f : keeps_identity f ->
  (forall u, u ∈ users st -> usr_id u = id -> is_Some (usr_phoneVerifiedAt (f u)) /\
     ((usr_id u ∈ pin_userId <$> pinCredentials st) <-> usr_status (f u) <> USER_PENDING)) ->
  IdentityInv st -> IdentityInv (set_users (update_row usr_id id f) st).
Proof.
  intros Hk Hf [H1 H2 H3 H4 H5 H6 H7 H8 H9].
  assert (Hids : usr_id <$> update_row usr_id id f (users st) = usr_id <$> users st) by (apply update_row_fmap; intros; apply Hk).
  constructor; cbn -[update_row]; rewrite ?Hids; try done.
  - rewrite update_row_fmap; [done|intros; apply Hk].
  - intros u [[Hu _]|(u0 & Hu & Hid & ->)]%update_row_elem; [auto|]. rewrite (proj1 (Hk u0)). by apply Hf.
  - intros u [[Hu _]|(u0 & Hu & Hid & ->)]%update_row_elem; [auto|]. by apply Hf.
Qed.

Lemma upsert_pin_ok userId hash algorithm st st' : upsert_pin now userId hash algorithm st = (Ok tt, st') ->
  ((userId ∈ pin_userId <$> pinCredentials st) /\ users st' = users st) \/
  ((userId ∉ pin_userId <$> pinCredentials st) /\ (userId ∈ usr_id <$> users st) /\
   st' = set_pins (fun l => l ++ [mkPinCredential userId hash algorithm now None]) st).
Proof.
  unfold upsert_pin, id_check. intros H. run. destruct (existsb _ _) eqn:He.
  - left. run. subst. split; [|done]. apply existsb_exists in He as (p & Hp%list_elem_of_In & He%String.eqb_eq). subst userId.
    by apply list_elem_of_fmap_2.
  - right. run. subst. bool_to_Z. split; [|split; [by apply is_user_elem|done]].
    intros (p & -> & Hp)%list_elem_of_fmap. pose proof (existsb_none _ _ p He Hp) as Hx. cbn in Hx.
    by rewrite String.eqb_refl in Hx.
Qed.
Lemma authenticated_keeps : keeps_identity (authenticated now).
Proof. by intros u. Qed.
Lemma configure_pin_step userId hash st u st' : configure_pin now userId hash st = (Ok u, st') -> id_step st st'.
Proof.
  unfold configure_pin. intros H. apply bind_Ok_inv in H as ([] & st1 & Hup & H).
  apply update_user_ok in H as (old & Hold & Hid & Hpend & -> & ->). bool_to_Z.
  intros Hinv.
  apply upsert_pin_ok in Hup as [[Hin Hu]|(Hnot & Huser & ->)].
  - exfalso. rewrite Hu in Hold. rewrite <- Hid in Hin. by apply (iv_pending _ Hinv old Hold) in Hin.
  - set (row := mkPinCredential _ _ _ _ _) in *. cbn in Hold. split; [|exists [row]; done].
    assert (Hpins : forall x, (x ∈ pin_userId <$> (pinCredentials st ++ [row])) <-> ((x ∈ pin_userId <$> pinCredentials st) \/ x = userId))
      by (intros x; rewrite fmap_app; set_solver).
    destruct Hinv as [H1 H2 H3 H4 H5 H6 H7 H8 H9].
    assert (Hids : usr_id <$> update_row usr_id userId (authenticated now) (users st) = usr_id <$> users st)
      by (by apply update_row_fmap).
    constructor; cbn -[update_row]; rewrite ?Hids; try done.
    + by rewrite update_row_fmap.
    + rewrite fmap_app. apply NoDup_app. split; [done|]. split; [|apply NoDup_singleton].
      by intros x Hx ->%list_elem_of_singleton.
    + intros p. rewrite elem_of_app, list_elem_of_singleton. intros [Hp| ->]; auto.
    + intros x [[Hx Hne]|(x0 & Hx & Hx0 & ->)]%update_row_elem.
      * rewrite Hpins, <- (H5 x Hx). intuition congruence.
      * rewrite Hpins. cbn. split; [done|]. intros _. by right.
    + intros x [[Hx _]|(x0 & Hx & _ & ->)]%update_row_elem; [auto|]. cbn. auto.
Qed.

(** *** Passkeys *)
Lemma create_passkey_step mk st k st' : create_passkey mk st = (Ok k, st') -> id_step st st'.
Proof.
  unfold create_passkey, id_check, id_uuid. intros H. apply bind_Ok_inv in H as (id & st1 & [= <- <-] & H). run. subst. bool_to_Z.
  set (k := mk _) in *. intros []. split; [|by apply pins_grow_same]. constructor; cbn; try done.
  - rewrite fmap_app. apply NoDup_app. split; [done|]. split; [|apply NoDup_singleton].
    intros x (y & -> & Hy)%list_elem_of_fmap Heq%list_elem_of_singleton.
    match goal with H : existsb _ _ = false |- _ => pose proof (existsb_none _ _ y H Hy) as Hx end.
    cbn in Hx. apply orb_false_elim in Hx as [_ Hx]. by rewrite Heq, String.eqb_refl in Hx.
  - intros x. rewrite elem_of_app, list_elem_of_singleton. intros [Hx| ->]; [auto|].
    match goal with H : is_user _ _ = true |- _ => by apply is_user_elem in H end.
Qed.
Lemma update_passkey_stepping id counter : stepping (update_passkey now id counter).
Proof.
  intros st. unfold update_passkey, id_check, throw_when, throw, get, modify, mbind, M_bind, mret, M_ret.
  destruct (negb _); [apply id_step_refl|]. intros []. split; [|by apply pins_grow_same]. constructor; cbn -[update_row]; try done.
  - rewrite update_row_fmap; done.
  - intros k [[Hk _]|(k0 & Hk & _ & ->)]%update_row_elem; [auto|]. cbn. auto.
Qed.
End Statements.

(** * The Identity service among concurrent requests *)

Section Properties.
Context {Env : Type} {zod : Zod} {crypto : Crypto} {hmac : Hmac} {pg : Postgres} {argon2 : Argon2} {sink : RiskSink Env}
  {webauthn : WebAuthn}.
Abbreviation IdS := (M (System IdentityStore Env) IdentityErr).
Variable config : IdentityConfig.
Variable st0 : IdentityStore.

(** A store that satisfies the invariant and still has [st0]'s PINs. *)
Definition aged (st : IdentityStore) : Prop := IdentityInv st /\ pins_grow st0 st.
(** A request among others that all keep PINs, in a store where [Q] holds. *)
Definition okay (Q : IdentityStore -> Prop) (s : System IdentityStore Env) : Prop :=
  sys_ok aged pins_grow s /\ Q (sdb s).
(** [Q] survives whatever others do. *)
Class Lasting (Q : IdentityStore -> Prop) := lasting : forall st st', Q st -> pins_grow st st' -> Q st'.
#[local] Instance lasting_true : Lasting (fun _ => True).
Proof. by intros st st'. Qed.
#[local] Instance lasting_pin id : Lasting (fun st => id ∈ pin_userId <$> pinCredentials st).
Proof. intros st st' H [more ->]. rewrite fmap_app. set_solver. Qed.

(** A statement whose step is a step of the invariant wherever [Q] holds. *)
Lemma step_when Q `{!Lasting Q} {A} (m : IdM A) : (forall st, Q st -> id_step st (m st).2) -> preserves (okay Q) (atomic m).
Proof.
  intros Hm. unfold preserves, okay.
  apply (triple_atomic aged pins_grow Q m (fun _ db => Q db) (fun _ db => Q db)); [by intros db db' H; apply lasting|].
  intros st [Hinv Hold] Hq. pose proof (Hm st Hq Hinv) as [Hinv' Hgrow].
  assert (aged (m st).2 /\ Q (m st).2) as [Ha Hq'].
  { split; [split; [done|by eapply pins_grow_trans]|by eapply lasting]. }
  destruct (m st) as [[a|e] st']; auto.
Qed.
Lemma id_step_atomic Q `{!Lasting Q} {A} (m : IdM A) : stepping m -> preserves (okay Q) (atomic m).
Proof. intros H. by apply step_when. Qed.
Lemma step_gets Q `{!Lasting Q} {A} (f : IdentityStore -> A) : preserves (okay Q) (atomic (gets (E := IdentityErr) f)).
Proof. apply id_step_atomic; [done|]. intros st. apply id_step_refl. Qed.
Lemma id_step_remote Q {A} (m : M Env IdentityErr A) : preserves (okay Q) (remote m).
Proof. intros [st env others] H. unfold remote. cbn. by destruct (m env) as [[a|e] env']. Qed.
Lemma step_transaction Q `{!Lasting Q} {A} (m : IdM A) : (forall st a st', m st = (Ok a, st') -> id_step st st') ->
  preserves (okay Q) (atomic (transaction (fun _ _ => None) m)).
Proof. intros H. apply id_step_atomic; [done|]. by apply id_stepping_transaction. Qed.
Hint Resolve id_step_atomic step_gets id_step_remote stepping_r_get stepping_r_set stepping_r_keep stepping_r_delete
  stepping_r_getdel stepping_r_incr stepping_r_expire : preserve.
Ltac keep := repeat first
  [ progress eauto 3 with preserve typeclass_instances
  | apply preserves_bind; [|intros ?]
  | progress intros
  | match goal with |- preserves _ (match ?x with _ => _ end) => destruct x end ].

Lemma id_step_increment Q `{!Lasting Q} now key ttl : preserves (okay Q) (incrementWithTtl now key ttl).
Proof. unfold incrementWithTtl. keep. Qed.
Lemma step_record Q `{!Lasting Q} now eventId i : preserves (okay Q) (record now eventId i).
Proof.
  unfold record, emitRiskEvent. apply preserves_bind; [|keep].
  apply step_transaction; [done|]. intros st a st'. apply create_auth_event_step.
Qed.
Hint Resolve id_step_increment step_record : preserve.
Lemma step_otp_request Q `{!Lasting Q} now id code phone purpose ip language consent :
  preserves (okay Q) (otp_request config now id code phone purpose ip language consent).
Proof. unfold otp_request, rateLimitAllows. keep. Qed.
Lemma step_otp_verify Q `{!Lasting Q} now phone id otp purpose : preserves (okay Q) (otp_verify config now phone id otp purpose).
Proof. unfold otp_verify. keep. Qed.
Lemma step_session_create Q `{!Lasting Q} now session csrf user method device :
  preserves (okay Q) (session_create config now session csrf user method device).
Proof. unfold session_create, safeUser. keep. Qed.
Lemma step_session_read Q `{!Lasting Q} now session : preserves (okay Q) (session_read config now session).
Proof. unfold session_read. keep. Qed.
Hint Resolve step_otp_request step_otp_verify step_session_create step_session_read : preserve.
Lemma step_session_get Q `{!Lasting Q} now session : preserves (okay Q) (session_get config now session).
Proof. unfold session_get, safeUser. keep. Qed.
Lemma step_authorize Q `{!Lasting Q} now session csrf : preserves (okay Q) (session_authorize config now session csrf).
Proof. unfold session_authorize, requireCsrf. keep. Qed.
Lemma id_step_revoke Q `{!Lasting Q} now session csrf : preserves (okay Q) (session_revoke config now session csrf).
Proof. unfold session_revoke, requireCsrf. keep. Qed.
Lemma step_subject Q `{!Lasting Q} now session : preserves (okay Q) (session_subject config now session).
Proof. unfold session_subject. keep. Qed.
Hint Resolve step_session_get step_authorize id_step_revoke step_subject : preserve.
Lemma step_trusted Q `{!Lasting Q} now session : preserves (okay Q) (revokeTrusted config now session).
Proof. unfold revokeTrusted. apply preserves_catch; [keep|]. intros [code m s| |]; keep. Qed.
Lemma step_step_up Q `{!Lasting Q} now eventId session pin c : preserves (okay Q) (step_up_verify config now eventId session pin c).
Proof. unfold step_up_verify, find_user. keep. Qed.

(** ** PINs *)
Abbreviation has_pin id := (fun st : IdentityStore => id ∈ pin_userId <$> pinCredentials st).
Lemma forget {A} Q (m : IdS A) : preserves (okay Q) m ->
  triple (okay Q) m (fun _ => okay (fun _ => True)) (fun _ => okay (fun _ => True)).
Proof. intros H. eapply triple_conseq; [exact H|done|intros _ s [? _]; by split|intros _ s [? _]; by split]. Qed.
(** A user who is read with a PIN keeps it. *)
Lemma find_by_phone_spec phone : triple (okay (fun _ => True)) (find_by_phone phone)
  (fun found s => match found with
                  | Some (u, Some _) => okay (has_pin (usr_id u)) s /\ usr_status u <> USER_PENDING
                  | _ => okay (fun _ => True) s
                  end) (fun _ => okay (fun _ => True)).
Proof.
  unfold find_by_phone. eapply triple_conseq.
  - apply (triple_atomic aged pins_grow (fun _ => True) _ (fun found st => match found with
      | Some (u, Some _) => (usr_id u ∈ pin_userId <$> pinCredentials st) /\ usr_status u <> USER_PENDING
      | _ => True
      end) (fun _ _ => True)); [done|].
    intros st Haged _. cbn. split; [done|]. destruct (find_row usr_phoneE164 phone (users st)) as [u|] eqn:Hu; [|done]. cbn.
    destruct (find_row pin_userId (usr_id u) (pinCredentials st)) as [p|] eqn:Hp; [|done].
    apply find_row_spec in Hu as [Hu _], Hp as [Hp Hid].
    assert (Hin : usr_id u ∈ pin_userId <$> pinCredentials st) by (rewrite <- Hid; by apply list_elem_of_fmap_2).
    split; [done|]. by apply (iv_pending _ (proj1 Haged) u Hu).
  - done.
  - intros [[u [p|]]|] s [Hs Hq]; [|exact (conj Hs I)..]. destruct Hq as [Hq Hst]. exact (conj (conj Hs Hq) Hst).
  - intros e s [Hs _]. by split.
Qed.
Lemma update_user_step st id P f : keeps_identity f ->
  (forall u, u ∈ users st -> usr_id u = id -> IdentityInv st -> is_Some (usr_phoneVerifiedAt (f u)) /\
     ((usr_id u ∈ pin_userId <$> pinCredentials st) <-> usr_status (f u) <> USER_PENDING)) ->
  id_step st (update_user id P f st).2.
Proof.
  intros Hk Hf. destruct (update_user id P f st) as [[u|e] st'] eqn:H; cbn.
  - apply update_user_ok in H as (old & _ & _ & _ & _ & ->). intros Hinv. split; [|by apply pins_grow_same].
    apply users_updated; auto.
  - apply update_user_err in H as ->. apply id_step_refl.
Qed.
(** An update of a user with a PIN to a status other than pending. *)
Lemma step_entered id f : keeps_identity f -> (forall u, usr_phoneVerifiedAt (f u) = usr_phoneVerifiedAt u) ->
  (forall u, usr_status (f u) <> USER_PENDING) ->
  preserves (okay (has_pin id)) (atomic (update_user id (fun _ => true) f)).
Proof.
  intros Hk Hv Hs. apply step_when; [apply lasting_pin|]. intros st Hq. apply update_user_step; [done|].
  intros u Hu Hid Hinv. rewrite Hv, Hid. split; [by apply iv_verified with st|]. split; [done|by intros _].
Qed.
Lemma step_verifyPin now eventId phone pin c : triple (okay (fun _ => True)) (verifyPin now eventId phone pin c)
  (fun u => okay (has_pin (usr_id u))) (fun _ => okay (fun _ => True)).
Proof.
  unfold verifyPin. eapply triple_bind; [apply find_by_phone_spec|]. intros [[u [p|]]|]; try (by apply triple_throw).
  destruct (locked_now now u); [by apply triple_throw; intros s [[? _] _]|].
  destruct (negb _ || _); [|by apply triple_ret; intros s [? _]].
  intros s [Hs Hst]. revert s Hs. change (triple (okay (has_pin (usr_id u))) ?m ?Q ?R) with (triple (okay (has_pin (usr_id u))) m Q R).
  apply (triple_bind _ _ _ _ _ (fun _ => okay (fun _ => True))).
  - apply forget, step_entered; [by intros x|done|]. intros x. cbn. by destruct (maxFailures <=? _).
  - intros _. apply (triple_bind _ _ _ _ _ (fun _ => okay (fun _ => True))); [apply step_record, lasting_true|].
    intros _. by apply triple_throw.
Qed.

Lemma step_fallback_request now eventId id code phone pin c :
  preserves (okay (fun _ => True)) (fallback_request_otp config now eventId id code phone pin c).
Proof.
  unfold fallback_request_otp. eapply triple_bind; [apply step_verifyPin|]. intros u.
  eapply triple_bind; [apply forget, step_otp_request, lasting_pin|]. intros r.
  fold (preserves (okay (fun _ => True)) (_ ← record now eventId (in_context (Some (usr_id u)) "OTP_REQUESTED" "ACCEPTED"
    (Some phone) c (purpose_metadata FALLBACK)); mret r : IdS OtpRequestResult)). keep.
Qed.
Lemma step_fallback_login now eventId session csrf phone pin challenge otp device c :
  preserves (okay (fun _ => True)) (fallback_login config now eventId session csrf phone pin challenge otp device c).
Proof.
  unfold fallback_login. eapply triple_bind; [apply step_verifyPin|]. intros u.
  eapply triple_bind; [eapply triple_conseq; [apply (step_otp_verify (has_pin (usr_id u)))|done|done|by intros e s [? _]]|]. intros ch.
  eapply triple_bind; [apply forget, step_entered; done|]. intros u'.
  match goal with |- triple ?P ?m _ _ => change (preserves P m) end. keep.
Qed.
Lemma step_request_otp now eventId id code phone language c :
  preserves (okay (fun _ => True)) (onboarding_request_otp config now eventId id code phone language c).
Proof. unfold onboarding_request_otp. keep. Qed.
Lemma step_reverify id P language consent now : preserves (okay (fun _ => True)) (atomic (update_user id P (reverified now language consent))).
Proof.
  apply step_when; [apply lasting_true|]. intros st _. apply update_user_step; [done|].
  intros u Hu _ Hinv. split; [by eexists|]. exact (iv_pending _ Hinv u Hu).
Qed.
Hint Resolve step_reverify : preserve.
Lemma step_verify_onboarding now eventId token phone challenge otp c :
  preserves (okay (fun _ => True)) (verify_onboarding config now eventId token phone challenge otp c).
Proof.
  unfold verify_onboarding. do 4 (apply preserves_bind; [keep|intros ?]). apply preserves_bind; [|keep].
  match goal with |- preserves _ (match ?o with _ => _ end) => destruct o end; [keep|].
  apply preserves_bind; [keep|intros l]. apply step_transaction; [apply lasting_true|].
  intros st u st'. apply create_user_step.
Qed.
Lemma step_create_pin now eventId session csrf salt token pin device c :
  preserves (okay (fun _ => True)) (create_pin config now eventId session csrf salt token pin device c).
Proof.
  unfold create_pin. do 3 (apply preserves_bind; [keep|intros ?]). destruct (jfield _ _);
    try match goal with |- preserves _ (throw _) => keep end.
  apply preserves_bind; [|keep]. apply step_transaction; [apply lasting_true|]. intros st u st'. apply configure_pin_step.
Qed.
Lemma step_registration_options now challenge session csrf :
  preserves (okay (fun _ => True)) (registration_options config now challenge session csrf).
Proof. unfold registration_options. keep. Qed.
Lemma step_verify_registration now eventId session csrf challenge credential nickname corr :
  preserves (okay (fun _ => True)) (verify_registration config now eventId session csrf challenge credential nickname corr).
Proof.
  unfold verify_registration. do 7 (apply preserves_bind; [keep|intros ?]). apply preserves_bind; [|keep].
  apply step_transaction; [apply lasting_true|]. intros st k st'. apply create_passkey_step.
Qed.
Lemma step_authentication_options now challenge ip : preserves (okay (fun _ => True)) (authentication_options config now challenge ip).
Proof. unfold authentication_options. keep. Qed.
Hint Resolve update_passkey_stepping : preserve.
Lemma step_verify_authentication now eventId session csrf challenge credential device ip corr :
  preserves (okay (fun _ => True)) (verify_authentication config now eventId session csrf challenge credential device ip corr).
Proof. unfold verify_authentication. keep. Qed.

(** ** Requests *)
Inductive IdentityRequest :=
| RequestOnboarding (eventId challengeId : string) (code : Z) (phone : string) (language : PreferredLanguage)
| VerifyOnboarding (eventId token phone challengeId otp : string)
| CreatePin (eventId session csrf salt token pin : string) (device : option string)
| RequestFallback (eventId challengeId : string) (code : Z) (phone pin : string)
| LoginFallback (eventId session csrf phone pin challengeId otp : string) (device : option string)
| GetSession (session : string)
| Logout (session csrf : string)
| RevokeTrusted (session : string)
| StepUp (eventId session pin : string)
| RegisterPasskey (challenge session csrf : string)
| VerifyPasskey (eventId session csrf challenge : string) (credential : RegistrationCredential) (nickname : option string)
| OfferPasskey (challenge : string)
| LoginPasskey (eventId session csrf challenge : string) (credential : AuthenticationCredential) (device : option string).
Definition serve_identity (now : Z) (c : RequestContext) (r : IdentityRequest) : IdS unit :=
  let quiet {A} (m : IdS A) := _ ← m; mret tt in
  match r with
  | RequestOnboarding e id code phone language => quiet (onboarding_request_otp config now e id code phone language c)
  | VerifyOnboarding e token phone id otp => quiet (verify_onboarding config now e token phone id otp c)
  | CreatePin e s csrf salt token pin device => quiet (create_pin config now e s csrf salt token pin device c)
  | RequestFallback e id code phone pin => quiet (fallback_request_otp config now e id code phone pin c)
  | LoginFallback e s csrf phone pin id otp device => quiet (fallback_login config now e s csrf phone pin id otp device c)
  | GetSession s => quiet (session_get config now s)
  | Logout s csrf => quiet (session_revoke config now s csrf)
  | RevokeTrusted s => quiet (revokeTrusted config now s)
  | StepUp e s pin => quiet (step_up_verify config now e s pin c)
  | RegisterPasskey ch s csrf => quiet (registration_options config now ch s csrf)
  | VerifyPasskey e s csrf ch credential nickname =>
      quiet (verify_registration config now e s csrf ch credential nickname (rc_correlationId c))
  | OfferPasskey ch => quiet (authentication_options config now ch (rc_ipHash c))
  | LoginPasskey e s csrf ch credential device =>
      quiet (verify_authentication config now e s csrf ch credential device (rc_ipHash c) (rc_correlationId c))
  end.
Hint Resolve step_fallback_request step_fallback_login step_request_otp step_verify_onboarding step_create_pin
  step_registration_options step_verify_registration step_authentication_options step_verify_authentication
  step_trusted step_step_up : preserve.
Lemma id_step_serve now c r : preserves (okay (fun _ => True)) (serve_identity now c r).
Proof. destruct r; cbn; apply preserves_bind; keep. Qed.
End Properties.

Section History.
Context {Env : Type} {zod : Zod} {crypto : Crypto} {hmac : Hmac} {pg : Postgres} {argon2 : Argon2} {sink : RiskSink Env}
  {webauthn : WebAuthn}.
Variable config : IdentityConfig.

(** A history: requests at any times, each among other requests. *)
Inductive identity_history (st0 : IdentityStore) (env0 : Env) : IdentityStore -> Env -> Prop :=
| identity_start : identity_history st0 env0 st0 env0
| identity_step now c r st env others : identity_history st0 env0 st env ->
    Forall (fun f => forall st, id_step st (f st)) others ->
    let s := (serve_identity config now c r (mkSystem st env others)).2 in identity_history st0 env0 (sdb s) (senv s).
Lemma identity_aged st0 env0 st env : IdentityInv st0 -> identity_history st0 env0 st env -> aged st0 st.
Proof.
  intros H0. induction 1 as [|now c r st env others Hh IH Ho]; [split; [done|apply pins_grow_refl]|].
  assert (Hok : okay st0 (fun _ => True) (mkSystem st env others)).
  { split; [|done]. split; [exact IH|]. eapply Forall_impl; [exact Ho|]. intros f Hf db [Hinv Hold].
    destruct (Hf db Hinv) as [? ?]. split; [split; [done|by eapply pins_grow_trans]|done]. }
  pose proof (id_step_serve config st0 now c r _ Hok) as Hs. cbv zeta.
  destruct (serve_identity config now c r _) as [[u|e] s']; apply Hs.
Qed.

(** C31: whatever requests the Identity service answers, at any times and among
    any other requests: phones and credentials stay unique and refer to users, a
    user has left PENDING exactly when a PIN is set, and a PIN once set is never
    replaced or removed. *)
Theorem identity_history_safe st0 env0 st env :
  IdentityInv st0 -> identity_history st0 env0 st env -> IdentityInv st /\ pins_grow st0 st.
Proof. apply identity_aged. Qed.
End History.
