(* ===== verification/IdentitySecurity.v ===== *)
(** * What one-time codes, sessions and PINs withstand *)

From Stdlib Require Import ZArith Lia Ascii String.
From stdpp Require Import base strings list gmap.
From S2P Require Import Prelude.
From S2P Require Import Js.
From S2P Require Import Codec.
From S2P Require Import Contracts.
From S2P Require Import Security.
From S2P Require Import Calendar.
From S2P Require Import Services.
From S2P Require Import RiskTypes.
From S2P Require Import LedgerDb.
From S2P Require Import PaymentsDb.
From S2P Require Import PaymentsInv.
From S2P Require Import QrPayments.
From S2P Require Import RiskService.
From S2P Require Import IdentityDb.
From S2P Require Import Identity.
From S2P Require Import IdentityFlows.
From S2P Require Import IdentityProperties.

Open Scope Z_scope.

(** ** Stored JSON *)
Lemma challenge_roundtrip c : challenge_of_json (challenge_json c) = Some c.
Proof. by destruct c as [? ? ? ? [?|] [?|]]. Qed.
Lemma challenge_plain c : plain (challenge_json c) = true.
Proof. by destruct c as [? ? ? ? [?|] [?|]]. Qed.
Lemma session_roundtrip s : session_of_json (session_json s) = Some s.
Proof. by destruct s as [? ? ? ? ? ? [?|] ?]. Qed.
Lemma session_plain s : plain (session_json s) = true.
Proof. by destruct s as [? ? ? ? ? ? [?|] ?]. Qed.
Lemma truthy_text v : plain v = true -> truthy_string (Some (text v)) = Some (text v).
Proof. intros H. destruct (text_head v H) as (c & t & Ht & _). unfold truthy_string. by rewrite Ht. Qed.

(** A value of Redis, alive until [e]. *)
Definition stored (st : IdentityStore) (key value : string) (e : Z) : Prop := id_redis st !! key = Some (value, Some e).
Lemma stored_get now st key value e : stored st key value e -> redis_get now key (id_redis st) = if now <? e then Some value else None.
Proof. intros H. unfold redis_get, redis_live. rewrite H. cbn. by destruct (now <? e). Qed.

Section Security.
Context {Env : Type} {zod : Zod} {crypto : Crypto} {hmac : Hmac} {pg : Postgres} {argon2 : Argon2} {sink : RiskSink Env}.
Abbreviation IdS := (M (System IdentityStore Env) IdentityErr).
Variable config : IdentityConfig.

Lemma r_get_alone now key st (env : Env) :
  atomic (r_get now key) (alone st env) = (Ok (redis_get now key (id_redis st)), alone st env).
Proof. apply atomic_alone. Qed.

(** ** One-time codes *)
Record Guess := mkGuess { gu_now : Z; gu_phone : string; gu_otp : string; gu_purpose : OtpPurpose }.
Definition guess (id : string) (g : Guess) : IdS StoredOtpChallenge :=
  otp_verify config (gu_now g) (gu_phone g) id (gu_otp g) (gu_purpose g).
Definition fits_challenge (c : StoredOtpChallenge) (g : Guess) : bool :=
  otp_matches config (gu_phone g) (gu_otp g) (gu_purpose g) c.
(** Guesses one after another, whatever they answer. *)
Definition guess_all (id : string) (gs : list Guess) (s : System IdentityStore Env) : System IdentityStore Env :=
  foldl (fun s g => (guess id g s).2) s gs.

Lemma guess_all_cons id g gs s : guess_all id (g :: gs) s = guess_all id gs (guess id g s).2.
Proof. done. Qed.

Lemma guess_dead id g st (env : Env) : redis_get (gu_now g) (challenge_key config id) (id_redis st) = None ->
  guess id g (alone st env) = (Err invalidOtp, alone st env).
Proof. intros H. unfold guess, otp_verify. rewrite (bind_Ok _ _ _ _ _ _ _ (r_get_alone _ _ st env)), H. done. Qed.
Lemma guess_read {A} id now st (env : Env) c e (k : StoredOtpChallenge -> IdS A) :
  stored st (challenge_key config id) (text (challenge_json c)) e -> now < e ->
  (raw ← atomic (r_get now (challenge_key config id)); raw ← require (truthy_string raw) invalidOtp;
   value ← require (JSON_parse raw) (IdJsError "SyntaxError"); challenge ← require (challenge_of_json value) (IdJsError "TypeError");
   k challenge) (alone st env) = k c (alone st env).
Proof.
  intros Hs Ht. rewrite (bind_Ok _ _ _ _ _ _ _ (r_get_alone _ _ st env)), (stored_get now st _ _ e Hs).
  rewrite (proj2 (Z.ltb_lt now e) Ht), truthy_text by apply challenge_plain.
  unfold require. rewrite (bind_Ok _ _ _ _ _ _ (alone st env)) by done.
  rewrite json_roundtrip by apply challenge_plain. rewrite (bind_Ok _ _ _ _ _ _ (alone st env)) by done.
  rewrite challenge_roundtrip. by rewrite (bind_Ok _ _ _ _ _ c (alone st env)).
Qed.
Definition after_failure (id : string) (c : StoredOtpChallenge) (e : Z) (r : Redis) : Redis :=
  if otpMaxAttempts config <=? oc_attempts c + 1 then delete (challenge_key config id) r
  else <[challenge_key config id := (text (challenge_json (failed_attempt c)), Some e)]> r.
Lemma guess_wrong id g st (env : Env) c e : stored st (challenge_key config id) (text (challenge_json c)) e ->
  gu_now g < e -> fits_challenge c g = false ->
  guess id g (alone st env) = (Err invalidOtp, alone (set_redis (after_failure id c e) st) env).
Proof.
  intros Hs Ht Hm. unfold guess, otp_verify. rewrite (guess_read id (gu_now g) st env c e _ Hs Ht).
  unfold fits_challenge in Hm. rewrite Hm. cbn [negb]. unfold after_failure, failed_attempt at 1 2.
  cbn [oc_attempts]. destruct (otpMaxAttempts config <=? oc_attempts c + 1).
  - rewrite (bind_Ok _ _ _ _ _ tt (alone (set_redis (delete (challenge_key config id)) st) env)) by (by rewrite atomic_alone). done.
  - rewrite (bind_Ok _ _ _ _ _ tt (alone (set_redis (redis_set_keepttl (gu_now g) (challenge_key config id)
      (text (challenge_json (failed_attempt c)))) st) env)) by (by rewrite atomic_alone).
    unfold redis_set_keepttl, set_redis, throw. do 2 f_equal. unfold alone. f_equal. f_equal. unfold redis_live. rewrite Hs. cbn.
    by rewrite (proj2 (Z.ltb_lt (gu_now g) e) Ht).
Qed.
Lemma guess_right id g st (env : Env) c e : stored st (challenge_key config id) (text (challenge_json c)) e ->
  gu_now g < e -> fits_challenge c g = true ->
  guess id g (alone st env) = (Ok c, alone (set_redis (delete (challenge_key config id)) st) env).
Proof.
  intros Hs Ht Hm. unfold guess, otp_verify. rewrite (guess_read id (gu_now g) st env c e _ Hs Ht).
  unfold fits_challenge in Hm. rewrite Hm. cbn [negb].
  by rewrite (bind_Ok _ _ _ _ _ tt (alone (set_redis (delete (challenge_key config id)) st) env)) by (by rewrite atomic_alone).
Qed.

(** The challenge is spent. *)
Definition spent (id : string) (st : IdentityStore) : Prop := id_redis st !! challenge_key config id = None.
Lemma spent_dead id g st (env : Env) : spent id st -> guess id g (alone st env) = (Err invalidOtp, alone st env).
Proof. intros H. apply guess_dead. unfold redis_get, redis_live. by rewrite H. Qed.
Lemma guess_all_spent id gs st (env : Env) : spent id st -> guess_all id gs (alone st env) = alone st env.
Proof. intros H. unfold guess_all. induction gs as [|g gs IH]; [done|]. cbn. by rewrite spent_dead. Qed.
Lemma guess_all_wrong id gs e (env : Env) : forall c st,
  stored st (challenge_key config id) (text (challenge_json c)) e -> oc_attempts c < otpMaxAttempts config ->
  Forall (fun g => gu_now g < e /\ fits_challenge c g = false) gs ->
  exists st', guess_all id gs (alone st env) = alone st' env /\
    if otpMaxAttempts config - oc_attempts c <=? Z.of_nat (length gs) then spent id st'
    else stored st' (challenge_key config id) (text (challenge_json (mkChallenge (oc_phoneHash c) (oc_codeHash c) (oc_purpose c)
           (oc_attempts c + Z.of_nat (length gs)) (oc_preferredLanguage c) (oc_consentAcceptedAt c)))) e.
Proof.
  induction gs as [|g gs IH]; intros c st Hs Hlt Hall.
  - exists st. split; [done|]. cbn [length]. rewrite (proj2 (Z.leb_gt _ _)) by lia. rewrite Z.add_0_r. by destruct c.
  - apply Forall_cons in Hall as [[Ht Hw] Hall]. rewrite guess_all_cons, (guess_wrong id g st env c e Hs Ht Hw).
    cbn [snd]. set (st1 := set_redis (after_failure id c e) st).
    assert (Hst1 : id_redis st1 = after_failure id c e (id_redis st)) by done. unfold after_failure in Hst1.
    destruct (Z.leb_spec (otpMaxAttempts config) (oc_attempts c + 1)) as [Hmax|Hmax].
    + assert (Hsp : spent id st1) by (unfold spent; rewrite Hst1; apply lookup_delete_eq).
      rewrite guess_all_spent by done. exists st1. split; [done|]. cbn [length]. by rewrite (proj2 (Z.leb_le _ _)) by lia.
    + destruct (IH (failed_attempt c) st1) as (st' & Hrun & Hres).
      * unfold stored. rewrite Hst1. apply lookup_insert_eq.
      * done.
      * exact Hall.
      * exists st'. split; [exact Hrun|]. cbn [length failed_attempt oc_attempts oc_phoneHash oc_codeHash oc_purpose
          oc_preferredLanguage oc_consentAcceptedAt] in *.
        replace (otpMaxAttempts config - (oc_attempts c + 1) <=? Z.of_nat (length gs))
          with (otpMaxAttempts config - oc_attempts c <=? Z.of_nat (S (length gs))) in Hres
          by (apply eq_true_iff_eq; rewrite !Z.leb_le; lia).
        destruct (_ <=? _); [done|].
        by replace (oc_attempts c + Z.of_nat (S (length gs))) with (oc_attempts c + 1 + Z.of_nat (length gs)) by lia.
Qed.

(** C32: one after another, wrong guesses exhaust a code after the configured
    number of attempts, and then not even the right code is accepted; before
    that and before the code expires the right code is, and only once. *)
Theorem otp_guesses id gs e c st (env : Env) :
  stored st (challenge_key config id) (text (challenge_json c)) e -> oc_attempts c < otpMaxAttempts config ->
  Forall (fun g => gu_now g < e /\ fits_challenge c g = false) gs ->
  let s := guess_all id gs (alone st env) in
  (otpMaxAttempts config - oc_attempts c <= Z.of_nat (length gs) -> forall g, guess id g s = (Err invalidOtp, s)) /\
  (Z.of_nat (length gs) < otpMaxAttempts config - oc_attempts c -> forall g, gu_now g < e -> fits_challenge c g = true ->
     exists c' s', guess id g s = (Ok c', s') /\ oc_preferredLanguage c' = oc_preferredLanguage c /\
       forall g', guess id g' s' = (Err invalidOtp, s')).
Proof.
  intros Hs Hlt Hall. cbv zeta. destruct (guess_all_wrong id gs e env c st Hs Hlt Hall) as (st' & -> & Hres). split.
  - intros Hle g. rewrite (proj2 (Z.leb_le _ _) Hle) in Hres. by apply spent_dead.
  - intros Hle g Ht Hf. rewrite (proj2 (Z.leb_gt _ _) Hle) in Hres.
    rewrite (guess_right id g st' env _ e Hres Ht) by done. eexists _, _. split; [done|]. split; [done|].
    intros g'. apply spent_dead. apply lookup_delete_eq.
Qed.

(** ** Sessions *)
Definition session_at (st : IdentityStore) (id : string) (v : StoredSession) (e : Z) : Prop :=
  stored st (session_redis_key config id) (text (session_json v)) e.
Lemma session_read_live now id st (env : Env) v e A : session_at st id v e -> now < e ->
  date_parse (ss_absoluteExpiresAt v) = Some A ->
  session_read config now id (alone st env) =
  if A <=? now then (Err unauthenticated, alone (set_redis (redis_delete (session_redis_key config id)) st) env)
  else (Ok v, alone st env).
Proof.
  intros Hs Ht HA. unfold session_read. rewrite (bind_Ok _ _ _ _ _ _ _ (r_get_alone _ _ st env)), (stored_get now st _ _ e Hs).
  rewrite (proj2 (Z.ltb_lt now e) Ht), truthy_text by apply session_plain.
  unfold require. rewrite (bind_Ok _ _ _ _ _ _ (alone st env)) by done.
  rewrite json_roundtrip by apply session_plain. rewrite (bind_Ok _ _ _ _ _ _ (alone st env)) by done.
  rewrite session_roundtrip. rewrite (bind_Ok _ _ _ _ _ v (alone st env)) by done. rewrite HA.
  destruct (A <=? now); [|done].
  by rewrite (bind_Ok _ _ _ _ _ tt (alone (set_redis (redis_delete (session_redis_key config id)) st) env)) by (by rewrite atomic_alone).
Qed.
Lemma session_read_dead now id st (env : Env) : redis_get now (session_redis_key config id) (id_redis st) = None ->
  session_read config now id (alone st env) = (Err unauthenticated, alone st env).
Proof. intros H. unfold session_read. rewrite (bind_Ok _ _ _ _ _ _ _ (r_get_alone _ _ st env)), H. done. Qed.
Lemma safeUser_alone user st (env : Env) : (safeUser user (alone st env)).2 = alone st env.
Proof.
  unfold safeUser. rewrite (bind_Ok _ _ _ _ _ (find_row usr_id user (users st)) (alone st env)) by (by rewrite atomic_alone).
  destruct (find_row _ _ _) as [u|]; [|done]. by destruct (bool_decide _).
Qed.
Lemma bind_state {S E A B} (m : M S E A) (k : A -> M S E B) s : (forall a, (k a (m s).2).2 = (m s).2) -> ((m ≫= k) s).2 = (m s).2.
Proof. unfold mbind, M_bind. intros H. destruct (m s) as [[a|e] s'] eqn:Hm; [apply H|done]. Qed.

(** Where a use leaves the session. *)
Definition remaining (now A : Z) : Z := Z.min (sessionIdleTtlSeconds config) (Z.max 1 ((A - now) / 1000)).
Lemma session_get_state now id st (env : Env) v e A : session_at st id v e -> now < e -> now < A ->
  date_parse (ss_absoluteExpiresAt v) = Some A ->
  (session_get config now id (alone st env)).2 =
  alone (set_redis (redis_set now (session_redis_key config id) (text (session_json (seen (toISOString now) v))) (remaining now A)) st) env.
Proof.
  intros Hs Ht HA Hd. unfold session_get. pose proof (session_read_live now id st env v e A Hs Ht Hd) as Hr.
  rewrite (proj2 (Z.leb_gt A now) HA) in Hr. rewrite (bind_Ok _ _ _ _ _ _ _ Hr), Hd.
  unfold require. rewrite (bind_Ok _ _ _ _ _ A (alone st env)) by done.
  set (st1 := set_redis _ st). rewrite (bind_Ok _ _ _ _ _ tt (alone st1 env)) by (by rewrite atomic_alone).
  rewrite bind_state; [apply safeUser_alone|]. intros u. by rewrite safeUser_alone.
Qed.

(** Uses at [ts], each within the idle time of the one before, none in the last
    second. *)
Fixpoint steady (A t0 : Z) (ts : list Z) : Prop :=
  match ts with
  | [] => True
  | t :: ts => t0 <= t < t0 + sessionIdleTtlSeconds config * 1000 /\ t <= A - 1000 /\ steady A t ts
  end.
Definition use_all (id : string) (ts : list Z) (s : System IdentityStore Env) : System IdentityStore Env :=
  foldl (fun s t => (session_get config t id s).2) s ts.
(** The session of [csrf] and [user], good for a use within the idle time. *)
Definition live_session (st : IdentityStore) (id csrf user : string) (A t0 : Z) : Prop :=
  exists v e, session_at st id v e /\ date_parse (ss_absoluteExpiresAt v) = Some A /\ ss_csrfHash v = sha256 csrf /\
    ss_userId v = user /\ forall t, t < t0 + sessionIdleTtlSeconds config * 1000 -> t <= A - 1000 -> t < e.
Lemma use_keeps id csrf user A t0 t st (env : Env) : live_session st id csrf user A t0 ->
  t < t0 + sessionIdleTtlSeconds config * 1000 -> t <= A - 1000 ->
  exists st', (session_get config t id (alone st env)).2 = alone st' env /\ live_session st' id csrf user A t.
Proof.
  intros (v & e & Hs & Hd & Hc & Hu & He) Ht HA.
  rewrite (session_get_state t id st env v e A Hs (He t Ht HA) ltac:(lia) Hd). eexists. split; [done|].
  exists (seen (toISOString t) v), (t + remaining t A * 1000). split; [apply lookup_insert_eq|]. do 3 (split; [done|]).
  intros t' Ht' HA'. unfold remaining.
  pose proof (Z.div_mod (A - t) 1000 ltac:(lia)). pose proof (Z.mod_pos_bound (A - t) 1000 ltac:(lia)). lia.
Qed.
Lemma uses_keep id csrf user A ts (env : Env) : forall t0 st, live_session st id csrf user A t0 -> steady A t0 ts ->
  exists st', use_all id ts (alone st env) = alone st' env /\ live_session st' id csrf user A (default t0 (last ts)).
Proof.
  induction ts as [|t ts IH]; intros t0 st Hl Hs; [by exists st|]. destruct Hs as ([_ Ht] & HA & Hs).
  destruct (use_keeps id csrf user A t0 t st env Hl Ht HA) as (st1 & Hrun & Hl1).
  destruct (IH t st1 Hl1 Hs) as (st' & Hrun' & Hl'). exists st'. split.
  - unfold use_all in *. cbn [foldl]. by rewrite Hrun.
  - rewrite last_cons. by destruct (last ts).
Qed.
Lemma create_live now id csrf user method device st (env : Env) : four_digit_year (now + sessionAbsoluteTtlSeconds config * 1000) ->
  exists st', (session_create config now id csrf user method device (alone st env)).2 = alone st' env /\
    live_session st' id csrf user (now + sessionAbsoluteTtlSeconds config * 1000) now.
Proof.
  intros Hy. unfold session_create. set (v := mkStoredSession _ _ _ _ _ _ _ _).
  set (st1 := set_redis (redis_set now (session_redis_key config id) (text (session_json v)) (sessionIdleTtlSeconds config)) st).
  exists st1. split.
  - rewrite (bind_Ok _ _ _ _ _ tt (alone st1 env)) by (by rewrite atomic_alone).
    rewrite bind_state; [apply safeUser_alone|]. intros u. by rewrite safeUser_alone.
  - exists v, (now + sessionIdleTtlSeconds config * 1000). split; [apply lookup_insert_eq|].
    split; [by apply date_parse_toISOString|]. do 2 (split; [done|]). lia.
Qed.

(** What the CSRF check says of a session. *)
Lemma csrf_live now id csrf csrf' user A t0 st (env : Env) : live_session st id csrf user A t0 ->
  now < t0 + sessionIdleTtlSeconds config * 1000 -> now <= A - 1000 ->
  exists v, ss_userId v = user /\ requireCsrf config now id csrf' (alone st env) =
    (if timingSafeStringEqual (sha256 csrf) (sha256 csrf') then Ok v
     else Err (AuthError "INVALID_CSRF" "The CSRF token is invalid." 403), alone st env).
Proof.
  intros (v & e & Hs & Hd & Hc & Hu & He) Ht HA. exists v. split; [done|]. unfold requireCsrf.
  pose proof (session_read_live now id st env v e A Hs (He now Ht HA) Hd) as Hr. rewrite (proj2 (Z.leb_gt A now)) in Hr by lia.
  rewrite (bind_Ok _ _ _ _ _ _ _ Hr), Hc. by destruct (timingSafeStringEqual _ _).
Qed.
Lemma csrf_expired now id csrf csrf' user A t0 st (env : Env) : live_session st id csrf user A t0 -> A <= now ->
  (requireCsrf config now id csrf' (alone st env)).1 = Err unauthenticated.
Proof.
  intros (v & e & Hs & Hd & _) HA. unfold requireCsrf. destruct (Z.ltb_spec now e) as [He|He].
  - pose proof (session_read_live now id st env v e A Hs He Hd) as Hr. rewrite (proj2 (Z.leb_le A now) HA) in Hr.
    by rewrite (bind_Err _ _ _ _ _ _ _ Hr).
  - rewrite (bind_Err _ _ _ _ _ _ _ (session_read_dead now id st env ltac:(rewrite (stored_get now st _ _ e Hs), (proj2 (Z.ltb_ge now e) He); done))).
    done.
Qed.

(** C34: a session used at least once per idle time stays alive until a second
    before its absolute end: the CSRF token it was given, and no other, acts for
    its user. From the absolute end on nothing does, however often the session
    was used. *)
Theorem session_life now id csrf user method device ts st (env : Env) :
  let A := now + sessionAbsoluteTtlSeconds config * 1000 in
  four_digit_year A -> steady A now ts ->
  let s := use_all id ts (session_create config now id csrf user method device (alone st env)).2 in
  (forall t csrf', t < default now (last ts) + sessionIdleTtlSeconds config * 1000 -> t <= A - 1000 ->
     exists v, ss_userId v = user /\ requireCsrf config t id csrf' s =
       (if timingSafeStringEqual (sha256 csrf) (sha256 csrf') then Ok v
        else Err (AuthError "INVALID_CSRF" "The CSRF token is invalid." 403), s)) /\
  (forall t csrf', A <= t -> (requireCsrf config t id csrf' s).1 = Err unauthenticated).
Proof.
  cbv zeta. intros Hy Hs. destruct (create_live now id csrf user method device st env Hy) as (st1 & -> & Hl).
  destruct (uses_keep id csrf user _ ts env now st1 Hl Hs) as (st' & -> & Hl'). split; intros t csrf' Ht.
  - intros HA. by eapply csrf_live.
  - by eapply csrf_expired.
Qed.
End Security.

(** * How PINs are protected: failures lock the account *)

Section Lockout.
Context {Env : Type} {zod : Zod} {crypto : Crypto} {hmac : Hmac} {pg : Postgres} {argon2 : Argon2} {sink : RiskSink Env}.
Abbreviation IdS := (M (System IdentityStore Env) IdentityErr).

Record Attempt := mkAttempt { at_now : Z; at_eventId : string; at_pin : string; at_context : RequestContext }.
Definition attempt (phone : string) (a : Attempt) : IdS User :=
  verifyPin (at_now a) (at_eventId a) phone (at_pin a) (at_context a).
Definition attempt_all (phone : string) (l : list Attempt) (s : System IdentityStore Env) : System IdentityStore Env :=
  foldl (fun s a => (attempt phone a s).2) s l.

(** The user of [phone] and the user's PIN. *)
Record pin_account (st : IdentityStore) (phone : string) (u : User) (p : PinCredential) : Prop := {
  ac_inv : IdentityInv st;
  ac_user : u ∈ users st;
  ac_phone : usr_phoneE164 u = phone;
  ac_pin : p ∈ pinCredentials st;
  ac_owner : pin_userId p = usr_id u
}.
Lemma account_found st phone u p (env : Env) : pin_account st phone u p ->
  find_by_phone phone (alone st env) = (Ok (Some (u, Some p)), alone st env).
Proof.
  intros []. unfold find_by_phone. rewrite atomic_alone. cbn.
  rewrite (find_row_elem usr_phoneE164 phone (users st) u) by (try done; apply iv_phones; done). cbn.
  by rewrite (find_row_elem pin_userId (usr_id u) (pinCredentials st) p) by (try done; apply iv_pins; done).
Qed.
Lemma record_state now eventId i st (env : Env) : exists st' env', (record now eventId i (alone st env)).2 = alone st' env' /\
  users st' = users st /\ pinCredentials st' = pinCredentials st /\ id_step st st'.
Proof.
  unfold record. destruct (transaction (fun _ _ => None) (create_auth_event (fun id =>
    mkAuthEvent id (ei_userId i) (ei_eventType i) (ei_outcome i) (ei_correlationId i)
      (match truthy_string (ei_phone i) with Some p => maskPhone p | None => "anonymous"%string end)
      (ei_ipHash i) (sha256 <$> truthy_string (ei_userAgent i)) (ei_metadata i) now)) st) as [[e|err] st1] eqn:Ht.
  - rewrite (bind_Ok _ _ _ _ _ e (alone st1 env)) by (by rewrite atomic_alone, Ht).
    apply transaction_Ok_inv in Ht as [Ht _]. pose proof (create_auth_event_step _ _ _ _ Ht) as Hstep. unfold create_auth_event, id_check, id_uuid in Ht.
    apply bind_Ok_inv in Ht as (id & st2 & [= <- <-] & Ht). run. subst.
    unfold emitRiskEvent. clear - Hstep. destruct (negb (securityEventV1Schema _)); [eexists _, _; split; [reflexivity|done]|].
    rewrite (bind_Ok _ _ _ _ _ tt (alone _ env)) by done. rewrite remote_alone. eexists _, _. split; [reflexivity|done].
  - rewrite (bind_Err _ _ _ _ _ err (alone st1 env)) by (by rewrite atomic_alone, Ht).
    apply transaction_err in Ht as ->. exists st, env. split; [done|]. split; [done|]. split; [done|apply id_step_refl].
Qed.

(** A wrong PIN on an unlocked account. *)
Definition wrong (p : PinCredential) (a : Attempt) : Prop := argon2_verify (pin_pinHash p) (at_pin a) = false.
Definition counted_failure (a : Attempt) (u : User) : User :=
  failing (at_now a) (usr_failedLoginCount u + 1) (maxFailures <=? usr_failedLoginCount u + 1) u u.
Lemma attempt_wrong st phone u p a (env : Env) : pin_account st phone u p -> locked_now (at_now a) u = false ->
  wrong p a -> 0 <= usr_failedLoginCount u < 100 -> usr_status u <> USER_PENDING ->
  exists st' env', (attempt phone a (alone st env)).2 = alone st' env' /\ pin_account st' phone (counted_failure a u) p.
Proof.
  intros Hac Hl Hw Hn Hp. unfold attempt, verifyPin. rewrite (bind_Ok _ _ _ _ _ _ _ (account_found st phone u p env Hac)), Hl.
  rewrite Hw. cbn [negb orb]. fold (counted_failure a u). destruct Hac as [Hinv Hu Hph Hpin Hown].
  set (st1 := set_users (update_row usr_id (usr_id u) (failing (at_now a) (usr_failedLoginCount u + 1)
    (maxFailures <=? usr_failedLoginCount u + 1) u)) st).
  assert (Hup : atomic (update_user (usr_id u) (fun _ => true) (failing (at_now a) (usr_failedLoginCount u + 1)
    (maxFailures <=? usr_failedLoginCount u + 1) u)) (alone st env) = (Ok (counted_failure a u), alone st1 env)).
  { rewrite atomic_alone. unfold update_user. rewrite (bind_Ok _ _ _ _ st st st) by done.
    rewrite (find_row_elem usr_id (usr_id u) (users st) u) by (try done; apply Hinv). unfold require.
    rewrite (bind_Ok _ _ _ _ st u st) by done. rewrite (bind_Ok _ _ _ _ st tt st) by done.
    rewrite (bind_Ok _ _ _ _ st tt st); [done|]. unfold id_check. cbn [usr_failedLoginCount failing].
    unfold int32_ok. by rewrite (proj2 (Z.leb_le _ _)), (proj2 (Z.ltb_lt _ _)) by lia. }
  rewrite (bind_Ok _ _ _ _ _ _ _ Hup).
  match goal with |- context [(record ?t ?e ?i ≫= _)] =>
    destruct (record_state t e i st1 env) as (st2 & env2 & Hst & Hus & Hpi & Hstep) end.
  exists st2, env2. split.
  - rewrite bind_state; [exact Hst|]. intros x. by rewrite Hst.
  - assert (Hin1 : IdentityInv st1).
    { apply users_updated; [by intros x|..|done]. intros x Hx Hid. cbn. split; [by apply iv_verified with st|].
      rewrite Hid, <- Hown. split; [by destruct (maxFailures <=? _)|]. intros _. by apply list_elem_of_fmap_2. }
    constructor; [by apply Hstep| |done|by rewrite Hpi|done].
    rewrite Hus. pose proof (update_row_in usr_id (usr_id u) (failing (at_now a) (usr_failedLoginCount u + 1)
      (maxFailures <=? usr_failedLoginCount u + 1) u) (users st) u Hu) as Hin. by rewrite String.eqb_refl in Hin.
Qed.
Lemma attempt_locked st phone u p a (env : Env) : pin_account st phone u p -> locked_now (at_now a) u = true ->
  attempt phone a (alone st env) = (Err invalidCredentials, alone st env).
Proof.
  intros Hac Hl. unfold attempt, verifyPin. rewrite (bind_Ok _ _ _ _ _ _ _ (account_found st phone u p env Hac)), Hl. done.
Qed.
Lemma attempt_right st phone u p a (env : Env) : pin_account st phone u p -> locked_now (at_now a) u = false ->
  argon2_verify (pin_pinHash p) (at_pin a) = true -> may_enter u = true ->
  attempt phone a (alone st env) = (Ok u, alone st env).
Proof.
  intros Hac Hl Hw Hm. unfold attempt, verifyPin. rewrite (bind_Ok _ _ _ _ _ _ _ (account_found st phone u p env Hac)), Hl.
  by rewrite Hw, Hm.
Qed.

Lemma attempts_wrong phone p l : forall st u (env : Env), pin_account st phone u p -> usr_lockedUntil u = None ->
  0 <= usr_failedLoginCount u < maxFailures -> usr_status u <> USER_PENDING -> Forall (wrong p) l ->
  Z.of_nat (length l) <= maxFailures - usr_failedLoginCount u ->
  exists st' env' u', attempt_all phone l (alone st env) = alone st' env' /\ pin_account st' phone u' p /\
    usr_failedLoginCount u' = usr_failedLoginCount u + Z.of_nat (length l) /\
    if Z.of_nat (length l) =? maxFailures - usr_failedLoginCount u
    then exists a, last l = Some a /\ usr_lockedUntil u' = Some (at_now a + lockSeconds * 1000)
    else usr_lockedUntil u' = None /\ usr_status u' = usr_status u.
Proof.
  induction l as [|a l IH]; intros st u env Hac Hl Hn Hp Hw Hlen.
  - exists st, env, u. split; [done|]. split; [done|]. cbn [length]. rewrite (proj2 (Z.eqb_neq _ _)) by lia. split; [lia|done].
  - apply Forall_cons in Hw as [Hwa Hw]. cbn [length] in Hlen.
    assert (Hul : locked_now (at_now a) u = false) by (unfold locked_now; by rewrite Hl).
    destruct (attempt_wrong st phone u p a env Hac Hul Hwa) as (st1 & env1 & Hrun & Hac1); [unfold maxFailures in *; lia|done|].
    unfold attempt_all in *. cbn [foldl]. rewrite Hrun. destruct (Z.leb_spec maxFailures (usr_failedLoginCount u + 1)) as [Hmax|Hmax].
    + assert (l = []) as -> by (destruct l; [done|cbn [length] in Hlen; lia]).
      exists st1, env1, (counted_failure a u). split; [done|]. split; [done|]. cbn [length]. split; [done|].
      rewrite (proj2 (Z.eqb_eq _ _)) by lia. exists a. split; [done|]. unfold counted_failure. by rewrite (proj2 (Z.leb_le _ _) Hmax).
    + assert (Hc : counted_failure a u = failing (at_now a) (usr_failedLoginCount u + 1) false u u)
        by (unfold counted_failure; by rewrite (proj2 (Z.leb_gt _ _) Hmax)).
      rewrite Hc in Hac1. destruct (IH st1 _ env1 Hac1) as (st' & env' & u' & Hrun' & Hac' & Hcount & Hres); cbn -[Z.of_nat]; try done; try lia.
      exists st', env', u'. split; [exact Hrun'|]. split; [done|]. cbn [failing usr_failedLoginCount usr_status] in Hcount, Hres.
      split; [lia|]. cbn [length].
      replace (Z.of_nat (length l) =? maxFailures - (usr_failedLoginCount u + 1))
        with (Z.of_nat (S (length l)) =? maxFailures - usr_failedLoginCount u) in Hres
        by (apply eq_true_iff_eq; rewrite !Z.eqb_eq; lia).
      destruct (_ =? _) eqn:He; [|done]. destruct Hres as (b & Hb & Hlock). exists b. split; [|done].
      rewrite last_cons, Hb. done.
Qed.

(** C33: wrong PINs one after another: before the fifth the right PIN is still
    accepted; the fifth locks the account for five minutes, during which no
    attempt succeeds or changes anything, not even with the right PIN. *)
Theorem pin_lockout phone p st u (env : Env) l : pin_account st phone u p -> usr_lockedUntil u = None ->
  usr_failedLoginCount u = 0 -> may_enter u = true -> Forall (wrong p) l ->
  let s := attempt_all phone l (alone st env) in
  (Z.of_nat (length l) < maxFailures -> forall a, argon2_verify (pin_pinHash p) (at_pin a) = true ->
     exists u', attempt phone a s = (Ok u', s) /\ usr_id u' = usr_id u) /\
  (Z.of_nat (length l) = maxFailures -> forall a b, last l = Some b -> at_now a < at_now b + lockSeconds * 1000 ->
     attempt phone a s = (Err invalidCredentials, s)).
Proof.
  intros Hac Hl Hn Hm Hw. cbv zeta.
  assert (Hp : usr_status u <> USER_PENDING).
  { intros He. unfold may_enter in Hm. by rewrite He in Hm. }
  split; intros Hlen.
  - destruct (attempts_wrong phone p l st u env Hac Hl) as (st' & env' & u' & -> & Hac' & _ & Hres); try done; try (unfold maxFailures in *; lia).
    rewrite (proj2 (Z.eqb_neq _ _)) in Hres by lia. destruct Hres as [Hl' Hs']. intros a Hr. exists u'.
    assert (Hid : usr_id u' = usr_id u) by (rewrite <- (ac_owner _ _ _ _ Hac'); apply Hac). split; [|done].
    apply (attempt_right st' phone u' p); [done| |done|unfold may_enter in *; by rewrite Hs'].
    unfold locked_now. by rewrite Hl'.
  - destruct (attempts_wrong phone p l st u env Hac Hl) as (st' & env' & u' & -> & Hac' & _ & Hres); try done; try (unfold maxFailures in *; lia).
    rewrite (proj2 (Z.eqb_eq _ _)) in Hres by lia. destruct Hres as (b & Hb & Hlock). intros a b' Hb' Ht.
    assert (b' = b) as -> by congruence. apply (attempt_locked st' phone u' p); [done|]. unfold locked_now. rewrite Hlock.
    by apply Z.ltb_lt.
Qed.
End Lockout.
