(* ===== verification/IdentityWitnesses.v ===== *)
(** * The Identity service at concrete inputs *)

From Stdlib Require Import ZArith Lia Ascii String.
From stdpp Require Import base strings list gmap sorting.
From S2P Require Import Prelude.
From S2P Require Import Js.
From S2P Require Import Codec.
From S2P Require Import Calendar.
From S2P Require Import Services.
From S2P Require Import Regex.
From S2P Require Import Contracts.
From S2P Require Import Security.
From S2P Require Import LedgerDb.
From S2P Require Import Fixtures.
From S2P Require Import RiskTypes.
From S2P Require Import PaymentsDb.
From S2P Require Import PaymentsInv.
From S2P Require Import RiskService.
From S2P Require Import IdentityDb.
From S2P Require Import Identity.
From S2P Require Import IdentityFlows.
From S2P Require Import IdentityHttp.
From S2P Require Import IdentityProperties.
From S2P Require Import IdentitySecurity.

Open Scope Z_scope.

#[local] Instance fx_keyed : Hmac := {| hmac_sha256 := fun k t => k +:+ "/" +:+ t |}.
(** A stored PIN is the PIN before its salt. *)
Definition fx_argon_hash (salt pin : string) : string := pin +:+ ":" +:+ salt.
Lemma prefix_app p s : String.prefix p (p +:+ s) = true.
Proof. induction p as [|c p IH]; [by destruct s|]. change ((if ascii_dec c c then String.prefix p (p +:+ s) else false) = true). destruct (ascii_dec c c) as [_|Hc]; [exact IH|by destruct (Hc eq_refl)]. Qed.
Lemma fx_argon_correct salt pin : String.prefix (pin +:+ ":") (fx_argon_hash salt pin) = true.
Proof.
  unfold fx_argon_hash. assert (pin +:+ ":" +:+ salt = (pin +:+ ":") +:+ salt)%string as -> by (induction pin as [|c pin IH]; [done|exact (f_equal (String c) IH)]).
  apply prefix_app.
Qed.
#[local] Instance fx_argon : Argon2 := {|
  argon2_hash := fx_argon_hash;
  argon2_verify := fun h pin => String.prefix (pin +:+ ":") h;
  argon2_correct := fx_argon_correct
|}.
(** The Risk service keeps what it is sent. *)
#[local] Instance fx_sink : RiskSink (list SecurityEventV1) := {| send_event := fun b env => env ++ [b] |}.
(** An authenticator whose every response verifies, with a counter of one. *)
#[local] Instance fx_webauthn : WebAuthn := {|
  verifyRegistrationResponse := fun credential _ _ _ =>
    Some (true, Some (mkRegistration (rg_id credential) "key" 0 ["internal"%string] "singleDevice" false));
  verifyAuthenticationResponse := fun _ _ _ _ _ => Some (true, 1)
|}.

Definition fx_identity_config : IdentityConfig :=
  mkIdentityConfig "development" "127.0.0.1" 4101 "postgresql://identity" "redis://127.0.0.1" "aegis:" "internal-token"
    "aegis_session" "aegis_csrf" 900 43200 300 60 5 5 true "AEGIS Shield" "localhost" "https://localhost" "field-key" 3 300
    "http://127.0.0.1:4105" "identity-source-token" 2000.
Definition fx_client : RequestContext := mkContext fx_correlation "ip-hash" None.
Definition fx_phone : string := "+94771234567".
Definition fx_pin : string := "274913".
Abbreviation IdentitySystem := (System IdentityStore (list SecurityEventV1)).
Definition answered (now : Z) (r : IdentityRequest) (s : IdentitySystem) : IdentitySystem :=
  (serve_identity fx_identity_config now fx_client r s).2.

(** A customer asks for a code, verifies it and sets a PIN. *)
Definition ask_code : IdentityRequest := RequestOnboarding (fx_id 500) (fx_id 501) 42 fx_phone SI.
Definition verify_code : IdentityRequest := VerifyOnboarding (fx_id 502) "enrollment-token" fx_phone (fx_id 501) "000042".
Definition set_pin : IdentityRequest :=
  CreatePin (fx_id 503) "session-1" "csrf-1" "salt" "enrollment-token" fx_pin (Some "device-1"%string).
Definition requested : IdentitySystem := Eval vm_compute in answered fx_now ask_code (alone emptyIdentity []).
Definition verified : IdentitySystem := Eval vm_compute in answered (fx_now + 1000) verify_code requested.
Definition enrolled : IdentitySystem := Eval vm_compute in answered (fx_now + 2000) set_pin verified.
Definition enrolled_store : IdentityStore := Eval vm_compute in sdb enrolled.
Definition fx_user : User := Eval vm_compute in
  match users enrolled_store with u :: _ => u | [] => mkUser "" "" EN 0 USER_PENDING 0 None 0 None 0 None end.
Definition fx_credential : PinCredential := Eval vm_compute in
  match pinCredentials enrolled_store with p :: _ => p | [] => mkPinCredential "" "" "" 0 None end.
Example enrolled_is : usr_status fx_user = USER_ACTIVE /\ pin_userId fx_credential = usr_id fx_user /\
  usr_preferredLanguage fx_user = SI /\ length (authEvents enrolled_store) = 3%nat.
Proof. vm_compute. repeat split. Qed.

Lemma empty_identity_inv : IdentityInv emptyIdentity.
Proof. split; cbn; try apply NoDup_nil_2; intros x; intros; by destruct (not_elem_of_nil x). Qed.
Lemma answered_step st0 env0 now r s s' : sothers s = [] -> answered now r s = s' ->
  identity_history fx_identity_config st0 env0 (sdb s) (senv s) -> identity_history fx_identity_config st0 env0 (sdb s') (senv s').
Proof.
  intros Ho <- Hh. destruct s as [st env others]. cbn in Ho. subst others.
  exact (identity_step fx_identity_config st0 env0 now fx_client r st env [] Hh (Forall_nil_2 _)).
Qed.
(** The history that enrols the customer. *)
Lemma enrolling : identity_history fx_identity_config emptyIdentity [] enrolled_store (senv enrolled).
Proof.
  apply (answered_step _ _ (fx_now + 2000) set_pin verified enrolled); [reflexivity|vm_compute; reflexivity|].
  apply (answered_step _ _ (fx_now + 1000) verify_code requested verified); [reflexivity|vm_compute; reflexivity|].
  apply (answered_step _ _ fx_now ask_code (alone emptyIdentity []) requested); [reflexivity|vm_compute; reflexivity|].
  apply identity_start.
Qed.
Lemma identity_history_safe_witness : IdentityInv enrolled_store /\ pins_grow emptyIdentity enrolled_store.
Proof.
  apply (identity_history_safe fx_identity_config emptyIdentity [] enrolled_store (senv enrolled));
    [apply empty_identity_inv|apply enrolling].
Defined.

(** ** One-time codes *)
Definition fx_challenge : StoredOtpChallenge := Eval vm_compute in
  match redis_get fx_now (challenge_key fx_identity_config (fx_id 501)) (id_redis (sdb requested)) with
  | Some t => default (mkChallenge "" "" "" 0 None None) (v ← JSON_parse t; challenge_of_json v)
  | None => mkChallenge "" "" "" 0 None None
  end.
Definition bad_guess : Guess := mkGuess (fx_now + 1000) fx_phone "000043" ONBOARDING.
Definition good_guess : Guess := mkGuess (fx_now + 2000) fx_phone "000042" ONBOARDING.
Abbreviation guessing n := (guess_all (Env := list SecurityEventV1) fx_identity_config (fx_id 501) (replicate n bad_guess)
  (alone (sdb requested) [])).
(** After four wrong codes the right one is still good, once; after five it is not. *)
Lemma otp_guesses_witness :
  (exists c' s', guess fx_identity_config (fx_id 501) good_guess (guessing 4) = (Ok c', s') /\
     guess fx_identity_config (fx_id 501) good_guess s' = (Err invalidOtp, s')) /\
  guess fx_identity_config (fx_id 501) good_guess (guessing 5) = (Err invalidOtp, guessing 5).
Proof.
  assert (Hs : stored (sdb requested) (challenge_key fx_identity_config (fx_id 501)) (text (challenge_json fx_challenge)) (fx_now + 300000))
    by (vm_compute; reflexivity).
  assert (Hw : forall n, Forall (fun g => gu_now g < fx_now + 300000 /\ fits_challenge fx_identity_config fx_challenge g = false)
    (replicate n bad_guess)) by (intros n; apply Forall_replicate; split; [reflexivity|vm_compute; reflexivity]).
  split.
  - destruct (otp_guesses (Env := list SecurityEventV1) fx_identity_config (fx_id 501) (replicate 4 bad_guess) _ fx_challenge _ [] Hs)
      as [_ Hright]; [reflexivity|apply Hw|].
    destruct (Hright eq_refl good_guess) as (c' & s' & Hrun & _ & Hspent); [reflexivity|vm_compute; reflexivity|].
    exists c', s'. split; [exact Hrun|apply Hspent].
  - destruct (otp_guesses (Env := list SecurityEventV1) fx_identity_config (fx_id 501) (replicate 5 bad_guess) _ fx_challenge _ [] Hs)
      as [Hspent _]; [reflexivity|apply Hw|]. apply Hspent. discriminate.
Defined.

(** ** Sessions *)
Lemma session_life_witness :
  let s : IdentitySystem := use_all fx_identity_config "session-9" [fx_now + 600000; fx_now + 1200000]
    (session_create fx_identity_config fx_now "session-9" "csrf-9" (usr_id fx_user) PASSKEY None (alone enrolled_store [] : IdentitySystem)).2 in
  (exists v, ss_userId v = usr_id fx_user /\
     requireCsrf fx_identity_config (fx_now + 2000000) "session-9" "csrf-9" s = (Ok v, s)) /\
  (requireCsrf fx_identity_config (fx_now + 43200000) "session-9" "csrf-9" s).1 = Err unauthenticated.
Proof.
  destruct (session_life (Env := list SecurityEventV1) fx_identity_config fx_now "session-9" "csrf-9" (usr_id fx_user) PASSKEY None
    [fx_now + 600000; fx_now + 1200000] enrolled_store []) as [Hlive Hdead].
  - vm_compute. split; [discriminate|reflexivity].
  - vm_compute. repeat split; discriminate.
  - cbv zeta. split.
    + destruct (Hlive (fx_now + 2000000) "csrf-9"%string) as (v & Hu & Hrun); [reflexivity|discriminate|].
      exists v. split; [exact Hu|exact Hrun].
    + apply Hdead. discriminate.
Defined.

(** ** PINs *)
Lemma fx_account : pin_account enrolled_store fx_phone fx_user fx_credential.
Proof.
  split; [apply (identity_aged _ _ _ _ _ empty_identity_inv enrolling)|..]; try reflexivity; by apply list_elem_of_here.
Qed.
Definition wrong_attempt (n : Z) : Attempt := mkAttempt (fx_now + n * 1000) (fx_id (600 + n)) "000000" fx_client.
Definition right_attempt (n : Z) : Attempt := mkAttempt (fx_now + n * 1000) (fx_id (600 + n)) fx_pin fx_client.
Definition attempting (n : nat) : IdentitySystem :=
  attempt_all fx_phone (map (fun i => wrong_attempt (Z.of_nat i)) (seq 3 n)) (alone enrolled_store []).
Lemma pin_lockout_witness :
  (exists u, attempt fx_phone (right_attempt 9) (attempting 4) = (Ok u, attempting 4)) /\
  attempt fx_phone (right_attempt 9) (attempting 5) = (Err invalidCredentials, attempting 5).
Proof.
  assert (Hw : forall l, Forall (wrong fx_credential) (map (fun i => wrong_attempt (Z.of_nat i)) l))
    by (intros l; apply Forall_map, Forall_true; intros i; vm_compute; reflexivity).
  split.
  - destruct (pin_lockout fx_phone fx_credential enrolled_store fx_user [] _ fx_account eq_refl eq_refl eq_refl (Hw (seq 3 4)))
      as [Hright _].
    destruct (Hright eq_refl (right_attempt 9)) as (u & Hrun & _); [vm_compute; reflexivity|]. exists u. exact Hrun.
  - destruct (pin_lockout fx_phone fx_credential enrolled_store fx_user [] _ fx_account eq_refl eq_refl eq_refl (Hw (seq 3 5)))
      as [_ Hlocked].
    apply (Hlocked eq_refl (right_attempt 9) (wrong_attempt 7)); reflexivity.
Defined.

(** ** What two requests at once can do *)
(** A code verified by two requests at once opens both: the second reads it
    before the first deletes it. *)
Definition verifies (now : Z) (s : IdentitySystem) := otp_verify fx_identity_config now fx_phone (fx_id 501) "000042" ONBOARDING s.
Definition ok_result {E A S} (x : result E A * S) : bool := match x.1 with Ok _ => true | Err _ => false end.
Lemma otp_verified_twice :
  let second := fun db => sdb (verifies (fx_now + 1000) (alone db [])).2 in
  ok_result (verifies (fx_now + 1000) (alone (sdb requested) [])) = true /\
  ok_result (verifies (fx_now + 1000) (mkSystem (sdb requested) [] [id; second])) = true.
Proof. vm_compute. split; reflexivity. Qed.
(** Wrong PINs counted from the same reading count once. *)
Definition failures (s : IdentitySystem) : list Z := map usr_failedLoginCount (users (sdb s)).
Lemma wrong_pins_counted_once :
  let second := fun db => sdb (attempt fx_phone (wrong_attempt 3) (alone db ([] : list SecurityEventV1))).2 in
  failures (attempt fx_phone (wrong_attempt 3) (mkSystem enrolled_store [] [id; second])).2 = [1].
Proof. vm_compute. reflexivity. Qed.
