(* ===== verification/SabclWire.v ===== *)
(** * The wire format of SABCL/1: error codes, canonical encoding, padding and
    envelopes ([packages/sabcl/src/protocol]) *)

From Stdlib Require Import ZArith Lia Ascii String.
From stdpp Require Import base strings list.
From S2P Require Import Prelude.
From S2P Require Import Js.
From S2P Require Import Codec.
From S2P Require Import Regex.
From S2P Require Import RiskTypes.

Open Scope Z_scope.

(** ** Failures ([errors.ts]); [detail], which never leaves the process, is left out *)
Inductive SabclErrorCode :=
| SABCL_MALFORMED | SABCL_UNSUPPORTED_VERSION | SABCL_OVERSIZED | SABCL_EXPIRED | SABCL_REPLAYED
| SABCL_SIGNATURE_INVALID | SABCL_DECRYPTION_FAILED | SABCL_UNKNOWN_SENDER | SABCL_UNKNOWN_RECIPIENT
| SABCL_KEY_REVOKED | SABCL_ROUTE_INVALID | SABCL_HOP_LIMIT_EXCEEDED | SABCL_RECIPIENT_UNAVAILABLE | SABCL_NOT_CONFIGURED.
#[export] Instance sabcl_code_eq_dec : EqDecision SabclErrorCode.
Proof. solve_decision. Defined.
Inductive SabclErr :=
| SabclError (code : SabclErrorCode)
| SabclJsError (name : string).              (* RangeError, TypeError, ZodError *)

Definition SABCL_ERROR_CODES : list SabclErrorCode :=
  [SABCL_MALFORMED; SABCL_UNSUPPORTED_VERSION; SABCL_OVERSIZED; SABCL_EXPIRED; SABCL_REPLAYED; SABCL_SIGNATURE_INVALID;
   SABCL_DECRYPTION_FAILED; SABCL_UNKNOWN_SENDER; SABCL_UNKNOWN_RECIPIENT; SABCL_KEY_REVOKED; SABCL_ROUTE_INVALID;
   SABCL_HOP_LIMIT_EXCEEDED; SABCL_RECIPIENT_UNAVAILABLE; SABCL_NOT_CONFIGURED].
Definition sabcl_code_text (c : SabclErrorCode) : string :=
  match c with
  | SABCL_MALFORMED => "SABCL_MALFORMED" | SABCL_UNSUPPORTED_VERSION => "SABCL_UNSUPPORTED_VERSION"
  | SABCL_OVERSIZED => "SABCL_OVERSIZED" | SABCL_EXPIRED => "SABCL_EXPIRED" | SABCL_REPLAYED => "SABCL_REPLAYED"
  | SABCL_SIGNATURE_INVALID => "SABCL_SIGNATURE_INVALID" | SABCL_DECRYPTION_FAILED => "SABCL_DECRYPTION_FAILED"
  | SABCL_UNKNOWN_SENDER => "SABCL_UNKNOWN_SENDER" | SABCL_UNKNOWN_RECIPIENT => "SABCL_UNKNOWN_RECIPIENT"
  | SABCL_KEY_REVOKED => "SABCL_KEY_REVOKED" | SABCL_ROUTE_INVALID => "SABCL_ROUTE_INVALID"
  | SABCL_HOP_LIMIT_EXCEEDED => "SABCL_HOP_LIMIT_EXCEEDED" | SABCL_RECIPIENT_UNAVAILABLE => "SABCL_RECIPIENT_UNAVAILABLE"
  | SABCL_NOT_CONFIGURED => "SABCL_NOT_CONFIGURED"
  end.
(** [SABCL_ERROR_CODES.includes(code) ? code : undefined] *)
Definition known_code (s : string) : option SabclErrorCode :=
  find (fun c => String.eqb (sabcl_code_text c) s) SABCL_ERROR_CODES.
Definition toSafeResponse (c : SabclErrorCode) : json :=
  JObj [("error", JObj [("code", JStr (sabcl_code_text c))])]%string.
(** What [toSabclError] makes of anything thrown. *)
Definition toSabclError (e : SabclErr) (fallback : SabclErrorCode) : SabclErrorCode :=
  match e with SabclError c => c | SabclJsError _ => fallback end.

Abbreviation Sabcl := (result SabclErr).
Definition refuse {A} (c : SabclErrorCode) : Sabcl A := Err (SabclError c).
Definition refuse_when (b : bool) (c : SabclErrorCode) : Sabcl unit := if b then refuse c else mret tt.
Definition demand {A} (o : option A) (e : SabclErr) : Sabcl A := match o with Some a => mret a | None => Err e end.

(** ** Constants ([version.ts]) *)
Definition SABCL_PROTOCOL_VERSION : string := "SABCL/1".
Module SABCL_DOMAIN.
Definition requestKey : string := "SABCL/1 request-key".
Definition responseKey : string := "SABCL/1 response-key".
Definition requestSignature : string := "SABCL/1 request-signature".
Definition responseSignature : string := "SABCL/1 response-signature".
Definition routeToken : string := "SABCL/1 route-token".
Definition serviceHandle : string := "SABCL/1 service-handle".
End SABCL_DOMAIN.
Definition SABCL_KEY_BYTES : nat := 32.
Definition SABCL_TAG_BYTES : nat := 16.
Definition SABCL_ROUTE_TOKEN_BYTES : nat := 32.
Definition SABCL_MAX_PLAINTEXT_BYTES : Z := 65536.
Definition SABCL_MAX_ENVELOPE_BYTES : Z := 262144.
Definition SABCL_MAX_HOP_LIMIT : Z := 4.
Definition SABCL_DEFAULT_HOP_LIMIT : Z := 2.
Definition SABCL_MAX_TTL_SECONDS : Z := 120.
Definition SABCL_DEFAULT_TTL_SECONDS : Z := 30.
Definition SABCL_CLOCK_SKEW_SECONDS : Z := 5.

(** ** Bytes: a buffer is a string of bytes *)
Definition byte_length (s : string) : Z := Z.of_nat (String.length s).
Definition max_safe_integer : Z := 9007199254740991.
Definition safe_integer (z : Z) : bool := (- max_safe_integer <=? z) && (z <=? max_safe_integer).
(** [n] in [k] bytes, the most significant first, and back. *)
Fixpoint be_bytes (k : nat) (n : Z) : string :=
  match k with
  | O => ""
  | S k => String (byte_char (n / 256 ^ Z.of_nat k mod 256)) (be_bytes k n)
  end.
Fixpoint be_value (acc : Z) (s : string) : Z :=
  match s with EmptyString => acc | String c s => be_value (acc * 256 + code c) s end.
Definition range_error : SabclErr := SabclJsError "RangeError".
Definition writeUInt32BE (n : Z) : Sabcl string :=
  if (0 <=? n) && (n <? 2 ^ 32) then mret (be_bytes 4 n) else Err range_error.

(** ** Canonical encoding ([canonical.ts]) *)
Fixpoint canonicalEncode (fields : list string) : Sabcl string :=
  match fields with
  | [] => mret ""%string
  | f :: fields =>
      length ← writeUInt32BE (byte_length f);
      rest ← canonicalEncode fields;
      mret (length +:+ f +:+ rest)
  end.
Definition canonicalUInt (value : Z) : Sabcl string :=
  if negb (safe_integer value) || (value <? 0) then Err range_error else mret (be_bytes 8 value).

(** ** Padding ([padding.ts], [envelope.ts]) *)
Definition SABCL_PADDING_BUCKETS : list Z := [512; 1024; 2048; 4096; 8192; 16384; 32768; 65536].
Definition LENGTH_PREFIX_BYTES : nat := 4.
Definition paddingBucketFor (length : Z) : Sabcl Z :=
  demand (find (fun size => length <=? size) SABCL_PADDING_BUCKETS) range_error.
Definition zeros (n : Z) : string := repeat_str (String (ascii_of_nat 0) "") (Z.to_nat n).
(** The padded payload and its bucket. *)
Definition padPayload (payload : string) : Sabcl (string * Z) :=
  _ ← refuse_when (SABCL_MAX_PLAINTEXT_BYTES <? byte_length payload) SABCL_OVERSIZED;
  bucket ← paddingBucketFor (byte_length payload + 4);
  prefix ← writeUInt32BE (byte_length payload);
  mret (prefix +:+ payload +:+ zeros (bucket - 4 - byte_length payload), bucket).
Definition unpadPayload (padded : string) : Sabcl string :=
  _ ← refuse_when (byte_length padded <? 4) SABCL_MALFORMED;
  let length := be_value 0 (str_take LENGTH_PREFIX_BYTES padded) in
  _ ← refuse_when (byte_length padded - 4 <? length) SABCL_MALFORMED;
  mret (slice LENGTH_PREFIX_BYTES (LENGTH_PREFIX_BYTES + Z.to_nat length) padded).

(** ** Envelopes ([envelope.ts]) *)
Definition base64Url (max : Z) (s : string) : bool :=
  (1 <=? byte_length s) && (byte_length s <=? max)
  && str_all (fun c => alnum c || Ascii.eqb c "_" || Ascii.eqb c "-") s.
Definition lower_key : ascii -> bool := fun c => is_lower c || is_digit c || Ascii.eqb c "-".
(** [/^[a-z][a-z0-9-]*\.v[0-9]+$/u] *)
Definition KEY_ID_PATTERN : rx := (Cls is_lower · Star (Cls lower_key) · chr "." · chr "v" · digit · Star digit)%rx.
Definition sabclKeyId (s : string) : bool := len_between 3 64 s && rx_match KEY_ID_PATTERN s.
Definition zod_int (z : Z) : bool := safe_integer z.

Record SabclEnvelope := mkEnvelope {
  en_v : string; en_mid : string; en_rt : string; en_skid : string; en_rkid : string; en_epk : string;
  en_iat : Z; en_exp : Z; en_n : string; en_hl : Z; en_pad : Z; en_ct : string; en_tag : string; en_sig : string
}.
Record SabclResponseEnvelope := mkResponseEnvelope {
  rv_v : string; rv_cid : string; rv_skid : string; rv_n : string; rv_pad : Z; rv_ct : string; rv_tag : string; rv_sig : string
}.
Definition envelope_json (e : SabclEnvelope) : json :=
  JObj [("v", JStr (en_v e)); ("mid", JStr (en_mid e)); ("rt", JStr (en_rt e)); ("skid", JStr (en_skid e));
        ("rkid", JStr (en_rkid e)); ("epk", JStr (en_epk e)); ("iat", JNum (en_iat e)); ("exp", JNum (en_exp e));
        ("n", JStr (en_n e)); ("hl", JNum (en_hl e)); ("pad", JNum (en_pad e)); ("ct", JStr (en_ct e));
        ("tag", JStr (en_tag e)); ("sig", JStr (en_sig e))]%string.
Definition response_envelope_json (e : SabclResponseEnvelope) : json :=
  JObj [("v", JStr (rv_v e)); ("cid", JStr (rv_cid e)); ("skid", JStr (rv_skid e)); ("n", JStr (rv_n e));
        ("pad", JNum (rv_pad e)); ("ct", JStr (rv_ct e)); ("tag", JStr (rv_tag e)); ("sig", JStr (rv_sig e))]%string.
(** [.strict()]: no other keys. *)
Definition only_keys (keys : list string) (v : json) : bool :=
  match v with JObj fs => forallb (fun '(k, _) => existsb (String.eqb k) keys) fs | _ => false end.
Definition string_field (k : string) (v : json) : option string := match jfield k v with JStr s => Some s | _ => None end.
Definition number_field (k : string) (v : json) : option Z := match jfield k v with JNum z => Some z | _ => None end.
Definition envelope_header_ok (e : SabclEnvelope) : bool :=
  String.eqb (en_v e) SABCL_PROTOCOL_VERSION && base64Url 32 (en_mid e) && base64Url 64 (en_rt e)
  && sabclKeyId (en_skid e) && sabclKeyId (en_rkid e) && base64Url 64 (en_epk e)
  && (zod_int (en_iat e) && (0 <=? en_iat e)) && (zod_int (en_exp e) && (0 <=? en_exp e)) && base64Url 24 (en_n e)
  && ((0 <=? en_hl e) && (en_hl e <=? SABCL_MAX_HOP_LIMIT)) && (zod_int (en_pad e) && (0 <? en_pad e)).
Definition envelope_ok (e : SabclEnvelope) : bool :=
  envelope_header_ok e && base64Url SABCL_MAX_ENVELOPE_BYTES (en_ct e) && base64Url 32 (en_tag e) && base64Url 128 (en_sig e).
Definition sabclEnvelopeSchema (raw : json) : option SabclEnvelope :=
  v ← string_field "v" raw; mid ← string_field "mid" raw; rt ← string_field "rt" raw; skid ← string_field "skid" raw;
  rkid ← string_field "rkid" raw; epk ← string_field "epk" raw; iat ← number_field "iat" raw; exp ← number_field "exp" raw;
  n ← string_field "n" raw; hl ← number_field "hl" raw; pad ← number_field "pad" raw; ct ← string_field "ct" raw;
  tag ← string_field "tag" raw; sig ← string_field "sig" raw;
  let e := mkEnvelope v mid rt skid rkid epk iat exp n hl pad ct tag sig in
  if only_keys ["v"; "mid"; "rt"; "skid"; "rkid"; "epk"; "iat"; "exp"; "n"; "hl"; "pad"; "ct"; "tag"; "sig"]%string raw && envelope_ok e
  then Some e else None.
Definition response_header_fields_ok (e : SabclResponseEnvelope) : bool :=
  String.eqb (rv_v e) SABCL_PROTOCOL_VERSION && base64Url 32 (rv_cid e) && sabclKeyId (rv_skid e) && base64Url 24 (rv_n e)
  && (zod_int (rv_pad e) && (0 <? rv_pad e)).
Definition response_envelope_ok (e : SabclResponseEnvelope) : bool :=
  response_header_fields_ok e && base64Url SABCL_MAX_ENVELOPE_BYTES (rv_ct e) && base64Url 32 (rv_tag e) && base64Url 128 (rv_sig e).
Definition sabclResponseEnvelopeSchema (raw : json) : option SabclResponseEnvelope :=
  v ← string_field "v" raw; cid ← string_field "cid" raw; skid ← string_field "skid" raw; n ← string_field "n" raw;
  pad ← number_field "pad" raw; ct ← string_field "ct" raw; tag ← string_field "tag" raw; sig ← string_field "sig" raw;
  let e := mkResponseEnvelope v cid skid n pad ct tag sig in
  if only_keys ["v"; "cid"; "skid"; "n"; "pad"; "ct"; "tag"; "sig"]%string raw && response_envelope_ok e then Some e else None.
Definition canonicalRequestHeader (e : SabclEnvelope) : Sabcl string :=
  iat ← canonicalUInt (en_iat e); exp ← canonicalUInt (en_exp e); hl ← canonicalUInt (en_hl e); pad ← canonicalUInt (en_pad e);
  canonicalEncode [en_v e; en_mid e; en_rt e; en_skid e; en_rkid e; en_epk e; iat; exp; en_n e; hl; pad].
Definition canonicalResponseHeader (e : SabclResponseEnvelope) : Sabcl string :=
  pad ← canonicalUInt (rv_pad e);
  canonicalEncode [rv_v e; rv_cid e; rv_skid e; rv_n e; pad].

(** ** The inner payload ([payload.ts]) *)
Record SabclInnerRequest := mkInnerRequest {
  iq_op : string;
  iq_method : string;
  iq_path : string;
  iq_body : option json;
  iq_actor : option (option string);           (* actor?.customerId *)
  iq_correlationId : string
}.
Record SabclInnerResponse := mkInnerResponse { ir_status : Z; ir_body : option json }.
(** Words of lower case letters, digits and hyphens, at least two, with dots between. *)
Definition operation_rx : rx :=
  let word := (Cls is_lower · Star (Cls lower_key))%rx in let more := (chr "." · word)%rx in (word · more · Star more)%rx.
Definition startsWith (prefix s : string) : bool := String.prefix prefix s.
Definition inner_request_ok (r : SabclInnerRequest) : bool :=
  len_between 3 64 (iq_op r) && rx_match operation_rx (iq_op r)
  && (String.eqb (iq_method r) "GET" || String.eqb (iq_method r) "POST")
  && len_between 1 2048 (iq_path r) && startsWith "/" (iq_path r)
  && match iq_actor r with Some (Some id) => len_between 1 128 id | _ => true end
  && len_between 1 128 (iq_correlationId r).
Definition optional_json (k : string) (o : option json) : list (string * json) := match o with Some v => [(k, v)] | None => [] end.
Definition inner_request_json (r : SabclInnerRequest) : json :=
  JObj ([("op", JStr (iq_op r)); ("method", JStr (iq_method r)); ("path", JStr (iq_path r))]%string
        ++ optional_json "body" (iq_body r)
        ++ match iq_actor r with
           | Some a => [("actor"%string, JObj match a with Some id => [("customerId"%string, JStr id)] | None => [] end)]
           | None => []
           end
        ++ [("correlationId"%string, JStr (iq_correlationId r))]).
Definition present (v : json) : option json := match v with JUndef => None | _ => Some v end.
Definition actor_field (v : json) : option (option (option string)) :=
  match jfield "actor" v with
  | JUndef => Some None
  | JObj fs =>
      if negb (only_keys ["customerId"%string] (JObj fs)) then None
      else match jfield "customerId" (JObj fs) with
           | JUndef => Some (Some None)
           | JStr id => Some (Some (Some id))
           | _ => None
           end
  | _ => None
  end.
Definition sabclInnerRequestSchema (raw : json) : option SabclInnerRequest :=
  op ← string_field "op" raw; method ← string_field "method" raw; path ← string_field "path" raw;
  actor ← actor_field raw; correlationId ← string_field "correlationId" raw;
  let r := mkInnerRequest op method path (present (jfield "body" raw)) actor correlationId in
  if only_keys ["op"; "method"; "path"; "body"; "actor"; "correlationId"]%string raw && inner_request_ok r then Some r else None.
Definition inner_response_json (r : SabclInnerResponse) : json :=
  JObj (("status"%string, JNum (ir_status r)) :: optional_json "body" (ir_body r)).
Definition sabclInnerResponseSchema (raw : json) : option SabclInnerResponse :=
  status ← number_field "status" raw;
  if only_keys ["status"; "body"]%string raw && ((100 <=? status) && (status <=? 599))
  then Some (mkInnerResponse status (present (jfield "body" raw))) else None.

(** ** Statuses ([sabcl-recipient.ts], [statusForCode]) *)
Definition statusForCode (c : SabclErrorCode) : Z :=
  match c with
  | SABCL_OVERSIZED => 413
  | SABCL_REPLAYED | SABCL_EXPIRED => 409
  | SABCL_ROUTE_INVALID | SABCL_HOP_LIMIT_EXCEEDED => 403
  | SABCL_RECIPIENT_UNAVAILABLE | SABCL_NOT_CONFIGURED => 503
  | SABCL_MALFORMED | SABCL_UNSUPPORTED_VERSION => 400
  | _ => 401
  end.
