(* ===== verification/SabclCrypto.v ===== *)
(** * Keys, sealing and route tokens of SABCL
    ([packages/sabcl/src/crypto], [protocol/seal.ts], [protocol/route-token.ts]) *)

From Stdlib Require Import ZArith Lia Ascii String.
From stdpp Require Import base strings list.
From S2P Require Import Prelude.
From S2P Require Import Js.
From S2P Require Import Codec.
From S2P Require Import Regex.
From S2P Require Import RiskTypes.
From S2P Require Import SabclWire.

Open Scope Z_scope.

(** The primitives of node:crypto and OpenSSL, on raw keys. [importable]: the raw
    bytes a curve accepts as a key; [x25519] fails on low-order points. The laws
    are those of Diffie-Hellman, Ed25519 and AES-256-GCM on their honest use. *)
Class SabclPrimitives := {
  importable : string -> string -> bool;                   (* kind of key, raw bytes *)
  x25519_public : string -> string;
  x25519 : string -> string -> option string;              (* private, public *)
  ed25519_public : string -> string;
  ed25519_sign : string -> string -> string;
  ed25519_verify : string -> string -> string -> bool;     (* public, message, signature *)
  hkdf_sha256 : string -> string -> string -> string;      (* secret, salt, info *)
  aes_gcm_seal : string -> string -> string -> string -> string * string;
  aes_gcm_open : string -> string -> string -> string -> string -> option string;
  hmac_digest : string -> string -> string;
  sha256_hex : string -> string;
  x25519_agrees : forall a b, x25519 a (x25519_public b) = x25519 b (x25519_public a);
  x25519_public_ok : forall k, importable "x25519-public" (x25519_public k) = true /\ String.length (x25519_public k) = 32%nat;
  ed25519_correct : forall k m, ed25519_verify (ed25519_public k) m (ed25519_sign k m) = true;
  ed25519_length : forall k m, String.length (ed25519_sign k m) = 64%nat;
  aes_gcm_correct : forall k n p a, let '(c, t) := aes_gcm_seal k n p a in aes_gcm_open k n c t a = Some p;
  aes_gcm_lengths : forall k n p a, let '(c, t) := aes_gcm_seal k n p a in
    String.length c = String.length p /\ String.length t = 16%nat;
  hmac_length : forall k m, String.length (hmac_digest k m) = 32%nat
}.

(** ** Primitives ([primitives.ts]) *)
(** [Buffer.from] skips what is no base64url; encoding again finds it out. *)
Definition fromBase64Url (value : string) : Sabcl string :=
  if String.eqb value "" then refuse SABCL_MALFORMED
  else let decoded := base64url_decode value in
       if String.eqb (base64url_encode decoded) value then mret decoded else refuse SABCL_MALFORMED.
Definition timingSafeBytesEqual : string -> string -> bool := String.eqb.
Section Primitives.
Context {prim : SabclPrimitives}.
Definition deriveSharedSecret (private public : string) : Sabcl string :=
  demand (x25519 private public) (SabclError SABCL_DECRYPTION_FAILED).
Definition deriveKey (sharedSecret salt info : string) : string := hkdf_sha256 sharedSecret salt info.
Definition aeadOpen (key nonce ciphertext tag additionalData : string) : Sabcl string :=
  _ ← refuse_when (negb (String.length tag =? SABCL_TAG_BYTES)%nat) SABCL_DECRYPTION_FAILED;
  demand (aes_gcm_open key nonce ciphertext tag additionalData) (SabclError SABCL_DECRYPTION_FAILED).
(** The raw key of its base64url text. *)
Definition importKey (material type : string) : Sabcl string :=
  raw ← fromBase64Url material;
  _ ← refuse_when (negb (String.length raw =? 32)%nat) SABCL_MALFORMED;
  _ ← refuse_when (negb (importable type raw)) SABCL_MALFORMED;
  mret raw.
End Primitives.

(** ** Keyrings ([keyring.ts]) *)
Record SabclPrivateIdentity := mkPrivateIdentity {
  pi_keyId : string;
  pi_service : string;
  pi_encryptionPrivateKey : string;
  pi_signingPrivateKey : string;
  pi_notAfter : option Z
}.
Record SabclPublicIdentity := mkPublicIdentity {
  pu_keyId : string;
  pu_service : string;
  pu_encryptionPublicKey : string;
  pu_signingPublicKey : string;
  pu_revoked : bool;
  pu_notAfter : option Z
}.
(** The text before the last dot, and what follows it. *)
Fixpoint split_last_dot (s : string) : option (string * string) :=
  match s with
  | EmptyString => None
  | String c r => match split_last_dot r with
                  | Some (a, b) => Some (String c a, b)
                  | None => if Ascii.eqb c "." then Some (""%string, r) else None
                  end
  end.
Definition serviceOfKeyId (keyId : string) : Sabcl string :=
  _ ← refuse_when (negb (sabclKeyId keyId)) SABCL_MALFORMED;
  mret (from_option fst ""%string (split_last_dot keyId)).
(** The digits after [.v]; versions are small numbers. *)
Definition versionOfKeyId (keyId : string) : Z := BigInt (str_drop 1 (from_option snd ""%string (split_last_dot keyId))).

Record PrivateIdentityMaterial := mkPrivateMaterial {
  pm_keyId : string; pm_encryptionPrivateKey : string; pm_signingPrivateKey : string; pm_notAfter : option Z }.
Record PublicIdentityMaterial := mkPublicMaterial {
  um_keyId : string; um_encryptionPublicKey : string; um_signingPublicKey : string; um_revoked : option bool; um_notAfter : option Z }.
Definition parse_key_id (keyId : string) : Sabcl string := if sabclKeyId keyId then mret keyId else Err (SabclJsError "ZodError").

Section Keys.
Context {prim : SabclPrimitives}.
Definition loadPrivateIdentity (m : PrivateIdentityMaterial) : Sabcl SabclPrivateIdentity :=
  keyId ← parse_key_id (pm_keyId m);
  encryptionPrivateKey ← importKey (pm_encryptionPrivateKey m) "x25519-private";
  signingPrivateKey ← importKey (pm_signingPrivateKey m) "ed25519-private";
  service ← serviceOfKeyId keyId;
  mret (mkPrivateIdentity keyId service encryptionPrivateKey signingPrivateKey (pm_notAfter m)).
Definition loadPublicIdentity (m : PublicIdentityMaterial) : Sabcl SabclPublicIdentity :=
  keyId ← parse_key_id (um_keyId m);
  service ← serviceOfKeyId keyId;
  encryptionPublicKey ← importKey (um_encryptionPublicKey m) "x25519-public";
  signingPublicKey ← importKey (um_signingPublicKey m) "ed25519-public";
  mret (mkPublicIdentity keyId service encryptionPublicKey signingPublicKey (default false (um_revoked m)) (um_notAfter m)).
(** The public half of an identity, as [derivePublic] computes it. *)
Definition public_of (i : SabclPrivateIdentity) : SabclPublicIdentity :=
  mkPublicIdentity (pi_keyId i) (pi_service i) (x25519_public (pi_encryptionPrivateKey i))
    (ed25519_public (pi_signingPrivateKey i)) false (pi_notAfter i).
End Keys.

(** [peers] in the order the constructor sees them. *)
Record SabclKeyring := mkKeyring { kr_own : SabclPrivateIdentity; kr_peers : list SabclPublicIdentity }.
Definition find_peer (keyId : string) (l : list SabclPublicIdentity) : option SabclPublicIdentity :=
  find (fun p => String.eqb (pu_keyId p) keyId) l.
Fixpoint add_peers (peers added : list SabclPublicIdentity) : Sabcl (list SabclPublicIdentity) :=
  match peers with
  | [] => mret added
  | p :: peers => if bool_decide (is_Some (find_peer (pu_keyId p) added)) then refuse SABCL_NOT_CONFIGURED
                  else add_peers peers (added ++ [p])
  end.
Definition newKeyring (own : SabclPrivateIdentity) (peers : list SabclPublicIdentity) : Sabcl SabclKeyring :=
  l ← add_peers peers []; mret (mkKeyring own l).
Definition expired_key (notAfter : option Z) (now : Z) : bool := match notAfter with Some t => t <? now | None => false end.
Definition peer (ring : SabclKeyring) (keyId : string) (now : Z) : Sabcl SabclPublicIdentity :=
  match find_peer keyId (kr_peers ring) with
  | None => refuse SABCL_UNKNOWN_SENDER
  | Some p =>
      _ ← refuse_when (pu_revoked p) SABCL_KEY_REVOKED;
      _ ← refuse_when (expired_key (pu_notAfter p) now) SABCL_KEY_REVOKED;
      mret p
  end.
Definition live_key (now : Z) (p : SabclPublicIdentity) : bool := negb (pu_revoked p) && negb (expired_key (pu_notAfter p) now).
(** The first of the highest version: the head of the stable sort. *)
Definition newest (l : list SabclPublicIdentity) : option SabclPublicIdentity :=
  foldl (fun best p => match best with
                       | Some b => if versionOfKeyId (pu_keyId b) <? versionOfKeyId (pu_keyId p) then Some p else best
                       | None => Some p
                       end) None l.
Definition activePeerFor (ring : SabclKeyring) (service : string) (now : Z) : Sabcl SabclPublicIdentity :=
  demand (newest (List.filter (fun p => String.eqb (pu_service p) service && live_key now p) (kr_peers ring)))
    (SabclError SABCL_UNKNOWN_RECIPIENT).
Definition peerKeyIds (ring : SabclKeyring) : list string := sort_strings (map pu_keyId (kr_peers ring)).
Record RotationState := mkRotation { ro_service : string; ro_active : option string; ro_accepted : list string; ro_revoked : list string }.
Definition rotationState (ring : SabclKeyring) (now : Z) : list RotationState :=
  map (fun service =>
         let all := List.filter (fun p => String.eqb (pu_service p) service) (kr_peers ring) in
         mkRotation service (match activePeerFor ring service now with Ok p => Some (pu_keyId p) | Err _ => None end)
           (sort_strings (map pu_keyId (List.filter (live_key now) all)))
           (sort_strings (map pu_keyId (List.filter (fun p => negb (live_key now p)) all))))
    (sort_strings (unique (map pu_service (kr_peers ring)))).

(** ** Sealing and opening ([seal.ts]) *)
(** What a message draws: an identifier, a nonce and an ephemeral private key. *)
Record Freshness := mkFreshness { fr_messageId : string; fr_nonce : string; fr_ephemeral : string }.
Record SealedRequest := mkSealedRequest { sr_envelope : SabclEnvelope; sr_responseSecret : string }.
Record OpenedRequest := mkOpenedRequest {
  or_payload : json;
  or_messageId : string;
  or_senderKeyId : string;
  or_senderService : string;
  or_routeToken : string;
  or_responseSecret : string
}.
Definition json_text (v : json) : Sabcl string := demand (stringify v) (SabclJsError "TypeError").

Section Seal.
Context {prim : SabclPrimitives}.
Definition signing_input (domain aad ciphertext tag : string) : Sabcl string := canonicalEncode [domain; aad; ciphertext; tag].
Definition sealRequest (sender : SabclPrivateIdentity) (recipient : SabclPublicIdentity) (routeToken : string) (payload : json)
    (ttlSeconds hopLimit : option Z) (now : Z) (fresh : Freshness) : Sabcl SealedRequest :=
  let ttl := default SABCL_DEFAULT_TTL_SECONDS ttlSeconds in
  _ ← refuse_when (negb (safe_integer ttl) || (ttl <=? 0) || (SABCL_MAX_TTL_SECONDS <? ttl)) SABCL_MALFORMED;
  let hl := default SABCL_DEFAULT_HOP_LIMIT hopLimit in
  _ ← refuse_when (negb (safe_integer hl) || (hl <? 1) || (SABCL_MAX_HOP_LIMIT <? hl)) SABCL_MALFORMED;
  _ ← refuse_when (pu_revoked recipient) SABCL_KEY_REVOKED;
  _ ← refuse_when (expired_key (pi_notAfter sender) now) SABCL_KEY_REVOKED;
  serialised ← json_text payload;
  '(padded, bucket) ← padPayload serialised;
  let header ct tag sig :=
    mkEnvelope SABCL_PROTOCOL_VERSION (base64url_encode (fr_messageId fresh)) routeToken (pi_keyId sender) (pu_keyId recipient)
      (base64url_encode (x25519_public (fr_ephemeral fresh))) now (now + ttl) (base64url_encode (fr_nonce fresh)) hl bucket
      ct tag sig in
  aad ← canonicalRequestHeader (header "" "" "")%string;
  sharedSecret ← deriveSharedSecret (fr_ephemeral fresh) (pu_encryptionPublicKey recipient);
  info ← canonicalEncode [SABCL_DOMAIN.requestKey; aad];
  let '(ciphertext, tag) := aes_gcm_seal (deriveKey sharedSecret (fr_nonce fresh) info) (fr_nonce fresh) padded aad in
  input ← signing_input SABCL_DOMAIN.requestSignature aad ciphertext tag;
  let signature := ed25519_sign (pi_signingPrivateKey sender) input in
  let envelope := header (base64url_encode ciphertext) (base64url_encode tag) (base64url_encode signature) in
  if envelope_ok envelope then mret (mkSealedRequest envelope sharedSecret) else Err (SabclJsError "ZodError").
(** The JSON value of a padded plaintext. *)
Definition opened_json (padded : string) (pad : Z) : Sabcl json :=
  _ ← refuse_when (negb (byte_length padded =? pad)) SABCL_MALFORMED;
  payload ← unpadPayload padded;
  demand (JSON_parse payload) (SabclError SABCL_MALFORMED).
Definition fresh_at (now : Z) (e : SabclEnvelope) : Sabcl unit :=
  _ ← refuse_when (negb (String.eqb (en_v e) SABCL_PROTOCOL_VERSION)) SABCL_UNSUPPORTED_VERSION;
  _ ← refuse_when (en_exp e <? now) SABCL_EXPIRED;
  _ ← refuse_when (now + SABCL_CLOCK_SKEW_SECONDS <? en_iat e) SABCL_EXPIRED;
  refuse_when (SABCL_MAX_TTL_SECONDS <? en_exp e - en_iat e) SABCL_MALFORMED.
Definition openRequest (recipient : SabclPrivateIdentity) (ring : SabclKeyring) (e : SabclEnvelope) (now : Z) : Sabcl OpenedRequest :=
  _ ← fresh_at now e;
  _ ← refuse_when (negb (String.eqb (en_rkid e) (pi_keyId recipient))) SABCL_UNKNOWN_RECIPIENT;
  sender ← peer ring (en_skid e) now;
  aad ← canonicalRequestHeader e;
  ciphertext ← fromBase64Url (en_ct e);
  tag ← fromBase64Url (en_tag e);
  signature ← fromBase64Url (en_sig e);
  input ← signing_input SABCL_DOMAIN.requestSignature aad ciphertext tag;
  _ ← refuse_when (negb (ed25519_verify (pu_signingPublicKey sender) input signature)) SABCL_SIGNATURE_INVALID;
  ephemeralPublic ← importKey (en_epk e) "x25519-public";
  sharedSecret ← deriveSharedSecret (pi_encryptionPrivateKey recipient) ephemeralPublic;
  nonce ← fromBase64Url (en_n e);
  info ← canonicalEncode [SABCL_DOMAIN.requestKey; aad];
  padded ← aeadOpen (deriveKey sharedSecret nonce info) nonce ciphertext tag aad;
  payload ← opened_json padded (en_pad e);
  mret (mkOpenedRequest payload (en_mid e) (en_skid e) (pu_service sender) (en_rt e) sharedSecret).
Definition sealResponse (responder : SabclPrivateIdentity) (responseSecret correlationId : string) (payload : json) (nonce : string)
  : Sabcl SabclResponseEnvelope :=
  serialised ← json_text payload;
  '(padded, bucket) ← padPayload serialised;
  let header ct tag sig :=
    mkResponseEnvelope SABCL_PROTOCOL_VERSION correlationId (pi_keyId responder) (base64url_encode nonce) bucket ct tag sig in
  aad ← canonicalResponseHeader (header "" "" "")%string;
  info ← canonicalEncode [SABCL_DOMAIN.responseKey; aad];
  let '(ciphertext, tag) := aes_gcm_seal (deriveKey responseSecret nonce info) nonce padded aad in
  input ← signing_input SABCL_DOMAIN.responseSignature aad ciphertext tag;
  let signature := ed25519_sign (pi_signingPrivateKey responder) input in
  let envelope := header (base64url_encode ciphertext) (base64url_encode tag) (base64url_encode signature) in
  if response_envelope_ok envelope then mret envelope else Err (SabclJsError "ZodError").
Definition openResponse (responder : SabclPublicIdentity) (responseSecret expectedCorrelationId : string) (e : SabclResponseEnvelope)
  : Sabcl json :=
  _ ← refuse_when (negb (String.eqb (rv_v e) SABCL_PROTOCOL_VERSION)) SABCL_UNSUPPORTED_VERSION;
  _ ← refuse_when (negb (String.eqb (rv_cid e) expectedCorrelationId)) SABCL_MALFORMED;
  _ ← refuse_when (negb (String.eqb (rv_skid e) (pu_keyId responder))) SABCL_UNKNOWN_SENDER;
  aad ← canonicalResponseHeader e;
  ciphertext ← fromBase64Url (rv_ct e);
  tag ← fromBase64Url (rv_tag e);
  signature ← fromBase64Url (rv_sig e);
  input ← signing_input SABCL_DOMAIN.responseSignature aad ciphertext tag;
  _ ← refuse_when (negb (ed25519_verify (pu_signingPublicKey responder) input signature)) SABCL_SIGNATURE_INVALID;
  nonce ← fromBase64Url (rv_n e);
  info ← canonicalEncode [SABCL_DOMAIN.responseKey; aad];
  padded ← aeadOpen (deriveKey responseSecret nonce info) nonce ciphertext tag aad;
  opened_json padded (rv_pad e).
End Seal.

(** ** Route tokens ([route-token.ts]) *)
Definition ROUTE_ID_PATTERN : rx := let word := (Cls is_lower · Star (Cls lower_key))%rx in (word · chr "." · word)%rx.
Definition assertRouteId (routeId : string) : Sabcl unit := refuse_when (negb (rx_match ROUTE_ID_PATTERN routeId)) SABCL_ROUTE_INVALID.
Record SabclRoute := mkRoute { rt_routeId : string; rt_service : string; rt_destination : string; rt_revoked : option bool }.
(** [new URL(s).protocol], and a path resolved against a base: origin and text. *)
Class Urls := {
  url_protocol : string -> option string;
  url_resolve : string -> string -> option (string * string);
  url_origin : string -> option string
}.
Definition web_protocol (p : string) : bool := String.eqb p "http:" || String.eqb p "https:".
Definition SabclRouteTable : Type := list (string * SabclRoute).      (* Map, in the order of insertion *)
Section Routes.
Context {prim : SabclPrimitives} {urls : Urls}.
Definition deriveRouteToken (routeSecret routeId : string) : Sabcl string :=
  _ ← assertRouteId routeId;
  _ ← refuse_when (String.length routeSecret <? 32)%nat SABCL_NOT_CONFIGURED;
  mret (base64url_encode (str_take SABCL_ROUTE_TOKEN_BYTES (hmac_digest routeSecret (SABCL_DOMAIN.routeToken +:+ "|" +:+ routeId)))).
Fixpoint add_routes (routeSecret : string) (routes : list SabclRoute) (table : SabclRouteTable) : Sabcl SabclRouteTable :=
  match routes with
  | [] => mret table
  | route :: routes =>
      _ ← assertRouteId (rt_routeId route);
      protocol ← demand (url_protocol (rt_destination route)) (SabclJsError "TypeError");
      _ ← refuse_when (negb (web_protocol protocol)) SABCL_NOT_CONFIGURED;
      token ← deriveRouteToken routeSecret (rt_routeId route);
      _ ← refuse_when (bool_decide (is_Some (jget token table))) SABCL_NOT_CONFIGURED;
      add_routes routeSecret routes (table ++ [(token, route)])
  end.
Definition newRouteTable (routeSecret : string) (routes : list SabclRoute) : Sabcl SabclRouteTable :=
  match routes with [] => refuse SABCL_NOT_CONFIGURED | _ => add_routes routeSecret routes [] end.
End Routes.
Definition in_service (route : SabclRoute) : bool := negb (default false (rt_revoked route)).
(** Every candidate is compared; the last that matches wins. *)
Definition resolve_route (table : SabclRouteTable) (token : string) : Sabcl SabclRoute :=
  supplied ← match fromBase64Url token with Ok b => Ok b | Err _ => refuse SABCL_ROUTE_INVALID end;
  demand (foldl (fun found '(candidate, route) =>
                   if timingSafeBytesEqual supplied (base64url_decode candidate) && in_service route then Some route else found)
            None table) (SabclError SABCL_ROUTE_INVALID).
Definition liveRouteIds (table : SabclRouteTable) : list string :=
  sort_strings (map (fun e => rt_routeId e.2) (List.filter (fun e => in_service e.2) table)).
Definition destinations (table : SabclRouteTable) : list SabclRoute := map snd (List.filter (fun e => in_service e.2) table).
