(* ===== verification/SabclServices.v ===== *)
(** * The parties of SABCL: replay stores, recipients, the blind router and the
    client ([packages/sabcl/src/{replay,server,client,catalog,audit}],
    [services/sabcl-router/src]) *)

From Stdlib Require Import ZArith Lia Ascii String.
From stdpp Require Import base strings list gmap.
From S2P Require Import Prelude.
From S2P Require Import Js.
From S2P Require Import Codec.
From S2P Require Import Services.
From S2P Require Import Regex.
From S2P Require Import RiskTypes.
From S2P Require Import SabclWire.
From S2P Require Import SabclCrypto.

Open Scope Z_scope.

(** ** The catalogue ([capabilities.ts]) *)
Record SabclCapability := mkCapability { ca_operationPrefix : string; ca_methods : list string; ca_pathPatterns : list rx }.
Record CatalogueEntry := mkEntry { ce_routeId : string; ce_service : string; ce_capability : SabclCapability }.
Definition ID_rx : rx := rep_range 1 128 url_safe.
Definition query_char : ascii -> bool := fun c =>
  alnum c || bool_decide (c ∈ ["_"; "="; "&"; "%"; "."; ","; ":"; "-"]%char).
Definition QUERY_rx : rx := opt (chr "?" · rep_range 0 512 (Cls query_char)).
Definition SABCL_CAPABILITIES : list CatalogueEntry := (
  [mkEntry "identity.step-up" "identity" (mkCapability "identity.step-up" ["GET"; "POST"]
     [lit "/api/v1/auth/transfer-step-up"; lit "/api/v1/auth/session"]);
   mkEntry "ledger.accounts" "ledger" (mkCapability "ledger.accounts" ["GET"; "POST"]
     [lit "/internal/customer-accounts/default";
      lit "/internal/customers/" · ID_rx · lit "/accounts";
      lit "/internal/customer-accounts/" · ID_rx;
      lit "/internal/customer-accounts/" · ID_rx · lit "/balance";
      lit "/internal/customer-accounts/" · ID_rx · lit "/transactions" · QUERY_rx;
      lit "/internal/customer-accounts/" · ID_rx · lit "/transactions/" · ID_rx]);
   mkEntry "ledger.postings" "ledger" (mkCapability "ledger.postings" ["POST"]
     [lit "/internal/customer-transfers/preview"; lit "/internal/customer-transfers"]);
   mkEntry "payments.transfer" "payments" (mkCapability "payments.transfer" ["GET"; "POST"]
     [lit "/internal/transfer-policy"; lit "/internal/transfer-intents";
      lit "/internal/transfer-intents/" · ID_rx · lit "/authorize";
      lit "/internal/transfers";
      lit "/internal/customers/" · ID_rx · lit "/transfers" · QUERY_rx;
      lit "/internal/customers/" · ID_rx · lit "/transfers/" · ID_rx])])%string.
Definition capabilitiesForService (service : string) : list SabclCapability :=
  map ce_capability (List.filter (fun e => String.eqb (ce_service e) service) SABCL_CAPABILITIES).
Definition routeIdsForService (service : string) : list string :=
  map ce_routeId (List.filter (fun e => String.eqb (ce_service e) service) SABCL_CAPABILITIES).

(** ** [decodeURIComponent]; [None]: it throws *)
Inductive uri_unit := Raw (c : ascii) | Octet (n : Z).
Fixpoint uri_units (s : string) : option (list uri_unit) :=
  match s with
  | EmptyString => Some []
  | String c r =>
      if Ascii.eqb c "%" then
        match r with
        | String a (String b r) =>
            x ← hex_digit_value a; y ← hex_digit_value b; l ← uri_units r; Some (Octet (x * 16 + y) :: l)
        | _ => None
        end
      else l ← uri_units r; Some (Raw c :: l)
  end.
(** The octets of a character follow one another: [need] continuation octets
    are missing, [acc] is the code point so far and [least] the least one this
    length may encode. *)
Fixpoint uri_text (need : nat) (acc least : Z) (l : list uri_unit) : option string :=
  match l, need with
  | [], O => Some ""%string
  | [], S _ => None
  | Raw c :: l, O => s ← uri_text 0 0 0 l; Some (String c s)
  | Raw _ :: _, S _ => None
  | Octet n :: l, O =>
      if n <? 128 then s ← uri_text 0 0 0 l; Some (String (byte_char n) s)
      else if n <? 192 then None
      else if n <? 224 then uri_text 1 (n - 192) 128 l
      else if n <? 240 then uri_text 2 (n - 224) 2048 l
      else if n <? 248 then uri_text 3 (n - 240) 65536 l
      else None
  | Octet n :: l, S need =>
      if negb ((128 <=? n) && (n <? 192)) then None
      else let acc := acc * 64 + (n - 128) in
           match need with
           | O => if (acc <? least) || (1114111 <? acc) || ((55296 <=? acc) && (acc <? 57344)) then None
                  else s ← uri_text 0 0 0 l; Some (utf8 acc +:+ s)
           | S _ => uri_text need acc least l
           end
  end.
Definition decodeURIComponent (s : string) : option string := l ← uri_units s; uri_text 0 0 0 l.
Definition safeDecode (s : string) : string := default s (decodeURIComponent s).
Definition includes (sub s : string) : bool := bool_decide (is_Some (String.index 0 sub s)).
Definition backslash : string := String (ascii_of_nat 92) "".

(** ** Audit ([audit.ts]) *)
Inductive SabclAuditEvent :=
| EnvelopeAccepted | EnvelopeRejected | EnvelopeReplayed | EnvelopeExpired | SignatureInvalid | RouteInvalid
| RecipientUnavailable | HopExhausted | KeyRotationUsed.
#[export] Instance audit_event_eq_dec : EqDecision SabclAuditEvent.
Proof. solve_decision. Defined.
Record SabclAuditRecord := mkAuditRecord {
  ar_event : SabclAuditEvent;
  ar_messageDigest : string;
  ar_routeDigest : option string;
  ar_senderKeyId : option string;
  ar_reason : option SabclErrorCode
}.
Definition eventForCode (c : SabclErrorCode) : SabclAuditEvent :=
  match c with
  | SABCL_REPLAYED => EnvelopeReplayed
  | SABCL_EXPIRED => EnvelopeExpired
  | SABCL_SIGNATURE_INVALID => SignatureInvalid
  | SABCL_ROUTE_INVALID => RouteInvalid
  | SABCL_RECIPIENT_UNAVAILABLE => RecipientUnavailable
  | SABCL_HOP_LIMIT_EXCEEDED => HopExhausted
  | _ => EnvelopeRejected
  end.
Definition auditDigest {prim : SabclPrimitives} (salt value : string) : string :=
  str_take 12 (sha256_hex (salt +:+ SABCL_DOMAIN.serviceHandle +:+ "|" +:+ value)).
(** What the parties keep: one Redis, and the router's log. *)
Record SabclStore := mkSabclStore { sc_redis : Redis; sc_log : list SabclAuditRecord }.
(** [snapshot()] *)
Definition audit_count (e : SabclAuditEvent) (st : SabclStore) : nat :=
  length (List.filter (fun r => bool_decide (ar_event r = e)) (sc_log st)).
Definition sc_update (f : Redis -> Redis) (st : SabclStore) : SabclStore := mkSabclStore (f (sc_redis st)) (sc_log st).

(** [SET key value NX EX ttl] *)
Definition replay_key (prefix messageId : string) : string := prefix +:+ "replay:" +:+ messageId.
Definition claim_key (now : Z) (key : string) (ttlSeconds : Z) (st : SabclStore) : bool * SabclStore :=
  match redis_live now key (sc_redis st) with
  | Some _ => (false, st)
  | None => (true, sc_update (redis_set now key "1" ttlSeconds) st)
  end.

Record HttpReply := mkHttpReply { hp_status : Z; hp_body : option json }.
Definition reply_ok (r : HttpReply) : bool := (200 <=? hp_status r) && (hp_status r <? 300).
Record SabclOutcome := mkOutcomeOf { oc_status : Z; oc_body : json }.
Definition rejected (c : SabclErrorCode) : SabclOutcome := mkOutcomeOf (statusForCode c) (toSafeResponse c).
(** The call a dispatcher makes of the service behind it. *)
Record LoopbackCall := mkLoopbackCall {
  lc_target : string;
  lc_method : string;
  lc_token : string;
  lc_correlationId : string;
  lc_customerId : option string;
  lc_body : option json
}.
(** The service's own HTTP surface; [None]: no answer. *)
Class LoopbackService (Env : Type) := { call_service : LoopbackCall -> Env -> option HttpReply * Env }.

Section Parties.
Context {Env : Type} {prim : SabclPrimitives} {urls : Urls} {service : LoopbackService Env}.
Abbreviation SabclM := (M (System SabclStore Env) SabclErr).
(** [now] in milliseconds: the clock of the request. *)
Variable now : Z.
Definition now_seconds : Z := now / 1000.
Definition sabcl_refuse {A} (c : SabclErrorCode) : SabclM A := throw (SabclError c).

(** ** Replay stores ([redis-replay-store.ts], [RouterRedisService]) *)
Definition remember (prefix messageId : string) (ttlSeconds : Z) : SabclM bool :=
  atomic (fun st => let '(b, st) := claim_key now (replay_key prefix messageId) (Z.max 1 ttlSeconds) st in (Ok b, st)).

(** ** Recipients ([sabcl-recipient.ts], [loopback-dispatch.ts]) *)
Record LoopbackDispatchOptions := mkLoopback { lo_baseUrl : string; lo_internalToken : string }.
Definition loopback_call (o : LoopbackDispatchOptions) (target : string) (r : SabclInnerRequest) : LoopbackCall :=
  mkLoopbackCall target (iq_method r) (lo_internalToken o) (iq_correlationId r)
    (match iq_actor r with Some (Some id) => if String.eqb id "" then None else Some id | _ => None end)
    (if String.eqb (iq_method r) "POST" then Some (match iq_body r with Some JNull | None => JObj [] | Some v => v end) else None).
Definition loopback_dispatch (o : LoopbackDispatchOptions) (r : SabclInnerRequest) : SabclM SabclInnerResponse :=
  '(origin, target) ← require (url_resolve (iq_path r) (lo_baseUrl o)) (SabclError SABCL_RECIPIENT_UNAVAILABLE);
  _ ← throw_when (negb (bool_decide (url_origin (lo_baseUrl o) = Some origin))) (SabclError SABCL_ROUTE_INVALID);
  reply ← remote (fun env => let '(reply, env) := call_service (loopback_call o target r) env in (Ok reply, env));
  reply ← require reply (SabclError SABCL_RECIPIENT_UNAVAILABLE);
  mret (mkInnerResponse (hp_status reply) (hp_body reply)).

Record RecipientOptions := mkRecipient {
  re_keyring : SabclKeyring;
  re_prefix : string;
  re_capabilities : list SabclCapability;
  re_loopback : LoopbackDispatchOptions
}.
Definition capability_for (caps : list SabclCapability) (op : string) : option SabclCapability :=
  find (fun c => startsWith (ca_operationPrefix c +:+ ".") op) caps.
Definition assertCapability (caps : list SabclCapability) (r : SabclInnerRequest) : Sabcl unit :=
  capability ← demand (capability_for caps (iq_op r)) (SabclError SABCL_ROUTE_INVALID);
  _ ← refuse_when (negb (bool_decide (iq_method r ∈ ca_methods capability))) SABCL_ROUTE_INVALID;
  let decoded := safeDecode (iq_path r) in
  _ ← refuse_when (includes ".." decoded || includes backslash decoded) SABCL_ROUTE_INVALID;
  refuse_when (negb (existsb (fun p => rx_match p (iq_path r)) (ca_pathPatterns capability))) SABCL_ROUTE_INVALID.
(** What follows the claim of the message; [nonce] is the one of the answer. *)
Definition recipient_dispatch (o : RecipientOptions) (nonce : string) (opened : OpenedRequest) : SabclM SabclOutcome :=
  inner ← require (sabclInnerRequestSchema (or_payload opened)) (SabclError SABCL_MALFORMED);
  _ ← lift_result (assertCapability (re_capabilities o) inner);
  result ← loopback_dispatch (re_loopback o) inner;
  sealed ← lift_result (sealResponse (kr_own (re_keyring o)) (or_responseSecret opened) (or_messageId opened)
                          (inner_response_json result) nonce);
  mret (mkOutcomeOf 200 (response_envelope_json sealed)).
Definition recipient_run (o : RecipientOptions) (nonce : string) (e : SabclEnvelope) : SabclM SabclOutcome :=
  opened ← lift_result (openRequest (kr_own (re_keyring o)) (re_keyring o) e now_seconds);
  claimed ← remember (re_prefix o) (en_mid e) (Z.max 1 (en_exp e - now_seconds + 1));
  _ ← throw_when (negb claimed) (SabclError SABCL_REPLAYED);
  recipient_dispatch o nonce opened.
Definition handle (o : RecipientOptions) (nonce : string) (raw : json) : SabclM SabclOutcome :=
  match sabclEnvelopeSchema raw with
  | None => mret (rejected SABCL_MALFORMED)
  | Some e => try_catch (recipient_run o nonce e) (fun err => mret (rejected (toSabclError err SABCL_DECRYPTION_FAILED)))
  end.

(** ** The environment of a party ([environment.ts]) *)
Inductive SabclMode := strict | compatible | off.
Record SabclEnvironment := mkSabclEnvironment { se_mode : SabclMode; se_keyring : SabclKeyring; se_routeSecret : string }.

(** ** The router ([router.service.ts]) *)
Record RouterConfig := mkRouterConfig {
  rc_nodeEnvironment : string;
  rc_host : string;
  rc_port : Z;
  rc_redisUrl : string;
  rc_redisKeyPrefix : string;
  rc_forwardTimeoutMs : Z;
  rc_rateLimitPerMinute : Z;
  rc_maxEnvelopeBytes : Z;
  rc_sabcl : SabclEnvironment;
  rc_routes : SabclRouteTable
}.
Definition rc_keyring (cfg : RouterConfig) : SabclKeyring := se_keyring (rc_sabcl cfg).
Definition rc_routeSecret (cfg : RouterConfig) : string := se_routeSecret (rc_sabcl cfg).
(** The destinations, as the network reaches them; [None]: no answer in time. *)
Variable fetch_inbound : string -> json -> SabclM (option HttpReply).
Definition incrementRate (cfg : RouterConfig) (senderKeyId : string) : SabclM Z :=
  let key := rc_redisKeyPrefix cfg +:+ "rate:" +:+ senderKeyId in
  count ← atomic (fun st => match redis_incr now key (sc_redis st) with
                            | Some (n, r) => (Ok n, sc_update (fun _ => r) st)
                            | None => (Err (SabclJsError "ERR"), st)
                            end);
  _ ← (if count =? 1 then atomic (modify (sc_update (redis_expire now key 60))) else mret tt);
  mret count.
Definition error_code_of (body : option json) : option SabclErrorCode :=
  match jfield "code" (jfield "error" (default JUndef body)) with JStr s => known_code s | _ => None end.
Definition forward (destination : string) (e : SabclEnvelope) : SabclM SabclOutcome :=
  reply ← fetch_inbound destination (envelope_json e);
  reply ← require reply (SabclError SABCL_RECIPIENT_UNAVAILABLE);
  if negb (reply_ok reply) then sabcl_refuse (default SABCL_RECIPIENT_UNAVAILABLE (error_code_of (hp_body reply)))
  else
    parsed ← require (hp_body reply ≫= sabclResponseEnvelopeSchema) (SabclError SABCL_RECIPIENT_UNAVAILABLE);
    mret (mkOutcomeOf 200 (response_envelope_json parsed)).
Definition audit (r : SabclAuditRecord) : SabclM unit := atomic (modify (fun st => mkSabclStore (sc_redis st) (sc_log st ++ [r]))).
Definition route_envelope (cfg : RouterConfig) (e : SabclEnvelope) : SabclM SabclOutcome :=
  _ ← lift_result (fresh_at now_seconds e);
  _ ← lift_result (peer (rc_keyring cfg) (en_skid e) now_seconds);
  _ ← throw_when (en_hl e <=? 0) (SabclError SABCL_HOP_LIMIT_EXCEEDED);
  rate ← incrementRate cfg (en_skid e);
  _ ← throw_when (rc_rateLimitPerMinute cfg <? rate) (SabclError SABCL_ROUTE_INVALID);
  route ← lift_result (resolve_route (rc_routes cfg) (en_rt e));
  claimed ← remember (rc_redisKeyPrefix cfg) (en_mid e) (Z.max 1 (en_exp e - now_seconds + 1));
  _ ← throw_when (negb claimed) (SabclError SABCL_REPLAYED);
  outcome ← forward (rt_destination route) e;
  let digest := auditDigest (rc_routeSecret cfg) in
  _ ← audit (mkAuditRecord EnvelopeAccepted (digest (en_mid e)) (Some (digest (en_rt e))) (Some (en_skid e)) None);
  mret outcome.
Definition reject_envelope (cfg : RouterConfig) (e : option SabclEnvelope) (err : SabclErr) : SabclM SabclOutcome :=
  let code := toSabclError err SABCL_MALFORMED in
  let digest := auditDigest (rc_routeSecret cfg) in
  _ ← audit (mkAuditRecord (eventForCode code) (from_option (fun e => digest (en_mid e)) "unparsed"%string e)
              ((fun e => digest (en_rt e)) <$> e) (en_skid <$> e) (Some code));
  mret (rejected code).
Definition route (cfg : RouterConfig) (raw : json) (rawByteLength : Z) : SabclM SabclOutcome :=
  if rc_maxEnvelopeBytes cfg <? rawByteLength then reject_envelope cfg None (SabclError SABCL_OVERSIZED)
  else match sabclEnvelopeSchema raw with
       | None => reject_envelope cfg None (SabclError SABCL_MALFORMED)
       | Some e => try_catch (route_envelope cfg e) (reject_envelope cfg (Some e))
       end.
(** [RouterController.accept]: the declared length, or the length of nothing. *)
Definition accept (cfg : RouterConfig) (raw : json) (contentLength : option Z) : SabclM SabclOutcome :=
  let declared := default 0 contentLength in
  route cfg raw (if safe_integer declared then declared else max_safe_integer).

(** ** The client ([sabcl-client.ts]) *)
Record SabclClientOptions := mkClient {
  sl_keyring : SabclKeyring;
  sl_routeSecret : string;
  sl_ttlSeconds : option Z;
  sl_hopLimit : option Z
}.
(** The router, as the network reaches it. *)
Variable post_message : json -> SabclM (option HttpReply).
Definition send (o : SabclClientOptions) (fresh : Freshness) (routeId service : string) (request : SabclInnerRequest)
  : SabclM SabclInnerResponse :=
  recipient ← lift_result (activePeerFor (sl_keyring o) service now_seconds);
  routeToken ← lift_result (deriveRouteToken (sl_routeSecret o) routeId);
  sealed ← lift_result (sealRequest (kr_own (sl_keyring o)) recipient routeToken (inner_request_json request)
                          (Some (default SABCL_DEFAULT_TTL_SECONDS (sl_ttlSeconds o)))
                          (Some (default SABCL_DEFAULT_HOP_LIMIT (sl_hopLimit o))) now_seconds fresh);
  reply ← post_message (envelope_json (sr_envelope sealed));
  reply ← require reply (SabclError SABCL_RECIPIENT_UNAVAILABLE);
  _ ← throw_when (negb (reply_ok reply)) (SabclError (default SABCL_RECIPIENT_UNAVAILABLE (error_code_of (hp_body reply))));
  envelope ← require (hp_body reply ≫= sabclResponseEnvelopeSchema) (SabclError SABCL_MALFORMED);
  decoded ← lift_result (openResponse recipient (sr_responseSecret sealed) (en_mid (sr_envelope sealed)) envelope);
  require (sabclInnerResponseSchema decoded) (SabclError SABCL_MALFORMED).
End Parties.
