(* ===== verification/SabclWireProofs.v ===== *)
(** * The wire format of SABCL/1: what the encodings determine and undo *)

From Stdlib Require Import ZArith Lia Ascii String.
From stdpp Require Import base strings list.
From S2P Require Import Prelude.
From S2P Require Import Js.
From S2P Require Import Codec.
From S2P Require Import Regex.
From S2P Require Import RiskTypes.
From S2P Require Import SabclWire.

Open Scope Z_scope.

(** ** The error monad *)
Lemma result_bind_inv {E A B} (m : result E A) (k : A -> result E B) b : (m ≫= k) = Ok b -> exists a, m = Ok a /\ k a = Ok b.
Proof. destruct m as [a|e]; [eauto|discriminate]. Qed.
Lemma refuse_when_inv b c u : refuse_when b c = Ok u -> b = false.
Proof. by destruct b. Qed.
Lemma demand_inv {A} (o : option A) e a : demand o e = Ok a -> o = Some a.
Proof. destruct o; [by intros [= ->]|discriminate]. Qed.
(** Splits the successful runs of the error monad. *)
Ltac sabcl_run :=
  repeat match goal with
  | H : (_ ≫= _) = Ok _ |- _ => let Hs := fresh "Hs" in apply result_bind_inv in H as (? & Hs & H)
  | H : refuse_when _ _ = Ok _ |- _ => apply refuse_when_inv in H
  | H : demand _ _ = Ok _ |- _ => apply demand_inv in H
  | H : mret _ = Ok _ |- _ => injection H as H
  | H : Ok _ = Ok _ |- _ => injection H as H
  | H : refuse _ = Ok _ |- _ => discriminate H
  | H : Err _ = Ok _ |- _ => discriminate H
  end.

(** ** Bytes *)
Lemma code_byte_char n : 0 <= n < 256 -> code (byte_char n) = n.
Proof. intros H. unfold code, byte_char. rewrite nat_ascii_embedding by lia. lia. Qed.
Lemma be_bytes_length k n : String.length (be_bytes k n) = k.
Proof. induction k as [|k IH]; [done|]. cbn. by rewrite IH. Qed.
Lemma be_value_bytes k n acc : 0 <= n < 256 ^ Z.of_nat k -> be_value acc (be_bytes k n) = acc * 256 ^ Z.of_nat k + n.
Proof.
  revert n acc. induction k as [|k IH]; intros n acc H.
  - cbn in *. lia.
  - cbn [be_bytes be_value]. assert (0 < 256 ^ Z.of_nat k) by (apply Z.pow_pos_nonneg; lia).
    rewrite Nat2Z.inj_succ, Z.pow_succ_r in H |- * by lia.
    assert (0 <= n / 256 ^ Z.of_nat k < 256) by (split; [by apply Z.div_pos; lia|apply Z.div_lt_upper_bound; lia]).
    rewrite code_byte_char by (apply Z.mod_pos_bound; lia). rewrite (Z.mod_small (n / _)) by done.
    assert (Hb : be_bytes k n = be_bytes k (n mod 256 ^ Z.of_nat k)).
    { clear IH H H1. assert (Hk : forall j, (j <= k)%nat -> be_bytes j n = be_bytes j (n mod 256 ^ Z.of_nat k)).
      { induction j as [|j IHj]; intros Hj; [done|]. cbn [be_bytes]. rewrite IHj by lia. f_equal. f_equal.
        replace (Z.of_nat k) with (Z.of_nat j + 1 + (Z.of_nat k - Z.of_nat j - 1)) by lia.
        rewrite !Z.pow_add_r by lia. change (256 ^ 1) with 256.
        assert (0 < 256 ^ Z.of_nat j) by (apply Z.pow_pos_nonneg; lia).
        assert (0 < 256 ^ (Z.of_nat k - Z.of_nat j - 1)) by (apply Z.pow_pos_nonneg; lia).
        set (a := 256 ^ Z.of_nat j) in *. set (b := 256 ^ (Z.of_nat k - Z.of_nat j - 1)) in *.
        rewrite <- Z.mul_assoc, Z.rem_mul_r by lia. rewrite Z.mul_comm, Z.div_add by lia.
        rewrite (Z.div_small (n mod a)) by (apply Z.mod_pos_bound; lia). rewrite Z.add_0_l.
        symmetry. apply Z.mod_mod_divide. by exists b; lia. }
      by apply Hk. }
    rewrite Hb, IH by (apply Z.mod_pos_bound; lia).
    pose proof (Z.div_mod n (256 ^ Z.of_nat k)). lia.
Qed.
Lemma be_bytes_inj k n m : 0 <= n < 256 ^ Z.of_nat k -> 0 <= m < 256 ^ Z.of_nat k -> be_bytes k n = be_bytes k m -> n = m.
Proof. intros Hn Hm H. apply (f_equal (be_value 0)) in H. rewrite !be_value_bytes in H by done. lia. Qed.

Lemma app_same_length (a b c d : string) : String.length a = String.length b -> a +:+ c = b +:+ d -> a = b /\ c = d.
Proof.
  revert b. induction a as [|x a IH]; intros [|y b]; try discriminate; [by rewrite !str_app_nil_l|].
  intros [= Hl]. rewrite !str_app_cons. intros [= -> H]. by destruct (IH b Hl H) as [-> ->].
Qed.
Lemma str_take_app a b : str_take (String.length a) (a +:+ b) = a.
Proof. induction a as [|c a IH]; [by destruct b|]. rewrite str_app_cons. cbn. by rewrite IH. Qed.
Lemma str_drop_app0 a b : str_drop (String.length a) (a +:+ b) = b.
Proof. pose proof (str_drop_app a 0 b) as H. rewrite Nat.add_0_r in H. by rewrite H. Qed.

(** ** Canonical encoding *)
Lemma uint32_range n s : writeUInt32BE n = Ok s -> 0 <= n < 2 ^ 32 /\ s = be_bytes 4 n.
Proof. unfold writeUInt32BE. destruct (_ && _) eqn:H; [|discriminate]. intros [= <-]. bool_to_Z. split; [lia|done]. Qed.
Lemma canonicalEncode_cons f l s : canonicalEncode (f :: l) = Ok s ->
  exists rest, canonicalEncode l = Ok rest /\ 0 <= byte_length f < 2 ^ 32 /\ s = be_bytes 4 (byte_length f) +:+ f +:+ rest.
Proof.
  cbn [canonicalEncode]. intros H. sabcl_run. apply uint32_range in Hs as [Hb ->]. eexists. by split; [exact Hs0|].
Qed.
Lemma canonicalEncode_inj l1 : forall l2 s, canonicalEncode l1 = Ok s -> canonicalEncode l2 = Ok s -> l1 = l2.
Proof.
  induction l1 as [|f1 l1 IH]; intros [|f2 l2] s H1 H2; [done|..].
  - apply canonicalEncode_cons in H2 as (r & _ & _ & ->). by injection H1.
  - apply canonicalEncode_cons in H1 as (r & _ & _ & ->). by injection H2.
  - apply canonicalEncode_cons in H1 as (r1 & Hr1 & Hb1 & ->). apply canonicalEncode_cons in H2 as (r2 & Hr2 & Hb2 & He).
    apply app_same_length in He as [Hlen Hrest]; [|by rewrite !be_bytes_length].
    apply be_bytes_inj in Hlen; [|done..]. unfold byte_length in Hlen.
    apply app_same_length in Hrest as [-> ->]; [|lia]. f_equal. by eapply IH.
Qed.
Lemma canonicalUInt_range n s : canonicalUInt n = Ok s -> 0 <= n <= max_safe_integer /\ s = be_bytes 8 n.
Proof.
  unfold canonicalUInt. destruct (negb _ || _) eqn:H; [discriminate|]. intros [= <-].
  unfold safe_integer in H. bool_to_Z. split; [lia|done].
Qed.
Lemma canonicalUInt_inj a b s : canonicalUInt a = Ok s -> canonicalUInt b = Ok s -> a = b.
Proof.
  intros [Ha ->]%canonicalUInt_range [Hb He]%canonicalUInt_range. unfold max_safe_integer in *.
  apply be_bytes_inj in He; [done|change (256 ^ Z.of_nat 8) with 18446744073709551616; lia..].
Qed.

(** The header of an envelope: what is signed besides the ciphertext. *)
Definition request_header (e : SabclEnvelope) :=
  (en_v e, en_mid e, en_rt e, en_skid e, en_rkid e, en_epk e, en_iat e, en_exp e, en_n e, en_hl e, en_pad e).
Definition response_header (e : SabclResponseEnvelope) := (rv_v e, rv_cid e, rv_skid e, rv_n e, rv_pad e).
Lemma canonicalRequestHeader_inj e1 e2 h :
  canonicalRequestHeader e1 = Ok h -> canonicalRequestHeader e2 = Ok h -> request_header e1 = request_header e2.
Proof.
  unfold canonicalRequestHeader. intros H1 H2. sabcl_run.
  pose proof (canonicalEncode_inj _ _ _ H1 H2) as He. injection He; clear He H1 H2; intros; subst.
  assert (en_iat e1 = en_iat e2 /\ en_exp e1 = en_exp e2 /\ en_hl e1 = en_hl e2 /\ en_pad e1 = en_pad e2) as (? & ? & ? & ?)
    by (split_and!; eauto using canonicalUInt_inj).
  unfold request_header. congruence.
Qed.
Lemma canonicalResponseHeader_inj e1 e2 h :
  canonicalResponseHeader e1 = Ok h -> canonicalResponseHeader e2 = Ok h -> response_header e1 = response_header e2.
Proof.
  unfold canonicalResponseHeader. intros H1 H2. sabcl_run.
  pose proof (canonicalEncode_inj _ _ _ H1 H2) as He. injection He; clear He H1 H2; intros; subst.
  assert (rv_pad e1 = rv_pad e2) by eauto using canonicalUInt_inj. unfold response_header. congruence.
Qed.
Lemma safe_integer_nonneg n : 0 <= n <= max_safe_integer -> safe_integer n = true.
Proof. intros H. unfold safe_integer. apply andb_true_intro. split; apply Z.leb_le; unfold max_safe_integer in *; lia. Qed.
Lemma canonicalUInt_ok n : 0 <= n <= max_safe_integer -> canonicalUInt n = Ok (be_bytes 8 n).
Proof. intros H. unfold canonicalUInt. rewrite safe_integer_nonneg by done. by rewrite (proj2 (Z.ltb_ge n 0)) by lia. Qed.
Lemma canonicalEncode_ok l : Forall (fun f => byte_length f < 2 ^ 32) l -> exists s, canonicalEncode l = Ok s.
Proof.
  induction 1 as [|f l Hf _ [s Hs]]; cbn; [eauto|]. unfold writeUInt32BE, byte_length in *.
  rewrite (proj2 (Z.leb_le 0 _)), (proj2 (Z.ltb_lt _ _)) by lia. cbn. rewrite Hs. cbn. eauto.
Qed.
Lemma canonicalEncode_length l s : canonicalEncode l = Ok s ->
  byte_length s = foldr (fun f acc => byte_length f + 4 + acc) 0 l.
Proof.
  revert s. induction l as [|f l IH]; intros s H; [by injection H as <-|].
  apply canonicalEncode_cons in H as (r & Hr & _ & ->). cbn [foldr]. rewrite <- (IH _ Hr). unfold byte_length.
  rewrite !str_length_app, be_bytes_length. lia.
Qed.

(** ** Padding *)
Lemma repeat_zero_length n : String.length (repeat_str (String (ascii_of_nat 0) "") n) = n.
Proof. induction n as [|n IH]; [done|]. cbn [repeat_str]. rewrite str_length_app, IH. done. Qed.
Lemma bucket_for n b : paddingBucketFor n = Ok b -> n <= b /\ b ∈ SABCL_PADDING_BUCKETS.
Proof.
  unfold paddingBucketFor. intros H%demand_inv. apply find_some in H as [Hin Hle]. bool_to_Z. split; [lia|].
  by apply list_elem_of_In.
Qed.
Lemma bucket_exists n : n <= 65536 -> exists b, paddingBucketFor n = Ok b.
Proof.
  intros H. unfold paddingBucketFor. destruct (find _ _) as [b|] eqn:Hf; [by exists b|].
  assert (Hn : (n <=? 65536) = false) by (apply (find_none _ _ Hf); cbn; tauto). bool_to_Z. lia.
Qed.
Lemma padding_roundtrip payload : byte_length payload <= 65532 ->
  exists padded bucket, padPayload payload = Ok (padded, bucket) /\ byte_length padded = bucket /\
    bucket ∈ SABCL_PADDING_BUCKETS /\ unpadPayload padded = Ok payload.
Proof.
  intros H. assert (0 <= byte_length payload) by (unfold byte_length; lia).
  destruct (bucket_exists (byte_length payload + 4)) as [bucket Hb]; [lia|].
  destruct (bucket_for _ _ Hb) as [Hle Hin]. unfold padPayload, SABCL_MAX_PLAINTEXT_BYTES.
  rewrite (proj2 (Z.ltb_ge _ _)) by lia. cbn [refuse_when mret result_ret mbind result_bind]. rewrite Hb.
  unfold writeUInt32BE. rewrite (proj2 (Z.leb_le _ _)), (proj2 (Z.ltb_lt _ _)) by lia. cbn [andb mret result_ret].
  set (z := zeros (bucket - 4 - byte_length payload)). exists (be_bytes 4 (byte_length payload) +:+ payload +:+ z), bucket.
  assert (Hlen : byte_length (be_bytes 4 (byte_length payload) +:+ payload +:+ z) = bucket).
  { unfold byte_length at 1. rewrite !str_length_app, be_bytes_length. unfold z, zeros. rewrite repeat_zero_length.
    unfold byte_length in *. lia. }
  split; [done|]. split; [done|]. split; [done|].
  unfold unpadPayload. rewrite Hlen, (proj2 (Z.ltb_ge bucket 4)) by lia. cbn [refuse_when mret result_ret mbind result_bind].
  assert (Ht : str_take LENGTH_PREFIX_BYTES (be_bytes 4 (byte_length payload) +:+ payload +:+ z) = be_bytes 4 (byte_length payload))
    by exact (str_take_app (be_bytes 4 (byte_length payload)) (payload +:+ z)).
  rewrite Ht, be_value_bytes by (change (256 ^ Z.of_nat 4) with (2 ^ 32); lia).
  rewrite Z.mul_0_l, Z.add_0_l, (proj2 (Z.ltb_ge _ _)) by lia. cbn [refuse_when mret result_ret mbind result_bind]. f_equal.
  unfold slice. replace (LENGTH_PREFIX_BYTES + Z.to_nat (byte_length payload) - LENGTH_PREFIX_BYTES)%nat with (String.length payload)
    by (unfold byte_length; lia).
  change LENGTH_PREFIX_BYTES with (String.length (be_bytes 4 (byte_length payload))). by rewrite str_drop_app0, str_take_app.
Qed.
(** Between the ceiling and the largest bucket the padding throws an error of its own. *)
Lemma padding_gap payload : 65532 < byte_length payload <= SABCL_MAX_PLAINTEXT_BYTES -> padPayload payload = Err range_error.
Proof.
  intros H. unfold padPayload. unfold SABCL_MAX_PLAINTEXT_BYTES in *. rewrite (proj2 (Z.ltb_ge _ _)) by lia.
  cbn [refuse_when mret result_ret mbind result_bind]. unfold paddingBucketFor.
  destruct (find _ _) as [b|] eqn:Hf; [|done]. apply find_some in Hf as [Hin Hle]. bool_to_Z.
  cbn in Hin. intuition lia.
Qed.
Lemma bucket_range b : b ∈ SABCL_PADDING_BUCKETS -> 512 <= b <= 65536.
Proof.
  intros H%list_elem_of_In. assert (Hall : Forall (fun b => 512 <= b <= 65536) SABCL_PADDING_BUCKETS) by (repeat constructor; discriminate).
  rewrite Stdlib.Lists.List.Forall_forall in Hall. by apply Hall.
Qed.

(** ** base64url *)
Definition url_char (c : ascii) : bool := alnum c || Ascii.eqb c "_" || Ascii.eqb c "-".
Lemma base64_char_url n : 0 <= n < 64 -> url_char (base64_char n) = true.
Proof.
  intros H. assert (forallb (fun n => url_char (base64_char n)) (map Z.of_nat (seq 0 64)) = true) as Hall by (vm_compute; reflexivity).
  rewrite forallb_forall in Hall. apply Hall. apply in_map_iff. exists (Z.to_nat n). split; [lia|]. apply in_seq. lia.
Qed.
Lemma base64url_chars s : str_all url_char (base64url_encode s) = true.
Proof.
  induction s as [|a|a b|a b c r IH] using string_triples; [done|..].
  all: pose proof (code_range a); try pose proof (code_range b); try pose proof (code_range c).
  all: cbn [base64url_encode str_all]; cbv zeta.
  all: rewrite !base64_char_url by (Z.to_euclidean_division_equations; lia); done.
Qed.
Lemma base64url_length s : (String.length (base64url_encode s) * 3 <= String.length s * 4 + 2)%nat /\
  (String.length s <= String.length (base64url_encode s))%nat.
Proof. induction s as [|a|a b|a b c r IH] using string_triples; cbn [base64url_encode String.length]; cbv zeta; cbn [String.length]; lia. Qed.
Lemma base64Url_encode max s : s <> ""%string -> 4 * byte_length s + 2 <= 3 * max -> base64Url max (base64url_encode s) = true.
Proof.
  intros Hs Hm. destruct (base64url_length s) as [Hup Hlow]. unfold base64Url, byte_length in *.
  assert (String.length s <> 0%nat) by (destruct s; [done|discriminate]).
  rewrite (proj2 (Z.leb_le _ _)), (proj2 (Z.leb_le _ _)) by lia. apply base64url_chars.
Qed.

(** ** Messages as JSON *)
Lemma envelope_schema e : envelope_ok e = true -> sabclEnvelopeSchema (envelope_json e) = Some e.
Proof. intros H. destruct e. unfold sabclEnvelopeSchema. cbn -[envelope_ok]. cbn in H. by rewrite H. Qed.
Lemma response_schema e : response_envelope_ok e = true -> sabclResponseEnvelopeSchema (response_envelope_json e) = Some e.
Proof. intros H. destruct e. unfold sabclResponseEnvelopeSchema. cbn -[response_envelope_ok]. cbn in H. by rewrite H. Qed.
(** A body that JSON can carry. *)
Definition json_body (o : option json) : Prop := match o with Some v => plain v = true | None => True end.
Lemma plain_present v : plain v = true -> present v = Some v.
Proof. by destruct v. Qed.
Lemma inner_request_plain r : json_body (iq_body r) -> plain (inner_request_json r) = true.
Proof.
  intros Hb. destruct r as [op method path [body|] [[id|]|] correlation]; cbn in Hb |- *; rewrite ?Hb; reflexivity.
Qed.
Lemma inner_request_schema r : inner_request_ok r = true -> json_body (iq_body r) ->
  sabclInnerRequestSchema (inner_request_json r) = Some r.
Proof.
  intros H Hb. destruct r as [op method path [body|] [[id|]|] correlation]; cbn in Hb;
    unfold sabclInnerRequestSchema; cbn -[inner_request_ok present plain]; rewrite ?(plain_present _ Hb); cbn -[inner_request_ok]; by rewrite H.
Qed.
Lemma inner_response_plain r : json_body (ir_body r) -> plain (inner_response_json r) = true.
Proof. intros Hb. destruct r as [status [body|]]; cbn in Hb |- *; rewrite ?Hb; reflexivity. Qed.
Lemma inner_response_schema r : 100 <= ir_status r <= 599 -> json_body (ir_body r) ->
  sabclInnerResponseSchema (inner_response_json r) = Some r.
Proof.
  intros H Hb. destruct r as [status [body|]]; cbn in H, Hb; unfold sabclInnerResponseSchema; cbn -[present plain];
    by rewrite (proj2 (Z.leb_le 100 _)), (proj2 (Z.leb_le _ 599)), ?(plain_present _ Hb) by lia.
Qed.

(** ** How long an envelope is on the wire *)
Lemma json_escape_length c : (String.length (json_escape c) <= 6)%nat.
Proof. apply Nat.leb_le. by destruct c as [[] [] [] [] [] [] [] []]. Qed.
Lemma json_escapes_length s : (String.length (json_escapes s) <= 6 * String.length s)%nat.
Proof.
  induction s as [|c s IH]; [done|]. cbn [json_escapes String.length]. rewrite str_length_app. pose proof (json_escape_length c). lia.
Qed.
Lemma url_char_escape c : url_char c = true -> json_escape c = String c "".
Proof. destruct c as [[] [] [] [] [] [] [] []]; vm_compute; congruence. Qed.
Lemma url_escapes s : str_all url_char s = true -> json_escapes s = s.
Proof.
  induction s as [|c s IH]; [done|]. cbn [str_all]. intros [Hc Hs]%andb_prop. cbn [json_escapes].
  rewrite url_char_escape, IH by done. by rewrite str_app_cons, str_app_nil_l.
Qed.
Lemma quote_length s : byte_length (quote s) = byte_length (json_escapes s) + 2.
Proof. unfold byte_length, quote. rewrite !str_length_app. change (String.length dquote) with 1%nat. lia. Qed.
Lemma string_text_length s n : byte_length s <= n -> byte_length (text (JStr s)) <= 6 * n + 2.
Proof.
  intros H. change (text (JStr s)) with (quote s). rewrite quote_length. pose proof (json_escapes_length s).
  unfold byte_length in *. lia.
Qed.
Lemma url_text_length s : str_all url_char s = true -> byte_length (text (JStr s)) = byte_length s + 2.
Proof. intros H. change (text (JStr s)) with (quote s). by rewrite quote_length, url_escapes. Qed.
Lemma number_text_length z : 0 <= z <= max_safe_integer -> byte_length (text (JNum z)) <= 16.
Proof.
  intros H. change (text (JNum z)) with (bigint_to_string z). unfold bigint_to_string. rewrite (proj2 (Z.ltb_ge z 0)) by lia.
  apply nat_digits_length; unfold max_safe_integer in *; lia.
Qed.
Lemma join_length l : byte_length (join "," l) <= foldr (fun s acc => byte_length s + 1 + acc) 0 l.
Proof.
  induction l as [|s l IH]; [done|]. rewrite join_cons. cbn [foldr]. unfold byte_length in *. rewrite str_length_app.
  destruct l as [|s' l]; [cbn [String.length foldr]; lia|]. rewrite str_length_app. cbn [String.length] in *. lia.
Qed.
Lemma member_text_length k v : byte_length (member_text (k, v)) <= 6 * byte_length k + 3 + byte_length (text v).
Proof.
  unfold member_text. cbn [fst snd]. pose proof (quote_length k). pose proof (json_escapes_length k).
  unfold byte_length in *. rewrite !str_length_app. cbn [String.length]. lia.
Qed.
Lemma keyId_text_length s : sabclKeyId s = true -> byte_length (text (JStr s)) <= 386.
Proof.
  unfold sabclKeyId, len_between. intros [[_ H]%andb_prop _]%andb_prop. apply Nat.leb_le in H.
  apply (string_text_length s 64). unfold byte_length. lia.
Qed.
Lemma base64Url_text_length max s : base64Url max s = true -> byte_length (text (JStr s)) <= max + 2.
Proof. unfold base64Url. intros H. bool_to_Z. rewrite url_text_length by done. lia. Qed.
Lemma members_text_length fs : foldr (fun s acc => byte_length s + 1 + acc) 0 (map member_text fs) <=
  foldr (fun '(k, v) acc => 6 * byte_length k + 4 + byte_length (text v) + acc) 0 fs.
Proof. induction fs as [|[k v] fs IH]; [done|]. cbn [map foldr]. pose proof (member_text_length k v). lia. Qed.
Lemma object_text_length fs : plain (JObj fs) = true ->
  byte_length (text (JObj fs)) <= 2 + foldr (fun '(k, v) acc => 6 * byte_length k + 4 + byte_length (text v) + acc) 0 fs.
Proof.
  intros [_ Hp]%andb_prop. rewrite text_obj by done. pose proof (join_length (map member_text fs)).
  pose proof (members_text_length fs). unfold byte_length in *. rewrite !str_length_app. cbn [String.length]. lia.
Qed.
Lemma envelope_text_length e : envelope_ok e = true -> byte_length (en_ct e) <= 90000 ->
  byte_length (text (envelope_json e)) <= 100000.
Proof.
  intros H Hct. assert (Hplain : plain (envelope_json e) = true) by (by destruct e).
  unfold envelope_json in *. pose proof (object_text_length _ Hplain) as Hj. cbn [foldr] in Hj.
  unfold envelope_ok, envelope_header_ok, zod_int, safe_integer, SABCL_MAX_HOP_LIMIT in H. bool_to_Z.
  assert (Hctl : byte_length (text (JStr (en_ct e))) <= 90002).
  { match goal with H : base64Url SABCL_MAX_ENVELOPE_BYTES (en_ct e) = true |- _ => unfold base64Url in H; bool_to_Z end.
    rewrite url_text_length by done. lia. }
  repeat match goal with H : base64Url _ (?f e) = true |- _ => apply base64Url_text_length in H end.
  repeat match goal with H : sabclKeyId _ = true |- _ => apply keyId_text_length in H end.
  assert (Hv : byte_length (text (JStr (en_v e))) <= 50).
  { match goal with H : en_v e = _ |- _ => rewrite H end. vm_compute. discriminate. }
  pose proof (number_text_length (en_iat e)). pose proof (number_text_length (en_exp e)).
  pose proof (number_text_length (en_hl e)). pose proof (number_text_length (en_pad e)). unfold max_safe_integer in *.
  repeat match type of Hj with context [byte_length (String ?c ?s)] =>
    let x := eval vm_compute in (byte_length (String c s)) in change (byte_length (String c s)) with x in Hj end.
  lia.
Qed.
