(* ===== verification/SabclSealProofs.v ===== *)
(** * Sealed messages open, and what opening establishes *)

From Stdlib Require Import ZArith Lia Ascii String.
From stdpp Require Import base strings list.
From S2P Require Import Prelude.
From S2P Require Import Js.
From S2P Require Import Codec.
From S2P Require Import Regex.
From S2P Require Import RiskTypes.
From S2P Require Import SabclWire.
From S2P Require Import SabclCrypto.
From S2P Require Import SabclWireProofs.

Open Scope Z_scope.

Section Sealing.
Context {prim : SabclPrimitives}.

Lemma fromBase64Url_encode s : s <> ""%string -> fromBase64Url (base64url_encode s) = Ok s.
Proof.
  intros H. unfold fromBase64Url. rewrite base64url_roundtrip, String.eqb_refl.
  destruct (String.eqb_spec (base64url_encode s) ""); [|done].
  destruct (base64url_length s) as [_ Hl]. rewrite e in Hl. destruct s; [done|cbn in Hl; lia].
Qed.
Lemma fromBase64Url_inv v b : fromBase64Url v = Ok b -> v = base64url_encode b.
Proof.
  unfold fromBase64Url. destruct (String.eqb v ""); [discriminate|]. destruct (String.eqb_spec (base64url_encode (base64url_decode v)) v);
    [|discriminate]. by intros [= <-].
Qed.
Lemma base64Url_bound max s : base64Url max s = true -> byte_length s <= max.
Proof. unfold base64Url. intros H. bool_to_Z. lia. Qed.
Lemma keyId_bound s : sabclKeyId s = true -> byte_length s <= 64.
Proof. unfold sabclKeyId, len_between, byte_length. intros [[_ H]%andb_prop _]%andb_prop. apply Nat.leb_le in H. lia. Qed.
Lemma nonempty_length s : (0 < String.length s)%nat -> s <> ""%string.
Proof. by destruct s; [cbn; lia|]. Qed.

(** The header of a well-formed envelope encodes, in few bytes. *)
Lemma header_ok e : envelope_header_ok e = true -> exists aad, canonicalRequestHeader e = Ok aad /\ byte_length aad < 2 ^ 31.
Proof.
  unfold envelope_header_ok. intros H.
  assert (Hb : byte_length (en_v e) <= 64 /\ byte_length (en_mid e) <= 64 /\ byte_length (en_rt e) <= 64 /\
    byte_length (en_skid e) <= 64 /\ byte_length (en_rkid e) <= 64 /\ byte_length (en_epk e) <= 64 /\ byte_length (en_n e) <= 64 /\
    0 <= en_iat e <= max_safe_integer /\ 0 <= en_exp e <= max_safe_integer /\ 0 <= en_hl e <= max_safe_integer /\
    0 <= en_pad e <= max_safe_integer).
  { unfold zod_int, safe_integer, max_safe_integer, SABCL_MAX_HOP_LIMIT in *. bool_to_Z.
    repeat match goal with
    | H : base64Url _ _ = true |- _ => apply base64Url_bound in H
    | H : sabclKeyId _ = true |- _ => apply keyId_bound in H
    | H : en_v e = _ |- _ => rewrite H
    end. change (byte_length SABCL_PROTOCOL_VERSION) with 7. lia. }
  destruct Hb as (? & ? & ? & ? & ? & ? & ? & Hi & He & Hh & Hp). unfold canonicalRequestHeader.
  rewrite !canonicalUInt_ok by done. cbn [mbind result_bind].
  destruct (canonicalEncode_ok [en_v e; en_mid e; en_rt e; en_skid e; en_rkid e; en_epk e; be_bytes 8 (en_iat e);
    be_bytes 8 (en_exp e); en_n e; be_bytes 8 (en_hl e); be_bytes 8 (en_pad e)]) as [s Hs].
  { unfold byte_length in *. repeat constructor; rewrite ?be_bytes_length; lia. }
  exists s. split; [exact Hs|]. rewrite (canonicalEncode_length _ _ Hs). cbn [foldr]. unfold byte_length in *.
  rewrite !be_bytes_length. lia.
Qed.
Lemma response_header_ok e : response_header_fields_ok e = true -> exists aad, canonicalResponseHeader e = Ok aad /\ byte_length aad < 2 ^ 31.
Proof.
  unfold response_header_fields_ok. intros H.
  assert (Hb : byte_length (rv_v e) <= 64 /\ byte_length (rv_cid e) <= 64 /\ byte_length (rv_skid e) <= 64 /\
    byte_length (rv_n e) <= 64 /\ 0 <= rv_pad e <= max_safe_integer).
  { unfold zod_int, safe_integer, max_safe_integer in *. bool_to_Z.
    repeat match goal with
    | H : base64Url _ _ = true |- _ => apply base64Url_bound in H
    | H : sabclKeyId _ = true |- _ => apply keyId_bound in H
    | H : rv_v e = _ |- _ => rewrite H
    end. change (byte_length SABCL_PROTOCOL_VERSION) with 7. lia. }
  destruct Hb as (? & ? & ? & ? & Hp). unfold canonicalResponseHeader. rewrite canonicalUInt_ok by done. cbn [mbind result_bind].
  destruct (canonicalEncode_ok [rv_v e; rv_cid e; rv_skid e; rv_n e; be_bytes 8 (rv_pad e)]) as [s Hs].
  { unfold byte_length in *. repeat constructor; rewrite ?be_bytes_length; lia. }
  exists s. split; [exact Hs|]. rewrite (canonicalEncode_length _ _ Hs). cbn [foldr]. unfold byte_length in *.
  rewrite !be_bytes_length. lia.
Qed.
Lemma domain_encode domain l : Forall (fun f => byte_length f < 2 ^ 32) l -> byte_length domain < 2 ^ 32 ->
  exists s, canonicalEncode (domain :: l) = Ok s.
Proof. intros Hl Hd. apply canonicalEncode_ok. by constructor. Qed.

(** ** Requests *)
Definition good_fresh (fresh : Freshness) : Prop :=
  String.length (fr_messageId fresh) = 16%nat /\ String.length (fr_nonce fresh) = 12%nat.
(** What makes a request sealable. *)
Record sealable (sender : SabclPrivateIdentity) (recipient : SabclPublicIdentity) (token : string) (payload : json)
    (ttl hl now : Z) (fresh : Freshness) (secret : string) : Prop := {
  sb_ttl : 0 < ttl <= SABCL_MAX_TTL_SECONDS;
  sb_hl : 1 <= hl <= SABCL_MAX_HOP_LIMIT;
  sb_recipient : pu_revoked recipient = false;
  sb_sender : expired_key (pi_notAfter sender) now = false;
  sb_plain : plain payload = true;
  sb_size : byte_length (text payload) <= 65532;
  sb_now : 0 <= now <= max_safe_integer - SABCL_MAX_TTL_SECONDS;
  sb_skid : sabclKeyId (pi_keyId sender) = true;
  sb_rkid : sabclKeyId (pu_keyId recipient) = true;
  sb_token : base64Url 64 token = true;
  sb_fresh : good_fresh fresh;
  sb_secret : x25519 (fr_ephemeral fresh) (pu_encryptionPublicKey recipient) = Some secret
}.
(** The envelope of a sealed request: its header and the encryption under it. *)
Record sealed_envelope (sender : SabclPrivateIdentity) (rkid token : string) (payload : json) (ttl hl now : Z)
    (fresh : Freshness) (secret : string) (e : SabclEnvelope) : Prop := {
  se_ok : envelope_ok e = true;
  se_mid : en_mid e = base64url_encode (fr_messageId fresh);
  se_rt : en_rt e = token;
  se_skid : en_skid e = pi_keyId sender;
  se_rkid : en_rkid e = rkid;
  se_epk : en_epk e = base64url_encode (x25519_public (fr_ephemeral fresh));
  se_iat : en_iat e = now;
  se_exp : en_exp e = now + ttl;
  se_hl : en_hl e = hl;
  se_n : en_n e = base64url_encode (fr_nonce fresh);
  se_ct : byte_length (en_ct e) <= 90000;
  se_cipher : exists aad info input padded ct tag,
    canonicalRequestHeader e = Ok aad /\ canonicalEncode [SABCL_DOMAIN.requestKey; aad] = Ok info /\
    aes_gcm_seal (deriveKey secret (fr_nonce fresh) info) (fr_nonce fresh) padded aad = (ct, tag) /\
    signing_input SABCL_DOMAIN.requestSignature aad ct tag = Ok input /\
    en_ct e = base64url_encode ct /\ en_tag e = base64url_encode tag /\
    en_sig e = base64url_encode (ed25519_sign (pi_signingPrivateKey sender) input) /\
    byte_length padded = en_pad e /\ en_pad e ∈ SABCL_PADDING_BUCKETS /\ unpadPayload padded = Ok (text payload)
}.

(** The three encoded parts that follow a header. *)
Lemma sealed_parts_ok ct tag k m : 512 <= byte_length ct <= 65536 -> String.length tag = 16%nat ->
  base64Url SABCL_MAX_ENVELOPE_BYTES (base64url_encode ct) = true /\ base64Url 32 (base64url_encode tag) = true /\
  base64Url 128 (base64url_encode (ed25519_sign k m)) = true.
Proof.
  intros Hc Ht. pose proof (ed25519_length k m) as Hs.
  split_and!; apply base64Url_encode; try (apply nonempty_length; unfold byte_length in *; lia);
    unfold byte_length, SABCL_MAX_ENVELOPE_BYTES in *; lia.
Qed.
Lemma signing_input_ok domain aad ct tag : byte_length domain < 2 ^ 32 -> byte_length aad < 2 ^ 31 -> byte_length ct <= 65536 ->
  String.length tag = 16%nat -> exists input, signing_input domain aad ct tag = Ok input.
Proof.
  intros Hd Ha Hc Ht. apply domain_encode; [|done]. repeat constructor; unfold byte_length in *; lia.
Qed.
Lemma seal_request_ok sender recipient token payload ttl hl now fresh secret :
  sealable sender recipient token payload ttl hl now fresh secret ->
  exists e, sealRequest sender recipient token payload (Some ttl) (Some hl) now fresh = Ok (mkSealedRequest e secret) /\
    sealed_envelope sender (pu_keyId recipient) token payload ttl hl now fresh secret e.
Proof.
  intros [Httl Hhl Hrec Hsend Hplain Hsize Hnow Hskid Hrkid Htok [Hmid Hnonce] Hsec].
  unfold SABCL_MAX_TTL_SECONDS, SABCL_MAX_HOP_LIMIT, max_safe_integer in *.
  unfold sealRequest. cbn [from_option]; unfold id. rewrite !safe_integer_nonneg by (unfold max_safe_integer; lia).
  unfold SABCL_MAX_TTL_SECONDS, SABCL_MAX_HOP_LIMIT.
  rewrite (proj2 (Z.leb_gt ttl 0)), (proj2 (Z.ltb_ge 120 ttl)), (proj2 (Z.ltb_ge hl 1)), (proj2 (Z.ltb_ge 4 hl)), Hrec, Hsend by lia.
  cbn [negb orb refuse_when mret result_ret mbind result_bind].
  unfold json_text. rewrite (stringify_text _ Hplain). cbn [demand mret result_ret mbind result_bind].
  destruct (padding_roundtrip (text payload) Hsize) as (padded & bucket & Hpad & Hlen & Hin & Hun). rewrite Hpad.
  cbn [mbind result_bind]. pose proof (bucket_range _ Hin) as Hbr.
  set (header := mkEnvelope SABCL_PROTOCOL_VERSION (base64url_encode (fr_messageId fresh)) token (pi_keyId sender)
    (pu_keyId recipient) (base64url_encode (x25519_public (fr_ephemeral fresh))) now (now + ttl) (base64url_encode (fr_nonce fresh)) hl bucket).
  destruct (x25519_public_ok (fr_ephemeral fresh)) as [_ Hpk].
  assert (Hh : forall a b c, envelope_header_ok (header a b c) = true).
  { intros a b c. unfold envelope_header_ok. cbn -[base64Url sabclKeyId]. rewrite Htok, Hskid, Hrkid. unfold zod_int.
    rewrite !base64Url_encode, !safe_integer_nonneg by
      (try (apply nonempty_length; lia); unfold byte_length, max_safe_integer in *; lia).
    unfold SABCL_MAX_HOP_LIMIT. rewrite !(proj2 (Z.leb_le _ _)), (proj2 (Z.ltb_lt _ _)) by lia. done. }
  destruct (header_ok _ (Hh "" "" "")%string) as (aad & Haad & Hsmall). rewrite Haad. cbn [mbind result_bind].
  unfold deriveSharedSecret. rewrite Hsec. cbn [demand mret result_ret mbind result_bind].
  destruct (domain_encode SABCL_DOMAIN.requestKey [aad]) as [info Hinfo]; [repeat constructor; lia|reflexivity|].
  rewrite Hinfo. cbn [mbind result_bind].
  destruct (aes_gcm_seal _ _ padded aad) as [ct tag] eqn:Hseal.
  pose proof (aes_gcm_lengths (deriveKey secret (fr_nonce fresh) info) (fr_nonce fresh) padded aad) as Hl. rewrite Hseal in Hl.
  destruct Hl as [Hcl Htl]. assert (Hcb : byte_length ct = bucket) by (unfold byte_length in *; lia).
  destruct (signing_input_ok SABCL_DOMAIN.requestSignature aad ct tag) as [input Hinput]; [reflexivity|done|lia|done|].
  rewrite Hinput. cbn [mbind result_bind].
  destruct (sealed_parts_ok ct tag (pi_signingPrivateKey sender) input) as (Hp1 & Hp2 & Hp3); [lia|done|].
  assert (Hok : envelope_ok (header (base64url_encode ct) (base64url_encode tag)
    (base64url_encode (ed25519_sign (pi_signingPrivateKey sender) input))) = true)
    by (unfold envelope_ok; rewrite Hh; cbn -[base64Url]; by rewrite Hp1, Hp2, Hp3).
  destruct (base64url_length ct) as [Hctl _].
  rewrite Hok. eexists. split; [reflexivity|]. constructor; try done; [cbn; unfold byte_length in *; lia|].
  exists aad, info, input, padded, ct, tag. split_and!; try done.
Qed.

(** ** Opening *)
Lemma opened_payload padded pad payload : byte_length padded = pad -> unpadPayload padded = Ok (text payload) -> plain payload = true ->
  opened_json padded pad = Ok payload.
Proof.
  intros Hlen Hun Hp. unfold opened_json. rewrite Hlen, Z.eqb_refl. cbn [negb refuse_when mret result_ret mbind result_bind].
  rewrite Hun. cbn [mbind result_bind]. by rewrite json_roundtrip.
Qed.
Lemma aead_opens key nonce padded aad ct tag : aes_gcm_seal key nonce padded aad = (ct, tag) -> aeadOpen key nonce ct tag aad = Ok padded.
Proof.
  intros H. pose proof (aes_gcm_lengths key nonce padded aad) as Hl. pose proof (aes_gcm_correct key nonce padded aad) as Hc.
  rewrite H in Hl, Hc. destruct Hl as [_ Ht]. unfold aeadOpen. rewrite Ht. cbn [negb Nat.eqb SABCL_TAG_BYTES refuse_when mret result_ret mbind result_bind].
  by rewrite Hc.
Qed.
(** Steps through a run of the error monad whose next result is known. *)
Ltac sabcl_step := cbn [negb orb refuse_when mret result_ret mbind result_bind demand].
Lemma open_request_ok sender rkid token payload ttl hl now fresh secret e own ring p now' :
  sealed_envelope sender rkid token payload ttl hl now fresh secret e -> good_fresh fresh -> plain payload = true ->
  ttl <= SABCL_MAX_TTL_SECONDS -> now - SABCL_CLOCK_SKEW_SECONDS <= now' <= now + ttl ->
  pi_keyId own = rkid -> peer ring (pi_keyId sender) now' = Ok p ->
  pu_signingPublicKey p = ed25519_public (pi_signingPrivateKey sender) ->
  x25519 (pi_encryptionPrivateKey own) (x25519_public (fr_ephemeral fresh)) = Some secret ->
  openRequest own ring e now' = Ok (mkOpenedRequest payload (en_mid e) (en_skid e) (pu_service p) token secret).
Proof.
  intros He [Hmid Hnonce] Hplain Httl Hnow Hown Hpeer Hsign Hsec. destruct He.
  destruct se_cipher0 as (aad & info & input & padded & ct & tag & Haad & Hinfo & Hseal & Hinput & Hct & Htag & Hsig & Hlen & Hin & Hun).
  pose proof (aes_gcm_lengths (deriveKey secret (fr_nonce fresh) info) (fr_nonce fresh) padded aad) as Hl. rewrite Hseal in Hl.
  destruct Hl as [Hcl Htl]. pose proof (bucket_range _ Hin) as Hbr.
  unfold openRequest, fresh_at. unfold SABCL_MAX_TTL_SECONDS, SABCL_CLOCK_SKEW_SECONDS in *.
  assert (Hv : en_v e = SABCL_PROTOCOL_VERSION).
  { unfold envelope_ok, envelope_header_ok in se_ok0. by bool_to_Z. }
  rewrite Hv, String.eqb_refl, se_exp0, se_iat0, (proj2 (Z.ltb_ge (now + ttl) now')), (proj2 (Z.ltb_ge (now' + 5) now)),
    (proj2 (Z.ltb_ge 120 (now + ttl - now))), se_rkid0, Hown, String.eqb_refl by lia. sabcl_step.
  rewrite se_skid0, Hpeer. sabcl_step. rewrite Haad. sabcl_step.
  rewrite Hct, fromBase64Url_encode by (apply nonempty_length; unfold byte_length in *; lia). sabcl_step.
  rewrite Htag, fromBase64Url_encode by (apply nonempty_length; lia). sabcl_step.
  rewrite Hsig, fromBase64Url_encode by (apply nonempty_length; rewrite ed25519_length; lia). sabcl_step.
  rewrite Hinput. sabcl_step. rewrite Hsign, ed25519_correct. sabcl_step.
  destruct (x25519_public_ok (fr_ephemeral fresh)) as [Himp Hpk].
  unfold importKey. rewrite se_epk0, fromBase64Url_encode by (apply nonempty_length; lia). sabcl_step.
  rewrite Hpk, Himp. cbn [Nat.eqb]. sabcl_step. unfold deriveSharedSecret. rewrite Hsec. sabcl_step.
  rewrite se_n0, fromBase64Url_encode by (apply nonempty_length; lia). sabcl_step. rewrite Hinfo. sabcl_step.
  rewrite (aead_opens _ _ _ _ _ _ Hseal). sabcl_step. rewrite (opened_payload _ _ payload Hlen Hun Hplain). sabcl_step.
  by rewrite se_rt0.
Qed.

(** ** Responses *)
Lemma response_roundtrip responder cid payload nonce secret p : base64Url 32 cid = true -> sabclKeyId (pi_keyId responder) = true ->
  String.length nonce = 12%nat -> plain payload = true -> byte_length (text payload) <= 65532 ->
  pu_keyId p = pi_keyId responder -> pu_signingPublicKey p = ed25519_public (pi_signingPrivateKey responder) ->
  exists e, sealResponse responder secret cid payload nonce = Ok e /\ response_envelope_ok e = true /\
    openResponse p secret cid e = Ok payload.
Proof.
  intros Hcid Hkey Hnonce Hplain Hsize Hpk Hsign.
  unfold sealResponse, json_text. rewrite (stringify_text _ Hplain). sabcl_step.
  destruct (padding_roundtrip (text payload) Hsize) as (padded & bucket & Hpad & Hlen & Hin & Hun). rewrite Hpad. sabcl_step.
  pose proof (bucket_range _ Hin) as Hbr.
  set (header := mkResponseEnvelope SABCL_PROTOCOL_VERSION cid (pi_keyId responder) (base64url_encode nonce) bucket).
  assert (Hh : forall a b c, response_header_fields_ok (header a b c) = true).
  { intros a b c. unfold response_header_fields_ok. cbn -[base64Url sabclKeyId]. rewrite Hcid, Hkey. unfold zod_int.
    rewrite base64Url_encode, safe_integer_nonneg by
      (try (apply nonempty_length; lia); unfold byte_length, max_safe_integer in *; lia).
    by rewrite (proj2 (Z.ltb_lt _ _)) by lia. }
  destruct (response_header_ok _ (Hh "" "" "")%string) as (aad & Haad & Hsmall). rewrite Haad. sabcl_step.
  destruct (domain_encode SABCL_DOMAIN.responseKey [aad]) as [info Hinfo]; [repeat constructor; lia|reflexivity|].
  rewrite Hinfo. sabcl_step.
  destruct (aes_gcm_seal _ _ padded aad) as [ct tag] eqn:Hseal.
  pose proof (aes_gcm_lengths (deriveKey secret nonce info) nonce padded aad) as Hl. rewrite Hseal in Hl.
  destruct Hl as [Hcl Htl].
  destruct (signing_input_ok SABCL_DOMAIN.responseSignature aad ct tag) as [input Hinput];
    [reflexivity|done|unfold byte_length in *; lia|done|].
  rewrite Hinput. sabcl_step.
  destruct (sealed_parts_ok ct tag (pi_signingPrivateKey responder) input) as (Hp1 & Hp2 & Hp3); [unfold byte_length in *; lia|done|].
  set (e := header (base64url_encode ct) (base64url_encode tag) (base64url_encode (ed25519_sign (pi_signingPrivateKey responder) input))).
  assert (Hok : response_envelope_ok e = true)
    by (unfold e, response_envelope_ok; rewrite Hh; cbn -[base64Url]; by rewrite Hp1, Hp2, Hp3).
  rewrite Hok. exists e. split; [done|]. split; [done|]. unfold openResponse. cbn [rv_v rv_cid rv_skid e header].
  rewrite Hpk, !String.eqb_refl. sabcl_step.
  assert (Haad' : canonicalResponseHeader e = Ok aad) by exact Haad. rewrite Haad'. sabcl_step.
  cbn [rv_ct rv_tag rv_sig rv_n rv_pad e header].
  rewrite !fromBase64Url_encode by (apply nonempty_length; rewrite ?ed25519_length; unfold byte_length in *; lia). sabcl_step.
  rewrite Hinput. sabcl_step. rewrite Hsign, ed25519_correct. sabcl_step. rewrite Hinfo. sabcl_step.
  rewrite (aead_opens _ _ _ _ _ _ Hseal). sabcl_step. by apply opened_payload.
Qed.

(** ** What an opened request has been through *)
Record authentic (own : SabclPrivateIdentity) (ring : SabclKeyring) (e : SabclEnvelope) (now : Z) (opened : OpenedRequest) : Prop := {
  au_fresh : en_exp e >= now /\ en_iat e <= now + SABCL_CLOCK_SKEW_SECONDS /\ en_exp e - en_iat e <= SABCL_MAX_TTL_SECONDS;
  au_addressed : en_rkid e = pi_keyId own;
  au_signed : exists p aad input ct tag sig,
    find_peer (en_skid e) (kr_peers ring) = Some p /\ live_key now p = true /\ canonicalRequestHeader e = Ok aad /\
    en_ct e = base64url_encode ct /\ en_tag e = base64url_encode tag /\ en_sig e = base64url_encode sig /\
    signing_input SABCL_DOMAIN.requestSignature aad ct tag = Ok input /\
    ed25519_verify (pu_signingPublicKey p) input sig = true
}.
Lemma peer_inv ring keyId now p : peer ring keyId now = Ok p -> find_peer keyId (kr_peers ring) = Some p /\ live_key now p = true.
Proof.
  unfold peer, live_key. destruct (find_peer keyId _) as [q|]; [|discriminate]. intros H. sabcl_run. subst. by rewrite Hs, Hs0.
Qed.
Lemma open_request_inv own ring e now opened : openRequest own ring e now = Ok opened ->
  authentic own ring e now opened /\ or_messageId opened = en_mid e.
Proof.
  unfold openRequest, fresh_at. intros H. sabcl_run. bool_to_Z. subst.
  repeat match goal with H : fromBase64Url _ = Ok _ |- _ => apply fromBase64Url_inv in H end.
  match goal with H : peer _ _ _ = Ok _ |- _ => apply peer_inv in H as [? ?] end.
  split; [|done]. constructor; [lia|done|]. eauto 20.
Qed.
End Sealing.
