(* ===== verification/SabclProperties.v ===== *)
(** * What SABCL recipients do: guarded, and once per message *)

From Stdlib Require Import ZArith Lia Ascii String.
From stdpp Require Import base strings list gmap.
From S2P Require Import Prelude.
From S2P Require Import Js.
From S2P Require Import Codec.
From S2P Require Import Regex.
From S2P Require Import Services.
From S2P Require Import RiskTypes.
From S2P Require Import SabclWire.
From S2P Require Import SabclCrypto.
From S2P Require Import SabclServices.
From S2P Require Import SabclWireProofs.
From S2P Require Import SabclSealProofs.

Open Scope Z_scope.

Section Recipient.
Context {Env : Type} {prim : SabclPrimitives} {urls : Urls} {service : LoopbackService Env}.
Abbreviation SabclM := (M (System SabclStore Env) SabclErr).
Implicit Types s : System SabclStore Env.

(** A step that leaves the store alone. *)
Definition same_store s s' : Prop := sdb s' = sdb s /\ sothers s' = sothers s.

(** The path a capability lets through. *)
Record permitted (caps : list SabclCapability) (r : SabclInnerRequest) : Prop := {
  pm_capability : exists c, capability_for caps (iq_op r) = Some c /\ iq_method r ∈ ca_methods c /\
    exists p, In p (ca_pathPatterns c) /\ rx_in p (iq_path r);
  pm_traversal : includes ".." (safeDecode (iq_path r)) = false /\ includes backslash (safeDecode (iq_path r)) = false
}.
Lemma assertCapability_inv caps r u : assertCapability caps r = Ok u -> permitted caps r.
Proof.
  unfold assertCapability. intros H. sabcl_run. bool_to_Z. constructor; [|done].
  match goal with H : existsb _ _ = true |- _ => apply existsb_exists in H as (p & Hin & Hm) end.
  eexists. split; [done|]. split; [done|]. exists p. split; [done|]. by apply rx_match_in.
Qed.

(** The service was called for [inner]. *)
Definition called (o : RecipientOptions) (inner : SabclInnerRequest) (env env' : Env) : Prop :=
  exists origin target, url_resolve (iq_path inner) (lo_baseUrl (re_loopback o)) = Some (origin, target) /\
    url_origin (lo_baseUrl (re_loopback o)) = Some origin /\
    env' = (call_service (loopback_call (re_loopback o) target inner) env).2.
Lemma dispatch_cases o nonce opened s r s' : recipient_dispatch o nonce opened s = (r, s') ->
  same_store s s' /\
  ((senv s' = senv s /\ exists e, r = Err e) \/
   exists inner, sabclInnerRequestSchema (or_payload opened) = Some inner /\ permitted (re_capabilities o) inner /\
     called o inner (senv s) (senv s')).
Proof.
  intros H. unfold recipient_dispatch in H.
  destruct (sabclInnerRequestSchema (or_payload opened)) as [inner|] eqn:Hin; [|injection H as <- <-; by split; [|left; eauto]].
  rewrite (bind_Ok _ _ _ _ _ inner s) in H by done.
  destruct (assertCapability (re_capabilities o) inner) as [u|e] eqn:Hcap; [|injection H as <- <-; by split; [|left; eauto]].
  apply assertCapability_inv in Hcap. rewrite (bind_Ok _ _ _ _ _ u s) in H by done. unfold loopback_dispatch in H.
  destruct (url_resolve _ _) as [[origin target]|] eqn:Hres; [|injection H as <- <-; by split; [|left; eauto]].
  unfold mbind, M_bind, mret, M_ret, lift_result, require in H.
  cbn -[bool_decide sealResponse loopback_call inner_response_json remote throw_when] in H.
  match type of H with context [@bool_decide ?P ?D] => destruct (@bool_decide P D) eqn:Ho end;
    [|injection H as <- <-; by split; [|left; eauto]].
  apply bool_decide_eq_true in Ho. unfold remote in H. cbn -[sealResponse inner_response_json loopback_call] in H.
  destruct (call_service (loopback_call (re_loopback o) target inner) (senv s)) as [reply env'] eqn:Hcall.
  assert (Hs' : s' = mkSystem (sdb s) env' (sothers s)).
  { destruct reply as [reply|]; cbn -[sealResponse] in H; [|by injection H as _ <-].
    match type of H with context [sealResponse ?a ?b ?c ?d ?e] => destruct (sealResponse a b c d e) as [sealed|err] end;
      by injection H as _ <-. }
  subst s'. split; [done|]. right. exists inner. split; [done|]. split; [done|]. exists origin, target. by rewrite Hcall.
Qed.

(** The database the next statement sees, and the schedule left. *)
Definition next_db s : SabclStore := match sothers s with [] => sdb s | f :: _ => f (sdb s) end.
Lemma atomic_next {A} (m : M SabclStore SabclErr A) s :
  atomic m s = ((m (next_db s)).1, mkSystem (m (next_db s)).2 (senv s) (tail (sothers s))).
Proof. unfold atomic, next_db. destruct (sothers s) as [|f fs]; cbn; by destruct (m _). Qed.
Lemma handle_cases now o nonce raw s out s' : handle now o nonce raw s = (out, s') ->
  exists a, out = Ok a /\
  ((s' = s /\ oc_status a <> 200 /\
      (forall e, sabclEnvelopeSchema raw = Some e -> exists err, openRequest (kr_own (re_keyring o)) (re_keyring o) e (now_seconds now) = Err err)) \/
   exists e opened db', sabclEnvelopeSchema raw = Some e /\
     openRequest (kr_own (re_keyring o)) (re_keyring o) e (now_seconds now) = Ok opened /\
     claim_key now (replay_key (re_prefix o) (en_mid e)) (Z.max 1 (Z.max 1 (en_exp e - now_seconds now + 1))) (next_db s) = db' /\
     sdb s' = db'.2 /\
     (senv s' = senv s /\ oc_status a <> 200 \/
      db'.1 = true /\ exists inner, sabclInnerRequestSchema (or_payload opened) = Some inner /\
        permitted (re_capabilities o) inner /\ called o inner (senv s) (senv s'))).
Proof.
  unfold handle. intros H. assert (Hrej : forall c, oc_status (rejected c) <> 200) by (intros []; discriminate).
  destruct (sabclEnvelopeSchema raw) as [e|] eqn:Hsch; [|injection H as <- <-; eexists; split; [done|]; left; by split].
  unfold try_catch, recipient_run in H.
  destruct (openRequest _ _ e _) as [opened|err] eqn:Hop;
    [|injection H as <- <-; eexists; split; [done|]; left; split; [done|]; split; [done|]; intros ? [= <-]; eauto].
  rewrite (bind_Ok _ _ _ _ _ opened s) in H by done.
  destruct (claim_key now (replay_key (re_prefix o) (en_mid e)) (Z.max 1 (Z.max 1 (en_exp e - now_seconds now + 1))) (next_db s))
    as [b db] eqn:Hclaim.
  assert (Hrem : remember now (re_prefix o) (en_mid e) (Z.max 1 (en_exp e - now_seconds now + 1)) s =
    (Ok b, mkSystem db (senv s) (tail (sothers s)))) by (unfold remember; by rewrite atomic_next, Hclaim).
  rewrite (bind_Ok _ _ _ _ _ _ _ Hrem) in H.
  destruct b; cbn [negb throw_when] in H.
  - rewrite (bind_Ok _ _ _ _ _ tt (mkSystem db (senv s) (tail (sothers s)))) in H by done.
    destruct (recipient_dispatch o nonce opened _) as [r s1] eqn:Hd.
    pose proof (dispatch_cases _ _ _ _ _ _ Hd) as [[Hdb _] Hcases]. cbn in Hdb.
    assert (s1 = s') as -> by (destruct r; by injection H as _ <-).
    assert (exists a, out = Ok a /\ (forall err, r = Err err -> oc_status a <> 200)) as (a & -> & Ha).
    { destruct r as [a|err]; injection H as <-; eexists; (split; [done|]); intros ? Hr; [discriminate Hr|apply Hrej]. }
    exists a. split; [done|]. right. exists e, opened, (true, db). split_and!; try done.
    destruct Hcases as [[Henv [err ->]]|Hc]; [left; split; [done|by eapply Ha]|right; by split].
  - injection H as <- <-. eexists. split; [done|]. right. exists e, opened, (false, db). split_and!; try done.
    left. by split.
Qed.
End Recipient.

(** * What SABCL promises its recipients *)

(** Two well-formed envelopes whose signatures cover the same bytes are the
    same envelope up to the signature: every header field, the ciphertext and
    the tag are bound. *)
Theorem sabcl_signature_binds e1 e2 h1 h2 input c1 c2 t1 t2 :
  canonicalRequestHeader e1 = Ok h1 -> canonicalRequestHeader e2 = Ok h2 ->
  fromBase64Url (en_ct e1) = Ok c1 -> fromBase64Url (en_ct e2) = Ok c2 ->
  fromBase64Url (en_tag e1) = Ok t1 -> fromBase64Url (en_tag e2) = Ok t2 ->
  signing_input SABCL_DOMAIN.requestSignature h1 c1 t1 = Ok input ->
  signing_input SABCL_DOMAIN.requestSignature h2 c2 t2 = Ok input ->
  request_header e1 = request_header e2 /\ en_ct e1 = en_ct e2 /\ en_tag e1 = en_tag e2.
Proof.
  intros Hh1 Hh2 Hc1 Hc2 Ht1 Ht2 H1 H2.
  apply fromBase64Url_inv in Hc1 as ->, Hc2 as ->, Ht1 as ->, Ht2 as ->.
  pose proof (canonicalEncode_inj _ _ _ H1 H2) as He. injection He as -> -> ->.
  split; [by eapply canonicalRequestHeader_inj|done].
Qed.

Section Recipients.
Context {Env : Type} {prim : SabclPrimitives} {urls : Urls} {service : LoopbackService Env}.
Implicit Types s : System SabclStore Env.

(** C8: a recipient touches the service behind it, or answers with a sealed
    response, only for an envelope that is well formed, in time, addressed to
    it and signed by a live key of its keyring over every field, whose request
    stays inside a capability of the service: method and path of the
    allowlist, and no traversal. *)
Theorem sabcl_dispatch_guarded now o nonce raw s a s' :
  handle now o nonce raw s = (Ok a, s') -> senv s' <> senv s \/ oc_status a = 200 ->
  exists e opened inner, sabclEnvelopeSchema raw = Some e /\
    authentic (kr_own (re_keyring o)) (re_keyring o) e (now_seconds now) opened /\
    sabclInnerRequestSchema (or_payload opened) = Some inner /\ permitted (re_capabilities o) inner /\
    called o inner (senv s) (senv s').
Proof.
  intros H Ht. apply handle_cases in H as (b & [= <-] & [(-> & Hb & _)|(e & opened & db & Hsch & Hop & _ & _ & Hc)]).
  - by destruct Ht.
  - destruct Hc as [[Henv Hb]|(_ & inner & Hin & Hp & Hcall)]; [by destruct Ht|].
    apply open_request_inv in Hop as [Hau _]. by exists e, opened, inner.
Qed.

(** ** What leaves a recipient or the router *)
(** A sealed response, or a code and nothing else, under its status. *)
Definition well_typed (a : SabclOutcome) : Prop :=
  (exists e, response_envelope_ok e = true /\ a = mkOutcomeOf 200 (response_envelope_json e)) \/ exists c, a = rejected c.
Abbreviation SabclM := (M (System SabclStore Env) SabclErr).
Definition typed (m : SabclM SabclOutcome) : Prop :=
  forall s, match m s with (Ok a, _) => well_typed a | (Err _, _) => True end.
Lemma typed_bind {A} (m : SabclM A) k : (forall a, typed (k a)) -> typed (m ≫= k).
Proof. intros H s. unfold mbind, M_bind. destruct (m s) as [[a|e] s1]; [apply H|done]. Qed.
(** Every error is caught and becomes a bare code. *)
Definition rejects (h : SabclErr -> SabclM SabclOutcome) : Prop :=
  forall e s, exists c s', h e s = (Ok (rejected c), s').
Lemma caught_typed m h s : typed m -> rejects h -> exists a s', try_catch m h s = (Ok a, s') /\ well_typed a.
Proof.
  intros Hm Hh. specialize (Hm s). unfold try_catch. destruct (m s) as [[a|e] s1]; [by eexists _, _|].
  destruct (Hh e s1) as (c & s' & ->). eexists _, _. split; [done|]. right. by exists c.
Qed.
Lemma sealed_typed responder secret cid payload nonce e : sealResponse responder secret cid payload nonce = Ok e ->
  response_envelope_ok e = true.
Proof.
  unfold sealResponse. intros H. sabcl_run. destruct x0 as [padded bucket]. sabcl_run.
  destruct (aes_gcm_seal _ _ _ _). sabcl_run. destruct (response_envelope_ok _) eqn:Hok; [by injection H as <-|discriminate H].
Qed.
Lemma read_typed v e : sabclResponseEnvelopeSchema v = Some e -> response_envelope_ok e = true.
Proof.
  unfold sabclResponseEnvelopeSchema. intros H.
  repeat match type of H with
    | mbind _ ?o = _ => destruct o; cbn [mbind option_bind] in H; [|discriminate H]
    | context [match ?o with Some _ => _ | None => _ end] => destruct o; [|discriminate H]
    end.
  destruct (_ && _) eqn:Hok; [|discriminate H]. injection H as <-. by apply andb_prop in Hok as [_ ?].
Qed.
Lemma recipient_typed now o nonce e : typed (recipient_run now o nonce e).
Proof.
  unfold recipient_run. do 3 (apply typed_bind; intros ?). unfold recipient_dispatch. do 3 (apply typed_bind; intros ?).
  intros s. unfold lift_result, mbind, M_bind. destruct (sealResponse _ _ _ _ _) as [e'|err] eqn:Hs; [|done].
  left. exists e'. split; [by eapply sealed_typed|done].
Qed.
Lemma forward_typed fetch destination e : typed (forward (Env := Env) fetch destination e).
Proof.
  unfold forward. do 2 (apply typed_bind; intros ?). destruct (negb _); [done|]. intros s. unfold require, mbind, M_bind.
  match goal with |- context [option_bind ?a ?b ?f ?o] => destruct (option_bind a b f o) as [e'|] eqn:Hs end; [|done].
  left. exists e'. split; [|done]. destruct (hp_body _) as [v|]; [|discriminate Hs]. by eapply read_typed.
Qed.
Lemma route_typed now fetch cfg e : typed (route_envelope (Env := Env) now fetch cfg e).
Proof.
  unfold route_envelope. do 8 (apply typed_bind; intros ?). intros s.
  pose proof (forward_typed fetch (rt_destination a4) e s) as Hf. unfold mbind, M_bind.
  destruct (forward _ _ _ s) as [[out|err] s1]; [|done]. unfold audit. by rewrite atomic_next.
Qed.
Lemma reject_rejects cfg e : rejects (reject_envelope (Env := Env) cfg e).
Proof.
  intros err s. unfold reject_envelope, audit. cbv zeta. unfold mbind, M_bind. rewrite atomic_next. by eexists _, _.
Qed.

(** C26: whatever reaches them and whatever answers behind them, a recipient and
    the router answer every request, with a well-formed sealed response under
    status 200 or with one of the protocol's codes under that code's status:
    nothing else crosses the boundary. *)
Theorem sabcl_outcomes_typed now o nonce fetch cfg raw declared s :
  (exists a s', handle now o nonce raw s = (Ok a, s') /\ well_typed a) /\
  (exists a s', accept now fetch cfg raw declared s = (Ok a, s') /\ well_typed a).
Proof.
  split.
  - unfold handle. destruct (sabclEnvelopeSchema raw) as [e|]; [|eexists _, s; split; [done|]; right; by eexists].
    apply caught_typed; [apply recipient_typed|]. intros err s1. by eexists _, s1.
  - unfold accept, route. set (len := if safe_integer _ then _ else _). destruct (_ <? len).
    + destruct (reject_rejects cfg None (SabclError SABCL_OVERSIZED) s) as (c & s' & H).
      eexists _, _. split; [exact H|]. right. by exists c.
    + destruct (sabclEnvelopeSchema raw) as [e|].
      * apply caught_typed; [apply route_typed|apply reject_rejects].
      * destruct (reject_rejects cfg None (SabclError SABCL_MALFORMED) s) as (c & s' & H).
        eexists _, _. split; [exact H|]. right. by exists c.
Qed.

(** ** Claims of message identifiers *)
(** A step that, at time [now], leaves the live claims under [prefix] alone. *)
Definition keeps_claims (now : Z) (prefix : string) (f : SabclStore -> SabclStore) : Prop :=
  forall st mid, is_Some (redis_live now (replay_key prefix mid) (sc_redis st)) ->
    sc_redis (f st) !! replay_key prefix mid = sc_redis st !! replay_key prefix mid.
(** At time [now], [key] is claimed at least until [until], unless that has passed. *)
Definition claimed (key : string) (until now : Z) (st : SabclStore) : Prop :=
  until <= now \/ exists v ex, sc_redis st !! key = Some (v, Some ex) /\ until <= ex.
Lemma live_entry now key (r : Redis) v ex : r !! key = Some (v, Some ex) ->
  redis_live now key r = if now <? ex then Some (v, Some ex) else None.
Proof. intros H. unfold redis_live. rewrite H. done. Qed.
Lemma claimed_live key until now st : claimed key until now st -> now < until -> is_Some (redis_live now key (sc_redis st)).
Proof.
  intros [H|(v & ex & Hl & Hu)] Ht; [lia|]. rewrite (live_entry _ _ _ _ _ Hl), (proj2 (Z.ltb_lt _ _)) by lia. eauto.
Qed.
Lemma claimed_kept prefix mid until t t' f st : claimed (replay_key prefix mid) until t st -> t <= t' -> keeps_claims t' prefix f ->
  claimed (replay_key prefix mid) until t' (f st).
Proof.
  intros Hc Ht Hf. destruct (Z.le_gt_cases until t') as [Hu|Hu]; [by left|]. right.
  destruct Hc as [Hc|(v & ex & Hl & Hex)]; [lia|]. exists v, ex. split; [|done]. rewrite (Hf st mid); [done|].
  rewrite (live_entry _ _ _ _ _ Hl), (proj2 (Z.ltb_lt _ _)) by lia. eauto.
Qed.
Lemma claimed_claim key until now key' ttl st : claimed key until now st -> claimed key until now (claim_key now key' ttl st).2.
Proof.
  intros Hc. unfold claim_key. destruct (redis_live now key' (sc_redis st)) as [x|] eqn:Hl; [done|].
  destruct (Z.le_gt_cases until now) as [Hu|Hu]; [by left|]. pose proof (claimed_live _ _ _ _ Hc Hu) as [y Hy]. right.
  destruct Hc as [Hc|(v & ex & He & Hex)]; [lia|]. exists v, ex. split; [|done].
  destruct (decide (key = key')) as [->|Hne]; [congruence|]. cbn. unfold redis_set. by rewrite lookup_insert_ne.
Qed.

Variable o : RecipientOptions.
(** What happens at a recipient from time [t0] on: requests that it handles,
    each among other statements, and anything else that keeps its claims. *)
Inductive served (t0 : Z) (st0 : SabclStore) (env0 : Env) : Z -> SabclStore -> Env -> Prop :=
| served_start : served t0 st0 env0 t0 st0 env0
| served_request t t' nonce raw st env others : served t0 st0 env0 t st env -> t <= t' ->
    Forall (keeps_claims t' (re_prefix o)) others ->
    let s := (handle t' o nonce raw (mkSystem st env others)).2 in served t0 st0 env0 t' (sdb s) (senv s)
| served_other t t' f st env env' : served t0 st0 env0 t st env -> t <= t' -> keeps_claims t' (re_prefix o) f ->
    served t0 st0 env0 t' (f st) env'.

Lemma claimed_next mid until t t' st (env : Env) others : claimed (replay_key (re_prefix o) mid) until t st -> t <= t' ->
  Forall (keeps_claims t' (re_prefix o)) others ->
  claimed (replay_key (re_prefix o) mid) until t' (next_db (mkSystem st env others)).
Proof.
  intros Hc Ht Ho. unfold next_db. cbn. destruct Ho as [|f fs Hf _]; [|by eapply claimed_kept].
  by apply (claimed_kept _ _ until t t' id st).
Qed.
Lemma served_claimed mid until t0 st0 env0 t st env : served t0 st0 env0 t st env ->
  claimed (replay_key (re_prefix o) mid) until t0 st0 -> claimed (replay_key (re_prefix o) mid) until t st.
Proof.
  intros Hs H0. induction Hs as [|t t' nonce raw st env others Hs IH Ht Ho|t t' f st env env' Hs IH Ht Hf]; [done|..].
  - pose proof (claimed_next mid until t t' st env others IH Ht Ho) as Hn. cbv zeta.
    destruct (handle t' o nonce raw _) as [out s'] eqn:Hh. cbn.
    apply handle_cases in Hh as (a & _ & [(-> & _)|(e & opened & db & _ & _ & Hclaim & -> & _)]).
    + cbn. by apply (claimed_kept _ _ until t t' id st); [exact IH|..].
    + rewrite <- Hclaim. by apply claimed_claim.
  - by eapply claimed_kept; [exact IH|..].
Qed.
Lemma claim_until now key until ttl st : until <= now + ttl * 1000 -> (claim_key now key ttl st).1 = true ->
  claimed key until now (claim_key now key ttl st).2.
Proof.
  unfold claim_key. intros H. destruct (redis_live now key _); [discriminate|]. intros _. right. cbn. unfold redis_set.
  rewrite lookup_insert_eq. eauto.
Qed.

(** C9: once an envelope has reached the service behind a recipient, or was
    answered, no envelope with its message identifier and no later expiry
    does so again, whatever the recipient handles in between and whatever runs
    beside it, as long as the clock does not go back and nothing deletes live
    claims: the claim outlives the message. *)
Theorem sabcl_at_most_once raw1 raw2 e1 e2 n1 n2 t1 t t2 s1 a1 s1' st env others :
  sabclEnvelopeSchema raw1 = Some e1 -> handle t1 o n1 raw1 s1 = (Ok a1, s1') -> senv s1' <> senv s1 \/ oc_status a1 = 200 ->
  served t1 (sdb s1') (senv s1') t st env -> t <= t2 -> Forall (keeps_claims t2 (re_prefix o)) others ->
  sabclEnvelopeSchema raw2 = Some e2 -> en_mid e2 = en_mid e1 -> en_exp e2 <= en_exp e1 ->
  exists a2 s2, handle t2 o n2 raw2 (mkSystem st env others) = (Ok a2, s2) /\ senv s2 = env /\ oc_status a2 <> 200.
Proof.
  intros Hsch1 H1 Htouch Hserved Ht Ho Hsch2 Hmid Hexp.
  apply handle_cases in H1 as (b & [= <-] & [(-> & Hb & _)|(e & opened & db & Hsch & Hop & Hclaim & Hdb & Hc)]); [by destruct Htouch|].
  assert (e = e1) as -> by congruence. destruct Hc as [[Henv Hb]|(Hone & _)]; [by destruct Htouch|].
  set (until := (en_exp e1 + 1) * 1000).
  assert (Hcl : claimed (replay_key (re_prefix o) (en_mid e1)) until t1 (sdb s1')).
  { rewrite Hdb, <- Hclaim. apply claim_until; [|by rewrite Hclaim]. unfold until, now_seconds.
    pose proof (Z.mul_div_le t1 1000 ltac:(lia)). lia. }
  apply (served_claimed _ _ _ _ _ _ _ _ Hserved) in Hcl. apply (claimed_next _ _ t t2 st env others) in Hcl; [|done..].
  destruct (handle t2 o n2 raw2 (mkSystem st env others)) as [out s2] eqn:H2.
  apply handle_cases in H2 as (a2 & -> & [(-> & Ha & _)|(e' & opened' & db' & Hsch' & Hop' & Hclaim' & _ & Hc')]); [by eexists _, _|].
  assert (e' = e2) as -> by congruence. destruct Hc' as [[Henv Ha]|(Htwo & _)]; [by eexists _, _|]. exfalso.
  apply open_request_inv in Hop' as [[[Hin _] _ _] _]. unfold now_seconds in Hin.
  assert (Hlt : t2 < until).
  { unfold until. pose proof (Z.mod_pos_bound t2 1000 ltac:(lia)). pose proof (Z.div_mod t2 1000 ltac:(lia)). lia. }
  pose proof (claimed_live _ _ _ _ Hcl Hlt) as [x Hx]. rewrite <- Hclaim' in Htwo. unfold claim_key in Htwo.
  by rewrite Hmid, Hx in Htwo.
Qed.
End Recipients.
