(* ===== verification/SabclNetwork.v ===== *)
(** * SABCL end to end: client, router and recipient over a lossy network
    ([services/{ledger,payments,identity}/src/sabcl]) *)

From Stdlib Require Import ZArith Lia Ascii String.
From stdpp Require Import base strings list gmap.
From S2P Require Import Prelude.
From S2P Require Import Js.
From S2P Require Import Codec.
From S2P Require Import Regex.
From S2P Require Import Services.
From S2P Require Import RiskTypes.
From S2P Require Import SabclWire.
From S2P Require Import SabclCrypto.
From S2P Require Import SabclServices.
From S2P Require Import SabclWireProofs.
From S2P Require Import SabclSealProofs.
From S2P Require Import SabclProperties.

Open Scope Z_scope.

(** What becomes of a message and its answer. *)
Inductive Delivery := Delivered | MessageLost | AnswerLost.

Section Network.
Context {Env : Type} {prim : SabclPrimitives} {urls : Urls} {service : LoopbackService Env}.
Abbreviation SabclM := (M (System SabclStore Env) SabclErr).
Variable now : Z.

Definition over_network {A B} (d : Delivery) (reply : A -> B) (m : SabclM A) : SabclM (option B) :=
  match d with
  | Delivered => a ← m; mret (Some (reply a))
  | MessageLost => mret None
  | AnswerLost => _ ← m; mret None
  end.
Definition as_reply (o : SabclOutcome) : HttpReply := mkHttpReply (oc_status o) (Some (oc_body o)).
(** [LedgerSabclService.handle] and its like: without a runtime the endpoint
    says that it is not configured. *)
Definition sabcl_inbound (runtime : option RecipientOptions) (nonce : string) (raw : json) : SabclM SabclOutcome :=
  match runtime with
  | None => mret (rejected SABCL_NOT_CONFIGURED)
  | Some o => handle now o nonce raw
  end.
(** The recipients behind their destinations. *)
Variable deployed : list (string * option RecipientOptions).
Definition fetch_destination (d : Delivery) (nonce destination : string) (raw : json) : SabclM (option HttpReply) :=
  match jget destination deployed with
  | None => mret None
  | Some runtime => over_network d as_reply (sabcl_inbound runtime nonce raw)
  end.
Definition post_to_router (d d' : Delivery) (cfg : RouterConfig) (nonce : string) (raw : json) : SabclM (option HttpReply) :=
  over_network d as_reply (accept now (fetch_destination d' nonce) cfg raw (Some (byte_length (text raw)))).
(** A call of [service] through the router. *)
Definition sabcl_call (d d' : Delivery) (client : SabclClientOptions) (cfg : RouterConfig) (fresh : Freshness)
    (nonce routeId serviceName : string) (request : SabclInnerRequest) : SabclM SabclInnerResponse :=
  send now (post_to_router d d' cfg nonce) client fresh routeId serviceName request.
End Network.

Section Calls.
Context {Env : Type} {prim : SabclPrimitives} {urls : Urls} {service : LoopbackService Env}.
Abbreviation SabclM := (M (System SabclStore Env) SabclErr).

Lemma claim_fresh now key ttl st : redis_live now key (sc_redis st) = None ->
  claim_key now key ttl st = (true, sc_update (redis_set now key "1" ttl) st).
Proof. intros H. unfold claim_key. by rewrite H. Qed.
Lemma claim_taken now key ttl st x : redis_live now key (sc_redis st) = Some x -> claim_key now key ttl st = (false, st).
Proof. intros H. unfold claim_key. by rewrite H. Qed.
Lemma live_ne now k k' (v : string * option Z) (r : Redis) : k <> k' -> redis_live now k (<[k' := v]> r) = redis_live now k r.
Proof. intros H. unfold redis_live. by rewrite lookup_insert_ne. Qed.
Lemma live_set now k v ttl (r : Redis) : 0 < ttl -> redis_live now k (redis_set now k v ttl r) = Some (v, Some (now + ttl * 1000)).
Proof.
  intros H. unfold redis_live, redis_set. rewrite lookup_insert_eq. cbn. by rewrite (proj2 (Z.ltb_lt _ _)) by lia.
Qed.
Lemma remember_alone now prefix mid ttl st (env : Env) : remember now prefix mid ttl (alone st env) =
  (Ok (claim_key now (replay_key prefix mid) (Z.max 1 ttl) st).1, alone (claim_key now (replay_key prefix mid) (Z.max 1 ttl) st).2 env).
Proof. unfold remember. rewrite atomic_alone. by destruct (claim_key _ _ _ _). Qed.

(** What the service answers to a permitted request, sealed. *)
Definition answer_of (reply : option HttpReply) : Sabcl SabclInnerResponse :=
  match reply with Some r => Ok (mkInnerResponse (hp_status r) (hp_body r)) | None => refuse SABCL_RECIPIENT_UNAVAILABLE end.
Definition carried (reply : option HttpReply) : Prop :=
  match reply with
  | Some r => 100 <= hp_status r <= 599 /\ json_body (hp_body r) /\
      byte_length (text (inner_response_json (mkInnerResponse (hp_status r) (hp_body r)))) <= 65532
  | None => True
  end.
(** A request that the recipient lets through, and the call it makes of it. *)
Record reaches (o : RecipientOptions) (r : SabclInnerRequest) (target : string) : Prop := {
  rs_ok : inner_request_ok r = true;
  rs_body : json_body (iq_body r);
  rs_capability : assertCapability (re_capabilities o) r = Ok tt;
  rs_url : exists origin, url_resolve (iq_path r) (lo_baseUrl (re_loopback o)) = Some (origin, target) /\
    url_origin (lo_baseUrl (re_loopback o)) = Some origin
}.
Lemma dispatch_answers o nonce opened r target st (env : Env) p : or_payload opened = inner_request_json r -> reaches o r target ->
  base64Url 32 (or_messageId opened) = true -> sabclKeyId (pi_keyId (kr_own (re_keyring o))) = true -> String.length nonce = 12%nat ->
  pu_keyId p = pi_keyId (kr_own (re_keyring o)) -> pu_signingPublicKey p = ed25519_public (pi_signingPrivateKey (kr_own (re_keyring o))) ->
  let '(reply, env') := call_service (loopback_call (re_loopback o) target r) env in carried reply ->
  exists res, recipient_dispatch o nonce opened (alone st env) = (res, alone st env') /\
    match reply with
    | None => res = refuse SABCL_RECIPIENT_UNAVAILABLE
    | Some h => exists e, res = Ok (mkOutcomeOf 200 (response_envelope_json e)) /\ response_envelope_ok e = true /\
        openResponse p (or_responseSecret opened) (or_messageId opened) e =
          Ok (inner_response_json (mkInnerResponse (hp_status h) (hp_body h)))
    end.
Proof.
  intros Hpl [Hok Hbody Hcap (origin & Hres & Horigin)] Hmid Hkey Hnonce Hpk Hsign.
  destruct (call_service _ env) as [reply env'] eqn:Hcall. intros Hcar.
  unfold recipient_dispatch. rewrite Hpl, inner_request_schema by done. rewrite (bind_Ok _ _ _ _ _ r (alone st env)) by done.
  rewrite (bind_Ok _ _ _ _ _ tt (alone st env)) by (by rewrite Hcap). unfold loopback_dispatch. rewrite Hres.
  assert (Hd : forall k : SabclInnerResponse -> SabclM SabclOutcome,
    (('(origin, target) ← require (Some (origin, target)) (SabclError SABCL_RECIPIENT_UNAVAILABLE);
      _ ← throw_when (negb (bool_decide (url_origin (lo_baseUrl (re_loopback o)) = Some origin))) (SabclError SABCL_ROUTE_INVALID);
      reply ← remote (fun env => let '(reply, env) := call_service (loopback_call (re_loopback o) target r) env in (Ok reply, env));
      reply ← require reply (SabclError SABCL_RECIPIENT_UNAVAILABLE);
      mret (mkInnerResponse (hp_status reply) (hp_body reply))) ≫= k) (alone st env) =
    match answer_of reply with Ok a => k a (alone st env') | Err e => (Err e, alone st env') end).
  { intros k. unfold mbind, M_bind, mret, M_ret, require, throw_when. cbn -[bool_decide remote loopback_call].
    rewrite bool_decide_eq_true_2 by done. cbn -[remote loopback_call]. rewrite remote_alone, Hcall. by destruct reply. }
  rewrite Hd. destruct reply as [h|]; cbn [answer_of refuse]; [|eexists; split; [done|done]].
  destruct Hcar as (Hst & Hb & Hsize).
  destruct (response_roundtrip (kr_own (re_keyring o)) (or_messageId opened) (inner_response_json (mkInnerResponse (hp_status h) (hp_body h)))
    nonce (or_responseSecret opened) p Hmid Hkey Hnonce (inner_response_plain (mkInnerResponse (hp_status h) (hp_body h)) Hb) Hsize Hpk Hsign) as (e & Hseal & Heok & Hopen).
  eexists. split; [rewrite (bind_Ok _ _ _ _ _ e (alone st env')) by (by rewrite Hseal); reflexivity|]. by exists e.
Qed.

(** A recipient that opens an envelope: the claim decides. *)
Lemma handle_opened now o nonce e opened st (env : Env) : envelope_ok e = true ->
  openRequest (kr_own (re_keyring o)) (re_keyring o) e (now_seconds now) = Ok opened ->
  handle now o nonce (envelope_json e) (alone st env) =
    let '(b, st') := claim_key now (replay_key (re_prefix o) (en_mid e)) (Z.max 1 (Z.max 1 (en_exp e - now_seconds now + 1))) st in
    if b then try_catch (recipient_dispatch o nonce opened) (fun err => mret (rejected (toSabclError err SABCL_DECRYPTION_FAILED)))
                (alone st' env)
    else (Ok (rejected SABCL_REPLAYED), alone st' env).
Proof.
  intros Hok Hop. unfold handle. rewrite (envelope_schema _ Hok). unfold try_catch, recipient_run.
  rewrite (bind_Ok _ _ _ _ _ opened (alone st env)) by (by rewrite Hop).
  pose proof (remember_alone now (re_prefix o) (en_mid e) (Z.max 1 (en_exp e - now_seconds now + 1)) st env) as Hrem.
  destruct (claim_key _ _ _ st) as [b st']. rewrite (bind_Ok _ _ _ _ _ _ _ Hrem). cbn [fst snd].
  destruct b; cbn [negb throw_when]; [|done]. by rewrite (bind_Ok _ _ _ _ _ tt (alone st' env)).
Qed.

(** ** A call through healthy parties *)
(** A client, a router and a recipient that belong together, at a time and for a
    message. *)
Record healthy (now : Z) (client : SabclClientOptions) (cfg : RouterConfig) (o : RecipientOptions)
    (deployed : list (string * option RecipientOptions)) (fresh : Freshness) (nonce routeId serviceName token secret : string)
    (recipient sender : SabclPublicIdentity) (r : SabclInnerRequest) : Prop := {
  he_recipient : activePeerFor (sl_keyring client) serviceName (now_seconds now) = Ok recipient;
  he_recipient_key : pu_keyId recipient = pi_keyId (kr_own (re_keyring o));
  he_recipient_sign : pu_signingPublicKey recipient = ed25519_public (pi_signingPrivateKey (kr_own (re_keyring o)));
  he_recipient_live : pu_revoked recipient = false;
  he_recipient_id : sabclKeyId (pi_keyId (kr_own (re_keyring o))) = true;
  he_secret : x25519 (fr_ephemeral fresh) (pu_encryptionPublicKey recipient) = Some secret;
  he_encryption : pu_encryptionPublicKey recipient = x25519_public (pi_encryptionPrivateKey (kr_own (re_keyring o)));
  he_sender_id : sabclKeyId (pi_keyId (kr_own (sl_keyring client))) = true;
  he_sender_live : expired_key (pi_notAfter (kr_own (sl_keyring client))) (now_seconds now) = false;
  he_sender : peer (re_keyring o) (pi_keyId (kr_own (sl_keyring client))) (now_seconds now) = Ok sender;
  he_sender_sign : pu_signingPublicKey sender = ed25519_public (pi_signingPrivateKey (kr_own (sl_keyring client)));
  he_router : is_ok (peer (rc_keyring cfg) (pi_keyId (kr_own (sl_keyring client))) (now_seconds now)) = true;
  he_token : deriveRouteToken (sl_routeSecret client) routeId = Ok token;
  he_route : exists route, resolve_route (rc_routes cfg) token = Ok route /\ jget (rt_destination route) deployed = Some (Some o);
  he_ttl : 0 < default SABCL_DEFAULT_TTL_SECONDS (sl_ttlSeconds client) <= SABCL_MAX_TTL_SECONDS;
  he_hl : 1 <= default SABCL_DEFAULT_HOP_LIMIT (sl_hopLimit client) <= SABCL_MAX_HOP_LIMIT;
  he_now : 0 <= now_seconds now <= max_safe_integer - SABCL_MAX_TTL_SECONDS;
  he_fresh : good_fresh fresh;
  he_nonce : String.length nonce = 12%nat;
  he_request : inner_request_ok r = true;
  he_body : json_body (iq_body r);
  he_size : byte_length (text (inner_request_json r)) <= 65532;
  he_envelope : 100000 <= rc_maxEnvelopeBytes cfg
}.
Definition message_id (fresh : Freshness) : string := base64url_encode (fr_messageId fresh).
Lemma token_bytes_ok s : String.length s = 32%nat -> base64Url 64 (base64url_encode (str_take SABCL_ROUTE_TOKEN_BYTES s)) = true.
Proof.
  intros Hl. pose proof (str_length_take SABCL_ROUTE_TOKEN_BYTES s) as Ht. rewrite Hl in Ht.
  apply base64Url_encode; [apply nonempty_length; rewrite Ht; cbn; lia|]. unfold byte_length. rewrite Ht. cbn. lia.
Qed.
Lemma token_ok secret routeId token : deriveRouteToken secret routeId = Ok token -> base64Url 64 token = true.
Proof.
  pose proof (token_bytes_ok _ (hmac_length secret (SABCL_DOMAIN.routeToken +:+ "|" +:+ routeId))) as Hl.
  unfold deriveRouteToken. intros H. sabcl_run. by subst.
Qed.
Section Healthy.
Variable now : Z.
Variable client : SabclClientOptions.
Variable cfg : RouterConfig.
Variable o : RecipientOptions.
Variable deployed : list (string * option RecipientOptions).
Variable fresh : Freshness.
Variables nonce routeId serviceName token secret : string.
Variables recipient sender : SabclPublicIdentity.
Variable r : SabclInnerRequest.
Hypothesis Hh : healthy now client cfg o deployed fresh nonce routeId serviceName token secret recipient sender r.

(** The client's envelope, and that the recipient opens it. *)
Lemma healthy_sealed : exists e opened,
  sealRequest (kr_own (sl_keyring client)) recipient token (inner_request_json r)
    (Some (default SABCL_DEFAULT_TTL_SECONDS (sl_ttlSeconds client))) (Some (default SABCL_DEFAULT_HOP_LIMIT (sl_hopLimit client)))
    (now_seconds now) fresh = Ok (mkSealedRequest e secret) /\
  envelope_ok e = true /\ en_mid e = message_id fresh /\ en_skid e = pi_keyId (kr_own (sl_keyring client)) /\ en_rt e = token /\
  0 < en_hl e /\ fresh_at (now_seconds now) e = Ok tt /\
  openRequest (kr_own (re_keyring o)) (re_keyring o) e (now_seconds now) = Ok opened /\
  or_payload opened = inner_request_json r /\ or_messageId opened = message_id fresh /\ or_responseSecret opened = secret /\
  byte_length (text (envelope_json e)) <= 100000.
Proof.
  destruct Hh.
  destruct (seal_request_ok (kr_own (sl_keyring client)) recipient token (inner_request_json r)
    (default SABCL_DEFAULT_TTL_SECONDS (sl_ttlSeconds client)) (default SABCL_DEFAULT_HOP_LIMIT (sl_hopLimit client))
    (now_seconds now) fresh secret) as (e & Hseal & He).
  { constructor; try done; [by apply inner_request_plain|by rewrite he_recipient_key0|by eapply token_ok]. }
  assert (Hop : openRequest (kr_own (re_keyring o)) (re_keyring o) e (now_seconds now) =
    Ok (mkOpenedRequest (inner_request_json r) (en_mid e) (en_skid e) (pu_service sender) token secret)).
  { eapply open_request_ok; try done; [by apply inner_request_plain|apply he_ttl0|unfold SABCL_CLOCK_SKEW_SECONDS; lia|].
    rewrite x25519_agrees, <- he_encryption0. exact he_secret0. }
  exists e, (mkOpenedRequest (inner_request_json r) (en_mid e) (en_skid e) (pu_service sender) token secret).
  destruct He. split; [done|]. split_and!; try done.
  - lia.
  - unfold openRequest in Hop. destruct (fresh_at _ e) as [[]|] eqn:Hf; [done|discriminate Hop].
  - by apply envelope_text_length.
Qed.
End Healthy.
End Calls.

(** * A call over SABCL answers what the service answers *)

Section Calls.
Context {Env : Type} {prim : SabclPrimitives} {urls : Urls} {service : LoopbackService Env}.
Abbreviation SabclM := (M (System SabclStore Env) SabclErr).

(** ** What a message in transit leaves *)
(** A lost message leaves the service alone; a lost answer does not. *)
Definition env_after (d : Delivery) (env env' : Env) : Env := match d with MessageLost => env | _ => env' end.
(** To the caller a lost message and a silent service look alike. *)
Definition heard (d : Delivery) (reply : option HttpReply) : option HttpReply := match d with Delivered => reply | _ => None end.
Lemma heard_carried d reply : carried reply -> carried (heard d reply).
Proof. by destruct d. Qed.
(** An outcome that carries [reply] under the secret of the request, or says
    that nobody answered. *)
Definition answers (p : SabclPublicIdentity) (secret mid : string) (out : SabclOutcome) (reply : option HttpReply) : Prop :=
  match reply with
  | None => out = rejected SABCL_RECIPIENT_UNAVAILABLE
  | Some h => exists e, out = mkOutcomeOf 200 (response_envelope_json e) /\ response_envelope_ok e = true /\
      openResponse p secret mid e = Ok (inner_response_json (mkInnerResponse (hp_status h) (hp_body h)))
  end.
Lemma rejected_read c : reply_ok (as_reply (rejected c)) = false /\ error_code_of (hp_body (as_reply (rejected c))) = Some c.
Proof. by destruct c. Qed.

(** ** The rate counter *)
Definition rate_key (cfg : RouterConfig) (keyId : string) : string := rc_redisKeyPrefix cfg +:+ "rate:" +:+ keyId.
Lemma expire_ne now k k' ttl (r : Redis) : k <> k' -> redis_live now k (redis_expire now k' ttl r) = redis_live now k r.
Proof. intros H. unfold redis_expire. destruct (redis_live now k' r) as [[v x]|]; [by apply live_ne|done]. Qed.
Lemma rate_alone now cfg keyId n r1 st (env : Env) : redis_incr now (rate_key cfg keyId) (sc_redis st) = Some (n, r1) ->
  exists st', incrementRate now cfg keyId (alone st env) = (Ok n, alone st' env) /\
    forall k, k <> rate_key cfg keyId -> redis_live now k (sc_redis st') = redis_live now k (sc_redis st).
Proof.
  intros H. assert (Hne : forall k, k <> rate_key cfg keyId -> redis_live now k r1 = redis_live now k (sc_redis st)).
  { intros k Hk. unfold redis_incr in H. destruct (default _ _) as [v x]. destruct (canonical_integer v) as [m|]; [|done]. cbn in H.
    destruct ((_ <=? _) && _); [|done]. injection H as _ <-. by apply live_ne. }
  unfold incrementRate. fold (rate_key cfg keyId). set (st1 := sc_update (fun _ => r1) st).
  rewrite (bind_Ok _ _ _ _ _ n (alone st1 env)) by (by rewrite atomic_alone, H).
  destruct (n =? 1).
  - rewrite (bind_Ok _ _ _ _ _ tt (alone (sc_update (redis_expire now (rate_key cfg keyId) 60) st1) env)) by (by rewrite atomic_alone).
    eexists. split; [reflexivity|]. intros k Hk. cbn. by rewrite expire_ne, Hne.
  - rewrite (bind_Ok _ _ _ _ _ tt (alone st1 env)) by done. eexists. split; [reflexivity|exact Hne].
Qed.
Lemma claim_alone now prefix mid ttl st (env : Env) : redis_live now (replay_key prefix mid) (sc_redis st) = None ->
  exists st', remember now prefix mid ttl (alone st env) = (Ok true, alone st' env) /\
    is_Some (redis_live now (replay_key prefix mid) (sc_redis st')) /\
    forall k, k <> replay_key prefix mid -> redis_live now k (sc_redis st') = redis_live now k (sc_redis st).
Proof.
  intros H. rewrite remember_alone, claim_fresh by done. eexists. split; [reflexivity|]. split; [|intros k Hk; by apply live_ne].
  cbn. rewrite live_set by lia. eauto.
Qed.
Lemma rate_not_replay cfg keyId mid : replay_key (rc_redisKeyPrefix cfg) mid <> rate_key cfg keyId.
Proof. intros H. by apply str_app_inj_l in H. Qed.
Lemma other_prefix p p' mid : p <> p' -> replay_key p mid <> replay_key p' mid.
Proof.
  unfold replay_key. intros Hne H. apply Hne. by apply str_app_inj_r in H.
Qed.

Section Healthy.
Variable now : Z.
Variable client : SabclClientOptions.
Variable cfg : RouterConfig.
Variable o : RecipientOptions.
Variable deployed : list (string * option RecipientOptions).
Variable fresh : Freshness.
Variables nonce routeId serviceName token secret : string.
Variables recipient sender : SabclPublicIdentity.
Variable r : SabclInnerRequest.
Hypothesis Hh : healthy now client cfg o deployed fresh nonce routeId serviceName token secret recipient sender r.
(** The message, and what the stores have to say about it: its sender is below
    the router's limit, and the router has not seen it. *)
Variable env : Env.
Variables (st : SabclStore) (n : Z) (r1 : Redis).
Hypothesis Hrate : redis_incr now (rate_key cfg (pi_keyId (kr_own (sl_keyring client)))) (sc_redis st) = Some (n, r1).
Hypothesis Hlimit : n <= rc_rateLimitPerMinute cfg.
Hypothesis Hrouter : redis_live now (replay_key (rc_redisKeyPrefix cfg) (message_id fresh)) (sc_redis st) = None.

(** The router forwards a message that nobody has seen. *)
Lemma router_forwards fetch e : en_mid e = message_id fresh -> en_skid e = pi_keyId (kr_own (sl_keyring client)) ->
  en_rt e = token -> 0 < en_hl e -> fresh_at (now_seconds now) e = Ok tt ->
  exists st2 destination, jget destination deployed = Some (Some o) /\
    is_Some (redis_live now (replay_key (rc_redisKeyPrefix cfg) (message_id fresh)) (sc_redis st2)) /\
    (forall k, k <> rate_key cfg (pi_keyId (kr_own (sl_keyring client))) -> k <> replay_key (rc_redisKeyPrefix cfg) (message_id fresh) ->
      redis_live now k (sc_redis st2) = redis_live now k (sc_redis st)) /\
    forall res st4 env1, forward fetch destination e (alone st2 env) = (res, alone st4 env1) ->
      exists st5, route_envelope now fetch cfg e (alone st env) = (res, alone st5 env1).
Proof.
  intros Hmid Hskid Hrt Hhl Hfresh.
  destruct (rate_alone now cfg _ n r1 st env Hrate) as (st1 & Hst1 & Hl1).
  destruct (claim_alone now (rc_redisKeyPrefix cfg) (message_id fresh) (Z.max 1 (en_exp e - now_seconds now + 1)) st1 env)
    as (st2 & Hst2 & Hlive & Hl2); [rewrite Hl1; [done|apply rate_not_replay]|].
  destruct Hh, he_route0 as (route & Hroute & Hdep). exists st2, (rt_destination route). split_and!; [done..|by intros; rewrite Hl2, Hl1|].
  intros res st4 env1 Hf. unfold route_envelope. rewrite (bind_Ok _ _ _ _ _ tt (alone st env)) by (by rewrite Hfresh).
  rewrite Hskid, Hmid, Hrt. destruct (peer (rc_keyring cfg) _ _) as [p|] eqn:Hpeer; [|discriminate he_router0].
  rewrite (bind_Ok _ _ _ _ _ p (alone st env)) by done. rewrite (proj2 (Z.leb_gt _ _)) by lia.
  rewrite (bind_Ok _ _ _ _ _ tt (alone st env)) by done. rewrite (bind_Ok _ _ _ _ _ _ _ Hst1).
  rewrite (proj2 (Z.ltb_ge _ _)) by lia. rewrite (bind_Ok _ _ _ _ _ tt (alone st1 env)) by done.
  rewrite (bind_Ok _ _ _ _ _ route (alone st1 env)) by (by rewrite Hroute).
  rewrite (bind_Ok _ _ _ _ _ _ _ Hst2). rewrite (bind_Ok _ _ _ _ _ tt (alone st2 env)) by done.
  destruct res as [out'|err]; [rewrite (bind_Ok _ _ _ _ _ _ _ Hf)|rewrite (bind_Err _ _ _ _ _ _ _ Hf); by exists st4].
  cbv zeta. eexists. unfold audit. rewrite (bind_Ok _ _ _ _ _ tt _) by (by rewrite atomic_alone). reflexivity.
Qed.
(** What the router answers for a message, by what forwarding it gives. *)
Lemma router_accepts fetch e res st5 env1 : envelope_ok e = true -> byte_length (text (envelope_json e)) <= 100000 ->
  route_envelope now fetch cfg e (alone st env) = (res, alone st5 env1) ->
  exists st', accept now fetch cfg (envelope_json e) (Some (byte_length (text (envelope_json e)))) (alone st env) =
    (Ok (match res with Ok out => out | Err err => rejected (toSabclError err SABCL_MALFORMED) end), alone st' env1).
Proof.
  intros Hok Hlen Hres. unfold accept, route. cbn [from_option]. unfold id.
  rewrite safe_integer_nonneg by (unfold byte_length, max_safe_integer in *; lia).
  destruct Hh. rewrite (proj2 (Z.ltb_ge _ _)), (envelope_schema _ Hok) by lia. unfold try_catch. rewrite Hres.
  destruct res as [out|err]; [by eexists|]. unfold reject_envelope, audit. cbv zeta.
  rewrite (bind_Ok _ _ _ _ _ tt _) by (by rewrite atomic_alone). by eexists.
Qed.
(** The client reads a rejection. *)
Lemma client_rejected d' e c st' env1 :
  sealRequest (kr_own (sl_keyring client)) recipient token (inner_request_json r)
    (Some (default SABCL_DEFAULT_TTL_SECONDS (sl_ttlSeconds client))) (Some (default SABCL_DEFAULT_HOP_LIMIT (sl_hopLimit client)))
    (now_seconds now) fresh = Ok (mkSealedRequest e secret) ->
  accept now (fetch_destination now deployed d' nonce) cfg (envelope_json e) (Some (byte_length (text (envelope_json e)))) (alone st env) =
    (Ok (rejected c), alone st' env1) ->
  sabcl_call now deployed Delivered d' client cfg fresh nonce routeId serviceName r (alone st env) = (refuse c, alone st' env1).
Proof.
  intros Hseal Hacc. destruct Hh. unfold sabcl_call, send.
  rewrite (bind_Ok _ _ _ _ _ recipient (alone st env)) by (by rewrite he_recipient0).
  rewrite (bind_Ok _ _ _ _ _ token (alone st env)) by (by rewrite he_token0).
  rewrite (bind_Ok _ _ _ _ _ (mkSealedRequest e secret) (alone st env)) by (by rewrite Hseal). cbn [sr_envelope sr_responseSecret].
  unfold post_to_router, over_network.
  rewrite (bind_Ok _ _ _ _ _ (Some (as_reply (rejected c))) (alone st' env1)) by (by rewrite (bind_Ok _ _ _ _ _ _ _ Hacc)).
  rewrite (bind_Ok _ _ _ _ _ (as_reply (rejected c)) (alone st' env1)) by done. by destruct (rejected_read c) as [-> ->].
Qed.

(** A recipient that shares the router's Redis prefix refuses every message
    as replayed: the router claimed its identifier under the same key a moment
    before, and the service is never called. *)
Theorem shared_prefix_refuses : re_prefix o = rc_redisKeyPrefix cfg -> exists st',
  sabcl_call now deployed Delivered Delivered client cfg fresh nonce routeId serviceName r (alone st env) =
    (refuse SABCL_REPLAYED, alone st' env).
Proof.
  intros Hprefix. destruct (healthy_sealed _ _ _ _ _ _ _ _ _ _ _ _ _ _ Hh)
    as (e & opened & Hseal & Hok & Hmid & Hskid & Hrt & Hhl & Hfresh & Hop & Hpl & Hmid' & Hsec & Hlen).
  destruct (router_forwards (fetch_destination now deployed Delivered nonce) e) as (st2 & destination & Hdep & [x Hlive] & _ & Hroute); try done.
  assert (Hf : forward (fetch_destination now deployed Delivered nonce) destination e (alone st2 env) = (refuse SABCL_REPLAYED, alone st2 env)).
  { unfold forward, fetch_destination. rewrite Hdep. unfold over_network, sabcl_inbound.
    pose proof (handle_opened now o nonce e opened st2 env Hok Hop) as Hhand.
    rewrite Hmid, Hprefix, (claim_taken _ _ _ _ _ Hlive) in Hhand.
    rewrite (bind_Ok _ _ _ _ _ (Some (as_reply (rejected SABCL_REPLAYED))) (alone st2 env)) by (by rewrite (bind_Ok _ _ _ _ _ _ _ Hhand)).
    done. }
  destruct (Hroute _ _ _ Hf) as [st5 H5]. destruct (router_accepts _ e _ _ _ Hok Hlen H5) as [st' Hacc].
  exists st'. by eapply client_rejected.
Qed.

Variable target : string.
Hypothesis Hreach : reaches o r target.
Variable env' : Env.
Variable reply : option HttpReply.
Hypothesis Hcall : call_service (loopback_call (re_loopback o) target r) env = (reply, env').
Hypothesis Hcarried : carried reply.
Hypothesis Hrecipient : redis_live now (replay_key (re_prefix o) (message_id fresh)) (sc_redis st) = None.
Hypothesis Hprefixes : re_prefix o <> rc_redisKeyPrefix cfg.
Hypothesis Hkeys : replay_key (re_prefix o) (message_id fresh) <> rate_key cfg (pi_keyId (kr_own (sl_keyring client))).
Lemma message_id_ok : base64Url 32 (message_id fresh) = true.
Proof.
  destruct Hh, he_fresh0 as [Hm _]. apply base64Url_encode; [apply nonempty_length|unfold byte_length]; rewrite Hm; lia.
Qed.
(** The recipient, when it has not seen the message. *)
Lemma recipient_answers e opened st2 : envelope_ok e = true -> en_mid e = message_id fresh ->
  openRequest (kr_own (re_keyring o)) (re_keyring o) e (now_seconds now) = Ok opened ->
  or_payload opened = inner_request_json r -> or_messageId opened = message_id fresh -> or_responseSecret opened = secret ->
  redis_live now (replay_key (re_prefix o) (message_id fresh)) (sc_redis st2) = None ->
  exists out st', handle now o nonce (envelope_json e) (alone st2 env) = (Ok out, alone st' env') /\
    answers recipient secret (message_id fresh) out reply.
Proof.
  intros Hok Hmid Hop Hpl Hmid' Hsec Hlive. rewrite (handle_opened _ _ _ _ _ _ _ Hok Hop), Hmid, claim_fresh by done.
  destruct Hh. match goal with |- context [alone ?x env] => set (st1 := x) end.
  pose proof (dispatch_answers o nonce opened r target st1 env recipient Hpl Hreach) as Hd. rewrite Hmid', Hsec, Hcall in Hd.
  destruct (Hd message_id_ok he_recipient_id0 he_nonce0 he_recipient_key0 he_recipient_sign0 Hcarried) as (res & Hres & Ha).
  unfold try_catch. rewrite Hres. destruct reply as [h|].
  - destruct Ha as (re & -> & Hre). eexists _, _. split; [reflexivity|]. by exists re.
  - subst res. by eexists _, _.
Qed.
(** What the router makes of the answer of a destination. *)
Lemma forward_answers destination fetch e out st1 st2 env1 d :
  fetch destination (envelope_json e) (alone st1 env) = (Ok (match d with Delivered => Some (as_reply out) | _ => None end), alone st2 env1) ->
  (d = Delivered -> answers recipient secret (message_id fresh) out reply) ->
  exists res, forward fetch destination e (alone st1 env) = (res, alone st2 env1) /\
    answers recipient secret (message_id fresh)
      (match res with Ok out => out | Err err => rejected (toSabclError err SABCL_MALFORMED) end) (heard d reply).
Proof.
  intros Hf Ha. unfold forward. rewrite (bind_Ok _ _ _ _ _ _ _ Hf). destruct d; [specialize (Ha eq_refl)|by eexists..].
  rewrite (bind_Ok _ _ _ _ _ (as_reply out) (alone st2 env1)) by done. cbn [heard].
  destruct reply as [h|]; cbn [answers] in *.
  - destruct Ha as (re & -> & Hok & Hopen). cbn [as_reply oc_status oc_body hp_status hp_body].
    change (reply_ok _) with true. cbn [negb].
    rewrite (bind_Ok _ _ _ _ _ re (alone st2 env1)) by (cbn -[sabclResponseEnvelopeSchema response_envelope_json]; by rewrite response_schema).
    eexists. split; [reflexivity|]. by exists re.
  - subst out. destruct (rejected_read SABCL_RECIPIENT_UNAVAILABLE) as [-> ->]. by eexists.
Qed.
(** The router, for the envelope of the client. *)
Lemma router_answers d e opened : envelope_ok e = true -> en_mid e = message_id fresh ->
  en_skid e = pi_keyId (kr_own (sl_keyring client)) -> en_rt e = token -> 0 < en_hl e -> fresh_at (now_seconds now) e = Ok tt ->
  openRequest (kr_own (re_keyring o)) (re_keyring o) e (now_seconds now) = Ok opened ->
  or_payload opened = inner_request_json r -> or_messageId opened = message_id fresh -> or_responseSecret opened = secret ->
  byte_length (text (envelope_json e)) <= 100000 ->
  exists out st', accept now (fetch_destination now deployed d nonce) cfg (envelope_json e) (Some (byte_length (text (envelope_json e))))
      (alone st env) = (Ok out, alone st' (env_after d env env')) /\
    answers recipient secret (message_id fresh) out (heard d reply).
Proof.
  intros Hok Hmid Hskid Hrt Hhl Hfresh Hop Hpl Hmid' Hsec Hlen.
  destruct (router_forwards (fetch_destination now deployed d nonce) e) as (st2 & destination & Hdep & _ & Hl & Hroute); try done.
  destruct (recipient_answers e opened st2) as (out & st3 & Hh3 & Hout); try done.
  { rewrite Hl; [done..|]. by apply other_prefix. }
  assert (Hf : exists st4, fetch_destination now deployed d nonce destination (envelope_json e) (alone st2 env) =
    (Ok (match d with Delivered => Some (as_reply out) | _ => None end), alone st4 (env_after d env env'))).
  { unfold fetch_destination. rewrite Hdep. unfold over_network, sabcl_inbound. destruct d;
      [exists st3; by rewrite (bind_Ok _ _ _ _ _ _ _ Hh3)|by exists st2|exists st3; by rewrite (bind_Ok _ _ _ _ _ _ _ Hh3)]. }
  destruct Hf as [st4 Hf]. destruct (forward_answers _ _ e out st2 st4 _ d Hf) as (res & Hres & Ha); [done|].
  destruct (Hroute _ _ _ Hres) as [st5 H5]. destruct (router_accepts _ e _ _ _ Hok Hlen H5) as [st' Hacc]. by eexists _, st'.
Qed.

(** A call through healthy parties, of a request that the recipient permits,
    answers exactly what the service behind the recipient answers and does to
    it exactly what that call does, once; whatever the network loses, the
    caller reads [SABCL_RECIPIENT_UNAVAILABLE], and the service was called
    unless the message itself was lost on the way to it. *)
Theorem healthy_call_answers d d' : exists st',
  sabcl_call now deployed d d' client cfg fresh nonce routeId serviceName r (alone st env) =
    (answer_of (heard d (heard d' reply)), alone st' (env_after d env (env_after d' env env'))).
Proof.
  destruct (healthy_sealed _ _ _ _ _ _ _ _ _ _ _ _ _ _ Hh)
    as (e & opened & Hseal & Hok & Hmid & Hskid & Hrt & Hhl & Hfresh & Hop & Hpl & Hmid' & Hsec & Hlen).
  destruct (router_answers d' e opened) as (out & st' & Hacc & Ha); try done. destruct Hh.
  unfold sabcl_call, send. rewrite (bind_Ok _ _ _ _ _ recipient (alone st env)) by (by rewrite he_recipient0).
  rewrite (bind_Ok _ _ _ _ _ token (alone st env)) by (by rewrite he_token0).
  rewrite (bind_Ok _ _ _ _ _ (mkSealedRequest e secret) (alone st env)) by (by rewrite Hseal). cbn [sr_envelope sr_responseSecret].
  unfold post_to_router. destruct d; cbn [over_network heard env_after].
  - exists st'. rewrite (bind_Ok _ _ _ _ _ (Some (as_reply out)) (alone st' (env_after d' env env'))) by (by rewrite (bind_Ok _ _ _ _ _ _ _ Hacc)).
    rewrite (bind_Ok _ _ _ _ _ (as_reply out) (alone st' (env_after d' env env'))) by done.
    pose proof (heard_carried d' reply Hcarried) as Hc. destruct (heard d' reply) as [h|]; cbn [answers] in Ha.
    + destruct Ha as (re & -> & Hre & Hopen), Hc as (Hst & Hb & _). cbn [as_reply oc_status oc_body hp_status hp_body].
      change (reply_ok _) with true. cbn [negb]. rewrite (bind_Ok _ _ _ _ _ tt (alone st' (env_after d' env env'))) by done.
      rewrite (bind_Ok _ _ _ _ _ re (alone st' (env_after d' env env'))) by
        (cbn -[sabclResponseEnvelopeSchema response_envelope_json]; by rewrite response_schema).
      rewrite Hmid. rewrite (bind_Ok _ _ _ _ _ _ _ (f_equal (fun x => (x, alone st' (env_after d' env env'))) Hopen)).
      by rewrite inner_response_schema.
    + subst out. destruct (rejected_read SABCL_RECIPIENT_UNAVAILABLE) as [-> ->]. done.
  - by exists st.
  - exists st'. by rewrite (bind_Ok _ _ _ _ _ None (alone st' (env_after d' env env'))) by (by rewrite (bind_Ok _ _ _ _ _ _ _ Hacc)).
Qed.
End Healthy.
End Calls.
