(* ===== verification/SabclWitnesses.v ===== *)
(** * SABCL at concrete inputs: toy primitives, two services and the router between them *)

From Stdlib Require Import ZArith Lia Ascii String.
From stdpp Require Import base strings list gmap.
From S2P Require Import Prelude.
From S2P Require Import Js.
From S2P Require Import Codec.
From S2P Require Import Services.
From S2P Require Import Regex.
From S2P Require Import RiskTypes.
From S2P Require Import SabclWire.
From S2P Require Import SabclCrypto.
From S2P Require Import SabclServices.
From S2P Require Import SabclWireProofs.
From S2P Require Import SabclSealProofs.
From S2P Require Import SabclProperties.
From S2P Require Import SabclNetwork.

Open Scope Z_scope.

(** ** Primitives that satisfy the laws *)
Definition fit (n : nat) (s : string) : string := str_take n (s +:+ zeros (Z.of_nat n)).
Lemma fit_length n s : String.length (fit n s) = n.
Proof.
  unfold fit, zeros. rewrite str_length_take, str_length_app, Nat2Z.id.
  assert (H : forall m, String.length (repeat_str (String (ascii_of_nat 0) "") m) = m) by (induction m as [|m IH]; [done|cbn [repeat_str]; rewrite str_length_app, IH; done]). rewrite H. lia.
Qed.
Fixpoint checksum (acc : Z) (s : string) : Z :=
  match s with EmptyString => acc | String c s => checksum ((acc * 31 + code c + 7) mod 2 ^ 40) s end.
Definition digest (s : string) : string := bigint_to_string (checksum 0 s).
Fixpoint mix (a b : string) : string :=
  match a, b with String c a, String d b => String (byte_char ((code c + code d) mod 256)) (mix a b) | _, _ => "" end.
Lemma mix_comm a b : mix a b = mix b a.
Proof. revert b. induction a as [|c a IH]; intros [|d b]; cbn [mix]; [done..|]. by rewrite IH, Z.add_comm. Qed.
#[export] Program Instance toy_primitives : SabclPrimitives := {
  importable := fun _ _ => true;
  x25519_public := fit 32;
  x25519 := fun a p => Some (mix (fit 32 a) p);
  ed25519_public := fun k => k;
  ed25519_sign := fun k m => fit 64 (digest (k +:+ m));
  ed25519_verify := fun p m s => String.eqb s (fit 64 (digest (p +:+ m)));
  hkdf_sha256 := fun s n i => digest (s +:+ n +:+ i);
  aes_gcm_seal := fun k n p a => (p, fit 16 (digest (k +:+ n +:+ p +:+ a)));
  aes_gcm_open := fun k n c t a => if String.eqb t (fit 16 (digest (k +:+ n +:+ c +:+ a))) then Some c else None;
  hmac_digest := fun k m => fit 32 (digest (k +:+ m));
  sha256_hex := fun s => str_take 64 (digest s +:+ repeat_str "0" 64)
}.
Next Obligation. intros a b. cbn. by rewrite mix_comm. Qed.
Next Obligation. intros k. split; [done|apply (fit_length 32)]. Qed.
Next Obligation. intros k m. apply String.eqb_refl. Qed.
Next Obligation. intros k m. apply (fit_length _ (digest _)). Qed.
Next Obligation. intros k n p a. cbn. by rewrite String.eqb_refl. Qed.
Next Obligation. intros k n p a. split; [done|apply (fit_length 16)]. Qed.
Next Obligation. intros k m. apply (fit_length _ (digest _)). Qed.
(** Paths below the one origin there is. *)
#[export] Instance toy_urls : Urls := {
  url_protocol := fun _ => Some "http:"%string;
  url_resolve := fun path base => Some (base, base +:+ path);
  url_origin := fun base => Some base
}.
(** A service that counts its calls. *)
#[export] Instance toy_service : LoopbackService nat := {
  call_service := fun c n => (Some (mkHttpReply 200 (Some (JObj [("target", JStr (lc_target c))]%string))), S n)
}.

(** ** Two services and the router between them *)
Definition payments_key : SabclPrivateIdentity := mkPrivateIdentity "payments.v1" "payments" "payments encryption" "payments signing" None.
Definition ledger_key : SabclPrivateIdentity := mkPrivateIdentity "ledger.v1" "ledger" "ledger encryption" "ledger signing" None.
Definition router_key : SabclPrivateIdentity := mkPrivateIdentity "router.v1" "router" "router encryption" "router signing" None.
Definition route_secret : string := "0123456789abcdef0123456789abcdef".
Definition payments_client : SabclClientOptions :=
  mkClient (mkKeyring payments_key [public_of ledger_key]) route_secret None None.
Definition ledger_recipient (prefix : string) : RecipientOptions :=
  mkRecipient (mkKeyring ledger_key [public_of payments_key]) prefix (capabilitiesForService "ledger")
    (mkLoopback "http://127.0.0.1:3002" "internal token").
Definition ledger_routes : SabclRouteTable :=
  match newRouteTable route_secret (map (fun id => mkRoute id "ledger" "http://ledger" None) (routeIdsForService "ledger")) with
  | Ok t => t
  | Err _ => []
  end.
Definition router : RouterConfig :=
  mkRouterConfig "test" "127.0.0.1" 4103 "redis://127.0.0.1" "aegis:sabcl:" 5000 600 262144
    (mkSabclEnvironment strict (mkKeyring router_key [public_of payments_key; public_of ledger_key]) route_secret) ledger_routes.
Definition sabcl_deployed (prefix : string) : list (string * option RecipientOptions) := [("http://ledger"%string, Some (ledger_recipient prefix))].
Definition sabcl_fresh : Freshness := mkFreshness "0123456789abcdef" "0123456789ab" "ephemeral".
Definition sabcl_nonce : string := "ba9876543210".
Definition sabcl_now : Z := 1700000000000.
Definition balance_request : SabclInnerRequest :=
  mkInnerRequest "ledger.accounts.balance" "GET" "/internal/customer-accounts/acc-1/balance" None (Some (Some "cust-1"%string)) "corr-1".
Definition no_messages : SabclStore := mkSabclStore ∅ [].

(** ** A call that goes through *)
Definition sabcl_token : string := match deriveRouteToken route_secret "ledger.accounts" with Ok t => t | Err _ => "" end.
Definition sabcl_secret : string := mix (fit 32 "ephemeral") (pu_encryptionPublicKey (public_of ledger_key)).
Definition balance_target : string := "http://127.0.0.1:3002/internal/customer-accounts/acc-1/balance".
Lemma toy_healthy prefix : healthy sabcl_now payments_client router (ledger_recipient prefix) (sabcl_deployed prefix) sabcl_fresh sabcl_nonce
  "ledger.accounts" "ledger" sabcl_token sabcl_secret (public_of ledger_key) (public_of payments_key) balance_request.
Proof.
  constructor; lazymatch goal with |- _ = _ => vm_compute; reflexivity | |- _ => idtac end.
  - exists (mkRoute "ledger.accounts" "ledger" "http://ledger" None). split; [vm_compute; reflexivity|reflexivity].
  - by split.
  - by split.
  - by split.
  - by split.
  - exact I.
  - by vm_compute.
  - by vm_compute.
Qed.
Lemma toy_reaches prefix : reaches (ledger_recipient prefix) balance_request balance_target.
Proof. constructor; try reflexivity. exists "http://127.0.0.1:3002"%string. by split. Qed.
Definition toy_reply : HttpReply := mkHttpReply 200 (Some (JObj [("target", JStr balance_target)]%string)).
Lemma healthy_call_answers_witness : exists st',
  sabcl_call sabcl_now (sabcl_deployed "aegis:sabcl:ledger:") Delivered Delivered payments_client router sabcl_fresh sabcl_nonce
    "ledger.accounts" "ledger" balance_request (alone no_messages 0%nat) = (answer_of (Some toy_reply), alone st' 1%nat).
Proof.
  eapply (healthy_call_answers _ _ _ _ _ _ _ _ _ _ _ _ _ _ (toy_healthy "aegis:sabcl:ledger:") 0%nat no_messages _ _
    eq_refl ltac:(vm_compute; congruence) eq_refl balance_target (toy_reaches _) 1%nat (Some toy_reply) eq_refl
    ltac:(vm_compute; intuition congruence) eq_refl ltac:(discriminate) ltac:(vm_compute; discriminate) Delivered Delivered).
Defined.
Lemma shared_prefix_refuses_witness : exists st',
  sabcl_call sabcl_now (sabcl_deployed "aegis:sabcl:") Delivered Delivered payments_client router sabcl_fresh sabcl_nonce
    "ledger.accounts" "ledger" balance_request (alone no_messages 0%nat) = (refuse SABCL_REPLAYED, alone st' 0%nat).
Proof.
  eapply (shared_prefix_refuses _ _ _ _ _ _ _ _ _ _ _ _ _ _ (toy_healthy "aegis:sabcl:") 0%nat no_messages _ _
    eq_refl ltac:(vm_compute; congruence) eq_refl). reflexivity.
Defined.

(** The token of one route carries a request of another capability of the same
    service: nothing compares the two. *)
Definition posting_request : SabclInnerRequest :=
  mkInnerRequest "ledger.postings.commit" "POST" "/internal/customer-transfers" (Some (JObj [])) None "corr-2".
Example token_not_bound : exists st' body,
  sabcl_call sabcl_now (sabcl_deployed "aegis:sabcl:ledger:") Delivered Delivered payments_client router sabcl_fresh sabcl_nonce
    "ledger.accounts" "ledger" posting_request (alone no_messages 0%nat) = (Ok (mkInnerResponse 200 (Some body)), alone st' 1%nat).
Proof. eexists _, _. vm_compute. reflexivity. Qed.

(** ** One message, handled twice *)
Definition sabcl_envelope : SabclEnvelope :=
  match sealRequest payments_key (public_of ledger_key) sabcl_token (inner_request_json balance_request) None None
          (now_seconds sabcl_now) sabcl_fresh with
  | Ok sealed => sr_envelope sealed
  | Err _ => mkEnvelope "" "" "" "" "" "" 0 0 "" 0 0 "" "" ""
  end.
Definition the_recipient : RecipientOptions := ledger_recipient "aegis:sabcl:ledger:".
Definition first_outcome : SabclOutcome :=
  match (handle sabcl_now the_recipient sabcl_nonce (envelope_json sabcl_envelope) (alone no_messages 0%nat)).1 with
  | Ok a => a
  | Err _ => mkOutcomeOf 0 JNull
  end.
Definition first_state : System SabclStore nat :=
  (handle sabcl_now the_recipient sabcl_nonce (envelope_json sabcl_envelope) (alone no_messages 0%nat)).2.
Lemma first_handled : handle sabcl_now the_recipient sabcl_nonce (envelope_json sabcl_envelope) (alone no_messages 0%nat) =
  (Ok first_outcome, first_state).
Proof. vm_compute. reflexivity. Qed.
Lemma first_answered : oc_status first_outcome = 200.
Proof. vm_compute. reflexivity. Qed.
Lemma envelope_read : sabclEnvelopeSchema (envelope_json sabcl_envelope) = Some sabcl_envelope.
Proof. vm_compute. reflexivity. Qed.
Lemma sabcl_dispatch_guarded_witness :
  exists e opened inner, sabclEnvelopeSchema (envelope_json sabcl_envelope) = Some e /\
    authentic (kr_own (re_keyring the_recipient)) (re_keyring the_recipient) e (now_seconds sabcl_now) opened /\
    sabclInnerRequestSchema (or_payload opened) = Some inner /\ permitted (re_capabilities the_recipient) inner /\
    called the_recipient inner (senv (alone no_messages 0%nat)) (senv first_state).
Proof. exact (sabcl_dispatch_guarded _ _ _ _ _ _ _ first_handled (or_intror first_answered)). Defined.
Lemma sabcl_at_most_once_witness : exists a2 s2,
  handle (sabcl_now + 1000) the_recipient sabcl_nonce (envelope_json sabcl_envelope)
    (mkSystem (sdb first_state) (senv first_state) []) = (Ok a2, s2) /\
  senv s2 = senv first_state /\ oc_status a2 <> 200.
Proof.
  exact (sabcl_at_most_once the_recipient _ _ sabcl_envelope sabcl_envelope _ _ sabcl_now sabcl_now (sabcl_now + 1000) _ _ _ _ _ _
    envelope_read first_handled (or_intror first_answered) (served_start _ _ _ _)
    ltac:(lia) (Forall_nil_2 _) envelope_read eq_refl ltac:(lia)).
Defined.

(** ** Two envelopes under one signature *)
Definition sabcl_resigned : SabclEnvelope :=
  let e := sabcl_envelope in
  mkEnvelope (en_v e) (en_mid e) (en_rt e) (en_skid e) (en_rkid e) (en_epk e) (en_iat e) (en_exp e) (en_n e) (en_hl e) (en_pad e)
    (en_ct e) (en_tag e) "AAAA".
Definition got (r : Sabcl string) : string := match r with Ok s => s | Err _ => "" end.
Lemma sabcl_signature_binds_witness : request_header sabcl_envelope = request_header sabcl_resigned /\
  en_ct sabcl_envelope = en_ct sabcl_resigned /\ en_tag sabcl_envelope = en_tag sabcl_resigned.
Proof.
  eapply (sabcl_signature_binds sabcl_envelope sabcl_resigned (got (canonicalRequestHeader sabcl_envelope))
    (got (canonicalRequestHeader sabcl_resigned)) (got (signing_input SABCL_DOMAIN.requestSignature (got (canonicalRequestHeader sabcl_envelope))
       (got (fromBase64Url (en_ct sabcl_envelope))) (got (fromBase64Url (en_tag sabcl_envelope)))))
    (got (fromBase64Url (en_ct sabcl_envelope))) (got (fromBase64Url (en_ct sabcl_resigned)))
    (got (fromBase64Url (en_tag sabcl_envelope))) (got (fromBase64Url (en_tag sabcl_resigned)))); vm_compute; reflexivity.
Defined.
