(* ===== verification/ResilienceDb.v ===== *)
(** * The store of the Resilience service: the tables of
    [services/resilience/prisma] with the statements that write them, their
    checks and their triggers *)

From Stdlib Require Import ZArith Lia Ascii String.
From stdpp Require Import base strings list.
From S2P Require Import Prelude.
From S2P Require Import Js.
From S2P Require Import Regex.
From S2P Require Import Contracts.
From S2P Require Import LedgerDb.
From S2P Require Import RiskTypes.
From S2P Require Import Services.
From S2P Require Import PaymentsDb.

Open Scope Z_scope.

Inductive ResilienceErr :=
| ResilienceHttpError (status : Z) (code : string)   (* Nest's HttpException and its subclasses *)
| ResilienceDbError (what : string)                  (* P2002, P2025, a violated check, an outage *)
| ResilienceZodError.

(** ** Enumerations ([packages/contracts/src/resilience/v1.ts]) *)
Inductive RecoveryDrillState :=
| PLANNED | RUNNING | BACKUP_CREATED | RESTORE_VERIFIED | RECONCILIATION_PASSED | PASSED | FAILED | CLEANED_UP.
#[export] Instance RecoveryDrillState_eq_dec : EqDecision RecoveryDrillState.
Proof. solve_decision. Defined.
Inductive ReconciliationStatus := PASS | FAIL.
#[export] Instance ReconciliationStatus_eq_dec : EqDecision ReconciliationStatus.
Proof. solve_decision. Defined.
Definition one_of (l : list string) (s : string) : bool := existsb (String.eqb s) l.
Definition resilienceServiceNameSchema : string -> bool := one_of ["identity"; "ledger"; "payments"; "risk"; "resilience"]%string.
Definition recoveryDrillTypeSchema : string -> bool := one_of ["SCHEDULED"; "MANUAL"; "CI_AUTOMATED"]%string.
Definition resilienceFailureCodeSchema : string -> bool :=
  one_of ["BACKUP_FAILED"; "MANIFEST_INVALID"; "CHECKSUM_MISMATCH"; "DECRYPTION_FAILED"; "INCOMPLETE_BACKUP_SET"; "RESTORE_FAILED";
          "RECONCILIATION_FAILED"; "CLEANUP_FAILED"; "DEPENDENCY_UNAVAILABLE"; "CONFIGURATION_INVALID"]%string.
Definition lower_hex : ascii -> bool := fun c => is_digit c || in_range "a" "f" c.
Definition sha256_rx : rx := rep_range 64 64 (Cls lower_hex).

(** ** Rows *)
Record BackupSet := mkBackupSet {
  bs_id : string;
  bs_backupSetId : string;
  bs_createdAt : Z;
  bs_services : list string;
  bs_manifestChecksum : string;
  bs_encryptionAlgorithm : string;
  bs_sizeBytes : Z;
  bs_verified : bool
}.
Record Drill := mkDrill {
  dl_id : string;
  dl_drillId : string;
  dl_type : string;
  dl_state : RecoveryDrillState;
  dl_startedAt : Z;
  dl_completedAt : option Z;
  dl_requestedBy : string;
  dl_backupSetId : option string;              (* a row of backup_sets *)
  dl_pointAgeSeconds : option Z;
  dl_durationMs : option Z;
  dl_failureCode : option string;
  dl_acknowledgedAt : option Z;
  dl_acknowledgedBy : option string;
  dl_acknowledgementReason : option string
}.
Record DrillEvent := mkDrillEvent {
  dv_eventId : string;
  dv_drillRowId : string;
  dv_state : RecoveryDrillState;
  dv_occurredAt : Z;
  dv_note : option string
}.
Record DrillReconciliation := mkDrillReconciliation {
  dr_drillRowId : string;
  dr_service : string;
  dr_status : ReconciliationStatus;
  dr_issueCount : Z;
  dr_checkedAt : Z
}.
Record ResilienceDb := mkResilienceDb {
  backupSets : list BackupSet;
  recoveryDrills : list Drill;
  drillEvents : list DrillEvent;
  drillReconciliations : list DrillReconciliation;
  res_uuidCounter : N
}.
Definition emptyResilience : ResilienceDb := mkResilienceDb [] [] [] [] 0.
Definition set_backups f db := mkResilienceDb (f (backupSets db)) (recoveryDrills db) (drillEvents db) (drillReconciliations db) (res_uuidCounter db).
Definition set_drills f db := mkResilienceDb (backupSets db) (f (recoveryDrills db)) (drillEvents db) (drillReconciliations db) (res_uuidCounter db).
Definition set_drill_events f db := mkResilienceDb (backupSets db) (recoveryDrills db) (f (drillEvents db)) (drillReconciliations db) (res_uuidCounter db).
Definition set_drill_reconciliations f db := mkResilienceDb (backupSets db) (recoveryDrills db) (drillEvents db) (f (drillReconciliations db)) (res_uuidCounter db).
Definition set_res_uuid f db := mkResilienceDb (backupSets db) (recoveryDrills db) (drillEvents db) (drillReconciliations db) (f (res_uuidCounter db)).

Abbreviation ResM := (M ResilienceDb ResilienceErr).
Definition res_check (ok : bool) (what : string) : ResM unit := throw_when (negb ok) (ResilienceDbError what).
Definition int4_ok (z : Z) : bool := (- 2 ^ 31 <=? z) && (z <? 2 ^ 31).
Definition measure_ok (o : option Z) : bool := when_present (fun z => int4_ok z && (0 <=? z)) o.
(** All three columns of an acknowledgement, or none. *)
Definition acknowledgement_ok (d : Drill) : bool :=
  match dl_acknowledgedAt d, dl_acknowledgedBy d, dl_acknowledgementReason d with
  | None, None, None | Some _, Some _, Some _ => true
  | _, _, _ => false
  end.
(** The checks, the foreign key and the column widths of [recovery_drills]. *)
Definition drill_row_ok (db : ResilienceDb) (d : Drill) : bool :=
  fits 128 (dl_drillId d) && recoveryDrillTypeSchema (dl_type d) && fits 128 (dl_requestedBy d)
  && when_present (fun id => bool_decide (is_Some (find_row bs_id id (backupSets db)))) (dl_backupSetId d)
  && measure_ok (dl_pointAgeSeconds d) && measure_ok (dl_durationMs d)
  && when_present (fun t => dl_startedAt d <=? t) (dl_completedAt d)
  && when_present (fits 64) (dl_failureCode d)
  && match dl_failureCode d with Some _ => bool_decide (dl_state d = FAILED) | None => true end
  && when_present (fits 128) (dl_acknowledgedBy d) && when_present (fits 500) (dl_acknowledgementReason d)
  && acknowledgement_ok d.

Section Statements.
Context {pg : Postgres}.
(** The clock of the service and of its database. *)
Variable now : Z.

(** [randomUUID()], and the identifiers the database draws *)
Definition res_uuid : ResM string := fun db => (Ok (uuid (res_uuidCounter db)), set_res_uuid N.succ db).

(** [backupSet.create] *)
Definition create_backup_set (mk : string -> BackupSet) : ResM BackupSet :=
  id ← res_uuid;
  db ← get;
  let row := mk id in
  _ ← res_check (negb (existsb (fun r => String.eqb (bs_id r) id || String.eqb (bs_backupSetId r) (bs_backupSetId row)) (backupSets db))) "P2002";
  _ ← res_check (fits 128 (bs_backupSetId row) && rx_match sha256_rx (bs_manifestChecksum row) && (0 <=? bs_sizeBytes row)
                 && (bs_sizeBytes row <? 2 ^ 63) && negb (bool_decide (bs_services row = []))
                 && String.eqb (bs_encryptionAlgorithm row) "AES-256-GCM") "backup_sets";
  _ ← modify (set_backups (fun l => l ++ [row]));
  mret row.
Definition verified_set (b : BackupSet) : BackupSet :=
  mkBackupSet (bs_id b) (bs_backupSetId b) (bs_createdAt b) (bs_services b) (bs_manifestChecksum b) (bs_encryptionAlgorithm b)
    (bs_sizeBytes b) true.
(** [backupSet.update({ data: { verified: true } })]: the trigger refuses a
    change of any other column that it names, and this one changes none. *)
Definition verify_backup_set (id : string) : ResM BackupSet :=
  db ← get;
  row ← require (find_row bs_id id (backupSets db)) (ResilienceDbError "P2025");
  _ ← modify (set_backups (update_row bs_id id verified_set));
  mret (verified_set row).

(** [recoveryDrill.create] *)
Definition create_drill (mk : string -> Drill) : ResM Drill :=
  id ← res_uuid;
  db ← get;
  let row := mk id in
  _ ← res_check (negb (existsb (fun r => String.eqb (dl_id r) id || String.eqb (dl_drillId r) (dl_drillId row)) (recoveryDrills db))) "P2002";
  _ ← res_check (drill_row_ok db row) "recovery_drills";
  _ ← modify (set_drills (fun l => l ++ [row]));
  mret row.
(** [recoveryDrill.update] *)
Definition update_drill (id : string) (f : Drill -> Drill) : ResM unit :=
  db ← get;
  row ← require (find_row dl_id id (recoveryDrills db)) (ResilienceDbError "P2025");
  _ ← res_check (drill_row_ok db (f row)) "recovery_drills";
  modify (set_drills (update_row dl_id id f)).
(** [drillEvent.create] *)
Definition create_drill_event (drillRowId : string) (state : RecoveryDrillState) (note : option string) : ResM unit :=
  id ← res_uuid;
  db ← get;
  let eventId := "event:" +:+ id in
  _ ← res_check (negb (existsb (fun e => String.eqb (dv_eventId e) eventId) (drillEvents db))) "P2002";
  _ ← res_check (bool_decide (is_Some (find_row dl_id drillRowId (recoveryDrills db))) && when_present (fits 500) note) "drill_events";
  modify (set_drill_events (fun l => l ++ [mkDrillEvent eventId drillRowId state now note])).
(** [drillReconciliation.create] *)
Definition create_reconciliation (drillRowId service : string) (status : ReconciliationStatus) (issueCount : Z) : ResM unit :=
  db ← get;
  _ ← res_check (negb (existsb (fun r => String.eqb (dr_drillRowId r) drillRowId && String.eqb (dr_service r) service)
                                (drillReconciliations db))) "P2002";
  _ ← res_check (bool_decide (is_Some (find_row dl_id drillRowId (recoveryDrills db))) && resilienceServiceNameSchema service
                 && int4_ok issueCount && (0 <=? issueCount)) "drill_reconciliations";
  modify (set_drill_reconciliations (fun l => l ++ [mkDrillReconciliation drillRowId service status issueCount now])).
End Statements.
