(* ===== verification/Resilience.v ===== *)
(** * The Resilience service: recovery drills and their evidence
    ([services/resilience/src/drills], [reconciliation], [health]) *)

From Stdlib Require Import ZArith Lia Ascii String.
From stdpp Require Import base strings list sorting.
From S2P Require Import Prelude.
From S2P Require Import Js.
From S2P Require Import JsNumber.
From S2P Require Import Regex.
From S2P Require Import Contracts.
From S2P Require Import Security.
From S2P Require Import LedgerDb.
From S2P Require Import RiskTypes.
From S2P Require Import Services.
From S2P Require Import PaymentsDb.
From S2P Require Import RiskDb.
From S2P Require Import RiskService.
From S2P Require Import RiskOperators.
From S2P Require Import ResilienceDb.

Open Scope Z_scope.

(** Which states may follow which. *)
Definition ALLOWED_TRANSITIONS (s : RecoveryDrillState) : list RecoveryDrillState :=
  match s with
  | PLANNED => [RUNNING; FAILED]
  | RUNNING => [BACKUP_CREATED; FAILED]
  | BACKUP_CREATED => [RESTORE_VERIFIED; FAILED]
  | RESTORE_VERIFIED => [RECONCILIATION_PASSED; FAILED]
  | RECONCILIATION_PASSED => [PASSED; FAILED]
  | PASSED => [CLEANED_UP]
  | FAILED => [CLEANED_UP]
  | CLEANED_UP => []
  end.

(** ** Requests and responses *)
Record RecordBackupSetInput := mkBackupInput {
  bi_backupSetId : string;
  bi_createdAt : Z;
  bi_services : list string;
  bi_manifestChecksum : string;
  bi_encryptionAlgorithm : string;
  bi_sizeBytes : Z
}.
Record ReportedReconciliation := mkReported { rp_service : string; rp_status : ReconciliationStatus; rp_issueCount : Z }.
Record AdvanceDrillInput := mkAdvance {
  ad_drillId : string;
  ad_state : RecoveryDrillState;
  ad_note : option string;
  ad_backupSetId : option string;
  ad_pointAgeSeconds : option Z;
  ad_durationMs : option Z;
  ad_failureCode : option string;
  ad_reconciliations : option (list ReportedReconciliation)
}.
Record BackupSetSummary := mkBackupSummary {
  sm_backupSetId : string;
  sm_createdAt : string;
  sm_services : list string;
  sm_manifestChecksum : string;
  sm_encryptionAlgorithm : string;
  sm_sizeBytes : Z;
  sm_verified : bool
}.
Record ReconciliationSummary := mkReconciliationSummary {
  rs_service : string; rs_status : ReconciliationStatus; rs_issueCount : Z; rs_checkedAt : string }.
Record RecoveryDrill := mkRecoveryDrill {
  rd_drillId : string;
  rd_type : string;
  rd_state : RecoveryDrillState;
  rd_startedAt : string;
  rd_completedAt : option string;
  rd_requestedBy : string;
  rd_backupSetId : option string;
  rd_pointAgeSeconds : option Z;
  rd_durationMs : option Z;
  rd_reconciliations : list ReconciliationSummary;
  rd_failureCode : option string;
  rd_acknowledgedAt : option string;
  rd_acknowledgedBy : option string
}.
Record DrillAuditEvent := mkDrillAuditEvent {
  da_eventId : string; da_drillId : string; da_state : RecoveryDrillState; da_occurredAt : string; da_note : option string }.
Definition toBackupSummary (b : BackupSet) : BackupSetSummary :=
  mkBackupSummary (bs_backupSetId b) (toISOString (bs_createdAt b)) (bs_services b) (bs_manifestChecksum b) "AES-256-GCM"
    (bs_sizeBytes b) (bs_verified b).
(** A drill with its relations. *)
Record DrillRow := mkDrillRow { dw_drill : Drill; dw_backupSet : option BackupSet; dw_reconciliations : list DrillReconciliation }.
Definition toDrill (r : DrillRow) : RecoveryDrill :=
  let d := dw_drill r in
  mkRecoveryDrill (dl_drillId d) (dl_type d) (dl_state d) (toISOString (dl_startedAt d)) (toISOString <$> dl_completedAt d)
    (dl_requestedBy d) (bs_backupSetId <$> dw_backupSet r) (dl_pointAgeSeconds d) (dl_durationMs d)
    (map (fun i => mkReconciliationSummary (dr_service i) (dr_status i) (dr_issueCount i) (toISOString (dr_checkedAt i))) (dw_reconciliations r))
    (dl_failureCode d) (toISOString <$> dl_acknowledgedAt d) (dl_acknowledgedBy d).

(** Newest first: [orderBy: [{ startedAt: 'desc' }, { drillId: 'desc' }]]. *)
Definition newest_first (a b : Drill) : Prop :=
  dl_startedAt b < dl_startedAt a \/ (dl_startedAt a = dl_startedAt b /\ String.le (dl_drillId b) (dl_drillId a)).
#[export] Instance newest_first_dec a b : Decision (newest_first a b).
Proof. apply _. Defined.

Section Drills.
Context {Env : Type} {zod : Zod} {pg : Postgres} {rows : RowOrder}.
Abbreviation ResS := (M (System ResilienceDb Env) ResilienceErr).
Variable now : Z.
Definition not_found : ResilienceErr := ResilienceHttpError 404 "Not Found".
Definition conflict (code : string) : ResilienceErr := ResilienceHttpError 409 code.

(** ** [DrillService] *)
Definition find_backup (backupSetId : string) (db : ResilienceDb) : option BackupSet := find_row bs_backupSetId backupSetId (backupSets db).
Definition find_drill (drillId : string) (db : ResilienceDb) : option Drill := find_row dl_drillId drillId (recoveryDrills db).
Definition with_relations (db : ResilienceDb) (d : Drill) : DrillRow :=
  mkDrillRow d (id ← dl_backupSetId d; find_row bs_id id (backupSets db))
    (unordered (filter (fun r => dr_drillRowId r = dl_id d) (drillReconciliations db))).
Definition recordBackupSet (input : RecordBackupSetInput) : ResS BackupSetSummary :=
  existing ← atomic (gets (find_backup (bi_backupSetId input)));
  row ← match existing with
        | Some b => mret b
        | None => atomic (create_backup_set (fun id => mkBackupSet id (bi_backupSetId input) (bi_createdAt input) (bi_services input)
                            (bi_manifestChecksum input) (bi_encryptionAlgorithm input) (bi_sizeBytes input) false))
        end;
  mret (toBackupSummary row).
Definition markBackupVerified (backupSetId : string) : ResS BackupSetSummary :=
  row ← atomic (gets (find_backup backupSetId));
  row ← require row not_found;
  updated ← atomic (verify_backup_set (bs_id row));
  mret (toBackupSummary updated).
Definition appendEvent (drillRowId : string) (state : RecoveryDrillState) (note : option string) : ResS unit :=
  atomic (create_drill_event now drillRowId state (str_take 500 <$> truthy_string note)).
Definition load (drillId : string) : ResS RecoveryDrill :=
  row ← atomic (gets (fun db => with_relations db <$> find_drill drillId db));
  row ← require row not_found;
  mret (toDrill row).
(** [random]: the identifier whose first characters name the drill. *)
Definition createDrill (random type requestedBy : string) (note : option string) : ResS RecoveryDrill :=
  let drillId := ("drill:" +:+ str_take 10 (toISOString now) +:+ ":" +:+ str_take 8 random)%string in
  drill ← atomic (create_drill (fun id => mkDrill id drillId type PLANNED now None requestedBy None None None None None None None));
  _ ← appendEvent (dl_id drill) PLANNED note;
  load drillId.
(** The update of [advance], from the row as it was read; [found]: the set that
    the request names, where [undefined] leaves the column alone. *)
Definition advanced (input : AdvanceDrillInput) (read : Drill) (found : option BackupSet) (d : Drill) : Drill :=
  let terminal := bool_decide (ad_state input = PASSED) || bool_decide (ad_state input = FAILED) in
  mkDrill (dl_id d) (dl_drillId d) (dl_type d) (ad_state input) (dl_startedAt d)
    (if terminal then Some now else dl_completedAt read) (dl_requestedBy d)
    (match truthy_string (ad_backupSetId input) with
     | Some _ => match found with Some b => Some (bs_id b) | None => dl_backupSetId d end
     | None => dl_backupSetId read
     end)
    (or_else (ad_pointAgeSeconds input) (dl_pointAgeSeconds read)) (or_else (ad_durationMs input) (dl_durationMs read))
    (if bool_decide (ad_state input = FAILED) then ad_failureCode input else None)
    (dl_acknowledgedAt d) (dl_acknowledgedBy d) (dl_acknowledgementReason d).
Definition advance (input : AdvanceDrillInput) : ResS RecoveryDrill :=
  drill ← atomic (gets (find_drill (ad_drillId input)));
  drill ← require drill not_found;
  _ ← throw_when (negb (bool_decide (ad_state input ∈ ALLOWED_TRANSITIONS (dl_state drill)))) (conflict "INVALID_DRILL_TRANSITION");
  found ← match truthy_string (ad_backupSetId input) with
          | Some id => atomic (gets (find_backup id))
          | None => mret None
          end;
  _ ← atomic (update_drill (dl_id drill) (advanced input drill found));
  _ ← for_each (fun i => atomic (create_reconciliation now (dl_id drill) (rp_service i) (rp_status i) (rp_issueCount i)))
        (default [] (ad_reconciliations input));
  _ ← appendEvent (dl_id drill) (ad_state input) (ad_note input);
  load (ad_drillId input).
Definition acknowledged (operatorId reason : string) (d : Drill) : Drill :=
  mkDrill (dl_id d) (dl_drillId d) (dl_type d) (dl_state d) (dl_startedAt d) (dl_completedAt d) (dl_requestedBy d) (dl_backupSetId d)
    (dl_pointAgeSeconds d) (dl_durationMs d) (dl_failureCode d) (Some now) (Some operatorId) (Some reason).
Definition acknowledge (drillId operatorId reason : string) : ResS RecoveryDrill :=
  drill ← atomic (gets (find_drill drillId));
  drill ← require drill not_found;
  _ ← throw_when (negb (bool_decide (dl_state drill = FAILED))) (conflict "DRILL_NOT_FAILED");
  _ ← throw_when (bool_decide (is_Some (dl_acknowledgedAt drill))) (conflict "ALREADY_ACKNOWLEDGED");
  _ ← atomic (update_drill (dl_id drill) (acknowledged operatorId reason));
  load drillId.

Record HistoryOptions := mkHistory { ho_limit : Z; ho_cursor : option string; ho_state : option RecoveryDrillState }.
Definition history (options : HistoryOptions) : ResS (list RecoveryDrill * option string) :=
  cursorRow ← match truthy_string (ho_cursor options) with
              | Some c => atomic (gets (find_drill c))
              | None => mret None
              end;
  rows ← atomic (gets (fun db =>
    let matching d := when_present (fun s => bool_decide (dl_state d = s)) (ho_state options)
                      && when_present (fun c => dl_startedAt d <? dl_startedAt c) cursorRow in
    map (with_relations db)
      (take (Z.to_nat (ho_limit options + 1)) (merge_sort newest_first (filter (fun d => matching d = true) (recoveryDrills db))))));
  let page := take (Z.to_nat (ho_limit options)) rows in
  mret (map toDrill page,
        if ho_limit options <? Z.of_nat (length rows) then (fun r => dl_drillId (dw_drill r)) <$> last page else None).
Definition latestDrill : ResS (option RecoveryDrill) :=
  atomic (gets (fun db => (fun d => toDrill (with_relations db d)) <$> head (sort_by_Z (fun d => - dl_startedAt d) (unordered (recoveryDrills db))))).
Definition latestBackup : ResS (option BackupSetSummary) :=
  atomic (gets (fun db => toBackupSummary <$> head (sort_by_Z (fun b => - bs_createdAt b) (unordered (backupSets db))))).
Definition events (drillId : string) : ResS (list DrillAuditEvent) :=
  drill ← atomic (gets (find_drill drillId));
  drill ← require drill not_found;
  rows ← atomic (gets (fun db => take 200 (sort_by_Z dv_occurredAt (unordered (filter (fun e => dv_drillRowId e = dl_id drill) (drillEvents db))))));
  mret (map (fun e => mkDrillAuditEvent (dv_eventId e) drillId (dv_state e) (toISOString (dv_occurredAt e)) (dv_note e)) rows).

(** ** [ReconciliationService] *)
Inductive IssueSeverity := WARNING | CRITICAL_ISSUE.
#[export] Instance IssueSeverity_eq_dec : EqDecision IssueSeverity.
Proof. solve_decision. Defined.
Record ResilienceIssue := mkResilienceIssue { is_code : string; is_severity : IssueSeverity; is_count : Z }.
Record ResilienceReconciliationResult := mkResilienceResult {
  rz_status : ReconciliationStatus;
  rz_checkedDrills : Z;
  rz_checkedBackupSets : Z;
  rz_issueCount : Z;
  rz_issues : list ResilienceIssue
}.
Definition add_issue (code : string) (severity : IssueSeverity) (count : Z) : list ResilienceIssue :=
  if 0 <? count then [mkResilienceIssue code severity count] else [].
(** A drill as the run reads it, with its events and results. *)
Record CheckedDrill := mkChecked { cd_drill : Drill; cd_events : list DrillEvent; cd_reconciliations : list DrillReconciliation }.
Definition in_state (s : RecoveryDrillState) (c : CheckedDrill) : bool := bool_decide (dl_state (cd_drill c) = s).
Definition without_history (c : CheckedDrill) : bool := bool_decide (cd_events c = []).
Definition without_restore (c : CheckedDrill) : bool :=
  in_state PASSED c && negb (existsb (fun e => bool_decide (dv_state e = RESTORE_VERIFIED)) (cd_events c)).
Definition without_reconciliation (c : CheckedDrill) : bool :=
  in_state PASSED c && forallb (fun r => negb (bool_decide (dr_status r = PASS))) (cd_reconciliations c).
Definition without_backup (c : CheckedDrill) : bool := in_state PASSED c && negb (bool_decide (is_Some (dl_backupSetId (cd_drill c)))).
Definition unacknowledged (c : CheckedDrill) : bool := in_state FAILED c && negb (bool_decide (is_Some (dl_acknowledgedAt (cd_drill c)))).
Definition stuck (c : CheckedDrill) : bool := in_state RUNNING c || in_state BACKUP_CREATED c || in_state RESTORE_VERIFIED c.
Definition issues_found (drills : list CheckedDrill) (sets : list BackupSet) : list ResilienceIssue :=
  add_issue "DRILL_WITHOUT_HISTORY" CRITICAL_ISSUE (count_rows without_history drills)
  ++ add_issue "PASSED_WITHOUT_RESTORE_EVIDENCE" CRITICAL_ISSUE (count_rows without_restore drills)
  ++ add_issue "PASSED_WITHOUT_RECONCILIATION" CRITICAL_ISSUE (count_rows without_reconciliation drills)
  ++ add_issue "PASSED_WITHOUT_BACKUP_SET" CRITICAL_ISSUE (count_rows without_backup drills)
  ++ add_issue "UNACKNOWLEDGED_FAILED_DRILL" WARNING (count_rows unacknowledged drills)
  ++ add_issue "DRILL_STUCK_IN_PROGRESS" WARNING (count_rows stuck drills)
  ++ add_issue "UNVERIFIED_BACKUP_SET" WARNING (count_rows (fun b => negb (bs_verified b)) sets).
Definition checked_drills (db : ResilienceDb) : list CheckedDrill :=
  map (fun d => mkChecked d (unordered (filter (fun e => dv_drillRowId e = dl_id d) (drillEvents db)))
                  (unordered (filter (fun r => dr_drillRowId r = dl_id d) (drillReconciliations db))))
    (take 500 (sort_by_Z (fun d => - dl_startedAt d) (unordered (recoveryDrills db)))).
Definition is_critical (i : ResilienceIssue) : bool := bool_decide (is_severity i = CRITICAL_ISSUE).
Definition verdict_of (drills : list CheckedDrill) (sets : list BackupSet) : ResilienceReconciliationResult :=
  let issues := issues_found drills sets in
  mkResilienceResult (if existsb is_critical issues then FAIL else PASS) (Z.of_nat (length drills)) (Z.of_nat (length sets))
    (foldr (fun i total => is_count i + total) 0 issues) issues.
Definition reconcile : ResS ResilienceReconciliationResult :=
  drills ← atomic (gets checked_drills);
  sets ← atomic (gets (fun db => take 500 (unordered (backupSets db))));
  mret (verdict_of drills sets).

(** ** [DrillController] *)
Definition zod_parse {A} (ok : bool) (a : A) : ResS A := if ok then mret a else throw ResilienceZodError.
(** [z.string().trim().max(500).optional()] *)
Definition note_field (o : option string) : option (option string) := optional_trimmed 0 500 o.
Definition count_ok (z : Z) : bool := (0 <=? z) && (z <=? 2 ^ 53 - 1).
Definition advanceRequestSchema (i : AdvanceDrillInput) : bool :=
  negb (bool_decide (ad_state i = PLANNED)) && when_present opaqueIdentifier (ad_backupSetId i)
  && when_present count_ok (ad_pointAgeSeconds i) && when_present count_ok (ad_durationMs i)
  && when_present resilienceFailureCodeSchema (ad_failureCode i)
  && when_present (fun l => forallb (fun r => resilienceServiceNameSchema (rp_service r) && count_ok (rp_issueCount r)) l
                            && (length l <=? 16)%nat) (ad_reconciliations i).
Definition recordBackupSchema (i : RecordBackupSetInput) : bool :=
  opaqueIdentifier (bi_backupSetId i) && forallb resilienceServiceNameSchema (bi_services i)
  && (1 <=? length (bi_services i))%nat && (length (bi_services i) <=? 16)%nat && rx_match sha256_rx (bi_manifestChecksum i)
  && String.eqb (bi_encryptionAlgorithm i) "AES-256-GCM" && count_ok (bi_sizeBytes i).
(** [createdAt]: its text, of which the schema makes a date. *)
Definition record_backup_endpoint (createdAt : string) (i : RecordBackupSetInput) : ResS BackupSetSummary :=
  i ← zod_parse (recordBackupSchema i && z_datetime createdAt) i;
  t ← require (date_parse createdAt) (ResilienceDbError "Invalid Date");
  recordBackupSet (mkBackupInput (bi_backupSetId i) t (bi_services i) (bi_manifestChecksum i) (bi_encryptionAlgorithm i) (bi_sizeBytes i)).
Definition mark_verified_endpoint (backupSetId : string) : ResS BackupSetSummary :=
  id ← zod_parse (opaqueIdentifier backupSetId) backupSetId;
  markBackupVerified id.
Definition create_drill_endpoint (random type : string) (note requestedBy : option string) : ResS RecoveryDrill :=
  note ← require (note_field note) ResilienceZodError;
  type ← zod_parse (recoveryDrillTypeSchema type) type;
  let by_ := default "operator:tooling" requestedBy in
  by_ ← zod_parse (opaqueIdentifier by_) by_;
  createDrill random type by_ note.
Definition with_note (note : option string) (i : AdvanceDrillInput) : AdvanceDrillInput :=
  mkAdvance (ad_drillId i) (ad_state i) note (ad_backupSetId i) (ad_pointAgeSeconds i) (ad_durationMs i) (ad_failureCode i) (ad_reconciliations i).
Definition advance_endpoint (i : AdvanceDrillInput) : ResS RecoveryDrill :=
  note ← require (note_field (ad_note i)) ResilienceZodError;
  i ← zod_parse (advanceRequestSchema i && opaqueIdentifier (ad_drillId i)) i;
  advance (with_note note i).
Definition acknowledge_endpoint (drillId : string) (operatorId : option string) (reason : string) : ResS RecoveryDrill :=
  reason ← require (trimmed 8 500 reason) ResilienceZodError;
  drillId ← zod_parse (opaqueIdentifier drillId) drillId;
  let by_ := default "operator:unknown" operatorId in
  by_ ← zod_parse (opaqueIdentifier by_) by_;
  acknowledge drillId by_ reason.
(** [limit] as its text in the query. *)
Definition history_endpoint (limit cursor : option string) (state : option RecoveryDrillState) : ResS (list RecoveryDrill * option string) :=
  limit ← match limit with
          | None => mret 20
          | Some s => n ← require (safe_integer (Number_of_string s)) ResilienceZodError;
                      zod_parse ((1 <=? n) && (n <=? 50)) n
          end;
  cursor ← zod_parse (when_present opaqueIdentifier cursor) cursor;
  history (mkHistory limit cursor state).
Definition detail_endpoint (drillId : string) : ResS RecoveryDrill :=
  id ← zod_parse (opaqueIdentifier drillId) drillId; load id.
Definition events_endpoint (drillId : string) : ResS (list DrillAuditEvent) :=
  id ← zod_parse (opaqueIdentifier drillId) drillId; events id.

(** ** [HealthController] *)
Inductive ResilienceHealthState := HEALTHY | DEGRADED | UNAVAILABLE.
#[export] Instance ResilienceHealthState_eq_dec : EqDecision ResilienceHealthState.
Proof. solve_decision. Defined.
Record DependencyHealth := mkDependencyHealth { dh_name : string; dh_state : ResilienceHealthState }.
Record ServiceHealth := mkServiceHealth { vh_service : string; vh_state : ResilienceHealthState; vh_failureCode : option string }.
Record RecoveryReadiness := mkReadiness {
  ry_platformState : ResilienceHealthState;
  ry_services : list ServiceHealth;
  ry_dependencies : list DependencyHealth;
  ry_latestBackup : option BackupSetSummary;
  ry_latestDrill : option RecoveryDrill;
  ry_generatedAt : string
}.
(** Whether the database answers, and which dependencies do in time. *)
Variable database_up : bool.
Variable probe : string -> bool.
Definition query {A} (m : ResS A) : ResS A := if database_up then m else throw (ResilienceDbError "unreachable").
Definition isHealthy : ResS bool := try_catch (query (mret true)) (fun _ => mret false).
Definition state_of (up : bool) : ResilienceHealthState := if up then HEALTHY else UNAVAILABLE.
Definition platform_state (reachable : bool) (dependencies : list DependencyHealth) : ResilienceHealthState :=
  if negb reachable then UNAVAILABLE
  else if bool_decide (filter (fun d => dh_state d = UNAVAILABLE) dependencies = []) then HEALTHY else DEGRADED.
(** [dependencies]: the names and addresses of the configuration. *)
Definition readiness (dependencies : list (string * string)) : ResS RecoveryReadiness :=
  reachable ← isHealthy;
  let probed := map (fun '(name, url) => mkDependencyHealth name (state_of (probe url))) dependencies in
  let services := map (fun d => mkServiceHealth (dh_name d) (dh_state d)
                                  (if bool_decide (dh_state d = UNAVAILABLE) then Some "DEPENDENCY_UNAVAILABLE"%string else None)) probed in
  backup ← query latestBackup;
  drill ← query latestDrill;
  mret (mkReadiness (platform_state reachable probed) services (mkDependencyHealth "resilience-postgres" (state_of reachable) :: probed)
          backup drill (toISOString now)).
End Drills.
