(* ===== verification/ResilienceProofs.v ===== *)
(** * What a recovery drill's record proves *)

From Stdlib Require Import ZArith Lia Ascii String.
From stdpp Require Import base strings list sorting.
From S2P Require Import Prelude.
From S2P Require Import Js.
From S2P Require Import Regex.
From S2P Require Import Contracts.
From S2P Require Import Services.
From S2P Require Import RiskTypes.
From S2P Require Import LedgerDb.
From S2P Require Import PaymentsDb.
From S2P Require Import PaymentsInv.
From S2P Require Import RiskDb.
From S2P Require Import RiskService.
From S2P Require Import ResilienceDb.
From S2P Require Import Resilience.

Open Scope Z_scope.

(** ** The path of a drill *)
(** The states a drill went through, and the one it is in. *)
Inductive drill_path : list RecoveryDrillState -> RecoveryDrillState -> Prop :=
| path_start : drill_path [PLANNED] PLANNED
| path_step l s s' : drill_path l s -> s' ∈ ALLOWED_TRANSITIONS s -> drill_path (l ++ [s']) s'.
Lemma path_last l s : drill_path l s -> s ∈ l.
Proof. intros [|l' s' s'' _ _]; [by left|]. apply elem_of_app. right. by left. Qed.
(** The only way to a state, where there is one. *)
Definition predecessor (s : RecoveryDrillState) : option RecoveryDrillState :=
  match s with
  | RUNNING => Some PLANNED
  | BACKUP_CREATED => Some RUNNING
  | RESTORE_VERIFIED => Some BACKUP_CREATED
  | RECONCILIATION_PASSED => Some RESTORE_VERIFIED
  | PASSED => Some RECONCILIATION_PASSED
  | _ => None
  end.
Lemma path_back l s p : drill_path l s -> predecessor s = Some p -> exists l', drill_path l' p /\ l = l' ++ [s].
Proof.
  intros [|l' s' s'' Hp Ht] Hs; [discriminate Hs|]. exists l'. split; [|done].
  apply list_elem_of_In in Ht.
  destruct s', s''; try discriminate Hs; injection Hs as <-; first [exact Hp|exfalso; cbn in Ht; intuition discriminate].
Qed.
(** A passed drill has a verified restore and a passed reconciliation behind it. *)
Lemma passed_path l : drill_path l PASSED -> l = [PLANNED; RUNNING; BACKUP_CREATED; RESTORE_VERIFIED; RECONCILIATION_PASSED; PASSED].
Proof.
  intros H. repeat match goal with H : drill_path _ ?s |- _ =>
    let l' := fresh "l" in let Hp := fresh "Hp" in
    destruct (path_back _ _ _ H eq_refl) as (l' & Hp & ->); clear H end.
  match goal with H : drill_path ?l PLANNED |- _ => assert (l = [PLANNED]) as -> end; [|done].
  inversion Hp as [|l' s s' _ Ht]; [done|]. apply list_elem_of_In in Ht.
  destruct s; cbn in Ht; intuition discriminate.
Qed.

(** ** Evidence *)
Definition states_of (db : ResilienceDb) (id : string) : list RecoveryDrillState :=
  map dv_state (filter (fun e => dv_drillRowId e = id) (drillEvents db)).
(** Every drill's events tell the path to its state. *)
Record Evidence (db : ResilienceDb) : Prop := {
  ev_ids : NoDup (dl_id <$> recoveryDrills db);
  ev_drillIds : NoDup (dl_drillId <$> recoveryDrills db);
  ev_events : forall e, e ∈ drillEvents db -> dv_drillRowId e ∈ dl_id <$> recoveryDrills db;
  ev_paths : forall d, d ∈ recoveryDrills db -> drill_path (states_of db (dl_id d)) (dl_state d)
}.
Lemma states_of_app db id e : states_of (set_drill_events (fun l => l ++ [e]) db) id =
  states_of db id ++ (if decide (dv_drillRowId e = id) then [dv_state e] else []).
Proof.
  unfold states_of. cbn. rewrite filter_app, map_app. f_equal. cbn. by destruct (decide (dv_drillRowId e = id)).
Qed.
Lemma states_of_fresh db id : Evidence db -> id ∉ dl_id <$> recoveryDrills db -> states_of db id = [].
Proof.
  intros Hev Hid. unfold states_of. destruct (filter _ _) as [|e l] eqn:Hf; [done|]. destruct Hid.
  assert (He : e ∈ filter (fun e => dv_drillRowId e = id) (drillEvents db)) by (rewrite Hf; by left).
  apply list_elem_of_filter in He as [<- He]. by apply (ev_events _ Hev).
Qed.

Section Statements.
Context {pg : Postgres}.
Lemma create_drill_ok mk db d db' : create_drill mk db = (Ok d, db') -> (forall id, dl_id (mk id) = id) ->
  d = mk (dl_id d) /\ recoveryDrills db' = recoveryDrills db ++ [d] /\ drillEvents db' = drillEvents db /\
  (dl_id d ∉ dl_id <$> recoveryDrills db) /\ (dl_drillId d ∉ dl_drillId <$> recoveryDrills db).
Proof.
  unfold create_drill, res_uuid, res_check. intros H Hmk. apply bind_Ok_inv in H as (id & db1 & [= <- <-] & H). run. cbn in *.
  rewrite Hmk in *. split_and!; try done.
  all: match goal with H : negb (negb (existsb _ _)) = false |- _ => rewrite negb_involutive in H; rename H into Hnew end.
  all: intros (x & Hx & Hin)%list_elem_of_fmap.
  all: pose proof (existsb_none _ _ _ Hnew Hin) as Hsame; cbn in Hsame; apply orb_false_elim in Hsame as [H1 H2].
  - by rewrite <- Hx, String.eqb_refl in H1.
  - by rewrite <- Hx, String.eqb_refl in H2.
Qed.
Lemma create_backup_ok mk db b db' : create_backup_set mk db = (Ok b, db') ->
  recoveryDrills db' = recoveryDrills db /\ drillEvents db' = drillEvents db.
Proof. unfold create_backup_set, res_uuid, res_check. intros H. apply bind_Ok_inv in H as (id & db1 & [= <- <-] & H). by run. Qed.
Lemma verify_backup_ok id db b db' : verify_backup_set id db = (Ok b, db') ->
  recoveryDrills db' = recoveryDrills db /\ drillEvents db' = drillEvents db.
Proof. unfold verify_backup_set. intros H. by run. Qed.
Lemma update_drill_ok id f db u db' : update_drill id f db = (Ok u, db') ->
  recoveryDrills db' = update_row dl_id id f (recoveryDrills db) /\ drillEvents db' = drillEvents db /\
  drillReconciliations db' = drillReconciliations db /\ backupSets db' = backupSets db /\
  exists d, find_row dl_id id (recoveryDrills db) = Some d /\ drill_row_ok db (f d) = true.
Proof. unfold update_drill, res_check. intros H. run. cbn. bool_to_Z. by split_and!; eauto. Qed.
Lemma create_event_ok now id state note db u db' : create_drill_event now id state note db = (Ok u, db') ->
  recoveryDrills db' = recoveryDrills db /\ drillReconciliations db' = drillReconciliations db /\
  exists e, drillEvents db' = drillEvents db ++ [e] /\ dv_drillRowId e = id /\ dv_state e = state.
Proof.
  unfold create_drill_event, res_uuid, res_check. intros H. apply bind_Ok_inv in H as (x & db1 & [= <- <-] & H). run. cbn.
  split; [done|]. split; [done|]. by eexists.
Qed.
Lemma create_reconciliation_ok now id service status n db u db' : create_reconciliation now id service status n db = (Ok u, db') ->
  recoveryDrills db' = recoveryDrills db /\ drillEvents db' = drillEvents db /\ backupSets db' = backupSets db.
Proof. unfold create_reconciliation, res_check. intros H. by run. Qed.
End Statements.

(** A drill's new event goes on where its state does. *)
Lemma evidence_create db db' d e : Evidence db -> recoveryDrills db' = recoveryDrills db ++ [d] -> drillEvents db' = drillEvents db ++ [e] ->
  dl_id d ∉ dl_id <$> recoveryDrills db -> dl_drillId d ∉ dl_drillId <$> recoveryDrills db ->
  dv_drillRowId e = dl_id d -> dv_state e = PLANNED -> dl_state d = PLANNED -> Evidence db'.
Proof.
  intros Hev Hd He Hid Hdid Hrow Hst Hpl. constructor.
  - rewrite Hd, fmap_app, NoDup_app. split; [apply Hev|]. split; [|apply NoDup_singleton]. by intros x Hx ->%list_elem_of_singleton.
  - rewrite Hd, fmap_app, NoDup_app. split; [apply Hev|]. split; [|apply NoDup_singleton]. by intros x Hx ->%list_elem_of_singleton.
  - rewrite Hd, He, fmap_app. intros x [Hx| ->%list_elem_of_singleton]%elem_of_app; apply elem_of_app;
      [left; by apply Hev|right; by apply list_elem_of_singleton].
  - assert (Hs : forall id, states_of db' id = states_of db id ++ (if decide (dl_id d = id) then [PLANNED] else [])).
    { intros id. rewrite <- Hst, <- Hrow, <- states_of_app. unfold states_of. by rewrite He. }
    rewrite Hd. intros x [Hx| ->%list_elem_of_singleton]%elem_of_app; rewrite Hs.
    + rewrite decide_False, app_nil_r; [by apply Hev|]. intros Heq. apply Hid. rewrite Heq. by apply list_elem_of_fmap_2.
    + rewrite decide_True, (states_of_fresh _ _ Hev Hid), Hpl by done. apply path_start.
Qed.
Lemma evidence_advance db db' d f e : Evidence db -> d ∈ recoveryDrills db ->
  recoveryDrills db' = update_row dl_id (dl_id d) f (recoveryDrills db) -> drillEvents db' = drillEvents db ++ [e] ->
  (forall x, dl_id (f x) = dl_id x) -> (forall x, dl_drillId (f x) = dl_drillId x) ->
  dl_state (f d) ∈ ALLOWED_TRANSITIONS (dl_state d) -> dv_drillRowId e = dl_id d -> dv_state e = dl_state (f d) -> Evidence db'.
Proof.
  intros Hev Hin Hd He Hfid Hfdid Hal Hrow Hst.
  assert (Hids : dl_id <$> recoveryDrills db' = dl_id <$> recoveryDrills db)
    by (rewrite Hd; apply update_row_ids; intros r <-; apply Hfid).
  constructor.
  - rewrite Hids. apply Hev.
  - assert (dl_drillId <$> recoveryDrills db' = dl_drillId <$> recoveryDrills db) as ->; [|apply Hev].
    rewrite Hd. unfold update_row. change (map ?g ?l) with (g <$> l). rewrite <- list_fmap_compose. apply list_fmap_ext.
    intros i x _. cbn. destruct (String.eqb _ _); [apply Hfdid|done].
  - rewrite Hids, He. intros x [Hx| ->%list_elem_of_singleton]%elem_of_app; [by apply Hev|].
    rewrite Hrow. by apply list_elem_of_fmap_2.
  - assert (Hs : forall id, states_of db' id = states_of db id ++ (if decide (dl_id d = id) then [dl_state (f d)] else [])).
    { intros id. rewrite <- Hst, <- Hrow, <- states_of_app. unfold states_of. by rewrite He. }
    rewrite Hd. intros x [[Hx Hne]|(x0 & Hx0 & Hid & ->)]%update_row_elem; rewrite Hs.
    + rewrite decide_False, app_nil_r by done. by apply Hev.
    + assert (x0 = d) as ->.
      { pose proof (find_row_elem dl_id (dl_id d) _ x0 (ev_ids _ Hev) Hx0 Hid) as H1.
        pose proof (find_row_elem dl_id (dl_id d) _ d (ev_ids _ Hev) Hin eq_refl) as H2. congruence. }
      rewrite Hfid, decide_True by done. by eapply path_step; [apply Hev|].
Qed.

Section Requests.
Context {Env : Type} {zod : Zod} {pg : Postgres} {rows : RowOrder}.
Abbreviation ResS := (M (System ResilienceDb Env) ResilienceErr).

Lemma atomic_alone_inv {A} (m : ResM A) db (env : Env) a s' : atomic m (alone db env) = (Ok a, s') ->
  exists db', m db = (Ok a, db') /\ s' = alone db' env.
Proof. rewrite atomic_alone. destruct (m db) as [r db']. cbn. intros [= -> <-]. by exists db'. Qed.
Lemma gets_inv {A} (f : ResilienceDb -> A) db a db' : gets (E := ResilienceErr) f db = (Ok a, db') -> f db = a /\ db' = db.
Proof. by intros [= -> ->]. Qed.
Ltac run_alone := repeat first
  [ match goal with
    | H : atomic _ (alone _ _) = (Ok _, _) |- _ => apply atomic_alone_inv in H as (? & H & ->)
    | H : gets _ _ = (Ok _, _) |- _ => apply gets_inv in H as [H ->]
    end
  | run_step ].
Lemma load_alone id db (env : Env) r s' : load id (alone db env) = (Ok r, s') -> s' = alone db env.
Proof. unfold load. intros H. by run_alone. Qed.
Lemma reconciliations_alone now id l db (env : Env) r s' :
  for_each (fun i => atomic (create_reconciliation now id (rp_service i) (rp_status i) (rp_issueCount i))) l (alone db env) = (Ok r, s') ->
  exists db', s' = alone db' env /\ recoveryDrills db' = recoveryDrills db /\ drillEvents db' = drillEvents db.
Proof.
  revert db r s'. induction l as [|i l IH]; cbn [for_each]; intros db r s' H; [run_alone; by exists db|].
  run_alone. match goal with H : create_reconciliation _ _ _ _ _ _ = _ |- _ => apply create_reconciliation_ok in H as (Hd & He & _) end.
  match goal with H : for_each _ _ _ = _ |- _ => apply IH in H as (db2 & -> & Hd2 & He2) end.
  exists db2. by rewrite Hd2, He2.
Qed.

(** The requests that write. *)
Inductive ResilienceRequest :=
| RecordBackup (createdAt : string) (i : RecordBackupSetInput)
| MarkVerified (backupSetId : string)
| PlanDrill (random type : string) (note requestedBy : option string)
| Advance (i : AdvanceDrillInput)
| Acknowledge (drillId : string) (operatorId : option string) (reason : string).
Definition res_request (now : Z) (r : ResilienceRequest) : ResS unit :=
  match r with
  | RecordBackup createdAt i => _ ← record_backup_endpoint createdAt i; mret tt
  | MarkVerified id => _ ← mark_verified_endpoint id; mret tt
  | PlanDrill random type note by_ => _ ← create_drill_endpoint now random type note by_; mret tt
  | Advance i => _ ← advance_endpoint now i; mret tt
  | Acknowledge id by_ reason => _ ← acknowledge_endpoint now id by_ reason; mret tt
  end.

Lemma parsed {A} (ok : bool) (a b : A) (s s' : System ResilienceDb Env) : zod_parse ok a s = (Ok b, s') -> ok = true /\ b = a /\ s' = s.
Proof. unfold zod_parse. destruct ok; [by intros [= -> ->]|discriminate]. Qed.
Ltac run_request := repeat first
  [ match goal with
    | H : atomic _ (alone _ _) = (Ok _, _) |- _ => apply atomic_alone_inv in H as (? & H & ->)
    | H : gets _ _ = (Ok _, _) |- _ => apply gets_inv in H as [H ->]
    | H : zod_parse _ _ _ = (Ok _, _) |- _ => apply parsed in H as (_ & -> & ->)
    | H : load _ (alone _ _) = (Ok _, _) |- _ => apply load_alone in H as ->
    end
  | run_step ].
(** A request that leaves drills and their events alone keeps the evidence. *)
Lemma evidence_same db db' : Evidence db -> recoveryDrills db' = recoveryDrills db -> drillEvents db' = drillEvents db -> Evidence db'.
Proof. intros [] Hd He. constructor; unfold states_of; rewrite ?Hd, ?He; done. Qed.
Lemma plan_evidence now random type note by_ db (env : Env) r s' : Evidence db ->
  createDrill now random type by_ note (alone db env) = (Ok r, s') -> Evidence (sdb s').
Proof.
  intros Hev H. unfold createDrill, appendEvent in H. run_request.
  match goal with H : create_drill _ _ = _ |- _ => apply create_drill_ok in H as (Hd & Hrows & Hevs & Hid & Hdid); [|done] end.
  match goal with H : create_drill_event _ _ _ _ _ = _ |- _ => apply create_event_ok in H as (Hrows2 & _ & e & Hevs2 & Hrow & Hst) end.
  cbn. rewrite Hrows in Hrows2. rewrite Hevs in Hevs2. eapply evidence_create; try done. by rewrite Hd.
Qed.
Lemma advance_evidence now i db (env : Env) r s' : Evidence db ->
  advance now i (alone db env) = (Ok r, s') -> Evidence (sdb s').
Proof.
  intros Hev H. unfold advance, appendEvent in H. run_request. bool_to_Z.
  match goal with H : find_drill _ _ = Some ?d |- _ => rename d into old; apply find_row_spec in H as [Hin Hid] end.
  match goal with H : _ (alone db env) = (Ok ?f, ?s1) |- _ => assert (s1 = alone db env) as ->
    by (destruct (truthy_string (ad_backupSetId i)); run_request; done); rename f into found; clear H end.
  run_request.
  match goal with H : update_drill _ _ _ = _ |- _ => apply update_drill_ok in H as (Hrows & Hevs & _) end.
  match goal with H : for_each _ _ _ = _ |- _ => apply reconciliations_alone in H as (db2 & -> & Hrows2 & Hevs2) end.
  run_request.
  match goal with H : create_drill_event _ _ _ _ _ = _ |- _ => apply create_event_ok in H as (Hrows3 & _ & e & Hevs3 & Hrow & Hst) end.
  cbn. rewrite Hrows2, Hrows in Hrows3. rewrite Hevs2, Hevs in Hevs3. by eapply (evidence_advance db _ old).
Qed.
Lemma evidence_update db db' id f : Evidence db -> recoveryDrills db' = update_row dl_id id f (recoveryDrills db) ->
  drillEvents db' = drillEvents db -> (forall x, dl_id (f x) = dl_id x) -> (forall x, dl_drillId (f x) = dl_drillId x) ->
  (forall x, dl_state (f x) = dl_state x) -> Evidence db'.
Proof.
  intros [] Hd He Hi Hdi Hst.
  assert (Hkeep : forall B (g : Drill -> B), (forall x, g (f x) = g x) -> g <$> recoveryDrills db' = g <$> recoveryDrills db).
  { intros B g Hg. rewrite Hd. unfold update_row. change (map ?h ?l) with (h <$> l). rewrite <- list_fmap_compose. apply list_fmap_ext.
    intros i x _. cbn. by destruct (String.eqb _ _). }
  constructor; unfold states_of; rewrite ?Hkeep, ?He by done; try done.
  rewrite Hd. intros x [[Hx _]|(x0 & Hx0 & _ & ->)]%update_row_elem; [by apply ev_paths0|]. rewrite Hi, Hst. by apply ev_paths0.
Qed.
Lemma request_evidence now r db (env : Env) s' : Evidence db -> res_request now r (alone db env) = (Ok tt, s') -> Evidence (sdb s').
Proof.
  intros Hev H. destruct r; cbn [res_request] in H; run_request.
  - unfold record_backup_endpoint, recordBackupSet in *. run_request.
    match goal with H : match ?o with _ => _ end _ = _ |- _ => destruct o; run_request; [done|] end.
    match goal with H : create_backup_set _ _ = _ |- _ => apply create_backup_ok in H as [Hd He] end. by eapply evidence_same.
  - unfold mark_verified_endpoint, markBackupVerified in *. run_request.
    match goal with H : verify_backup_set _ _ = _ |- _ => apply verify_backup_ok in H as [Hd He] end. by eapply evidence_same.
  - unfold create_drill_endpoint in *. run_request. by eapply plan_evidence.
  - unfold advance_endpoint in *. run_request. by eapply advance_evidence.
  - unfold acknowledge_endpoint, acknowledge in *. run_request.
    match goal with H : update_drill _ _ _ = _ |- _ => apply update_drill_ok in H as (Hrows & Hevs & _) end.
    by eapply evidence_update.
Qed.

(** Requests one after another, each answered, or refused without effect. *)
Inductive drill_history : ResilienceDb -> Prop :=
| drills_start : drill_history emptyResilience
| drills_request db now r (env : Env) : drill_history db ->
    is_ok (res_request now r (alone db env)).1 = true \/ sdb (res_request now r (alone db env)).2 = db ->
    drill_history (sdb (res_request now r (alone db env)).2).
Lemma history_evidence db : drill_history db -> Evidence db.
Proof.
  induction 1 as [|db now r env _ IH [Hok|Hsame]].
  - constructor; cbn; try apply NoDup_nil_2; by intros ? ?%not_elem_of_nil.
  - destruct (res_request now r (alone db env)) as [[[]|e] s'] eqn:Hr; [|discriminate Hok]. by eapply request_evidence.
  - by rewrite Hsame.
Qed.
Lemma count_none {A} (f : A -> bool) l : (forall x, x ∈ l -> f x = false) -> count_rows f l = 0.
Proof.
  intros H. unfold count_rows. destruct (filter _ l) as [|x l'] eqn:Hf; [done|].
  assert (Hx : x ∈ filter (fun a => f a = true) l) by (rewrite Hf; by left).
  apply list_elem_of_filter in Hx as [H1 H2]. by rewrite H in H1.
Qed.
(** The drills that a run looks at, and what it sees of them. *)
Lemma checked_elem db c : c ∈ checked_drills db -> exists d, cd_drill c = d /\ d ∈ recoveryDrills db /\
  (forall e, e ∈ cd_events c <-> e ∈ drillEvents db /\ dv_drillRowId e = dl_id d) /\
  (forall x, x ∈ cd_reconciliations c <-> x ∈ drillReconciliations db /\ dr_drillRowId x = dl_id d).
Proof.
  unfold checked_drills. intros (d & -> & Hd)%list_elem_of_fmap. exists d. cbn. split; [done|]. split.
  - apply subseteq_take in Hd. by rewrite sort_by_Z_perm, unordered_perm in Hd.
  - split; intros x; rewrite unordered_perm, list_elem_of_filter; tauto.
Qed.
Lemma states_elem db id s : s ∈ states_of db id <-> exists e, e ∈ drillEvents db /\ dv_drillRowId e = id /\ dv_state e = s.
Proof. unfold states_of. rewrite list_elem_of_fmap. setoid_rewrite list_elem_of_filter. naive_solver. Qed.

(** C37: when requests come one after another and none is refused half way, the
    events of every drill tell a path of allowed transitions from PLANNED to
    its state, a passed drill went through the states RESTORE_VERIFIED and
    RECONCILIATION_PASSED in this order, and no run finds a drill without its
    history or a passed one without its restore. Both conditions are needed
    ([refused_half_way] of ResilienceWitnesses), and the names of the states
    promise no more than that they were entered: [passed_without_evidence] is a
    drill that passes with a failed reconciliation result. *)
Theorem drill_history_safe db : drill_history db ->
  (forall d, d ∈ recoveryDrills db -> drill_path (states_of db (dl_id d)) (dl_state d)) /\
  (forall d, d ∈ recoveryDrills db -> dl_state d = PASSED -> states_of db (dl_id d) =
    [PLANNED; RUNNING; BACKUP_CREATED; RESTORE_VERIFIED; RECONCILIATION_PASSED; PASSED]) /\
  count_rows without_history (checked_drills db) = 0 /\ count_rows without_restore (checked_drills db) = 0.
Proof.
  intros Hev%history_evidence. split; [apply Hev|].
  assert (Hp : forall d, d ∈ recoveryDrills db -> dl_state d = PASSED -> states_of db (dl_id d) =
    [PLANNED; RUNNING; BACKUP_CREATED; RESTORE_VERIFIED; RECONCILIATION_PASSED; PASSED]).
  { intros d Hd Hs. apply passed_path. rewrite <- Hs. by apply Hev. }
  split; [exact Hp|]. split; apply count_none; intros c (d & Hc & Hd & He & _)%checked_elem.
  - apply bool_decide_eq_false. intros Hnil. pose proof (path_last _ _ (ev_paths _ Hev d Hd)) as Hl.
    apply states_elem in Hl as (e & Hin & Hrow & _). assert (e ∈ cd_events c) as Hx by (by apply He).
    rewrite Hnil in Hx. by apply not_elem_of_nil in Hx.
  - unfold without_restore, in_state. rewrite Hc. destruct (decide (dl_state d = PASSED)) as [Hs|Hs]; [|by rewrite bool_decide_eq_false_2].
    rewrite bool_decide_eq_true_2 by done. cbn [andb]. apply negb_false_iff, existsb_exists.
    assert (Hr : RESTORE_VERIFIED ∈ states_of db (dl_id d)) by (rewrite (Hp d Hd Hs); apply list_elem_of_In; cbn; tauto).
    apply states_elem in Hr as (e & Hin & Hrow & Hst). exists e. split; [apply list_elem_of_In; by apply He|].
    by apply bool_decide_eq_true_2.
Qed.
End Requests.

(** * Reconciliation, history pages and readiness of the Resilience service *)

Section Reconciliation.
Context {Env : Type} {zod : Zod} {pg : Postgres} {rows : RowOrder}.

(** A drill whose record does not support what it says. *)
Definition unsupported (db : ResilienceDb) (d : Drill) : Prop :=
  states_of db (dl_id d) = [] \/
  dl_state d = PASSED /\
    (RESTORE_VERIFIED ∉ states_of db (dl_id d) \/
     (forall r, r ∈ drillReconciliations db -> dr_drillRowId r = dl_id d -> dr_status r <> PASS) \/
     dl_backupSetId d = None).
Lemma add_issue_critical code sev n : existsb is_critical (add_issue code sev n) = bool_decide (sev = CRITICAL_ISSUE) && (0 <? n).
Proof. unfold add_issue. destruct (0 <? n); cbn; unfold is_critical; cbn; by destruct (bool_decide _). Qed.
Lemma count_some {A} (f : A -> bool) l : 0 < count_rows f l <-> exists x, x ∈ l /\ f x = true.
Proof.
  split.
  - intros H. unfold count_rows in H. destruct (filter _ l) as [|x l'] eqn:Hf; [cbn in H; lia|].
    assert (Hx : x ∈ filter (fun a => f a = true) l) by (rewrite Hf; by left).
    apply list_elem_of_filter in Hx as [? ?]. eauto.
  - intros (x & Hx & Hfx). unfold count_rows. assert (Hin : x ∈ filter (fun a => f a = true) l) by (by apply list_elem_of_filter).
    destruct (filter _ l); [by apply not_elem_of_nil in Hin|cbn; lia].
Qed.
Lemma critical_issues drills sets : existsb is_critical (issues_found drills sets) = true <->
  exists c, c ∈ drills /\ (without_history c || without_restore c || without_reconciliation c || without_backup c) = true.
Proof.
  unfold issues_found. rewrite !existsb_app, !add_issue_critical.
  rewrite !(bool_decide_eq_true_2 (CRITICAL_ISSUE = CRITICAL_ISSUE)), !(bool_decide_eq_false_2 (WARNING = CRITICAL_ISSUE)) by done.
  cbn [andb orb]. rewrite !orb_false_r, !orb_true_iff, !Z.ltb_lt, !count_some. setoid_rewrite orb_true_iff. setoid_rewrite orb_true_iff.
  setoid_rewrite orb_true_iff. naive_solver.
Qed.
(** The drills a run looks at: the newest 500. *)
Definition examined (db : ResilienceDb) : list Drill := take 500 (sort_by_Z (fun d => - dl_startedAt d) (unordered (recoveryDrills db))).
Lemma examined_newest db : exists older, examined db ++ older ≡ₚ recoveryDrills db /\
  (older <> [] -> length (examined db) = 500%nat) /\ forall d d', d ∈ examined db -> d' ∈ older -> dl_startedAt d' <= dl_startedAt d.
Proof.
  unfold examined. set (l := sort_by_Z _ _). exists (drop 500 l). rewrite take_drop. split; [by unfold l; rewrite sort_by_Z_perm, unordered_perm|]. split.
  - intros Hd. rewrite length_take. apply Nat.min_l. destruct (Nat.le_gt_cases (length l) 500) as [H|H]; [|lia]. by rewrite drop_ge in Hd.
  - intros d d' Hd Hd'. apply Z.opp_le_mono. refine (StronglySorted_app_1_elem_of (fun a b => - dl_startedAt a <= - dl_startedAt b) (take 500 l) (drop 500 l) d d' _ Hd Hd').
    rewrite take_drop. apply StronglySorted_merge_sort; [intros a b c; cbv beta; lia|intros a b; cbv beta; lia].
Qed.
Lemma examined_checked db d : d ∈ examined db -> exists c, c ∈ checked_drills db /\ cd_drill c = d.
Proof. intros Hd. unfold checked_drills. eexists. split; [apply list_elem_of_fmap; exists d; split; [reflexivity|exact Hd]|done]. Qed.
Lemma checked_examined db c : c ∈ checked_drills db -> cd_drill c ∈ examined db.
Proof. by intros (d & -> & Hd)%list_elem_of_fmap. Qed.
Lemma checked_unsupported db c : c ∈ checked_drills db ->
  (without_history c || without_restore c || without_reconciliation c || without_backup c) = true <-> unsupported db (cd_drill c).
Proof.
  intros (d & Hc & Hd & He & Hr)%checked_elem. rewrite !orb_true_iff. unfold unsupported, without_history, without_restore,
    without_reconciliation, without_backup, in_state. rewrite Hc, !andb_true_iff, !negb_true_iff, !bool_decide_eq_true.
  assert (H1 : cd_events c = [] <-> states_of db (dl_id d) = []).
  { split; intros H.
    - destruct (states_of _ _) as [|x l] eqn:Hs; [done|]. assert (Hx : x ∈ states_of db (dl_id d)) by (rewrite Hs; by left).
      apply states_elem in Hx as (e & Hin & Hrow & _). assert (Hx : e ∈ cd_events c) by (by apply He). rewrite H in Hx. by apply not_elem_of_nil in Hx.
    - destruct (cd_events c) as [|x l] eqn:Hs; [done|]. assert (Hx : x ∈ drillEvents db /\ dv_drillRowId x = dl_id d) by (apply He; by left).
      assert (Hin : dv_state x ∈ states_of db (dl_id d)) by (destruct Hx; apply states_elem; by exists x). rewrite H in Hin. by apply not_elem_of_nil in Hin. }
  assert (H2 : existsb (fun e => bool_decide (dv_state e = RESTORE_VERIFIED)) (cd_events c) = false <-> RESTORE_VERIFIED ∉ states_of db (dl_id d)).
  { rewrite states_elem. rewrite <- not_true_iff_false, existsb_exists. setoid_rewrite <- list_elem_of_In. setoid_rewrite He.
    setoid_rewrite bool_decide_eq_true. naive_solver. }
  assert (H3 : forallb (fun r => negb (bool_decide (dr_status r = PASS))) (cd_reconciliations c) = true <->
    forall r, r ∈ drillReconciliations db -> dr_drillRowId r = dl_id d -> dr_status r <> PASS).
  { rewrite forallb_forall. setoid_rewrite <- list_elem_of_In. setoid_rewrite Hr. setoid_rewrite negb_true_iff.
    setoid_rewrite bool_decide_eq_false. naive_solver. }
  assert (H4 : bool_decide (is_Some (dl_backupSetId d)) = false <-> dl_backupSetId d = None)
    by (rewrite bool_decide_eq_false; symmetry; apply eq_None_not_Some).
  rewrite H1, H2, H3, H4. tauto.
Qed.

Lemma examined_verdict db (env : Env) : exists r, reconcile (alone db env) = (Ok r, alone db env) /\
  rz_checkedDrills r = Z.of_nat (length (examined db)) /\ (rz_status r = FAIL <-> exists d, d ∈ examined db /\ unsupported db d).
Proof.
  eexists. split; [reflexivity|]. unfold verdict_of. cbn [rz_status rz_checkedDrills].
  split; [unfold checked_drills; by rewrite length_map|].
  assert (Hiff : existsb is_critical (issues_found (checked_drills db) (take 500 (unordered (backupSets db)))) = true <->
    exists d, d ∈ examined db /\ unsupported db d).
  { rewrite critical_issues. split.
    - intros (c & Hc & Hb). exists (cd_drill c). rewrite (checked_unsupported db c Hc) in Hb. split; [by apply checked_examined|done].
    - intros (d & Hd & Hu). destruct (examined_checked db d Hd) as (c & Hc & <-). exists c. split; [done|]. by apply (checked_unsupported db c Hc). }
  rewrite <- Hiff. by destruct (existsb is_critical _).
Qed.
(** C38: a run of the Resilience service changes nothing and fails exactly when
    the record of some drill among those it looks at does not support what it
    says: no history, or passed without a verified restore, without a passed
    reconciliation or without the backup set that was restored. It looks at the
    newest 500 drills, so at all of them when there are no more than 500;
    [older_drills_unchecked] of ResilienceWitnesses is a run that passes over an
    older one. *)
Theorem resilience_verdict db (env : Env) : exists r seen older,
  reconcile (alone db env) = (Ok r, alone db env) /\
  seen ++ older ≡ₚ recoveryDrills db /\ (older <> [] -> length seen = 500%nat) /\
  (forall d d', d ∈ seen -> d' ∈ older -> dl_startedAt d' <= dl_startedAt d) /\
  rz_checkedDrills r = Z.of_nat (length seen) /\
  (rz_status r = FAIL <-> exists d, d ∈ seen /\ unsupported db d).
Proof.
  destruct (examined_newest db) as (older & Hp & Hl & Hn), (examined_verdict db env) as (r & Hr & Hc & Hv).
  by exists r, (examined db), older.
Qed.
End Reconciliation.

(** ** Pages of the history *)
Section Pages.
Context {Env : Type} {zod : Zod} {pg : Postgres} {rows : RowOrder}.
Variables (db : ResilienceDb) (env : Env) (limit : Z) (state : option RecoveryDrillState).
Definition chosen (d : Drill) : bool := when_present (fun s => bool_decide (dl_state d = s)) state.
(** The drills asked for, newest first. *)
Definition timeline : list Drill := merge_sort newest_first (filter (fun d => chosen d = true) (recoveryDrills db)).
(** Follow the cursors, at most [fuel] pages. *)
Fixpoint read_pages (fuel : nat) (cursor : option string) : option (list RecoveryDrill) :=
  match fuel with
  | O => None
  | S fuel =>
      match history (mkHistory limit cursor state) (alone db env) with
      | (Ok (page, None), _) => Some page
      | (Ok (page, Some c), _) => rest ← read_pages fuel (Some c); Some (page ++ rest)
      | (Err _, _) => None
      end
  end.

Hypothesis Hlimit : 1 <= limit.
Hypothesis Hids : NoDup (dl_drillId <$> recoveryDrills db).
(** Drills planned at different times. *)
Hypothesis Htimes : NoDup (dl_startedAt <$> recoveryDrills db).
Hypothesis Hnamed : forall d, d ∈ recoveryDrills db -> dl_drillId d <> ""%string.

#[local] Instance newest_first_trans : Transitive newest_first.
Proof.
  intros a b c [H1|[H1 H1']] [H2|[H2 H2']]; unfold newest_first; [left; lia..|right].
  split; [lia|]. by trans (dl_drillId b).
Qed.
#[local] Instance newest_first_total : Total newest_first.
Proof.
  intros a b. unfold newest_first. destruct (Z.lt_trichotomy (dl_startedAt a) (dl_startedAt b)) as [H|[H|H]]; [right; by left| |left; by left].
  destruct (total String.le (dl_drillId a) (dl_drillId b)); [right|left]; right; split; congruence.
Qed.
Lemma same_time a b : a ∈ recoveryDrills db -> b ∈ recoveryDrills db -> dl_startedAt a = dl_startedAt b -> a = b.
Proof.
  intros [i Hi]%list_elem_of_lookup [j Hj]%list_elem_of_lookup Heq. assert (i = j) as ->; [|congruence].
  apply (NoDup_lookup (dl_startedAt <$> recoveryDrills db) i j (dl_startedAt a)); [done|..]; rewrite list_lookup_fmap;
    [by rewrite Hi|by rewrite Hj, Heq].
Qed.
Lemma sorted_filter {A} (R : A -> A -> Prop) P `{forall a, Decision (P a)} l : StronglySorted R l -> StronglySorted R (filter P l).
Proof.
  induction 1 as [|a l Hs IH Ha]; [constructor|]. rewrite filter_cons. destruct (decide (P a)); [|done]. constructor; [done|].
  apply Forall_forall. intros x [_ Hx]%list_elem_of_filter. by eapply Forall_forall in Ha.
Qed.
Lemma timeline_sorted : StronglySorted newest_first timeline.
Proof. apply StronglySorted_merge_sort; apply _. Qed.
Lemma timeline_elem d : d ∈ timeline -> d ∈ recoveryDrills db.
Proof. unfold timeline. rewrite merge_sort_Permutation. by intros [_ H]%list_elem_of_filter. Qed.
Lemma keep_all {A} (P : A -> Prop) `{forall a, Decision (P a)} (l : list A) : (forall a, a ∈ l -> P a) -> filter P l = l.
Proof.
  induction l as [|a l IH]; intros Hl; [done|]. rewrite filter_cons, decide_True by (apply Hl; by left).
  rewrite IH; [done|]. intros x Hx. apply Hl. by right.
Qed.
(** What comes after a drill of the timeline. *)
Definition after (c : option Drill) : list Drill :=
  merge_sort newest_first (filter (fun d => (chosen d && when_present (fun c => dl_startedAt d <? dl_startedAt c) c) = true) (recoveryDrills db)).
Lemma after_none : after None = timeline.
Proof.
  unfold after, timeline. f_equal. apply list_filter_iff. intros d. by rewrite andb_true_r.
Qed.
Lemma after_filter c : after (Some c) = filter (fun d => (dl_startedAt d <? dl_startedAt c) = true) timeline.
Proof.
  apply (StronglySorted_unique_strong newest_first).
  - intros a b Ha Hb [H1|[H1 _]] [H2|[H2 _]]; [lia..|]. unfold after in Ha. rewrite merge_sort_Permutation in Ha.
    apply list_elem_of_filter in Ha as [_ Ha], Hb as [_ Hb%timeline_elem]. by apply same_time.
  - apply StronglySorted_merge_sort; apply _.
  - apply sorted_filter, timeline_sorted.
  - unfold after, timeline. rewrite !merge_sort_Permutation, list_filter_filter. apply Permutation_refl', list_filter_iff.
    intros d. cbn [when_present]. rewrite andb_true_iff. tauto.
Qed.
Lemma after_split front c back : timeline = front ++ c :: back -> after (Some c) = back.
Proof.
  intros Ht. rewrite after_filter, Ht, filter_app, filter_cons_False by (rewrite Z.ltb_irrefl; discriminate).
  pose proof timeline_sorted as Hs. rewrite Ht in Hs.
  assert (Hin : forall d, d ∈ front ++ c :: back -> d ∈ recoveryDrills db) by (intros d; rewrite <- Ht; apply timeline_elem).
  assert (Hn : NoDup (front ++ c :: back)).
  { rewrite <- Ht. unfold timeline. rewrite merge_sort_Permutation. apply NoDup_filter. by eapply NoDup_fmap_1. }
  apply NoDup_app in Hn as (_ & Hfc & Hcb%NoDup_cons). destruct Hcb as [Hcb _].
  assert (filter (fun d => (dl_startedAt d <? dl_startedAt c) = true) front = []) as ->.
  { destruct (filter _ front) as [|d l] eqn:Hf; [done|]. assert (Hd : d ∈ filter (fun d => (dl_startedAt d <? dl_startedAt c) = true) front)
      by (rewrite Hf; by left). apply list_elem_of_filter in Hd as [Hlt Hd].
    apply Z.ltb_lt in Hlt. pose proof (StronglySorted_app_1_elem_of _ _ _ _ _ Hs Hd ltac:(by left)) as [H|[H _]]; lia. }
  cbn [app]. apply keep_all. intros d Hd. apply Z.ltb_lt.
  apply StronglySorted_app_1_r, StronglySorted_cons in Hs as [Hall _]. rewrite Forall_forall in Hall.
  destruct (Hall d Hd) as [H|[H _]]; [lia|]. destruct Hcb.
  rewrite (same_time c d); [done|apply Hin|apply Hin|done]; apply elem_of_app; right; [by left|by right].
Qed.
Definition full (d : Drill) : RecoveryDrill := toDrill (with_relations db d).
Definition names (cursor : option string) (c : option Drill) : Prop :=
  match cursor, c with
  | None, None => True
  | Some id, Some d => truthy_string (Some id) = Some id /\ find_drill id db = Some d
  | _, _ => False
  end.
Lemma history_page cursor c : names cursor c -> history (mkHistory limit cursor state) (alone db env) =
  (Ok (full <$> take (Z.to_nat limit) (after c),
       if (Z.to_nat limit <? length (after c))%nat then dl_drillId <$> last (take (Z.to_nat limit) (after c)) else None), alone db env).
Proof.
  intros Hn. unfold history. cbn [ho_cursor ho_limit ho_state].
  rewrite (bind_Ok _ _ _ _ _ c (alone db env)).
  2: { destruct cursor as [id|], c as [d|]; try done. destruct Hn as [-> Hf]. rewrite atomic_alone. cbn. by rewrite Hf. }
  rewrite (bind_Ok _ _ _ _ _ (with_relations db <$> take (Z.to_nat (limit + 1)) (after c)) (alone db env)) by (by rewrite atomic_alone).
  assert (Ht : take (Z.to_nat limit) (with_relations db <$> take (Z.to_nat (limit + 1)) (after c)) =
    with_relations db <$> take (Z.to_nat limit) (after c)).
  { rewrite <- fmap_take, take_take, Nat.min_l by lia. done. }
  unfold mret, M_ret. change (map toDrill ?l) with (toDrill <$> l). rewrite Ht, <- list_fmap_compose, fmap_last, length_fmap, length_take.
  f_equal. f_equal. f_equal. destruct (Nat.ltb_spec (Z.to_nat limit) (length (after c))).
  - rewrite (proj2 (Z.ltb_lt _ _)) by lia. by destruct (last _).
  - by rewrite (proj2 (Z.ltb_ge _ _)) by lia.
Qed.
Lemma read_drills_from fuel start cursor c : names cursor c -> after c = drop start timeline -> (length timeline - start < fuel)%nat ->
  read_pages fuel cursor = Some (full <$> drop start timeline).
Proof.
  revert start cursor c. induction fuel as [|fuel IH]; intros start cursor c Hn Ha Hf; [lia|]. cbn [read_pages].
  rewrite (history_page cursor c Hn), Ha. set (n := Z.to_nat limit). assert (1 <= n)%nat by (unfold n; lia).
  destruct (Nat.ltb_spec n (length (drop start timeline))) as [Hlt|Hge]; [|by rewrite take_ge].
  rewrite length_drop in Hlt. rewrite take_drop_commute.
  assert (exists d, timeline !! (start + n - 1)%nat = Some d) as [d Hd] by (apply lookup_lt_is_Some; lia).
  assert (Hlast : last (drop start (take (start + n) timeline)) = Some d).
  { rewrite last_lookup, length_drop, length_take, lookup_drop, lookup_take_lt by lia. rewrite <- Hd. f_equal. lia. }
  rewrite Hlast. cbn [fmap option_fmap option_map].
  assert (Hin : d ∈ recoveryDrills db) by (by eapply timeline_elem, list_elem_of_lookup_2).
  rewrite (IH (start + n)%nat (Some (dl_drillId d)) (Some d)).
  - cbn [mbind option_bind]. f_equal. rewrite <- fmap_app, <- take_drop_commute, <- drop_drop, take_drop. done.
  - cbn. split; [|by apply find_row_elem]. pose proof (Hnamed d Hin). by rewrite (proj2 (String.eqb_neq _ _)).
  - apply (after_split (take (start + n - 1) timeline)).
    rewrite <- (take_drop (start + n - 1) timeline) at 1. f_equal. rewrite (drop_S _ d) by done. f_equal. f_equal. lia.
  - lia.
Qed.

(** Following the cursors from the first page reads every drill asked for
    exactly once, newest first, as long as no two drills were planned at the
    same time: the cursor stands for its time only. *)
Theorem drill_pages_complete : read_pages (S (length timeline)) None = Some (full <$> timeline).
Proof. rewrite (read_drills_from _ O None None); [by rewrite drop_0|done|by rewrite after_none|lia]. Qed.
End Pages.
