(* ===== verification/BackupCrypto.v ===== *)
(** * Backup files and their manifests
    ([packages/contracts/src/resilience/backup-crypto.ts], [v1.ts]) *)

From Stdlib Require Import ZArith Lia Ascii String.
From stdpp Require Import base strings list.
From S2P Require Import Prelude.
From S2P Require Import Js.
From S2P Require Import Codec.
From S2P Require Import Regex.
From S2P Require Import Contracts.
From S2P Require Import RiskTypes.
From S2P Require Import PaymentsDb.
From S2P Require Import SabclWire.
From S2P Require Import SabclCrypto.
From S2P Require Import SabclWireProofs.
From S2P Require Import ResilienceDb.

Open Scope Z_scope.

(** ** The file format: magic, version, nonce, tag, ciphertext *)
Definition BACKUP_MAGIC : string := "AEGISBK1".
Definition BACKUP_FORMAT_VERSION : Z := 1.
Definition BACKUP_KEY_BYTES : nat := 32.
Definition BACKUP_NONCE_BYTES : nat := 12.
Definition BACKUP_TAG_BYTES : nat := 16.
Definition BACKUP_HEADER_BYTES : nat := String.length BACKUP_MAGIC + 1 + BACKUP_NONCE_BYTES + BACKUP_TAG_BYTES.
Inductive BackupCryptoError := KEY_INVALID | FORMAT_INVALID | TRUNCATED | BACKUP_DECRYPTION_FAILED | CHECKSUM_MISMATCH.
Abbreviation Backup := (result BackupCryptoError).
Definition backup_when (b : bool) (e : BackupCryptoError) : Backup unit := if b then Err e else mret tt.
Definition key_char : ascii -> bool := fun c => alnum c || bool_decide (c ∈ ["+"; "/"; "="; "_"; "-"]%char).
Definition parseBackupKey (raw : option string) : Backup string :=
  let value := trim (default "" raw) in
  _ ← backup_when (String.eqb value "") KEY_INVALID;
  _ ← backup_when (negb (str_all key_char value)) KEY_INVALID;
  let key := base64url_decode value in
  _ ← backup_when (negb (String.length key =? BACKUP_KEY_BYTES)%nat) KEY_INVALID;
  _ ← backup_when (timingSafeBytesEqual key (zeros 32)) KEY_INVALID;
  mret key.
Definition backup_header : string := BACKUP_MAGIC +:+ String (byte_char BACKUP_FORMAT_VERSION) "".
Section Files.
Context {prim : SabclPrimitives}.
(** [nonce]: the random bytes drawn for the file. *)
Definition encryptBackupFile (nonce plaintext key : string) : Backup string :=
  _ ← backup_when (negb (String.length key =? BACKUP_KEY_BYTES)%nat) KEY_INVALID;
  let '(ciphertext, tag) := aes_gcm_seal key nonce plaintext backup_header in
  mret (backup_header +:+ nonce +:+ tag +:+ ciphertext).
Definition decryptBackupFile (file key : string) : Backup string :=
  _ ← backup_when (negb (String.length key =? BACKUP_KEY_BYTES)%nat) KEY_INVALID;
  _ ← backup_when (String.length file <? BACKUP_HEADER_BYTES)%nat TRUNCATED;
  _ ← backup_when (negb (timingSafeBytesEqual (str_take 8 file) BACKUP_MAGIC)) FORMAT_INVALID;
  _ ← backup_when (negb (String.eqb (slice 8 9 file) (String (byte_char BACKUP_FORMAT_VERSION) ""))) FORMAT_INVALID;
  let nonce := slice 9 21 file in
  let tag := slice 21 37 file in
  let ciphertext := str_drop 37 file in
  match aes_gcm_open key nonce ciphertext tag (str_take 9 file) with
  | Some plaintext => mret plaintext
  | None => Err BACKUP_DECRYPTION_FAILED
  end.
Definition verifyChecksum (file expected : string) : Backup unit :=
  let a := hex_bytes (sha256_hex file) in
  let b := hex_bytes expected in
  backup_when (negb (String.length a =? String.length b)%nat || negb (timingSafeBytesEqual a b)) CHECKSUM_MISMATCH.
(** Canonical text of a manifest: the one Payments hashes requests by. *)
Definition canonicalManifestBytes (manifest : json) : string := default "undefined" (stringify (sorted_json manifest)).


(** The parts of a file that is long enough. *)
Lemma str_drop_drop n m s : str_drop n (str_drop m s) = str_drop (m + n) s.
Proof. revert s. induction m as [|m IH]; intros [|c s]; cbn [str_drop Nat.add]; try done. by destruct n. Qed.
Lemma drop_slice i k j s : (i + k = j)%nat -> str_drop i s = slice i j s +:+ str_drop j s.
Proof.
  intros <-. unfold slice. replace (i + k - i)%nat with k by lia. rewrite <- (str_take_drop k (str_drop i s)) at 1. by rewrite str_drop_drop.
Qed.
Lemma file_parts file : file = str_take 8 file +:+ slice 8 9 file +:+ slice 9 21 file +:+ slice 21 37 file +:+ str_drop 37 file.
Proof.
  rewrite <- (str_take_drop 8 file) at 1.
  by rewrite (drop_slice 8 1 9 file), (drop_slice 9 12 21 file), (drop_slice 21 16 37 file).
Qed.
Lemma str_length_drop n s : String.length (str_drop n s) = (String.length s - n)%nat.
Proof. revert s. induction n as [|n IH]; intros [|c s]; cbn [str_drop String.length Nat.sub]; [done..|apply IH]. Qed.
Lemma slice_length i j s : (j <= String.length s)%nat -> String.length (slice i j s) = (j - i)%nat.
Proof. intros H. unfold slice. rewrite str_length_take, str_length_drop. lia. Qed.
Lemma slice_app (a b c : string) i j : i = String.length a -> j = (i + String.length b)%nat -> slice i j (a +:+ b +:+ c) = b.
Proof.
  intros -> ->. unfold slice. rewrite str_drop_app0. replace (_ + _ - _)%nat with (String.length b) by lia. apply str_take_app.
Qed.
Lemma str_take_all (a b : string) n : n = String.length a -> str_take n (a +:+ b) = a.
Proof. intros ->. apply str_take_app. Qed.
Lemma str_drop_all (a b : string) n : n = String.length a -> str_drop n (a +:+ b) = b.
Proof. intros ->. apply str_drop_app0. Qed.

Lemma backup_bind_inv {A B} (m : Backup A) (k : A -> Backup B) b : (m ≫= k) = Ok b -> exists a, m = Ok a /\ k a = Ok b.
Proof. destruct m as [a|e]; [by exists a|discriminate]. Qed.
Lemma backup_when_inv b e u : backup_when b e = Ok u -> b = false.
Proof. by destruct b. Qed.
Ltac backup_run :=
  repeat match goal with
  | H : (_ ≫= _) = Ok _ |- _ => let Hs := fresh "Hs" in apply backup_bind_inv in H as (? & Hs & H)
  | H : backup_when _ _ = Ok _ |- _ => apply backup_when_inv in H
  end.

(** C39: a backup file that was written with a key of 32 bytes opens with it to
    what was written; and a file opens only if it is the format's magic and
    version, a nonce, a tag and a ciphertext that the cipher authenticates under
    the key together with that header. *)
Theorem backup_roundtrip nonce plaintext key : String.length key = 32%nat -> String.length nonce = 12%nat ->
  (exists file, encryptBackupFile nonce plaintext key = Ok file /\ decryptBackupFile file key = Ok plaintext) /\
  (forall file text, decryptBackupFile file key = Ok text -> exists n t c,
    file = backup_header +:+ n +:+ t +:+ c /\ String.length n = 12%nat /\ String.length t = 16%nat /\
    aes_gcm_open key n c t backup_header = Some text).
Proof.
  intros Hkey Hnonce. split.
  - unfold encryptBackupFile. rewrite Hkey. cbn [Nat.eqb BACKUP_KEY_BYTES negb backup_when mret result_ret mbind result_bind].
    pose proof (aes_gcm_correct key nonce plaintext backup_header) as Hc. pose proof (aes_gcm_lengths key nonce plaintext backup_header) as Hl.
    destruct (aes_gcm_seal _ _ _ _) as [c t]. destruct Hl as [_ Ht]. eexists. split; [reflexivity|].
    unfold decryptBackupFile. rewrite Hkey. cbn [Nat.eqb BACKUP_KEY_BYTES negb backup_when mret result_ret mbind result_bind].
    assert (Hlen : (String.length (backup_header +:+ nonce +:+ t +:+ c) <? BACKUP_HEADER_BYTES)%nat = false).
    { apply Nat.ltb_ge. rewrite !str_length_app, Hnonce, Ht. change BACKUP_HEADER_BYTES with 37%nat. change (String.length backup_header) with 9%nat. lia. }
    rewrite Hlen. cbn [backup_when mret result_ret mbind result_bind].
    change (str_take 8 (backup_header +:+ nonce +:+ t +:+ c)) with BACKUP_MAGIC.
    change (slice 8 9 (backup_header +:+ nonce +:+ t +:+ c)) with (String (byte_char BACKUP_FORMAT_VERSION) "").
    unfold timingSafeBytesEqual. rewrite !String.eqb_refl. cbn [negb backup_when mret result_ret mbind result_bind].
    rewrite (slice_app backup_header nonce (t +:+ c)), (str_take_all backup_header) by (rewrite ?Hnonce; done).
    rewrite <- (str_app_assoc backup_header nonce), (slice_app (backup_header +:+ nonce) t c) by (rewrite ?str_length_app, ?Hnonce, ?Ht; done).
    rewrite <- str_app_assoc, (str_drop_all ((backup_header +:+ nonce) +:+ t)) by (rewrite ?str_length_app, ?Hnonce, ?Ht; done).
    by rewrite Hc.
  - intros file text H. unfold decryptBackupFile, timingSafeBytesEqual in H. backup_run. bool_to_Z.
    repeat match goal with H : negb _ = false |- _ => apply negb_false_iff in H end.
    match goal with H : (_ <? _)%nat = false |- _ => apply Nat.ltb_ge in H; change BACKUP_HEADER_BYTES with 37%nat in H; rename H into Hlen end.
    match goal with H : str_take 8 file = _ |- _ => rename H into H8 end.
    match goal with H : slice 8 9 file = _ |- _ => rename H into H9 end.
    assert (Hh : str_take 9 file = backup_header).
    { pose proof (file_parts file) as Hf. rewrite H8, H9 in Hf. rewrite Hf at 1. reflexivity. }
    rewrite Hh in H. destruct (aes_gcm_open _ _ _ _ _) as [p|] eqn:Ho; [|discriminate H]. injection H as ->.
    exists (slice 9 21 file), (slice 21 37 file), (str_drop 37 file). split_and!; [|by rewrite slice_length by lia|by rewrite slice_length by lia|exact Ho].
    rewrite (file_parts file) at 1. by rewrite H8, H9.
Qed.
End Files.

(** ** Manifests *)
Record BackupManifestEntry := mkManifestEntry {
  me_service : string; me_fileName : string; me_checksum : string; me_sizeBytes : Z; me_migrationVersion : option string }.
Record BackupManifest := mkManifest {
  mf_manifestVersion : string;
  mf_backupSetId : string;
  mf_createdAt : string;
  mf_encryptionAlgorithm : string;
  mf_keyDerivation : string;
  mf_entries : list BackupManifestEntry
}.
Definition file_char : ascii -> bool := fun c => alnum c || bool_decide (c ∈ ["."; "_"; "-"]%char).
Definition fileName_rx : rx := (Cls alnum · rep_range 0 127 (Cls file_char))%rx.
Definition backupManifestEntrySchema (e : BackupManifestEntry) : bool :=
  resilienceServiceNameSchema (me_service e) && rx_match fileName_rx (me_fileName e) && rx_match sha256_rx (me_checksum e)
  && (0 <=? me_sizeBytes e) && (me_sizeBytes e <=? 2 ^ 53 - 1) && when_present (len_between 1 128) (me_migrationVersion e).
Definition backupManifestSchema {zod : Zod} (m : BackupManifest) : bool :=
  String.eqb (mf_manifestVersion m) "1.0" && opaqueIdentifier (mf_backupSetId m) && z_datetime (mf_createdAt m)
  && String.eqb (mf_encryptionAlgorithm m) "AES-256-GCM" && String.eqb (mf_keyDerivation m) "raw-256-bit"
  && forallb backupManifestEntrySchema (mf_entries m) && (1 <=? length (mf_entries m))%nat && (length (mf_entries m) <=? 16)%nat
  && bool_decide (NoDup (map me_service (mf_entries m))).
