(* ===== verification/ResilienceWitnesses.v ===== *)
(** * The Resilience theorems at concrete inputs, and drills whose record goes
    astray *)

From Stdlib Require Import ZArith Lia Ascii String.
From stdpp Require Import base strings list sorting.
From S2P Require Import Prelude.
From S2P Require Import Js.
From S2P Require Import LedgerDb.
From S2P Require Import Fixtures.
From S2P Require Import RiskTypes.
From S2P Require Import Services.
From S2P Require Import PaymentsDb.
From S2P Require Import RiskDb.
From S2P Require Import RiskWitnesses.
From S2P Require Import SabclWire.
From S2P Require Import SabclCrypto.
From S2P Require Import SabclWitnesses.
From S2P Require Import ResilienceDb.
From S2P Require Import Resilience.
From S2P Require Import ResilienceProofs.
From S2P Require Import BackupCrypto.

Open Scope Z_scope.

(** ** Requests *)
Definition backup_request : ResilienceRequest :=
  RecordBackup "2026-07-31T14:30:45.678Z"
    (mkBackupInput "backup:2026-07-31" 0 ["ledger"; "payments"] (join "" (repeat "0a1b2c3d" 8)) "AES-256-GCM" 4096).
Definition plan (random : string) : ResilienceRequest := PlanDrill random "MANUAL" None (Some "operator:alice").
Definition first_drill : string := "drill:2026-07-31:abcdef01".
Definition step_to (state : RecoveryDrillState) (backup : option string) (results : list ReportedReconciliation) : ResilienceRequest :=
  Advance (mkAdvance first_drill state None backup None None None (Some results)).
Definition drill_after (requests : list (Z * ResilienceRequest)) : ResilienceDb :=
  foldl (fun db '(t, r) => sdb (res_request t r (alone db tt)).2) emptyResilience requests.
Definition the_backup : option string := Some "backup:2026-07-31".
Definition passed_results : list ReportedReconciliation := [mkReported "ledger" PASS 0; mkReported "payments" PASS 0].
Definition passing : list (Z * ResilienceRequest) :=
  [(fx_now, backup_request); (fx_now + 1, plan "abcdef0123456789"); (fx_now + 2, step_to RUNNING None []);
   (fx_now + 3, step_to BACKUP_CREATED the_backup []); (fx_now + 4, step_to RESTORE_VERIFIED None []);
   (fx_now + 5, step_to RECONCILIATION_PASSED None passed_results); (fx_now + 6, step_to PASSED None [])].
Definition passed_db : ResilienceDb := Eval vm_compute in drill_after passing.
Definition all_answered (requests : list (Z * ResilienceRequest)) : bool :=
  (foldl (fun '(ok, db) '(t, r) => let x := res_request t r (alone db tt) in (ok && is_ok x.1, sdb x.2)) (true, emptyResilience) requests).1.

(** Answered requests make a history. *)
Lemma answered_history requests : all_answered requests = true -> drill_history (Env := unit) (drill_after requests).
Proof.
  unfold all_answered, drill_after. induction requests as [|[t r] l IH] using rev_ind; [intros _; constructor|].
  rewrite !foldl_app. cbn [foldl]. assert (Hdb : forall l b db, (foldl (fun '(ok, db) '(t, r) =>
    let x := res_request t r (alone db tt) in (ok && is_ok x.1, sdb x.2)) (b, db) l).2 =
    foldl (fun db '(t, r) => sdb (res_request t r (alone db tt)).2) db l).
  { clear. induction l as [|[t r] l IH]; intros b db; [done|]. cbn [foldl]. apply IH. }
  pose proof (Hdb l true emptyResilience) as Hl. destruct (foldl _ (true, _) l) as [ok db]. cbn [fst snd] in *. rewrite <- Hl in *.
  intros [Hok Hr]%andb_prop. apply drills_request; [by apply IH|by left].
Qed.
Lemma passing_answered : all_answered passing = true.
Proof. vm_compute. reflexivity. Qed.
Lemma passed_history : drill_history (Env := unit) passed_db.
Proof. exact (answered_history passing passing_answered). Qed.
Lemma drill_history_safe_witness : drill_history (Env := unit) passed_db /\ without_history <$> checked_drills passed_db = [false].
Proof.
  pose proof (drill_history_safe passed_db passed_history) as (_ & _ & H & _). split; [exact passed_history|]. vm_compute. reflexivity.
Defined.
Lemma resilience_verdict_witness : exists r, reconcile (alone passed_db tt) = (Ok r, alone passed_db tt) /\ rz_status r = PASS /\
  forall d, d ∈ recoveryDrills passed_db -> ~ unsupported passed_db d.
Proof.
  destruct (resilience_verdict passed_db tt) as (r & seen & older & Hr & Hp & Hl & _ & _ & Hv). exists r. split; [exact Hr|].
  assert (Hs : rz_status r = PASS) by (vm_compute in Hr; injection Hr as <-; reflexivity). split; [exact Hs|].
  intros d Hd Hu. destruct older as [|x older].
  - rewrite app_nil_r in Hp. rewrite <- Hp in Hd. rewrite (proj2 Hv (ex_intro _ d (conj Hd Hu))) in Hs. discriminate Hs.
  - specialize (Hl ltac:(discriminate)). apply Permutation_length in Hp. rewrite length_app, Hl in Hp. discriminate Hp.
Defined.
Lemma backup_roundtrip_witness :
  exists file, encryptBackupFile (zeros 12) "pg_dump" (zeros 32) = Ok file /\ decryptBackupFile file (zeros 32) = Ok "pg_dump"%string.
Proof. exact (proj1 (backup_roundtrip (zeros 12) "pg_dump" (zeros 32) eq_refl eq_refl)). Defined.

(** ** Pages *)
Definition three_plans : list (Z * ResilienceRequest) :=
  [(fx_now, plan "aaaaaaaa"); (fx_now + 60000, plan "cccccccc"); (fx_now + 120000, plan "bbbbbbbb")].
Definition three_db : ResilienceDb := Eval vm_compute in drill_after three_plans.
Lemma three_ids : NoDup (dl_drillId <$> recoveryDrills three_db).
Proof. apply (bool_decide_unpack _). vm_compute. exact I. Qed.
Lemma three_times : NoDup (dl_startedAt <$> recoveryDrills three_db).
Proof. apply (bool_decide_unpack _). vm_compute. exact I. Qed.
Lemma three_named d : d ∈ recoveryDrills three_db -> dl_drillId d <> ""%string.
Proof. intros [-> | [-> | [-> | []%not_elem_of_nil]%elem_of_cons]%elem_of_cons]%elem_of_cons; discriminate. Qed.
Lemma drill_pages_complete_witness :
  read_pages three_db tt 2 None 4 None = Some (full three_db <$> timeline three_db None) /\
  dl_drillId <$> timeline three_db None = ["drill:2026-07-31:bbbbbbbb"; "drill:2026-07-31:cccccccc"; "drill:2026-07-31:aaaaaaaa"]%string.
Proof.
  split; [|vm_compute; reflexivity].
  exact (drill_pages_complete three_db tt 2 None ltac:(lia) three_ids three_times three_named).
Defined.

(** ** What the store of a drill may hold all the same *)
(** Two drills that were planned in one millisecond: the page after the first
    one leaves the second out. *)
Definition two_at_once : ResilienceDb := Eval vm_compute in drill_after [(fx_now, plan "aaaaaaaa"); (fx_now, plan "bbbbbbbb")].
Example history_loses_ties : option_map (map rd_drillId) (read_pages two_at_once tt 1 None 5 None) = Some ["drill:2026-07-31:bbbbbbbb"]%string.
Proof. vm_compute. reflexivity. Qed.

(** A request that repeats a service's result is refused after the drill has
    moved: its state has no event, and the next steps carry the gap along. *)
Definition half_way : list (Z * ResilienceRequest) :=
  [(fx_now, backup_request); (fx_now + 1, plan "abcdef0123456789"); (fx_now + 2, step_to RUNNING None []);
   (fx_now + 3, step_to BACKUP_CREATED the_backup [mkReported "ledger" PASS 0]);
   (fx_now + 4, step_to RESTORE_VERIFIED None [mkReported "ledger" PASS 0]);
   (fx_now + 5, step_to RECONCILIATION_PASSED None []); (fx_now + 6, step_to PASSED None [])].
Definition half_way_db : ResilienceDb := Eval vm_compute in drill_after half_way.
Example refused_half_way : all_answered half_way = false /\
  dl_state <$> recoveryDrills half_way_db = [PASSED] /\
  map dv_state (drillEvents half_way_db) = [PLANNED; RUNNING; BACKUP_CREATED; RECONCILIATION_PASSED; PASSED] /\
  match (reconcile (alone half_way_db tt)).1 with
  | Ok r => rz_status r = FAIL /\ map is_code (rz_issues r) = ["PASSED_WITHOUT_RESTORE_EVIDENCE"; "UNVERIFIED_BACKUP_SET"]%string
  | Err _ => False
  end.
Proof. vm_compute. done. Qed.

(** Nothing asks for results or a backup set before a drill passes. *)
Definition without_evidence : list (Z * ResilienceRequest) :=
  [(fx_now, plan "abcdef0123456789"); (fx_now + 1, step_to RUNNING None []); (fx_now + 2, step_to BACKUP_CREATED (Some "backup:unknown"%string) []);
   (fx_now + 3, step_to RESTORE_VERIFIED None []); (fx_now + 4, step_to RECONCILIATION_PASSED None [mkReported "ledger" FAIL 3]);
   (fx_now + 5, step_to PASSED None [])].
Example passed_without_evidence : all_answered without_evidence = true /\
  dl_state <$> recoveryDrills (drill_after without_evidence) = [PASSED] /\
  match (reconcile (alone (drill_after without_evidence) tt)).1 with
  | Ok r => map is_code (rz_issues r) = ["PASSED_WITHOUT_RECONCILIATION"; "PASSED_WITHOUT_BACKUP_SET"]%string
  | Err _ => False
  end.
Proof. vm_compute. done. Qed.

(** A drill that passed without evidence, and 500 drills planned after it. *)
Definition later_plans : list (Z * ResilienceRequest) :=
  map (fun i => let n := Z.of_nat i in (fx_now + 10 + n, plan (bigint_to_string (10000000 + n)))) (seq 0 500).
Definition crowded_db : ResilienceDb := Eval vm_compute in drill_after (without_evidence ++ later_plans).
Lemma paired {A B} (f : A * B -> bool) l k x : length l = length k -> forallb f (combine l k) = true -> x ∈ l ->
  exists y, y ∈ k /\ f (x, y) = true.
Proof.
  revert k. induction l as [|a l IH]; intros [|y k]; try done; [by intros _ _ ?%not_elem_of_nil|]. cbn.
  intros [= Hl] [Hf Hr]%andb_prop [->|Hx]%elem_of_cons; [exists y; split; [by left|done]|].
  destruct (IH k Hl Hr Hx) as (y' & Hy & Hfy). exists y'. split; [by right|done].
Qed.
(** Each of them has the event of its plan, at its place in the table. *)
Lemma plan_events : forallb (fun '(d, e) => String.eqb (dv_drillRowId e) (dl_id d))
  (combine (drop 1 (recoveryDrills crowded_db)) (drop 6 (drillEvents crowded_db))) = true.
Proof. vm_compute. reflexivity. Qed.
Lemma plan_count : length (drop 1 (recoveryDrills crowded_db)) = length (drop 6 (drillEvents crowded_db)).
Proof. vm_compute. reflexivity. Qed.
Lemma plans_examined : forallb (fun d => bool_decide (dl_state d = PLANNED)) (examined crowded_db) = true /\
  length (examined crowded_db) = 500%nat.
Proof. vm_compute. split; reflexivity. Qed.
Lemma planned_supported d : d ∈ examined crowded_db -> ~ unsupported crowded_db d.
Proof.
  intros Hd. destruct plans_examined as [Hp _]. rewrite forallb_forall in Hp. specialize (Hp d (proj1 (list_elem_of_In _ _) Hd)).
  apply bool_decide_eq_true in Hp. assert (Hin : d ∈ drop 1 (recoveryDrills crowded_db)).
  { destruct (examined_newest crowded_db) as (older & Hperm & _). assert (Hall : d ∈ recoveryDrills crowded_db)
      by (rewrite <- Hperm; apply elem_of_app; by left).
    rewrite <- (take_drop 1 (recoveryDrills crowded_db)) in Hall. apply elem_of_app in Hall as [Hfirst|]; [|done].
    apply list_elem_of_singleton in Hfirst. by rewrite Hfirst in Hp. }
  destruct (paired _ _ (drop 6 (drillEvents crowded_db)) d plan_count plan_events Hin) as (e & He & Hrow%String.eqb_eq).
  intros [Hn|[Hs _]]; [|by rewrite Hs in Hp].
  assert (Hx : dv_state e ∈ states_of crowded_db (dl_id d)); [|rewrite Hn in Hx; by apply not_elem_of_nil in Hx].
  apply states_elem. exists e. split; [|done]. rewrite <- (take_drop 6 (drillEvents crowded_db)). apply elem_of_app. by right.
Qed.
Lemma older_drills_unchecked : exists r, reconcile (alone crowded_db tt) = (Ok r, alone crowded_db tt) /\ rz_status r = PASS /\
  rz_checkedDrills r = 500 /\ exists d, d ∈ recoveryDrills crowded_db /\ unsupported crowded_db d.
Proof.
  destruct (examined_verdict crowded_db tt) as (r & Hr & Hc & Hv). exists r. split; [exact Hr|].
  rewrite (proj2 plans_examined) in Hc. split; [|split; [exact Hc|]].
  - destruct (rz_status r); [done|]. destruct (proj1 Hv eq_refl) as (d & Hd & Hu). by destruct (planned_supported d Hd).
  - eexists. split; [by left|]. right. split; [reflexivity|]. right. right. reflexivity.
Qed.

(** Cleaning up after a failed drill takes its failure code away, and the drill
    out of the warnings and of the acknowledgements. *)
Definition cleaned_up : list (Z * ResilienceRequest) :=
  [(fx_now, plan "abcdef0123456789"); (fx_now + 1, Advance (mkAdvance first_drill FAILED None None None None (Some "BACKUP_FAILED"%string) None));
   (fx_now + 2, step_to CLEANED_UP None [])].
Example failure_cleaned_up : all_answered cleaned_up = true /\
  dl_failureCode <$> recoveryDrills (drill_after (take 2 cleaned_up)) = [Some "BACKUP_FAILED"%string] /\
  dl_failureCode <$> recoveryDrills (drill_after cleaned_up) = [None] /\
  (res_request (fx_now + 3) (Acknowledge first_drill (Some "operator:bob"%string) "seen and repaired") (alone (drill_after cleaned_up) tt)).1 =
    Err (ResilienceHttpError 409 "DRILL_NOT_FAILED") /\
  match (reconcile (alone (drill_after cleaned_up) tt)).1 with Ok r => rz_issues r = [] | Err _ => False end.
Proof. vm_compute. done. Qed.

(** Without its database the service does not say that it is unavailable. *)
Example readiness_without_database :
  (readiness (Env := unit) fx_now false (fun _ => true) [("ledger", "http://ledger:3002")]%string (alone emptyResilience tt)).1 =
    Err (ResilienceDbError "unreachable").
Proof. reflexivity. Qed.
