(* ===== verification/Schemas.v ===== *)
(** * JSON schemas as the contracts write them: what [safeParse] makes of a
    document, and that what it makes of one is a document of the contract *)

From Stdlib Require Import ZArith Lia Ascii String.
From stdpp Require Import base strings list.
From S2P Require Import Prelude.
From S2P Require Import Js.
From S2P Require Import JsNumber.
From S2P Require Import Regex.
From S2P Require Import Contracts.

Open Scope Z_scope.

(** [Some v]: the parsed data; [None]: the document is refused. An absent
    property is [JUndef]. *)
Definition schema : Type := json -> option json.
(** A property of an object: required, optional, or with a default. *)
Inductive Field := Req (s : schema) | Opt (s : schema) | Dflt (v : json) (s : schema).
(** What happens to the properties an object schema does not name. *)
Inductive Extra := Strict | Strip | Passthrough.

Definition zod_unknown : schema := Some.
Definition zod_undefined : schema := fun j => match j with JUndef => Some j | _ => None end.
(** A string that [f] accepts and may trim. *)
Definition zod_text (f : string -> option string) : schema := fun j => match j with JStr s => JStr <$> f s | _ => None end.
Definition checked (p : string -> bool) (s : string) : option string := if p s then Some s else None.
Definition zod_string (p : string -> bool) : schema := zod_text (checked p).
Definition trimming (p : string -> bool) (s : string) : option string := checked p (trim s).
Definition zod_trimmed (p : string -> bool) : schema := zod_text (trimming p).
Definition zod_enum (l : list string) : schema := zod_string (fun s => existsb (String.eqb s) l).
Definition zod_literal (v : string) : schema := zod_string (String.eqb v).
Definition zod_boolean : schema := fun j => match j with JBool _ => Some j | _ => None end.
Definition zod_true : schema := fun j => match j with JBool true => Some j | _ => None end.
Definition zod_int (p : Z -> bool) : schema := fun j => match j with JNum n => if is_safe_integer n && p n then Some j else None | _ => None end.
(** [z.coerce.number().int()] with a check *)
Definition coerced (j : json) : option Z :=
  match j with
  | JNum n => Some n
  | JStr s => safe_integer (Number_of_string s)
  | JBool b => Some (if b then 1 else 0)
  | JNull => Some 0
  | _ => None
  end.
Definition zod_coerced (p : Z -> bool) : schema := fun j => n ← coerced j; if is_safe_integer n && p n then Some (JNum n) else None.
Definition zod_nullable (s : schema) : schema := fun j => match j with JNull => Some JNull | _ => s j end.
Definition zod_array (lo hi : nat) (s : schema) : schema := fun j =>
  match j with
  | JArr l => if ((lo <=? length l) && (length l <=? hi))%nat then JArr <$> mapM s l else None
  | _ => None
  end.
Definition zod_record (s : schema) : schema := fun j =>
  match j with JObj fs => JObj <$> mapM (fun '(k, v) => v' ← s v; Some (k, v')) fs | _ => None end.
Definition parse_field (fs : list (string * json)) (kf : string * Field) : option (list (string * json)) :=
  let '(k, f) := kf in
  let v := default JUndef (jget k fs) in
  match f, v with
  | Opt _, JUndef => Some []
  | Dflt d _, JUndef => Some [(k, d)]
  | Req s, _ | Opt s, _ | Dflt _ s, _ => v' ← s v; Some [(k, v')]
  end.
Fixpoint parse_fields (fs : list (string * json)) (fields : list (string * Field)) : option (list (string * json)) :=
  match fields with
  | [] => Some []
  | f :: fields => a ← parse_field fs f; b ← parse_fields fs fields; Some (a ++ b)
  end.
Definition named (fields : list (string * Field)) (kv : string * json) : bool := existsb (fun f => String.eqb kv.1 f.1) fields.
Definition others (fields : list (string * Field)) (fs : list (string * json)) : list (string * json) :=
  List.filter (fun kv => negb (named fields kv)) fs.
Definition zod_object (e : Extra) (fields : list (string * Field)) : schema := fun j =>
  match j with
  | JObj fs =>
      match e, others fields fs with
      | Strict, _ :: _ => None
      | Passthrough, rest => r ← parse_fields fs fields; Some (JObj (r ++ rest))
      | _, _ => JObj <$> parse_fields fs fields
      end
  | _ => None
  end.
Definition zod_refine (s : schema) (p : json -> bool) : schema := fun j => v ← s j; if p v then Some v else None.

(** ** What a schema makes of a document it accepts again, as it is *)
Class StableText (f : string -> option string) := text_stable : forall s t, f s = Some t -> f t = Some t.
Class Stable (s : schema) := schema_stable : forall j v, s j = Some v -> s v = Some v.
(** Nor does it make a value vanish. *)
Class Defined (s : schema) := schema_defined : forall j v, s j = Some v -> v <> JUndef.
Class StableField (f : Field) := field_stable :
  match f with Req s => Stable s | Opt s => Stable s /\ Defined s | Dflt d s => Stable s /\ Defined s /\ s d = Some d end.

Lemma trim_end_idem s : trim_end (trim_end s) = trim_end s.
Proof.
  induction s as [|c s IH]; [done|]. cbn [trim_end]. destruct (trim_end s) as [|d t] eqn:Ht.
  - destruct (is_space c) eqn:Hc; [done|]. cbn [trim_end]. by rewrite Hc.
  - cbn [trim_end]. cbn [trim_end] in IH. by rewrite IH.
Qed.
Lemma trim_start_head s : trim_start s = ""%string \/ exists c r, trim_start s = String c r /\ is_space c = false.
Proof. induction s as [|c s IH]; [by left|]. cbn. destruct (is_space c) eqn:Hc; [done|]. right. eauto. Qed.
Lemma trim_idem s : trim (trim s) = trim s.
Proof.
  unfold trim. destruct (trim_start_head s) as [->|(c & r & -> & Hc)]; [done|].
  assert (H : exists t, trim_end (String c r) = String c t).
  { cbn [trim_end]. destruct (trim_end r); [rewrite Hc|]; eauto. }
  destruct H as [t Ht]. rewrite Ht. cbn [trim_start]. rewrite Hc, <- Ht. apply trim_end_idem.
Qed.
#[export] Instance checked_stable p : StableText (checked p).
Proof. intros s t. unfold checked. destruct (p s) eqn:Hp; [|done]. intros [= <-]. by rewrite Hp. Qed.
#[export] Instance trimming_stable p : StableText (trimming p).
Proof. intros s t. unfold trimming, checked. destruct (p (trim s)) eqn:Hp; [|done]. intros [= <-]. by rewrite trim_idem, Hp. Qed.
#[export] Instance regex_stable r : StableText (z_regex r).
Proof. intros s t. unfold z_regex. destruct (rx_match r s) eqn:Hp; [|done]. intros [= <-]. by rewrite Hp. Qed.
#[export] Instance regex_trim_stable r : StableText (fun s => z_regex r (trim s)).
Proof. intros s t. unfold z_regex. destruct (rx_match r (trim s)) eqn:Hp; [|done]. intros [= <-]. by rewrite trim_idem, Hp. Qed.

#[export] Instance text_schema_stable f `{StableText f} : Stable (zod_text f).
Proof.
  intros [] v; cbn [zod_text]; try done. destruct (f s) as [t|] eqn:Hf; [|done]. intros [= <-]. cbn [zod_text].
  by rewrite (text_stable _ _ Hf).
Qed.
#[export] Instance text_defined f : Defined (zod_text f).
Proof. intros [] v; cbn [zod_text]; try done. by destruct (f s); intros [= <-]. Qed.
#[export] Instance unknown_stable : Stable zod_unknown.
Proof. by intros j v _. Qed.
#[export] Instance undefined_stable : Stable zod_undefined.
Proof. by intros [] v; cbn; intros [= <-]. Qed.
#[export] Instance boolean_stable : Stable zod_boolean.
Proof. by intros [] v; cbn; intros [= <-]. Qed.
#[export] Instance boolean_defined : Defined zod_boolean.
Proof. by intros [] v; cbn; intros [= <-]. Qed.
#[export] Instance true_stable : Stable zod_true.
Proof. by intros [| |[]| | | |] v; cbn; intros [= <-]. Qed.
#[export] Instance true_defined : Defined zod_true.
Proof. by intros [| |[]| | | |] v; cbn; intros [= <-]. Qed.
#[export] Instance int_stable p : Stable (zod_int p).
Proof. intros [] v; cbn; try done. destruct (_ && _) eqn:Hp; [|done]. intros [= <-]. cbn. by rewrite Hp. Qed.
#[export] Instance int_defined p : Defined (zod_int p).
Proof. intros [] v; cbn; try done. by destruct (_ && _); intros [= <-]. Qed.
#[export] Instance coerced_stable p : Stable (zod_coerced p).
Proof.
  intros j v. unfold zod_coerced. destruct (coerced j) as [n|]; [|done]. cbn [mbind option_bind]. destruct (_ && _) eqn:Hp; [|done].
  intros [= <-]. cbn [coerced mbind option_bind]. by rewrite Hp.
Qed.
#[export] Instance coerced_defined p : Defined (zod_coerced p).
Proof.
  intros j v. unfold zod_coerced. destruct (coerced j) as [n|]; [|done]. cbn [mbind option_bind]. by destruct (_ && _); intros [= <-].
Qed.
#[export] Instance nullable_stable s `{Stable s} : Stable (zod_nullable s).
Proof.
  intros j v Hj. assert (Hv : v = JNull \/ s v = Some v).
  { destruct j; cbn [zod_nullable] in Hj; first [by injection Hj as <-; left|right; by eapply schema_stable]. }
  destruct Hv as [->|Hv]; [done|]. by destruct v.
Qed.
#[export] Instance nullable_defined s `{Defined s} : Defined (zod_nullable s).
Proof. intros j v Hj. destruct j; cbn [zod_nullable] in Hj; first [by injection Hj as <-|by eapply schema_defined]. Qed.
Lemma mapM_stable {A} (f : A -> option A) l r : (forall a b, f a = Some b -> f b = Some b) -> mapM f l = Some r -> mapM f r = Some r.
Proof.
  intros Hf. revert r. induction l as [|a l IH]; intros r; [by intros [= <-]|].
  intros (b & r' & Hb & Hr & ->)%mapM_Some_1%Forall2_cons_inv_l. cbn [mapM].
  rewrite (Hf _ _ Hb). cbn [mbind option_bind]. rewrite IH; [done|]. by apply mapM_Some.
Qed.
#[export] Instance array_stable lo hi s `{Stable s} : Stable (zod_array lo hi s).
Proof.
  intros [] v; cbn [zod_array]; try done. destruct (_ && _)%nat eqn:Hl; [|done]. destruct (mapM s l) as [r|] eqn:Hm; [|done].
  intros [= <-]. cbn [zod_array]. pose proof (proj1 (mapM_Some _ _ _) Hm) as Hlen%Forall2_length.
  rewrite <- Hlen, Hl, (mapM_stable s l r); [done| |done]. intros a b. apply schema_stable.
Qed.
#[export] Instance array_defined lo hi s : Defined (zod_array lo hi s).
Proof. intros [] v; cbn [zod_array]; try done. destruct (_ && _)%nat; [|done]. by destruct (mapM s l); intros [= <-]. Qed.
#[export] Instance record_stable s `{Stable s} : Stable (zod_record s).
Proof.
  intros [] v; cbn [zod_record]; try done. destruct (mapM _ fields) as [r|] eqn:Hm; [|done]. intros [= <-]. cbn [zod_record].
  rewrite (mapM_stable _ fields r); [done| |done]. intros [k a] [k' b]. destruct (s a) as [c|] eqn:Ha; [|done].
  intros [= <- <-]. cbn. by rewrite (schema_stable _ _ Ha).
Qed.
#[export] Instance record_defined s : Defined (zod_record s).
Proof. intros [] v; cbn [zod_record]; try done. by destruct (mapM _ _); intros [= <-]. Qed.
#[export] Instance refine_stable s p `{Stable s} : Stable (zod_refine s p).
Proof.
  intros j v. unfold zod_refine. destruct (s j) as [w|] eqn:Hw; [|done]. cbn. destruct (p w) eqn:Hp; [|done]. intros [= <-].
  rewrite (schema_stable _ _ Hw). cbn. by rewrite Hp.
Qed.
#[export] Instance refine_defined s p `{Defined s} : Defined (zod_refine s p).
Proof.
  intros j v. unfold zod_refine. destruct (s j) as [w|] eqn:Hw; [|done]. cbn. destruct (p w); [|done]. intros [= <-]. by eapply schema_defined.
Qed.

(** ** Objects *)
Lemma jget_app k (a b : list (string * json)) : jget k (a ++ b) = match jget k a with Some v => Some v | None => jget k b end.
Proof. induction a as [|[k' v] a IH]; [done|]. cbn. by destruct (String.eqb k k'). Qed.
Lemma jget_none k (a : list (string * json)) : k ∉ a.*1 -> jget k a = None.
Proof.
  induction a as [|[k' v] a IH]; [done|]. cbn. intros [Hne Hin]%not_elem_of_cons. rewrite (proj2 (String.eqb_neq _ _)) by done. by apply IH.
Qed.
Lemma parse_field_keys fs kf a : parse_field fs kf = Some a -> a = [] \/ exists v, a = [(kf.1, v)].
Proof.
  destruct kf as [k f]. unfold parse_field. set (v := default JUndef _).
  destruct f; repeat case_match; intros Hr; try (apply bind_Some in Hr as (? & _ & Hr)); injection Hr as <-; eauto.
Qed.
Lemma parse_fields_keys fs fields r k : parse_fields fs fields = Some r -> k ∈ r.*1 -> k ∈ fields.*1.
Proof.
  revert r. induction fields as [|kf fields IH]; intros r; [by intros [= <-]|]. cbn [parse_fields].
  intros (a & Ha & (b & Hb & [= <-])%bind_Some)%bind_Some. rewrite fmap_app, elem_of_app. intros [Hk|Hk].
  - apply parse_field_keys in Ha as [->|[v ->]]; [by apply not_elem_of_nil in Hk|]. apply list_elem_of_singleton in Hk as ->. by left.
  - right. eauto.
Qed.
(** A field reads back what it put into the result. *)
Lemma parse_field_again fs fs' k f a : StableField f -> parse_field fs (k, f) = Some a ->
  jget k fs' = jget k a -> parse_field fs' (k, f) = Some a.
Proof.
  intros Hf Ha Hk. unfold parse_field in *. rewrite Hk. set (v := default JUndef (jget k fs)) in *.
  assert (Hput : forall s, Stable s -> (v' ← s v; Some [(k, v')]) = Some a -> exists v', a = [(k, v')] /\ s v = Some v' /\ s v' = Some v').
  { intros s Hs (v' & Hv & [= <-])%bind_Some. exists v'. split; [done|]. split; [done|]. by eapply schema_stable. }
  destruct f as [s|s|d s]; unfold StableField, field_stable in Hf.
  - destruct (Hput s Hf Ha) as (v' & -> & _ & Hv). cbn. rewrite String.eqb_refl. cbn. by rewrite Hv.
  - destruct Hf as [Hs Hd]. assert (Hcase : a = [] \/ (v' ← s v; Some [(k, v')]) = Some a) by (destruct v; auto; left; congruence).
    destruct Hcase as [->|Hs']; [done|]. destruct (Hput s Hs Hs') as (v' & -> & Hv' & Hv). cbn. rewrite String.eqb_refl. cbn.
    apply schema_defined in Hv'. destruct v'; try done; by rewrite Hv.
  - destruct Hf as (Hs & Hd & Hdv).
    assert (Hcase : a = [(k, d)] \/ (v' ← s v; Some [(k, v')]) = Some a) by (destruct v; auto; left; congruence).
    assert (exists v', a = [(k, v')] /\ v' <> JUndef /\ s v' = Some v') as (v' & -> & Hne & Hv).
    { destruct Hcase as [->|Hs']; [exists d; split_and!; [done|by eapply schema_defined|done]|].
      destruct (Hput s Hs Hs') as (v' & -> & Hv' & Hv). exists v'. split_and!; [done|by eapply schema_defined|done]. }
    cbn. rewrite String.eqb_refl. cbn. destruct v'; try done; by rewrite Hv.
Qed.
Lemma parse_fields_again fs fields r pre rest : Forall (fun kf => StableField kf.2) fields -> NoDup fields.*1 ->
  parse_fields fs fields = Some r -> (forall k, k ∈ fields.*1 -> k ∉ (pre.*1) /\ k ∉ (rest.*1)) ->
  parse_fields (pre ++ r ++ rest) fields = Some r.
Proof.
  revert r pre. induction fields as [|[k f] fields IH]; intros r pre Hfs Hnd; [by intros [= <-]|]. cbn [parse_fields].
  intros (a & Ha & (b & Hb & [= <-])%bind_Some)%bind_Some Hout.
  apply Forall_cons in Hfs as [Hf Hfs]. cbn in Hf. apply NoDup_cons in Hnd as [Hk Hnd].
  pose proof (parse_field_keys _ _ _ Ha) as Hak. destruct (Hout k ltac:(by left)) as [Hpre Hrest].
  rewrite (parse_field_again fs _ k f a Hf Ha).
  - cbn [mbind option_bind]. rewrite <- (app_assoc a b rest), (app_assoc pre a (b ++ rest)).
    rewrite (IH b (pre ++ a) Hfs Hnd Hb); [done|]. intros k' Hk'. destruct (Hout k' ltac:(by right)) as [H1 H2]. split; [|done].
    rewrite fmap_app, elem_of_app. intros [H|H]; [done|]. destruct Hak as [->|[v ->]]; [by apply not_elem_of_nil in H|].
    apply list_elem_of_singleton in H as ->. done.
  - rewrite jget_app, (jget_none k pre Hpre), !jget_app. destruct (jget k a) as [v|] eqn:Hv; [done|].
    rewrite (jget_none k b), (jget_none k rest Hrest); [done|]. intros H. by apply Hk, (parse_fields_keys fs fields b).
Qed.
Lemma named_elem fields kv : named fields kv = true <-> kv.1 ∈ fields.*1.
Proof.
  unfold named. rewrite existsb_exists, list_elem_of_fmap. setoid_rewrite <- list_elem_of_In. setoid_rewrite String.eqb_eq.
  split; intros (f & H1 & H2); exists f; auto.
Qed.
Lemma others_elem fields fs kv : kv ∈ others fields fs -> kv ∈ fs /\ kv.1 ∉ fields.*1.
Proof.
  unfold others. rewrite list_elem_of_In, filter_In, negb_true_iff, <- list_elem_of_In. intros [H1 H2]. split; [done|].
  intros H3%named_elem. congruence.
Qed.
Lemma others_none fields fs : (forall k, k ∈ fs.*1 -> k ∈ fields.*1) -> others fields fs = [].
Proof.
  intros Hin. destruct (others fields fs) as [|kv l] eqn:Ho; [done|].
  assert (Hkv : kv ∈ others fields fs) by (rewrite Ho; by left). apply others_elem in Hkv as [H1 H2]. destruct H2. apply Hin.
  apply list_elem_of_fmap. eauto.
Qed.
Lemma others_again fields r fs : (forall k, k ∈ r.*1 -> k ∈ fields.*1) -> others fields (r ++ others fields fs) = others fields fs.
Proof.
  intros Hin. unfold others at 1. rewrite List.filter_app. fold (others fields r). rewrite others_none by done. cbn [app].
  assert (Hall : forall l, (forall kv, kv ∈ l -> negb (named fields kv) = true) -> List.filter (fun kv => negb (named fields kv)) l = l).
  { induction l as [|kv l IH]; [done|]. intros Hl. cbn. rewrite Hl by (by left). rewrite IH; [done|]. intros kv' H'. apply Hl. by right. }
  apply Hall. intros kv [_ Hkv]%others_elem. apply negb_true_iff, not_true_iff_false. by rewrite named_elem.
Qed.
(** The property names of an object differ. *)
Class Distinct (fields : list (string * Field)) := names_distinct : bool_decide (NoDup fields.*1) = true.
#[export] Hint Extern 0 (Distinct _) => (vm_compute; reflexivity) : typeclass_instances.
Class StableFields (fields : list (string * Field)) := fields_stable : Forall (fun kf => StableField kf.2) fields.
#[export] Instance stable_nil : StableFields [].
Proof. constructor. Qed.
#[export] Instance stable_cons k f fields `{StableField f, StableFields fields} : StableFields ((k, f) :: fields).
Proof. by constructor. Qed.
#[export] Instance req_stable s `{Stable s} : StableField (Req s).
Proof. done. Qed.
#[export] Instance opt_stable s `{Stable s, Defined s} : StableField (Opt s).
Proof. done. Qed.
Lemma dflt_stable d s `{Stable s, Defined s} : s d = Some d -> StableField (Dflt d s).
Proof. done. Qed.
#[export] Hint Extern 1 (StableField (Dflt _ _)) => (apply dflt_stable; [apply _|apply _|vm_compute; reflexivity]) : typeclass_instances.
#[export] Instance object_stable e fields `{Distinct fields, StableFields fields} : Stable (zod_object e fields).
Proof.
  intros j v. destruct j as [| | | | | |fs]; try done. cbn [zod_object]. set (rest := others fields fs).
  assert (Hnd : NoDup fields.*1) by (eapply bool_decide_eq_true; exact names_distinct).
  destruct (parse_fields fs fields) as [r|] eqn:Hr.
  2: { destruct e; [destruct rest| |]; done. }
  assert (Hin : forall k, k ∈ r.*1 -> k ∈ fields.*1) by (intros k; by apply (parse_fields_keys fs)).
  assert (Hplain : parse_fields r fields = Some r).
  { pose proof (parse_fields_again fs fields r [] [] fields_stable Hnd Hr) as Ha. cbn [app] in Ha. rewrite app_nil_r in Ha.
    apply Ha. intros k _. split; apply not_elem_of_nil. }
  assert (Hout : others fields r = []) by (by apply others_none).
  destruct e.
  - destruct rest; [|done]. intros [= <-]. cbn [zod_object]. by rewrite Hout, Hplain.
  - intros [= <-]. cbn [zod_object]. by rewrite Hplain.
  - intros [= <-]. cbn [zod_object]. unfold rest. rewrite others_again by done.
    pose proof (parse_fields_again fs fields r [] (others fields fs) fields_stable Hnd Hr) as Ha. cbn [app] in Ha.
    rewrite Ha; [done|]. intros k Hk. split; [apply not_elem_of_nil|]. intros (kv & -> & Hkv)%list_elem_of_fmap. by apply others_elem in Hkv as [_ ?].
Qed.
#[export] Instance object_defined e fields : Defined (zod_object e fields).
Proof.
  intros j v. destruct j as [| | | | | |fs]; try done. cbn [zod_object].
  destruct e, (others fields fs), (parse_fields fs fields); cbn; by intros [= <-].
Qed.
#[export] Instance unless_stable (b : bool) f `{StableText f} : StableText (fun s => if b then None else f s).
Proof. intros s t. destruct b; [done|apply text_stable]. Qed.

(** What an object schema says of a property it requires. *)
Lemma parse_fields_req fs fields r k s : parse_fields fs fields = Some r -> (k, Req s) ∈ fields -> exists v, s (default JUndef (jget k fs)) = Some v.
Proof.
  revert r. induction fields as [|f fields IH]; intros r; [by intros _ ?%not_elem_of_nil|]. cbn [parse_fields].
  intros (a & Ha & (b & Hb & _)%bind_Some)%bind_Some [<-|Hin]%elem_of_cons; [|by eapply IH].
  unfold parse_field in Ha. apply bind_Some in Ha as (v & Hv & _). eauto.
Qed.
Lemma object_field e fields j w k s : zod_object e fields j = Some w -> (k, Req s) ∈ fields -> exists v, s (jfield k j) = Some v.
Proof.
  destruct j as [| | | | | |fs]; try done. cbn [zod_object jfield]. intros Hw Hin.
  destruct (parse_fields fs fields) as [r|] eqn:Hr; [by eapply parse_fields_req|]. by destruct e, (others fields fs).
Qed.
(** Its first property, in the data. *)
Lemma object_head e fields j w k s : zod_object e ((k, Req s) :: fields) j = Some w -> exists v, s (jfield k j) = Some v /\ jfield k w = v.
Proof.
  destruct j as [| | | | | |fs]; try done. cbn [zod_object jfield]. intros Hw.
  destruct (parse_fields fs ((k, Req s) :: fields)) as [r|] eqn:Hr; [|by destruct e, (others ((k, Req s) :: fields) fs)].
  cbn [parse_fields] in Hr. apply bind_Some in Hr as (a & Ha & (b & _ & [= <-])%bind_Some).
  unfold parse_field in Ha. apply bind_Some in Ha as (v & Hv & [= <-]). exists v. split; [done|].
  assert (Hhead : forall rest, jfield k (JObj (((k, v) :: b) ++ rest)) = v) by (intros rest; cbn; by rewrite String.eqb_refl).
  pose proof (Hhead []) as Hall. rewrite app_nil_r in Hall.
  destruct e, (others ((k, Req s) :: fields) fs) as [|x l]; try discriminate Hw; injection Hw as <-; first [exact Hall|exact (Hhead (x :: l))|exact (Hhead [])].
Qed.
(** The data of an object schema that is not [Passthrough] has no other properties. *)
Lemma object_keys e fields j w : e <> Passthrough -> zod_object e fields j = Some w ->
  exists fs, w = JObj fs /\ forall k, k ∈ fs.*1 -> k ∈ fields.*1.
Proof.
  intros He. destruct j as [| | | | | |fs]; try done. cbn [zod_object]. intros Hw.
  destruct (parse_fields fs fields) as [r|] eqn:Hr; [|by destruct e, (others fields fs)].
  exists r. split; [|intros k; by apply (parse_fields_keys fs)].
  destruct e, (others fields fs); try done; by injection Hw as <-.
Qed.

(** ** Documents that a schema accepts as they are *)
Definition accepts (s : schema) (j : json) : Prop := s j = Some j.
Lemma accepts_parse_fields pre fs fields :
  Forall2 (fun f kv => f.1 = kv.1 /\ match f.2 with Req s => accepts s kv.2 | _ => False end) fields fs ->
  NoDup (pre.*1 ++ fs.*1) -> parse_fields (pre ++ fs) fields = Some fs.
Proof.
  intros H. revert pre. induction H as [|[k f] [k' v] fields fs [Hk Hf] _ IH]; intros pre Hn; [done|]. cbn in Hk. subst k'. cbn in Hf.
  destruct f as [s| |]; [|done..]. cbn [parse_fields parse_field]. rewrite jget_app, jget_none.
  2: { apply NoDup_app in Hn as (_ & Hn & _). intros Hin. apply (Hn _ Hin). by left. }
  cbn [jget]. rewrite String.eqb_refl. cbn [default from_option]. unfold id. rewrite Hf. cbn [mbind option_bind].
  rewrite (cons_middle (k, v)), app_assoc. rewrite IH; [done|].
  rewrite fmap_app, <- app_assoc. exact Hn.
Qed.
Lemma accepts_object fields fs :
  Forall2 (fun f kv => f.1 = kv.1 /\ match f.2 with Req s => accepts s kv.2 | _ => False end) fields fs ->
  bool_decide (NoDup fields.*1) = true -> accepts (zod_object Strict fields) (JObj fs).
Proof.
  intros H Hn%bool_decide_eq_true. unfold accepts. cbn [zod_object].
  assert (Hk : fields.*1 = fs.*1).
  { clear Hn. induction H as [|f kv fields fs [Hk _] _ IH]; [done|]. cbn. by rewrite Hk, IH. }
  rewrite others_none by (by rewrite Hk). pose proof (accepts_parse_fields [] fs fields H) as Hp. cbn [app] in Hp.
  rewrite Hp; [done|]. cbn. by rewrite <- Hk.
Qed.
Lemma accepts_array lo hi s l : (lo <= length l <= hi)%nat -> Forall (accepts s) l -> accepts (zod_array lo hi s) (JArr l).
Proof.
  intros [H1 H2] Hl. unfold accepts. cbn [zod_array]. rewrite (proj2 (Nat.leb_le _ _) H1), (proj2 (Nat.leb_le _ _) H2). cbn.
  assert (Hm : mapM s l = Some l) by (unfold accepts in Hl; clear H1 H2; induction Hl as [|x l Hx _ IH]; [done|]; cbn; by rewrite Hx, IH). by rewrite Hm.
Qed.
Lemma accepts_string p s : p s = true -> accepts (zod_string p) (JStr s).
Proof. intros H. unfold accepts, zod_string, zod_text, checked. by rewrite H. Qed.
Lemma accepts_nullable s j : j = JNull \/ j <> JNull /\ accepts s j -> accepts (zod_nullable s) j.
Proof. unfold accepts, zod_nullable. intros [->|[Hn H]]; [done|]. by destruct j. Qed.
Lemma accepts_record s fs : Forall (fun kv => accepts s kv.2) fs -> accepts (zod_record s) (JObj fs).
Proof.
  intros H. unfold accepts. cbn [zod_record].
  assert (Hm : mapM (fun '(k, v) => v' ← s v; Some (k, v')) fs = Some fs).
  { unfold accepts in H. induction H as [|[k v] fs Hv _ IH]; [done|]. cbn in Hv |- *. by rewrite Hv, IH. }
  by rewrite Hm.
Qed.
(** Takes an object apart into its members. *)
Ltac accept_members := apply accepts_object; [repeat (apply Forall2_cons; split; [split; [reflexivity|cbn [snd]]|]); [..|apply Forall2_nil; exact I]|vm_compute; reflexivity].
