(* ===== verification/WireContracts.v ===== *)
(** * The contracts of the documents that cross the gateway
    ([packages/contracts/src], and the schemas the gateway's controllers
    declare themselves) *)

From Stdlib Require Import ZArith Lia Ascii String.
From stdpp Require Import base strings list.
From S2P Require Import Prelude.
From S2P Require Import Js.
From S2P Require Import Regex.
From S2P Require Import Contracts.
From S2P Require Import RiskTypes.
From S2P Require Import Schemas.
From S2P Require Import ResilienceDb.
From S2P Require Import IdentityDb.
From S2P Require Import Identity.
From S2P Require Import IdentityHttp.

Open Scope Z_scope.

#[export] Instance currency_stable : StableText currencyCodeSchema.
Proof. exact (regex_trim_stable currency_rx). Qed.
#[export] Instance signed_minor_stable : StableText signedMinorUnitsSchema.
Proof.
  intros s t. unfold signedMinorUnitsSchema. destruct (String.eqb s "-0") eqn:Hs; [done|]. intros Ht. pose proof Ht as Hst.
  apply (regex_stable signedMinorUnits_rx) in Ht. unfold z_regex in Hst. destruct (rx_match _ s); [|done]. injection Hst as <-. by rewrite Hs.
Qed.
#[export] Instance e164_stable : StableText e164PhoneSchema.
Proof.
  intros s t. unfold e164PhoneSchema. destruct (rx_match e164_rx (trim s)) eqn:Hs; [|done]. intros [= <-]. by rewrite trim_idem, Hs.
Qed.
#[export] Hint Extern 5 (StableText _) => apply regex_stable : typeclass_instances.
Definition nonnegative (z : Z) : bool := 0 <=? z.
Definition within (lo hi z : Z) : bool := (lo <=? z) && (z <=? hi).
Definition any_length (hi : nat) : string -> bool := len_between 0 hi.
Definition any_text (s : string) : bool := true.
Definition any_integer (z : Z) : bool := true.

Section Contracts.
Context {zod : Zod}.
Definition uuid_text : schema := zod_string z_uuid.
Definition datetime_text : schema := zod_string z_datetime.
Definition opaque_text : schema := zod_string opaqueIdentifier.
Definition masked_text : schema := zod_text maskedAccountReferenceSchema.
Definition currency_text : schema := zod_text currencyCodeSchema.
Definition positive_minor : schema := zod_text positiveMinorUnitsSchema.

(** ** [accounts/v1.ts] *)
Definition moneySchema : schema := zod_object Strict [("currency", Req currency_text); ("minorUnits", Req (zod_text signedMinorUnitsSchema))]%string.
Definition customerAccountSummaryFields : list (string * Field) :=
  [("id", Req uuid_text); ("maskedReference", Req masked_text); ("productType", Req (zod_enum ["TIER0_WALLET"]));
   ("status", Req (zod_enum ["ACTIVE"; "FROZEN"; "CLOSED"])); ("currency", Req currency_text); ("createdAt", Req datetime_text)]%string.
Definition customerAccountSummarySchema : schema := zod_object Strict customerAccountSummaryFields.
Definition accountBalanceSchema : schema :=
  zod_object Strict [("accountId", Req uuid_text); ("balance", Req moneySchema); ("updatedAt", Req datetime_text)]%string.
Definition customerAccountDetailSchema : schema := zod_object Strict
  (customerAccountSummaryFields ++ [("balance", Req moneySchema); ("receivingReference", Req (zod_text publicAccountReferenceSchema))]%string).
Definition customerAccountListSchema : schema := zod_object Strict [("accounts", Req (zod_array 0 32 customerAccountSummarySchema))]%string.
Definition transactionBaseFields : list (string * Field) :=
  [("id", Req uuid_text); ("displayReference", Req (zod_string (rx_match displayTransactionReference_rx))); ("accountId", Req uuid_text);
   ("direction", Req (zod_enum ["INCOMING"; "OUTGOING"])); ("category", Req (zod_enum ["FUNDING"; "ADJUSTMENT"; "TRANSFER"; "OTHER"]));
   ("status", Req (zod_literal "POSTED")); ("amount", Req moneySchema); ("balanceAfter", Req moneySchema);
   ("effectiveAt", Req datetime_text); ("postedAt", Req datetime_text)]%string.
Definition customerTransactionSummarySchema : schema := zod_object Strict transactionBaseFields.
Definition customerTransactionDetailSchema : schema := zod_object Strict
  (transactionBaseFields ++ [("maskedAccountReference", Req masked_text); ("productType", Req (zod_enum ["TIER0_WALLET"]))]%string).
Definition cursor_text : schema := zod_string (len_between 1 1024).
(** Both dates of a query, in order. *)
Definition dates_in_order (v : json) : bool :=
  match jfield "dateFrom" v, jfield "dateTo" v with
  | JStr from, JStr to_ => negb (String.ltb to_ from)
  | _, _ => true
  end.
Definition transactionHistoryQuerySchema : schema := zod_refine (zod_object Strict
  [("direction", Opt (zod_enum ["INCOMING"; "OUTGOING"])); ("category", Opt (zod_enum ["FUNDING"; "ADJUSTMENT"; "TRANSFER"; "OTHER"]));
   ("dateFrom", Opt datetime_text); ("dateTo", Opt datetime_text); ("pageSize", Dflt (JNum 20) (zod_coerced (within 1 50)));
   ("cursor", Opt cursor_text)]%string) dates_in_order.
Definition transactionHistoryResponseSchema : schema := zod_object Strict
  [("transactions", Req (zod_array 0 50 customerTransactionSummarySchema)); ("nextCursor", Req (zod_nullable cursor_text))]%string.
Definition provisionDefaultAccountRequestSchema : schema := zod_object Strict [].
Definition provisionDefaultAccountResultSchema : schema :=
  zod_object Strict [("account", Req customerAccountDetailSchema); ("created", Req zod_boolean)]%string.

(** ** [payments/v1.ts] *)
Definition transfer_statuses : list string := ["PROCESSING"; "COMPLETED"; "FAILED"; "REQUIRES_REVIEW"].
Definition transferFailureCodes : list string :=
  ["INSUFFICIENT_FUNDS"; "ACCOUNT_NOT_FOUND"; "ACCOUNT_NOT_ACTIVE"; "CURRENCY_MISMATCH"; "SELF_TRANSFER"; "LIMIT_EXCEEDED"; "INTENT_EXPIRED";
   "AUTHORIZATION_FAILED"; "IDEMPOTENCY_CONFLICT"; "LEDGER_UNAVAILABLE"; "PROCESSING_TIMEOUT"; "INTERNAL_ERROR"].
Definition intent_token : schema := zod_text opaqueIntentTokenSchema.
Definition pin_text : schema := zod_string sixDigits.
Definition key_text : schema := zod_text paymentKeySchema.
Definition transferPolicySchema : schema := zod_object Strict
  [("currency", Req (zod_literal "LKR")); ("minimum", Req moneySchema); ("maximum", Req moneySchema); ("dailyOutgoingMaximum", Req moneySchema)]%string.
Definition transferPreviewRequestSchema : schema := zod_object Strict
  [("sourceAccountId", Req uuid_text); ("recipientReference", Req (zod_text publicAccountReferenceSchema));
   ("amount", Req (zod_string (fun s => matched (humanLkrAmountSchema s) s)))]%string.
Definition transferPreviewResponseSchema : schema := zod_object Strict
  [("intentToken", Req intent_token); ("sourceMaskedReference", Req masked_text); ("recipientMaskedReference", Req masked_text);
   ("amount", Req moneySchema); ("sourceBalance", Req moneySchema); ("policy", Req transferPolicySchema); ("expiresAt", Req datetime_text)]%string.
Definition transferConfirmationRequestSchema : schema := zod_object Strict [("intentToken", Req intent_token); ("pin", Req pin_text)]%string.
Definition internalTransferConfirmationSchema : schema := zod_object Strict
  [("senderCustomerId", Req uuid_text); ("intentToken", Req intent_token); ("idempotencyKey", Req key_text)]%string.
Definition transferSummaryFields : list (string * Field) :=
  [("id", Req uuid_text); ("displayReference", Req (zod_text transferDisplayReferenceSchema)); ("direction", Req (zod_enum ["SENT"; "RECEIVED"]));
   ("status", Req (zod_enum transfer_statuses)); ("accountId", Req uuid_text); ("counterpartyMaskedReference", Req masked_text);
   ("amount", Req moneySchema); ("createdAt", Req datetime_text); ("completedAt", Req (zod_nullable datetime_text))]%string.
Definition transferSummarySchema : schema := zod_object Strict transferSummaryFields.
Definition transferDetailSchema : schema := zod_object Strict (transferSummaryFields ++
  [("transactionId", Req (zod_nullable uuid_text)); ("balanceAfter", Req (zod_nullable moneySchema));
   ("failureCode", Req (zod_nullable (zod_enum transferFailureCodes))); ("ownMaskedReference", Req masked_text)]%string).
Definition transferListQuerySchema : schema := zod_refine (zod_object Strict
  [("direction", Opt (zod_enum ["SENT"; "RECEIVED"])); ("status", Opt (zod_enum transfer_statuses)); ("dateFrom", Opt datetime_text);
   ("dateTo", Opt datetime_text); ("pageSize", Dflt (JNum 20) (zod_coerced (within 1 50))); ("cursor", Opt cursor_text)]%string) dates_in_order.
Definition transferListResponseSchema : schema := zod_object Strict
  [("transfers", Req (zod_array 0 50 transferSummarySchema)); ("nextCursor", Req (zod_nullable cursor_text))]%string.

(** ** [channels/v1.ts] *)
Definition qrReceiveRequestSchema : schema := zod_object Strict [("sourceAccountId", Req uuid_text)]%string.
Definition qrDynamicRequestSchema : schema := zod_object Strict
  [("sourceAccountId", Req uuid_text); ("amount", Req positive_minor); ("currency", Dflt (JStr "LKR") currency_text);
   ("purpose", Opt (zod_string (any_length 64)))]%string.
Definition internalQrIssueRequestSchema : schema := zod_object Strict
  [("customerId", Req uuid_text); ("accountId", Req uuid_text); ("type", Req (zod_enum ["STATIC"; "DYNAMIC"]));
   ("amountMinor", Opt positive_minor); ("currency", Req currency_text); ("purpose", Opt (zod_string (any_length 64)))]%string.
Definition qrIssueResponseSchema : schema := zod_object Strict
  [("qrId", Req uuid_text); ("payload", Req (zod_string (len_between 1 2048))); ("type", Req (zod_enum ["STATIC"; "DYNAMIC"]));
   ("expiresAt", Req datetime_text)]%string.
Definition qrPreviewRequestSchema : schema := zod_object Strict
  [("payload", Req (zod_string (len_between 1 2048))); ("sourceAccountId", Req uuid_text)]%string.
Definition agentCashInPreviewRequestSchema : schema := zod_object Strict
  [("customerReference", Req (zod_text publicAccountReferenceSchema)); ("amountMinor", Req positive_minor);
   ("currency", Dflt (JStr "LKR") currency_text)]%string.
Definition agentCashOutPreviewRequestSchema : schema := agentCashInPreviewRequestSchema.
Definition agentReference_rx : rx := (lit "AEGIS-AGT-" · group4 · chr "-" · group4)%rx.
Definition agent_reference : schema := zod_string (rx_match agentReference_rx).
Definition agent_operations : list string := ["AGENT_CASH_IN"; "AGENT_CASH_OUT"].
Definition agentCashPreviewResponseSchema : schema := zod_object Strict
  [("operationId", Req uuid_text); ("operationType", Req (zod_enum agent_operations)); ("customerMaskedReference", Req masked_text);
   ("agentReference", Req agent_reference); ("amount", Req moneySchema); ("intentToken", Req intent_token); ("expiresAt", Req datetime_text)]%string.
Definition agentCashResultSchema : schema := zod_object Strict
  [("id", Req uuid_text); ("displayReference", Req (zod_string any_text)); ("operationType", Req (zod_enum agent_operations));
   ("status", Req (zod_enum ["PENDING_CONFIRMATION"; "PROCESSING"; "COMPLETED"; "FAILED"; "CANCELLED"]));
   ("customerMaskedReference", Req masked_text); ("agentReference", Req agent_reference); ("amount", Req moneySchema);
   ("createdAt", Req datetime_text); ("completedAt", Req (zod_nullable datetime_text))]%string.

(** ** [risk/v1.ts] *)
Definition risk_decisions : list string :=
  ["ALLOW"; "ALLOW_WITH_MONITORING"; "REQUIRE_STEP_UP"; "HOLD_FOR_REVIEW"; "BLOCK"; "QUARANTINE"].
Definition risk_bands : list string := ["LOW"; "MEDIUM"; "HIGH"; "CRITICAL"].
Definition control_types : list string :=
  ["REQUIRE_STEP_UP"; "TEMPORARY_BLOCK"; "TRANSFER_HOLD"; "RECIPIENT_BLOCK"; "SESSION_REVOKE"; "ACCOUNT_RESTRICT"; "MANUAL_REVIEW"; "QUARANTINE"].
Definition control_scopes : list string := ["CUSTOMER"; "SESSION"; "DEVICE"; "ACCOUNT"; "RECIPIENT"; "OPERATION"; "SERVICE"].
Definition reason_text : schema := zod_string (len_between 1 64).
Definition riskAssessmentSchema : schema := zod_object Strict
  [("assessmentId", Req uuid_text); ("score", Req (zod_int (within 0 100))); ("band", Req (zod_enum risk_bands));
   ("decision", Req (zod_enum risk_decisions)); ("triggeredRules", Req (zod_array 0 32 reason_text));
   ("reasonCodes", Req (zod_array 0 32 reason_text)); ("controlRecommendation", Req (zod_nullable (zod_enum control_types)));
   ("expiresAt", Req datetime_text); ("ruleSetVersion", Req (zod_string (len_between 1 32)));
   ("publicExplanation", Req (zod_string (len_between 1 256)))]%string.
Definition controlCheckResponseSchema : schema := zod_object Strict
  [("allowed", Req zod_boolean); ("decision", Req (zod_enum risk_decisions)); ("reasonCodes", Req (zod_array 0 16 reason_text));
   ("requiresStepUp", Req zod_boolean); ("expiresAt", Req (zod_nullable datetime_text))]%string.
Definition reasonCode_text : schema := zod_string (rx_match (rep_range 3 64 (Cls (fun c => is_upper c || is_digit c || Ascii.eqb c "_")))).
Definition applyControlRequestSchema : schema := zod_object Strict
  [("idempotencyKey", Req key_text); ("type", Req (zod_enum control_types)); ("scopeType", Req (zod_enum control_scopes));
   ("scopeId", Req opaque_text); ("reasonCode", Req reasonCode_text); ("expiresAt", Req datetime_text); ("incidentId", Opt uuid_text)]%string.
Definition releaseControlRequestSchema : schema := zod_object Strict [("reason", Req (zod_trimmed (len_between 8 500)))]%string.

(** ** [auth/v1.ts] *)
Definition languages : list string := ["EN"; "SI"; "TA"].
Definition deviceId_text : schema := zod_trimmed (len_between 1 128).
Definition phone_text : schema := zod_text e164PhoneSchema.
Definition requestOtpSchema : schema := zod_object Strip
  [("phone", Req phone_text); ("preferredLanguage", Req (zod_enum languages)); ("consentAccepted", Req zod_true); ("deviceId", Opt deviceId_text)]%string.
Definition verifyOtpSchema : schema := zod_object Strip
  [("phone", Req phone_text); ("challengeId", Req uuid_text); ("otp", Req pin_text)]%string.
Definition pins_match (v : json) : bool :=
  match jfield "pin" v, jfield "pinConfirmation" v with JStr a, JStr b => String.eqb a b | _, _ => false end.
Definition createPinSchema : schema := zod_refine (zod_object Strip
  [("enrollmentToken", Req (zod_string (len_between 32 512))); ("pin", Req (zod_string securePrototypePin));
   ("pinConfirmation", Req pin_text); ("deviceId", Opt deviceId_text)]%string) pins_match.
Definition pinFallbackRequestSchema : schema := zod_object Strip
  [("phone", Req phone_text); ("pin", Req pin_text); ("deviceId", Opt deviceId_text)]%string.
Definition pinFallbackLoginSchema : schema := zod_object Strip
  [("phone", Req phone_text); ("pin", Req pin_text); ("challengeId", Req uuid_text); ("otp", Req pin_text); ("deviceId", Opt deviceId_text)]%string.
Definition logoutSchema : schema := zod_object Strict [].
Definition maskedUserSchema : schema := zod_object Strip
  [("id", Req uuid_text); ("phoneMasked", Req (zod_string (len_between 4 24))); ("preferredLanguage", Req (zod_enum languages));
   ("kycTier", Req (zod_int nonnegative)); ("status", Req (zod_enum ["PENDING"; "ACTIVE"; "LOCKED"; "DISABLED"]));
   ("phoneVerified", Req zod_boolean)]%string.
Definition sessionResponseSchema : schema := zod_object Strip
  [("authenticated", Req zod_true); ("authenticationMethod", Req (zod_enum ["PIN_OTP"; "PASSKEY"])); ("expiresAt", Req datetime_text);
   ("user", Req maskedUserSchema)]%string.
Definition extension_results : schema := zod_record zod_unknown.
Definition registrationCredentialSchema : schema := zod_object Strip
  [("id", Req (zod_string (len_between 1 2048))); ("rawId", Opt (zod_string (len_between 1 4096))); ("type", Req (zod_literal "public-key"));
   ("authenticatorAttachment", Opt (zod_string (any_length 64))); ("clientExtensionResults", Opt extension_results);
   ("response", Req (zod_object Strip
     [("clientDataJSON", Req (zod_string (len_between 1 16384))); ("attestationObject", Req (zod_string (len_between 1 65536)));
      ("transports", Opt (zod_array 0 16 (zod_string (any_length 64)))); ("authenticatorData", Opt (zod_string (any_length 16384)));
      ("publicKey", Opt (zod_string (any_length 65536))); ("publicKeyAlgorithm", Opt (zod_int any_integer))]))]%string.
Definition authenticationCredentialSchema : schema := zod_object Strip
  [("id", Req (zod_string (len_between 1 2048))); ("rawId", Opt (zod_string (len_between 1 4096))); ("type", Req (zod_literal "public-key"));
   ("authenticatorAttachment", Opt (zod_string (any_length 64))); ("clientExtensionResults", Opt extension_results);
   ("response", Req (zod_object Strip
     [("clientDataJSON", Req (zod_string (len_between 1 16384))); ("authenticatorData", Req (zod_string (len_between 1 16384)));
      ("signature", Req (zod_string (len_between 1 16384))); ("userHandle", Opt (zod_string (any_length 4096)))]))]%string.
Definition passkeyRegistrationOptionsSchema : schema := zod_object Passthrough [].
Definition passkeyAuthenticationOptionsSchema : schema := zod_object Passthrough [].
Definition challenge_text : schema := zod_string (len_between 16 4096).
Definition passkeyRegistrationVerificationSchema : schema := zod_object Strip
  [("challenge", Req challenge_text); ("credential", Req registrationCredentialSchema); ("nickname", Opt (zod_trimmed (len_between 1 64)))]%string.
Definition passkeyAuthenticationVerificationSchema : schema := zod_object Strip
  [("challenge", Req challenge_text); ("credential", Req authenticationCredentialSchema); ("deviceId", Opt deviceId_text)]%string.

(** ** [resilience/v1.ts], as documents *)
Definition sha256_text : schema := zod_string (rx_match sha256_rx).
Definition service_name : schema := zod_string resilienceServiceNameSchema.
Definition health_state : schema := zod_enum ["HEALTHY"; "DEGRADED"; "UNAVAILABLE"; "RECOVERING"; "RECONCILING"; "FAILED"]%string.
Definition drill_states : list string :=
  ["PLANNED"; "RUNNING"; "BACKUP_CREATED"; "RESTORE_VERIFIED"; "RECONCILIATION_PASSED"; "PASSED"; "FAILED"; "CLEANED_UP"].
Definition failure_code : schema := zod_nullable (zod_string resilienceFailureCodeSchema).
Definition dependencyHealthSchema : schema := zod_object Strict
  [("name", Req (zod_string (len_between 2 64))); ("kind", Req (zod_enum ["POSTGRES"; "REDIS"; "HTTP_SERVICE"])); ("state", Req health_state);
   ("checkedAt", Req datetime_text)]%string.
Definition serviceHealthSchema : schema := zod_object Strict
  [("service", Req (zod_string (len_between 2 64))); ("state", Req health_state); ("failureCode", Req failure_code); ("checkedAt", Req datetime_text)]%string.
Definition backupSetSummarySchema : schema := zod_object Strict
  [("backupSetId", Req opaque_text); ("createdAt", Req datetime_text); ("services", Req (zod_array 1 16 service_name));
   ("manifestChecksum", Req sha256_text); ("encryptionAlgorithm", Req (zod_literal "AES-256-GCM")); ("sizeBytes", Req (zod_int nonnegative));
   ("verified", Req zod_boolean)]%string.
Definition reconciliationSummarySchema : schema := zod_object Strict
  [("service", Req service_name); ("status", Req (zod_enum ["PASS"; "FAIL"])); ("issueCount", Req (zod_int nonnegative)); ("checkedAt", Req datetime_text)]%string.
Definition recoveryDrillSchema : schema := zod_object Strict
  [("drillId", Req opaque_text); ("type", Req (zod_string recoveryDrillTypeSchema)); ("state", Req (zod_enum drill_states));
   ("startedAt", Req datetime_text); ("completedAt", Req (zod_nullable datetime_text)); ("requestedBy", Req opaque_text);
   ("backupSetId", Req (zod_nullable opaque_text)); ("measuredRecoveryPointAgeSeconds", Req (zod_nullable (zod_int nonnegative)));
   ("measuredRecoveryDurationMs", Req (zod_nullable (zod_int nonnegative))); ("reconciliations", Req (zod_array 0 16 reconciliationSummarySchema));
   ("failureCode", Req failure_code); ("acknowledgedAt", Req (zod_nullable datetime_text)); ("acknowledgedBy", Req (zod_nullable opaque_text))]%string.
Definition drillAuditEventSchema : schema := zod_object Strict
  [("eventId", Req opaque_text); ("drillId", Req opaque_text); ("state", Req (zod_enum drill_states)); ("occurredAt", Req datetime_text);
   ("note", Req (zod_nullable (zod_string (any_length 500))))]%string.
Definition drill_events_schema : schema := zod_object Strict [("events", Req (zod_array 0 200 drillAuditEventSchema))]%string.
Definition operatorAcknowledgementRequestSchema : schema := zod_object Strict [("reason", Req (zod_trimmed (len_between 8 500)))]%string.
Definition recordPlannedDrillRequestSchema : schema := zod_object Strict
  [("type", Req (zod_string recoveryDrillTypeSchema)); ("note", Opt (zod_trimmed (any_length 500)))]%string.
Definition drillHistoryResponseSchema : schema := zod_object Strict
  [("drills", Req (zod_array 0 50 recoveryDrillSchema)); ("nextCursor", Req (zod_nullable opaque_text))]%string.
Definition recoveryReadinessSchema : schema := zod_object Strict
  [("platformState", Req health_state); ("services", Req (zod_array 0 16 serviceHealthSchema)); ("dependencies", Req (zod_array 0 16 dependencyHealthSchema));
   ("latestBackup", Req (zod_nullable backupSetSummarySchema)); ("latestDrill", Req (zod_nullable recoveryDrillSchema)); ("generatedAt", Req datetime_text)]%string.

(** ** Schemas of the gateway's own controllers *)
Definition bootstrapResponse : schema := zod_object Passthrough
  [("sessionToken", Req (zod_string any_text)); ("csrfToken", Req (zod_string any_text)); ("operatorId", Req (zod_string any_text));
   ("role", Req (zod_literal "SECURITY_OPERATOR")); ("expiresAt", Req datetime_text)]%string.
Definition bootstrapRequest : schema := zod_object Strict [("accessToken", Req (zod_string (len_between 16 256)))]%string.
Definition incidentUpdate : schema := zod_object Strict
  [("status", Opt (zod_enum ["OPEN"; "INVESTIGATING"; "CONTAINED"; "RESOLVED"; "FALSE_POSITIVE"])); ("assignedTo", Opt (zod_string (len_between 8 128)));
   ("note", Opt (zod_trimmed (len_between 3 1000))); ("resolutionReason", Opt (zod_trimmed (len_between 8 500)))]%string.
Definition historyQuerySchema : schema := zod_object Strict
  [("cursor", Opt opaque_text); ("limit", Opt (zod_coerced (within 1 50))); ("state", Opt (zod_enum drill_states))]%string.
Definition operator_identity : schema := zod_object Passthrough [("operatorId", Req opaque_text); ("role", Req (zod_literal "SECURITY_OPERATOR"))]%string.
End Contracts.
