(* ===== verification/GatewayHttp.v ===== *)
(** * The HTTP layer of the gateway: cookies, the CSRF check, rate limits,
    errors and the configuration ([apps/api-gateway/src/{auth/cookies.ts,
    common/http,config}]) *)

From Stdlib Require Import ZArith Lia Ascii String.
From stdpp Require Import base strings list.
From S2P Require Import Prelude.
From S2P Require Import Js.
From S2P Require Import Codec.
From S2P Require Import JsNumber.
From S2P Require Import Regex.
From S2P Require Import Contracts.
From S2P Require Import LedgerDb.
From S2P Require Import RiskTypes.
From S2P Require Import Services.
From S2P Require Import RiskService.
From S2P Require Import SabclWire.
From S2P Require Import SabclCrypto.
From S2P Require Import SabclServices.

Open Scope Z_scope.

(** ** Text in URLs *)
Definition hex_upper (n : Z) : ascii := if n <? 10 then ascii_of_nat (Z.to_nat n + 48) else ascii_of_nat (Z.to_nat n + 55).
Definition percent (c : ascii) : string := String "%" (String (hex_upper (code c / 16)) (String (hex_upper (code c mod 16)) "")).
Definition uri_safe (c : ascii) : bool := alnum c || bool_decide (c ∈ ["-"; "_"; "."; "!"; "~"; "*"; "'"; "("; ")"]%char).
Fixpoint encode_with (safe : ascii -> bool) (s : string) : string :=
  match s with
  | EmptyString => ""
  | String c r => (if safe c then String c "" else percent c) +:+ encode_with safe r
  end.
Definition encodeURIComponent : string -> string := encode_with uri_safe.
(** [URLSearchParams]: the serialisation of a form *)
Definition form_safe (c : ascii) : bool := alnum c || bool_decide (c ∈ ["*"; "-"; "."; "_"]%char).
Fixpoint form_encode (s : string) : string :=
  match s with
  | EmptyString => ""
  | String c r => (if Ascii.eqb c " " then "+" else if form_safe c then String c "" else percent c) +:+ form_encode r
  end.
Definition search_params (l : list (string * string)) : string :=
  match l with [] => "" | _ => "?" +:+ join "&" (map (fun '(k, v) => form_encode k +:+ "=" +:+ form_encode v) l) end.

(** ** Values as text and as numbers *)
(** [String(v)] *)
Fixpoint js_text (v : json) : string :=
  match v with
  | JUndef => "undefined"
  | JNull => "null"
  | JBool b => if b then "true" else "false"
  | JNum n => integer_number_text (number_of_Z n)
  | JStr s => s
  | JArr l => join "," (map (fun x => match x with JUndef | JNull => ""%string | _ => js_text x end) l)
  | JObj _ => "[object Object]"
  end.
(** [Number(v)] *)
Definition js_number (v : json) : number :=
  match v with
  | JUndef | JObj _ => NaN
  | JNull => Fin 0 0
  | JBool b => Fin (if b then 1 else 0) 0
  | JNum n => number_of_Z n
  | JStr _ | JArr _ => Number_of_string (js_text v)
  end.
(** [Math.max(0, x)] *)
Definition Math_max_0 (x : number) : number :=
  match x with Infinity true => Fin 0 0 | Fin m _ => if m <? 0 then Fin 0 0 else x | _ => x end.

(** ** Cookies ([cookies.ts]) *)
Record CookieOptions := mkCookieOptions { co_httpOnly : bool; co_secure : bool; co_maxAgeSeconds : number }.
Definition serializeCookie (name value : string) (o : CookieOptions) : string :=
  join "; " ([encodeURIComponent name +:+ "=" +:+ encodeURIComponent value; "Path=/";
              "Max-Age=" +:+ integer_number_text (Math_max_0 (Math_floor (co_maxAgeSeconds o))); "SameSite=Lax"]
             ++ (if co_httpOnly o then ["HttpOnly"] else []) ++ (if co_secure o then ["Secure"] else [])).
(** A pair cut at its first [=]. *)
Fixpoint cut_pair (s : string) : option (string * string) :=
  match s with
  | EmptyString => None
  | String c r => if Ascii.eqb c "=" then Some (""%string, r) else '(a, b) ← cut_pair r; Some (String c a, b)
  end.
(** [None]: [decodeURIComponent] throws. *)
Fixpoint read_pairs (pairs : list string) (name : string) : option string :=
  match pairs with
  | [] => Some ""%string
  | p :: pairs =>
      match cut_pair p with
      | None => read_pairs pairs name
      | Some (n, v) =>
          candidate ← decodeURIComponent (trim n);
          if String.eqb candidate name then decodeURIComponent (trim v) else read_pairs pairs name
      end
  end.
Definition readCookie (requestCookie : option string) (name : string) : option string :=
  match truthy_string requestCookie with None => Some ""%string | Some c => read_pairs (split_on ";" c) name end.

(** ** Errors *)
Inductive GwErr :=
| HttpException (status : Z) (body : json)
| GwJsError (name : string).                    (* ZodError, URIError, TypeError *)
Definition http_error (status : Z) (code : string) (message : option string) : GwErr :=
  HttpException status (JObj [("error", JObj (("code", JStr code) :: match message with Some m => [("message", JStr m)] | None => [] end))])%string.
Record HttpResponse := mkHttpResponse { hs_status : Z; hs_cookies : list string; hs_private : bool; hs_body : json }.
(** [GatewayExceptionFilter]: the status and the document of an error *)
Definition text_field (name : string) (v : json) : option string := match jfield name v with JStr s => Some s | _ => None end.
Definition error_status (e : GwErr) : Z := match e with HttpException status _ => status | GwJsError _ => 500 end.
Definition exception_response (e : GwErr) (correlationId : string) : Z * json :=
  let status := error_status e in
  let upstream := match e with HttpException _ body => jfield "error" body | GwJsError _ => JUndef end in
  let message :=
    if 500 <=? status then
      if status =? 503 then "Authentication is temporarily unavailable." else "The request could not be completed."
    else default "The request is invalid." (text_field "message" upstream) in
  let code :=
    default (if status =? 503 then "IDENTITY_UNAVAILABLE" else if status =? 401 then "UNAUTHENTICATED" else "INVALID_REQUEST")
      (text_field "code" upstream) in
  (status, JObj [("error", JObj [("code", JStr code); ("message", JStr message); ("correlationId", JStr correlationId)])])%string.

(** ** CSRF ([csrf.ts]) *)
Definition invalid_csrf : GwErr := http_error 403 "INVALID_CSRF" (Some "The CSRF token is invalid."%string).
Definition requireCsrfToken (cookieHeader : option string) (csrfCookieName : string) (suppliedHeader : option string) : result GwErr string :=
  match readCookie cookieHeader csrfCookieName with
  | None => Err (GwJsError "URIError")
  | Some cookieValue =>
      let supplied := trim (default ""%string suppliedHeader) in
      if (String.length cookieValue =? 0)%nat || negb (String.length cookieValue =? String.length supplied)%nat
         || negb (String.eqb cookieValue supplied)
      then Err invalid_csrf else Ok supplied
  end.

(** ** Rate limits ([rate-limit-buckets.ts], [auth-rate-limit.middleware.ts]) *)
Record RateLimitBucket := mkBucket { rb_name : string; rb_limit : Z }.
Definition RATE_LIMIT_WINDOW_MS : Z := 60000.
Definition DEFAULT_LIMIT : Z := 120.
Definition AUTH_FAMILIES : list (string * Z) :=
  [("session", 120); ("onboarding", 60); ("fallback", 40); ("passkeys", 60); ("logout", 60)]%string.
Definition UNKNOWN_AUTH_LIMIT : Z := 20.
Definition KNOWN_SEGMENTS : list string := ["auth"; "accounts"; "transfers"; "channels"; "security-ops"; "sabcl"].
Definition UNKNOWN_SEGMENT_BUCKET : string := "unclassified".
Definition UNKNOWN_SEGMENT_LIMIT : Z := 20.
Definition classifyRateLimitBucket (path : string) : RateLimitBucket :=
  let segments := List.filter (fun s => negb (String.eqb s "")) (split_on "/" path) in
  match segments !! 2%nat with
  | None => mkBucket UNKNOWN_SEGMENT_BUCKET UNKNOWN_SEGMENT_LIMIT
  | Some segment =>
      if negb (existsb (String.eqb segment) KNOWN_SEGMENTS) then mkBucket UNKNOWN_SEGMENT_BUCKET UNKNOWN_SEGMENT_LIMIT
      else if negb (String.eqb segment "auth") then mkBucket segment DEFAULT_LIMIT
      else match segments !! 3%nat with
           | Some family =>
               match jget family AUTH_FAMILIES with
               | Some limit => mkBucket ("auth:" +:+ family) limit
               | None => mkBucket "auth:unclassified" UNKNOWN_AUTH_LIMIT
               end
           | None => mkBucket "auth:unclassified" UNKNOWN_AUTH_LIMIT
           end
  end.
Record RateWindow := mkWindow { rw_count : Z; rw_expiresAt : Z }.
(** [Map], in the order of insertion. *)
Abbreviation Windows := (list (string * RateWindow)).
Definition maximumEntries : Z := 10000.
(** The sweep over a map of [size] entries. *)
Fixpoint sweep (now size : Z) (m : Windows) : Windows :=
  match m with
  | [] => []
  | (k, w) :: m => if (rw_expiresAt w <=? now) || (maximumEntries <? size) then sweep now (size - 1) m else (k, w) :: sweep now size m
  end.
Definition first_part (sep : ascii) (s : string) : string := default ""%string (head (split_on sep s)).
(** What the middleware knows of a request. *)
Record RateRequest := mkRateRequest { rr_originalUrl : string; rr_path : string; rr_ip : option string }.
Definition rate_target (r : RateRequest) : string :=
  first_part "?" (default (rr_path r) (truthy_string (Some (rr_originalUrl r)))).
Definition window_key (r : RateRequest) (b : RateLimitBucket) : string := default "unknown"%string (truthy_string (rr_ip r)) +:+ ":" +:+ rb_name b.
(** The window of the request, counting it, and the windows after it. *)
Definition rate_window (now : Z) (r : RateRequest) (windows : Windows) : RateWindow * Windows :=
  let key := window_key r (classifyRateLimitBucket (rate_target r)) in
  let fresh := mkWindow 0 (now + RATE_LIMIT_WINDOW_MS) in
  let window := match jget key windows with Some w => if now <? rw_expiresAt w then w else fresh | None => fresh end in
  let window := mkWindow (rw_count window + 1) (rw_expiresAt window) in
  let windows := jset key window windows in
  let size := Z.of_nat (length windows) in
  (window, if maximumEntries <? size then sweep now size windows else windows).
Definition rate_limit_of (r : RateRequest) : Z := rb_limit (classifyRateLimitBucket (rate_target r)).
Definition rate_admits (r : RateRequest) (w : RateWindow) : bool := rw_count w <=? rate_limit_of r.
Definition rate_remaining (r : RateRequest) (w : RateWindow) : Z := Z.max 0 (rate_limit_of r - rw_count w).
(** [AppModule.configure]: the routes behind the middleware; the framework
    says which paths [matches] a pattern. *)
Definition limited_routes : list string := ["api/v1/auth/*"; "api/v1/accounts/*"; "api/v1/transfers/*"; "api/v1/security-ops/*"].
Definition rate_limited (matches : string -> string -> bool) (path : string) : bool := existsb (fun p => matches p path) limited_routes.
