(* ===== verification/Gateway.v ===== *)
(** * The gateway's clients of the other services
    ([apps/api-gateway/src/{auth/identity.client.ts, accounts/ledger.client.ts,
    accounts/session-customer.ts, transfers/payments.client.ts, risk/risk.client.ts,
    resilience/resilience.client.ts, sabcl/sabcl-transport.service.ts}]) *)

From Stdlib Require Import ZArith Lia Ascii String.
From stdpp Require Import base strings list.
From S2P Require Import Prelude.
From S2P Require Import Js.
From S2P Require Import Codec.
From S2P Require Import Regex.
From S2P Require Import Contracts.
From S2P Require Import Security.
From S2P Require Import Services.
From S2P Require Import RiskTypes.
From S2P Require Import LedgerDb.
From S2P Require Import RiskService.
From S2P Require Import SabclWire.
From S2P Require Import SabclCrypto.
From S2P Require Import SabclServices.
From S2P Require Import Schemas.
From S2P Require Import ResilienceDb.
From S2P Require Import WireContracts.
From S2P Require Import GatewayHttp.

Open Scope Z_scope.

(** ** The services behind the gateway *)
Inductive Upstream := ToIdentity | ToLedger | ToPayments | ToRisk | ToResilience | ToRouter.
#[export] Instance Upstream_eq_dec : EqDecision Upstream.
Proof. solve_decision. Defined.
(** A call over HTTP: [gc_body] is the value that [JSON.stringify] writes. *)
Record GwCall := mkGwCall {
  gc_to : Upstream; gc_method : string; gc_path : string; gc_headers : list (string * string); gc_body : option json }.
(** A call that the SABCL client sends. *)
Record SealedCall := mkSealedCall { sd_routeId : string; sd_service : string; sd_request : SabclInnerRequest }.
(** The network: [None] is no answer in time. *)
Class Upstreams (Env : Type) := {
  fetch : GwCall -> Env -> option HttpReply * Env;
  sabcl_send : SealedCall -> Env -> Sabcl SabclInnerResponse * Env
}.

Record GatewayConfig := mkGatewayConfig {
  nodeEnvironment : string;
  identityServiceUrl : string; identityInternalToken : string;
  ledgerServiceUrl : string; ledgerInternalToken : string;
  paymentsServiceUrl : string; paymentsInternalToken : string;
  riskServiceUrl : string; riskInternalToken : string; riskGatewaySourceToken : string;
  sessionCookieName : string; csrfCookieName : string;
  identityTimeoutMs : Z; ledgerTimeoutMs : Z; paymentsTimeoutMs : Z; riskTimeoutMs : Z;
  operatorSessionCookieName : string; operatorCsrfCookieName : string;
  sabclRouterUrl : string; sabclTimeoutMs : Z;
  resilienceServiceUrl : string; resilienceGatewaySourceToken : string; resilienceTimeoutMs : Z
}.
(** What reaches a controller; [gq_correlationId] after the middleware. *)
Record GwRequest := mkGwRequest {
  gq_ip : option string;
  gq_cookie : option string;
  gq_userAgent : option string;
  gq_csrf : option string;
  gq_idempotencyKey : option string;
  gq_correlationId : string;
  gq_query : json;
  gq_body : json
}.
(** The answer under construction. *)
Record GwState (Env : Type) := mkGwState {
  gs_env : Env; gs_uuids : N; gs_cookies : list string; gs_private : bool; gs_status : option Z }.
Arguments mkGwState {Env}.
Arguments gs_env {Env}.
Arguments gs_uuids {Env}.
Arguments gs_cookies {Env}.
Arguments gs_private {Env}.
Arguments gs_status {Env}.
Definition fresh_response {Env} (env : Env) (uuids : N) : GwState Env := mkGwState env uuids [] false None.

(** A value that [Headers] takes: trimmed, one byte per character, on one
    line; otherwise it throws a TypeError. *)
Definition header_space (c : ascii) : bool := bool_decide (c ∈ ["009"; "010"; "013"; " "]%char).
Fixpoint header_trim_start (s : string) : string :=
  match s with String c r => if header_space c then header_trim_start r else s | EmptyString => "" end.
Fixpoint header_trim_end (s : string) : string :=
  match s with
  | EmptyString => ""
  | String c r => match header_trim_end r with EmptyString => if header_space c then "" else String c "" | t => String c t end
  end.
Definition header_char (c : ascii) : bool := negb (bool_decide (c ∈ ["000"; "010"; "013"]%char)) && (code c <? 196).
Definition header_value (s : string) : option string := checked (str_all header_char) (header_trim_end (header_trim_start s)).

(** [v ?? empty] *)
Definition or_json (v empty : json) : json := match v with JUndef | JNull => empty | _ => v end.
Definition or_empty (v : json) : json := or_json v (JObj []).

Section Clients.
Context {Env : Type} {zod : Zod} {crypto : Crypto} {pg : Postgres} {upstreams : Upstreams Env}.
Abbreviation GwM := (M (GwState Env) GwErr).
Variable config : GatewayConfig.
(** The SABCL environment of the process, if there is one. *)
Variable mode : option SabclMode.
Variable now : Z.

Definition network {A} (f : Env -> A * Env) : GwM A := fun s =>
  let '(a, env) := f (gs_env s) in (Ok a, mkGwState env (gs_uuids s) (gs_cookies s) (gs_private s) (gs_status s)).
(** [randomUUID()] *)
Definition randomUUID : GwM string := fun s =>
  (Ok (uuid (gs_uuids s)), mkGwState (gs_env s) (N.succ (gs_uuids s)) (gs_cookies s) (gs_private s) (gs_status s)).
Definition unavailable (code : string) : GwErr := http_error 503 code None.
(** The headers as they are sent. *)
Definition sent_headers (l : list (string * string)) : option (list (string * string)) := mapM (fun '(k, v) => v' ← header_value v; Some (k, v')) l.
(** [fetch] with its headers; [None]: it throws, or a header does. *)
Definition call (to : Upstream) (method path : string) (headers : list (string * string)) (body : json) : GwM (option HttpReply) :=
  match sent_headers headers with
  | None => mret None
  | Some hs => network (fetch (mkGwCall to method path hs (if String.eqb method "POST" then Some (or_empty body) else None)))
  end.
Definition json_headers : list (string * string) := [("accept", "application/json"); ("content-type", "application/json")]%string.
Definition present (name : string) (value : option string) : list (string * string) :=
  match truthy_string value with Some v => [(name, v)] | None => [] end.
Definition body_of (r : HttpReply) : json := default JUndef (hp_body r).

(** ** [IdentityClient] *)
Definition identity_request (endpoint method : string) (r : GwRequest) (body : json) (sessionId csrfToken : option string) : GwM json :=
  reply ← call ToIdentity method endpoint
    (json_headers ++ [("x-aegis-internal-token", identityInternalToken config); ("x-correlation-id", gq_correlationId r);
       ("x-aegis-client-ip-hash", sha256 (default "unknown"%string (truthy_string (gq_ip r))))]%string
     ++ present "x-aegis-user-agent" (str_take 512 <$> gq_userAgent r)
     ++ present "x-aegis-session-id" sessionId ++ present "x-csrf-token" csrfToken) body;
  reply ← require reply (HttpException 503 (JObj []));
  _ ← throw_when (negb (reply_ok reply)) (HttpException (hp_status reply) (or_empty (body_of reply)));
  mret (body_of reply).

(** ** [SabclTransportService] *)
Definition sabcl_enabled : bool := bool_decide (is_Some mode).
Definition sabcl_strict : bool := match mode with Some strict => true | _ => false end.
Record SabclCallOptions := mkCallOptions {
  so_capability : string; so_operation : string; so_method : string; so_path : string; so_correlationId : string;
  so_body : json; so_customerId : option string }.
Definition route_of (capability : string) : option CatalogueEntry := find (fun e => String.eqb (ce_routeId e) capability) SABCL_CAPABILITIES.
Definition sabcl_call (o : SabclCallOptions) : GwM (Sabcl SabclInnerResponse) :=
  match mode, route_of (so_capability o) with
  | None, _ => mret (Err (SabclError SABCL_NOT_CONFIGURED))
  | Some _, None => mret (Err (SabclJsError "TypeError"))
  | Some _, Some e => network (sabcl_send (mkSealedCall (ce_routeId e) (ce_service e)
      (mkInnerRequest (so_operation o) (so_method o) (so_path o) (match so_body o with JUndef => None | v => Some v end)
         (Some <$> truthy_string (so_customerId o)) (so_correlationId o))))
  end.

(** ** [LedgerClient] and [PaymentsClient]

    Both are one client but for its names: the service, its token, the
    capability of an endpoint and the error that stands for an outage. *)
Record DomainClient := mkDomain {
  dc_to : Upstream; dc_token : string; dc_capability : string -> string; dc_outage : string; dc_empty : json }.
Definition capabilityForEndpoint (endpoint : string) : string :=
  if String.prefix "/internal/customer-transfers" endpoint then "ledger.postings" else "ledger.accounts".
Definition ledger : DomainClient := mkDomain ToLedger (ledgerInternalToken config) capabilityForEndpoint "LEDGER_UNAVAILABLE" (JObj []).
Definition payments : DomainClient :=
  mkDomain ToPayments (paymentsInternalToken config) (fun _ => "payments.transfer"%string) "PAYMENTS_UNAVAILABLE"
    (JObj [("error", JObj [("code", JStr "PAYMENTS_UNAVAILABLE")])])%string.
Definition accepted_body (c : DomainClient) (s : schema) (body : json) : GwM json := require (s body) (unavailable (dc_outage c)).
Definition requestDirect (c : DomainClient) (path method : string) (s : schema) (r : GwRequest) (body : json) (customerId : option string) : GwM json :=
  reply ← call (dc_to c) method path
    (json_headers ++ [("x-aegis-internal-token", dc_token c); ("x-correlation-id", gq_correlationId r)]%string
     ++ present "x-aegis-customer-id" customerId) body;
  reply ← require reply (unavailable (dc_outage c));
  _ ← throw_when (negb (reply_ok reply)) (HttpException (hp_status reply) (or_json (body_of reply) (dc_empty c)));
  accepted_body c s (body_of reply).
Definition requestThroughSabcl (c : DomainClient) (path method : string) (s : schema) (r : GwRequest) (body : json) (customerId : option string)
  : GwM json :=
  let capability := dc_capability c path in
  result ← sabcl_call (mkCallOptions capability (capability +:+ "." +:+ toLowerCase method) method path (gq_correlationId r) body customerId);
  match result with
  | Ok response =>
      let body := default JUndef (ir_body response) in
      _ ← throw_when (400 <=? ir_status response) (HttpException (ir_status response) (or_json body (dc_empty c)));
      accepted_body c s body
  | Err (SabclError _) =>
      if sabcl_strict then throw (unavailable (dc_outage c)) else requestDirect c path method s r body customerId
  | Err _ => throw (unavailable (dc_outage c))
  end.
Definition domain_request (c : DomainClient) (path method : string) (s : schema) (r : GwRequest) (body : json) (customerId : option string) : GwM json :=
  if sabcl_enabled then requestThroughSabcl c path method s r body customerId else requestDirect c path method s r body customerId.

(** ** [RiskClient] *)
Definition risk_refusal (status : Z) : GwErr :=
  if (status =? 401) || (status =? 403)
  then http_error status "OPERATOR_UNAUTHORIZED" (Some "Security operator authentication is required."%string)
  else http_error status "SECURITY_CONTROL_ACTIVE" (Some "The operation cannot be completed."%string).
Definition risk_request (path method : string) (r : GwRequest) (body : json) (operator : option (string * option string)) : GwM json :=
  reply ← call ToRisk method path
    (json_headers ++ [("x-aegis-internal-token", riskInternalToken config); ("x-correlation-id", gq_correlationId r)]%string
     ++ match operator with
        | Some (session, csrf) => [("x-aegis-operator-session", session)]%string ++ present "x-csrf-token" csrf
        | None => []
        end) body;
  reply ← require reply (http_error 503 "RISK_UNAVAILABLE" (Some "The operation cannot be completed securely."%string));
  _ ← throw_when (negb (reply_ok reply)) (risk_refusal (hp_status reply));
  mret (body_of reply).
(** [schema.parse]: a ZodError is no HttpException. *)
Definition parsed (s : schema) (v : json) : GwM json := require (s v) (GwJsError "ZodError").
Definition risk_check (r : GwRequest) (operation : string) (scopes : list (string * string)) : GwM json :=
  v ← risk_request "/internal/v1/controls/check" "POST" r
    (JObj [("operation", JStr operation);
           ("scopes", JArr (map (fun '(t, id) => JObj [("type", JStr t); ("id", JStr id)]) scopes));
           ("correlationId", JStr (gq_correlationId r))])%string None;
  parsed controlCheckResponseSchema v.
Definition risk_evaluate (r : GwRequest) (operation subjectId sessionId : string) (stepUpVerified : bool) : GwM json :=
  id ← randomUUID;
  v ← risk_request "/internal/v1/assessments/evaluate" "POST" r
    (JObj [("operation", JStr operation); ("subjectId", JStr subjectId); ("sessionId", JStr sessionId); ("stepUpVerified", JBool stepUpVerified);
           ("evaluationId", JStr id); ("occurredAt", JStr (toISOString now)); ("correlationId", JStr (gq_correlationId r))])%string None;
  parsed riskAssessmentSchema v.
Record Emitted := mkEmitted {
  em_eventType : string; em_severity : string; em_subjectId : option string; em_accountId : option string; em_sessionId : option string;
  em_attributes : list (string * json) }.
Definition optional_field (name : string) (o : option string) : list (string * json) := match o with Some s => [(name, JStr s)] | None => [] end.
Definition severity_names : list string := ["INFO"; "LOW"; "MEDIUM"; "HIGH"; "CRITICAL"].
(** [securityEventV1Schema], on the events the gateway makes *)
Definition emitted_ok (eventId correlationId : string) (e : Emitted) : bool :=
  z_uuid eventId && len_between 8 128 ("gateway:" +:+ eventId) && existsb (String.eqb (em_severity e)) severity_names && z_datetime (toISOString now)
  && when_present opaqueIdentifier (em_subjectId e) && when_present opaqueIdentifier (em_accountId e) && when_present opaqueIdentifier (em_sessionId e)
  && z_uuid correlationId && safeRiskAttributesSchema (em_attributes e).
Definition risk_emit (r : GwRequest) (e : Emitted) : GwM unit :=
  eventId ← randomUUID;
  sourceId ← randomUUID;
  _ ← throw_when (negb (emitted_ok eventId (gq_correlationId r) e && len_between 8 128 ("gateway:" +:+ sourceId))) (GwJsError "ZodError");
  _ ← call ToRisk "POST" "/internal/v1/events"
    [("content-type", "application/json"); ("x-aegis-source-token", riskGatewaySourceToken config)]%string
    (JObj ([("schemaVersion", JStr "1.0"); ("eventId", JStr eventId); ("source", JStr "GATEWAY"); ("sourceEventId", JStr ("gateway:" +:+ sourceId));
            ("eventType", JStr (em_eventType e)); ("severity", JStr (em_severity e)); ("occurredAt", JStr (toISOString now))]
           ++ optional_field "subjectId" (em_subjectId e) ++ optional_field "accountId" (em_accountId e) ++ optional_field "sessionId" (em_sessionId e)
           ++ [("correlationId", JStr (gq_correlationId r)); ("attributes", JObj (em_attributes e))]))%string;
  mret tt.
Definition risk_operator (path method : string) (r : GwRequest) (operator : string * option string) (body : json) : GwM json :=
  risk_request ("/internal/v1/operators" +:+ path) method r body (Some operator).

(** ** [ResilienceClient] *)
Definition resilience_unavailable : GwErr := http_error 503 "RESILIENCE_UNAVAILABLE" (Some "Recovery information is not available."%string).
Definition resilience_refusal (status : Z) : GwErr :=
  if status =? 409 then http_error 409 "RESILIENCE_STATE_CONFLICT" (Some "The recovery record has already moved on."%string)
  else if status =? 404 then http_error 404 "RESILIENCE_RECORD_NOT_FOUND" (Some "The recovery record was not found."%string)
  else resilience_unavailable.
Definition resilience_request (path method : string) (r : GwRequest) (s : schema) (body : json) : GwM json :=
  reply ← call ToResilience method path
    (json_headers ++ [("x-aegis-source-token", resilienceGatewaySourceToken config); ("x-correlation-id", gq_correlationId r)]%string) body;
  reply ← require reply resilience_unavailable;
  _ ← throw_when (negb (reply_ok reply)) (resilience_refusal (hp_status reply));
  require (s (body_of reply)) resilience_unavailable.

(** ** [SessionCustomerResolver] *)
Definition unauthenticatedError : GwErr := http_error 401 "UNAUTHENTICATED" (Some "Authentication is required."%string).
Definition cookie (r : GwRequest) (name : string) : GwM string := require (readCookie (gq_cookie r) name) (GwJsError "URIError").
Definition resolve (r : GwRequest) : GwM string :=
  sessionId ← cookie r (sessionCookieName config);
  _ ← throw_when (String.eqb sessionId "") unauthenticatedError;
  session ← identity_request "/api/v1/auth/session" "GET" r JUndef (Some sessionId) None;
  session ← require (sessionResponseSchema session) unauthenticatedError;
  require (text_field "id" (jfield "user" session)) unauthenticatedError.
End Clients.
