(* ===== verification/GatewayRoutes.v ===== *)
(** * The gateway's controllers
    ([apps/api-gateway/src/{auth,accounts,transfers,channels,operators,resilience,health}]) *)

From Stdlib Require Import ZArith Lia Ascii String.
From stdpp Require Import base strings list.
From S2P Require Import Prelude.
From S2P Require Import Js.
From S2P Require Import Codec.
From S2P Require Import JsNumber.
From S2P Require Import Regex.
From S2P Require Import Contracts.
From S2P Require Import Security.
From S2P Require Import Services.
From S2P Require Import RiskTypes.
From S2P Require Import LedgerDb.
From S2P Require Import RiskService.
From S2P Require Import SabclWire.
From S2P Require Import SabclCrypto.
From S2P Require Import SabclServices.
From S2P Require Import Schemas.
From S2P Require Import WireContracts.
From S2P Require Import GatewayHttp.
From S2P Require Import Gateway.

Open Scope Z_scope.

(** ** Endpoints *)
Module IDENTITY_ENDPOINTS.
Definition base : string := "/api/v1/auth/".
Definition onboardingRequestOtp : string := base +:+ "onboarding/request-otp".
Definition onboardingVerifyOtp : string := base +:+ "onboarding/verify-otp".
Definition onboardingCreatePin : string := base +:+ "onboarding/create-pin".
Definition fallbackRequestOtp : string := base +:+ "fallback/request-otp".
Definition fallbackLogin : string := base +:+ "fallback/login".
Definition session : string := base +:+ "session".
Definition logout : string := base +:+ "logout".
Definition passkeyRegistrationOptions : string := base +:+ "passkeys/registration/options".
Definition passkeyRegistrationVerify : string := base +:+ "passkeys/registration/verify".
Definition passkeyAuthenticationOptions : string := base +:+ "passkeys/authentication/options".
Definition passkeyAuthenticationVerify : string := base +:+ "passkeys/authentication/verify".
Definition ready : string := "/health/ready".
Definition transferStepUp : string := base +:+ "transfer-step-up".
End IDENTITY_ENDPOINTS.
Module LEDGER_ENDPOINTS.
Definition provisionDefaultAccount : string := "/internal/customer-accounts/default".
Definition customerAccounts (customerId : string) : string := "/internal/customers/" +:+ encodeURIComponent customerId +:+ "/accounts".
Definition customerAccount (accountId : string) : string := "/internal/customer-accounts/" +:+ encodeURIComponent accountId.
Definition customerAccountBalance (accountId : string) : string := customerAccount accountId +:+ "/balance".
Definition customerTransactions (accountId query : string) : string := customerAccount accountId +:+ "/transactions" +:+ query.
Definition customerTransaction (accountId transactionId : string) : string :=
  customerAccount accountId +:+ "/transactions/" +:+ encodeURIComponent transactionId.
Definition ready : string := "/health/ready".
End LEDGER_ENDPOINTS.
Module PAYMENTS_ENDPOINTS.
Definition policy : string := "/internal/transfer-policy".
Definition preview : string := "/internal/transfer-intents".
Definition authorize (token : string) : string := "/internal/transfer-intents/" +:+ encodeURIComponent token +:+ "/authorize".
Definition confirm : string := "/internal/transfers".
Definition transfers (customerId query : string) : string := "/internal/customers/" +:+ encodeURIComponent customerId +:+ "/transfers" +:+ query.
Definition transfer (customerId id : string) : string :=
  "/internal/customers/" +:+ encodeURIComponent customerId +:+ "/transfers/" +:+ encodeURIComponent id.
Definition qrIssue : string := "/internal/qr/issue".
Definition qrPreview : string := "/internal/qr/preview".
Definition qrRedeem : string := "/internal/qr/redeem".
Definition agentCashInPreview : string := "/internal/agent/cash-in/preview".
Definition agentCashOutPreview : string := "/internal/agent/cash-out/preview".
Definition agentCashConfirm : string := "/internal/agent/cash/confirm".
Definition ready : string := "/health/ready".
End PAYMENTS_ENDPOINTS.

Section Controllers.
Context {Env : Type} {zod : Zod} {crypto : Crypto} {pg : Postgres} {upstreams : Upstreams Env}.
Abbreviation GwM := (M (GwState Env) GwErr).
Variable config : GatewayConfig.
Variable mode : option SabclMode.
Variable now : Z.

(** ** The response *)
Definition set_cookies (l : list string) : GwM unit := modify (fun s => mkGwState (gs_env s) (gs_uuids s) l (gs_private s) (gs_status s)).
(** [cache-control: private, no-store] *)
Definition cache : GwM unit := modify (fun s => mkGwState (gs_env s) (gs_uuids s) (gs_cookies s) true (gs_status s)).
Definition set_status (status : Z) : GwM unit :=
  modify (fun s => mkGwState (gs_env s) (gs_uuids s) (gs_cookies s) (gs_private s) (Some status)).
(** [try { m } finally { f }] *)
Definition finally {A} (m : GwM A) (f : GwM unit) : GwM A := fun s =>
  let '(r, s) := m s in match f s with (Ok _, s) => (r, s) | (Err e, s) => (Err e, s) end.
Definition secure_cookies : bool := String.eqb (nodeEnvironment config) "production".
(** The session cookie, which scripts cannot read, and the CSRF cookie, which they can. *)
Definition cookie_pair (sessionName sessionValue csrfName csrfValue : string) (maxAgeSeconds : number) : list string :=
  [serializeCookie sessionName sessionValue (mkCookieOptions true secure_cookies maxAgeSeconds);
   serializeCookie csrfName csrfValue (mkCookieOptions false secure_cookies maxAgeSeconds)].
Definition setSessionCookies (session : json) : GwM unit :=
  match session with
  | JUndef | JNull => throw (GwJsError "TypeError")
  | _ => set_cookies (cookie_pair (sessionCookieName config) (js_text (jfield "sessionId" session))
           (csrfCookieName config) (js_text (jfield "csrfToken" session)) (js_number (jfield "maxAgeSeconds" session)))
  end.
Definition clearSessionCookies : GwM unit :=
  set_cookies (cookie_pair (sessionCookieName config) "" (csrfCookieName config) "" (Fin 0 0)).

(** ** What the handlers share *)
Definition invalidRequest (code : string) (message : option string) : GwErr := http_error 400 code message.
Definition invalid : GwErr := invalidRequest "INVALID_REQUEST" (Some "The request is invalid."%string).
Definition parse (s : schema) (v : json) : GwM json := require (s v) invalid.
Definition sessionId (r : GwRequest) : GwM string := cookie r (sessionCookieName config).
Definition csrf (r : GwRequest) : GwM string := lift_result (requireCsrfToken (gq_cookie r) (csrfCookieName config) (gq_csrf r)).
Definition text (name : string) (v : json) : string := default ""%string (text_field name v).
(** [{ ...data, ... }], [data] an object *)
Definition spread (data : json) (l : list (string * json)) : json := match data with JObj fs => JObj (fs ++ l) | _ => JObj l end.
Definition key_missing : GwErr := invalidRequest "IDEMPOTENCY_KEY_REQUIRED" None.
(** [z.string().regex(...)] on the header *)
Definition idempotency_key (r : GwRequest) : GwM string := require (gq_idempotencyKey r ≫= paymentKeySchema) key_missing.
Definition unauthenticated : GwErr := http_error 401 "UNAUTHENTICATED" None.
Definition session_cookie (r : GwRequest) : GwM string := id ← sessionId r; _ ← throw_when (String.eqb id "") unauthenticated; mret id.
(** The parameters that a query schema left defined. *)
Definition query_text (parsed : json) : string :=
  match parsed with
  | JObj fs => search_params (omap (fun '(k, v) => match v with JUndef => None | _ => Some (k, js_text v) end) fs)
  | _ => ""
  end.
Definition ledger_request := domain_request mode (ledger config).
Definition payments_request := domain_request mode (payments config).
Definition identity (r : GwRequest) (endpoint : string) (body : json) (session csrfToken : option string) : GwM json :=
  identity_request config endpoint "POST" r body session csrfToken.
(** [SessionCustomerResolver.resolve], then the CSRF check *)
Definition customer (r : GwRequest) : GwM string := customerId ← resolve config r; _ ← csrf r; mret customerId.
Definition final_status (result : json) : Z := if String.eqb (text "status" result) "PROCESSING" then 202 else 200.

(** ** [AuthController] *)
Definition authenticate (endpoint : string) (r : GwRequest) (body : json) : GwM json :=
  created ← identity r endpoint body None None; _ ← setSessionCookies created; mret (jfield "session" created).
Definition public_call (endpoint : string) (s : schema) (r : GwRequest) : GwM json := b ← parse s (gq_body r); identity r endpoint b None None.
Definition requestOnboardingOtp : GwRequest -> GwM json := public_call IDENTITY_ENDPOINTS.onboardingRequestOtp requestOtpSchema.
Definition verifyOnboardingOtp : GwRequest -> GwM json := public_call IDENTITY_ENDPOINTS.onboardingVerifyOtp verifyOtpSchema.
Definition createPin (r : GwRequest) : GwM json := b ← parse createPinSchema (gq_body r); authenticate IDENTITY_ENDPOINTS.onboardingCreatePin r b.
Definition requestFallbackOtp : GwRequest -> GwM json := public_call IDENTITY_ENDPOINTS.fallbackRequestOtp pinFallbackRequestSchema.
Definition fallbackLogin (r : GwRequest) : GwM json := b ← parse pinFallbackLoginSchema (gq_body r); authenticate IDENTITY_ENDPOINTS.fallbackLogin r b.
Definition session (r : GwRequest) : GwM json :=
  id ← sessionId r; identity_request config IDENTITY_ENDPOINTS.session "GET" r JUndef (Some id) None.
Definition revoked : json := JObj [("revoked", JBool true)]%string.
Definition logout (r : GwRequest) : GwM json :=
  _ ← parse logoutSchema (gq_body r);
  id ← sessionId r;
  if String.eqb id "" then _ ← clearSessionCookies; mret revoked
  else
    _ ← finally
      (try_catch (token ← csrf r; _ ← identity r IDENTITY_ENDPOINTS.logout (JObj []) (Some id) (Some token); mret tt)
         (fun e => match e with HttpException 401 _ => mret tt | _ => throw e end))
      clearSessionCookies;
    mret revoked.
Definition registration_call (endpoint : string) (s : schema) (r : GwRequest) : GwM json :=
  b ← parse s (gq_body r); id ← sessionId r; token ← csrf r; identity r endpoint b (Some id) (Some token).
Definition registrationOptions : GwRequest -> GwM json :=
  registration_call IDENTITY_ENDPOINTS.passkeyRegistrationOptions passkeyRegistrationOptionsSchema.
Definition verifyRegistration : GwRequest -> GwM json :=
  registration_call IDENTITY_ENDPOINTS.passkeyRegistrationVerify passkeyRegistrationVerificationSchema.
Definition authenticationOptions : GwRequest -> GwM json :=
  public_call IDENTITY_ENDPOINTS.passkeyAuthenticationOptions passkeyAuthenticationOptionsSchema.
Definition verifyAuthentication (r : GwRequest) : GwM json :=
  b ← parse passkeyAuthenticationVerificationSchema (gq_body r); authenticate IDENTITY_ENDPOINTS.passkeyAuthenticationVerify r b.

(** ** [AccountsController] *)
Definition account_not_found : GwErr := http_error 404 "ACCOUNT_NOT_FOUND" (Some "The account could not be found."%string).
Definition account_id (value : string) : GwM string := require (checked z_uuid value) account_not_found.
Definition list_accounts (r : GwRequest) : GwM json :=
  customerId ← resolve config r;
  ledger_request (LEDGER_ENDPOINTS.customerAccounts customerId) "GET" customerAccountListSchema r JUndef None.
Definition provisionDefault (r : GwRequest) : GwM json :=
  customerId ← customer r;
  key ← require (gq_idempotencyKey r ≫= idempotencyKeySchema)
    (invalidRequest "IDEMPOTENCY_KEY_REQUIRED" (Some "A valid Idempotency-Key header is required."%string));
  _ ← parse provisionDefaultAccountRequestSchema (or_empty (gq_body r));
  result ← ledger_request LEDGER_ENDPOINTS.provisionDefaultAccount "POST" provisionDefaultAccountResultSchema r
    (JObj [("customerId", JStr customerId); ("productType", JStr "TIER0_WALLET"); ("currency", JStr "LKR"); ("idempotencyKey", JStr key)])%string None;
  mret (jfield "account" result).
Definition account_detail (accountId : string) (r : GwRequest) : GwM json :=
  customerId ← resolve config r;
  id ← account_id accountId;
  ledger_request (LEDGER_ENDPOINTS.customerAccount id) "GET" customerAccountDetailSchema r JUndef (Some customerId).
Definition account_balance (accountId : string) (r : GwRequest) : GwM json :=
  customerId ← resolve config r;
  id ← account_id accountId;
  ledger_request (LEDGER_ENDPOINTS.customerAccountBalance id) "GET" accountBalanceSchema r JUndef (Some customerId).
Definition transactions (accountId : string) (r : GwRequest) : GwM json :=
  customerId ← resolve config r;
  q ← parse transactionHistoryQuerySchema (gq_query r);
  _ ← cache;
  id ← account_id accountId;
  ledger_request (LEDGER_ENDPOINTS.customerTransactions id (query_text q)) "GET" transactionHistoryResponseSchema r JUndef (Some customerId).
Definition transaction_detail (accountId transactionId : string) (r : GwRequest) : GwM json :=
  customerId ← resolve config r;
  parsedTransactionId ← account_id transactionId;
  _ ← cache;
  id ← account_id accountId;
  ledger_request (LEDGER_ENDPOINTS.customerTransaction id parsedTransactionId) "GET" customerTransactionDetailSchema r JUndef (Some customerId).

(** ** [TransfersController] *)
Definition transfer_csrf (r : GwRequest) (customerId : string) : GwM string :=
  try_catch (csrf r) (fun e =>
    _ ← risk_emit config now r (mkEmitted "CSRF_FAILURE" "MEDIUM" (Some customerId) None None
          [("operation", JStr "TRANSFER"); ("outcome", JStr "REJECTED")]%string);
    throw e).
Definition transfer_customer (r : GwRequest) : GwM string := customerId ← resolve config r; _ ← transfer_csrf r customerId; mret customerId.
Definition transfer_policy (r : GwRequest) : GwM json :=
  _ ← resolve config r;
  _ ← cache;
  payments_request PAYMENTS_ENDPOINTS.policy "GET" transferPolicySchema r JUndef None.
Definition transfer_preview (r : GwRequest) : GwM json :=
  customerId ← transfer_customer r;
  data ← parse transferPreviewRequestSchema (gq_body r);
  _ ← cache;
  result ← payments_request PAYMENTS_ENDPOINTS.preview "POST" transferPreviewResponseSchema r
    (spread data [("senderCustomerId", JStr customerId)]%string) None;
  _ ← risk_emit config now r (mkEmitted "TRANSFER_PREVIEW" "INFO" (Some customerId) (text_field "sourceAccountId" data) None
    [("operation", JStr "TRANSFER_PREVIEW"); ("amountMinor", jfield "minorUnits" (jfield "amount" result));
     ("currency", jfield "currency" (jfield "amount" result))]%string);
  mret result.
Definition control_active : GwErr := http_error 403 "SECURITY_CONTROL_ACTIVE" (Some "The transfer cannot be completed."%string).
(** The [FORBIDDEN_ROUTE] event of a refused confirmation, and the refusal. *)
Definition confirmation_blocked {A} (r : GwRequest) (customerId sessionId severity outcome : string) : GwM A :=
  _ ← risk_emit config now r (mkEmitted "FORBIDDEN_ROUTE" severity (Some customerId) None (Some sessionId)
        [("operation", JStr "TRANSFER_CONFIRMATION"); ("outcome", JStr outcome)]%string);
  throw control_active.
(** The steps of a confirmation before the transfer: controls, PIN, risk. *)
Definition confirm_checks (r : GwRequest) (customerId sessionId pin : string) : GwM json :=
  active ← risk_check config r "TRANSFER_CONFIRMATION"
    [("CUSTOMER", customerId); ("SESSION", sessionId); ("OPERATION", "operation:transfer-confirmation")]%string;
  _ ← match jfield "allowed" active with JBool true => mret tt | _ => confirmation_blocked r customerId sessionId "HIGH" "CONTROL_BLOCKED" end;
  _ ← identity r IDENTITY_ENDPOINTS.transferStepUp (JObj [("pin", JStr pin)])%string (Some sessionId) None;
  assessment ← risk_evaluate config now r "TRANSFER_CONFIRMATION" customerId sessionId true;
  _ ← (if existsb (String.eqb (text "decision" assessment)) ["ALLOW"; "ALLOW_WITH_MONITORING"]%string then mret tt
       else confirmation_blocked r customerId sessionId (text "band" assessment) (text "decision" assessment));
  mret assessment.
Definition transfer_confirm (r : GwRequest) : GwM json :=
  customerId ← transfer_customer r;
  data ← parse transferConfirmationRequestSchema (gq_body r);
  key ← idempotency_key r;
  sessionId ← session_cookie r;
  assessment ← confirm_checks r customerId sessionId (text "pin" data);
  _ ← payments_request (PAYMENTS_ENDPOINTS.authorize (text "intentToken" data)) "POST" zod_undefined r (JObj []) (Some customerId);
  body ← parse internalTransferConfirmationSchema
    (JObj [("senderCustomerId", JStr customerId); ("intentToken", jfield "intentToken" data); ("idempotencyKey", JStr key)])%string;
  result ← payments_request PAYMENTS_ENDPOINTS.confirm "POST" transferDetailSchema r body None;
  _ ← risk_emit config now r (mkEmitted "TRANSFER_CONFIRMATION"
    (if String.eqb (text "band" assessment) "LOW" then "INFO" else text "band" assessment) (Some customerId) None (Some sessionId)
    [("operation", JStr "TRANSFER_CONFIRMATION"); ("outcome", jfield "status" result)]%string);
  _ ← cache;
  _ ← set_status (final_status result);
  mret result.
Definition transfer_list (r : GwRequest) : GwM json :=
  customerId ← resolve config r;
  q ← parse transferListQuerySchema (gq_query r);
  _ ← cache;
  payments_request (PAYMENTS_ENDPOINTS.transfers customerId (query_text q)) "GET" transferListResponseSchema r JUndef None.
Definition transfer_detail (transferId : string) (r : GwRequest) : GwM json :=
  customerId ← resolve config r;
  id ← require (checked z_uuid transferId) invalid;
  _ ← cache;
  payments_request (PAYMENTS_ENDPOINTS.transfer customerId id) "GET" transferDetailSchema r JUndef None.

(** ** [ChannelsController] *)
Definition qr_issue (r : GwRequest) (body : json) : GwM json :=
  _ ← cache;
  body ← parse internalQrIssueRequestSchema body;
  payments_request PAYMENTS_ENDPOINTS.qrIssue "POST" qrIssueResponseSchema r body None.
Definition qrReceive (r : GwRequest) : GwM json :=
  customerId ← customer r;
  data ← parse qrReceiveRequestSchema (gq_body r);
  qr_issue r (JObj [("customerId", JStr customerId); ("accountId", jfield "sourceAccountId" data); ("type", JStr "STATIC"); ("currency", JStr "LKR")])%string.
Definition qrDynamic (r : GwRequest) : GwM json :=
  customerId ← customer r;
  data ← parse qrDynamicRequestSchema (gq_body r);
  qr_issue r (JObj [("customerId", JStr customerId); ("accountId", jfield "sourceAccountId" data); ("type", JStr "DYNAMIC");
                    ("amountMinor", jfield "amount" data); ("currency", jfield "currency" data); ("purpose", jfield "purpose" data)])%string.
Definition qrPreview (r : GwRequest) : GwM json :=
  customerId ← customer r;
  data ← parse qrPreviewRequestSchema (gq_body r);
  _ ← cache;
  payments_request PAYMENTS_ENDPOINTS.qrPreview "POST" transferPreviewResponseSchema r
    (JObj [("payload", jfield "payload" data); ("senderCustomerId", JStr customerId); ("sourceAccountId", jfield "sourceAccountId" data)])%string None.
(** A confirmation over a channel: the PIN, then one call of Payments in the
    name of the customer, whom the body calls [who]. *)
Definition channel_confirm (endpoint who : string) (s : schema) (r : GwRequest) : GwM json :=
  customerId ← customer r;
  data ← parse transferConfirmationRequestSchema (gq_body r);
  key ← idempotency_key r;
  sessionId ← session_cookie r;
  _ ← identity r IDENTITY_ENDPOINTS.transferStepUp (JObj [("pin", jfield "pin" data)])%string (Some sessionId) None;
  result ← payments_request endpoint "POST" s r
    (JObj [(who, JStr customerId); ("intentToken", jfield "intentToken" data); ("idempotencyKey", JStr key)])%string None;
  _ ← cache;
  _ ← set_status (final_status result);
  mret result.
Definition qrConfirm : GwRequest -> GwM json := channel_confirm PAYMENTS_ENDPOINTS.qrRedeem "senderCustomerId" transferDetailSchema.
Definition placeholder_agent : string := "AEGIS-AGT-0000".
Definition agent_preview (endpoint : string) (s : schema) (r : GwRequest) : GwM json :=
  agentId ← customer r;
  data ← parse s (gq_body r);
  _ ← cache;
  payments_request endpoint "POST" agentCashPreviewResponseSchema r
    (JObj [("agentId", JStr agentId); ("agentReference", JStr placeholder_agent); ("customerReference", jfield "customerReference" data);
           ("amountMinor", jfield "amountMinor" data); ("currency", jfield "currency" data)])%string None.
Definition agentCashInPreview : GwRequest -> GwM json := agent_preview PAYMENTS_ENDPOINTS.agentCashInPreview agentCashInPreviewRequestSchema.
Definition agentCashOutPreview : GwRequest -> GwM json := agent_preview PAYMENTS_ENDPOINTS.agentCashOutPreview agentCashOutPreviewRequestSchema.
Definition agentCashConfirm : GwRequest -> GwM json := channel_confirm PAYMENTS_ENDPOINTS.agentCashConfirm "agentId" agentCashResultSchema.
Definition ussdSimulate (r : GwRequest) : GwM json :=
  customerId ← customer r;
  _ ← cache;
  payments_request "/internal/ussd/simulate" "POST" zod_unknown r (gq_body r) (Some customerId).
Definition ussdWebhook (r : GwRequest) : GwM json := payments_request "/internal/ussd/webhook" "POST" zod_unknown r (gq_body r) None.

(** ** [OperatorsController] *)
Definition operator_auth (r : GwRequest) (mutation : bool) : GwM (string * option string) :=
  session ← cookie r (operatorSessionCookieName config);
  if mutation then token ← lift_result (requireCsrfToken (gq_cookie r) (operatorCsrfCookieName config) (gq_csrf r)); mret (session, Some token)
  else mret (session, None).
Definition operator_cookies (sessionToken csrfToken : string) (maxAge : number) : GwM unit :=
  set_cookies (cookie_pair (operatorSessionCookieName config) sessionToken (operatorCsrfCookieName config) csrfToken maxAge).
(** Seconds until an instant, from [Date.now()]. *)
Definition seconds_until (expiresAt : string) : number :=
  match date_parse expiresAt with Some t => Math_max_0 (number_of_Z ((t - now) / 1000)) | None => NaN end.
Definition signIn (r : GwRequest) : GwM json :=
  b ← parsed bootstrapRequest (gq_body r);
  v ← risk_operator config "/bootstrap" "POST" r (""%string, None) b;
  result ← parsed bootstrapResponse v;
  _ ← operator_cookies (text "sessionToken" result) (text "csrfToken" result) (seconds_until (text "expiresAt" result));
  mret (JObj [("operatorId", jfield "operatorId" result); ("role", jfield "role" result); ("expiresAt", jfield "expiresAt" result)])%string.
Definition operator_get (path : string) (r : GwRequest) : GwM json := o ← operator_auth r false; risk_operator config path "GET" r o JUndef.
Definition sessionInfo (r : GwRequest) : GwM json := o ← operator_auth r false; risk_operator config "/validate" "POST" r o JUndef.
Definition operator_logout (r : GwRequest) : GwM json :=
  o ← operator_auth r true;
  result ← risk_operator config "/logout" "POST" r o JUndef;
  _ ← operator_cookies "" "" (Fin 0 0);
  mret result.
(** The [cursor] parameter of a query, as text. *)
Definition cursor_query (r : GwRequest) : string :=
  match jfield "cursor" (gq_query r) with
  | JUndef => ""
  | v => match truthy_string (Some (js_text v)) with Some c => "?cursor=" +:+ encodeURIComponent c | None => "" end
  end.
Definition operator_page (path : string) (r : GwRequest) : GwM json := operator_get (path +:+ cursor_query r) r.
(** [z.uuid().parse(id)] *)
Definition operator_id (id : string) : GwM string := require (checked z_uuid id) (GwJsError "ZodError").
Definition operator_incident (id : string) (r : GwRequest) : GwM json := id ← operator_id id; operator_get ("/incidents/" +:+ id) r.
Definition operator_post (path : string) (s : schema) (r : GwRequest) : GwM json :=
  o ← operator_auth r true; b ← parsed s (gq_body r); risk_operator config path "POST" r o b.
Definition operator_apply : GwRequest -> GwM json := operator_post "/controls" applyControlRequestSchema.
Definition operator_release (id : string) (r : GwRequest) : GwM json :=
  id ← operator_id id; operator_post ("/controls/" +:+ id +:+ "/release") releaseControlRequestSchema r.
Definition updateIncident (id : string) (r : GwRequest) : GwM json := id ← operator_id id; operator_post ("/incidents/" +:+ id) incidentUpdate r.

(** ** [ResilienceController] *)
Definition operator_unauthorized : GwErr := http_error 403 "OPERATOR_UNAUTHORIZED" (Some "Security operator authentication is required."%string).
Definition operator (r : GwRequest) (mutation : bool) : GwM string :=
  o ← operator_auth r mutation;
  v ← risk_operator config "/validate" "POST" r o JUndef;
  v ← require (operator_identity v) operator_unauthorized;
  mret (text "operatorId" v).
Definition drill_id (id : string) : GwM string := require (checked opaqueIdentifier id) (GwJsError "ZodError").
Definition drills_path : string := "/internal/v1/drills".
Definition drill_path (id : string) : string := drills_path +:+ "/" +:+ encodeURIComponent id.
Definition readiness (r : GwRequest) : GwM json :=
  _ ← operator r false; resilience_request config "/internal/v1/readiness" "GET" r recoveryReadinessSchema JUndef.
(** The parameters that are truthy; a limit is at least 1. *)
Definition drills_query (q : json) : string :=
  search_params (omap (fun k => match jfield k q with JUndef => None | v => Some (k, js_text v) end) ["cursor"; "limit"; "state"]%string).
Definition drills (r : GwRequest) : GwM json :=
  _ ← operator r false;
  q ← parsed historyQuerySchema (or_empty (gq_query r));
  resilience_request config (drills_path +:+ drills_query q) "GET" r drillHistoryResponseSchema JUndef.
Definition drill (id : string) (r : GwRequest) : GwM json :=
  _ ← operator r false; id ← drill_id id; resilience_request config (drill_path id) "GET" r recoveryDrillSchema JUndef.
Definition drill_events (id : string) (r : GwRequest) : GwM json :=
  _ ← operator r false; id ← drill_id id; resilience_request config (drill_path id +:+ "/events") "GET" r drill_events_schema JUndef.
Definition plan (r : GwRequest) : GwM json :=
  operatorId ← operator r true;
  b ← parsed recordPlannedDrillRequestSchema (gq_body r);
  resilience_request config (drills_path +:+ "?requestedBy=" +:+ encodeURIComponent operatorId) "POST" r recoveryDrillSchema b.
Definition acknowledge (id : string) (r : GwRequest) : GwM json :=
  operatorId ← operator r true;
  id ← drill_id id;
  b ← parsed operatorAcknowledgementRequestSchema (gq_body r);
  resilience_request config (drill_path id +:+ "/acknowledge?operatorId=" +:+ encodeURIComponent operatorId) "POST" r recoveryDrillSchema
    (JObj [("reason", jfield "reason" b)])%string.

(** ** [HealthController.getReadiness] *)
Definition service_ready (to : Upstream) (token : string) : GwM bool :=
  reply ← match header_value token with
          | Some token => network (fetch (mkGwCall to "GET" "/health/ready" [("x-aegis-internal-token", token)]%string None))
          | None => mret None
          end;
  mret (match reply with Some reply => reply_ok reply | None => false end).
Definition up : json := JStr "up".
Definition getReadiness : GwM json :=
  identityReady ← service_ready ToIdentity (identityInternalToken config);
  ledgerReady ← service_ready ToLedger (ledgerInternalToken config);
  paymentsReady ← service_ready ToPayments (paymentsInternalToken config);
  _ ← throw_when (negb identityReady) (http_error 503 "IDENTITY_UNAVAILABLE" None);
  _ ← throw_when (negb ledgerReady) (http_error 503 "LEDGER_UNAVAILABLE" None);
  _ ← throw_when (negb paymentsReady) (http_error 503 "PAYMENTS_UNAVAILABLE" None);
  mret (JObj [("status", JStr "ready"); ("dependencies", JObj [("identity", up); ("ledger", up); ("payments", up)])])%string.
End Controllers.
