(* ===== verification/GatewayServer.v ===== *)
(** * The gateway as a server: its routes, their answers, the correlation
    and rate-limit middleware
    ([apps/api-gateway/src/{app.module.ts, app.setup.ts, common/http}], and the
    decorators of the controllers) *)

From Stdlib Require Import ZArith Lia Ascii String.
From stdpp Require Import base strings list.
From S2P Require Import Prelude.
From S2P Require Import Js.
From S2P Require Import Codec.
From S2P Require Import Contracts.
From S2P Require Import Security.
From S2P Require Import Services.
From S2P Require Import LedgerDb.
From S2P Require Import SabclWire.
From S2P Require Import SabclServices.
From S2P Require Import Schemas.
From S2P Require Import WireContracts.
From S2P Require Import GatewayHttp.
From S2P Require Import Gateway.
From S2P Require Import GatewayRoutes.

Open Scope Z_scope.

(** ** Routes, with their path parameters *)
Inductive AuthRoute := RequestOnboardingOtp | VerifyOnboardingOtp | CreatePin | RequestFallbackOtp | FallbackLogin | Session | Logout
| RegistrationOptions | VerifyRegistration | AuthenticationOptions | VerifyAuthentication.
Inductive AccountsRoute := ListAccounts | ProvisionDefault | AccountDetail (id : string) | AccountBalance (id : string)
| AccountTransactions (id : string) | AccountTransaction (id transactionId : string).
Inductive TransfersRoute := TransferPolicy | TransferPreview | TransferConfirm | TransferList | TransferDetail (id : string).
Inductive ChannelsRoute := QrReceive | QrDynamic | QrPreview | QrConfirm | AgentCashInPreview | AgentCashOutPreview | AgentCashConfirm
| UssdSimulate | UssdWebhook.
Inductive OperatorsRoute := SignIn | SessionInfo | OperatorLogout | Overview | Events | Assessments | Controls | Incidents | Incident (id : string)
| Apply | Release (id : string) | UpdateIncident (id : string).
Inductive ResilienceRoute := Readiness | Drills | Drill (id : string) | DrillEvents (id : string) | Plan | Acknowledge (id : string).
Inductive Route := Auth (a : AuthRoute) | OnAccounts (a : AccountsRoute) | OnTransfers (t : TransfersRoute) | OnChannels (c : ChannelsRoute)
| OnOperators (o : OperatorsRoute) | OnResilience (d : ResilienceRoute) | HealthReady.

(** The controller's prefix, the decorator's method and path. *)
Definition auth_path (a : AuthRoute) : string * string :=
  match a with
  | RequestOnboardingOtp => ("POST", "onboarding/request-otp") | VerifyOnboardingOtp => ("POST", "onboarding/verify-otp")
  | CreatePin => ("POST", "onboarding/create-pin") | RequestFallbackOtp => ("POST", "fallback/request-otp")
  | FallbackLogin => ("POST", "fallback/login") | Session => ("GET", "session") | Logout => ("POST", "logout")
  | RegistrationOptions => ("POST", "passkeys/registration/options") | VerifyRegistration => ("POST", "passkeys/registration/verify")
  | AuthenticationOptions => ("POST", "passkeys/authentication/options") | VerifyAuthentication => ("POST", "passkeys/authentication/verify")
  end%string.
Definition accounts_path (a : AccountsRoute) : string * string :=
  match a with
  | ListAccounts => ("GET", "") | ProvisionDefault => ("POST", "/default") | AccountDetail id => ("GET", "/" +:+ id)
  | AccountBalance id => ("GET", "/" +:+ id +:+ "/balance") | AccountTransactions id => ("GET", "/" +:+ id +:+ "/transactions")
  | AccountTransaction id t => ("GET", "/" +:+ id +:+ "/transactions/" +:+ t)
  end%string.
Definition transfers_path (t : TransfersRoute) : string * string :=
  match t with
  | TransferPolicy => ("GET", "/policy") | TransferPreview => ("POST", "/preview") | TransferConfirm => ("POST", "/confirm")
  | TransferList => ("GET", "") | TransferDetail id => ("GET", "/" +:+ id)
  end%string.
Definition channels_path (c : ChannelsRoute) : string * string :=
  match c with
  | QrReceive => ("POST", "qr/receive") | QrDynamic => ("POST", "qr/dynamic") | QrPreview => ("POST", "qr/preview") | QrConfirm => ("POST", "qr/confirm")
  | AgentCashInPreview => ("POST", "agent/cash-in/preview") | AgentCashOutPreview => ("POST", "agent/cash-out/preview")
  | AgentCashConfirm => ("POST", "agent/cash/confirm") | UssdSimulate => ("POST", "ussd/simulate") | UssdWebhook => ("POST", "ussd/webhook")
  end%string.
Definition operators_path (o : OperatorsRoute) : string * string :=
  match o with
  | SignIn => ("POST", "sign-in") | SessionInfo => ("GET", "session") | OperatorLogout => ("POST", "logout") | Overview => ("GET", "overview")
  | Events => ("GET", "events") | Assessments => ("GET", "assessments") | Controls => ("GET", "controls") | Incidents => ("GET", "incidents")
  | Incident id => ("GET", "incidents/" +:+ id) | Apply => ("POST", "controls") | Release id => ("POST", "controls/" +:+ id +:+ "/release")
  | UpdateIncident id => ("POST", "incidents/" +:+ id)
  end%string.
Definition resilience_path (d : ResilienceRoute) : string * string :=
  match d with
  | Readiness => ("GET", "readiness") | Drills => ("GET", "drills") | Drill id => ("GET", "drills/" +:+ id)
  | DrillEvents id => ("GET", "drills/" +:+ id +:+ "/events") | Plan => ("POST", "drills") | Acknowledge id => ("POST", "drills/" +:+ id +:+ "/acknowledge")
  end%string.
Definition under (prefix : string) (mp : string * string) : string * string := (mp.1, prefix +:+ mp.2).
Definition route_address (route : Route) : string * string :=
  match route with
  | Auth a => under "/api/v1/auth/" (auth_path a)
  | OnAccounts a => under "/api/v1/accounts" (accounts_path a)
  | OnTransfers t => under "/api/v1/transfers" (transfers_path t)
  | OnChannels c => under "/api/v1/channels/" (channels_path c)
  | OnOperators o => under "/api/v1/security-ops/" (operators_path o)
  | OnResilience d => under "/api/v1/security-ops/resilience/" (resilience_path d)
  | HealthReady => ("GET", "/health/ready")
  end%string.
(** [@HttpCode], or 201 for a POST and 200 for a GET *)
Definition success_status (route : Route) : Z :=
  match route with
  | Auth (RequestOnboardingOtp | RequestFallbackOtp) => 202
  | Auth Logout | OnTransfers TransferConfirm | OnChannels (QrConfirm | AgentCashConfirm | UssdSimulate | UssdWebhook) => 200
  | _ => if String.eqb (route_address route).1 "POST" then 201 else 200
  end.

Section Server.
Context {Env : Type} {zod : Zod} {crypto : Crypto} {pg : Postgres} {upstreams : Upstreams Env}.
Abbreviation GwM := (M (GwState Env) GwErr).
Variable config : GatewayConfig.
Variable mode : option SabclMode.
Variable now : Z.

Definition handle_auth (a : AuthRoute) : GwRequest -> GwM json :=
  match a with
  | RequestOnboardingOtp => requestOnboardingOtp config | VerifyOnboardingOtp => verifyOnboardingOtp config | CreatePin => createPin config
  | RequestFallbackOtp => requestFallbackOtp config | FallbackLogin => fallbackLogin config | Session => session config | Logout => logout config
  | RegistrationOptions => registrationOptions config | VerifyRegistration => verifyRegistration config
  | AuthenticationOptions => authenticationOptions config | VerifyAuthentication => verifyAuthentication config
  end.
Definition handle_accounts (a : AccountsRoute) : GwRequest -> GwM json :=
  match a with
  | ListAccounts => list_accounts config mode | ProvisionDefault => provisionDefault config mode | AccountDetail id => account_detail config mode id
  | AccountBalance id => account_balance config mode id | AccountTransactions id => transactions config mode id
  | AccountTransaction id t => transaction_detail config mode id t
  end.
Definition handle_transfers (t : TransfersRoute) : GwRequest -> GwM json :=
  match t with
  | TransferPolicy => transfer_policy config mode | TransferPreview => transfer_preview config mode now
  | TransferConfirm => transfer_confirm config mode now | TransferList => transfer_list config mode | TransferDetail id => transfer_detail config mode id
  end.
Definition handle_channels (c : ChannelsRoute) : GwRequest -> GwM json :=
  match c with
  | QrReceive => qrReceive config mode | QrDynamic => qrDynamic config mode | QrPreview => qrPreview config mode | QrConfirm => qrConfirm config mode
  | AgentCashInPreview => agentCashInPreview config mode | AgentCashOutPreview => agentCashOutPreview config mode
  | AgentCashConfirm => agentCashConfirm config mode | UssdSimulate => ussdSimulate config mode | UssdWebhook => ussdWebhook config mode
  end.
Definition handle_operators (o : OperatorsRoute) : GwRequest -> GwM json :=
  match o with
  | SignIn => signIn config now | SessionInfo => sessionInfo config | OperatorLogout => operator_logout config
  | Overview => operator_get config "/overview" | Events => operator_page config "/events" | Assessments => operator_page config "/assessments"
  | Controls => operator_page config "/controls" | Incidents => operator_page config "/incidents" | Incident id => operator_incident config id
  | Apply => operator_apply config | Release id => operator_release config id | UpdateIncident id => updateIncident config id
  end.
Definition handle_resilience (d : ResilienceRoute) : GwRequest -> GwM json :=
  match d with
  | Readiness => readiness config | Drills => drills config | Drill id => drill config id | DrillEvents id => drill_events config id
  | Plan => plan config | Acknowledge id => acknowledge config id
  end.
Definition handle_route (route : Route) (r : GwRequest) : GwM json :=
  match route with
  | Auth a => handle_auth a r | OnAccounts a => handle_accounts a r | OnTransfers t => handle_transfers t r | OnChannels c => handle_channels c r
  | OnOperators o => handle_operators o r | OnResilience d => handle_resilience d r | HealthReady => getReadiness config
  end.
(** The answer; headers set before an error stay. *)
Definition respond (route : Route) (r : GwRequest) (s : GwState Env) : HttpResponse * GwState Env :=
  let '(result, s) := handle_route route r s in
  let '(status, body) := match result with
                         | Ok v => (default (success_status route) (gs_status s), v)
                         | Err e => exception_response e (gq_correlationId r)
                         end in
  (mkHttpResponse status (gs_cookies s) (gs_private s) body, s).

(** ** Middleware *)
(** [CorrelationMiddleware] *)
Definition correlate (supplied : option string) (uuids : N) : string * N :=
  match supplied with
  | Some id => if z_uuid id then (id, uuids) else (uuid uuids, N.succ uuids)
  | None => (uuid uuids, N.succ uuids)
  end.
Definition with_correlation (r : GwRequest) (id : string) : GwRequest :=
  mkGwRequest (gq_ip r) (gq_cookie r) (gq_userAgent r) (gq_csrf r) (gq_idempotencyKey r) id (gq_query r) (gq_body r).
Definition rate_limit_body (correlationId : string) : json :=
  JObj [("error", JObj [("code", JStr "RATE_LIMITED"); ("message", JStr "Too many requests."); ("correlationId", JStr correlationId)])]%string.
(** What the server keeps between requests: the rate windows. *)
Record Served := mkServed { sv_response : HttpResponse; sv_remaining : option Z; sv_windows : Windows; sv_env : Env; sv_uuids : N }.
(** One request. [matches] is the router of the framework; [rr] what the
    rate-limit middleware reads. *)
Definition serve (matches : string -> string -> bool) (route : Route) (supplied : option string) (rr : RateRequest) (r : GwRequest)
  (windows : Windows) (env : Env) (uuids : N) : Served :=
  let '(id, uuids) := correlate supplied uuids in
  let r := with_correlation r id in
  let s := fresh_response env uuids in
  if rate_limited matches (rate_target rr) then
    let '(window, windows) := rate_window now rr windows in
    let remaining := Some (rate_remaining rr window) in
    if rate_admits rr window then let '(a, s) := respond route r s in mkServed a remaining windows (gs_env s) (gs_uuids s)
    else
      let '(_, s) := risk_emit config now r (mkEmitted "RATE_LIMIT_VIOLATION" "MEDIUM" None None None
        [("route", JStr (str_take 256 (rate_target rr))); ("method", JStr (route_address route).1); ("requestCount", JNum (rw_count window))]%string) s in
      mkServed (mkHttpResponse 429 [] false (rate_limit_body id)) remaining windows (gs_env s) (gs_uuids s)
  else let '(a, s) := respond route r s in mkServed a None windows (gs_env s) (gs_uuids s).
End Server.
