(* ===== verification/GatewayProofs.v ===== *)
(** * What the gateway asks of the services behind it: traces of its calls,
    and what every route's trace keeps to *)

From Stdlib Require Import ZArith Lia Ascii String.
From stdpp Require Import base strings list.
From S2P Require Import Prelude.
From S2P Require Import Js.
From S2P Require Import Codec.
From S2P Require Import JsNumber.
From S2P Require Import Contracts.
From S2P Require Import Security.
From S2P Require Import Services.
From S2P Require Import RiskTypes.
From S2P Require Import LedgerDb.
From S2P Require Import RiskService.
From S2P Require Import SabclWire.
From S2P Require Import SabclCrypto.
From S2P Require Import SabclServices.
From S2P Require Import Schemas.
From S2P Require Import WireContracts.
From S2P Require Import GatewayHttp.
From S2P Require Import Gateway.
From S2P Require Import GatewayRoutes.
From S2P Require Import GatewayServer.

Open Scope Z_scope.

(** ** A network that keeps the history of the calls *)
Inductive Event := Called (c : GwCall) (reply : option HttpReply) | Sealed (c : SealedCall) (answer : Sabcl SabclInnerResponse).
Record Traced (Env : Type) := mkTraced { tr_env : Env; tr_events : list Event }.
Arguments mkTraced {Env}.
Arguments tr_env {Env}.
Arguments tr_events {Env}.
#[export] Instance traced {Env} {upstreams : Upstreams Env} : Upstreams (Traced Env) := {|
  fetch c t := let '(reply, env) := fetch c (tr_env t) in (reply, mkTraced env (tr_events t ++ [Called c reply]));
  sabcl_send c t := let '(answer, env) := sabcl_send c (tr_env t) in (answer, mkTraced env (tr_events t ++ [Sealed c answer]))
|}.
Definition events {Env} (s : GwState (Traced Env)) : list Event := tr_events (gs_env s).

Section Traces.
Context {Env : Type} {zod : Zod} {crypto : Crypto} {pg : Postgres} {upstreams : Upstreams Env}.
Abbreviation GwM := (M (GwState (Traced Env)) GwErr).

(** [m] adds to the history calls that [ev] describes, with its result. *)
Definition does {A} (m : GwM A) (ev : result GwErr A -> list Event -> Prop) : Prop :=
  forall s, exists new, events (m s).2 = events s ++ new /\ ev (m s).1 new.
Definition silent {A} (m : GwM A) : Prop := forall s, events (m s).2 = events s.

Lemma does_triple {A} (m : GwM A) ev (Q : list Event -> Prop) (Q' : A -> list Event -> Prop) (R : list Event -> Prop) :
  does m ev ->
  (forall h new a, Q h -> ev (Ok a) new -> Q' a (h ++ new)) -> (forall h new e, Q h -> ev (Err e) new -> R (h ++ new)) ->
  triple (fun s => Q (events s)) m (fun a s => Q' a (events s)) (fun _ s => R (events s)).
Proof.
  intros Hm Hok Herr s Hs. destruct (Hm s) as (new & Hnew & Hev).
  destruct (m s) as [[a|e] s']; cbn in *; rewrite Hnew; eauto.
Qed.
Lemma does_preserves {A} (m : GwM A) ev (P : list Event -> Prop) :
  does m ev -> (forall h new res, P h -> ev res new -> P (h ++ new)) -> preserves (fun s => P (events s)) m.
Proof. intros Hm HP. apply (does_triple m ev P (fun _ => P) P Hm); eauto. Qed.
Lemma silent_preserves {A} (m : GwM A) (P : list Event -> Prop) : silent m -> preserves (fun s => P (events s)) m.
Proof. intros Hm s Hs. pose proof (Hm s) as He. destruct (m s) as [[a|e] s']; cbn in He; by rewrite He. Qed.
Lemma silent_triple {A} (m : GwM A) (P : list Event -> Prop) (Q : A -> Prop) :
  silent m -> (forall s a s', m s = (Ok a, s') -> Q a) ->
  triple (fun s => P (events s)) m (fun a s => Q a /\ P (events s)) (fun _ s => P (events s)).
Proof. intros Hm HQ s Hs. pose proof (Hm s) as He. destruct (m s) as [[a|e] s'] eqn:Hms; cbn in He; rewrite He; eauto. Qed.

Lemma silent_cookie r name : silent (cookie r name).
Proof. intros s. unfold cookie. by destruct (readCookie _ _). Qed.
Lemma silent_parse s v : silent (parse s v).
Proof. intros st. unfold parse. by destruct (s v). Qed.
Lemma silent_require {A} (o : option A) e : silent (require o e).
Proof. intros st. by destruct o. Qed.
Lemma silent_modify f : (forall s, events (f s) = events s) -> silent (modify f).
Proof. intros Hf s. apply Hf. Qed.

(** ** One call over HTTP *)
Lemma call_does to method path headers body :
  does (call to method path headers body) (fun res new =>
    (res = Ok None /\ new = []) \/
    exists hs reply, sent_headers headers = Some hs /\ res = Ok reply /\
      new = [Called (mkGwCall to method path hs (if String.eqb method "POST" then Some (or_empty body) else None)) reply]).
Proof.
  intros s. unfold call. destruct (sent_headers headers) as [hs|].
  - unfold network, events. cbn [fetch traced]. destruct (fetch _ (tr_env (gs_env s))) as [reply env]. cbn.
    eexists. split; [done|]. right. eauto.
  - exists []. cbn. rewrite app_nil_r. split; [done|by left].
Qed.
(** A computation that makes at most one HTTP call, one that [C] describes;
    its value is the answer to it, as [V] relates them. *)
Definition requests {A} (m : GwM A) (C : GwCall -> Prop) (V : HttpReply -> A -> Prop) : Prop :=
  does m (fun res new => (new = [] /\ exists e, res = Err e) \/
    exists c reply, C c /\ new = [Called c reply] /\ forall a, res = Ok a -> exists rep, reply = Some rep /\ reply_ok rep = true /\ V rep a).
(** [call], a reply or an error, a success or an error, and a last step. *)
Definition answered {A} (e : GwErr) (refusal : HttpReply -> GwErr) (k : HttpReply -> GwM A) (reply : option HttpReply) : GwM A :=
  reply ← require reply e; _ ← throw_when (negb (reply_ok reply)) (refusal reply); k reply.
Lemma answered_run {A} e refusal (k : HttpReply -> GwM A) reply s :
  answered e refusal k reply s =
    match reply with
    | Some rep => if reply_ok rep then k rep s else (Err (refusal rep), s)
    | None => (Err e, s)
    end.
Proof.
  destruct reply as [rep|]; [|done]. unfold answered, mbind, M_bind, throw_when, require. cbn [mret M_ret].
  by destruct (reply_ok rep).
Qed.
Lemma call_requests {A} to method path headers body e refusal (k : HttpReply -> GwM A) (C : GwCall -> Prop) (V : HttpReply -> A -> Prop) :
  (forall hs, sent_headers headers = Some hs ->
    C (mkGwCall to method path hs (if String.eqb method "POST" then Some (or_empty body) else None))) ->
  (forall rep, silent (k rep)) -> (forall rep s a s', k rep s = (Ok a, s') -> V rep a) ->
  requests (reply ← call to method path headers body; answered e refusal k reply) C V.
Proof.
  intros HC Hk HV s. destruct (call_does to method path headers body s) as (new & Hnew & Hres).
  destruct (call to method path headers body s) as [res s1] eqn:Hcall. cbn [fst snd] in Hnew, Hres.
  destruct Hres as [[-> ->]|(hs & reply & Hhs & -> & ->)]; rewrite (bind_Ok _ _ _ _ _ _ _ Hcall), answered_run.
  - exists []. split; [exact Hnew|]. left. eauto.
  - eexists. split; [rewrite <- Hnew|right; eexists _, reply; split; [by apply HC|split; [reflexivity|]]].
    + destruct reply as [rep|]; [|done]. destruct (reply_ok rep); [apply Hk|done].
    + intros a Ha. destruct reply as [rep|]; [|done]. destruct (reply_ok rep) eqn:Hok; [|done]. exists rep. split_and!; [done|done|].
      destruct (k rep s1) as [[a'|e'] s2] eqn:Hrun; [|done]. injection Ha as <-. eauto.
Qed.
Lemma ret_silent {A} (a : A) : silent (mret a).
Proof. by intros s. Qed.

(** The headers that went out. *)
Lemma jget_sent k (l hs : list (string * string)) : sent_headers l = Some hs -> jget k hs = jget k l ≫= header_value.
Proof.
  unfold sent_headers. revert hs. induction l as [|[k' v] l IH]; intros hs; [by intros [= <-]|]. cbn [mapM].
  intros ([k2 v2] & (w & Hw & [= <- <-])%bind_Some & (hs' & Hhs & [= <-])%bind_Some)%bind_Some. cbn [jget].
  destruct (String.eqb k k'); [|by apply IH]. cbn. done.
Qed.
Lemma jget_headers k (a b : list (string * string)) : jget k (a ++ b) = match jget k a with Some v => Some v | None => jget k b end.
Proof. induction a as [|[k' v] a IH]; [done|]. cbn. by destruct (String.eqb k k'). Qed.
Lemma jget_present k name value : jget k (present name value) = if String.eqb k name then truthy_string value else None.
Proof. unfold present. generalize (truthy_string value) as o. intros [w|]; cbn; by destruct (String.eqb k name). Qed.
Definition header_text (o : option string) : option string := truthy_string o ≫= header_value.

(** ** The clients *)
Section ClientCalls.
Variable config : GatewayConfig.
Variable mode : option SabclMode.
Variable now : Z.
Definition identity_call (endpoint method : string) (body : json) (sessionId : option string) (c : GwCall) : Prop :=
  gc_to c = ToIdentity /\ gc_method c = method /\ gc_path c = endpoint /\ jget "x-aegis-session-id" (gc_headers c) = header_text sessionId /\
  gc_body c = if String.eqb method "POST" then Some (or_empty body) else None.
Lemma identity_requests endpoint method r body sessionId csrfToken :
  requests (identity_request config endpoint method r body sessionId csrfToken) (identity_call endpoint method body sessionId)
    (fun rep v => v = body_of rep).
Proof.
  refine (call_requests ToIdentity method endpoint _ body _ (fun rep => HttpException (hp_status rep) (or_empty (body_of rep)))
    (fun rep => mret (body_of rep)) _ _ _ (fun rep => ret_silent _) _).
  - intros hs Hhs. unfold identity_call. cbn [gc_to gc_method gc_path gc_headers gc_body]. split_and!; try done.
    rewrite (jget_sent _ _ _ Hhs), !jget_headers, !jget_present. cbn. unfold header_text. by destruct (truthy_string sessionId).
  - by intros rep s a s' [= <- _].
Qed.
Definition risk_call (method path : string) (body : json) (c : GwCall) : Prop :=
  gc_to c = ToRisk /\ gc_method c = method /\ gc_path c = path /\ gc_body c = if String.eqb method "POST" then Some (or_empty body) else None.
Lemma risk_requests path method r body o :
  requests (risk_request config path method r body o) (risk_call method path body) (fun rep v => v = body_of rep).
Proof.
  refine (call_requests ToRisk method path _ body _ (fun rep => risk_refusal (hp_status rep)) (fun rep => mret (body_of rep)) _ _ _
    (fun rep => ret_silent _) _); [done|]. by intros rep s a s' [= <- _].
Qed.
Lemma resilience_requests path method r sch body :
  requests (resilience_request config path method r sch body) (fun c => gc_to c = ToResilience)
    (fun rep v => sch (body_of rep) = Some v).
Proof.
  refine (call_requests ToResilience method path _ body _ (fun rep => resilience_refusal (hp_status rep))
    (fun rep => require (sch (body_of rep)) resilience_unavailable) _ _ _ (fun rep => silent_require _ _) _); [done|].
  intros rep s a s'. unfold require. destruct (sch _); [|done]. by intros [= <- _].
Qed.

(** A call of Ledger or Payments, whichever way it went. *)
Record DomainCall := mkDomainCall { dm_method : string; dm_path : string; dm_body : option json; dm_customer : option string }.
Definition domain_call (e : Event) : option DomainCall :=
  match e with
  | Called c _ =>
      match gc_to c with
      | ToLedger | ToPayments => Some (mkDomainCall (gc_method c) (gc_path c) (gc_body c) (jget "x-aegis-customer-id" (gc_headers c)))
      | _ => None
      end
  | Sealed c _ => let q := sd_request c in Some (mkDomainCall (iq_method q) (iq_path q) (iq_body q) (default None (iq_actor q)))
  end.
Definition to_domain (c : DomainClient) : Prop := dc_to c = ToLedger \/ dc_to c = ToPayments.
(** The call that a domain client makes for these arguments. *)
Definition asks (path method : string) (body : json) (customerId : option string) (e : Event) : Prop :=
  exists d, domain_call e = Some d /\ dm_method d = method /\ dm_path d = path /\
    match e with
    | Called _ _ => dm_body d = (if String.eqb method "POST" then Some (or_empty body) else None) /\ dm_customer d = header_text customerId
    | Sealed _ _ => dm_body d = match body with JUndef => None | v => Some v end /\ dm_customer d = truthy_string customerId
    end.
(** An answer that the client returns as [v]. *)
Definition gave (sch : schema) (v : json) (e : Event) : Prop :=
  match e with
  | Called _ (Some rep) => reply_ok rep = true /\ sch (body_of rep) = Some v
  | Sealed _ (Ok resp) => ir_status resp < 400 /\ sch (default JUndef (ir_body resp)) = Some v
  | _ => False
  end.
Definition is_sealed (e : Event) : Prop := match e with Sealed _ _ => True | Called _ _ => False end.
Definition domain_spec (path method : string) (sch : schema) (body : json) (customerId : option string) (strict_only : bool)
  (res : result GwErr json) (new : list Event) : Prop :=
  Forall (asks path method body customerId) new /\ (strict_only = true -> Forall is_sealed new) /\
  (forall v, res = Ok v -> exists before e, new = before ++ [e] /\ gave sch v e).
Lemma direct_does c path method sch r body customerId : to_domain c ->
  does (requestDirect c path method sch r body customerId) (domain_spec path method sch body customerId false).
Proof.
  intros Hc.
  assert (Hr : requests (requestDirect c path method sch r body customerId)
    (fun k => asks path method body customerId (Called k None)) (fun rep v => sch (body_of rep) = Some v)).
  { refine (call_requests (dc_to c) method path _ body _ (fun rep => HttpException (hp_status rep) (or_json (body_of rep) (dc_empty c)))
      (fun rep => accepted_body c sch (body_of rep)) _ _ _ (fun rep => silent_require _ _) _).
    - intros hs Hhs. unfold asks, domain_call. cbn [gc_to gc_method gc_path gc_headers gc_body].
      assert (Hh : jget "x-aegis-customer-id" hs = header_text customerId).
      { rewrite (jget_sent _ _ _ Hhs), !jget_headers, !jget_present. cbn. unfold header_text. by destruct (truthy_string customerId). }
      destruct Hc as [-> | ->]; eauto 8.
    - intros rep s a s'. unfold accepted_body, require. destruct (sch _); [|done]. by intros [= <- _]. }
  intros s. destruct (Hr s) as (new & Hnew & Hres). exists new. split; [done|].
  destruct Hres as [[-> [e He]]|(k & reply & (d & Hd) & -> & Hok)].
  - split_and!; [constructor|done|intros v Hv; congruence].
  - split_and!; [|done|].
    + constructor; [|constructor]. by exists d.
    + intros v Hv. destruct (Hok v Hv) as (rep & -> & Hrep & Hs). by exists [], (Called k (Some rep)).
Qed.
Lemma domain_spec_weaken path method sch body customerId b res new :
  domain_spec path method sch body customerId b res new -> domain_spec path method sch body customerId false res new.
Proof. unfold domain_spec. naive_solver. Qed.
(** What comes after the sealed call. *)
Definition after_sealed (c : DomainClient) (path method : string) (sch : schema) (r : GwRequest) (body : json) (customerId : option string)
  (answer : Sabcl SabclInnerResponse) : GwM json :=
  match answer with
  | Ok response =>
      let body := default JUndef (ir_body response) in
      _ ← throw_when (400 <=? ir_status response) (HttpException (ir_status response) (or_json body (dc_empty c)));
      accepted_body c sch body
  | Err (SabclError _) =>
      if sabcl_strict mode then throw (unavailable (dc_outage c)) else requestDirect c path method sch r body customerId
  | Err _ => throw (unavailable (dc_outage c))
  end.
Lemma after_sealed_does c path method sch r body customerId answer : to_domain c ->
  does (after_sealed c path method sch r body customerId answer) (fun res new =>
    domain_spec path method sch body customerId (sabcl_strict mode) res new \/
    new = [] /\ exists resp v, answer = Ok resp /\ res = Ok v /\ ir_status resp < 400 /\ sch (default JUndef (ir_body resp)) = Some v).
Proof.
  intros Hc s. assert (Hnone : forall e, exists new, events s = events s ++ new /\
    (domain_spec path method sch body customerId (sabcl_strict mode) (Err e) new \/ new = [] /\ exists resp v, answer = Ok resp /\ Err e = Ok v
      /\ ir_status resp < 400 /\ sch (default JUndef (ir_body resp)) = Some v)).
  { intros e. exists []. rewrite app_nil_r. split; [done|]. left. by split_and!. }
  destruct answer as [resp|[c'|n]]; unfold after_sealed; try apply Hnone.
  - unfold mbind, M_bind, throw_when. destruct (400 <=? ir_status resp) eqn:Hs; cbn; [apply Hnone|].
    unfold accepted_body, require. destruct (sch _) as [v|] eqn:Hv; cbn; [|apply Hnone].
    exists []. rewrite app_nil_r. split; [done|]. right. split; [done|]. exists resp, v. split_and!; [done|done|lia|done].
  - destruct (sabcl_strict mode); [apply Hnone|]. destruct (direct_does c path method sch r body customerId Hc s) as (new & Hn & Hsp). eauto.
Qed.
Lemma after_prefix path method sch body customerId b res pre new : Forall (asks path method body customerId) pre -> Forall is_sealed pre ->
  domain_spec path method sch body customerId b res new -> domain_spec path method sch body customerId b res (pre ++ new).
Proof.
  intros Hp Hs (Ha & Hstrict & Hok). split_and!.
  - by apply Forall_app.
  - intros Hb. apply Forall_app. auto.
  - intros v Hv. destruct (Hok v Hv) as (before & e & -> & Hg). exists (pre ++ before), e. by rewrite app_assoc.
Qed.
Lemma domain_does c path method sch r body customerId : to_domain c ->
  does (domain_request mode c path method sch r body customerId) (domain_spec path method sch body customerId (sabcl_strict mode)).
Proof.
  intros Hc s. unfold domain_request, sabcl_enabled. destruct mode as [m|] eqn:Hm; cbn [sabcl_strict].
  2: { rewrite bool_decide_eq_false_2 by (by intros [? ?]). by apply direct_does. }
  rewrite bool_decide_eq_true_2 by eauto. unfold requestThroughSabcl. set (o := mkCallOptions _ _ _ _ _ _ _).
  change (match m with strict => true | _ => false end) with (sabcl_strict (Some m)). rewrite <- Hm.
  assert (Hk : forall answer st, exists new, events (after_sealed c path method sch r body customerId answer st).2 = events st ++ new /\
    (domain_spec path method sch body customerId (sabcl_strict mode) (after_sealed c path method sch r body customerId answer st).1 new \/
     new = [] /\ exists resp v, answer = Ok resp /\ (after_sealed c path method sch r body customerId answer st).1 = Ok v
       /\ ir_status resp < 400 /\ sch (default JUndef (ir_body resp)) = Some v)) by (intros answer; by apply after_sealed_does).
  unfold mbind, M_bind, sabcl_call. rewrite Hm. destruct (route_of (so_capability o)) as [e|].
  - unfold network. cbn [sabcl_send traced]. set (sc := mkSealedCall _ _ _). destruct (sabcl_send sc (tr_env (gs_env s))) as [answer env].
    set (s1 := mkGwState _ _ _ _ _). destruct (Hk answer s1) as (new & Hnew & Hres). rewrite <- Hm.
    exists ([Sealed sc answer] ++ new). split; [refine (eq_trans Hnew _); unfold events; cbn; by rewrite <- app_assoc|].
    assert (Hone : Forall (asks path method body customerId) [Sealed sc answer]).
    { constructor; [|constructor]. eexists. split; [reflexivity|]. split_and!; [done|done|by destruct body|]. change (default None (Some <$> truthy_string customerId) = truthy_string customerId).
      by destruct (truthy_string customerId). }
    assert (Hsl : Forall is_sealed [Sealed sc answer]) by (by constructor).
    destruct Hres as [Hres|(-> & resp & v & -> & Hv & Hst & Hs)]; [by apply after_prefix|].
    change (domain_spec path method sch body customerId (sabcl_strict mode) (after_sealed c path method sch r body customerId (Ok resp) s1).1 ([Sealed sc (Ok resp)] ++ [])).
    rewrite Hv. split_and!; [done|done|]. intros v' [= <-]. by exists [], (Sealed sc (Ok resp)).
  - exists []. rewrite app_nil_r. split; [done|]. by split_and!.
Qed.
End ClientCalls.
End Traces.
