(* ===== verification/GatewayProperties.v ===== *)
(** * The guarantees of the gateway: no transfer without the session, the
    controls, the PIN and the risk decision; one customer per request; no
    mutation without its CSRF token; no plaintext beside a strict SABCL; answers
    that keep to their contracts; budgets of requests *)

From Stdlib Require Import ZArith Lia Ascii String.
From stdpp Require Import base strings list.
From S2P Require Import Prelude.
From S2P Require Import Js.
From S2P Require Import Codec.
From S2P Require Import JsNumber.
From S2P Require Import Regex.
From S2P Require Import Contracts.
From S2P Require Import Security.
From S2P Require Import Services.
From S2P Require Import RiskTypes.
From S2P Require Import LedgerDb.
From S2P Require Import RiskService.
From S2P Require Import SabclWire.
From S2P Require Import SabclCrypto.
From S2P Require Import SabclServices.
From S2P Require Import Schemas.
From S2P Require Import WireContracts.
From S2P Require Import GatewayHttp.
From S2P Require Import Gateway.
From S2P Require Import GatewayRoutes.
From S2P Require Import GatewayServer.
From S2P Require Import GatewayProofs.

Open Scope Z_scope.

Section Consulting.
Context {Env : Type} {zod : Zod} {crypto : Crypto} {pg : Postgres} {upstreams : Upstreams Env}.
Abbreviation GwM := (M (GwState (Traced Env)) GwErr).

(** ** Calls of other services than Ledger and Payments *)
Definition elsewhere (e : Event) : Prop := domain_call e = None.
(** All the calls of [m] satisfy [ok]. *)
Definition emits (ok : Event -> Prop) {A} (m : GwM A) : Prop := does m (fun _ new => Forall ok new).
Abbreviation quiet := (emits elsewhere).
(** One such call, whose event [V] relates to the result. *)
Definition consults {A} (m : GwM A) (V : A -> Event -> Prop) : Prop :=
  does m (fun res new => Forall elsewhere new /\ forall a, res = Ok a -> exists e, new = [e] /\ V a e).
Lemma silent_emits ok {A} (m : GwM A) : silent m -> emits ok m.
Proof. intros Hm s. exists []. by rewrite app_nil_r. Qed.
Lemma emits_weaken (ok ok' : Event -> Prop) {A} (m : GwM A) : emits ok m -> (forall e, ok e -> ok' e) -> emits ok' m.
Proof. intros Hm Hok s. destruct (Hm s) as (new & Hn & Hq). exists new. split; [done|]. by eapply Forall_impl. Qed.
Lemma consults_quiet {A} (m : GwM A) V : consults m V -> quiet m.
Proof. intros Hm s. destruct (Hm s) as (new & Hn & Hq & _). eauto. Qed.
(** A second computation in the state the first one left. *)
Lemma emits_then (ok : Event -> Prop) {A B} (m : GwM A) (f : GwM B) s : emits ok m -> emits ok f ->
  exists new, events (f (m s).2).2 = events s ++ new /\ Forall ok new.
Proof.
  intros Hm Hf. destruct (Hm s) as (new & Hn & Hq). destruct (Hf (m s).2) as (new' & Hn' & Hq').
  exists (new ++ new'). rewrite Hn', Hn, app_assoc. split; [done|]. by apply Forall_app.
Qed.
Lemma emits_bind_run (ok : Event -> Prop) {A B} (m : GwM A) (k : A -> GwM B) : emits ok m ->
  (forall a s s', m s = (Ok a, s') -> emits ok (k a)) -> emits ok (m ≫= k).
Proof.
  intros Hm Hk s. unfold mbind, M_bind. destruct (m s) as [[a|e] s1] eqn:Hrun.
  - destruct (emits_then ok m (k a) s Hm (Hk _ _ _ Hrun)) as (new & Hn & Hq). rewrite Hrun in Hn. eauto.
  - destruct (Hm s) as (new & Hn & Hq). rewrite Hrun in Hn. eauto.
Qed.
Lemma emits_bind (ok : Event -> Prop) {A B} (m : GwM A) (k : A -> GwM B) : emits ok m -> (forall a, emits ok (k a)) -> emits ok (m ≫= k).
Proof. intros Hm Hk. apply emits_bind_run; auto. Qed.
Lemma emits_catch (ok : Event -> Prop) {A} (m : GwM A) h : emits ok m -> (forall e, emits ok (h e)) -> emits ok (try_catch m h).
Proof.
  intros Hm Hh s. unfold try_catch. destruct (m s) as [[a|e] s1] eqn:Hrun.
  - destruct (Hm s) as (new & Hn & Hq). rewrite Hrun in Hn. eauto.
  - destruct (emits_then ok m (h e) s Hm (Hh e)) as (new & Hn & Hq). rewrite Hrun in Hn. eauto.
Qed.
Lemma emits_finally (ok : Event -> Prop) {A} (m : GwM A) f : emits ok m -> emits ok f -> emits ok (finally m f).
Proof.
  intros Hm Hf s. destruct (emits_then ok m f s Hm Hf) as (new & Hn & Hq). exists new. unfold finally.
  destruct (m s) as [x s1]. cbn in Hn. by destruct (f s1) as [[u|e] s2].
Qed.
Lemma requests_consults {A} (m : GwM A) C V : requests m C V -> (forall c, C c -> elsewhere (Called c None)) ->
  consults m (fun a e => exists c rep, e = Called c (Some rep) /\ C c /\ reply_ok rep = true /\ V rep a).
Proof.
  intros Hm HC s. destruct (Hm s) as (new & Hn & [[-> [x Hx]]|(c & reply & Hc & -> & Hok)]); eexists; (split; [exact Hn|]).
  - split; [constructor|]. intros a Ha. congruence.
  - split; [by constructor; [apply (HC c Hc)|constructor]|]. intros a Ha. destruct (Hok a Ha) as (rep & -> & ? & ?). eauto 10.
Qed.
Lemma consults_after {A B} (m : GwM A) (k : A -> GwM B) V W : consults m V -> (forall a, silent (k a)) ->
  (forall a e s b s', V a e -> k a s = (Ok b, s') -> W b e) -> consults (m ≫= k) W.
Proof.
  intros Hm Hk HW s. destruct (Hm s) as (new & Hn & Hq & Hv). unfold mbind, M_bind. destruct (m s) as [[a|x] s1]; cbn in Hn, Hv.
  - exists new. rewrite (Hk a s1), Hn. split; [done|]. split; [done|]. intros b Hb. destruct (Hv a eq_refl) as (e & -> & He).
    exists e. split; [done|]. destruct (k a s1) as [res s2] eqn:Hrun. cbn in Hb. subst res. eauto.
  - exists new. split; [done|]. split; [done|]. by intros b.
Qed.
Lemma silent_consults {A B} (m : GwM A) (k : A -> GwM B) V : silent m ->
  (forall s a s', m s = (Ok a, s') -> consults (k a) V) -> consults (m ≫= k) V.
Proof.
  intros Hm Hk s. pose proof (Hm s) as He. unfold mbind, M_bind. destruct (m s) as [[a|x] s1] eqn:Hrun; cbn in He.
  - destruct (Hk _ _ _ Hrun s1) as (new & Hn & Hq). exists new. by rewrite Hn, He.
  - exists []. rewrite app_nil_r. split; [done|]. split; [constructor|]. by intros b.
Qed.
Lemma silent_bind {A B} (m : GwM A) (k : A -> GwM B) : silent m -> (forall a, silent (k a)) -> silent (m ≫= k).
Proof. intros Hm Hk s. pose proof (Hm s) as He. unfold mbind, M_bind. destruct (m s) as [[a|x] s1]; cbn in He; [by rewrite Hk, He|done]. Qed.
Lemma silent_throw_when b e : silent (throw_when b e : GwM unit).
Proof. by intros s; destruct b. Qed.
Lemma silent_lift {A} (x : result GwErr A) : silent (lift_result x : GwM A).
Proof. by intros s. Qed.
Lemma silent_throw {A} e : silent (throw e : GwM A).
Proof. by intros s. Qed.
Lemma silent_uuid : silent (randomUUID : GwM string).
Proof. by intros s. Qed.

Section Clients.
Variable config : GatewayConfig.
Variable mode : option SabclMode.
Variable now : Z.
Variable r : GwRequest.
(** Identity named [customerId] as the user of the session. *)
Definition session_answer (sessionId customerId : string) (e : Event) : Prop :=
  exists c rep v, e = Called c (Some rep) /\ identity_call "/api/v1/auth/session" "GET" JUndef (Some sessionId) c /\ reply_ok rep = true /\
    sessionResponseSchema (body_of rep) = Some v /\ text_field "id" (jfield "user" v) = Some customerId.
Definition session_of (sessionId : string) : Prop := readCookie (gq_cookie r) (sessionCookieName config) = Some sessionId /\ sessionId <> ""%string.
Lemma resolve_consults :
  consults (resolve config r) (fun customerId e => exists sessionId, session_of sessionId /\ session_answer sessionId customerId e).
Proof.
  apply silent_consults; [apply silent_cookie|]. intros s sid s' Hsid.
  assert (Hcookie : readCookie (gq_cookie r) (sessionCookieName config) = Some sid).
  { unfold cookie, require in Hsid. destruct (readCookie _ _); [|done]. by injection Hsid as <-. }
  apply silent_consults; [apply silent_throw_when|]. intros s1 [] s2 Hne.
  assert (sid <> ""%string).
  { intros ->. discriminate Hne. }
  eapply consults_after.
  - apply (requests_consults _ _ _ (identity_requests config "/api/v1/auth/session" "GET" r JUndef (Some sid) None)).
    intros c (Hto & _). unfold elsewhere, domain_call. by rewrite Hto.
  - intros a. apply silent_bind; [apply silent_require|intros; apply silent_require].
  - intros a e s3 b s4 (c & rep & -> & Hc & Hok & ->) Hrun. cbn in Hrun.
    apply bind_Ok_inv in Hrun as (v & s5 & Hv & Hrun). unfold require in Hv, Hrun.
    destruct (sessionResponseSchema (body_of rep)) as [w|] eqn:Hw; [|done]. injection Hv as <- <-.
    destruct (text_field "id" _) as [id|] eqn:Hid; [|done]. injection Hrun as <- _. exists sid. split; [done|]. exists c, rep, w. done.
Qed.
Definition risk_answer (path : string) (sch : schema) (v : json) (e : Event) : Prop :=
  exists c rep body, e = Called c (Some rep) /\ risk_call "POST" path body c /\ reply_ok rep = true /\ sch (body_of rep) = Some v.
Lemma risk_elsewhere method path body c : risk_call method path body c -> elsewhere (Called c None).
Proof. intros (Hto & _). unfold elsewhere, domain_call. by rewrite Hto. Qed.
Lemma risk_parsed path body sch :
  consults (v ← risk_request config path "POST" r body None; parsed sch v) (risk_answer path sch).
Proof.
  eapply consults_after.
  - apply (requests_consults _ _ _ (risk_requests config path "POST" r body None)). intros c. apply risk_elsewhere.
  - intros a. apply silent_require.
  - intros a e s b s' (c & rep & -> & Hc & Hok & ->) Hrun. unfold parsed, require in Hrun. destruct (sch _) as [w|] eqn:Hw; [|done].
    injection Hrun as <- _. exists c, rep, body. done.
Qed.
Lemma check_consults operation scopes :
  consults (risk_check config r operation scopes) (risk_answer "/internal/v1/controls/check" controlCheckResponseSchema).
Proof. apply risk_parsed. Qed.
Lemma evaluate_consults operation subjectId sessionId verified :
  consults (risk_evaluate config now r operation subjectId sessionId verified) (risk_answer "/internal/v1/assessments/evaluate" riskAssessmentSchema).
Proof. apply silent_consults; [apply silent_uuid|]. intros s id s' _. apply risk_parsed. Qed.
Lemma emit_quiet e : quiet (risk_emit config now r e).
Proof.
  unfold risk_emit. apply emits_bind; [apply silent_emits, silent_uuid|intros eventId].
  apply emits_bind; [apply silent_emits, silent_uuid|intros sourceId]. apply emits_bind; [apply silent_emits, silent_throw_when|intros _].
  apply emits_bind; [|intros _; apply silent_emits, ret_silent].
  intros s. destruct (call_does ToRisk "POST" "/internal/v1/events" [("content-type", "application/json"); ("x-aegis-source-token", riskGatewaySourceToken config)]%string
    (JObj ([("schemaVersion", JStr "1.0"); ("eventId", JStr eventId); ("source", JStr "GATEWAY"); ("sourceEventId", JStr ("gateway:" +:+ sourceId));
            ("eventType", JStr (em_eventType e)); ("severity", JStr (em_severity e)); ("occurredAt", JStr (toISOString now))]
           ++ optional_field "subjectId" (em_subjectId e) ++ optional_field "accountId" (em_accountId e) ++ optional_field "sessionId" (em_sessionId e)
           ++ [("correlationId", JStr (gq_correlationId r)); ("attributes", JObj (em_attributes e))]))%string s) as (new & Hn & Hev).
  exists new. split; [done|]. destruct Hev as [[_ ->]|(hs & reply & _ & _ & ->)]; [constructor|]. by repeat constructor.
Qed.

(** ** Histories that contain some answers, in order, and no transfer yet *)
Definition confirms (e : Event) : Prop := exists d, domain_call e = Some d /\ dm_path d = PAYMENTS_ENDPOINTS.confirm.
Definition inv (l h : list Event) : Prop := Forall (fun e => ~ confirms e) h /\ l `sublist_of` h.
Lemma elsewhere_confirms e : elsewhere e -> ~ confirms e.
Proof. unfold elsewhere. intros He (d & Hd & _). congruence. Qed.
Lemma inv_app l h new : inv l h -> Forall (fun e => ~ confirms e) new -> inv l (h ++ new).
Proof. intros [H1 H2] Hn. split; [by apply Forall_app|]. by apply sublist_inserts_r. Qed.
Lemma inv_snoc l h e : inv l h -> ~ confirms e -> inv (l ++ [e]) (h ++ [e]).
Proof. intros [H1 H2] Hn. split; [apply Forall_app; split; [done|by constructor]|]. by apply sublist_app. Qed.
Lemma inv_quiet {A} l (m : GwM A) : quiet m -> preserves (fun s => inv l (events s)) m.
Proof.
  intros Hm. apply (does_preserves m _ (inv l) Hm). intros h new res Hh Hn. apply inv_app; [done|].
  eapply Forall_impl; [exact Hn|]. intros e. apply elsewhere_confirms.
Qed.
(** A step of a chain of answers. *)
Lemma chain_consults {A B} l (m : GwM A) (k : A -> GwM B) V Q (R : list Event -> Prop) : consults m V -> (forall h, inv l h -> R h) ->
  (forall a e, V a e -> triple (fun s => inv (l ++ [e]) (events s)) (k a) Q (fun _ s => R (events s))) ->
  triple (fun s => inv l (events s)) (m ≫= k) Q (fun _ s => R (events s)).
Proof.
  intros Hm HR Hk s Hs. destruct (Hm s) as (new & Hn & Hq & Hv). unfold mbind, M_bind.
  assert (Hnew : Forall (fun e => ~ confirms e) new) by (eapply Forall_impl; [exact Hq|]; intros e; apply elsewhere_confirms).
  destruct (m s) as [[a|x] s1]; cbn in Hn, Hv.
  - destruct (Hv a eq_refl) as (e & -> & He). apply (Hk a e He). rewrite Hn. apply inv_snoc; [done|]. by inversion Hnew.
  - rewrite Hn. apply HR. by apply inv_app.
Qed.
Lemma chain_silent {A B} l (m : GwM A) (k : A -> GwM B) Q (R : list Event -> Prop) : silent m -> (forall h, inv l h -> R h) ->
  (forall a s s', m s = (Ok a, s') -> triple (fun s => inv l (events s)) (k a) Q (fun _ s => R (events s))) ->
  triple (fun s => inv l (events s)) (m ≫= k) Q (fun _ s => R (events s)).
Proof.
  intros Hm HR Hk s Hs. pose proof (Hm s) as He. unfold mbind, M_bind. destruct (m s) as [[a|x] s1] eqn:Hrun; cbn in He.
  - apply (Hk _ _ _ Hrun). by rewrite He.
  - rewrite He. auto.
Qed.
Lemma chain_quiet {A B} l (m : GwM A) (k : A -> GwM B) Q (R : list Event -> Prop) : quiet m -> (forall h, inv l h -> R h) ->
  (forall a s s', m s = (Ok a, s') -> triple (fun s => inv l (events s)) (k a) Q (fun _ s => R (events s))) ->
  triple (fun s => inv l (events s)) (m ≫= k) Q (fun _ s => R (events s)).
Proof.
  intros Hm HR Hk s Hs. destruct (Hm s) as (new & Hn & Hq). unfold mbind, M_bind.
  assert (Hnew : inv l (events s ++ new)).
  { apply inv_app; [done|]. eapply Forall_impl; [exact Hq|]. intros e. apply elsewhere_confirms. }
  destruct (m s) as [[a|x] s1] eqn:Hrun; cbn in Hn; rewrite <- Hn in Hnew; [by apply (Hk _ _ _ Hrun)|auto].
Qed.
Lemma asks_confirms path method body customerId e : asks path method body customerId e -> confirms e -> path = PAYMENTS_ENDPOINTS.confirm.
Proof. intros (d & Hd & _ & Hp & _) (d' & Hd' & Hp'). congruence. Qed.
Lemma chain_domain {B} l c path method sch body customerId (k : json -> GwM B) Q (R : list Event -> Prop) : to_domain c ->
  path <> PAYMENTS_ENDPOINTS.confirm -> (forall h, inv l h -> R h) ->
  (forall v e, asks path method body customerId e -> gave sch v e -> triple (fun s => inv (l ++ [e]) (events s)) (k v) Q (fun _ s => R (events s))) ->
  triple (fun s => inv l (events s)) (domain_request mode c path method sch r body customerId ≫= k) Q (fun _ s => R (events s)).
Proof.
  intros Hc Hp HR Hk s Hs. destruct (domain_does mode c path method sch r body customerId Hc s) as (new & Hn & Ha & _ & Hv).
  unfold mbind, M_bind. assert (Hnew : Forall (fun e => ~ confirms e) new).
  { eapply Forall_impl; [exact Ha|]. intros e He Hcf. by apply Hp, (asks_confirms _ _ _ _ _ He). }
  destruct (domain_request _ _ _ _ _ _ _ _ s) as [[v|x] s1]; cbn in Hn, Hv.
  - destruct (Hv v eq_refl) as (before & e & -> & He). apply Forall_app in Ha as [_ [Ha _]%Forall_cons_1].
    apply (Hk v e Ha He). rewrite Hn, app_assoc. apply Forall_app in Hnew as [Hb Hl]. apply inv_snoc; [by apply inv_app|].
    by inversion Hl.
  - rewrite Hn. apply HR. by apply inv_app.
Qed.

(** ** What must come before a transfer *)
Definition identity_answer (endpoint sessionId : string) (body : json) (e : Event) : Prop :=
  exists c rep, e = Called c (Some rep) /\ identity_call endpoint "POST" body (Some sessionId) c /\ reply_ok rep = true.
Definition allowing : list string := ["ALLOW"; "ALLOW_WITH_MONITORING"].
(** In this order: Identity names the session's user, Risk finds no active
    control, Identity accepts the PIN, Risk's decision allows the transfer, and
    Payments takes the authorization of the intent; the transfer is of that
    customer and of that intent. *)
Record clearance (before : list Event) (e : Event) : Prop := {
  cl_csrf : exists token, requireCsrfToken (gq_cookie r) (csrfCookieName config) (gq_csrf r) = Ok token;
  cl_answers : exists customerId sessionId pin token body active assessment e1 e2 e3 e4 e5,
    session_of sessionId /\ session_answer sessionId customerId e1 /\
    risk_answer "/internal/v1/controls/check" controlCheckResponseSchema active e2 /\ jfield "allowed" active = JBool true /\
    identity_answer IDENTITY_ENDPOINTS.transferStepUp sessionId (JObj [("pin", JStr pin)])%string e3 /\
    risk_answer "/internal/v1/assessments/evaluate" riskAssessmentSchema assessment e4 /\ text "decision" assessment ∈ allowing /\
    asks (PAYMENTS_ENDPOINTS.authorize token) "POST" (JObj []) (Some customerId) e5 /\ gave zod_undefined JUndef e5 /\
    [e1; e2; e3; e4; e5] `sublist_of` before /\
    asks PAYMENTS_ENDPOINTS.confirm "POST" body None e /\
    jfield "senderCustomerId" body = JStr customerId /\ jfield "intentToken" body = JStr token
}.
Definition guarded (h : list Event) : Prop := forall before e after, h = before ++ e :: after -> confirms e -> clearance before e.
Lemma inv_guarded l h : inv l h -> guarded h.
Proof. intros [Hn _] before e after -> He. apply Forall_app in Hn as [_ [Hc _]%Forall_cons_1]. done. Qed.
Lemma guarded_app h new : guarded h -> Forall (fun e => ~ confirms e) new -> guarded (h ++ new).
Proof.
  intros Hh Hn before e after Heq He. destruct (decide (length before < length h)%nat) as [Hlt|Hge].
  - assert (Hb : take (length before) h = before).
    { rewrite <- (take_app_le _ new) by lia. by rewrite Heq, take_app_length. }
    assert (Hl : h !! length before = Some e) by (rewrite <- (lookup_app_l _ new) by done; by rewrite Heq, list_lookup_middle).
    apply (Hh before e (drop (S (length before)) h)); [|done]. by rewrite <- Hb at 1; rewrite take_drop_middle.
  - assert (Hl : (h ++ new) !! length before = Some e) by (by rewrite Heq, list_lookup_middle).
    rewrite lookup_app_r in Hl by lia. apply list_elem_of_lookup_2 in Hl. rewrite Forall_forall in Hn. by apply Hn in Hl.
Qed.
Lemma triple_assoc {A B C} P (m : GwM A) (k : A -> GwM B) (k' : B -> GwM C) Q R :
  triple P (m ≫= fun a => k a ≫= k') Q R -> triple P ((m ≫= k) ≫= k') Q R.
Proof. intros Ht s Hs. specialize (Ht s Hs). unfold mbind, M_bind in *. by destruct (m s) as [[a|e] s1]. Qed.
Lemma triple_ret_l {A B} P (a : A) (k : A -> GwM B) Q R : triple P (k a) Q R -> triple P (mret a ≫= k) Q R.
Proof. done. Qed.
Lemma csrf_quiet customerId : quiet (transfer_csrf config now r customerId).
Proof.
  apply emits_catch; [apply silent_emits, silent_lift|intros e]. apply emits_bind; [apply emit_quiet|intros; apply silent_emits, silent_throw].
Qed.
Lemma csrf_accepted customerId (s : GwState (Traced Env)) token s' : transfer_csrf config now r customerId s = (Ok token, s') ->
  requireCsrfToken (gq_cookie r) (csrfCookieName config) (gq_csrf r) = Ok token.
Proof.
  unfold transfer_csrf, try_catch, csrf, lift_result. destruct (requireCsrfToken _ _ _) as [t|e]; [by intros [= <- _]|].
  unfold mbind, M_bind. by destruct (risk_emit _ _ _ _ _) as [[u|x] s1].
Qed.
Lemma payments_domain : to_domain (payments config).
Proof. by right. Qed.
Lemma authorize_not_confirm token : PAYMENTS_ENDPOINTS.authorize token <> PAYMENTS_ENDPOINTS.confirm.
Proof. discriminate. Qed.
Lemma blocked_quiet {A} customerId sessionId severity outcome : quiet (confirmation_blocked (A := A) config now r customerId sessionId severity outcome).
Proof. apply emits_bind; [apply emit_quiet|intros; apply silent_emits, silent_throw]. Qed.
Lemma blocked_throws {A} customerId sessionId severity outcome (s : GwState (Traced Env)) (a : A) s' :
  confirmation_blocked config now r customerId sessionId severity outcome s <> (Ok a, s').
Proof. unfold confirmation_blocked, mbind, M_bind. by destruct (risk_emit _ _ _ _ _) as [[u|x] s1]. Qed.
(** The checks, with the evidence they leave. *)
Lemma checks_chain {B} l customerId sessionId pin (k : json -> GwM B) Q :
  (forall active assessment e2 e3 e4, risk_answer "/internal/v1/controls/check" controlCheckResponseSchema active e2 -> jfield "allowed" active = JBool true ->
    identity_answer IDENTITY_ENDPOINTS.transferStepUp sessionId (JObj [("pin", JStr pin)])%string e3 ->
    risk_answer "/internal/v1/assessments/evaluate" riskAssessmentSchema assessment e4 -> text "decision" assessment ∈ allowing ->
    triple (fun s => inv (l ++ [e2; e3; e4]) (events s)) (k assessment) Q (fun _ s => guarded (events s))) ->
  triple (fun s => inv l (events s)) (confirm_checks config now r customerId sessionId pin ≫= k) Q (fun _ s => guarded (events s)).
Proof.
  intros Hk. unfold confirm_checks.
  apply triple_assoc, (chain_consults _ _ _ _ _ _ (check_consults _ _) (inv_guarded _)). intros active e2 H2.
  apply triple_assoc, chain_quiet; [destruct (jfield "allowed" active) as [| |[]| | | |]; first [apply blocked_quiet|apply silent_emits, ret_silent]|apply inv_guarded|].
  intros u s s' Hallowed.
  assert (Ha : jfield "allowed" active = JBool true).
  { destruct (jfield "allowed" active) as [| |[]| | | |]; try done; by apply blocked_throws in Hallowed. }
  eapply triple_assoc, chain_consults; [|apply inv_guarded|].
  { apply (requests_consults _ _ _ (identity_requests config _ "POST" r _ _ _)). intros c (Hto & _). unfold elsewhere, domain_call. by rewrite Hto. }
  intros v e3 (c & rep & -> & Hc & Hok & _).
  apply triple_assoc, (chain_consults _ _ _ _ _ _ (evaluate_consults _ _ _ _) (inv_guarded _)). intros assessment e4 H4.
  apply triple_assoc, chain_quiet; [destruct (existsb _ _); first [apply blocked_quiet|apply silent_emits, ret_silent]|apply inv_guarded|].
  intros u' s1 s1' Hdecided.
  assert (Hd : text "decision" assessment ∈ allowing).
  { destruct (existsb _ _) eqn:Hex in Hdecided; [|by apply blocked_throws in Hdecided].
    apply existsb_exists in Hex as (x & Hx & ->%String.eqb_eq). by apply list_elem_of_In. }
  apply triple_ret_l. rewrite <- !app_assoc. apply (Hk active assessment e2 _ e4); try done. by exists c, rep.
Qed.
Lemma internal_fields c v k body :
  internalTransferConfirmationSchema (JObj [("senderCustomerId", JStr c); ("intentToken", v); ("idempotencyKey", JStr k)])%string = Some body ->
  exists t, v = JStr t /\ jfield "senderCustomerId" body = JStr c /\ jfield "intentToken" body = JStr t.
Proof.
  unfold internalTransferConfirmationSchema, zod_object. cbn [others List.filter named existsb fst negb String.eqb Ascii.eqb Bool.eqb orb].
  intros (fs & Hfs & ->)%fmap_Some. cbn [parse_fields] in Hfs.
  apply bind_Some in Hfs as (a & Ha & (b & Hb & [= <-])%bind_Some). apply bind_Some in Hb as (b1 & Hb1 & (b2 & _ & [= <-])%bind_Some).
  unfold parse_field in Ha, Hb1. cbn in Ha, Hb1. unfold checked in Ha. destruct (z_uuid c); [|done]. injection Ha as <-.
  destruct v as [| | | |t| |]; try done. unfold intent_token, zod_text in Hb1. destruct (opaqueIntentTokenSchema t) as [t'|] eqn:Ht; [|done].
  injection Hb1 as <-. exists t. split_and!; [done|done|]. cbn. f_equal.
  unfold opaqueIntentTokenSchema, z_regex in Ht. destruct (rx_match _ _); [|done]. by injection Ht as <-.
Qed.
Lemma confirm_call l customerId sessionId pin token body active assessment key e1 e2 e3 e4 e5 (k : json -> GwM json) :
  session_of sessionId -> session_answer sessionId customerId e1 ->
  (exists csrfToken, requireCsrfToken (gq_cookie r) (csrfCookieName config) (gq_csrf r) = Ok csrfToken) ->
  risk_answer "/internal/v1/controls/check" controlCheckResponseSchema active e2 -> jfield "allowed" active = JBool true ->
  identity_answer IDENTITY_ENDPOINTS.transferStepUp sessionId (JObj [("pin", JStr pin)])%string e3 ->
  risk_answer "/internal/v1/assessments/evaluate" riskAssessmentSchema assessment e4 -> text "decision" assessment ∈ allowing ->
  asks (PAYMENTS_ENDPOINTS.authorize (text "intentToken" token)) "POST" (JObj []) (Some customerId) e5 -> gave zod_undefined JUndef e5 ->
  internalTransferConfirmationSchema (JObj [("senderCustomerId", JStr customerId); ("intentToken", jfield "intentToken" token); ("idempotencyKey", JStr key)])%string
    = Some body -> l = [e1; e2; e3; e4; e5] -> (forall v, quiet (k v)) ->
  triple (fun s => inv l (events s)) (payments_request config mode PAYMENTS_ENDPOINTS.confirm "POST" transferDetailSchema r body None ≫= k)
    (fun _ s => guarded (events s)) (fun _ s => guarded (events s)).
Proof.
  intros H0 H1 Hcsrf H2 Ha H3 H4 Hd H5 Hg Hbody -> Hk s [Hquiet Hsub].
  destruct (internal_fields _ _ _ _ Hbody) as (t & Htok & Hsender & Hintent).
  assert (Ht : text "intentToken" token = t) by (unfold text, text_field; by rewrite Htok). rewrite Ht in H5.
  destruct (domain_does mode _ PAYMENTS_ENDPOINTS.confirm "POST" transferDetailSchema r body None payments_domain s) as (new & Hn & Hnew & _).
  assert (Hmid : guarded (events s ++ new)).
  { intros before e after Heq He. destruct (decide (length before < length (events s))%nat) as [Hlt|Hge].
    - assert (Hl : events s !! length before = Some e) by (rewrite <- (lookup_app_l _ new) by done; by rewrite Heq, list_lookup_middle).
      apply list_elem_of_lookup_2 in Hl. rewrite Forall_forall in Hquiet. by apply Hquiet in Hl.
    - assert (Hl : (events s ++ new) !! length before = Some e) by (by rewrite Heq, list_lookup_middle).
      rewrite lookup_app_r in Hl by lia. apply list_elem_of_lookup_2 in Hl. rewrite Forall_forall in Hnew. apply Hnew in Hl.
      split; [done|]. exists customerId, sessionId, pin, t, body, active, assessment, e1, e2, e3, e4, e5. split_and!; try done.
      assert (Hb : before = events s ++ take (length before - length (events s)) new).
      { rewrite <- (take_app_ge (events s) new) by lia. by rewrite Heq, take_app_length. }
      rewrite Hb. by apply sublist_inserts_r. }
  unfold payments_request, mbind, M_bind. destruct (domain_request _ _ _ _ _ _ _ _ s) as [[v|x] s1]; cbn in Hn; rewrite <- Hn in Hmid; [|done].
  destruct (Hk v s1) as (q & Hq & Hqs). assert (Hend : guarded (events s1 ++ q)).
  { apply guarded_app; [done|]. eapply Forall_impl; [exact Hqs|]. intros e. apply elsewhere_confirms. }
  rewrite <- Hq in Hend. by destruct (k v s1) as [[w|x] s2].
Qed.
Lemma parse_some sch v (s : GwState (Traced Env)) b s' : parse sch v s = (Ok b, s') -> sch v = Some b.
Proof. unfold parse, require. destruct (sch v); [|done]. by intros [= <- _]. Qed.
Lemma key_silent : silent (idempotency_key r : GwM string).
Proof. apply silent_require. Qed.
Lemma session_cookie_silent : silent (session_cookie config r : GwM string).
Proof. apply silent_bind; [apply silent_cookie|intros id]. apply silent_bind; [apply silent_throw_when|intros; apply ret_silent]. Qed.
Lemma session_cookie_of (s : GwState (Traced Env)) sessionId s' : session_cookie config r s = (Ok sessionId, s') -> session_of sessionId.
Proof.
  unfold session_cookie. intros (id & s1 & Hid & Hr)%bind_Ok_inv. apply bind_Ok_inv in Hr as ([] & s2 & Hne & Hr). injection Hr as <- _.
  unfold sessionId, cookie, require in Hid. destruct (readCookie _ _) as [x|] eqn:Hx; [|done]. injection Hid as <- _. split; [done|].
  intros ->. discriminate Hne.
Qed.
Lemma gave_undefined v e : gave zod_undefined v e -> gave zod_undefined JUndef e.
Proof.
  assert (Hz : forall j, zod_undefined j = Some v -> zod_undefined j = Some JUndef) by (intros []; cbn; congruence).
  destruct e as [c [rep|]|c [resp|x]]; cbn; try done; intros [H1 H2]; split; auto.
Qed.
(** C5: Whatever the services answer and whatever the browser sends, the
    gateway asks Payments to carry out a transfer only for a request with a
    matching CSRF token and after, in this order, Identity named the customer
    of the request's session, Risk reported no active control, Identity accepted
    the PIN, Risk decided to allow the transfer and Payments accepted the
    authorization of the intent; the transfer names that customer as the sender
    and that intent. *)
Theorem confirm_guarded (s : GwState (Traced Env)) : events s = [] -> guarded (events (transfer_confirm config mode now r s).2).
Proof.
  intros Hs. assert (Htriple : triple (fun s => inv [] (events s)) (transfer_confirm config mode now r) (fun _ s => guarded (events s)) (fun _ s => guarded (events s))).
  - unfold transfer_confirm, transfer_customer.
    apply triple_assoc, (chain_consults _ _ _ _ _ _ resolve_consults (inv_guarded _)). intros customerId e1 (sid & Hsid & H1).
    apply triple_assoc, chain_quiet; [apply csrf_quiet|apply inv_guarded|]. intros csrfToken st st' Hcsrf%csrf_accepted. apply triple_ret_l.
    apply chain_silent; [apply silent_parse|apply inv_guarded|]. intros data s1 s1' _.
    apply chain_silent; [apply key_silent|apply inv_guarded|]. intros key s2 s2' _.
    apply chain_silent; [apply session_cookie_silent|apply inv_guarded|]. intros sid' s3 s3' Hsid'%session_cookie_of.
    assert (sid' = sid) as -> by (destruct Hsid, Hsid'; congruence).
    apply checks_chain. intros active assessment e2 e3 e4 H2 Ha H3 H4 Hd.
    apply chain_domain; [apply payments_domain|apply authorize_not_confirm|apply inv_guarded|]. intros v e5 H5 Hg. apply gave_undefined in Hg.
    apply chain_silent; [apply silent_parse|apply inv_guarded|]. intros body s4 s4' Hbody.
    eapply confirm_call; try done; eauto.
    + by apply parse_some in Hbody.
    + intros res. apply emits_bind; [apply emit_quiet|intros _]. apply emits_bind; [by apply silent_emits, silent_modify|intros _].
      apply emits_bind; [by apply silent_emits, silent_modify|intros _]. apply silent_emits, ret_silent.
  - assert (Hinv : inv [] (events s)) by (rewrite Hs; split; [constructor|constructor]).
    specialize (Htriple s Hinv). by destruct (transfer_confirm config mode now r s) as [[v|x] s'].
Qed.

(** ** Routes that never call Ledger or Payments *)
Lemma requests_quiet {A} (m : GwM A) C V : requests m C V -> (forall c, C c -> elsewhere (Called c None)) -> quiet m.
Proof. intros Hm HC. eapply consults_quiet, requests_consults; eauto. Qed.
Lemma identity_quiet endpoint method body sid token : quiet (identity_request config endpoint method r body sid token).
Proof. eapply requests_quiet; [apply identity_requests|]. intros c (Hto & _). unfold elsewhere, domain_call. by rewrite Hto. Qed.
Lemma risk_quiet path method body o : quiet (risk_request config path method r body o).
Proof. eapply requests_quiet; [apply risk_requests|]. intros c. apply risk_elsewhere. Qed.
Lemma resilience_quiet path method sch body : quiet (resilience_request config path method r sch body).
Proof. eapply requests_quiet; [apply resilience_requests|]. intros c Hto. unfold elsewhere, domain_call. by rewrite Hto. Qed.
End Clients.

End Consulting.

Create HintDb quiet.
#[export] Hint Resolve silent_cookie silent_parse silent_require silent_throw_when silent_lift silent_throw ret_silent : quiet.
#[export] Hint Extern 1 (silent (modify _)) => (by apply silent_modify) : quiet.
#[export] Hint Extern 2 (emits _ _) => (apply silent_emits; solve [auto with quiet nocore]) : quiet.
#[export] Hint Resolve identity_quiet risk_quiet resilience_quiet emit_quiet csrf_quiet : quiet.
Ltac emitting :=
  repeat first
    [ solve [auto with quiet nocore]
    | apply emits_bind; [|intros ?]
    | apply emits_catch; [|intros ?]
    | apply emits_finally
    | match goal with |- emits _ (match ?x with _ => _ end) => destruct x end ].
(** The bodies of the routes, down to their calls. *)
Ltac auth_unfold := unfold requestOnboardingOtp, verifyOnboardingOtp, createPin, requestFallbackOtp, fallbackLogin, session, logout,
  registrationOptions, verifyRegistration, authenticationOptions, verifyAuthentication, registration_call, public_call, authenticate, identity,
  sessionId, csrf, clearSessionCookies, setSessionCookies, set_cookies.
Ltac operators_unfold := unfold signIn, sessionInfo, operator_logout, operator_page, operator_incident, operator_apply, operator_release,
  updateIncident, operator_post, operator_get, operator_auth, operator_id, operator_cookies, parsed, set_cookies; unfold risk_operator.
Ltac resilience_unfold := unfold readiness, drills, drill, drill_events, plan, acknowledge, operator, operator_auth, drill_id, parsed;
  unfold risk_operator.
Ltac accounts_unfold := unfold list_accounts, provisionDefault, account_detail, account_balance, transactions, transaction_detail, customer, account_id,
  ledger_request, csrf, cache.
Ltac transfers_unfold := unfold transfer_policy, transfer_preview, transfer_confirm, transfer_list, transfer_detail, transfer_customer, confirm_checks,
  confirmation_blocked, idempotency_key, session_cookie, sessionId, identity, risk_check, risk_evaluate, parsed, payments_request, cache, set_status.
Ltac channels_unfold := unfold qrReceive, qrDynamic, qrPreview, qrConfirm, agentCashInPreview, agentCashOutPreview, agentCashConfirm, ussdSimulate,
  ussdWebhook, qr_issue, channel_confirm, agent_preview, idempotency_key, session_cookie, sessionId, identity, customer, csrf, payments_request, cache, set_status.
Section Guarding.
Context {Env : Type} {zod : Zod} {crypto : Crypto} {pg : Postgres} {upstreams : Upstreams Env}.
Abbreviation GwM := (M (GwState (Traced Env)) GwErr).
Abbreviation quiet := (emits elsewhere).
Section Routes.
Variable config : GatewayConfig.
Variable mode : option SabclMode.
Variable now : Z.
Lemma auth_quiet a r : quiet (handle_auth config a r).
Proof. destruct a; cbn [handle_auth]; auth_unfold; emitting. Qed.
Lemma operators_quiet o r : quiet (handle_operators config now o r).
Proof. destruct o; cbn [handle_operators]; operators_unfold; emitting. Qed.
Lemma resilience_routes_quiet d r : quiet (handle_resilience config d r).
Proof. destruct d; cbn [handle_resilience]; resilience_unfold; emitting. Qed.
Lemma resolve_quiet r : quiet (resolve config r).
Proof. eapply consults_quiet, resolve_consults. Qed.
Lemma service_ready_asks to token :
  emits (fun e => elsewhere e \/ exists d, domain_call e = Some d /\ dm_path d = "/health/ready"%string) (service_ready to token).
Proof.
  apply emits_bind; [|intros; apply silent_emits, ret_silent]. destruct (header_value token) as [t|]; [|apply silent_emits, ret_silent].
  intros s. unfold network. cbn [fetch traced]. destruct (fetch _ _) as [reply env]. eexists. split; [done|]. constructor; [|done].
  destruct to; first [by left|right; eexists; split; [reflexivity|done]].
Qed.

(** ** No plaintext beside a strict SABCL *)
Definition sealed_or_probe (e : Event) : Prop := forall d, domain_call e = Some d -> is_sealed e \/ dm_path d = "/health/ready"%string.
Lemma quiet_sealed {A} (m : GwM A) : quiet m -> emits sealed_or_probe m.
Proof. intros Hm. apply (emits_weaken _ _ _ Hm). intros e He d Hd. unfold elsewhere in He. congruence. Qed.
Lemma domain_sealed c path method sch r body customerId : mode = Some strict -> to_domain c ->
  emits sealed_or_probe (domain_request mode c path method sch r body customerId).
Proof.
  intros Hm Hc s. destruct (domain_does mode c path method sch r body customerId Hc s) as (new & Hn & _ & Hst & _).
  exists new. split; [done|]. rewrite Hm in Hst. eapply Forall_impl; [by apply Hst|]. intros e He d _. by left.
Qed.
Lemma ready_sealed to token : emits sealed_or_probe (service_ready to token).
Proof.
  apply (emits_weaken _ _ _ (service_ready_asks to token)). intros e [He|(d & Hd & Hp)] d' Hd'; [unfold elsewhere in He; congruence|].
  right. congruence.
Qed.
End Routes.
#[local] Hint Resolve resolve_quiet ready_sealed : quiet.
#[local] Hint Extern 3 (emits sealed_or_probe _) => (apply quiet_sealed; solve [auto with quiet nocore]) : quiet.
#[local] Hint Extern 2 (emits sealed_or_probe (domain_request _ _ _ _ _ _ _ _)) => (apply domain_sealed; [assumption|by (left + right)]) : quiet.
#[local] Hint Resolve silent_uuid : quiet.
Section Guarantees.
Variable config : GatewayConfig.
Variable mode : option SabclMode.
Variable now : Z.
(** C10: With SABCL in strict mode, no route of the gateway sends a call to
    Ledger or Payments but through the SABCL client, health probes apart. *)
Theorem strict_never_plain route r (s : GwState (Traced Env)) : mode = Some strict -> events s = [] ->
  Forall sealed_or_probe (events (handle_route config mode now route r s).2).
Proof.
  intros Hm Hs. assert (He : emits sealed_or_probe (handle_route config mode now route r)).
  { destruct route as [a|a|t|c|o|d|]; cbn [handle_route].
    - apply quiet_sealed, auth_quiet.
    - destruct a; cbn [handle_accounts]; accounts_unfold; emitting.
    - destruct t; cbn [handle_transfers]; transfers_unfold; emitting.
    - destruct c; cbn [handle_channels]; channels_unfold; emitting.
    - apply quiet_sealed, operators_quiet.
    - apply quiet_sealed, resilience_routes_quiet.
    - unfold getReadiness. emitting. }
  destruct (He s) as (new & Hn & Hq). by rewrite Hn, Hs.
Qed.

(** ** Mutations and their CSRF tokens *)
(** The cookie whose token a mutation made with a session must repeat. *)
Definition csrf_cookie (route : Route) : option string :=
  match route with
  | Auth (Logout | RegistrationOptions | VerifyRegistration) | OnAccounts ProvisionDefault | OnTransfers (TransferPreview | TransferConfirm) =>
      Some (csrfCookieName config)
  | OnChannels UssdWebhook => None
  | OnChannels _ => Some (csrfCookieName config)
  | OnOperators (OperatorLogout | Apply | Release _ | UpdateIncident _) | OnResilience (Plan | Acknowledge _) => Some (operatorCsrfCookieName config)
  | _ => None
  end.
(** Looking up the session, or reporting an event. *)
Definition reads_only (e : Event) : Prop :=
  match e with
  | Called c _ => gc_to c = ToIdentity /\ gc_method c = "GET"%string \/ gc_to c = ToRisk /\ gc_path c = "/internal/v1/events"%string
  | Sealed _ _ => False
  end.
Lemma resolve_reads r : emits reads_only (resolve config r).
Proof.
  unfold resolve. apply emits_bind; [auto with quiet|intros sid]. apply emits_bind; [auto with quiet|intros _]. apply emits_bind; [|intros; emitting].
  intros s. destruct (identity_requests config "/api/v1/auth/session" "GET" r JUndef (Some sid) None s) as (new & Hn & Hev).
  exists new. split; [exact Hn|]. destruct Hev as [[-> _]|(c & reply & (Hto & Hmethod & _) & -> & _)]; [done|].
  constructor; [by left|done].
Qed.
Lemma emit_reads r e : emits reads_only (risk_emit config now r e).
Proof.
  unfold risk_emit. apply emits_bind; [auto with quiet|intros eventId]. apply emits_bind; [auto with quiet|intros sourceId].
  apply emits_bind; [auto with quiet|intros _]. apply emits_bind; [|intros; auto with quiet].
  intros s. edestruct (call_does (Env := Env) ToRisk "POST" "/internal/v1/events") as (new & Hn & Hev). exists new. split; [exact Hn|].
  destruct Hev as [[_ ->]|(hs & reply & _ & _ & ->)]; [done|]. constructor; [by right|done].
Qed.
(** [m] never returns. *)
Definition refuses {A} (m : GwM A) : Prop := forall s a s', m s <> (Ok a, s').
Lemma refuses_err {A} e : refuses (lift_result (Err e) : GwM A).
Proof. by intros s a s'. Qed.
Lemma refuses_throw {A} e : refuses (throw e : GwM A).
Proof. by intros s a s'. Qed.
Lemma refuses_then {A B} (m : GwM A) (k : A -> GwM B) : (forall a, refuses (k a)) -> refuses (m ≫= k).
Proof. intros Hk s b s' (a & s1 & _ & Hb)%bind_Ok_inv. by apply Hk in Hb. Qed.
Lemma refuses_first {A B} (m : GwM A) (k : A -> GwM B) : refuses m -> refuses (m ≫= k).
Proof. intros Hm s b s' (a & s1 & Ha & _)%bind_Ok_inv. by apply Hm in Ha. Qed.
Lemma refuses_assoc {A B C} (m : GwM A) (k : A -> GwM B) (k' : B -> GwM C) : refuses (m ≫= fun a => k a ≫= k') -> refuses ((m ≫= k) ≫= k').
Proof.
  intros Hm s c s' (b & s2 & (a & s1 & Ha & Hb)%bind_Ok_inv & Hc)%bind_Ok_inv. apply (Hm s c s').
  rewrite (bind_Ok _ _ _ _ _ _ _ Ha). by rewrite (bind_Ok _ _ _ _ _ _ _ Hb).
Qed.
(** A check that reports its error and throws it again. *)
Lemma refuses_report {A} e (h : GwErr -> GwM unit) : refuses (try_catch (lift_result (Err e)) (fun e => _ ← h e; throw e) : GwM A).
Proof. intros s a s' Hrun. by apply (refuses_then (h e) (fun _ => throw e) (fun _ => refuses_throw e)) in Hrun. Qed.
Lemma emits_stop (ok : Event -> Prop) {A B} (m : GwM A) (k : A -> GwM B) : emits ok m -> refuses m -> emits ok (m ≫= k).
Proof. intros Hm Hr. apply emits_bind_run; [done|]. intros a s s' Ha. by apply Hr in Ha. Qed.
Lemma emits_assoc (ok : Event -> Prop) {A B C} (m : GwM A) (k : A -> GwM B) (k' : B -> GwM C) :
  emits ok (m ≫= fun a => k a ≫= k') -> emits ok ((m ≫= k) ≫= k').
Proof. intros Hm s. specialize (Hm s). unfold mbind, M_bind in *. by destruct (m s) as [[a|e] s1]. Qed.
Ltac refusing :=
  lazymatch goal with
  | |- refuses ((_ ≫= _) ≫= _) => apply refuses_assoc; refusing
  | |- refuses (lift_result (Err _) ≫= _) => apply refuses_first, refuses_err
  | |- refuses (try_catch (lift_result (Err _)) _ ≫= _) => apply refuses_first, refuses_report
  | |- refuses (_ ≫= _) => apply refuses_then; intros ?; refusing
  end.
Ltac stopping :=
  repeat lazymatch goal with
  | |- emits _ ((_ ≫= _) ≫= _) => apply emits_assoc
  | |- emits _ (lift_result (Err _) ≫= _) => apply emits_stop; [|apply refuses_err]
  | |- emits _ (try_catch (lift_result (Err _)) _ ≫= _) => apply emits_stop; [|apply refuses_report]
  | |- emits _ (_ ≫= _) => apply emits_bind; [|intros ?]
  | |- emits _ (try_catch _ _) => apply emits_catch; [|intros ?]
  | |- emits _ (finally _ _) => apply emits_finally
  | |- emits _ (resolve _ _) => apply resolve_reads
  | |- emits _ (risk_emit _ _ _ _) => apply emit_reads
  | |- emits _ (match ?x with _ => _ end) => destruct x
  | |- emits _ _ => apply silent_emits; solve [auto with quiet nocore]
  end.
Ltac mutations_unfold := unfold plan, acknowledge, operator_logout, operator_apply, operator_release, updateIncident, operator_post, operator, operator_auth, operator_id,
  logout, registrationOptions, verifyRegistration, registration_call, transfer_preview, transfer_confirm, transfer_customer, transfer_csrf,
  provisionDefault, qrReceive, qrDynamic, qrPreview, qrConfirm, agentCashInPreview, agentCashOutPreview, agentCashConfirm, ussdSimulate,
  channel_confirm, agent_preview, customer, csrf, sessionId, clearSessionCookies, set_cookies.
(** A logout with a session in its cookie is a mutation like the others. *)
Lemma csrf_error cookie name header e body : requireCsrfToken cookie name header = Err e -> e <> HttpException 401 body.
Proof. unfold requireCsrfToken. intros H ->. repeat case_match; discriminate. Qed.
Lemma refuses_finally {A} (m : GwM A) (f : GwM unit) : refuses m -> refuses (finally m f).
Proof.
  intros Hm s a s'. unfold finally. destruct (m s) as [[x|e] s1] eqn:He; [by destruct (Hm _ _ _ He)|].
  by destruct (f s1) as [[u|e'] s2].
Qed.
Lemma logout_refuses r e : requireCsrfToken (gq_cookie r) (csrfCookieName config) (gq_csrf r) = Err e ->
  readCookie (gq_cookie r) (sessionCookieName config) <> Some ""%string -> refuses (logout config r).
Proof.
  intros He Hid s v s' H. unfold logout in H. apply bind_Ok_inv in H as (b & s1 & _ & H). apply bind_Ok_inv in H as (id & s2 & Hc & H).
  assert (Hne : id <> ""%string).
  { intros ->. apply Hid. unfold sessionId, cookie, require in Hc. destruct (readCookie _ _); [|done]. by injection Hc as <- _. }
  destruct (String.eqb_spec id "") as [|_]; [done|]. apply bind_Ok_inv in H as (u & s3 & H & _). revert H. apply refuses_finally.
  intros s4 [] s5. unfold csrf. rewrite He. unfold try_catch. change (lift_result (Err e) s4) with (@Err GwErr string e, s4).
  rewrite (bind_Err _ _ _ _ _ e s4) by done. destruct e as [status body|]; [|done].
  destruct (decide (status = 401)) as [->|Hn]; [by eapply csrf_error in He|].
  repeat case_match; done.
Qed.
(** C11: A mutation whose CSRF token is missing or does not match changes
    nothing: the only calls it makes look up the session or report the event,
    and it does not succeed; a logout without a session in its cookie, which
    has nothing to end, succeeds without any call. *)
Theorem csrf_required route name r e (s : GwState (Traced Env)) : csrf_cookie route = Some name ->
  requireCsrfToken (gq_cookie r) name (gq_csrf r) = Err e -> events s = [] ->
  Forall reads_only (events (handle_route config mode now route r s).2) /\
  (is_ok (handle_route config mode now route r s).1 = true ->
   route = Auth Logout /\ readCookie (gq_cookie r) (sessionCookieName config) = Some ""%string).
Proof.
  intros Hc He Hs.
  assert (Hem : emits reads_only (handle_route config mode now route r)).
  { destruct route as [[]|[]|[]|[]|[]|[]|]; cbn in Hc; try discriminate Hc; injection Hc as <-; cbn [handle_route handle_auth handle_accounts handle_transfers
      handle_channels handle_operators handle_resilience]; mutations_unfold; rewrite He; stopping. }
  assert (Href : refuses (handle_route config mode now route r) \/
                 route = Auth Logout /\ readCookie (gq_cookie r) (sessionCookieName config) = Some ""%string).
  { destruct route as [[]|[]|[]|[]|[]|[]|]; cbn in Hc; try discriminate Hc; injection Hc as <-; cbn [handle_route handle_auth handle_accounts handle_transfers
      handle_channels handle_operators handle_resilience]; [|left; mutations_unfold; rewrite He; refusing..].
    destruct (decide (readCookie (gq_cookie r) (sessionCookieName config) = Some ""%string)); [by right|left; by eapply logout_refuses]. }
  destruct (Hem s) as (new & Hn & Hq). split; [by rewrite Hn, Hs|]. destruct Href as [Href|Href]; [|done].
  specialize (Href s). destruct (handle_route config mode now route r s) as [[v|x] s1]; [|done]. by destruct (Href v s1).
Qed.

(** ** One customer per request *)
(** Documented of zod: the text of a UUID is not empty and goes into a header
    as it is. *)
Hypothesis uuid_in_header : forall id, z_uuid id = true -> id <> ""%string /\ header_value id = Some id.
Definition customer_fields : list string := ["customerId"; "senderCustomerId"; "agentId"].
(** The header, the path or the body names the customer. *)
Definition names_customer (customerId : string) (d : DomainCall) : Prop :=
  dm_customer d = Some customerId \/
  (dm_path d = LEDGER_ENDPOINTS.customerAccounts customerId \/ (exists q, dm_path d = PAYMENTS_ENDPOINTS.transfers customerId q) \/
   exists id, dm_path d = PAYMENTS_ENDPOINTS.transfer customerId id) \/
  exists b k, dm_body d = Some b /\ k ∈ customer_fields /\ jfield k b = JStr customerId.
(** Calls that concern no customer. *)
Definition impersonal (d : DomainCall) : Prop := dm_path d = PAYMENTS_ENDPOINTS.policy \/ dm_path d = "/health/ready"%string.
Definition acts_for (customerId : string) (e : Event) : Prop := forall d, domain_call e = Some d -> impersonal d \/ names_customer customerId d.
(** Every call of Ledger or Payments is for the customer whom Identity named
    for the session of the request. *)
Definition bound (r : GwRequest) (h : list Event) : Prop := forall before e after d, h = before ++ e :: after -> domain_call e = Some d ->
  impersonal d \/ exists customerId sessionId e1,
    session_of config r sessionId /\ session_answer sessionId customerId e1 /\ e1 ∈ before /\ names_customer customerId d.
Lemma acts_quiet customerId {A} (m : GwM A) : quiet m -> emits (acts_for customerId) m.
Proof. intros Hm. apply (emits_weaken _ _ _ Hm). intros e He d Hd. unfold elsewhere in He. congruence. Qed.
Lemma domain_acts customerId c path method sch r body who : to_domain c ->
  (forall e, asks path method body who e -> acts_for customerId e) -> emits (acts_for customerId) (domain_request mode c path method sch r body who).
Proof.
  intros Hc Ha s. destruct (domain_does mode c path method sch r body who Hc s) as (new & Hn & Hq & _). exists new. split; [done|].
  by eapply Forall_impl.
Qed.
Lemma header_acts customerId c path method sch r body : to_domain c -> z_uuid customerId = true ->
  emits (acts_for customerId) (domain_request mode c path method sch r body (Some customerId)).
Proof.
  intros Hc [Hne Hh]%uuid_in_header. apply domain_acts; [done|]. intros e (d & Hd & _ & _ & Hwho) d' Hd'. right. left.
  rewrite Hd in Hd'. injection Hd' as <-. assert (Ht : truthy_string (Some customerId) = Some customerId).
  { unfold truthy_string. by rewrite (proj2 (String.eqb_neq _ _)). }
  destruct e as [k rep|k ans]; destruct Hwho as [_ ->]; unfold header_text; by rewrite Ht.
Qed.
Lemma path_acts customerId c path method sch r body who : to_domain c ->
  (forall d, dm_path d = path -> impersonal d \/ names_customer customerId d) ->
  emits (acts_for customerId) (domain_request mode c path method sch r body who).
Proof.
  intros Hc Hp. apply domain_acts; [done|]. intros e (d & Hd & _ & Hpath & _) d' Hd'. rewrite Hd in Hd'. injection Hd' as <-. auto.
Qed.
Lemma body_acts customerId c path sch r body who k : to_domain c -> k ∈ customer_fields -> jfield k body = JStr customerId ->
  emits (acts_for customerId) (domain_request mode c path "POST" sch r body who).
Proof.
  intros Hc Hk Hb. apply domain_acts; [done|]. intros e (d & Hd & _ & _ & Hbody) d' Hd'. rewrite Hd in Hd'. injection Hd' as <-.
  right. right. right. exists body, k. split_and!; [|done|done].
  destruct e as [q rep|q ans]; destruct Hbody as [-> _]; destruct body; try discriminate Hb; done.
Qed.
Lemma resolved_uuid v w customerId : sessionResponseSchema v = Some w -> text_field "id" (jfield "user" w) = Some customerId -> z_uuid customerId = true.
Proof.
  intros Hw%schema_stable Hid. edestruct (object_field Strip _ w w "user" maskedUserSchema Hw) as [u Hu]; [do 3 right; left|].
  edestruct (object_field Strip _ (jfield "user" w) u "id" uuid_text Hu) as [x Hx]; [left|].
  unfold text_field in Hid. destruct (jfield "id" (jfield "user" w)) as [| | | |t| |]; try done. injection Hid as ->.
  unfold uuid_text, zod_string, zod_text, checked in Hx. by destruct (z_uuid customerId).
Qed.
Lemma resolve_bound {A} r (k : string -> GwM A) : (forall customerId, z_uuid customerId = true -> emits (acts_for customerId) (k customerId)) ->
  forall s, events s = [] -> bound r (events ((resolve config r ≫= k) s).2).
Proof.
  intros Hk s Hs. destruct (resolve_consults config r s) as (new & Hn & Hq & Hv). rewrite Hs in Hn. unfold mbind, M_bind.
  destruct (resolve config r s) as [[customerId|x] s1]; cbn in Hn, Hv.
  - destruct (Hv customerId eq_refl) as (e1 & -> & sid & Hsid & He1). pose proof He1 as (c & rep & v & _ & _ & _ & Hw & Hid).
    destruct (Hk customerId (resolved_uuid _ _ _ Hw Hid) s1) as (new' & Hn' & Hq'). rewrite Hn', Hn.
    intros before e after d Heq Hd. destruct before as [|e' before]; cbn in Heq.
    + injection Heq as <- _. apply Forall_cons in Hq as [Hq _]. unfold elsewhere in Hq. congruence.
    + injection Heq as <- Heq. assert (Hin : e ∈ new') by (rewrite Heq; apply elem_of_app; right; left). rewrite Forall_forall in Hq'.
      destruct (Hq' e Hin d Hd) as [?|?]; [by left|]. right. exists customerId, sid, e1. split_and!; try done. by left.
  - cbn [snd]. rewrite Hn. cbn [app]. intros before e after d -> Hd. apply Forall_app in Hq as [_ Hq]. apply Forall_cons in Hq as [Hq _]. unfold elsewhere in Hq. congruence.
Qed.
Lemma quiet_bound {A} r (m : GwM A) s : quiet m -> events s = [] -> bound r (events (m s).2).
Proof.
  intros Hm Hs. destruct (Hm s) as (new & Hn & Hq). rewrite Hn, Hs. cbn [app]. intros before e after d -> Hd.
  apply Forall_app in Hq as [_ Hq]. apply Forall_cons in Hq as [Hq _]. unfold elsewhere in Hq. congruence.
Qed.
Lemma bind_assoc_run {A B C} (m : GwM A) (k : A -> GwM B) (k' : B -> GwM C) s : ((m ≫= k) ≫= k') s = (m ≫= fun a => k a ≫= k') s.
Proof. unfold mbind, M_bind. by destruct (m s) as [[a|e] s1]. Qed.
Lemma customer_bound {A} r (k : string -> GwM A) s : (forall customerId, z_uuid customerId = true -> emits (acts_for customerId) (k customerId)) ->
  events s = [] -> bound r (events ((customer config r ≫= k) s).2).
Proof.
  intros Hk Hs. unfold customer. rewrite bind_assoc_run. apply resolve_bound; [|done]. intros c Hc. apply emits_assoc, emits_bind.
  - apply acts_quiet. unfold csrf. auto with quiet.
  - intros token. by apply Hk.
Qed.
Lemma transfer_customer_bound {A} r (k : string -> GwM A) s :
  (forall customerId, z_uuid customerId = true -> emits (acts_for customerId) (k customerId)) ->
  events s = [] -> bound r (events ((transfer_customer config now r ≫= k) s).2).
Proof.
  intros Hk Hs. unfold transfer_customer. rewrite bind_assoc_run. apply resolve_bound; [|done]. intros c Hc. apply emits_assoc, emits_bind.
  - apply acts_quiet, csrf_quiet.
  - intros token. by apply Hk.
Qed.
End Guarantees.
#[local] Hint Extern 3 (emits (acts_for _) _) => (apply acts_quiet; solve [auto with quiet nocore]) : quiet.
Lemma head_customer e k fields c rest body :
  zod_object e ((k, Req uuid_text) :: fields) (JObj ((k, JStr c) :: rest)) = Some body -> jfield k body = JStr c.
Proof.
  intros (v & Hv & ->)%object_head. unfold uuid_text, zod_string, zod_text, checked in Hv. cbn in Hv. rewrite String.eqb_refl in Hv. cbn in Hv.
  by destruct (z_uuid c); [injection Hv as <-|].
Qed.
Lemma spread_new e fields j w k v : e <> Passthrough -> zod_object e fields j = Some w -> k ∉ fields.*1 -> jfield k (spread w [(k, v)]) = v.
Proof.
  intros He Hw Hk. destruct (object_keys e fields j w He Hw) as (fs & -> & Hin). cbn. rewrite jget_app, jget_none by auto.
  cbn. by rewrite String.eqb_refl.
Qed.
(** The customer in the body: written there, kept by a schema, or added to parsed data. *)
Ltac customer_field :=
  first
    [ reflexivity
    | match goal with H : _ = Some ?b |- jfield _ ?b = JStr _ => eapply head_customer; exact H end
    | match goal with H : _ = Some ?b |- jfield _ (spread ?b _) = JStr _ =>
        eapply spread_new; [|exact H|by apply (bool_decide_eq_false_1 (_ ∈ _))]; done end ].
Ltac naming k := apply (body_acts _ _ _ _ _ _ _ _ k); [by (left + right)|by apply (bool_decide_eq_true_1 (_ ∈ _))|customer_field].
(** The calls of Ledger and Payments, each for the customer. *)
Ltac acting :=
  repeat lazymatch goal with
  | |- emits _ (domain_request _ _ _ _ _ _ _ (Some _)) => eapply header_acts; [eassumption|by (left + right)|assumption]
  | |- emits _ (domain_request _ _ _ "POST" _ _ _ _) => first [naming "customerId"%string|naming "senderCustomerId"%string|naming "agentId"%string]
  | |- emits _ (domain_request _ _ _ _ _ _ _ _) =>
      apply path_acts; [by (left + right)|intros ? Hpath; first [by left; left|by right; right; left; left
        |by right; right; left; right; left; eexists|by right; right; left; right; right; eexists]]
  | |- emits _ ((_ ≫= _) ≫= _) => apply emits_assoc
  | |- emits _ (parse _ _ ≫= _) => apply emits_bind_run; [solve [auto with quiet nocore]|let H := fresh "Hparse" in intros ? ? ? H%parse_some]
  | |- emits _ (_ ≫= _) => apply emits_bind; [|intros ?]
  | |- emits _ (match ?x with _ => _ end) => destruct x
  | |- emits _ _ => solve [auto with quiet nocore]
  end.
Section Binding.
Variable config : GatewayConfig.
Variable mode : option SabclMode.
Variable now : Z.
Hypothesis uuid_in_header : forall id, z_uuid id = true -> id <> ""%string /\ header_value id = Some id.
Lemma accounts_bound a r (s : GwState (Traced Env)) : events s = [] -> bound config r (events (handle_accounts config mode a r s).2).
Proof.
  intros Hs. destruct a; cbn [handle_accounts]; unfold list_accounts, provisionDefault, account_detail, account_balance, transactions,
    transaction_detail; first [apply resolve_bound|apply customer_bound]; try done; intros customerId Hid; unfold account_id, ledger_request, cache;
    acting.
Qed.
Lemma transfers_bound t r (s : GwState (Traced Env)) : events s = [] -> bound config r (events (handle_transfers config mode now t r s).2).
Proof.
  intros Hs. destruct t; cbn [handle_transfers]; unfold transfer_policy, transfer_preview, transfer_confirm, transfer_list, transfer_detail;
    first [apply resolve_bound|apply transfer_customer_bound]; try done; intros customerId Hid;
    unfold confirm_checks, confirmation_blocked, idempotency_key, session_cookie, sessionId, identity, risk_check, risk_evaluate, parsed,
      payments_request, cache, set_status; acting.
Qed.
Lemma channels_bound c r (s : GwState (Traced Env)) : c <> UssdWebhook -> events s = [] -> bound config r (events (handle_channels config mode c r s).2).
Proof.
  intros Hc Hs. destruct c; try done; cbn [handle_channels]; unfold qrReceive, qrDynamic, qrPreview, qrConfirm, channel_confirm, agentCashInPreview,
    agentCashOutPreview, agent_preview, agentCashConfirm, ussdSimulate; apply customer_bound; try done; intros customerId Hid;
    unfold idempotency_key, session_cookie, sessionId, identity, qr_issue, payments_request, cache, set_status; acting.
Qed.
(** The webhook of the USSD provider forwards what it was sent, for nobody. *)
Lemma webhook_asks r (s : GwState (Traced Env)) : events s = [] ->
  Forall (asks "/internal/ussd/webhook" "POST" (gq_body r) None) (events (ussdWebhook config mode r s).2).
Proof.
  intros Hs. unfold ussdWebhook, payments_request. destruct (domain_does mode (Gateway.payments config) "/internal/ussd/webhook" "POST" zod_unknown r (gq_body r) None
    (or_intror eq_refl) s) as (new & Hn & Hq & _). by rewrite Hn, Hs.
Qed.
(** C6: Whatever the services answer, every call that a route makes of Ledger
    or Payments is for one customer, the one Identity named as the user of the
    session in the request's cookie: in the internal customer header, in the
    path or in the body. Excepted are the reading of the transfer policy and
    the health probes, which concern nobody, and the USSD webhook, which has
    no session: it only forwards the body it was sent, without a customer. *)
Theorem calls_act_for_session route r (s : GwState (Traced Env)) : events s = [] ->
  let h := events (handle_route config mode now route r s).2 in
  (route <> OnChannels UssdWebhook -> bound config r h) /\
  (route = OnChannels UssdWebhook -> Forall (asks "/internal/ussd/webhook" "POST" (gq_body r) None) h).
Proof.
  intros Hs. split; [|by intros ->; apply webhook_asks]. intros Hne. destruct route as [a|a|t|c|o|d|]; cbn [handle_route].
  - apply quiet_bound; [apply auth_quiet|done].
  - by apply accounts_bound.
  - by apply transfers_bound.
  - apply channels_bound; [by intros ->|done].
  - apply quiet_bound; [apply operators_quiet|done].
  - apply quiet_bound; [apply resilience_routes_quiet|done].
  - assert (He : emits (fun e => forall d, domain_call e = Some d -> impersonal d) (getReadiness config)).
    { unfold getReadiness. repeat lazymatch goal with
      | |- emits _ (service_ready _ _) => eapply emits_weaken; [apply service_ready_asks|]; intros e [He|(d & Hd & Hp)] d' Hd';
            unfold elsewhere in *; first [congruence|right; congruence]
      | |- emits _ (_ ≫= _) => apply emits_bind; [|intros ?]
      | |- emits _ _ => apply silent_emits; auto with quiet
      end. }
    destruct (He s) as (new & Hn & Hq). rewrite Hn, Hs. cbn [app]. intros before e after d -> Hd. left.
    apply Forall_app in Hq as [_ Hq]. apply Forall_cons in Hq as [Hq _]. by apply Hq.
Qed.
End Binding.
End Guarding.

(** ** Answers and their contracts *)
(** The contract of a route's answer. *)
Definition answer_contract {zod : Zod} (route : Route) : option schema :=
  match route with
  | OnAccounts ListAccounts => Some customerAccountListSchema
  | OnAccounts (ProvisionDefault | AccountDetail _) => Some customerAccountDetailSchema
  | OnAccounts (AccountBalance _) => Some accountBalanceSchema
  | OnAccounts (AccountTransactions _) => Some transactionHistoryResponseSchema
  | OnAccounts (AccountTransaction _ _) => Some customerTransactionDetailSchema
  | OnTransfers TransferPolicy => Some transferPolicySchema
  | OnTransfers TransferPreview | OnChannels QrPreview => Some transferPreviewResponseSchema
  | OnTransfers (TransferConfirm | TransferDetail _) | OnChannels QrConfirm => Some transferDetailSchema
  | OnTransfers TransferList => Some transferListResponseSchema
  | OnChannels (QrReceive | QrDynamic) => Some qrIssueResponseSchema
  | OnChannels (AgentCashInPreview | AgentCashOutPreview) => Some agentCashPreviewResponseSchema
  | OnChannels AgentCashConfirm => Some agentCashResultSchema
  | OnResilience Readiness => Some recoveryReadinessSchema
  | OnResilience Drills => Some drillHistoryResponseSchema
  | OnResilience (Drill _ | Plan | Acknowledge _) => Some recoveryDrillSchema
  | OnResilience (DrillEvents _) => Some drill_events_schema
  | _ => None
  end.
Section Answers.
Context {Env : Type} {zod : Zod} {crypto : Crypto} {pg : Postgres} {upstreams : Upstreams Env}.
Abbreviation GwM := (M (GwState Env) GwErr).
Variable config : GatewayConfig.
Variable mode : option SabclMode.
Variable now : Z.
(** Every value that [m] returns satisfies [Q]. *)
Definition returns {A} (Q : A -> Prop) (m : GwM A) : Prop := forall s v s', m s = (Ok v, s') -> Q v.
Lemma returns_bind {A B} (Q1 : A -> Prop) (Q : B -> Prop) (m : GwM A) k : returns Q1 m -> (forall a, Q1 a -> returns Q (k a)) -> returns Q (m ≫= k).
Proof. intros Hm Hk s v s' (a & s1 & Ha & Hv)%bind_Ok_inv. apply Hm in Ha. by eapply Hk. Qed.
Lemma returns_then {A B} (Q : B -> Prop) (m : GwM A) k : (forall a, returns Q (k a)) -> returns Q (m ≫= k).
Proof. intros Hk. apply (returns_bind (fun _ => True)); [done|auto]. Qed.
Lemma returns_ret {A} (Q : A -> Prop) a : Q a -> returns Q (mret a).
Proof. by intros Ha s v s' [= <- _]. Qed.
Definition conforms (sch : schema) (v : json) : Prop := sch v = Some v.
Lemma accepted_conforms (sch : schema) `{Stable sch} e body : returns (conforms sch) (require (sch body) e).
Proof. intros s v s'. unfold require. destruct (sch body) as [w|] eqn:Hw; [|done]. intros [= <- _]. by eapply schema_stable. Qed.
Lemma direct_conforms c path method (sch : schema) `{Stable sch} r body who : returns (conforms sch) (requestDirect c path method sch r body who).
Proof. repeat (apply returns_then; intros ?). by apply accepted_conforms. Qed.
Lemma domain_conforms c path method (sch : schema) `{Stable sch} r body who : returns (conforms sch) (domain_request mode c path method sch r body who).
Proof.
  unfold domain_request. destruct (sabcl_enabled mode); [|by apply direct_conforms]. unfold requestThroughSabcl.
  apply returns_then. intros [resp|[code|name]].
  - apply returns_then. intros _. by apply accepted_conforms.
  - destruct (sabcl_strict mode); [by intros s v s'|by apply direct_conforms].
  - by intros s v s'.
Qed.
Lemma resilience_conforms path method r (sch : schema) `{Stable sch} body : returns (conforms sch) (resilience_request config path method r sch body).
Proof. repeat (apply returns_then; intros ?). by apply accepted_conforms. Qed.
Ltac conforming :=
  repeat lazymatch goal with
  | |- returns _ (domain_request _ _ _ _ _ _ _ _) => apply domain_conforms, _
  | |- returns _ (resilience_request _ _ _ _ _ _) => apply resilience_conforms, _
  | |- returns (conforms ?s) (domain_request _ _ _ _ ?s _ _ _ ≫= _) => eapply returns_bind; [apply domain_conforms, _|intros ? ?]
  | |- returns _ (_ ≫= _) => apply returns_then; intros ?
  | |- returns _ (mret _) => apply returns_ret; assumption
  end.
End Answers.

(** ** Budgets of requests *)
Definition rate_key (r : RateRequest) : string := window_key r (classifyRateLimitBucket (rate_target r)).
(** Of a sequence of requests, how many count against a key, and how many of
    those the middleware lets through. *)
Definition requests_of (k : string) (l : list (Z * RateRequest)) : Z := Z.of_nat (length (List.filter (fun '(_, r) => String.eqb (rate_key r) k) l)).
Fixpoint admissions (k : string) (windows : Windows) (l : list (Z * RateRequest)) : Z :=
  match l with
  | [] => 0
  | (now, r) :: l =>
      let '(w, windows) := rate_window now r windows in
      (if String.eqb (rate_key r) k && rate_admits r w then 1 else 0) + admissions k windows l
  end.
Lemma jset_length {V} k (v : V) (m : jmap V) : (length (jset k v m) <= S (length m))%nat.
Proof. induction m as [|[k' v'] m IH]; cbn; [lia|]. destruct (String.eqb k k'); cbn; lia. Qed.
Lemma rate_window_eq now r windows : (length windows < Z.to_nat maximumEntries)%nat ->
  exists w, rate_window now r windows = (w, jset (rate_key r) w windows) /\
    match jget (rate_key r) windows with
    | Some w0 => if now <? rw_expiresAt w0 then w = mkWindow (rw_count w0 + 1) (rw_expiresAt w0) else w = mkWindow 1 (now + RATE_LIMIT_WINDOW_MS)
    | None => w = mkWindow 1 (now + RATE_LIMIT_WINDOW_MS)
    end.
Proof.
  intros Hlen. unfold rate_window, rate_key. set (k := window_key _ _).
  set (w0 := match jget k windows with Some w => if now <? rw_expiresAt w then w else _ | None => _ end). set (w := mkWindow _ _).
  pose proof (jset_length k w windows) as Hl. change maximumEntries with 10000 in *. rewrite (proj2 (Z.ltb_ge _ _)) by lia. exists w. split; [done|].
  unfold w, w0. destruct (jget k windows) as [x|]; [|done]. by destruct (now <? rw_expiresAt x).
Qed.
(** The window of a key as far as these requests see it: [n] requests counted. *)
Definition counted (k : string) (t0 n : Z) (windows : Windows) : Prop :=
  match jget k windows with
  | Some w => rw_count w = n /\ t0 + RATE_LIMIT_WINDOW_MS <= rw_expiresAt w \/ n = 0 /\ rw_expiresAt w <= t0
  | None => n = 0
  end.
Lemma requests_of_cons k now r l : requests_of k ((now, r) :: l) = (if String.eqb (rate_key r) k then 1 else 0) + requests_of k l.
Proof. unfold requests_of. cbn. destruct (String.eqb (rate_key r) k); cbn [length]; lia. Qed.
Lemma admissions_counted k t0 limit l : 0 <= limit -> forall n windows, 0 <= n -> counted k t0 n windows ->
  Forall (fun '(t, r) => t0 <= t < t0 + RATE_LIMIT_WINDOW_MS /\ (rate_key r = k -> rate_limit_of r = limit)) l ->
  (length windows + length l <= Z.to_nat maximumEntries)%nat ->
  admissions k windows l = Z.min (n + requests_of k l) limit - Z.min n limit.
Proof.
  intros Hlimit. induction l as [|[t r] l IH]; intros n windows Hn Hc Hl Hlen; [unfold requests_of; cbn [List.filter length admissions]; lia|].
  apply Forall_cons in Hl as [[Ht Hr] Hl]. cbn [admissions length] in *. rewrite requests_of_cons.
  destruct (rate_window_eq t r windows ltac:(lia)) as (w & -> & Hw). pose proof (jset_length (rate_key r) w windows) as Hset.
  destruct (String.eqb_spec (rate_key r) k) as [Hk|Hk]; cbn [andb].
  - specialize (Hr Hk). rewrite Hk in *. assert (Hw' : rw_count w = n + 1 /\ t0 + RATE_LIMIT_WINDOW_MS <= rw_expiresAt w).
    { unfold counted, RATE_LIMIT_WINDOW_MS in *. destruct (jget k windows) as [w0|].
      - destruct (t <? rw_expiresAt w0) eqn:He; bool_to_Z; subst w; cbn; destruct Hc as [[? ?]|[? ?]]; lia.
      - subst w. cbn. lia. }
    rewrite (IH (n + 1)); [|lia| |done|lia].
    + unfold rate_admits. rewrite Hr. destruct (rw_count w <=? limit) eqn:Hadm; bool_to_Z; lia.
    + unfold counted. rewrite jget_jset, String.eqb_refl. left. lia.
  - rewrite (IH n); [lia|done| |done|lia]. unfold counted in *. rewrite jget_jset. by rewrite (proj2 (String.eqb_neq _ _)) by congruence.
Qed.
(** C36: Of the requests that count against one key (an address and a bucket)
    in the minute after an instant at which the key has no open window, the
    middleware lets through the first [limit] and no others, however many keys
    the other requests use, as long as the map of windows stays below the size
    at which it is swept. *)
Theorem rate_budget k t0 limit windows l : 0 <= limit ->
  (forall w, jget k windows = Some w -> rw_expiresAt w <= t0) ->
  Forall (fun '(t, r) => t0 <= t < t0 + RATE_LIMIT_WINDOW_MS /\ (rate_key r = k -> rate_limit_of r = limit)) l ->
  (length windows + length l <= Z.to_nat maximumEntries)%nat ->
  admissions k windows l = Z.min (requests_of k l) limit.
Proof.
  intros Hlimit Hfree Hl Hlen. rewrite (admissions_counted k t0 limit l Hlimit 0 windows); [rewrite Z.add_0_l; lia|lia| |done|done].
  unfold counted. destruct (jget k windows) as [w|]; [right; auto|done].
Qed.
(** The buckets there are: the path of a request cannot mint new ones. *)
Definition bucket_names : list string :=
  ["unclassified"; "accounts"; "transfers"; "channels"; "security-ops"; "sabcl"; "auth:unclassified"; "auth:session"; "auth:onboarding";
   "auth:fallback"; "auth:passkeys"; "auth:logout"].
Lemma buckets_finite path : rb_name (classifyRateLimitBucket path) ∈ bucket_names /\ 20 <= rb_limit (classifyRateLimitBucket path) <= 120.
Proof.
  assert (Hin : forall n, existsb (String.eqb n) bucket_names = true -> n ∈ bucket_names).
  { intros n (x & Hx & ->%String.eqb_eq)%existsb_exists. by apply list_elem_of_In. }
  unfold classifyRateLimitBucket. set (segments := List.filter _ _). clearbody segments.
  destruct (segments !! 2%nat) as [segment|]; [|split; [by apply Hin|cbn; unfold UNKNOWN_SEGMENT_LIMIT, DEFAULT_LIMIT, UNKNOWN_AUTH_LIMIT; lia]].
  destruct (existsb (String.eqb segment) KNOWN_SEGMENTS) eqn:Hk; cbn [negb]; [|split; [by apply Hin|cbn; unfold UNKNOWN_SEGMENT_LIMIT, DEFAULT_LIMIT, UNKNOWN_AUTH_LIMIT; lia]].
  destruct (String.eqb_spec segment "auth") as [->|Hne]; cbn [negb].
  - destruct (segments !! 3%nat) as [family|]; [|split; [by apply Hin|cbn; unfold UNKNOWN_SEGMENT_LIMIT, DEFAULT_LIMIT, UNKNOWN_AUTH_LIMIT; lia]].
    destruct (jget family AUTH_FAMILIES) as [limit|] eqn:Hf; [|split; [by apply Hin|cbn; unfold UNKNOWN_AUTH_LIMIT; lia]].
    apply jget_elem in Hf. unfold AUTH_FAMILIES in Hf.
    repeat (apply elem_of_cons in Hf as [[= -> ->]|Hf]; [split; [by apply Hin|cbn; lia]|]). by apply not_elem_of_nil in Hf.
  - split; [|cbn; unfold UNKNOWN_SEGMENT_LIMIT, DEFAULT_LIMIT, UNKNOWN_AUTH_LIMIT; lia]. apply existsb_exists in Hk as (x & Hx & ->%String.eqb_eq). apply list_elem_of_In in Hx. cbn [rb_name].
    unfold KNOWN_SEGMENTS in Hx. repeat (apply elem_of_cons in Hx as [->|Hx]; [first [done|by apply Hin]|]). by apply not_elem_of_nil in Hx.
Qed.

(** ** What the code says otherwise *)
(** No channel route is behind the rate limit, for a router whose patterns
    match only paths under their prefix. *)
Lemma channels_unlimited matches c :
  (forall prefix path, matches (prefix +:+ "*") path = true -> String.prefix ("/" +:+ prefix) path = true) ->
  rate_limited matches (route_address (OnChannels c)).2 = false.
Proof.
  intros Hm. apply not_true_iff_false. intros (p & Hp & Hmatch)%existsb_exists. apply list_elem_of_In in Hp. unfold limited_routes in Hp.
  assert (Hno : forall prefix, String.prefix ("/" +:+ prefix) (route_address (OnChannels c)).2 = false ->
    matches (prefix +:+ "*") (route_address (OnChannels c)).2 = true -> False) by (intros prefix H0 H1%Hm; congruence).
  repeat (apply elem_of_cons in Hp as [->|Hp];
    [first [by eapply (Hno "api/v1/auth/"); [destruct c|]|by eapply (Hno "api/v1/accounts/"); [destruct c|]
           |by eapply (Hno "api/v1/transfers/"); [destruct c|]|by eapply (Hno "api/v1/security-ops/"); [destruct c|]]|]).
  by apply not_elem_of_nil in Hp.
Qed.
(** An agent preview that repeats the reference the gateway sends is refused by
    the contract of its answer. *)
Lemma placeholder_agent_refused {zod : Zod} v : jfield "agentReference" v = JStr placeholder_agent -> agentCashPreviewResponseSchema v = None.
Proof.
  intros Hv. destruct (agentCashPreviewResponseSchema v) as [w|] eqn:Hw; [|done]. exfalso.
  edestruct (object_field Strict _ v w "agentReference" agent_reference Hw) as [x Hx]; [do 3 right; left|].
  by rewrite Hv in Hx.
Qed.
(** No capability of SABCL covers a channel endpoint of Payments. *)
Definition covered (path method : string) : bool :=
  existsb (fun e => let c := ce_capability e in existsb (String.eqb method) (ca_methods c) && existsb (fun p => rx_match p path) (ca_pathPatterns c))
    SABCL_CAPABILITIES.
Definition channel_endpoints : list string :=
  ([PAYMENTS_ENDPOINTS.qrIssue; PAYMENTS_ENDPOINTS.qrPreview; PAYMENTS_ENDPOINTS.qrRedeem; PAYMENTS_ENDPOINTS.agentCashInPreview;
    PAYMENTS_ENDPOINTS.agentCashOutPreview; PAYMENTS_ENDPOINTS.agentCashConfirm; "/internal/ussd/simulate"; "/internal/ussd/webhook"])%string.
Lemma channels_not_covered : existsb (fun path => covered path "POST") channel_endpoints = false.
Proof. vm_compute. reflexivity. Qed.
Lemma transfers_covered : covered PAYMENTS_ENDPOINTS.confirm "POST" = true.
Proof. vm_compute. reflexivity. Qed.
