(* ===== verification/GatewayWitnesses.v ===== *)
(** * The gateway at concrete inputs: a deployment whose services answer, and
    the requests of one customer *)

From Stdlib Require Import ZArith Lia Ascii String.
From stdpp Require Import base strings list.
From S2P Require Import Prelude.
From S2P Require Import Js.
From S2P Require Import Codec.
From S2P Require Import JsNumber.
From S2P Require Import Regex.
From S2P Require Import Contracts.
From S2P Require Import Security.
From S2P Require Import Services.
From S2P Require Import RiskTypes.
From S2P Require Import LedgerDb.
From S2P Require Import RiskService.
From S2P Require Import SabclWire.
From S2P Require Import SabclCrypto.
From S2P Require Import SabclServices.
From S2P Require Import Fixtures.
From S2P Require Import Schemas.
From S2P Require Import WireContracts.
From S2P Require Import GatewayHttp.
From S2P Require Import Gateway.
From S2P Require Import GatewayRoutes.
From S2P Require Import GatewayServer.
From S2P Require Import GatewayProofs.
From S2P Require Import GatewayProperties.

Open Scope Z_scope.

Definition uuid_char (c : ascii) : bool := alnum c || Ascii.eqb c "-".
#[local] Instance gw_zod : Zod := {|
  z_uuid := fun s => (String.length s =? 36)%nat && str_all uuid_char s;
  z_datetime := fun s => bool_decide (is_Some (date_parse s))
|}.
Lemma uuid_chars c : uuid_char c = true -> header_space c = false /\ header_char c = true.
Proof.
  intros Hc. assert (Hall : forallb (fun n => let c := ascii_of_nat n in negb (uuid_char c) || negb (header_space c) && header_char c) (seq 0 256) = true)
    by (vm_compute; reflexivity).
  rewrite forallb_forall in Hall. specialize (Hall (nat_of_ascii c)). cbv zeta in Hall. rewrite ascii_nat_embedding, Hc in Hall.
  pose proof (nat_ascii_bounded c). rewrite in_seq in Hall. specialize (Hall ltac:(lia)). cbn [negb orb] in Hall.
  apply andb_prop in Hall as [H1%negb_true_iff H2]. done.
Qed.
Lemma uuid_trim_end s : str_all uuid_char s = true -> header_trim_end s = s.
Proof.
  induction s as [|c s IH]; [done|]. cbn [str_all header_trim_end]. intros [Hc Hs]%andb_prop. rewrite (IH Hs). destruct s; [|done].
  by rewrite (proj1 (uuid_chars c Hc)).
Qed.
Lemma uuid_header_chars s : str_all uuid_char s = true -> str_all header_char s = true.
Proof.
  induction s as [|c s IH]; [done|]. cbn [str_all]. intros [Hc Hs]%andb_prop. by rewrite (proj2 (uuid_chars c Hc)), IH.
Qed.
Lemma gw_uuid_in_header id : z_uuid id = true -> id <> ""%string /\ header_value id = Some id.
Proof.
  cbn [z_uuid gw_zod]. intros [Hlen Hs]%andb_prop. split; [by intros ->|]. unfold header_value.
  assert (Hstart : header_trim_start id = id).
  { destruct id as [|c id]; [done|]. cbn [str_all] in Hs. apply andb_prop in Hs as [Hc _]. cbn. by rewrite (proj1 (uuid_chars c Hc)). }
  unfold checked. by rewrite Hstart, uuid_trim_end, uuid_header_chars.
Qed.

(** ** Services that answer *)
Definition money (minor : string) : json := JObj [("currency", JStr "LKR"); ("minorUnits", JStr minor)]%string.
Definition gw_customer : string := "00000000-0000-4000-8000-000000000801".
Definition gw_account : string := "00000000-0000-4000-8000-000000000811".
Definition gw_transfer : string := "00000000-0000-4000-8000-000000000821".
Definition gw_instant : string := "2026-07-31T14:30:45.678Z".
Definition session_document : json := JObj
  [("authenticated", JBool true); ("authenticationMethod", JStr "PASSKEY"); ("expiresAt", JStr gw_instant);
   ("user", JObj [("id", JStr gw_customer); ("phoneMasked", JStr "+94*****567"); ("preferredLanguage", JStr "EN"); ("kycTier", JNum 0);
                  ("status", JStr "ACTIVE"); ("phoneVerified", JBool true)])]%string.
Definition control_document (allowed : bool) : json := JObj
  [("allowed", JBool allowed); ("decision", JStr (if allowed then "ALLOW" else "BLOCK")); ("reasonCodes", JArr []); ("requiresStepUp", JBool false);
   ("expiresAt", JNull)]%string.
Definition assessment_document : json := JObj
  [("assessmentId", JStr gw_transfer); ("score", JNum 5); ("band", JStr "LOW"); ("decision", JStr "ALLOW"); ("triggeredRules", JArr []);
   ("reasonCodes", JArr []); ("controlRecommendation", JNull); ("expiresAt", JStr gw_instant); ("ruleSetVersion", JStr "1");
   ("publicExplanation", JStr "Allowed.")]%string.
Definition transfer_document : json := JObj
  [("id", JStr gw_transfer); ("displayReference", JStr "AEGIS-TRF-AAAA-BBBB-CCCC"); ("direction", JStr "SENT"); ("status", JStr "COMPLETED");
   ("accountId", JStr gw_account); ("counterpartyMaskedReference", JStr "AEGIS-****-****-WXYZ"); ("amount", money "12550");
   ("createdAt", JStr gw_instant); ("completedAt", JStr gw_instant); ("transactionId", JNull); ("balanceAfter", money "87450");
   ("failureCode", JNull); ("ownMaskedReference", JStr "AEGIS-****-****-ABCD")]%string.
Definition balance_document : json := JObj
  [("accountId", JStr gw_account); ("balance", money "87450"); ("updatedAt", JStr gw_instant)]%string.
Definition good (body : json) : option HttpReply := Some (mkHttpReply 200 (Some body)).
(** The environment says whether Risk finds no active control. *)
#[local] Instance gw_services : Upstreams bool := {|
  fetch c allowed :=
    (match gc_to c, gc_path c with
     | ToIdentity, "/api/v1/auth/session" => good session_document
     | ToIdentity, _ => good (JObj [])
     | ToRisk, "/internal/v1/controls/check" => good (control_document allowed)
     | ToRisk, "/internal/v1/assessments/evaluate" => good assessment_document
     | ToRisk, _ => good (JObj [])
     | ToPayments, "/internal/transfers" => good transfer_document
     | ToPayments, _ => Some (mkHttpReply 204 None)
     | ToLedger, _ => good balance_document
     | _, _ => None
     end%string, allowed);
  sabcl_send c allowed := (Ok (mkInnerResponse 200 (Some balance_document)), allowed)
|}.
Definition gw_config : GatewayConfig := mkGatewayConfig "development" "http://identity" "identity-token" "http://ledger" "ledger-token"
  "http://payments" "payments-token" "http://risk" "risk-token" "gateway-source" "aegis_session" "aegis_csrf" 3000 5000 5000 2000
  "aegis_operator_session" "aegis_operator_csrf" "http://router" 8000 "http://resilience" "resilience-source" 4000.
Definition gw_request (csrf : string) (body : json) : GwRequest := mkGwRequest (Some "10.0.0.1"%string)
  (Some "aegis_session=session-of-alice-000001; aegis_csrf=token-1"%string) None (Some csrf) (Some "transfer-key-000001"%string)
  "00000000-0000-4000-8000-000000000999" (JObj []) body.
Definition confirm_body : json := JObj
  [("intentToken", JStr "intent-token-000000000000000000000000000000000001"); ("pin", JStr "274913")]%string.
Definition gw_start (allowed : bool) : GwState (Traced bool) := fresh_response (mkTraced allowed []) 1.
Definition paths (h : list Event) : list string := map (fun e => match e with Called c _ => gc_path c | Sealed c _ => iq_path (sd_request c) end) h.

(** A transfer goes through, in this order of calls. *)
Lemma confirm_guarded_witness :
  paths (events (transfer_confirm gw_config None fx_now (gw_request "token-1" confirm_body) (gw_start true)).2) =
    ["/api/v1/auth/session"; "/internal/v1/controls/check"; "/api/v1/auth/transfer-step-up"; "/internal/v1/assessments/evaluate";
     "/internal/transfer-intents/intent-token-000000000000000000000000000000000001/authorize"; "/internal/transfers"; "/internal/v1/events"]%string /\
  guarded gw_config (gw_request "token-1" confirm_body)
    (events (transfer_confirm gw_config None fx_now (gw_request "token-1" confirm_body) (gw_start true)).2).
Proof.
  split; [vm_compute; reflexivity|].
  exact (confirm_guarded gw_config None fx_now (gw_request "token-1" confirm_body) (gw_start true) eq_refl).
Defined.
Lemma strict_never_plain_witness :
  paths (events (handle_route gw_config (Some strict) fx_now (OnAccounts (AccountBalance gw_account)) (gw_request "" (JObj [])) (gw_start true)).2) =
    ["/api/v1/auth/session"; "/internal/customer-accounts/" +:+ gw_account +:+ "/balance"]%string /\
  Forall sealed_or_probe
    (events (handle_route gw_config (Some strict) fx_now (OnAccounts (AccountBalance gw_account)) (gw_request "" (JObj [])) (gw_start true)).2).
Proof.
  split; [vm_compute; reflexivity|].
  exact (strict_never_plain gw_config (Some strict) fx_now (OnAccounts (AccountBalance gw_account)) (gw_request "" (JObj [])) (gw_start true) eq_refl eq_refl).
Defined.
Lemma csrf_required_witness :
  Forall reads_only (events (handle_route gw_config None fx_now (OnTransfers TransferConfirm) (gw_request "forged!" confirm_body) (gw_start true)).2) /\
  (is_ok (handle_route gw_config None fx_now (OnTransfers TransferConfirm) (gw_request "forged!" confirm_body) (gw_start true)).1 = true ->
   OnTransfers TransferConfirm = Auth Logout /\
   readCookie (gq_cookie (gw_request "forged!" confirm_body)) (sessionCookieName gw_config) = Some ""%string).
Proof.
  exact (csrf_required gw_config None fx_now (OnTransfers TransferConfirm) "aegis_csrf" (gw_request "forged!" confirm_body) invalid_csrf (gw_start true)
    eq_refl eq_refl eq_refl).
Defined.
Lemma calls_act_for_session_witness :
  bound gw_config (gw_request "token-1" confirm_body)
    (events (handle_route gw_config None fx_now (OnTransfers TransferConfirm) (gw_request "token-1" confirm_body) (gw_start true)).2).
Proof.
  destruct (calls_act_for_session gw_config None fx_now gw_uuid_in_header (OnTransfers TransferConfirm) (gw_request "token-1" confirm_body) (gw_start true)
    eq_refl) as [H _]. apply H. discriminate.
Defined.
Definition balance_state : GwState bool :=
  (handle_route gw_config None fx_now (OnAccounts (AccountBalance gw_account)) (gw_request "" (JObj [])) (fresh_response true 1)).2.
Definition from_alice (t : Z) : Z * RateRequest :=
  (t, mkRateRequest "/api/v1/auth/unknown/route?x=1" "/unknown/route" (Some "10.0.0.1"%string)).
Definition burst : list (Z * RateRequest) := map (fun n => from_alice (fx_now + Z.of_nat n)) (seq 0 30).
Lemma rate_budget_witness : admissions "10.0.0.1:auth:unclassified" [] burst = Z.min (requests_of "10.0.0.1:auth:unclassified" burst) 20.
Proof.
  refine (rate_budget "10.0.0.1:auth:unclassified" fx_now 20 [] burst _ _ _ _).
  - lia.
  - intros w Hw. discriminate Hw.
  - unfold burst. apply Forall_map, Forall_forall. intros n Hn%list_elem_of_In%in_seq. cbn [from_alice]. split; [unfold RATE_LIMIT_WINDOW_MS; lia|reflexivity].
  - apply Nat.leb_le. vm_compute. reflexivity.
Defined.
Example burst_admitted : admissions "10.0.0.1:auth:unclassified" [] burst = 20.
Proof. vm_compute. reflexivity. Qed.
