(* ===== verification/Deployment.v ===== *)
(** * Services that start from one environment: what their configurations
    promise, and that what one of them sends another is admitted *)

From Stdlib Require Import ZArith Lia Ascii String.
From stdpp Require Import base strings list gmap.
From S2P Require Import Prelude.
From S2P Require Import Js.
From S2P Require Import JsNumber.
From S2P Require Import Regex.
From S2P Require Import Contracts.
From S2P Require Import Security.
From S2P Require Import RiskTypes.
From S2P Require Import LedgerDb.
From S2P Require Import Idempotency.
From S2P Require Import PaymentsDb.
From S2P Require Import Peers.
From S2P Require Import PaymentsInv.
From S2P Require Import PaymentProofs.
From S2P Require Import RiskDb.
From S2P Require Import RiskService.
From S2P Require Import IdentityDb.
From S2P Require Import SabclWire.
From S2P Require Import SabclCrypto.
From S2P Require Import SabclServices.
From S2P Require Import SabclWireProofs.
From S2P Require Import BackupCrypto.
From S2P Require Import Schemas.
From S2P Require Import GatewayHttp.
From S2P Require Import Gateway.
From S2P Require Import GatewayRoutes.
From S2P Require Import GatewayServer.
From S2P Require Import GatewayProofs.
From S2P Require Import GatewayProperties.
From S2P Require Import Settings.

Open Scope Z_scope.

(** The services of one deployment, on one environment. *)
Record Deployment := mkDeployment {
  de_gateway : GatewayConfig;
  de_ledger : LedgerConfig;
  de_payments : PaymentsConfig;
  de_identity : IdentityConfig;
  de_risk : RiskConfig;
  de_resilience : ResilienceConfig
}.
Definition deploy {urls : Urls} (env : gmap string string) : Setup Deployment :=
  gateway ← createGatewayConfig env;
  ledger ← createLedgerConfig env;
  payments ← createPaymentsConfig env;
  identity ← createIdentityConfig env;
  risk ← createRiskConfig env;
  resilience ← createResilienceConfig env;
  mret (mkDeployment gateway ledger payments identity risk resilience).

(** ** Runs of the start-up code *)
Lemma setup_when_inv b m u : setup_when b m = Ok u -> b = false.
Proof. by destruct b. Qed.
Lemma setup_some_inv {A} (o : option A) e a : setup_some o e = Ok a -> o = Some a.
Proof. destruct o; [by intros [= ->]|done]. Qed.
Lemma required_inv env name t : required env name = Ok t -> t = setting env name /\ t <> ""%string.
Proof.
  unfold required. intros (u & Hu%setup_when_inv & [= <-])%result_bind_inv. split; [done|]. by apply String.eqb_neq.
Qed.
Ltac units := repeat match goal with u : unit |- _ => destruct u end.
Ltac setup_run :=
  repeat match goal with
  | H : (_ ≫= _) = Ok _ |- _ => let Hs := fresh "Hs" in apply result_bind_inv in H as (? & Hs & H)
  | H : setup_when _ _ = Ok _ |- _ => apply setup_when_inv in H
  | H : setup_some _ _ = Ok _ |- _ => apply setup_some_inv in H
  | H : required _ _ = Ok _ |- _ => apply required_inv in H as [-> H]
  | H : mret _ = Ok _ |- _ => injection H as H
  | H : Ok _ = Ok _ |- _ => injection H as H
  | H : Err _ = Ok _ |- _ => discriminate H
  end.
Lemma integer_between_inv lo hi m raw z : integer_between lo hi m raw = Ok z ->
  lo <= z < 2 ^ 53 /\ (forall h, hi = Some h -> z <= h).
Proof.
  unfold integer_between. destruct (JsNumber.safe_integer _) as [v|] eqn:Hv; [|done]. intros (u & Hu%setup_when_inv & [= <-])%result_bind_inv.
  unfold JsNumber.safe_integer in Hv. apply bind_Some in Hv as (w & _ & Hw). destruct (Z.ltb_spec (Z.abs w) (2 ^ 53)); [|done].
  injection Hw as ->. apply orb_false_iff in Hu as [Hlo Hhi]. split; [lia|]. intros h ->. lia.
Qed.

(** ** Bounds of what the numeric settings can be *)
Lemma fallback_integer_inv (blank : bool) (fallback lo : Z) hi m raw z :
  (if blank then mret fallback else integer_between lo hi m raw) = Ok z -> lo <= fallback < 2 ^ 53 -> (forall h, hi = Some h -> fallback <= h) ->
  lo <= z < 2 ^ 53 /\ (forall h, hi = Some h -> z <= h).
Proof. destruct blank; [by intros [= <-]|intros H _ _]. by eapply integer_between_inv. Qed.
(** A positive integer of JavaScript. *)
Definition positive (z : Z) : Prop := 1 <= z < 2 ^ 53.
Lemma positive_setting (blank : bool) fallback lo m raw z :
  (if blank then mret fallback else integer_between lo None m raw) = Ok z -> positive lo -> positive fallback -> lo <= fallback ->
  lo <= z /\ positive z.
Proof.
  unfold positive. intros H Hlo Hf Hle. destruct (fallback_integer_inv _ _ _ _ _ _ _ H) as [Hz _]; [lia|done|]. lia.
Qed.
Lemma minor_positive env name fallback z : minor env name fallback = Ok z -> 0 < z.
Proof.
  unfold minor. intros (u & Hu%setup_when_inv & [= <-])%result_bind_inv. by apply negb_false_iff, rx_match_in, positive_value in Hu.
Qed.
Ltac settings :=
  setup_run;
  repeat match goal with
  | H : ledger_integer _ _ _ _ = Ok _ |- _ => apply positive_setting in H as [? H]; [|unfold positive; lia..]
  | H : payments_integer _ _ _ _ = Ok _ |- _ => apply positive_setting in H as [? H]; [|unfold positive; lia..]
  | H : identity_integer _ _ _ _ = Ok _ |- _ => apply positive_setting in H as [? H]; [|unfold positive; lia..]
  | H : minor _ _ _ = Ok _ |- _ => apply minor_positive in H
  | H : risk_integer _ _ _ _ _ = Ok _ |- _ => apply integer_between_inv in H as [? H]; specialize (H _ eq_refl)
  | H : (_ || _) = false |- _ => apply orb_false_iff in H as [? H]
  end.
Record ledger_bounds (c : LedgerConfig) : Prop := {
  lb_retries : 1 <= maxPostingRetries c <= 10;
  lb_retention : positive (idempotencyRetentionHours c);
  lb_timeout : 100 <= lc_riskTimeoutMs c
}.
Lemma ledger_settings env c : createLedgerConfig env = Ok c -> ledger_bounds c.
Proof. unfold createLedgerConfig. intros H. settings. subst c. unfold positive in *. split; cbn [maxPostingRetries] in *; cbn; unfold positive; lia. Qed.
Record payments_bounds (c : PaymentsConfig) : Prop := {
  pb_limits : 0 < minTransferMinor c <= maxTransferMinor c /\ maxTransferMinor c <= dailyOutgoingLimitMinor c;
  pb_attempts : positive (maxProcessingAttempts c);
  pb_intents : positive (intentTtlSeconds c);
  pb_stale : positive (recoveryStaleSeconds c);
  pb_codes : positive (qrDynamicTtlSeconds c) /\ positive (qrStaticTtlHours c);
  pb_key : qrSigningKey c <> ""%string
}.
Lemma payments_settings {urls : Urls} env c : createPaymentsConfig env = Ok c -> payments_bounds c.
Proof.
  unfold createPaymentsConfig. intros H. settings. subst c. split; cbn in *; unfold positive in *; try lia; done.
Qed.
Record identity_bounds (c : IdentityConfig) : Prop := {
  ib_sessions : 1 <= sessionIdleTtlSeconds c <= sessionAbsoluteTtlSeconds c /\ sessionAbsoluteTtlSeconds c < 2 ^ 53;
  ib_codes : positive (otpTtlSeconds c) /\ positive (otpResendCooldownSeconds c) /\ positive (otpMaxAttempts c) /\ positive (otpRequestLimitPerHour c);
  ib_step_up : positive (transferStepUpMaxAttempts c) /\ positive (transferStepUpLockSeconds c);
  ib_prefix : rx_in identity_prefix (id_redisKeyPrefix c)
}.
Lemma identity_settings env c : createIdentityConfig env = Ok c -> identity_bounds c.
Proof.
  unfold createIdentityConfig. intros H. settings. subst c. split; cbn in *; unfold positive in *; try lia.
  by apply rx_match_in, negb_false_iff.
Qed.
Record risk_bounds (c : RiskConfig) : Prop := {
  kb_retention : 1 <= retentionDays c <= 365;
  kb_assessments : 30 <= assessmentTtlSeconds c <= 3600;
  kb_operators : 300 <= operatorSessionTtlSeconds c <= 3600;
  kb_port : 1 <= rk_port c <= 65535
}.
Lemma risk_settings env c : createRiskConfig env = Ok c -> risk_bounds c.
Proof. unfold createRiskConfig. intros H. settings. subst c. split; cbn in *; lia. Qed.

(** ** One environment *)
Section Deployed.
Context {urls : Urls}.
Variable env : gmap string string.
Lemma deploy_inv d : deploy env = Ok d ->
  createGatewayConfig env = Ok (de_gateway d) /\ createLedgerConfig env = Ok (de_ledger d) /\ createPaymentsConfig env = Ok (de_payments d) /\
  createIdentityConfig env = Ok (de_identity d) /\ createRiskConfig env = Ok (de_risk d) /\ createResilienceConfig env = Ok (de_resilience d).
Proof. unfold deploy. intros H. setup_run. by subst d. Qed.
Lemma text_setting_some name fallback : setting env name <> ""%string -> text_setting env name fallback = setting env name.
Proof. unfold text_setting, or_default. by intros ->%String.eqb_neq. Qed.

(** What is read from a required or present variable. *)
Record gateway_reads (c : GatewayConfig) : Prop := {
  gr_identity : identityInternalToken c = setting env "IDENTITY_INTERNAL_TOKEN" /\ identityInternalToken c <> ""%string;
  gr_ledger : ledgerInternalToken c = setting env "LEDGER_INTERNAL_TOKEN" /\ ledgerInternalToken c <> ""%string;
  gr_payments : paymentsInternalToken c = setting env "PAYMENTS_INTERNAL_TOKEN" /\ paymentsInternalToken c <> ""%string;
  gr_risk : riskInternalToken c = text_setting env "RISK_INTERNAL_TOKEN" "local-only-risk-internal-token-change-me";
  gr_source : riskGatewaySourceToken c = text_setting env "RISK_GATEWAY_SOURCE_TOKEN" "local-only-risk-gateway-source-change-me";
  gr_resilience : resilienceGatewaySourceToken c =
    text_setting env "RESILIENCE_GATEWAY_SOURCE_TOKEN" "local-only-resilience-gateway-source-change-me";
  gr_env : nodeEnvironment c = node_environment env;
  gr_cookies : sessionCookieName c = text_setting env "AUTH_SESSION_COOKIE_NAME" "aegis_session" /\
    csrfCookieName c = text_setting env "AUTH_CSRF_COOKIE_NAME" "aegis_csrf"
}.
Lemma gateway_settings c : createGatewayConfig env = Ok c -> gateway_reads c /\ gateway_production c = Ok tt.
Proof.
  unfold createGatewayConfig. intros H. setup_run. units. subst c. split; [by split|done].
Qed.
Lemma ledger_reads c : createLedgerConfig env = Ok c ->
  (lc_internalToken c = setting env "LEDGER_INTERNAL_TOKEN" /\ lc_internalToken c <> ""%string) /\
  lc_riskLedgerSourceToken c = text_setting env "RISK_LEDGER_SOURCE_TOKEN" "local-only-risk-ledger-source-change-me" /\
  lc_nodeEnvironment c = node_environment env /\ ledger_production c = Ok tt.
Proof. unfold createLedgerConfig. intros H. setup_run. units. by subst c. Qed.
Lemma payments_reads c : createPaymentsConfig env = Ok c ->
  (pc_internalToken c = setting env "PAYMENTS_INTERNAL_TOKEN" /\ pc_internalToken c <> ""%string) /\
  (pc_ledgerInternalToken c = setting env "LEDGER_INTERNAL_TOKEN" /\ pc_ledgerInternalToken c <> ""%string) /\
  pc_riskInternalToken c = text_setting env "RISK_INTERNAL_TOKEN" "local-only-risk-internal-token-change-me" /\
  pc_riskPaymentsSourceToken c = text_setting env "RISK_PAYMENTS_SOURCE_TOKEN" "local-only-risk-payments-source-change-me" /\
  pc_redisUrl c = text_setting env "REDIS_URL" "redis://:aegis-local-redis-change-me@127.0.0.1:6379/0" /\
  pc_nodeEnvironment c = node_environment env /\
  is_production (pc_nodeEnvironment c) && existsb (mentions placeholder_words) (payments_secrets c) = false.
Proof. unfold createPaymentsConfig. intros H. setup_run. by subst c. Qed.
Lemma identity_reads c : createIdentityConfig env = Ok c ->
  (id_internalToken c = setting env "IDENTITY_INTERNAL_TOKEN" /\ id_internalToken c <> ""%string) /\
  id_riskIdentitySourceToken c = text_setting env "RISK_IDENTITY_SOURCE_TOKEN" "local-only-risk-identity-source-change-me" /\
  id_redisUrl c = text_setting env "REDIS_URL" "redis://:aegis-local-redis-change-me@127.0.0.1:6379/0" /\
  id_sessionCookieName c = text_setting env "AUTH_SESSION_COOKIE_NAME" "aegis_session" /\
  id_csrfCookieName c = text_setting env "AUTH_CSRF_COOKIE_NAME" "aegis_csrf" /\
  id_nodeEnvironment c = node_environment env /\ identity_production c = Ok tt.
Proof. unfold createIdentityConfig. intros H. setup_run. units. by subst c. Qed.
Lemma risk_reads c : createRiskConfig env = Ok c ->
  (rk_internalToken c = setting env "RISK_INTERNAL_TOKEN" /\ rk_internalToken c <> ""%string) /\
  (forall s, sourceTokens c s = setting env (source_setting s) /\ sourceTokens c s <> ""%string) /\
  rk_identityInternalToken c = setting env "IDENTITY_INTERNAL_TOKEN" /\
  (rk_redisUrl c = setting env "REDIS_URL" /\ rk_redisUrl c <> ""%string) /\
  operatorBootstrapToken c = trim <$> env !! "RISK_OPERATOR_BOOTSTRAP_TOKEN" /\
  (is_production (node_environment env) = true ->
     default "" (operatorBootstrapToken c) = ""%string /\ first_placeholder local_words (risk_tokens env (rk_internalToken c)) = Ok tt).
Proof.
  unfold createRiskConfig. intros H. setup_run.
  match goal with Hm : mapM _ _ = Ok _ |- _ => unfold risk_sources in Hm; cbn [mapM] in Hm end. setup_run.
  subst c. cbn. split_and!; try done.
  - intros s; destruct s; cbn; split; done.
  - intros Hp. rewrite Hp in *. cbn in *. units. split; [|done].
    apply String.eqb_eq, negb_false_iff. done.
Qed.
Lemma resilience_reads c : createResilienceConfig env = Ok c ->
  (rs_internalToken c = setting env "RESILIENCE_INTERNAL_TOKEN" /\ rs_internalToken c <> ""%string) /\
  (rs_gatewayToken c = setting env "RESILIENCE_GATEWAY_SOURCE_TOKEN" /\ rs_gatewayToken c <> ""%string) /\
  rs_nodeEnvironment c = node_environment env /\
  (is_production (node_environment env) = true ->
     first_placeholder placeholder_words
       [("RESILIENCE_INTERNAL_TOKEN", rs_internalToken c); ("RESILIENCE_GATEWAY_SOURCE_TOKEN", rs_gatewayToken c);
        ("RESILIENCE_TOOLING_SOURCE_TOKEN", rs_toolingToken c)]%string = Ok tt /\
     mentions placeholder_words (rs_databaseUrl c) = false /\ rs_backupKeyConfigured c = true).
Proof.
  unfold createResilienceConfig. intros H. setup_run. subst c. cbn [rs_internalToken rs_gatewayToken rs_toolingToken rs_nodeEnvironment rs_databaseUrl
    rs_backupKeyConfigured]. split_and!; try done. intros Hp. rewrite Hp in *. cbn [andb] in *. units.
  split_and!; try done. match goal with Hk : backup_key _ _ = Ok _ |- _ => revert Hk end. unfold backup_key. rewrite Hp.
  destruct (negb _); [destruct (parseBackupKey _); [by intros [= <-]|done]|done].
Qed.

(** ** No placeholder in production *)
(** The credentials that the services present, check or connect with. *)
Definition credentials (d : Deployment) : list string :=
  (gateway_tokens (de_gateway d)).*2 ++ ledger_secrets (de_ledger d) ++ payments_secrets (de_payments d) ++ [pc_redisUrl (de_payments d)]
  ++ identity_secrets (de_identity d)
  ++ [rk_internalToken (de_risk d); rk_redisUrl (de_risk d); rk_identityInternalToken (de_risk d)] ++ map (sourceTokens (de_risk d)) risk_sources
  ++ [rs_internalToken (de_resilience d); rs_gatewayToken (de_resilience d); rs_toolingToken (de_resilience d); rs_databaseUrl (de_resilience d)].
Definition genuine (s : string) : Prop := mentions local_words s = false.
Lemma mentions_app a b s : mentions (a ++ b) s = mentions a s || mentions b s.
Proof. unfold mentions. apply existsb_app. Qed.
Lemma genuine_placeholder extra s : mentions (placeholder_words ++ extra) s = false -> genuine s.
Proof. unfold genuine, placeholder_words. rewrite !mentions_app. by intros [[-> _]%orb_false_iff _]%orb_false_iff. Qed.
Lemma genuine_list extra l : existsb (mentions (placeholder_words ++ extra)) l = false -> Forall genuine l.
Proof.
  intros H. apply Forall_forall. intros s Hs. apply (genuine_placeholder extra). apply not_true_iff_false. intros Hm.
  apply not_true_iff_false in H. apply H, existsb_exists. exists s. split; [by apply list_elem_of_In|done].
Qed.
Lemma first_placeholder_inv words tokens : first_placeholder words tokens = Ok tt -> Forall (fun t => mentions words t.2 = false) tokens.
Proof.
  unfold first_placeholder. destruct (find _ tokens) as [[k v]|] eqn:Hf; [done|]. intros _. apply Forall_forall. intros t Ht.
  apply (find_none _ _ Hf). by apply list_elem_of_In.
Qed.
Lemma gateway_genuine c : gateway_production c = Ok tt -> is_production (nodeEnvironment c) = true -> Forall genuine (gateway_tokens c).*2.
Proof.
  unfold gateway_production. intros H Hp. rewrite Hp in H. apply setup_when_inv, negb_false_iff, bool_decide_eq_true in H.
  apply Forall_fmap, Forall_forall. intros t Ht. apply not_true_iff_false. intros Hm. apply list_elem_of_In in Ht.
  assert (Hin : In t (List.filter (fun t => mentions local_words t.2) (gateway_tokens c))) by (by apply filter_In). by rewrite H in Hin.
Qed.
(** C13: when the gateway and the five services behind it start in production,
    none of the tokens they present or check, the keys Payments and Identity sign
    and encrypt with, the database URLs of Ledger, Payments, Identity and
    Resilience and the Redis URLs of Payments, Identity and Risk is one of the
    local placeholders, whichever of the services looks at it; demo codes are
    off, no operator can bootstrap a session and backups have a key. The database
    URL of Risk is not among them: nothing looks at it, and a deployment with the
    sample URL starts ([risk_database_unchecked] of DeploymentWitnesses). *)
Theorem production_credentials d : deploy env = Ok d -> node_environment env = "production"%string ->
  Forall genuine (credentials d) /\ demoAuthEnabled (de_identity d) = false /\
  default ""%string (operatorBootstrapToken (de_risk d)) = ""%string /\ rs_backupKeyConfigured (de_resilience d) = true.
Proof.
  intros Hd He. apply deploy_inv in Hd as (Hg & Hl & Hp & Hi & Hr & Hs). assert (Hprod : is_production (node_environment env) = true) by (by rewrite He).
  apply gateway_settings in Hg as [Hg Hgp]. apply gateway_genuine in Hgp; [|by rewrite (gr_env _ Hg)].
  apply ledger_reads in Hl as (_ & _ & Hle & Hlp). unfold ledger_production in Hlp. rewrite Hle, Hprod in Hlp. apply setup_when_inv in Hlp.
  apply payments_reads in Hp as (_ & _ & _ & _ & Hpr & Hpe & Hpp). rewrite Hpe, Hprod in Hpp. cbn [andb] in Hpp.
  apply identity_reads in Hi as ([Hit _] & _ & Hir & _ & _ & Hie & Hip). unfold identity_production in Hip. rewrite Hie, Hprod in Hip.
  apply setup_when_inv, orb_false_iff in Hip as [Hisec Hdemo]. apply genuine_list in Hisec.
  apply risk_reads in Hr as ([_ _] & Hrs & Hri & [Hrr Hrne] & _ & Hrp). destruct (Hrp Hprod) as [Hboot Hrt]. apply first_placeholder_inv in Hrt.
  apply resilience_reads in Hs as (_ & _ & _ & Hsp). destruct (Hsp Hprod) as (Hst & Hsd & Hsk). apply first_placeholder_inv in Hst.
  assert (Hredis : genuine (id_redisUrl (de_identity d)) /\ genuine (id_internalToken (de_identity d))).
  { split; apply (proj1 (Forall_forall _ _) Hisec); unfold identity_secrets; set_solver. }
  rewrite Hir in Hredis. rewrite text_setting_some in Hredis by (by rewrite <- Hrr).
  split_and!; try done. unfold credentials. rewrite !Forall_app. split_and!; try done.
  - by apply (genuine_list []); rewrite app_nil_r.
  - by apply (genuine_list []); rewrite app_nil_r.
  - constructor; [|done]. rewrite Hpr, text_setting_some by (by rewrite <- Hrr). apply Hredis.
  - inversion Hrt. repeat constructor; [done|rewrite Hrr; apply Hredis|]. rewrite Hri, <- Hit. apply Hredis.
  - unfold risk_tokens in Hrt. apply Forall_inv_tail in Hrt. rewrite Forall_map in Hrt |- *. eapply Forall_impl; [exact Hrt|].
    intros x Hx. unfold genuine. by rewrite (proj1 (Hrs x)).
  - apply (genuine_placeholder [] _) in Hsd. inversion Hst as [|? ? H1 Hst2]; subst. inversion Hst2 as [|? ? H2 Hst3]; subst. apply Forall_inv in Hst3 as H3.
    repeat constructor; try done; by apply (genuine_placeholder [] _).
Qed.

(** ** A call of the gateway is admitted by the service it goes to *)
Lemma header_space_space c : header_space c = true -> is_space c = true.
Proof.
  unfold header_space. intros H%bool_decide_eq_true. repeat (apply elem_of_cons in H as [->|H]; [done|]). by apply not_elem_of_nil in H.
Qed.
Lemma header_trim_end_trimmed s : header_trim_end (trim_end s) = trim_end s.
Proof.
  induction s as [|c s IH]; [done|]. cbn [trim_end]. destruct (trim_end s) as [|d t] eqn:Ht.
  - destruct (is_space c) eqn:Hc; [done|]. cbn [header_trim_end]. destruct (header_space c) eqn:Hh; [|done].
    apply header_space_space in Hh. congruence.
  - cbn [header_trim_end] in IH |- *. by rewrite IH.
Qed.
Lemma header_trim_trimmed s : header_trim_end (header_trim_start (trim s)) = trim s.
Proof.
  unfold trim. destruct (trim_start_head s) as [->|(c & r & -> & Hc)]; [done|].
  assert (H : exists t, trim_end (String c r) = String c t).
  { cbn [trim_end]. destruct (trim_end r); [rewrite Hc|]; eauto. }
  destruct H as [t Ht]. rewrite Ht. cbn [header_trim_start]. destruct (header_space c) eqn:Hh.
  - apply header_space_space in Hh. congruence.
  - rewrite <- Ht. apply header_trim_end_trimmed.
Qed.
Lemma setting_trim name : trim (setting env name) = setting env name.
Proof. unfold setting. destruct (env !! name) as [v|]; [apply trim_idem|done]. Qed.
Lemma timing_safe_refl t : t <> ""%string -> timingSafeStringEqual t t = true.
Proof. intros H. by apply timingSafeStringEqual_eq. Qed.
(** A token that reached the wire is the token. *)
Lemma admits_setting name w : setting env name <> ""%string -> header_value (setting env name) = Some w ->
  timingSafeStringEqual (supplied (Some w)) (setting env name) = true.
Proof.
  intros Hne. unfold header_value, checked. rewrite <- (setting_trim name), header_trim_trimmed, setting_trim.
  destruct (str_all _ _); [|done]. intros [= <-]. cbn. rewrite setting_trim. by apply timing_safe_refl.
Qed.
End Deployed.

(** The guard of the service a call goes to lets it through; what is sealed
    for SABCL goes to a service of the catalogue, by a route of its own
    ([SabclSettings] adds that the service lets its recipient through). *)
Definition catalogued (c : SealedCall) : Prop :=
  exists e, route_of (sd_routeId c) = Some e /\ sd_service c = ce_service e.
Definition guard_admits (d : Deployment) (e : Event) : Prop :=
  match e with
  | Called c _ =>
      let internal := jget "x-aegis-internal-token" (gc_headers c) in
      let source := jget "x-aegis-source-token" (gc_headers c) in
      match gc_to c with
      | ToIdentity => identity_canActivate (de_identity d) false internal = true
      | ToLedger => ledger_canActivate (de_ledger d) false internal = true
      | ToPayments => payments_canActivate (de_payments d) false internal = true
      | ToRisk => risk_canActivate (de_risk d) false internal = true \/
          gc_path c = "/internal/v1/events"%string /\ source_ok (sourceTokens (de_risk d) GATEWAY) (supplied source) = true
      | ToResilience => resilience_canActivate (de_resilience d) false internal source = true
      | ToRouter => False
      end
  | Sealed c _ => catalogued c
  end.
Section AcceptedCalls.
Context {Env : Type} {zod : Zod} {crypto : Crypto} {pg : Postgres} {upstreams : Upstreams Env} {urls : Urls}.
Abbreviation GwM := (M (GwState (Traced Env)) GwErr).
Variable env : gmap string string.
Variable d : Deployment.
Hypothesis Hd : deploy env = Ok d.
Variable mode : option SabclMode.
Variable now : Z.
Abbreviation g := (de_gateway d).
Abbreviation admits := (emits (guard_admits d)).

Lemma call_admits to method path headers body : (forall hs b reply, sent_headers headers = Some hs -> guard_admits d (Called (mkGwCall to method path hs b) reply)) ->
  admits (call to method path headers body).
Proof.
  intros H s. destruct (call_does to method path headers body s) as (new & Hn & Hev). exists new. split; [done|].
  destruct Hev as [[_ ->]|(hs & reply & Hhs & _ & ->)]; [constructor|]. constructor; [by apply H|constructor].
Qed.
Lemma sent_token name k v (headers hs : list (string * string)) : sent_headers headers = Some hs -> jget k headers = Some v ->
  v = setting env name -> setting env name <> ""%string -> timingSafeStringEqual (supplied (jget k hs)) (setting env name) = true.
Proof.
  intros Hhs Hk -> Hne. rewrite (jget_sent _ _ _ Hhs), Hk. cbn [mbind option_bind].
  destruct (header_value _) as [w|] eqn:Hw; [by apply admits_setting|]. exfalso.
  unfold sent_headers in Hhs. clear -Hhs Hk Hw. revert hs Hhs. induction headers as [|[k' v'] l IH]; intros hs; [done|]. cbn [mapM].
  intros ([k2 v2] & (x & Hx & [= <- <-])%bind_Some & (hs' & Hhs & [= <-])%bind_Some)%bind_Some. cbn [jget] in Hk.
  destruct (String.eqb k k'); [injection Hk as ->; congruence|by eapply IH].
Qed.
Lemma identity_admits endpoint method r body sid token : admits (identity_request g endpoint method r body sid token).
Proof.
  unfold identity_request. apply emits_bind; [|intros reply; emitting]. apply call_admits. intros hs b reply Hhs. cbn [guard_admits gc_to gc_headers].
  apply deploy_inv in Hd as (Hg & _ & _ & Hi & _). apply gateway_settings in Hg as [[[H1 H2] _] _].
  apply identity_reads in Hi as ([H3 _] & _). unfold identity_canActivate. cbn [orb]. rewrite H3. rewrite H1 in H2.
  by eapply sent_token; [exact Hhs|reflexivity|done|].
Qed.
Lemma risk_token : riskInternalToken g = setting env "RISK_INTERNAL_TOKEN" /\ rk_internalToken (de_risk d) = setting env "RISK_INTERNAL_TOKEN" /\
  setting env "RISK_INTERNAL_TOKEN" <> ""%string.
Proof.
  apply deploy_inv in Hd as (Hg & _ & _ & _ & Hr & _). apply gateway_settings in Hg as [[] _]. apply risk_reads in Hr as ([H1 H2] & _).
  rewrite H1 in H2. rewrite gr_risk0, text_setting_some by done. done.
Qed.
Lemma source_token : riskGatewaySourceToken g = setting env "RISK_GATEWAY_SOURCE_TOKEN" /\
  sourceTokens (de_risk d) GATEWAY = setting env "RISK_GATEWAY_SOURCE_TOKEN" /\ setting env "RISK_GATEWAY_SOURCE_TOKEN" <> ""%string.
Proof.
  apply deploy_inv in Hd as (Hg & _ & _ & _ & Hr & _). apply gateway_settings in Hg as [[] _]. apply risk_reads in Hr as (_ & Hs & _).
  destruct (Hs GATEWAY) as [H1 H2]. rewrite H1 in H2. cbn [source_setting] in H1, H2. rewrite gr_source0, text_setting_some by done. done.
Qed.
Lemma resilience_token : resilienceGatewaySourceToken g = setting env "RESILIENCE_GATEWAY_SOURCE_TOKEN" /\
  rs_gatewayToken (de_resilience d) = setting env "RESILIENCE_GATEWAY_SOURCE_TOKEN" /\ setting env "RESILIENCE_GATEWAY_SOURCE_TOKEN" <> ""%string.
Proof.
  apply deploy_inv in Hd as (Hg & _ & _ & _ & _ & Hr). apply gateway_settings in Hg as [[] _]. apply resilience_reads in Hr as (_ & [H1 H2] & _).
  rewrite H1 in H2. rewrite gr_resilience0, text_setting_some by done. done.
Qed.
Lemma risk_admits path method r body o : admits (risk_request g path method r body o).
Proof.
  unfold risk_request. apply emits_bind; [|intros reply; emitting]. apply call_admits. intros hs b reply Hhs. cbn [guard_admits gc_to gc_headers].
  destruct risk_token as (H1 & H2 & H3). left. unfold risk_canActivate. cbn [orb]. rewrite H2.
  by eapply sent_token; [exact Hhs|reflexivity|done|].
Qed.
Lemma emit_admits r e : admits (risk_emit g now r e).
Proof.
  unfold risk_emit. apply emits_bind; [apply silent_emits, silent_uuid|intros eventId].
  apply emits_bind; [apply silent_emits, silent_uuid|intros sourceId]. apply emits_bind; [emitting|intros _].
  apply emits_bind; [|intros _; emitting]. apply call_admits. intros hs b reply Hhs. cbn [guard_admits gc_to gc_headers gc_path].
  destruct source_token as (H1 & H2 & H3). right. split; [done|]. unfold source_ok. rewrite H2. apply andb_true_iff. split.
  - by apply negb_true_iff, String.eqb_neq.
  - by eapply sent_token; [exact Hhs|reflexivity|done|].
Qed.
Lemma resilience_admits path method r sch body : admits (resilience_request g path method r sch body).
Proof.
  unfold resilience_request. apply emits_bind; [|intros reply; emitting]. apply call_admits. intros hs b reply Hhs. cbn [guard_admits gc_to gc_headers].
  destruct resilience_token as (H1 & H2 & H3). unfold resilience_canActivate. cbn [orb existsb]. rewrite H2.
  apply orb_true_iff. right. apply orb_true_iff. left. by eapply sent_token; [exact Hhs|reflexivity|done|].
Qed.
(** The services that receive over SABCL, and their tokens. *)
Lemma service_tokens :
  Forall (fun '(token, name) => token = setting env name /\ setting env name <> ""%string)
    [(id_internalToken (de_identity d), "IDENTITY_INTERNAL_TOKEN"%string); (lc_internalToken (de_ledger d), "LEDGER_INTERNAL_TOKEN"%string);
     (pc_internalToken (de_payments d), "PAYMENTS_INTERNAL_TOKEN"%string)].
Proof.
  apply deploy_inv in Hd as (Hg & Hl & Hp & Hi & _). apply gateway_settings in Hg as [[[I1 I2] [L1 L2] [P1 P2]] _].
  apply identity_reads in Hi as ([I3 _] & _). apply ledger_reads in Hl as ([L3 _] & _). apply payments_reads in Hp as ([P3 _] & _).
  rewrite I1 in I2. rewrite L1 in L2. rewrite P1 in P2. by repeat constructor.
Qed.
Lemma domain_token to token name : (to, token, name) ∈
    [(ToIdentity, identityInternalToken g, "IDENTITY_INTERNAL_TOKEN"%string); (ToLedger, ledgerInternalToken g, "LEDGER_INTERNAL_TOKEN"%string);
     (ToPayments, paymentsInternalToken g, "PAYMENTS_INTERNAL_TOKEN"%string)] ->
  token = setting env name /\ setting env name <> ""%string /\
  forall method path hs b reply, timingSafeStringEqual (supplied (jget "x-aegis-internal-token" hs)) (setting env name) = true ->
    guard_admits d (Called (mkGwCall to method path hs b) reply).
Proof.
  pose proof service_tokens as Ht. apply Forall_cons in Ht as [[I3 I2] [[L3 L2] [[P3 P2] _]%Forall_cons]%Forall_cons].
  apply deploy_inv in Hd as (Hg & _). apply gateway_settings in Hg as [[[I1 _] [L1 _] [P1 _]] _].
  intros H. repeat (apply elem_of_cons in H as [[= -> -> ->]|H];
    [split_and!; [done|done|intros method path hs b reply Ht; cbn [guard_admits gc_to gc_headers];
      unfold identity_canActivate, ledger_canActivate, payments_canActivate; cbn [orb]; congruence]|]). by apply not_elem_of_nil in H.
Qed.
Lemma direct_admits c path method sch r body customerId : c = Gateway.ledger g \/ c = Gateway.payments g ->
  admits (requestDirect c path method sch r body customerId).
Proof.
  intros Hc. unfold requestDirect. apply emits_bind; [|intros reply; unfold accepted_body; emitting]. apply call_admits. intros hs b reply Hhs.
  destruct Hc as [-> | ->].
  - destruct (domain_token ToLedger (ledgerInternalToken g) "LEDGER_INTERNAL_TOKEN") as (H1 & H2 & H3); [right; left|].
    apply H3. by eapply sent_token; [exact Hhs|reflexivity|exact H1|].
  - destruct (domain_token ToPayments (paymentsInternalToken g) "PAYMENTS_INTERNAL_TOKEN") as (H1 & H2 & H3); [do 2 right; left|].
    apply H3. by eapply sent_token; [exact Hhs|reflexivity|exact H1|].
Qed.
Lemma domain_admits c path method sch r body customerId : c = Gateway.ledger g \/ c = Gateway.payments g ->
  admits (domain_request mode c path method sch r body customerId).
Proof.
  intros Hc. unfold domain_request. destruct (sabcl_enabled mode); [|by apply direct_admits]. unfold requestThroughSabcl.
  apply emits_bind.
  - intros s. unfold Gateway.sabcl_call. destruct mode as [m|]; [|by exists []; rewrite app_nil_r].
    destruct (route_of _) as [e|] eqn:Hroute; [|by exists []; rewrite app_nil_r]. unfold network. cbn [sabcl_send traced].
    destruct (sabcl_send _ _) as [answer env']. eexists. split; [done|]. constructor; [|constructor]. cbn [guard_admits]. exists e.
    split; [|done]. cbn [sd_routeId]. unfold route_of in *. apply find_some in Hroute as Hr. destruct Hr as [_ ->%String.eqb_eq]. exact Hroute.
  - intros [resp|[c'|n]]; unfold accepted_body; [emitting| |emitting]. destruct (sabcl_strict mode); [emitting|by apply direct_admits].
Qed.
Lemma ready_admits to token name : (to, token, name) ∈
    [(ToIdentity, identityInternalToken g, "IDENTITY_INTERNAL_TOKEN"%string); (ToLedger, ledgerInternalToken g, "LEDGER_INTERNAL_TOKEN"%string);
     (ToPayments, paymentsInternalToken g, "PAYMENTS_INTERNAL_TOKEN"%string)] -> admits (service_ready to token).
Proof.
  intros (H1 & H2 & H3)%domain_token. unfold service_ready. apply emits_bind; [|intros; emitting].
  destruct (header_value token) as [t|] eqn:Ht; [|emitting]. intros s. unfold network. cbn [fetch traced]. destruct (fetch _ _) as [reply env'].
  eexists. split; [done|]. constructor; [|done]. apply H3. cbn [jget]. rewrite H1 in Ht. by apply admits_setting.
Qed.
Lemma resolve_admits r : admits (resolve g r).
Proof.
  unfold resolve. apply emits_bind; [auto with quiet|intros sid]. apply emits_bind; [auto with quiet|intros _].
  apply emits_bind; [apply identity_admits|intros; emitting].
Qed.
Lemma csrf_admits r : admits (csrf g r : GwM string).
Proof. unfold csrf. emitting. Qed.
Lemma transfer_csrf_admits r customerId : admits (transfer_csrf g now r customerId : GwM string).
Proof. unfold transfer_csrf. apply emits_catch; [apply csrf_admits|intros e]. apply emits_bind; [apply emit_admits|intros; emitting]. Qed.
#[local] Hint Resolve csrf_admits transfer_csrf_admits identity_admits risk_admits emit_admits resilience_admits resolve_admits silent_uuid : quiet.
#[local] Hint Extern 2 (admits (domain_request _ _ _ _ _ _ _ _)) => (apply domain_admits; by (left + right)) : quiet.

(** Services that start from one environment work together: whatever request the
    gateway serves and whatever it is answered, every plain call it makes carries
    a credential that the guard of the service it goes to accepts. *)
Lemma gateway_guards_admit route r (s : GwState (Traced Env)) : events s = [] ->
  Forall (guard_admits d) (events (handle_route g mode now route r s).2).
Proof.
  intros Hs. assert (He : admits (handle_route g mode now route r)).
  { destruct route as [a|a|t|c|o|v|]; cbn [handle_route].
    - destruct a; cbn [handle_auth]; auth_unfold; emitting.
    - destruct a; cbn [handle_accounts]; accounts_unfold; emitting.
    - destruct t; cbn [handle_transfers]; transfers_unfold; emitting.
    - destruct c; cbn [handle_channels]; channels_unfold; emitting.
    - destruct o; cbn [handle_operators]; operators_unfold; emitting.
    - destruct v; cbn [handle_resilience]; resilience_unfold; emitting.
    - unfold getReadiness. do 3 (apply emits_bind; [eapply ready_admits; first [left|right; left|do 2 right; left]|intros ?]). emitting. }
  destruct (He s) as (new & Hn & Hq). by rewrite Hn, Hs.
Qed.
End AcceptedCalls.

(** ** Payments, as it is started *)
(** C3: whatever its environment, once Payments starts, every history of its
    transfer service is safe, whatever the Ledger and Risk answer. Whatever
    requests that keep the same promises run between its statements, transfers
    and intents keep distinct identifiers, no consumed intent is without its
    transfer, and no transfer is completed without the Ledger's identifiers or
    tried more often than allowed. When the requests that run in between also
    fail no transfer, no customer sends more than the daily limit on any day,
    and only failed transfers carry a failure code. The service's own [settle]
    does fail transfers, so two recovery runs that settle one transfer at the
    same time are outside this second part: [limit_exceeded_by_revival] of
    PaymentWitnesses is a run of them that exceeds the limit. *)
Theorem started_payments_safe {Env : Type} {peers : Peers Env} {zod : Zod} {crypto : Crypto} {pg : Postgres} {urls : Urls} env config :
  createPaymentsConfig env = Ok config ->
  (forall db, payments_history (Env := Env) config (keeps_core config) db -> PaymentsCore config db) /\
  (forall db, payments_history (Env := Env) config (harmless config) db -> PaymentsInv config db).
Proof.
  intros H. destruct (payments_settings env config H) as [Hl Ha _ _ _ _]. unfold positive in Ha.
  split; intros db; [apply payments_history_core|apply payments_history_inv]; lia.
Qed.
