(* ===== verification/SabclSettings.v ===== *)
(** * The parties of SABCL as one environment starts them
    ([packages/sabcl/src/config/environment.ts], [testing/fixtures.ts],
    [server/recipient-runtime.ts], [services/sabcl-router/src/common/config],
    [apps/api-gateway/src/sabcl/sabcl-transport.service.ts] and the sabcl/
    folders of the services) *)

From Stdlib Require Import ZArith Lia Ascii String.
From stdpp Require Import base strings list gmap.
From S2P Require Import Prelude.
From S2P Require Import Contracts.
From S2P Require Import LedgerDb.
From S2P Require Import Security.
From S2P Require Import GatewayRoutes.
From S2P Require Import GatewayServer.
From S2P Require Import GatewayProofs.
From S2P Require Import GatewayProperties.
From S2P Require Import Js.
From S2P Require Import JsNumber.
From S2P Require Import Codec.
From S2P Require Import Services.
From S2P Require Import Regex.
From S2P Require Import RiskTypes.
From S2P Require Import Idempotency.
From S2P Require Import PaymentsDb.
From S2P Require Import IdentityDb.
From S2P Require Import SabclWire.
From S2P Require Import SabclCrypto.
From S2P Require Import SabclServices.
From S2P Require Import SabclWireProofs.
From S2P Require Import SabclSealProofs.
From S2P Require Import SabclProperties.
From S2P Require Import SabclNetwork.
From S2P Require Import Schemas.
From S2P Require Import GatewayHttp.
From S2P Require Import Gateway.
From S2P Require Import Settings.
From S2P Require Import Deployment.

Open Scope Z_scope.

(** The URL check of the schema library. *)
Class ZodUrl := { z_url : string -> bool }.

(** ** Deterministic test keys ([fixtures.ts]) *)
Definition FIXTURE_PREFIX : string := "aegis-sabcl-fixture".
(** [raw[i] = f(raw[i])] *)
Fixpoint with_byte (i : nat) (f : Z -> Z) (raw : string) : string :=
  match raw, i with
  | EmptyString, _ => EmptyString
  | String c r, O => String (byte_char (f (code c))) r
  | String c r, S i => String c (with_byte i f r)
  end.
Definition clamp (raw : string) : string :=
  with_byte 31 (fun b => Z.lor (Z.land b 127) 64) (with_byte 0 (fun b => Z.land b 248) raw).
(** The text before the last [.v], and what follows it. *)
Fixpoint split_last_version (s : string) : option (string * string) :=
  match s with
  | EmptyString => None
  | String c r =>
      match split_last_version r with
      | Some (a, b) => Some (String c a, b)
      | None => match r with
                | String d v => if Ascii.eqb c "." && Ascii.eqb d "v" then Some (EmptyString, v) else None
                | EmptyString => None
                end
      end
  end.
Definition splitKeyId (keyId : string) : option (string * Z) :=
  '(service, text) ← split_last_version keyId;
  if String.eqb service "" then None
  else version ← JsNumber.safe_integer (Number_of_string text); if version <? 0 then None else Some (service, version).
Record FixtureIdentityMaterial := mkFixtureMaterial {
  fm_keyId : string; fm_encryptionPrivateKey : string; fm_signingPrivateKey : string;
  fm_encryptionPublicKey : string; fm_signingPublicKey : string }.

(** ** One party's part of the environment ([environment.ts]) *)
#[export] Instance SabclMode_eq_dec : EqDecision SabclMode.
Proof. solve_decision. Defined.
Record SabclEnvironmentInput := mkSabclInput {
  si_mode : option string;
  si_keyId : option string;
  si_encryptionPrivateKey : option string;
  si_signingPrivateKey : option string;
  si_peers : option string;
  si_routeSecret : option string;
  si_nodeEnvironment : string
}.
Definition not_configured {A} : Sabcl A := refuse SABCL_NOT_CONFIGURED.
Definition sabclModeSchema (s : string) : option SabclMode :=
  if String.eqb s "strict" then Some strict else if String.eqb s "compatible" then Some compatible
  else if String.eqb s "off" then Some off else None.
Definition resolveMode (raw : option string) : Sabcl SabclMode :=
  demand (sabclModeSchema (trim (default "off"%string raw))) (SabclError SABCL_NOT_CONFIGURED).
Definition needed (value : option string) : Sabcl string :=
  let trimmed := from_option trim "" value in
  if String.eqb trimmed "" then not_configured else mret trimmed.
Definition PLACEHOLDERS : list string := placeholder_words ++ ["not-a-secret"; "fixture"]%string.
(** A non-empty array. *)
Definition zod_nonempty (s : schema) : schema := fun j =>
  match j with JArr (x :: l) => JArr <$> mapM s (x :: l) | _ => None end.
Definition nonblank (s : string) : bool := negb (String.eqb s "").
Definition peerSchema : schema := zod_object Strict
  [("keyId", Req (zod_string sabclKeyId)); ("encryptionPublicKey", Req (zod_string nonblank));
   ("signingPublicKey", Req (zod_string nonblank)); ("revoked", Opt zod_boolean); ("notAfter", Opt (zod_int (Z.ltb 0)))]%string.
Definition peersSchema : schema := zod_nonempty peerSchema.
Definition string_member (k : string) (v : json) : string := match jfield k v with JStr s => s | _ => "" end.
Definition number_member (k : string) (v : json) : option Z := match jfield k v with JNum n => Some n | _ => None end.
Definition boolean_member (k : string) (v : json) : option bool := match jfield k v with JBool b => Some b | _ => None end.
Definition peer_material (v : json) : PublicIdentityMaterial :=
  mkPublicMaterial (string_member "keyId" v) (string_member "encryptionPublicKey" v) (string_member "signingPublicKey" v)
    (boolean_member "revoked" v) (number_member "notAfter" v).
Definition elements (v : json) : list json := match v with JArr l => l | _ => [] end.

Section Environment.
Context {prim : SabclPrimitives}.
Definition fixtureScalar (label : string) : string := hex_bytes (sha256_hex (FIXTURE_PREFIX +:+ "|" +:+ label)).
(** The raw private keys of a label. *)
Definition fixture_x25519 (label : string) : string := clamp (fixtureScalar (label +:+ "|x25519")).
Definition fixture_ed25519 (label : string) : string := fixtureScalar (label +:+ "|ed25519").
Definition fixtureIdentityMaterial (service : string) (version : Z) : FixtureIdentityMaterial :=
  let label := service +:+ ".v" +:+ bigint_to_string version in
  mkFixtureMaterial label (base64url_encode (fixture_x25519 label)) (base64url_encode (fixture_ed25519 label))
    (base64url_encode (x25519_public (fixture_x25519 label))) (base64url_encode (ed25519_public (fixture_ed25519 label))).
Definition FIXTURE_ROUTE_SECRET : string := fixtureScalar "route-secret".
Definition isFixtureMaterial (keyId encryptionPrivateKey signingPrivateKey routeSecret : string) : bool :=
  if String.eqb routeSecret (base64url_encode FIXTURE_ROUTE_SECRET) then true
  else match splitKeyId keyId with
       | None => false
       | Some (service, version) =>
           let expected := fixtureIdentityMaterial service version in
           String.eqb encryptionPrivateKey (fm_encryptionPrivateKey expected) || String.eqb signingPrivateKey (fm_signingPrivateKey expected)
       end.

Definition strict_material (keyId encryptionPrivateKey signingPrivateKey routeSecret : string) : Sabcl unit :=
  _ ← refuse_when (existsb (mentions PLACEHOLDERS) [encryptionPrivateKey; signingPrivateKey; routeSecret]) SABCL_NOT_CONFIGURED;
  refuse_when (isFixtureMaterial keyId encryptionPrivateKey signingPrivateKey routeSecret) SABCL_NOT_CONFIGURED.
(** What is thrown within the [try]: protocol errors pass, all others become one. *)
Definition as_configuration {A} (r : Sabcl A) : Sabcl A := match r with Err (SabclJsError _) => not_configured | _ => r end.
Definition read_peers (peers : option string) : Sabcl (list SabclPublicIdentity) :=
  as_configuration (
    text ← needed peers;
    v ← demand (JSON_parse text) (SabclJsError "SyntaxError");
    l ← demand (peersSchema v) (SabclJsError "ZodError");
    mapM (fun p => loadPublicIdentity (peer_material p)) (elements l)).
Definition loadSabclEnvironment (input : SabclEnvironmentInput) : Sabcl (option SabclEnvironment) :=
  mode ← resolveMode (si_mode input);
  match mode with
  | off => mret None
  | _ =>
      _ ← refuse_when (bool_decide (mode = compatible) && is_production (si_nodeEnvironment input)) SABCL_NOT_CONFIGURED;
      keyId ← needed (si_keyId input);
      encryptionPrivateKey ← needed (si_encryptionPrivateKey input);
      signingPrivateKey ← needed (si_signingPrivateKey input);
      routeSecretRaw ← needed (si_routeSecret input);
      _ ← (if bool_decide (mode = strict) then strict_material keyId encryptionPrivateKey signingPrivateKey routeSecretRaw else mret tt);
      routeSecret ← fromBase64Url routeSecretRaw;
      _ ← refuse_when (String.length routeSecret <? 32)%nat SABCL_NOT_CONFIGURED;
      peers ← read_peers (si_peers input);
      own ← loadPrivateIdentity (mkPrivateMaterial keyId encryptionPrivateKey signingPrivateKey None);
      ring ← newKeyring own peers;
      mret (Some (mkSabclEnvironment mode ring routeSecret))
  end.
End Environment.

(** ** Recipients ([recipient-runtime.ts], [sabcl.service.ts] of the services) *)
Record SabclRecipientRuntimeOptions := mkRuntimeOptions {
  ro_name : string;                      (* service *)
  ro_environmentPrefix : string;
  ro_selfUrl : string;
  ro_internalToken : string;
  ro_nodeEnvironment : string;
  ro_redisUrl : string;
  ro_redisPrefix : string;
  ro_dispatchTimeoutMs : Z
}.
Record SabclRecipientRuntime := mkRuntime { rn_environment : SabclEnvironment; rn_recipient : RecipientOptions; rn_redisUrl : string }.
Definition self_url (host : string) (port : Z) : string := "http://" +:+ host +:+ ":" +:+ bigint_to_string port.
Definition local_redis : string := "redis://:aegis-local-redis-change-me@127.0.0.1:6379/0".

Section Parties.
Context {prim : SabclPrimitives}.
Variable env : gmap string string.
(** The part of the environment that the variables of one party name. *)
Definition party_input (prefix nodeEnvironment : string) : SabclEnvironmentInput :=
  mkSabclInput (env !! "SABCL_MODE"%string) (env !! (prefix +:+ "_KEY_ID")) (env !! (prefix +:+ "_ENCRYPTION_PRIVATE_KEY"))
    (env !! (prefix +:+ "_SIGNING_PRIVATE_KEY")) (env !! "SABCL_PEERS"%string) (env !! "SABCL_ROUTE_SECRET"%string) nodeEnvironment.
Definition createSabclRecipientRuntime (options : SabclRecipientRuntimeOptions) : Sabcl (option SabclRecipientRuntime) :=
  environment ← loadSabclEnvironment (party_input (ro_environmentPrefix options) (ro_nodeEnvironment options));
  match environment with
  | None => mret None
  | Some environment =>
      _ ← refuse_when (negb (String.eqb (pi_service (kr_own (se_keyring environment))) (ro_name options))) SABCL_NOT_CONFIGURED;
      let capabilities := capabilitiesForService (ro_name options) in
      _ ← refuse_when (length capabilities =? 0)%nat SABCL_NOT_CONFIGURED;
      mret (Some (mkRuntime environment
        (mkRecipient (se_keyring environment) (ro_redisPrefix options) capabilities
           (mkLoopback (ro_selfUrl options) (ro_internalToken options)))
        (ro_redisUrl options)))
  end.
Definition ledger_sabcl (config : LedgerConfig) : SabclRecipientRuntimeOptions :=
  mkRuntimeOptions "ledger" "SABCL_LEDGER" (self_url (lc_host config) (Idempotency.lc_port config)) (lc_internalToken config)
    (lc_nodeEnvironment config) (text_setting env "REDIS_URL" local_redis) (text_setting env "SABCL_REDIS_PREFIX" "aegis:sabcl:ledger:") 5000.
Definition payments_sabcl (config : PaymentsConfig) : SabclRecipientRuntimeOptions :=
  mkRuntimeOptions "payments" "SABCL_PAYMENTS" (self_url (pc_host config) (pc_port config)) (pc_internalToken config)
    (pc_nodeEnvironment config) (text_setting env "REDIS_URL" local_redis) (text_setting env "SABCL_REDIS_PREFIX" "aegis:sabcl:payments:")
    (pc_httpTimeoutMs config).
Definition identity_sabcl (config : IdentityConfig) : SabclRecipientRuntimeOptions :=
  mkRuntimeOptions "identity" "SABCL_IDENTITY" (self_url (id_host config) (id_port config)) (id_internalToken config)
    (id_nodeEnvironment config) (id_redisUrl config) (id_redisKeyPrefix config +:+ "sabcl:") 5000.

(** The three services that receive. *)
Definition recipient_options (d : Deployment) (service : string) : SabclRecipientRuntimeOptions :=
  if String.eqb service "identity" then identity_sabcl (de_identity d)
  else if String.eqb service "ledger" then ledger_sabcl (de_ledger d)
  else payments_sabcl (de_payments d).

(** ** The gateway ([sabcl-transport.service.ts]) *)
Definition gateway_environment (config : GatewayConfig) : Sabcl (option SabclEnvironment) :=
  loadSabclEnvironment (party_input "SABCL_GATEWAY" (nodeEnvironment config)).
Definition transport_client (e : SabclEnvironment) : SabclClientOptions := mkClient (se_keyring e) (se_routeSecret e) None None.

(** ** The router ([router.config.ts]) *)
Context {urls : Urls} {zod_urls : ZodUrl}.
Definition router_integer (name : string) (fallback minimum : Z) : Setup Z :=
  if String.eqb (setting env name) "" then mret fallback
  else integer_between minimum None (name +:+ " is invalid.") (setting env name).
Definition routeDefinitionSchema : schema := zod_object Strict
  [("routeId", Req (zod_string (len_between 3 64))); ("service", Req (zod_string (len_between 1 64)));
   ("destination", Req (zod_string z_url)); ("revoked", Opt zod_boolean)]%string.
(** Where a service is reached. *)
Definition service_url (service : string) : string :=
  if String.eqb service "identity" then text_setting env "IDENTITY_SERVICE_URL" "http://127.0.0.1:4101"
  else if String.eqb service "ledger" then text_setting env "LEDGER_SERVICE_URL" "http://127.0.0.1:4102"
  else text_setting env "PAYMENTS_SERVICE_URL" "http://127.0.0.1:4104".
Definition defaultRoutes : list SabclRoute :=
  [mkRoute "identity.step-up" "identity" (service_url "identity") None;
   mkRoute "ledger.accounts" "ledger" (service_url "ledger") None;
   mkRoute "ledger.postings" "ledger" (service_url "ledger") None;
   mkRoute "payments.transfer" "payments" (service_url "payments") None].
Definition route_definition (v : json) : SabclRoute :=
  mkRoute (string_member "routeId" v) (string_member "service" v) (string_member "destination" v) (boolean_member "revoked" v).
Definition loadRoutes : Setup (list SabclRoute) :=
  let raw := setting env "SABCL_ROUTES" in
  if String.eqb raw "" then mret defaultRoutes
  else
    parsed ← setup_some (JSON_parse raw) (SetupError "SABCL_ROUTES must be valid JSON.");
    result ← setup_some (zod_nonempty routeDefinitionSchema parsed) (SetupError "SABCL_ROUTES must be an array of route definitions.");
    mret (map route_definition (elements result)).
Definition as_setup {A} (r : Sabcl A) : Setup A := match r with Ok a => Ok a | Err e => Err (SetupSabcl e) end.
Definition createRouterConfig : Setup RouterConfig :=
  sabcl ← as_setup (loadSabclEnvironment (party_input "SABCL_ROUTER" (node_environment env)));
  sabcl ← setup_some sabcl (SetupError "The SABCL router cannot start with SABCL_MODE=off. Set strict or compatible.");
  port ← router_integer "SABCL_ROUTER_PORT" 4103 1;
  forwardTimeoutMs ← router_integer "SABCL_FORWARD_TIMEOUT_MS" 5000 100;
  rateLimitPerMinute ← router_integer "SABCL_RATE_LIMIT_PER_MINUTE" 600 1;
  maxEnvelopeBytes ← router_integer "SABCL_MAX_ENVELOPE_BYTES" 262144 1024;
  routes ← loadRoutes;
  table ← as_setup (newRouteTable (se_routeSecret sabcl) routes);
  mret {|
    rc_nodeEnvironment := node_environment env;
    rc_host := text_setting env "SABCL_ROUTER_HOST" "127.0.0.1";
    rc_port := port;
    rc_redisUrl := text_setting env "REDIS_URL" local_redis;
    rc_redisKeyPrefix := text_setting env "SABCL_REDIS_PREFIX" "aegis:sabcl:";
    rc_forwardTimeoutMs := forwardTimeoutMs;
    rc_rateLimitPerMinute := rateLimitPerMinute;
    rc_maxEnvelopeBytes := maxEnvelopeBytes;
    rc_sabcl := sabcl;
    rc_routes := table
  |}.
End Parties.

(** ** What the start-up code promises *)
Lemma needed_inv v t : needed v = Ok t -> t = from_option trim "" v /\ t <> ""%string.
Proof. unfold needed. destruct (String.eqb_spec (from_option trim "" v) ""); [done|]. by intros [= <-]. Qed.
Lemma as_configuration_inv {A} (r : Sabcl A) a : as_configuration r = Ok a -> r = Ok a.
Proof. by destruct r as [|[]]. Qed.
Lemma as_setup_inv {A} (r : Sabcl A) a : as_setup r = Ok a -> r = Ok a.
Proof. destruct r; [by intros [= ->]|done]. Qed.
Lemma add_peers_inv peers added l : add_peers peers added = Ok l -> NoDup (map pu_keyId added) ->
  l = added ++ peers /\ NoDup (map pu_keyId l).
Proof.
  revert added. induction peers as [|p peers IH]; intros added; cbn [add_peers].
  - intros [= <-] Hn. by rewrite app_nil_r.
  - case_bool_decide as Hf; [done|]. intros H Hn. apply IH in H as [-> H].
    + by rewrite <- app_assoc in *.
    + rewrite map_app. apply NoDup_app. split_and!; [done| |by apply NoDup_singleton].
      intros k Hk ->%list_elem_of_singleton. apply Hf. apply list_elem_of_fmap in Hk as (q & Hq & Hin).
      unfold find_peer. destruct (find _ added) as [q'|] eqn:Hfind; [done|].
      apply list_elem_of_In in Hin. pose proof (find_none _ _ Hfind q Hin) as Hc. cbn in Hc. by rewrite Hq, String.eqb_refl in Hc.
Qed.

Section Started.
Context {prim : SabclPrimitives}.
Lemma key_inv material type raw : importKey material type = Ok raw -> material = base64url_encode raw /\ String.length raw = 32%nat.
Proof.
  unfold importKey. intros H. sabcl_run. subst. apply fromBase64Url_inv in Hs. split; [done|].
  by apply Nat.eqb_eq, negb_false_iff.
Qed.
(** A party that has started, and the settings it was read from. *)
Record loaded (input : SabclEnvironmentInput) (e : SabclEnvironment) : Prop := {
  ld_mode : resolveMode (si_mode input) = Ok (se_mode e);
  ld_on : se_mode e <> off;
  ld_production : is_production (si_nodeEnvironment input) = true -> se_mode e = strict;
  ld_key : needed (si_keyId input) = Ok (pi_keyId (kr_own (se_keyring e)));
  ld_encryption : needed (si_encryptionPrivateKey input) = Ok (base64url_encode (pi_encryptionPrivateKey (kr_own (se_keyring e))));
  ld_signing : needed (si_signingPrivateKey input) = Ok (base64url_encode (pi_signingPrivateKey (kr_own (se_keyring e))));
  ld_secret : needed (si_routeSecret input) = Ok (base64url_encode (se_routeSecret e));
  ld_strict : se_mode e = strict ->
    strict_material (pi_keyId (kr_own (se_keyring e))) (base64url_encode (pi_encryptionPrivateKey (kr_own (se_keyring e))))
      (base64url_encode (pi_signingPrivateKey (kr_own (se_keyring e)))) (base64url_encode (se_routeSecret e)) = Ok tt;
  ld_lengths : String.length (pi_encryptionPrivateKey (kr_own (se_keyring e))) = 32%nat /\
    String.length (pi_signingPrivateKey (kr_own (se_keyring e))) = 32%nat /\ (32 <= String.length (se_routeSecret e))%nat;
  ld_own : sabclKeyId (pi_keyId (kr_own (se_keyring e))) = true /\ pi_notAfter (kr_own (se_keyring e)) = None /\
    serviceOfKeyId (pi_keyId (kr_own (se_keyring e))) = Ok (pi_service (kr_own (se_keyring e)));
  ld_peers : read_peers (si_peers input) = Ok (kr_peers (se_keyring e));
  ld_distinct : NoDup (map pu_keyId (kr_peers (se_keyring e)))
}.
Lemma private_inv m i : loadPrivateIdentity m = Ok i ->
  pi_keyId i = pm_keyId m /\ sabclKeyId (pm_keyId m) = true /\ pi_notAfter i = pm_notAfter m /\
  serviceOfKeyId (pm_keyId m) = Ok (pi_service i) /\
  (pm_encryptionPrivateKey m = base64url_encode (pi_encryptionPrivateKey i) /\ String.length (pi_encryptionPrivateKey i) = 32%nat) /\
  pm_signingPrivateKey m = base64url_encode (pi_signingPrivateKey i) /\ String.length (pi_signingPrivateKey i) = 32%nat.
Proof.
  unfold loadPrivateIdentity, parse_key_id. intros H. destruct (sabclKeyId (pm_keyId m)) eqn:Hk; [|done]. sabcl_run. subst. cbn.
  repeat match goal with H : importKey _ _ = Ok _ |- _ => apply key_inv in H end. done.
Qed.
Lemma load_inv input e : loadSabclEnvironment input = Ok (Some e) -> loaded input e.
Proof.
  unfold loadSabclEnvironment. intros H. apply result_bind_inv in H as (mode & Hmode & H).
  assert (Hon : mode <> off) by (by destruct mode).
  assert (Hcases : forall A (a b : A), match mode with off => a | _ => b end = b) by (by destruct mode). rewrite Hcases in H.
  apply result_bind_inv in H as (u1 & Hprod & H). sabcl_run. unfold newKeyring in *. sabcl_run.
  repeat match goal with Hm : needed _ = Ok ?t |- _ => lazymatch goal with
    | Hx : t <> ""%string |- _ => fail
    | _ => pose proof (proj2 (needed_inv _ _ Hm)) end end.
  repeat match goal with
  | Hp : loadPrivateIdentity _ = Ok _ |- _ => apply private_inv in Hp; cbn [pm_keyId pm_encryptionPrivateKey pm_signingPrivateKey pm_notAfter] in Hp;
      destruct Hp as (<- & ? & ? & ? & [-> ?] & -> & ?)
  | Hf : fromBase64Url _ = Ok _ |- _ => apply fromBase64Url_inv in Hf as ->
  | Ha : add_peers _ [] = Ok _ |- _ => apply add_peers_inv in Ha as [-> ?]; [|by apply NoDup_nil]
  | Hl : (_ <? _)%nat = false |- _ => apply Nat.ltb_ge in Hl
  end.
  subst. split; cbn [se_mode se_keyring se_routeSecret kr_own kr_peers app] in *; try done.
  - intros Hp. rewrite Hp, andb_true_r in Hprod. apply bool_decide_eq_false in Hprod. by destruct mode.
  - intros ->. cbn in *. by units.
Qed.
(** C14: whatever the environment, a party of SABCL that starts in production, or
    in strict mode anywhere, runs in strict mode; its private keys and its route
    secret mention no placeholder and are not the repository's test material of
    its key identifier; keys have 32 bytes, the secret at least as many, and no
    two of its peers share an identifier. *)
Theorem started_keys_genuine env prefix nodeEnvironment e :
  loadSabclEnvironment (party_input env prefix nodeEnvironment) = Ok (Some e) ->
  is_production nodeEnvironment = true \/ se_mode e = strict ->
  let own := kr_own (se_keyring e) in
  se_mode e = strict /\
  Forall (fun name => setting env name <> ""%string /\ mentions PLACEHOLDERS (setting env name) = false)
    [prefix +:+ "_ENCRYPTION_PRIVATE_KEY"; prefix +:+ "_SIGNING_PRIVATE_KEY"; "SABCL_ROUTE_SECRET"%string] /\
  (forall service version, splitKeyId (pi_keyId own) = Some (service, version) ->
     let label := service +:+ ".v" +:+ bigint_to_string version in
     pi_encryptionPrivateKey own <> fixture_x25519 label /\ pi_signingPrivateKey own <> fixture_ed25519 label) /\
  se_routeSecret e <> FIXTURE_ROUTE_SECRET /\
  String.length (pi_encryptionPrivateKey own) = 32%nat /\ String.length (pi_signingPrivateKey own) = 32%nat /\
  (32 <= String.length (se_routeSecret e))%nat /\ NoDup (map pu_keyId (kr_peers (se_keyring e))).
Proof.
  intros [] % load_inv Hcase own. assert (Hs : se_mode e = strict) by (destruct Hcase; auto).
  specialize (ld_strict0 Hs). unfold strict_material in ld_strict0. sabcl_run. subst.
  cbn [existsb] in *. repeat match goal with H : (_ || _) = false |- _ => apply orb_false_iff in H as [? H] end.
  unfold isFixtureMaterial in *.
  match goal with H : (if String.eqb ?a ?b then _ else _) = false |- _ => destruct (String.eqb_spec a b) as [|Hroute]; [done|]; rename H into Hfix end.
  apply needed_inv in ld_encryption0 as [He He'], ld_signing0 as [Hg Hg'], ld_secret0 as [Hr Hr'].
  cbn [party_input si_encryptionPrivateKey si_signingPrivateKey si_routeSecret] in He, Hg, Hr.
  split; [done|]. split; [|split].
  - repeat constructor; unfold setting; congruence.
  - intros service version. unfold own. intros Hk. rewrite Hk in Hfix. apply orb_false_iff in Hfix as [Hn1%String.eqb_neq Hn2%String.eqb_neq].
    split; [intros Hx; apply Hn1|intros Hx; apply Hn2]; cbn [fixtureIdentityMaterial fm_encryptionPrivateKey fm_signingPrivateKey]; by rewrite <- Hx.
  - split; [intros Hx; by rewrite Hx in Hroute|]. split_and!; tauto || done.
Qed.
End Started.

(** ** Routes *)
Section Routing.
Context {prim : SabclPrimitives} {urls : Urls}.
(** A table that the constructor built: tokens of the routes, each once. *)
Definition table_ok (secret : string) (routes : list SabclRoute) (table : SabclRouteTable) : Prop :=
  map snd table = routes /\ NoDup table.*1 /\ Forall (fun e => deriveRouteToken secret (rt_routeId e.2) = Ok e.1) table.
Lemma add_routes_ok secret routes done_ table table' : table_ok secret done_ table -> add_routes secret routes table = Ok table' ->
  table_ok secret (done_ ++ routes) table'.
Proof.
  revert done_ table. induction routes as [|r routes IH]; intros done_ table Hok; cbn [add_routes].
  - intros [= <-]. by rewrite app_nil_r.
  - intros H. sabcl_run. rewrite (cons_middle r), app_assoc. eapply IH; [|exact H]. destruct Hok as (Hr & Hn & Hf). split_and!.
    + by rewrite map_app, Hr.
    + rewrite fmap_app. apply NoDup_app. split_and!; [done| |by apply NoDup_singleton]. intros k Hk ->%list_elem_of_singleton.
      match goal with H : bool_decide _ = false |- _ => apply bool_decide_eq_false in H; apply H end.
      apply not_eq_None_Some. intros Hx%jget_None. by apply Hx.
    + apply Forall_app. split; [done|]. by apply Forall_singleton.
Qed.
Lemma new_table_ok secret routes table : newRouteTable secret routes = Ok table -> table_ok secret routes table.
Proof.
  unfold newRouteTable. destruct routes as [|r routes]; [done|]. apply (add_routes_ok secret (r :: routes) []). split_and!; constructor.
Qed.
Lemma encoded_take s : String.length s = 32%nat ->
  exists b, b <> ""%string /\ base64url_encode (str_take SABCL_ROUTE_TOKEN_BYTES s) = base64url_encode b.
Proof. intros Hl. eexists. split; [|reflexivity]. apply nonempty_length. rewrite str_length_take, Hl. cbn. lia. Qed.
Lemma token_encoded secret routeId token : deriveRouteToken secret routeId = Ok token -> exists b, b <> ""%string /\ token = base64url_encode b.
Proof.
  pose proof (encoded_take _ (hmac_length secret (SABCL_DOMAIN.routeToken +:+ "|" +:+ routeId))) as Hl.
  unfold deriveRouteToken. intros H. sabcl_run. by subst.
Qed.
(** The scan of [resolve_route], for a token that occurs once. *)
Definition scan (supplied : string) (table : SabclRouteTable) (found : option SabclRoute) : option SabclRoute :=
  foldl (fun found '(candidate, route) =>
           if timingSafeBytesEqual supplied (base64url_decode candidate) && in_service route then Some route else found) found table.
Lemma scan_absent b table found : (forall e, e ∈ table -> exists c, e.1 = base64url_encode c) -> base64url_encode b ∉ table.*1 ->
  scan b table found = found.
Proof.
  revert found. induction table as [|[t r] table IH]; intros found Hc Hn; [done|]. unfold scan. cbn [foldl].
  destruct (Hc (t, r)) as [c Ht]; [by left|]. cbn in Ht. subst t. rewrite base64url_roundtrip.
  unfold timingSafeBytesEqual. destruct (String.eqb_spec b c) as [->|]; [by destruct Hn; left|]. cbn [andb].
  apply IH; [intros e He; apply Hc; by right|]. intros Hin. apply Hn. by right.
Qed.
Lemma scan_found b r table found : (forall e, e ∈ table -> exists c, e.1 = base64url_encode c) -> NoDup table.*1 ->
  (base64url_encode b, r) ∈ table -> scan b table found = if in_service r then Some r else found.
Proof.
  revert found. induction table as [|[t r'] table IH]; intros found Hc Hn Hin; [by apply not_elem_of_nil in Hin|].
  apply NoDup_cons in Hn as [Hfresh Hn]. assert (Hc' : forall e, e ∈ table -> exists c, e.1 = base64url_encode c) by (intros e He; apply Hc; by right).
  unfold scan. cbn [foldl]. fold (scan b table). apply elem_of_cons in Hin as [[= <- <-]|Hin].
  - rewrite base64url_roundtrip. unfold timingSafeBytesEqual. rewrite String.eqb_refl. cbn [andb]. by apply scan_absent.
  - destruct (Hc (t, r')) as [c Ht]; [by left|]. cbn in Ht. subst t. rewrite base64url_roundtrip. unfold timingSafeBytesEqual.
    destruct (String.eqb_spec b c) as [->|]; [|by apply IH]. destruct Hfresh. apply list_elem_of_fmap. by exists (base64url_encode c, r).
Qed.
(** The token that a sender derives for a configured route finds that route,
    unless it is revoked. *)
Lemma configured_routes_resolve secret routes table r token : newRouteTable secret routes = Ok table -> r ∈ routes ->
  deriveRouteToken secret (rt_routeId r) = Ok token ->
  resolve_route table token = if in_service r then Ok r else refuse SABCL_ROUTE_INVALID.
Proof.
  intros (Hr & Hn & Hf)%new_table_ok Hin Ht. rewrite <- Hr in Hin. apply list_elem_of_fmap in Hin as ([t r'] & -> & Hin). cbn [snd] in *.
  assert (Hc : forall e, e ∈ table -> exists c, e.1 = base64url_encode c).
  { intros e He. apply (proj1 (Forall_forall _ _) Hf), token_encoded in He as (c & _ & Hc). by exists c. }
  pose proof (proj1 (Forall_forall _ _) Hf _ Hin) as Ht'. cbn in Ht'. rewrite Ht in Ht'. injection Ht' as <-.
  destruct (token_encoded _ _ _ Ht) as (b & Hb & ->). unfold resolve_route. rewrite fromBase64Url_encode by done.
  change (mbind _ (Ok b)) with (demand (scan b table None) (SabclError SABCL_ROUTE_INVALID)). rewrite (scan_found b r'); [|done..].
  by destruct (in_service r').
Qed.
End Routing.

(** ** Parties of one environment *)
Lemma lit_in l s : rx_in (lit l) s -> s = l.
Proof.
  revert s. induction l as [|c l IH]; intros s; cbn [lit]; inversion 1; subst; [done|].
  match goal with H : rx_in (chr c) _ |- _ => inversion H as [|? c' Hc| | | | |]; subst end.
  apply Ascii.eqb_eq in Hc as ->. cbn. f_equal. by apply IH.
Qed.
Lemma lit_prefix l a s : rx_in (lit l · a)%rx s -> exists t, s = l +:+ t.
Proof. inversion 1 as [| |? ? pre t Hl| | | |]; subst. apply lit_in in Hl as ->. eauto. Qed.
Section Parties.
Context {prim : SabclPrimitives} {urls : Urls} {zod_urls : ZodUrl}.
Variable env : gmap string string.
Lemma router_inv cfg : createRouterConfig env = Ok cfg ->
  loaded (party_input env "SABCL_ROUTER" (node_environment env)) (rc_sabcl cfg) /\
  (exists routes, loadRoutes env = Ok routes /\ newRouteTable (rc_routeSecret cfg) routes = Ok (rc_routes cfg)) /\
  rc_redisKeyPrefix cfg = text_setting env "SABCL_REDIS_PREFIX" "aegis:sabcl:" /\
  rc_redisUrl cfg = text_setting env "REDIS_URL" local_redis /\
  1 <= rc_rateLimitPerMinute cfg /\ 100 <= rc_forwardTimeoutMs cfg /\ 1024 <= rc_maxEnvelopeBytes cfg.
Proof.
  unfold createRouterConfig. intros H. setup_run.
  repeat match goal with
  | H : as_setup _ = Ok _ |- _ => apply as_setup_inv in H
  | H : router_integer _ _ _ _ = Ok _ |- _ => apply positive_setting in H as [? _]; [|unfold positive; lia..]
  end.
  subst. cbn. split_and!; try done; [by apply load_inv|eauto].
Qed.
Lemma runtime_inv o rt : createSabclRecipientRuntime env o = Ok (Some rt) ->
  loaded (party_input env (ro_environmentPrefix o) (ro_nodeEnvironment o)) (rn_environment rt) /\
  pi_service (kr_own (se_keyring (rn_environment rt))) = ro_name o /\
  rn_recipient rt = mkRecipient (se_keyring (rn_environment rt)) (ro_redisPrefix o) (capabilitiesForService (ro_name o))
    (mkLoopback (ro_selfUrl o) (ro_internalToken o)) /\
  rn_redisUrl rt = ro_redisUrl o /\ capabilitiesForService (ro_name o) <> [].
Proof.
  unfold createSabclRecipientRuntime. intros H. apply result_bind_inv in H as ([e|] & He & H); [|done]. sabcl_run. subst.
  cbn [rn_environment rn_recipient rn_redisUrl]. split_and!; try done; [by apply load_inv|by apply String.eqb_eq, negb_false_iff|].
  intros Hc. by rewrite Hc in *.
Qed.
(** All parties read the same peers and the same route secret. *)
Lemma same_peers p n e p' n' e' : loaded (party_input env p n) e -> loaded (party_input env p' n') e' ->
  kr_peers (se_keyring e) = kr_peers (se_keyring e') /\ se_routeSecret e = se_routeSecret e'.
Proof.
  intros [] []. cbn [party_input si_peers si_routeSecret] in *. split; [congruence|].
  rewrite <- (base64url_roundtrip (se_routeSecret e)), <- (base64url_roundtrip (se_routeSecret e')). congruence.
Qed.
Lemma newest_in l p : newest l = Some p -> p ∈ l.
Proof.
  unfold newest. assert (H : forall l best, foldl (fun best p => match best with
      | Some b => if versionOfKeyId (pu_keyId b) <? versionOfKeyId (pu_keyId p) then Some p else best
      | None => Some p end) best l = Some p -> best = Some p \/ p ∈ l).
  { clear l. induction l as [|q l IH]; intros best; cbn [foldl]; [by left|]. intros [H|H]%IH; [|right; by right].
    destruct best as [b|]; [destruct (_ <? _); [|by left]|]; injection H as ->; right; by left. }
  intros [?|?]%H; done.
Qed.
Lemma active_live ring s now p : activePeerFor ring s now = Ok p -> pu_revoked p = false.
Proof.
  unfold activePeerFor. intros [_ [_ [Hl _]%andb_true_iff]%andb_true_iff]%demand_inv%newest_in%list_elem_of_In%filter_In. by apply negb_true_iff.
Qed.
Lemma peer_same ring ring' k now : kr_peers ring = kr_peers ring' -> peer ring k now = peer ring' k now.
Proof. unfold peer. by intros ->. Qed.
Lemma default_route c : c ∈ SABCL_CAPABILITIES -> exists r, r ∈ defaultRoutes env /\ rt_routeId r = ce_routeId c /\
  rt_destination r = service_url env (ce_service c) /\ in_service r = true.
Proof.
  intros H. exists (mkRoute (ce_routeId c) (ce_service c) (service_url env (ce_service c)) None). split; [|done]. unfold SABCL_CAPABILITIES in H.
  repeat (apply elem_of_cons in H as [->|H]; [unfold defaultRoutes; cbn [ce_routeId ce_service]; repeat (first [by left|right])|]).
  by apply not_elem_of_nil in H.
Qed.
Lemma catalogue_service c : c ∈ SABCL_CAPABILITIES ->
  ce_service c = "identity"%string \/ ce_service c = "ledger"%string \/ ce_service c = "payments"%string.
Proof. unfold SABCL_CAPABILITIES. intros H. repeat (apply elem_of_cons in H as [->|H]; [cbn; tauto|]). by apply not_elem_of_nil in H. Qed.
Lemma text_setting_unset name fallback : setting env name = ""%string -> text_setting env name fallback = fallback.
Proof. unfold text_setting. by intros ->. Qed.
(** Without a prefix in the environment no recipient shares its keys with the
    router. *)
Lemma recipient_prefixes d c : deploy env = Ok d -> c ∈ SABCL_CAPABILITIES -> setting env "SABCL_REDIS_PREFIX" = ""%string ->
  let p := ro_redisPrefix (recipient_options env d (ce_service c)) in
  p <> "aegis:sabcl:"%string /\ forall u v, p +:+ u <> "aegis:sabcl:rate:" +:+ v.
Proof.
  intros (_ & _ & _ & Hi & _)%deploy_inv Hc Hunset. apply identity_settings, ib_prefix in Hi.
  apply (lit_prefix "aegis:identity:") in Hi as [t Hs].
  destruct (catalogue_service _ Hc) as [-> | [-> | ->]]; unfold recipient_options;
    cbn [String.eqb Ascii.eqb Bool.eqb ledger_sabcl payments_sabcl identity_sabcl ro_redisPrefix]; rewrite ?text_setting_unset, ?Hs by done;
    split; intros; cbn; discriminate.
Qed.
(** With one, Ledger and Payments claim the router's keys. *)
Lemma shared_prefix d c cfg : setting env "SABCL_REDIS_PREFIX" <> ""%string -> ce_service c <> "identity"%string ->
  createRouterConfig env = Ok cfg -> ro_redisPrefix (recipient_options env d (ce_service c)) = rc_redisKeyPrefix cfg.
Proof.
  intros Hset Hc (_ & _ & -> & _)%router_inv. unfold recipient_options. rewrite (proj2 (String.eqb_neq _ _) Hc).
  by destruct (String.eqb _ "ledger"); cbn [ledger_sabcl payments_sabcl ro_redisPrefix]; rewrite !text_setting_some.
Qed.
End Parties.

(** ** A call between parties of one environment *)
(** The keys that [p] publishes are those of [own]. *)
Record speaks_for {prim : SabclPrimitives} (p : SabclPublicIdentity) (own : SabclPrivateIdentity) : Prop := {
  sf_key : pu_keyId p = pi_keyId own;
  sf_encryption : pu_encryptionPublicKey p = x25519_public (pi_encryptionPrivateKey own);
  sf_signing : pu_signingPublicKey p = ed25519_public (pi_signingPrivateKey own)
}.
Section Started.
Context {Env : Type} {prim : SabclPrimitives} {urls : Urls} {zod_urls : ZodUrl} {service : LoopbackService Env}.
Variable now : Z.
Variable env : gmap string string.
Variable d : Deployment.
Variable c : CatalogueEntry.
Variable g : SabclEnvironment.
Variable cfg : RouterConfig.
Variable rt : SabclRecipientRuntime.
(** The gateway, the router and the service of a capability have started. *)
Record started_parties : Prop := {
  st_deployed : deploy env = Ok d;
  st_capability : c ∈ SABCL_CAPABILITIES;
  st_gateway : gateway_environment env (de_gateway d) = Ok (Some g);
  st_router : createRouterConfig env = Ok cfg;
  st_recipient : createSabclRecipientRuntime env (recipient_options env d (ce_service c)) = Ok (Some rt)
}.
Variable deployed : list (string * option RecipientOptions).
Variable fresh : Freshness.
Variables nonce secret : string.
Variables recipient sender : SabclPublicIdentity.
Variable r : SabclInnerRequest.
(** What nobody checks at start-up: that the peers of the environment publish
    the keys of the two parties, which are alive, that the service is reached
    where its URL says, and that the router takes envelopes of all sizes. *)
Record in_touch : Prop := {
  it_routes : setting env "SABCL_ROUTES" = ""%string;
  it_reached : jget (service_url env (ce_service c)) deployed = Some (Some (rn_recipient rt));
  it_recipient : activePeerFor (se_keyring g) (ce_service c) (now_seconds now) = Ok recipient;
  it_recipient_keys : speaks_for recipient (kr_own (se_keyring (rn_environment rt)));
  it_sender : peer (se_keyring g) (pi_keyId (kr_own (se_keyring g))) (now_seconds now) = Ok sender;
  it_sender_keys : speaks_for sender (kr_own (se_keyring g));
  it_envelope : 100000 <= rc_maxEnvelopeBytes cfg
}.
(** The message and what it draws. *)
Record sendable : Prop := {
  se_secret : x25519 (fr_ephemeral fresh) (pu_encryptionPublicKey recipient) = Some secret;
  se_now : 0 <= now_seconds now <= max_safe_integer - SABCL_MAX_TTL_SECONDS;
  se_fresh : good_fresh fresh;
  se_nonce : String.length nonce = 12%nat;
  se_request : inner_request_ok r = true;
  se_body : json_body (iq_body r);
  se_size : byte_length (text (inner_request_json r)) <= 65532
}.
Hypothesis Hs : started_parties.
Hypothesis Ht : in_touch.
Hypothesis Hm : sendable.
Lemma started_healthy : exists token, healthy now (transport_client g) cfg (rn_recipient rt) deployed fresh nonce (ce_routeId c) (ce_service c)
  token secret recipient sender r.
Proof.
  destruct Hs, Ht, Hm. pose proof (load_inv _ _ st_gateway0) as Hg. apply router_inv in st_router0 as (Hr & (routes & Hroutes & Htable) & _).
  apply runtime_inv in st_recipient0 as (Hrt & Hservice & Hrec & _).
  destruct (same_peers _ _ _ _ _ _ _ Hg Hr) as [Hpr Hsr], (same_peers _ _ _ _ _ _ _ Hg Hrt) as [Hprt _].
  destruct (default_route env c st_capability0) as (route & Hin & Hid & Hdest & Hlive).
  assert (Hd : loadRoutes env = Ok (defaultRoutes env)) by (unfold loadRoutes; by rewrite it_routes0).
  rewrite Hd in Hroutes. injection Hroutes as <-. pose proof (new_table_ok _ _ _ Htable) as (Hmap & _ & Hf).
  rewrite <- Hmap in Hin. apply list_elem_of_fmap in Hin as ([token route'] & Hx & Hin). cbn in Hx. subst route'.
  pose proof (proj1 (Forall_forall _ _) Hf _ Hin) as Htoken. cbn in Htoken. rewrite Hid in Htoken.
  destruct it_recipient_keys0, it_sender_keys0. pose proof (active_live _ _ _ _ it_recipient0) as Hactive. exists token.
  rewrite Hrec. split; cbn [transport_client sl_keyring sl_routeSecret sl_ttlSeconds sl_hopLimit re_keyring]; try done.
  - by destruct Hrt, ld_own0.
  - by destruct Hg, ld_own0.
  - destruct Hg, ld_own0 as (_ & -> & _). done.
  - by rewrite <- (peer_same _ _ _ _ Hprt).
  - unfold rc_keyring. by rewrite <- (peer_same _ _ _ _ Hpr), it_sender0.
  - by rewrite Hsr.
  - exists route. rewrite Hdest, <- Hrec. split; [|done]. rewrite <- Hid in Htoken.
    assert (Hroute : route ∈ defaultRoutes env) by (rewrite <- Hmap; apply list_elem_of_fmap; by exists (token, route)).
    by rewrite (configured_routes_resolve _ _ _ _ _ Htable Hroute Htoken), Hlive.
Qed.

(** The router and the service keep their replay keys in one Redis. *)
Lemma one_redis : rn_redisUrl rt = rc_redisUrl cfg.
Proof.
  destruct Hs. apply router_inv in st_router0 as (_ & _ & _ & -> & _). apply runtime_inv in st_recipient0 as (_ & _ & _ & -> & _).
  apply deploy_inv in st_deployed0 as (_ & _ & _ & Hi & _). apply identity_reads in Hi as (_ & _ & Hu & _).
  destruct (catalogue_service _ st_capability0) as [-> | [-> | ->]]; done.
Qed.

(** The store when the message is sent: the sender is below the router's limit,
    and nobody has seen the message. *)
Variable world : Env.
Variables (st : SabclStore) (n : Z) (r1 : Redis).
Hypothesis Hrate : redis_incr now (rate_key cfg (pi_keyId (kr_own (se_keyring g)))) (sc_redis st) = Some (n, r1).
Hypothesis Hlimit : n <= rc_rateLimitPerMinute cfg.
Hypothesis Hrouter : redis_live now (replay_key (rc_redisKeyPrefix cfg) (message_id fresh)) (sc_redis st) = None.
(** When the environment names a prefix, no call of Ledger or Payments goes
    through: whatever the message, it is refused as a replay. *)
Theorem shared_setting_refuses : setting env "SABCL_REDIS_PREFIX" <> ""%string -> ce_service c <> "identity"%string -> exists st',
  SabclNetwork.sabcl_call now deployed Delivered Delivered (transport_client g) cfg fresh nonce (ce_routeId c) (ce_service c) r (alone st world) =
    (refuse SABCL_REPLAYED, alone st' world).
Proof.
  intros Hset Hc. destruct started_healthy as [token Hh]. eapply (shared_prefix_refuses _ _ _ _ _ _ _ _ _ _ _ _ _ _ Hh world st); try done.
  destruct Hs. apply runtime_inv in st_recipient0 as (_ & _ & -> & _). by eapply shared_prefix.
Qed.

Variable target : string.
Hypothesis Hreach : reaches (rn_recipient rt) r target.
Variable world' : Env.
Variable reply : option HttpReply.
Hypothesis Hcall : call_service (loopback_call (re_loopback (rn_recipient rt)) target r) world = (reply, world').
Hypothesis Hcarried : carried reply.
Hypothesis Hrecipient : redis_live now (replay_key (re_prefix (rn_recipient rt)) (message_id fresh)) (sc_redis st) = None.
(** C4: the gateway, the router and the service of a capability start from one
    environment that names neither SABCL_REDIS_PREFIX nor SABCL_ROUTES; its peers
    publish the keys of both parties, which are alive; the service is reached
    where its URL says; the router takes envelopes of 100,000 bytes. Then a
    request that the capability permits, of at most 65,532 bytes, from a sender
    below the router's rate limit, whose message identifier nobody has seen,
    answers exactly what the service answers, and does to the service exactly
    what that call does, once, provided that the answer can be carried: sealed
    answers hold at most 65,532 bytes ([carried]), and a larger one is refused
    after the operation has run ([padding_gap]). Whatever the network loses, the
    caller reads [SABCL_RECIPIENT_UNAVAILABLE], and the service was called unless
    the message itself was lost on the way to it. *)
Theorem started_call_answers lost lost' : setting env "SABCL_REDIS_PREFIX" = ""%string -> exists st',
  SabclNetwork.sabcl_call now deployed lost lost' (transport_client g) cfg fresh nonce (ce_routeId c) (ce_service c) r (alone st world) =
    (answer_of (heard lost (heard lost' reply)), alone st' (env_after lost world (env_after lost' world world'))).
Proof.
  intros Hunset. destruct started_healthy as [token Hh]. destruct Hs.
  destruct (recipient_prefixes env d c st_deployed0 st_capability0 Hunset) as [Hp Hk].
  pose proof (router_inv _ _ st_router0) as (_ & _ & Hprefix & _). rewrite text_setting_unset in Hprefix by done.
  pose proof (runtime_inv _ _ _ st_recipient0) as (_ & _ & Hrec & _).
  assert (Hpre : re_prefix (rn_recipient rt) = ro_redisPrefix (recipient_options env d (ce_service c))) by (by rewrite Hrec).
  eapply (healthy_call_answers _ _ _ _ _ _ _ _ _ _ _ _ _ _ Hh world st); try done; rewrite Hpre.
  - by rewrite Hprefix.
  - unfold replay_key, rate_key. rewrite Hprefix. apply Hk.
Qed.
End Started.

(** ** Every call of the gateway is let in *)
Section LetIn.
Context {Env : Type} {prim : SabclPrimitives} {zod : Zod} {crypto : Crypto} {pg : Postgres} {upstreams : Upstreams Env} {urls : Urls}.
Variable env : gmap string string.
Variable d : Deployment.
(** The guard of a service that receives over SABCL. *)
Definition service_admits (service : string) (token : option string) : bool :=
  if String.eqb service "identity" then identity_canActivate (de_identity d) false token
  else if String.eqb service "ledger" then ledger_canActivate (de_ledger d) false token
  else payments_canActivate (de_payments d) false token.
(** Whatever the recipient of the called service asks of that service, the token
    it presents, if it can be sent in a header at all, is let through. *)
Definition recipient_admits (c : SealedCall) : Prop :=
  forall rt target r w, createSabclRecipientRuntime env (recipient_options env d (sd_service c)) = Ok (Some rt) ->
    header_value (lc_token (loopback_call (re_loopback (rn_recipient rt)) target r)) = Some w ->
    service_admits (sd_service c) (Some w) = true.
Definition admitted (e : Event) : Prop :=
  guard_admits d e /\ match e with Sealed c _ => recipient_admits c | Called _ _ => True end.

Hypothesis Hd : deploy env = Ok d.
Lemma recipients_admit c : catalogued c -> recipient_admits c.
Proof.
  intros (e & He & Hc) rt target r w Hrt Hw. apply find_some in He as [He _]. apply list_elem_of_In in He.
  apply runtime_inv in Hrt as (_ & _ & Hrec & _). rewrite Hrec in Hw. cbn [re_loopback loopback_call lc_token lo_internalToken] in Hw.
  pose proof (service_tokens env d Hd) as Ht.
  apply Forall_cons in Ht as [[I3 I2] [[L3 L2] [[P3 P2] _]%Forall_cons]%Forall_cons].
  destruct (catalogue_service e He) as [Hs | [Hs | Hs]]; rewrite Hc, Hs in *; unfold recipient_options, service_admits in *;
    cbn [String.eqb Ascii.eqb Bool.eqb ledger_sabcl payments_sabcl identity_sabcl ro_internalToken] in *;
    unfold identity_canActivate, ledger_canActivate, payments_canActivate; cbn [orb].
  - rewrite I3 in *. by apply admits_setting.
  - rewrite L3 in *. by apply admits_setting.
  - rewrite P3 in *. by apply admits_setting.
Qed.

(** C12: services that start from one environment work together: whatever
    request the gateway serves, in every SABCL mode and whatever it is answered,
    every plain call it makes carries a credential that the guard of the service
    it goes to accepts; and every call it seals goes to a service of the
    catalogue by a route of its own, whose recipient, when it starts from the
    same environment, presents a token that the guard of that service accepts. *)
Theorem gateway_calls_admitted mode now route r (s : GwState (Traced Env)) : events s = [] ->
  Forall admitted (events (handle_route (de_gateway d) mode now route r s).2).
Proof.
  intros Hs. eapply Forall_impl; [by eapply gateway_guards_admit|]. intros e He. split; [done|].
  destruct e as [c reply|c answer]; [done|]. by apply recipients_admit.
Qed.
End LetIn.
