(* ===== verification/SabclStatus.v ===== *)
(** * What operators see of SABCL: the status of the router and of the gateway
    ([services/sabcl-router/src/{health, common/http}],
    [apps/api-gateway/src/sabcl/sabcl-status.controller.ts],
    [packages/contracts/src/sabcl]) *)

From Stdlib Require Import ZArith Lia Ascii String.
From stdpp Require Import base strings list gmap.
From S2P Require Import Prelude.
From S2P Require Import Js.
From S2P Require Import JsNumber.
From S2P Require Import Codec.
From S2P Require Import Services.
From S2P Require Import Regex.
From S2P Require Import RiskTypes.
From S2P Require Import SabclWire.
From S2P Require Import SabclCrypto.
From S2P Require Import SabclServices.
From S2P Require Import SabclWireProofs.
From S2P Require Import SabclSealProofs.
From S2P Require Import Schemas.
From S2P Require Import GatewayHttp.
From S2P Require Import Settings.
From S2P Require Import Deployment.
From S2P Require Import SabclSettings.

Open Scope Z_scope.

(** ** The contract ([sabcl/v1.ts]) *)
Definition fingerprint_hex : ascii -> bool := fun c => is_digit c || bool_decide (c ∈ ["a"; "b"; "c"; "d"; "e"; "f"]%char).
Definition FINGERPRINT_rx : rx := (KEY_ID_PATTERN · opt (chr ":" · rep 6 (Cls fingerprint_hex)))%rx.
Definition key_fingerprint (s : string) : bool := len_between 3 80 s && rx_match FINGERPRINT_rx s.
Definition sabclKeyFingerprintSchema : schema := zod_string key_fingerprint.
Definition sabclRotationEntrySchema : schema := zod_object Strict
  [("service", Req (zod_string (len_between 1 64))); ("active", Req (zod_nullable sabclKeyFingerprintSchema));
   ("accepted", Req (zod_array 0 16 sabclKeyFingerprintSchema)); ("revoked", Req (zod_array 0 16 sabclKeyFingerprintSchema))]%string.
Definition sabclRouteHealthSchema : schema := zod_object Strict
  [("routeId", Req (zod_string (len_between 3 64))); ("service", Req (zod_string (len_between 1 64))); ("reachable", Req zod_boolean)]%string.
Definition padding_schema : schema := zod_object Strict
  [("policy", Req (zod_string (len_between 0 32))); ("unit", Req (zod_string (len_between 0 16)))]%string.
Definition short_names (j : json) : bool := match j with JObj fs => forallb (fun kv => len_between 0 64 kv.1) fs | _ => false end.
Definition counters_schema : schema := zod_refine (zod_record (zod_int (Z.leb 0))) short_names.
Definition mode_schema : schema := zod_enum ["strict"; "compatible"; "off"]%string.
Definition sabclRouterStatusSchema : schema := zod_object Strict
  [("protocolVersion", Req (zod_string (len_between 1 32))); ("mode", Req mode_schema); ("strict", Req zod_boolean);
   ("routerKey", Req sabclKeyFingerprintSchema); ("rotation", Req (zod_array 0 32 sabclRotationEntrySchema));
   ("routes", Req (zod_array 0 64 (zod_string (len_between 3 64)))); ("reachability", Req (zod_array 0 64 sabclRouteHealthSchema));
   ("padding", Req padding_schema); ("counters", Req counters_schema); ("replayState", Req (zod_enum ["ok"; "unavailable"]))]%string.
Definition sabclStatusResponseSchema : schema := zod_object Strict
  [("protocolVersion", Req (zod_string (len_between 1 32))); ("mode", Req mode_schema); ("strict", Req zod_boolean);
   ("gatewayKey", Req (zod_nullable sabclKeyFingerprintSchema)); ("peerKeyIds", Req (zod_array 0 32 (zod_string (len_between 3 64))));
   ("routerReachable", Req zod_boolean); ("router", Req (zod_nullable sabclRouterStatusSchema))]%string.

(** [raw.toString('hex')] *)
Fixpoint to_hex (s : string) : string :=
  match s with
  | EmptyString => EmptyString
  | String c r => String (hex_digit (code c / 16)) (String (hex_digit (code c mod 16)) (to_hex r))
  end.
Definition abbreviateKey (keyId signingPublicKey : string) : string := keyId +:+ ":" +:+ to_hex (str_take 3 signingPublicKey).
Definition mode_text (m : SabclMode) : string := match m with strict => "strict" | compatible => "compatible" | off => "off" end.
Definition replied_ok (reply : option HttpReply) : bool := match reply with Some r => reply_ok r | None => false end.
Definition ok_text (b : bool) : string := if b then "ok" else "unavailable".

Section Status.
Context {prim : SabclPrimitives}.
Definition own_fingerprint (e : SabclEnvironment) : string :=
  abbreviateKey (pi_keyId (kr_own (se_keyring e))) (ed25519_public (pi_signingPrivateKey (kr_own (se_keyring e)))).

(** ** The router ([health.controller.ts], [destinationHealth], [audit.ts]) *)
Definition event_text (e : SabclAuditEvent) : string :=
  match e with
  | EnvelopeAccepted => "envelope.accepted" | EnvelopeRejected => "envelope.rejected" | EnvelopeReplayed => "envelope.replayed"
  | EnvelopeExpired => "envelope.expired" | SignatureInvalid => "signature.invalid" | RouteInvalid => "route.invalid"
  | RecipientUnavailable => "recipient.unavailable" | HopExhausted => "hop.exhausted" | KeyRotationUsed => "key.rotation.used"
  end.
Definition SABCL_AUDIT_EVENTS : list SabclAuditEvent :=
  [EnvelopeAccepted; EnvelopeRejected; EnvelopeReplayed; EnvelopeExpired; SignatureInvalid; RouteInvalid; RecipientUnavailable;
   HopExhausted; KeyRotationUsed].
Definition snapshot (st : SabclStore) : json :=
  JObj (map (fun e => (event_text e, JNum (Z.of_nat (audit_count e st)))) SABCL_AUDIT_EVENTS).
Definition rotation_json (r : RotationState) : json :=
  JObj [("service", JStr (ro_service r)); ("active", from_option JStr JNull (ro_active r));
        ("accepted", JArr (map JStr (ro_accepted r))); ("revoked", JArr (map JStr (ro_revoked r)))]%string.
(** [alive]: what a destination answers at [/health/live], if it does in time. *)
Definition destinationHealth (alive : string -> option HttpReply) (table : SabclRouteTable) : list json :=
  map (fun r => JObj [("routeId", JStr (rt_routeId r)); ("service", JStr (rt_service r));
                      ("reachable", JBool (replied_ok (alive (rt_destination r))))]%string) (destinations table).
Definition router_status (cfg : RouterConfig) (alive : string -> option HttpReply) (redis_up : bool) (now_s : Z) (st : SabclStore) : json :=
  let e := rc_sabcl cfg in
  JObj [("protocolVersion", JStr SABCL_PROTOCOL_VERSION); ("mode", JStr (mode_text (se_mode e))); ("strict", JBool (bool_decide (se_mode e = strict)));
        ("routerKey", JStr (own_fingerprint e)); ("rotation", JArr (map rotation_json (rotationState (se_keyring e) now_s)));
        ("routes", JArr (map JStr (liveRouteIds (rc_routes cfg)))); ("reachability", JArr (destinationHealth alive (rc_routes cfg)));
        ("padding", JObj [("policy", JStr "bucketed"); ("unit", JStr "bytes")]); ("counters", snapshot st);
        ("replayState", JStr (ok_text redis_up))]%string.
Definition router_ready (redis_up : bool) : json :=
  JObj [("status", JStr (if redis_up then "ok" else "degraded")); ("replayState", JStr (ok_text redis_up))]%string.
(** What escapes a handler of the router ([sabcl-exception.filter.ts]). *)
Inductive RouterException := EscapedSabcl (c : SabclErrorCode) | EscapedHttp (status : Z) | EscapedOther.
Definition sabcl_filter (x : RouterException) : SabclOutcome :=
  match x with
  | EscapedSabcl c => rejected c
  | EscapedHttp status =>
      mkOutcomeOf status (toSafeResponse (if status =? 413 then SABCL_OVERSIZED
                                          else if 500 <=? status then SABCL_RECIPIENT_UNAVAILABLE else SABCL_MALFORMED))
  | EscapedOther => mkOutcomeOf 500 (toSafeResponse SABCL_RECIPIENT_UNAVAILABLE)
  end.

(** ** The gateway ([sabcl-status.controller.ts], [SabclTransportService.status]) *)
Record TransportStatus := mkTransportStatus { ts_mode : SabclMode; ts_strict : bool; ts_key : option string; ts_peers : list string }.
Definition transport_status (e : option SabclEnvironment) : TransportStatus :=
  match e with
  | None => mkTransportStatus off false None []
  | Some e => mkTransportStatus (se_mode e) (bool_decide (se_mode e = strict)) (Some (own_fingerprint e)) (peerKeyIds (se_keyring e))
  end.
(** [ready], [status]: what the router answers at [/health/ready] and at
    [/sabcl/v1/status], if it does. *)
Definition routerReady (e : option SabclEnvironment) (ready : option HttpReply) : bool := bool_decide (is_Some e) && replied_ok ready.
Definition fetchRouterStatus (status : option HttpReply) : option json :=
  reply ← status; if reply_ok reply then sabclRouterStatusSchema (default JUndef (hp_body reply)) else None.
Definition status_document (e : option SabclEnvironment) (ready status : option HttpReply) : json :=
  let t := transport_status e in
  JObj [("protocolVersion", JStr SABCL_PROTOCOL_VERSION); ("mode", JStr (mode_text (ts_mode t))); ("strict", JBool (ts_strict t));
        ("gatewayKey", from_option JStr JNull (ts_key t)); ("peerKeyIds", JArr (map JStr (ts_peers t)));
        ("routerReachable", JBool (routerReady e ready));
        ("router", if routerReady e ready then default JNull (fetchRouterStatus status) else JNull)]%string.
(** [GET /api/v1/sabcl/status]; [None]: [parse] throws. *)
Definition sabcl_status (e : option SabclEnvironment) (ready status : option HttpReply) : option json :=
  sabclStatusResponseSchema (status_document e ready status).
End Status.

(** ** Identifiers and their fingerprints *)
Lemma key_id_bounds s : sabclKeyId s = true -> len_between 3 64 s = true /\ rx_in KEY_ID_PATTERN s.
Proof. unfold sabclKeyId. intros [H1 H2]%andb_true_iff. split; [done|]. by apply rx_match_in. Qed.
Lemma hex_digit_lower n : 0 <= n < 16 -> fingerprint_hex (hex_digit n) = true.
Proof.
  intros H. assert (Hn : exists k, (k < 16)%nat /\ n = Z.of_nat k) by (exists (Z.to_nat n); lia). destruct Hn as (k & Hk & ->).
  do 16 (destruct k as [|k]; [vm_compute; reflexivity|]). lia.
Qed.
Lemma hex_text_ok s : str_all fingerprint_hex (to_hex s) = true /\ String.length (to_hex s) = (2 * String.length s)%nat.
Proof.
  induction s as [|c s [IH1 IH2]]; [done|]. cbn [to_hex str_all String.length]. rewrite IH1, IH2. pose proof (code_range c).
  rewrite !hex_digit_lower; [split; [done|lia]| |]; [apply Z.mod_pos_bound; lia|].
  split; [apply Z.div_pos; lia|apply Z.div_lt_upper_bound; lia].
Qed.
Lemma key_id_fingerprint s : sabclKeyId s = true -> key_fingerprint s = true.
Proof.
  intros [Hl Hr]%key_id_bounds. unfold key_fingerprint, len_between in *. apply andb_true_iff in Hl as [H1%Nat.leb_le H2%Nat.leb_le].
  apply andb_true_iff. split; [apply andb_true_iff; split; apply Nat.leb_le; lia|]. apply rx_match_in. rewrite <- (str_app_nil_r s).
  apply in_Cat; [done|]. apply in_OrL. constructor.
Qed.
Lemma abbreviated_fingerprint s k : sabclKeyId s = true -> (3 <= String.length k)%nat -> key_fingerprint (abbreviateKey s k) = true.
Proof.
  intros [Hl Hr]%key_id_bounds Hk. destruct (hex_text_ok (str_take 3 k)) as [Hh Hn]. rewrite str_length_take in Hn.
  unfold key_fingerprint, abbreviateKey, len_between in *. apply andb_true_iff in Hl as [H1%Nat.leb_le H2%Nat.leb_le].
  apply andb_true_iff. split.
  - rewrite !str_length_app, Hn. change (String.length ":") with 1%nat. apply andb_true_iff. split; apply Nat.leb_le; lia.
  - apply rx_match_in. apply in_Cat; [done|]. apply in_OrR. apply in_Cat; [by apply in_Cls|]. apply in_rep; [lia|done].
Qed.
(** The name of the service before the version. *)
Lemma split_last_dot_spec s a b : split_last_dot s = Some (a, b) -> s = a +:+ "." +:+ b.
Proof.
  revert a b. induction s as [|c s IH]; intros a b; [done|]. cbn [split_last_dot]. destruct (split_last_dot s) as [[a' b']|].
  - intros [= <- <-]. rewrite (IH a' b' eq_refl). done.
  - destruct (Ascii.eqb_spec c ".") as [->|]; [|done]. by intros [= <- <-].
Qed.
Lemma split_last_dot_some a b : is_Some (split_last_dot (a +:+ "." +:+ b)).
Proof.
  induction a as [|c a IH].
  - rewrite str_app_nil_l. change (is_Some (split_last_dot (String "." b))). cbn [split_last_dot].
    destruct (split_last_dot b) as [[a b']|]; cbn; by eexists.
  - rewrite str_app_cons. cbn [split_last_dot]. destruct IH as [[a' b'] ->]. by eexists.
Qed.
Lemma in_cat_inv a b s : rx_in (a · b)%rx s -> exists s1 s2, s = s1 +:+ s2 /\ rx_in a s1 /\ rx_in b s2.
Proof. inversion 1; subst; eauto 6. Qed.
Lemma in_class_inv p s : rx_in (Cls p) s -> exists c, s = String c "" /\ p c = true.
Proof. inversion 1; subst; eauto. Qed.
Lemma key_id_text s : rx_in KEY_ID_PATTERN s -> exists c a b, s = String c a +:+ "." +:+ b /\ is_lower c = true.
Proof.
  intros (s1 & r1 & -> & (s2 & r2 & -> & (s3 & r3 & -> & (s4 & r4 & -> & (s5 & r5 & -> & (c & -> & Hc)%in_class_inv & _)%in_cat_inv
    & (d & -> & Hd)%in_class_inv)%in_cat_inv & _)%in_cat_inv & _)%in_cat_inv & _)%in_cat_inv.
  apply Ascii.eqb_eq in Hd as ->. exists c, r5, (r3 +:+ r2 +:+ r1). split; [|done]. by rewrite !str_app_assoc.
Qed.
Lemma key_id_service s service : serviceOfKeyId s = Ok service -> len_between 1 64 service = true.
Proof.
  unfold serviceOfKeyId. intros H. sabcl_run. match goal with H : negb _ = false |- _ => apply negb_false_iff, key_id_bounds in H as [Hl Hr] end.
  apply key_id_text in Hr as (c & a & b & -> & Hc). destruct (split_last_dot_some (String c a) b) as [[p q] Hs]. rewrite Hs in H. cbn in H. subst p.
  apply split_last_dot_spec in Hs. unfold len_between in *. apply andb_true_iff in Hl as [_ Hl%Nat.leb_le]. rewrite Hs, str_length_app in Hl.
  apply andb_true_iff. split; apply Nat.leb_le; [|lia]. destruct service as [|d t]; [|cbn; lia].
  rewrite str_app_cons, str_app_nil_l in Hs. injection Hs as -> _. by vm_compute in Hc.
Qed.

(** What the keyring of a party that has started holds. *)
Section Statuses.
Context {prim : SabclPrimitives}.
Definition peer_ok (p : SabclPublicIdentity) : Prop := sabclKeyId (pu_keyId p) = true /\ len_between 1 64 (pu_service p) = true.
Lemma public_ok m p : loadPublicIdentity m = Ok p -> peer_ok p.
Proof.
  unfold loadPublicIdentity, parse_key_id. intros H. destruct (sabclKeyId (um_keyId m)) eqn:Hk; [|done]. sabcl_run. subst. cbn.
  split; [done|]. by eapply key_id_service.
Qed.
Lemma loads_ok (vs : list json) l : mapM (fun v => loadPublicIdentity (peer_material v)) vs = Ok l -> Forall peer_ok l.
Proof.
  revert l. induction vs as [|v vs IH]; intros l; [by intros [= <-]|]. cbn [mapM]. intros H. sabcl_run. subst.
  constructor; [by eapply public_ok|by apply IH].
Qed.
Lemma read_peers_ok peers l : read_peers peers = Ok l -> Forall peer_ok l.
Proof. unfold read_peers. intros H%as_configuration_inv. sabcl_run. by eapply loads_ok. Qed.
Lemma unique_length l : (length (unique l) <= length l)%nat.
Proof. apply NoDup_incl_length; [apply NoDup_ListNoDup, unique_NoDup|]. intros x. rewrite <- !list_elem_of_In. by rewrite unique_elem. Qed.
Lemma rotation_length ring now_s : (length (rotationState ring now_s) <= length (kr_peers ring))%nat.
Proof.
  unfold rotationState. rewrite length_map, sort_strings_perm. etrans; [apply unique_length|]. by rewrite length_map.
Qed.
(** A list of identifiers of peers is within the contract. *)
Lemma identifiers_accepted (l : list SabclPublicIdentity) p : Forall peer_ok l -> (length l <= 16)%nat ->
  accepts (zod_array 0 16 sabclKeyFingerprintSchema) (JArr (map JStr (sort_strings (map pu_keyId (List.filter p l))))).
Proof.
  intros Hl Hn. apply accepts_array.
  - rewrite length_map, sort_strings_perm, length_map. pose proof (filter_length_le p l). lia.
  - apply Forall_map, Forall_forall. intros k Hk. rewrite sort_strings_perm in Hk. apply list_elem_of_fmap in Hk as (q & -> & Hq).
    apply list_elem_of_In, filter_In in Hq as [Hq%list_elem_of_In _]. apply accepts_string, key_id_fingerprint.
    by apply (proj1 (Forall_forall _ _) Hl).
Qed.
Lemma filter_filter {A} (p q : A -> bool) l : List.filter p (List.filter q l) = List.filter (fun x => p x && q x) l.
Proof.
  induction l as [|x l IH]; [done|]. cbn. destruct (q x); cbn; [|by rewrite andb_false_r]. rewrite andb_true_r. destruct (p x); by rewrite IH.
Qed.
Lemma rotation_accepts ring now_s : Forall peer_ok (kr_peers ring) -> (length (kr_peers ring) <= 16)%nat ->
  Forall (accepts sabclRotationEntrySchema) (map rotation_json (rotationState ring now_s)).
Proof.
  intros Hp Hn. apply Forall_map, Forall_forall. intros ro Hro. unfold rotationState in Hro.
  apply list_elem_of_fmap in Hro as (service & -> & Hs). rewrite sort_strings_perm, unique_elem in Hs.
  apply list_elem_of_fmap in Hs as (p & -> & Hin). pose proof (proj1 (Forall_forall _ _) Hp _ Hin) as [_ Hservice].
  unfold rotation_json. cbn [ro_service ro_active ro_accepted ro_revoked]. accept_members.
  - by apply accepts_string.
  - apply accepts_nullable. destruct (activePeerFor ring (pu_service p) now_s) as [q|] eqn:Hq; cbn; [right; split; [done|]|by left].
    apply accepts_string, key_id_fingerprint. unfold activePeerFor in Hq. apply demand_inv, newest_in, list_elem_of_In, filter_In in Hq as [Hq%list_elem_of_In _].
    by apply (proj1 (Forall_forall _ _) Hp).
  - rewrite filter_filter. by apply identifiers_accepted.
  - rewrite filter_filter. by apply identifiers_accepted.
Qed.
End Statuses.
Section Documents.
Context {prim : SabclPrimitives} {zod_urls : ZodUrl}.
Definition route_ok (r : SabclRoute) : Prop := len_between 3 64 (rt_routeId r) = true /\ len_between 1 64 (rt_service r) = true.
Lemma string_field_ok p j v : zod_string p j = Some v -> exists s, j = JStr s /\ p s = true.
Proof. destruct j; try done. unfold zod_string, zod_text, checked. cbn. destruct (p s) eqn:Hp; [|done]. intros _. eauto. Qed.
Lemma definition_ok j v : routeDefinitionSchema j = Some v -> route_ok (route_definition v).
Proof.
  intros H. assert (Hv : routeDefinitionSchema v = Some v) by (unfold routeDefinitionSchema in *; eapply schema_stable; exact H).
  unfold route_ok, route_definition, string_member. cbn [rt_routeId rt_service].
  destruct (object_field _ _ _ _ "routeId" _ Hv ltac:(by left)) as (w1 & (s1 & -> & H1)%string_field_ok).
  destruct (object_field _ _ _ _ "service" _ Hv ltac:(right; by left)) as (w2 & (s2 & -> & H2)%string_field_ok). done.
Qed.
Lemma definitions_ok l r : mapM routeDefinitionSchema l = Some r -> Forall route_ok (map route_definition r).
Proof.
  intros H%mapM_Some. apply Forall_map. induction H as [|j v l r Hj _ IH]; constructor; [|done]. by eapply definition_ok.
Qed.
Lemma routes_ok env routes : loadRoutes env = Ok routes -> Forall route_ok routes.
Proof.
  unfold loadRoutes. destruct (String.eqb _ ""); [intros [= <-]; repeat constructor|]. intros H. setup_run. subst.
  match goal with H : zod_nonempty _ ?j = Some _ |- _ => destruct j as [| | | | |[|x l]|]; try discriminate H; unfold zod_nonempty in H; revert H end.
  destruct (mapM routeDefinitionSchema (x :: l)) as [r|] eqn:Hr; [|done]. intros [= <-]. by eapply definitions_ok.
Qed.
Lemma snapshot_accepts st : Z.of_nat (length (sc_log st)) < 2 ^ 53 -> accepts counters_schema (snapshot st).
Proof.
  intros Hl. unfold accepts, counters_schema, zod_refine.
  assert (Hr : accepts (zod_record (zod_int (Z.leb 0))) (snapshot st)).
  { apply accepts_record. unfold snapshot. apply Forall_map, Forall_forall. intros e _. cbn [snd]. unfold accepts, zod_int, is_safe_integer.
    assert (Hc : (audit_count e st <= length (sc_log st))%nat) by apply filter_length_le.
    by rewrite (proj2 (Z.leb_le _ _)), (proj2 (Z.leb_le _ _)), (proj2 (Z.leb_le _ _)) by lia. }
  rewrite Hr. done.
Qed.
Lemma mode_accepts m : accepts mode_schema (JStr (mode_text m)).
Proof. by destruct m. Qed.
(** The environment of a party that can describe itself: keys of 32 bytes. *)
Definition described (e : SabclEnvironment) : Prop :=
  String.length (ed25519_public (pi_signingPrivateKey (kr_own (se_keyring e)))) = 32%nat.
Lemma own_accepts input e : loaded input e -> described e -> accepts sabclKeyFingerprintSchema (JStr (own_fingerprint e)).
Proof.
  intros Hl H. destruct (ld_own _ _ Hl) as (Hk & _). apply accepts_string, abbreviated_fingerprint; [done|]. unfold described in H. rewrite H. lia.
Qed.
Lemma live_routes_ok (table : SabclRouteTable) : Forall route_ok (map snd table) -> Forall route_ok (destinations table).
Proof.
  intros H. unfold destinations. apply Forall_map, Forall_forall. intros [t r] [Hin _]%list_elem_of_In%filter_In.
  apply (proj1 (Forall_forall _ _) H). apply list_elem_of_In in Hin. apply list_elem_of_fmap. by exists (t, r).
Qed.
(** What a router that has started says of itself is within the contract of the
    status view, as long as its peers and routes are few enough to be listed. *)
Theorem router_status_conforms {urls : Urls} env cfg alive redis_up now_s st : createRouterConfig env = Ok cfg -> described (rc_sabcl cfg) ->
  (length (kr_peers (rc_keyring cfg)) <= 16)%nat -> (length (rc_routes cfg) <= 64)%nat -> Z.of_nat (length (sc_log st)) < 2 ^ 53 ->
  sabclRouterStatusSchema (router_status cfg alive redis_up now_s st) = Some (router_status cfg alive redis_up now_s st).
Proof.
  intros (Hl & (routes & Hr & (Hmap & _)%new_table_ok) & _)%router_inv Hd Hpeers Hroutes Hst.
  pose proof (routes_ok _ _ Hr) as Hok. rewrite <- Hmap in Hok. apply live_routes_ok in Hok.
  pose proof (read_peers_ok _ _ (ld_peers _ _ Hl)) as Hp. unfold rc_keyring in Hpeers.
  assert (Hlen : (length (destinations (rc_routes cfg)) <= 64)%nat).
  { unfold destinations. rewrite length_map. pose proof (filter_length_le (fun e => in_service e.2) (rc_routes cfg)). lia. }
  change (accepts sabclRouterStatusSchema (router_status cfg alive redis_up now_s st)). unfold router_status. accept_members.
  all: first [by apply accepts_string|apply mode_accepts|by eapply own_accepts|by apply snapshot_accepts|by destruct redis_up|idtac].
  - apply accepts_array; [|by apply rotation_accepts]. rewrite length_map. pose proof (rotation_length (se_keyring (rc_sabcl cfg)) now_s). lia.
  - unfold liveRouteIds. replace (map (fun e : string * SabclRoute => rt_routeId e.2) _) with (map rt_routeId (destinations (rc_routes cfg)))
      by (unfold destinations; by rewrite map_map).
    apply accepts_array; [rewrite length_map, sort_strings_perm, length_map; lia|]. apply Forall_map, Forall_forall. intros k Hk.
    rewrite sort_strings_perm in Hk. apply list_elem_of_fmap in Hk as (r & -> & Hin). by apply accepts_string, (proj1 (Forall_forall _ _) Hok).
  - unfold destinationHealth. apply accepts_array; [rewrite length_map; lia|]. apply Forall_map, Forall_forall. intros r Hin.
    destruct (proj1 (Forall_forall _ _) Hok _ Hin) as [H1 H2]. accept_members; [by apply accepts_string..|done].
Qed.

(** The gateway's view, for whatever the router answers. *)
Section View.
Variable e : option SabclEnvironment.
Hypothesis He : match e with Some e => exists input, loaded input e | None => True end.
Hypothesis Hd : match e with Some e => described e /\ (length (kr_peers (se_keyring e)) <= 32)%nat | None => True end.
Lemma fetched_accepts status : accepts (zod_nullable sabclRouterStatusSchema) (default JNull (fetchRouterStatus status)).
Proof.
  apply accepts_nullable. destruct (fetchRouterStatus status) as [v|] eqn:Hv; [|by left]. right. cbn.
  unfold fetchRouterStatus in Hv. apply bind_Some in Hv as (reply & _ & Hv). destruct (reply_ok reply); [|done].
  split; [|unfold accepts; unfold sabclRouterStatusSchema in *; eapply schema_stable; exact Hv].
  intros ->. unfold sabclRouterStatusSchema in Hv. apply object_keys in Hv as (fs & Hfs & _); [|done]. discriminate Hfs.
Qed.
(** The status endpoint of the gateway always answers, with a document of the
    contract: fingerprints of keys, never a key, and what the router answered only
    if it keeps to the contract itself. *)
Theorem status_answers ready status : sabcl_status e ready status = Some (status_document e ready status).
Proof.
  change (accepts sabclStatusResponseSchema (status_document e ready status)). unfold status_document. accept_members.
  all: first [by apply accepts_string|apply mode_accepts|idtac].
  - done.
  - apply accepts_nullable. destruct e as [x|]; cbn; [right|by left]. destruct He as [input Hl], Hd as [Hx _]. split; [done|]. by eapply own_accepts.
  - destruct e as [x|]; cbn [transport_status ts_peers]; [|done]. destruct He as [input Hl], Hd as [_ Hn]. unfold peerKeyIds.
    apply accepts_array; [rewrite length_map, sort_strings_perm, length_map; lia|]. apply Forall_map, Forall_forall. intros k Hk.
    rewrite sort_strings_perm in Hk. apply list_elem_of_fmap in Hk as (p & -> & Hin).
    pose proof (proj1 (Forall_forall _ _) (read_peers_ok _ _ (ld_peers _ _ Hl)) _ Hin) as [Hk _]. apply accepts_string. by apply key_id_bounds in Hk as [? _].
  - done.
  - destruct (routerReady e ready); [apply fetched_accepts|done].
Qed.
End View.
(** With more peers than the contract lists there is no answer, although the
    parties start with any number of them. *)
Lemma many_peers_unanswered e ready status : (32 < length (kr_peers (se_keyring e)))%nat -> sabcl_status (Some e) ready status = None.
Proof.
  intros Hn. destruct (sabcl_status (Some e) ready status) as [v|] eqn:Hs; [|done].
  destruct (object_field _ _ _ _ "peerKeyIds" _ Hs ltac:(do 4 right; by left)) as (w & Hw). unfold status_document in Hw. cbn [jfield jget String.eqb Ascii.eqb Bool.eqb] in Hw.
  unfold zod_array in Hw. cbn [default from_option id transport_status ts_peers] in Hw. unfold id in Hw. rewrite length_map in Hw. unfold peerKeyIds in Hw.
  rewrite sort_strings_perm, length_map, (proj2 (Nat.leb_gt _ _) Hn), andb_false_r in Hw. done.
Qed.
(** The page of the operator: what the router says of itself arrives as it is. *)
Lemma router_shown e doc ready status : sabclRouterStatusSchema doc = Some doc -> replied_ok ready = true -> reply_ok status = true ->
  hp_body status = Some doc -> jfield "router" (status_document (Some e) ready (Some status)) = doc.
Proof.
  intros Hdoc Hr Hs Hb. unfold status_document. cbn [jfield jget String.eqb Ascii.eqb Bool.eqb]. unfold routerReady, fetchRouterStatus.
  rewrite bool_decide_eq_true_2 by eauto. cbn [andb]. rewrite Hr. cbn [mbind option_bind]. rewrite Hs, Hb. cbn. by rewrite Hdoc.
Qed.
End Documents.
