(* ===== verification/LedgerHttp.v ===== *)
(** * The Ledger as its HTTP server
    ([services/ledger/src/**/*.controller.ts], [common/http], [app.module.ts])

    A request passes the correlation middleware, the internal-token guard and
    the parsing of its controller, calls one method of a service, and what the
    method throws is rendered by the exception filter. The matching of paths is
    the framework's: a request comes with the route it matched. The bodies of
    the channel operations, which their controller does not validate, come as
    the type it declares. *)

From Stdlib Require Import ZArith Lia Ascii String.
From stdpp Require Import base strings list gmap.
From S2P Require Import Prelude.
From S2P Require Import Js.
From S2P Require Import Codec.
From S2P Require Import Regex.
From S2P Require Import Contracts.
From S2P Require Import Security.
From S2P Require Import RiskService.
From S2P Require Import LedgerDb.
From S2P Require Import Idempotency.
From S2P Require Import Journal.
From S2P Require Import JournalProofs.
From S2P Require Import JournalProperties.
From S2P Require Import Accounts.
From S2P Require Import CustomerTransfer.
From S2P Require Import LedgerReconciliation.
From S2P Require Import Transactions.
From S2P Require Import LedgerSystem.
From S2P Require Import SabclServices.
From S2P Require Import Schemas.
From S2P Require Import WireContracts.
From S2P Require Import GatewayHttp.
From S2P Require Import Settings.

Open Scope Z_scope.

(** ** Enumerations from their text *)
Definition read_enum {A} (show : A -> string) (all : list A) (s : string) : option A := find (fun a => String.eqb (show a) s) all.
Definition directions : list PostingDirection := [DEBIT; CREDIT].
Definition entry_types : list JournalEntryType :=
  [ACCOUNT_ADJUSTMENT; SETTLEMENT_FUNDING; INTERNAL_TEST; CUSTOMER_TRANSFER; QR_PAYMENT; AGENT_CASH_IN; AGENT_CASH_OUT].
Definition transaction_directions : list TransactionDirection := [INCOMING; OUTGOING].
Definition transaction_categories : list TransactionCategory := [FUNDING; ADJUSTMENT; TRANSFER; OTHER].
Definition member_text (k : string) (v : json) : string := default ""%string (text_field k v).

(** ** Request contracts ([accounts/v1.ts], [payments/v1.ts]) *)
Section Requests.
Context {zod : Zod}.

Definition internalProvisionDefaultAccountSchema : schema := zod_object Strict
  [("customerId", Req uuid_text); ("productType", Dflt (JStr "TIER0_WALLET") (zod_enum ["TIER0_WALLET"]));
   ("currency", Dflt (JStr "LKR") currency_text); ("idempotencyKey", Req (zod_text idempotencyKeySchema))]%string.
Definition read_provision (v : json) : InternalProvisionDefaultAccountInput :=
  mkProvisionInput (member_text "customerId" v) TIER0_WALLET (member_text "currency" v) (member_text "idempotencyKey" v).

Definition posting_schema : schema := zod_object Strict
  [("ledgerAccountId", Req uuid_text); ("direction", Req (zod_enum (map direction_str directions))); ("amountMinor", Req positive_minor)]%string.
Definition unsafe_key (k : string) : bool := existsb (String.eqb k) UNSAFE_METADATA_KEYS.
Definition MAX_METADATA_SERIALIZED_BYTES : nat := 2048.
(** The keys are trimmed, the raw ones and the trimmed ones are inspected. *)
Definition journalMetadataSchema : schema := fun j =>
  match j with
  | JObj fs =>
      if existsb (fun kv => unsafe_key kv.1) fs then None
      else
        r ← mapM (fun '(k, v) => k' ← z_regex metadataKey_rx (trim k); if metadata_value_ok v then Some (k', v) else None) fs;
        let m := fold_left (fun m '(k, v) => jset k v m) r [] in
        if forallb (fun kv => negb (unsafe_key kv.1)) m && (length m <=? MAX_METADATA_ENTRIES)%nat
           && (String.length (Codec.text (JObj m)) <=? MAX_METADATA_SERIALIZED_BYTES)%nat
        then Some (JObj m) else None
  | _ => None
  end.
Definition internalJournalRequestSchema : schema := zod_object Strict
  [("reference", Opt (zod_text journalReferenceSchema)); ("entryType", Req (zod_enum (map entryType_str entry_types)));
   ("currency", Req currency_text); ("description", Opt (zod_text journalDescriptionSchema)); ("effectiveAt", Opt datetime_text);
   ("idempotencyKey", Req (zod_text idempotencyKeySchema)); ("postings", Req (zod_array 2 32 posting_schema));
   ("metadata", Opt journalMetadataSchema)]%string.
Definition read_posting (v : json) : option JournalPostingRequest :=
  d ← read_enum direction_str directions (member_text "direction" v);
  Some (mkPostingRequest (member_text "ledgerAccountId" v) d (member_text "amountMinor" v)).
Definition read_journal (v : json) : option InternalJournalRequest :=
  t ← read_enum entryType_str entry_types (member_text "entryType" v);
  ps ← match jfield "postings" v with JArr l => mapM read_posting l | _ => None end;
  Some (mkJournalRequest (text_field "reference" v) t (member_text "currency" v) (text_field "description" v) (text_field "effectiveAt" v)
          (member_text "idempotencyKey" v) ps (match jfield "metadata" v with JObj m => Some m | _ => None end)).

Definition transfer_preview_fields : list (string * Field) :=
  [("senderCustomerId", Req uuid_text); ("sourceAccountId", Req uuid_text); ("recipientReference", Req (zod_text publicAccountReferenceSchema));
   ("amountMinor", Req positive_minor); ("currency", Req currency_text)]%string.
Definition transfer_preview_schema : schema := zod_object Strict transfer_preview_fields.
Definition transfer_command_schema : schema := zod_object Strict (transfer_preview_fields ++
  [("transferId", Req uuid_text); ("transferReference", Req (zod_text transferDisplayReferenceSchema)); ("idempotencyKey", Req key_text)]%string).
Definition read_transfer_preview (v : json) : InternalTransferPreview :=
  mkTransferPreview (member_text "senderCustomerId" v) (member_text "sourceAccountId" v) (member_text "recipientReference" v)
    (member_text "amountMinor" v) (member_text "currency" v).
Definition read_transfer (v : json) : InternalLedgerTransferCommand :=
  mkTransferCommand (read_transfer_preview v) (member_text "transferId" v) (member_text "transferReference" v) (member_text "idempotencyKey" v).

Definition read_query (v : json) : TransactionHistoryQuery :=
  mkHistoryQuery (text_field "direction" v ≫= read_enum transactionDirection_str transaction_directions)
    (text_field "category" v ≫= read_enum category_str transaction_categories)
    (text_field "dateFrom" v) (text_field "dateTo" v)
    (match jfield "pageSize" v with JNum n => Z.to_nat n | _ => O end) (text_field "cursor" v).
End Requests.

(** ** Answers as documents *)
Definition money_json (m : Money) : json := JObj [("currency", JStr (currency m)); ("minorUnits", JStr (minorUnits m))]%string.
Definition summary_members (a : CustomerAccountSummary) : list (string * json) :=
  [("id", JStr (cas_id a)); ("maskedReference", JStr (cas_maskedReference a)); ("productType", JStr (productType_str (cas_productType a)));
   ("status", JStr (status_str (cas_status a))); ("currency", JStr (cas_currency a)); ("createdAt", JStr (cas_createdAt a))]%string.
Definition account_json (a : CustomerAccountDetail) : json :=
  JObj (summary_members (cad_summary a) ++ [("balance", money_json (cad_balance a)); ("receivingReference", JStr (cad_receivingReference a))]%string).
Definition accounts_json (l : list CustomerAccountSummary) : json :=
  JObj [("accounts", JArr (map (fun a => JObj (summary_members a)) l))]%string.
Definition balance_json (b : AccountBalance) : json :=
  JObj [("accountId", JStr (ab_accountId b)); ("balance", money_json (ab_balance b)); ("updatedAt", JStr (ab_updatedAt b))]%string.
Definition provision_json (r : ProvisionDefaultAccountResult) : json :=
  JObj [("account", account_json (pv_account r)); ("created", JBool (pv_created r))]%string.
Definition transaction_members (t : CustomerTransactionSummary) : list (string * json) :=
  [("id", JStr (ct_id t)); ("displayReference", JStr (ct_displayReference t)); ("accountId", JStr (ct_accountId t));
   ("direction", JStr (transactionDirection_str (ct_direction t))); ("category", JStr (category_str (ct_category t))); ("status", JStr "POSTED");
   ("amount", money_json (ct_amount t)); ("balanceAfter", money_json (ct_balanceAfter t)); ("effectiveAt", JStr (ct_effectiveAt t));
   ("postedAt", JStr (ct_postedAt t))]%string.
Definition history_json (page : list CustomerTransactionSummary * option string) : json :=
  JObj [("transactions", JArr (map (fun t => JObj (transaction_members t)) page.1)); ("nextCursor", from_option JStr JNull page.2)]%string.
Definition transaction_json (t : CustomerTransactionDetail) : json :=
  JObj (transaction_members (ctd_summary t) ++ [("maskedAccountReference", JStr (ctd_maskedAccountReference t));
                                                 ("productType", JStr (productType_str (ctd_productType t)))]%string).
Definition posting_result_json (p : JournalPostingResult) : json :=
  JObj [("id", JStr (ps_id p)); ("ledgerAccountId", JStr (ps_ledgerAccountId p)); ("direction", JStr (direction_str (ps_direction p)));
        ("amountMinor", JStr (ps_amountMinor p)); ("sequence", JNum (ps_sequence p))]%string.
Definition journal_json (r : JournalResult) : json :=
  JObj [("id", JStr (jres_id r)); ("reference", JStr (jres_reference r)); ("entryType", JStr (entryType_str (jres_entryType r)));
        ("currency", JStr (jres_currency r)); ("totalMinor", JStr (jres_totalMinor r)); ("effectiveAt", JStr (jres_effectiveAt r));
        ("createdAt", JStr (jres_createdAt r)); ("postings", JArr (map posting_result_json (jres_postings r)))]%string.
Definition transfer_preview_json (r : InternalTransferPreviewResult) : json :=
  JObj [("sourceAccountId", JStr (tpr_sourceAccountId r)); ("sourceMaskedReference", JStr (tpr_sourceMaskedReference r));
        ("sourceBalance", money_json (tpr_sourceBalance r)); ("recipientAccountId", JStr (tpr_recipientAccountId r));
        ("recipientCustomerId", JStr (tpr_recipientCustomerId r)); ("recipientMaskedReference", JStr (tpr_recipientMaskedReference r));
        ("currency", JStr (tpr_currency r))]%string.
Definition transfer_json (r : InternalLedgerTransferResult) : json :=
  JObj [("journalId", JStr (tr_journalId r)); ("senderPostingId", JStr (tr_senderPostingId r)); ("recipientPostingId", JStr (tr_recipientPostingId r));
        ("senderAccountId", JStr (tr_senderAccountId r)); ("recipientAccountId", JStr (tr_recipientAccountId r));
        ("senderMaskedReference", JStr (tr_senderMaskedReference r)); ("recipientMaskedReference", JStr (tr_recipientMaskedReference r));
        ("senderBalanceAfter", money_json (tr_senderBalanceAfter r)); ("recipientBalanceAfter", money_json (tr_recipientBalanceAfter r));
        ("currency", JStr (tr_currency r)); ("amount", money_json (tr_amount r)); ("postedAt", JStr (tr_postedAt r))]%string.
Definition resolved_json (r : string * string * string) : json :=
  JObj [("accountId", JStr r.1.1); ("customerId", JStr r.1.2); ("maskedReference", JStr r.2)]%string.
Definition journal_id_json (id : string) : json := JObj [("journalId", JStr id)]%string.
Definition issue_json (i : ReconciliationIssue) : json :=
  JObj ([("code", JStr (is_code i)); ("severity", JStr (if is_error i then "ERROR" else "WARNING"))]%string
        ++ from_option (fun s => [("safeIdentifier"%string, JStr s)]) [] (is_safeIdentifier i)).
Definition reconciliation_json (r : ReconciliationRun) : json :=
  JObj [("id", JStr (rr_id r)); ("status", JStr (if rr_pass r then "PASS" else "FAIL")); ("startedAt", JStr (toISOString (rr_startedAt r)));
        ("completedAt", JStr (toISOString (rr_completedAt r))); ("checkedJournalEntries", JNum (rr_checkedJournalEntries r));
        ("checkedPostings", JNum (rr_checkedPostings r)); ("checkedLedgerAccounts", JNum (rr_checkedLedgerAccounts r));
        ("checkedCustomerAccounts", JNum (rr_checkedCustomerAccounts r)); ("issueCount", JNum (Z.of_nat (length (rr_issues r))));
        ("issues", JArr (map issue_json (rr_issues r)))]%string.
Definition issue_code_rx : rx := (upper · rep_range 2 63 (Cls (fun c => is_upper c || is_digit c || Ascii.eqb c "_")))%rx.
Definition reconciliationIssueSchema : schema := zod_object Strict
  [("code", Req (zod_string (rx_match issue_code_rx))); ("severity", Req (zod_enum ["WARNING"; "ERROR"]));
   ("safeIdentifier", Opt (zod_string (any_length 64)))]%string.
Definition reconciliationResultSchema {zod : Zod} : schema := zod_object Strict
  [("id", Req uuid_text); ("status", Req (zod_enum ["PASS"; "FAIL"])); ("startedAt", Req datetime_text); ("completedAt", Req datetime_text);
   ("checkedJournalEntries", Req (zod_int nonnegative)); ("checkedPostings", Req (zod_int nonnegative));
   ("checkedLedgerAccounts", Req (zod_int nonnegative)); ("checkedCustomerAccounts", Req (zod_int nonnegative));
   ("issueCount", Req (zod_int nonnegative)); ("issues", Req (zod_array 0 MAX_RECONCILIATION_ISSUES reconciliationIssueSchema))]%string.

(** ** The server *)
Inductive LedgerRoute :=
| GetHealth | GetReady
| PostDefaultAccount
| GetAccounts (customerId : string)
| GetAccount (accountId : string)
| GetBalance (accountId : string)
| GetTransactions (accountId : string)
| GetTransaction (accountId transactionId : string)
| PostJournalEntry
| PostReconciliation | GetLatestReconciliation
| PostTransferPreview | PostTransfer
| GetResolvedAccount (reference : option string)
| PostQrPayment (body : QrPaymentInput)
| PostAgentCashIn (body : AgentCashInput)
| PostAgentCashOut (body : AgentCashInput).
(** The headers [x-aegis-internal-token], [x-aegis-customer-id] and
    [x-correlation-id], the query and the parsed body. *)
Record LedgerHttpRequest := mkLedgerHttpRequest {
  lq_token : option string; lq_customer : option string; lq_correlation : option string; lq_query : json; lq_body : json }.
(** [PublicRoute]; the route of SABCL, also public, is in [SabclServices]. *)
Definition public_route (r : LedgerRoute) : bool := match r with GetHealth => true | _ => false end.
Definition internal_actor : JournalActor := mkActor "SERVICE" "internal".
Definition health_json : json := JObj [("status", JStr "ok"); ("service", JStr "ledger")]%string.
Definition ready_json (up : bool) : json :=
  JObj [("status", JStr (if up then "ready" else "not_ready")); ("service", JStr "ledger");
        ("dependencies", JObj [("postgres", JStr (if up then "up" else "down"))])]%string.
(** [StructuredExceptionFilter]: status, code and message. *)
Definition ledger_filter (e : LedgerErr) : Z * string * string :=
  match e with
  | LedgerError code message status => (status, code, message)
  | _ => (500, "INTERNAL_ERROR", "The request could not be completed.")%string
  end.
Definition http_filter (status : Z) : Z * string * string :=
  (status, if status =? 404 then "NOT_FOUND"%string else if status =? 401 then "UNAUTHENTICATED"%string else "INVALID_REQUEST"%string,
   if 500 <=? status then "The request could not be completed."%string else "The request is invalid."%string).
Definition error_reply (correlationId : string) (e : Z * string * string) : HttpReply :=
  mkHttpReply e.1.1 (Some (JObj [("error", JObj [("code", JStr e.1.2); ("message", JStr e.2); ("correlationId", JStr correlationId)])]))%string.

Section Server.
Context {zod : Zod} {crypto : Crypto} {pg : Postgres}.
Variable config : LedgerConfig.
Variable now : Z.
(** The random integers of new references, and the answer of the probe of the database. *)
Variable draws : nat -> nat -> nat.
Variable postgres_up : bool.

Definition parseInput {A} (o : option A) : LedgerM A := require o invalidRequestError.
Definition path_uuid (value : string) : LedgerM string := parseInput (checked z_uuid value).
Definition customer_header (q : LedgerHttpRequest) : LedgerM string := parseInput (lq_customer q ≫= fun h => checked z_uuid (trim h)).
Definition replies {A} (status : Z) (show : A -> json) (m : LedgerM A) : LedgerM (Z * json) := a ← m; mret (status, show a).
Definition stored_run (r : ReconciliationRun) : LedgerM json := require (reconciliationResultSchema (reconciliation_json r)) (JsError "ZodError").

(** [HealthController], [AccountController] *)
Definition get_health : LedgerM (Z * json) := mret (200, health_json).
Definition get_ready : LedgerM (Z * json) := mret (if postgres_up then 200 else 503, ready_json postgres_up).
Definition post_default_account (q : LedgerHttpRequest) : LedgerM (Z * json) :=
  b ← parseInput (internalProvisionDefaultAccountSchema (lq_body q));
  replies 201 provision_json (provisionDefault config now draws (read_provision b)).
Definition get_accounts (customerId : string) : LedgerM (Z * json) :=
  id ← path_uuid customerId; replies 200 accounts_json (atomically (listForCustomer id)).
Definition get_account (accountId : string) (q : LedgerHttpRequest) : LedgerM (Z * json) :=
  c ← customer_header q; id ← path_uuid accountId; replies 200 account_json (atomically (getForCustomer c id)).
Definition get_balance (accountId : string) (q : LedgerHttpRequest) : LedgerM (Z * json) :=
  c ← customer_header q; id ← path_uuid accountId; replies 200 balance_json (atomically (getBalanceForCustomer c id)).
(** [TransactionController] *)
Definition get_transactions (accountId : string) (q : LedgerHttpRequest) : LedgerM (Z * json) :=
  c ← customer_header q; id ← path_uuid accountId; query ← parseInput (transactionHistoryQuerySchema (lq_query q));
  replies 200 history_json (atomically (list_transactions c id (read_query query))).
Definition get_transaction (accountId transactionId : string) (q : LedgerHttpRequest) : LedgerM (Z * json) :=
  c ← customer_header q; id ← path_uuid accountId; t ← path_uuid transactionId;
  replies 200 transaction_json (atomically (Transactions.detail c id t)).
(** [JournalController] *)
Definition post_journal_entry (q : LedgerHttpRequest) (correlationId : string) : LedgerM (Z * json) :=
  b ← parseInput (internalJournalRequestSchema (lq_body q) ≫= read_journal);
  replies 201 journal_json (Journal.post config now b correlationId internal_actor).
(** [ReconciliationController] *)
Definition post_reconciliation (correlationId : string) : LedgerM (Z * json) :=
  r ← run_reconciliation now correlationId; v ← stored_run r.1; mret (200, v).
Definition get_latest_reconciliation : LedgerM (Z * json) :=
  r ← atomically latest;
  r ← require r (LedgerError "NOT_FOUND" "No reconciliation run has been recorded." 404);
  v ← stored_run r; mret (200, v).
(** [CustomerTransferController] *)
Definition post_transfer_preview (q : LedgerHttpRequest) : LedgerM (Z * json) :=
  b ← parseInput (transfer_preview_schema (lq_body q));
  replies 201 transfer_preview_json (CustomerTransfer.preview (read_transfer_preview b)).
Definition post_customer_transfer (q : LedgerHttpRequest) (correlationId : string) : LedgerM (Z * json) :=
  b ← parseInput (transfer_command_schema (lq_body q));
  replies 201 transfer_json (CustomerTransfer.transfer config now (read_transfer b) correlationId).
(** [ChannelOperationsController], which reads the correlation header itself *)
Definition get_resolved_account (reference : option string) : LedgerM (Z * json) :=
  r ← require reference (JsError "PrismaClientValidationError"); replies 200 resolved_json (resolveAccountByReference r).
Definition post_qr_payment (body : QrPaymentInput) (channelId : string) : LedgerM (Z * json) :=
  replies 200 journal_id_json (qrPayment config now body channelId).
Definition post_agent_cash_in (body : AgentCashInput) (channelId : string) : LedgerM (Z * json) :=
  replies 200 journal_id_json (agentCashIn config now body channelId).
Definition post_agent_cash_out (body : AgentCashInput) (channelId : string) : LedgerM (Z * json) :=
  replies 200 journal_id_json (agentCashOut config now body channelId).

(** [correlationId] is what the middleware leaves in the request, [channelId]
    what the controller of the channel operations makes of the header. *)
Definition handle_ledger (route : LedgerRoute) (q : LedgerHttpRequest) (correlationId channelId : string) : LedgerM (Z * json) :=
  match route with
  | GetHealth => get_health | GetReady => get_ready
  | PostDefaultAccount => post_default_account q
  | GetAccounts customerId => get_accounts customerId
  | GetAccount accountId => get_account accountId q | GetBalance accountId => get_balance accountId q
  | GetTransactions accountId => get_transactions accountId q
  | GetTransaction accountId transactionId => get_transaction accountId transactionId q
  | PostJournalEntry => post_journal_entry q correlationId
  | PostReconciliation => post_reconciliation correlationId | GetLatestReconciliation => get_latest_reconciliation
  | PostTransferPreview => post_transfer_preview q | PostTransfer => post_customer_transfer q correlationId
  | GetResolvedAccount reference => get_resolved_account reference
  | PostQrPayment body => post_qr_payment body channelId
  | PostAgentCashIn body => post_agent_cash_in body channelId
  | PostAgentCashOut body => post_agent_cash_out body channelId
  end.

(** [CorrelationMiddleware], and what the channel controller makes of the header. *)
Definition ledger_correlation (q : LedgerHttpRequest) (fresh : string) : string := default fresh (lq_correlation q ≫= checked z_uuid).
Definition channel_correlation (q : LedgerHttpRequest) (fresh : string) : string := default fresh (truthy_string (lq_correlation q)).

(** One request: no route is a 404, no token a 401. [fresh] and [fresh'] are
    identifiers that [randomUUID] makes. *)
Definition ledger_serve (route : option LedgerRoute) (q : LedgerHttpRequest) (fresh fresh' : string) (w : World) : HttpReply * World :=
  let correlationId := ledger_correlation q fresh in
  match route with
  | None => (error_reply correlationId (http_filter 404), w)
  | Some r =>
      if negb (ledger_canActivate config (public_route r) (lq_token q)) then (error_reply correlationId (http_filter 401), w)
      else match handle_ledger r q correlationId (channel_correlation q fresh') w with
           | (Ok (status, v), w') => (mkHttpReply status (Some v), w')
           | (Err e, w') => (error_reply correlationId (ledger_filter e), w')
           end
  end.
End Server.
Create HintDb handlers.
#[export] Hint Unfold get_health get_ready post_default_account get_accounts get_account get_balance get_transactions get_transaction
  post_journal_entry post_reconciliation get_latest_reconciliation post_transfer_preview post_customer_transfer get_resolved_account
  post_qr_payment post_agent_cash_in post_agent_cash_out : handlers.

(** * What the server answers, whatever it is asked *)

(** ** The refusals: a closed list, in which nothing comes from the request or
    from the database *)
Definition ledger_refusals : list (Z * string * string) :=
  [(400, "INVALID_REQUEST", "The request is invalid."); (400, "INVALID_REQUEST", "Invalid amount");
   (400, "INVALID_REQUEST", "Invalid transaction history cursor."); (400, "UNBALANCED_JOURNAL", "Journal debits and credits must be equal.");
   (400, "CURRENCY_MISMATCH", "All postings must use the journal currency."); (401, "UNAUTHENTICATED", "The request is invalid.");
   (404, "NOT_FOUND", "The request is invalid."); (404, "NOT_FOUND", "No reconciliation run has been recorded.");
   (404, "ACCOUNT_NOT_FOUND", "The account could not be found."); (409, "ACCOUNT_NOT_FOUND", "The transfer recipient is unavailable.");
   (409, "ACCOUNT_NOT_ACTIVE", "The account is not active."); (409, "INSUFFICIENT_FUNDS", "The account has insufficient available funds.");
   (409, "CURRENCY_MISMATCH", "Currency mismatch"); (409, "SELF_TRANSFER", "A transfer cannot use the same account.");
   (409, "SELF_TRANSFER", "Cannot transfer to self");
   (409, "IDEMPOTENCY_CONFLICT", "This idempotency key was already used with a different request.");
   (409, "IDEMPOTENCY_IN_PROGRESS", "An identical request is already being processed.");
   (500, "INTERNAL_ERROR", "System account not found"); (500, "INTERNAL_ERROR", "The request could not be completed.")]%string.
Definition permitted (e : LedgerErr) : Prop := ledger_filter e ∈ ledger_refusals.
(** [m] throws nothing else. *)
Definition tame {S A} (m : M S LedgerErr A) : Prop := triple (fun _ => True) m (fun _ _ => True) (fun e _ => permitted e).

Lemma internal_permitted e : (forall c m s, e <> LedgerError c m s) -> permitted e.
Proof. intros H. destruct e as [c m s| | |]; [by destruct (H c m s)|..]; unfold permitted; cbn; by apply list_elem_of_In; cbn; tauto. Qed.
Lemma tame_ret {S A} (a : A) : tame (mret a : M S LedgerErr A).
Proof. by apply triple_ret. Qed.
Lemma tame_bind {S A B} (m : M S LedgerErr A) (k : A -> M S LedgerErr B) : tame m -> (forall a, tame (k a)) -> tame (m ≫= k).
Proof. intros Hm Hk. by eapply triple_bind; [apply Hm|intros a; apply Hk]. Qed.
Lemma tame_gets {S A} (f : S -> A) : tame (gets f : M S LedgerErr A).
Proof. by intros s. Qed.
Lemma tame_get {S} : tame (get : M S LedgerErr S).
Proof. by intros s. Qed.
Lemma tame_modify {S} (f : S -> S) : tame (modify f : M S LedgerErr unit).
Proof. by intros s. Qed.
Lemma tame_throw {S A} e : permitted e -> tame (throw e : M S LedgerErr A).
Proof. by intros He s. Qed.
Lemma tame_throw_when {S} b e : permitted e -> tame (throw_when b e : M S LedgerErr unit).
Proof. intros He. destruct b; [by apply tame_throw|apply tame_ret]. Qed.
Lemma tame_require {S A} (o : option A) e : permitted e -> tame (require o e : M S LedgerErr A).
Proof. intros He. destruct o; [apply tame_ret|by apply tame_throw]. Qed.
Lemma tame_lift {S A} (r : result LedgerErr A) : (forall e, r = Err e -> permitted e) -> tame (lift_result r : M S LedgerErr A).
Proof. intros Hr s _. destruct r; [done|by apply Hr]. Qed.
Lemma tame_catch {S A} (m : M S LedgerErr A) h : tame m -> (forall e, permitted e -> tame (h e)) -> tame (try_catch m h).
Proof.
  intros Hm Hh s _. unfold try_catch. specialize (Hm s I). destruct (m s) as [[a|e] s']; [done|]. exact (Hh e Hm s' I).
Qed.
Lemma tame_for_each {S A B} (f : A -> M S LedgerErr B) l : (forall x, tame (f x)) -> tame (for_each f l).
Proof. intros Hf. induction l; simpl; [apply tame_ret|]. apply tame_bind; [done|intros]. apply tame_bind; [done|intros; apply tame_ret]. Qed.
Lemma tame_atomically {A} (m : DbM A) : tame m -> tame (atomically m).
Proof.
  intros Hm w _. unfold atomically. destruct (wothers w) as [|f fs]; [specialize (Hm (wdb w) I)|specialize (Hm (f (wdb w)) I)];
    destruct (m _) as [[a|e] db']; done.
Qed.
Lemma integrity_permitted db id e : assert_journal_integrity db id = Some e -> permitted e.
Proof.
  unfold assert_journal_integrity. intros H. apply internal_permitted. intros c m s ->. repeat case_match; simplify_eq.
Qed.
Lemma tame_transaction {A} (m : DbM A) : tame m -> tame (transaction commit_checks m).
Proof.
  intros Hm db _. unfold transaction. specialize (Hm db I). destruct (m db) as [[a|e] db']; [|done].
  destruct (commit_checks db db') as [e|] eqn:He; [|done].
  unfold commit_checks in He. destruct (omap _ _) as [|x l] eqn:Hl; [done|]. injection He as ->.
  assert (Hin : e ∈ e :: l) by left. rewrite <- Hl in Hin. apply list_elem_of_omap in Hin as (id & _ & He).
  by eapply integrity_permitted.
Qed.
Create HintDb tame.
#[export] Hint Resolve tame_ret tame_gets tame_get tame_modify tame_atomically tame_transaction : tame.
(** A refusal in the list, or an error of the database or of JavaScript. *)
Ltac permit := first [by apply internal_permitted | unfold permitted; apply list_elem_of_In; cbn; tauto].
#[export] Hint Extern 1 (permitted _) => permit : tame.
#[export] Hint Extern 1 (tame (throw _)) => apply tame_throw : tame.
#[export] Hint Extern 1 (tame (throw_when _ _)) => apply tame_throw_when : tame.
#[export] Hint Extern 1 (tame (require _ _)) => apply tame_require : tame.
(** Step through the binds and cases of a computation. *)
Ltac tame_steps :=
  repeat (cbn zeta; match goal with
  | |- tame (_ ≫= _) => apply tame_bind; [|intros]
  | |- tame (match ?x with _ => _ end) => destruct x
  | |- tame (for_each _ _) => apply tame_for_each; intros
  | |- tame _ => solve [auto 3 with tame]
  | |- permitted _ => permit
  end).

Section Tame.
Context {zod : Zod} {crypto : Crypto} {pg : Postgres}.
Variable config : LedgerConfig.
Variable now : Z.

Lemma fresh_tame : tame fresh_uuid.
Proof. by intros db. Qed.
#[local] Hint Resolve fresh_tame : tame.
Lemma execute_tame {T} scope key payload (run : DbM T) encode decode : tame run -> tame (execute config now scope key payload run encode decode).
Proof.
  intros Hrun. unfold execute. cbn zeta. apply tame_bind; [auto with tame|intros h].
  assert (Hs : forall c, tame (replayIfSettled scope decode (sha256 key) h c)) by (intros c; unfold replayIfSettled; tame_steps).
  apply tame_bind; [by apply tame_atomically|intros [o|]; [apply tame_ret|]].
  apply tame_catch.
  - apply tame_bind; [|intros; apply tame_ret]. apply tame_atomically, tame_transaction.
    unfold create_record, complete_record, unique_check. tame_steps.
  - intros e He. destruct (negb _); [by apply tame_throw|]. apply tame_bind; [by apply tame_atomically|intros [o|]; tame_steps].
Qed.
Lemma project_permitted ps m e : project ps m = Err e -> permitted e.
Proof. revert m. induction ps as [|p ps IH]; intros m; [done|]. cbn [project]. destruct (jget _ m); [apply IH|]. intros [= <-]. permit. Qed.
Lemma postable_permitted l cur e : assertPostableAccounts l cur = Err e -> permitted e.
Proof. induction l as [|a l IH]; [done|]. cbn. destruct (negb _); [intros [= <-]; permit|done]. Qed.
Lemma post_tame r corr actor : tame (Journal.post config now r corr actor).
Proof.
  unfold Journal.post. apply tame_bind; [auto with tame|intros ps]. apply tame_bind; [auto with tame|intros total].
  apply tame_bind; [|intros; apply tame_ret]. apply execute_tame.
  unfold post_run, lockAccounts, create_entry, create_posting, update_projection, unique_check, db_check.
  tame_steps; apply tame_lift; intros e; [apply postable_permitted|apply project_permitted].
Qed.
#[local] Hint Resolve post_tame : tame.
Lemma row_tame db c : tame (require (account_row db c) (DbError "inconsistent join") : DbM AccountRow).
Proof. auto with tame. Qed.
Lemma balanceMinor_permitted row e : balanceMinor row = Err e -> permitted e.
Proof. unfold balanceMinor. destruct (row_projection row); [done|]. intros [= <-]. permit. Qed.
Lemma detail_permitted row e : toDetail row = Err e -> permitted e.
Proof.
  unfold toDetail. destruct (balanceMinor row) as [b|e'] eqn:Hb; [done|]. intros [= <-]. by eapply balanceMinor_permitted.
Qed.
Lemma createAccount_tame draws customerId productType cur : tame (createAccount now draws customerId productType cur).
Proof.
  unfold createAccount. induction (seq 0 MAX_REFERENCE_ATTEMPTS) as [|n l IH]; cbn [createAccount_loop]; [auto with tame|].
  unfold find_customer, create_ledger_account, create_customer_account, select_row, unique_check, db_check.
  tame_steps.
Qed.
Lemma provision_tame draws i : tame (provisionDefault config now draws i).
Proof.
  unfold provisionDefault. cbn zeta. apply tame_bind; [|intros; apply tame_ret]. apply execute_tame.
  unfold provision_run, find_customer, select_row.
  tame_steps; try (apply tame_lift; apply detail_permitted). apply createAccount_tame.
Qed.
Lemma resolve_tame i : tame (resolve i).
Proof. unfold resolve, find_owned, find_reference. tame_steps. Qed.
Lemma balance_permitted a e : balance a = Err e -> permitted e.
Proof. unfold balance. destruct (ac_projection a); [done|]. intros [= <-]. permit. Qed.
Lemma preview_tame i : tame (CustomerTransfer.preview i).
Proof. unfold CustomerTransfer.preview. apply tame_bind; [apply resolve_tame|intros [s r]]. tame_steps. apply tame_lift, balance_permitted. Qed.
Lemma transfer_tame i corr : tame (CustomerTransfer.transfer config now i corr).
Proof.
  unfold CustomerTransfer.transfer, find_projection. cbn zeta. apply tame_bind; [apply resolve_tame|intros [s r]].
  tame_steps; first [apply tame_lift, balance_permitted|apply tame_atomically; tame_steps].
Qed.
Lemma channels_tame :
  (forall i corr, tame (qrPayment config now i corr)) /\ (forall i corr, tame (agentCashIn config now i corr)) /\
  (forall i corr, tame (agentCashOut config now i corr)).
Proof.
  unfold qrPayment, agentCashIn, agentCashOut, getCustomerAccount, getSystemAccount.
  split; [|split]; intros; tame_steps; apply tame_lift, balance_permitted.
Qed.
Lemma page_permitted query items e : page_of query items = Err e -> permitted e.
Proof.
  unfold page_of. assert (Hd : forall f e, decodeCursor (hq_cursor query) f = Err e -> e = cursorError).
  { intros f e'. unfold decodeCursor. repeat case_match; intros; simplify_eq; done. }
  destruct (decodeCursor _ _) as [c|e'] eqn:Hc; cbn; [|intros [= <-]; rewrite (Hd _ _ Hc); permit].
  destruct c as [c|]; cbn; [|done]. destruct (findIndex _ _); cbn; [done|]. intros [= <-]. permit.
Qed.
Lemma reads_tame :
  (forall c, tame (listForCustomer c)) /\ (forall c id, tame (getForCustomer c id)) /\ (forall c id, tame (getBalanceForCustomer c id)) /\
  (forall c id query, tame (list_transactions c id query)) /\ (forall c id t, tame (Transactions.detail c id t)).
Proof.
  unfold listForCustomer, getForCustomer, getBalanceForCustomer, requireOwnedAccount, find_customer, select_row, list_transactions,
    Transactions.detail, history, account.
  repeat split; intros; tame_steps; apply tame_lift; intros e; [apply detail_permitted|apply balanceMinor_permitted|apply page_permitted].
Qed.
Lemma reconcile_tame corr : tame (run_reconciliation now corr).
Proof.
  unfold run_reconciliation, count, limited, create_run, unique_check, db_check.
  tame_steps; apply tame_atomically; tame_steps.
Qed.
End Tame.

(** ** A refusal leaves the ledger as it was *)
Section Refusals.
Context {zod : Zod} {crypto : Crypto} {pg : Postgres}.
Variable config : LedgerConfig.
Variable now : Z.
Variable draws : nat -> nat -> nat.
Variable postgres_up : bool.
Abbreviation serving := (handle_ledger config now draws postgres_up).
Abbreviation serve_http := (ledger_serve config now draws postgres_up).

Lemma reads_frame P :
  (forall c, preserves P (listForCustomer c)) /\ (forall c id, preserves P (getForCustomer c id)) /\
  (forall c id, preserves P (getBalanceForCustomer c id)) /\ (forall c id query, preserves P (list_transactions c id query)) /\
  (forall c id t, preserves P (Transactions.detail c id t)) /\ preserves P latest.
Proof.
  unfold listForCustomer, getForCustomer, getBalanceForCustomer, requireOwnedAccount, find_customer, select_row, list_transactions,
    Transactions.detail, history, account, latest.
  repeat split; intros; repeat match goal with
  | |- preserves _ (_ ≫= _) => apply preserves_bind; [|intros]
  | |- preserves _ get => by intros ?
  | |- preserves _ _ => solve [auto 3 with preserve]
  end.
Qed.
Section From.
Variable db : LedgerDb.
(** [m] reads; [m] may write when it returns. *)
Definition reading {A} (m : LedgerM A) : Prop := preserves (eq (quiet db)) m.
Definition clean {A} (m : LedgerM A) : Prop := triple (eq (quiet db)) m (fun _ _ => True) (fun _ => eq (quiet db)).

Lemma reading_atomically {A} (m : DbM A) : preserves (eq db) m -> reading (atomically m).
Proof. intros Hm w <-. rewrite atomically_quiet. specialize (Hm db eq_refl). destruct (m db) as [[a|e] db']; by subst. Qed.
Lemma reading_clean {A} (m : LedgerM A) : reading m -> clean m.
Proof. intros Hm w Hw. specialize (Hm w Hw). by destruct (m w) as [[a|e] w']. Qed.
Lemma clean_after {A B} (m : LedgerM A) (k : A -> LedgerM B) : reading m -> (forall a, clean (k a)) -> clean (m ≫= k).
Proof. intros Hm Hk. by eapply triple_bind; [apply Hm|intros a; apply Hk]. Qed.
Lemma clean_replies {A} status (show : A -> json) (m : LedgerM A) : clean m -> clean (replies status show m).
Proof. intros Hm. eapply triple_bind; [apply Hm|]. intros a. by apply triple_ret. Qed.
Lemma clean_run {A} (m : LedgerM A) : (forall e w', m (quiet db) = (Err e, w') -> w' = quiet db) -> clean m.
Proof. intros Hm w <-. destruct (m (quiet db)) as [[a|e] w'] eqn:H; [done|]. symmetry. by eapply Hm. Qed.
#[local] Hint Resolve reading_atomically : preserve.
Ltac read_steps :=
  unfold reading, parseInput in *; repeat (cbn zeta; match goal with
  | |- preserves _ (_ ≫= _) => apply preserves_bind; [|intros]
  | |- preserves _ (match ?x with _ => _ end) => destruct x
  | |- preserves _ (atomically _) => apply reading_atomically
  | |- preserves _ _ => solve [auto 3 with preserve | by intros ? ->]
  end).

Lemma post_clean r corr actor : clean (Journal.post config now r corr actor).
Proof. apply clean_run. intros e w'. apply post_err. Qed.
Lemma provision_clean i : clean (provisionDefault config now draws i).
Proof.
  apply clean_run. intros e w' H. unfold provisionDefault in H. cbn zeta in H. apply bind_Err_inv in H as [H|(o & w1 & _ & H)]; [|done].
  by eapply execute_err.
Qed.
Lemma reads_reading :
  (forall c, reading (atomically (listForCustomer c))) /\ (forall c id, reading (atomically (getForCustomer c id))) /\
  (forall c id, reading (atomically (getBalanceForCustomer c id))) /\ (forall c id query, reading (atomically (list_transactions c id query))) /\
  (forall c id t, reading (atomically (Transactions.detail c id t))) /\ reading (atomically latest).
Proof. destruct (reads_frame (eq db)) as (R1 & R2 & R3 & R4 & R5 & R6). repeat split; intros; by apply reading_atomically. Qed.
Lemma channel_reads_reading : (forall i, reading (resolve i)) /\ (forall i, reading (CustomerTransfer.preview i)) /\
  (forall r, reading (resolveAccountByReference r)) /\ (forall i, reading (getCustomerAccount i)) /\
  (forall t c, reading (getSystemAccount t c)).
Proof.
  assert (Hr : forall i, reading (resolve i)) by (intros i; unfold resolve, find_owned, find_reference; read_steps).
  split; [done|]. unfold CustomerTransfer.preview, resolveAccountByReference, getCustomerAccount, getSystemAccount.
  repeat split; intros; read_steps.
Qed.
Lemma channels_clean : (forall i corr, clean (qrPayment config now i corr)) /\ (forall i corr, clean (agentCashIn config now i corr)) /\
  (forall i corr, clean (agentCashOut config now i corr)).
Proof.
  destruct channel_reads_reading as (_ & _ & _ & Hc & Hs). unfold qrPayment, agentCashIn, agentCashOut.
  assert (Hp : forall r corr actor, clean (j ← Journal.post config now r corr actor; mret (jres_id j))).
  { intros. eapply triple_bind; [apply post_clean|]. intros. by apply triple_ret. }
  repeat split; intros; repeat (cbn zeta; first [apply Hp|apply clean_after; [first [apply Hc|apply Hs|unfold reading; auto with preserve]|intros]]).
Qed.

(** Every table but the runs of the reconciliation. *)
Record same_books (db' : LedgerDb) : Prop := {
  sb_accounts : ledgerAccounts db' = ledgerAccounts db;
  sb_projections : balanceProjections db' = balanceProjections db;
  sb_customers : customerAccounts db' = customerAccounts db;
  sb_entries : journalEntries db' = journalEntries db;
  sb_postings : journalPostings db' = journalPostings db;
  sb_records : idempotencyRecords db' = idempotencyRecords db
}.
Definition still_books (w : World) : Prop := wothers w = [] /\ same_books (wdb w).
Lemma books_refl : still_books (quiet db).
Proof. by split. Qed.
Lemma books_atomically {A} (m : DbM A) : preserves same_books m -> preserves still_books (atomically m).
Proof.
  intros Hm [d others] [Ho Hd]. cbn in Ho, Hd. subst others. unfold atomically. cbn. specialize (Hm d Hd).
  by destruct (m d) as [[a|e] d'].
Qed.
Lemma reconcile_books corr : preserves still_books (run_reconciliation now corr).
Proof.
  assert (Hc : preserves same_books (fun db => (Ok (uuid (uuidCounter db)), set_uuid N.succ db) : result LedgerErr string * LedgerDb)).
  { by intros d []. }
  unfold run_reconciliation, count, limited, create_run, fresh_uuid, unique_check, db_check.
  repeat (cbn zeta; apply preserves_bind; [apply books_atomically|intros]); auto with preserve.
  do 2 (apply preserves_bind; [first [exact Hc|by intros d]|intros]).
  do 2 (apply preserves_bind; [auto with preserve|intros]).
  apply preserves_bind; [by intros d []|auto with preserve].
Qed.
End From.

Lemma handle_clean db route q corr channel : LedgerInv db -> route <> PostReconciliation -> clean db (serving route q corr channel).
Proof.
  intros Hinv Hroute. destruct (channel_reads_reading db) as (_ & Hp & Hr & _ & _). destruct (reads_reading db) as (R1 & R2 & R3 & R4 & R5 & R6).
  destruct (channels_clean db) as (C1 & C2 & C3).
  assert (Hparse : forall A (o : option A), reading db (parseInput o)) by (intros; apply preserves_require).
  destruct route; try done; cbn [handle_ledger]; autounfold with handlers;
    repeat match goal with
    | |- clean _ (replies _ _ _) => apply clean_replies
    | |- clean _ (mret _) => by apply triple_ret
    | |- clean _ (_ ≫= _) => apply clean_after; [first [apply Hparse|apply R6|apply preserves_require]|intros]
    end; first [apply provision_clean|apply post_clean|apply reading_clean; solve [auto]|solve [auto]|idtac].
  apply clean_run. intros e w'. by apply transfer_refused.
Qed.
Lemma handle_tame route q corr channel : tame (serving route q corr channel).
Proof.
  destruct reads_tame as (R1 & R2 & R3 & R4 & R5). destruct (channels_tame config now) as (C1 & C2 & C3).
  destruct route; cbn [handle_ledger]; autounfold with handlers;
    unfold replies, path_uuid, customer_header, parseInput, stored_run, CustomerTransfer.resolveAccountByReference; tame_steps;
    first [apply provision_tame|apply post_tame|apply reconcile_tame|apply preview_tame|apply transfer_tame|idtac].
  apply tame_atomically, tame_gets.
Qed.
Lemma handle_keeps_inv route q corr channel : preserves (world_inv LedgerInv) (serving route q corr channel).
Proof.
  destruct (reads_frame LedgerInv) as (R1 & R2 & R3 & R4 & R5 & R6).
  destruct route; cbn [handle_ledger]; autounfold with handlers;
    unfold replies, path_uuid, customer_header, parseInput, stored_run, CustomerTransfer.resolveAccountByReference;
    repeat match goal with
    | |- preserves _ (_ ≫= _) => apply preserves_bind; [|intros]
    | |- preserves _ _ => solve [auto 3 with preserve]
    end;
    first [apply provision_keeps_inv|apply post_keeps_inv|apply reconciliation_keeps_inv|apply transfer_keeps_inv|apply qrPayment_keeps_inv
          |apply agentCashIn_keeps_inv|apply agentCashOut_keeps_inv|idtac].
  apply preserves_bind; [apply resolve_inv|intros [s r]]. apply preserves_bind; auto with preserve.
Qed.

#[local] Instance route_eq_dec : EqDecision LedgerRoute.
Proof. unfold EqDecision, Decision. intros. repeat decide equality. Defined.
Lemma handle_status route q corr channel w status v w' : serving route q corr channel w = (Ok (status, v), w') -> route <> GetReady ->
  status = 200 \/ status = 201.
Proof.
  intros H Hr. destruct route; try done; cbn [handle_ledger] in H; autounfold with handlers in H; unfold replies in H; run; auto.
Qed.

(** C16: whatever request reaches the Ledger over HTTP, with whatever headers,
    query and body, the ledger keeps its invariant; and an answer that is no
    success leaves every table as it was, but for the run that a
    reconciliation may have stored, and is either one error document whose
    status, code and message are in a closed list, or the readiness document
    under status 503 that tells an authorised caller of a database that is
    down. *)
Theorem ledger_refusal_safe route q fresh fresh' db reply w' : LedgerInv db ->
  serve_http route q fresh fresh' (quiet db) = (reply, w') ->
  LedgerInv (wdb w') /\
  (reply_ok reply = false ->
   same_books db (wdb w') /\ (route <> Some PostReconciliation -> w' = quiet db) /\
   ((exists e, e ∈ ledger_refusals /\ reply = error_reply (ledger_correlation q fresh) e) \/
    route = Some GetReady /\ postgres_up = false /\ ledger_canActivate config false (lq_token q) = true /\
    reply = mkHttpReply 503 (Some (ready_json false)))).
Proof.
  intros Hinv. unfold ledger_serve. destruct route as [r|].
  2:{ intros [= <- <-]. split; [done|]. intros _. repeat split. left. exists (http_filter 404). split; [permit|done]. }
  destruct (ledger_canActivate config (public_route r) (lq_token q)) eqn:Hguard; cbn [negb].
  2:{ intros [= <- <-]. split; [done|]. intros _. repeat split. left. exists (http_filter 401). split; [permit|done]. }
  set (corr := ledger_correlation q fresh). set (channel := channel_correlation q fresh').
  pose proof (handle_keeps_inv r q corr channel (quiet db)) as Hk. pose proof (handle_tame r q corr channel (quiet db) I) as Ht.
  assert (Hc : r <> PostReconciliation -> clean db (serving r q corr channel)) by (intros; by apply handle_clean).
  assert (Hb : r = PostReconciliation -> preserves (still_books db) (serving r q corr channel)).
  { intros ->. cbn [handle_ledger]. unfold post_reconciliation. apply preserves_bind; [apply reconcile_books|intros run].
    apply preserves_bind; [apply preserves_require|auto with preserve]. }
  assert (Hw : world_inv LedgerInv (quiet db)) by (split; [done|constructor]). specialize (Hk Hw).
  destruct (serving r q corr channel (quiet db)) as [[[status v]|e] w1] eqn:Hh.
  - intros [= <- <-]. split; [apply Hk|]. intros Hno. destruct (decide (r = GetReady)) as [->|Hr].
    + cbn [handle_ledger] in Hh. unfold get_ready in Hh. injection Hh as <- <- <-. split; [apply books_refl|]. split; [done|]. right.
      destruct postgres_up; [done|]. by repeat split.
    + exfalso. by destruct (handle_status _ _ _ _ _ _ _ _ Hh Hr) as [-> | ->].
  - intros [= <- <-]. split; [apply Hk|]. intros _. split; [|split].
    + destruct (decide (r = PostReconciliation)) as [Hr|Hr].
      * specialize (Hb Hr (quiet db) (books_refl db)). rewrite Hh in Hb. apply Hb.
      * specialize (Hc Hr (quiet db) eq_refl). rewrite Hh in Hc. by subst w1.
    + intros Hr. assert (Hr' : r <> PostReconciliation) by congruence. specialize (Hc Hr' (quiet db) eq_refl). by rewrite Hh in Hc.
    + left. exists (ledger_filter e). split; [exact Ht|done].
Qed.
End Refusals.
