(* ===== verification/WalletReads.v ===== *)
(** * The gateway and the Ledger joined: what a browser reads of its accounts

    The services behind the gateway are the HTTP server of [LedgerHttp], over a
    network that may lose a request or its answer, and any others. *)

From Stdlib Require Import ZArith Lia Ascii String.
From stdpp Require Import base strings list gmap.
From S2P Require Import Prelude.
From S2P Require Import Js.
From S2P Require Import JsNumber.
From S2P Require Import Regex.
From S2P Require Import Contracts.
From S2P Require Import Security.
From S2P Require Import RiskService.
From S2P Require Import LedgerDb.
From S2P Require Import Idempotency.
From S2P Require Import Journal.
From S2P Require Import JournalProofs.
From S2P Require Import JournalProperties.
From S2P Require Import Accounts.
From S2P Require Import CustomerTransfer.
From S2P Require Import Transactions.
From S2P Require Import SabclWire.
From S2P Require Import SabclCrypto.
From S2P Require Import SabclServices.
From S2P Require Import Schemas.
From S2P Require Import WireContracts.
From S2P Require Import GatewayHttp.
From S2P Require Import Gateway.
From S2P Require Import GatewayRoutes.
From S2P Require Import GatewayServer.
From S2P Require Import GatewayProofs.
From S2P Require Import GatewayProperties.
From S2P Require Import Settings.
From S2P Require Import LedgerHttp.

Open Scope Z_scope.

(** The Ledger's router: the route and the query of a method, path and body.
    The laws are what the decorators of its controllers declare. *)
Class LedgerRouting {zod : Zod} := {
  ledger_route : string -> string -> json -> option (LedgerRoute * json);
  routes_accounts : forall id, z_uuid id = true ->
    exists q, ledger_route "GET" (LEDGER_ENDPOINTS.customerAccounts id) JUndef = Some (GetAccounts id, q);
  routes_account : forall id, z_uuid id = true ->
    exists q, ledger_route "GET" (LEDGER_ENDPOINTS.customerAccount id) JUndef = Some (GetAccount id, q);
  routes_balance : forall id, z_uuid id = true ->
    exists q, ledger_route "GET" (LEDGER_ENDPOINTS.customerAccountBalance id) JUndef = Some (GetBalance id, q);
  routes_transaction : forall id t, z_uuid id = true -> z_uuid t = true ->
    exists q, ledger_route "GET" (LEDGER_ENDPOINTS.customerTransaction id t) JUndef = Some (GetTransaction id t, q)
}.
(** An identifier goes through a header as it is. *)
Class HeaderSafe {zod : Zod} := header_safe : forall id, z_uuid id = true -> id <> ""%string /\ header_value id = Some id /\ trim id = id.

Section Joined.
Context {Rest : Type} {zod : Zod} {crypto : Crypto} {pg : Postgres} {rest : Upstreams Rest} {routing : LedgerRouting} {safe : HeaderSafe}.
Variable ledger_config : LedgerConfig.
Variable ledger_now : Z.
Variable draws : nat -> nat -> nat.
Variable postgres_up : bool.
(** Which requests to the Ledger get lost, and which answers; the identifiers
    that its middleware makes for a call. *)
Variables request_lost answer_lost : GwCall -> bool.
Variables fresh fresh' : GwCall -> string.

Record Joined := mkJoined { jn_ledger : World; jn_rest : Rest }.
Definition http_request (c : GwCall) (query : json) : LedgerHttpRequest :=
  mkLedgerHttpRequest (jget "x-aegis-internal-token" (gc_headers c)) (jget "x-aegis-customer-id" (gc_headers c))
    (jget "x-correlation-id" (gc_headers c)) query (default JUndef (gc_body c)).
Definition ask_ledger (c : GwCall) (w : World) : HttpReply * World :=
  let matched := ledger_route (gc_method c) (gc_path c) (default JUndef (gc_body c)) in
  ledger_serve ledger_config ledger_now draws postgres_up (fst <$> matched) (http_request c (from_option snd (JObj []) matched)) (fresh c) (fresh' c) w.
#[local] Instance joined : Upstreams Joined := {|
  fetch c env :=
    if decide (gc_to c = ToLedger) then
      if request_lost c then (None, env)
      else let '(reply, w) := ask_ledger c (jn_ledger env) in
           (if answer_lost c then None else Some reply, mkJoined w (jn_rest env))
    else let '(reply, e) := fetch c (jn_rest env) in (reply, mkJoined (jn_ledger env) e);
  sabcl_send c env := let '(reply, e) := sabcl_send c (jn_rest env) in (reply, mkJoined (jn_ledger env) e)
|}.

Variable config : GatewayConfig.

(** ** What a customer's own reading of the Ledger shows *)
Definition read_view {A} (show : A -> json) (m : DbM A) (db : LedgerDb) : option json :=
  match (m db).1 with Ok a => Some (show a) | Err _ => None end.
Definition wallet_view (a : AccountsRoute) (customerId : string) : LedgerDb -> option json :=
  match a with
  | ListAccounts => read_view accounts_json (listForCustomer customerId)
  | AccountDetail id => read_view account_json (getForCustomer customerId id)
  | AccountBalance id => read_view balance_json (getBalanceForCustomer customerId id)
  | AccountTransaction id t => read_view transaction_json (Transactions.detail customerId id t)
  | ProvisionDefault | AccountTransactions _ => fun _ => None
  end.
Definition is_read (a : AccountsRoute) : bool := match a with ProvisionDefault | AccountTransactions _ => false | _ => true end.

(** ** Everything but a call to the Ledger leaves it alone *)
Section From.
Variable w : World.
Definition keeps {A} (m : M (GwState Joined) GwErr A) : Prop := preserves (fun s => jn_ledger (gs_env s) = w) m.
Lemma call_keeps to method path headers body : to <> ToLedger -> keeps (call to method path headers body).
Proof.
  intros Hto. unfold call. destruct (sent_headers headers) as [hs|]; [|apply preserves_ret]. intros s Hs. unfold network. cbn [fetch joined gc_to].
  rewrite decide_False by done. destruct (fetch _ (jn_rest _)). done.
Qed.
Lemma identity_keeps endpoint method r body sid token : keeps (identity_request config endpoint method r body sid token).
Proof.
  unfold identity_request. apply preserves_bind; [by apply call_keeps|intros reply].
  apply preserves_bind; [auto with preserve|intros rep]. apply preserves_bind; auto with preserve.
Qed.
Lemma resolve_keeps r : keeps (Gateway.resolve config r).
Proof.
  unfold Gateway.resolve, cookie. do 2 (apply preserves_bind; [auto with preserve|intros ?]).
  apply preserves_bind; [apply identity_keeps|intros v]. apply preserves_bind; auto with preserve.
Qed.
End From.
Lemma resolve_uuid r s customerId s' : Gateway.resolve config r s = (Ok customerId, s') -> z_uuid customerId = true.
Proof.
  unfold Gateway.resolve. intros H. apply bind_Ok_inv in H as (sid & s1 & _ & H). apply bind_Ok_inv in H as (? & s2 & _ & H).
  apply bind_Ok_inv in H as (v & s3 & _ & H). apply bind_Ok_inv in H as (u & s4 & Hu & H).
  unfold require in Hu, H. destruct (sessionResponseSchema v) as [u'|] eqn:Hv; [|done]. injection Hu as -> <-.
  destruct (text_field "id" (jfield "user" u)) as [id|] eqn:Hid; [|done]. injection H as -> <-. by eapply resolved_uuid.
Qed.

(** ** One reading over HTTP *)
Abbreviation serving := (handle_ledger ledger_config ledger_now draws postgres_up).
Lemma permitted_fails corr e : permitted e -> reply_ok (error_reply corr (ledger_filter e)) = false.
Proof.
  unfold permitted, error_reply, reply_ok. cbn [hp_status]. generalize (ledger_filter e) as t. intros t Ht%list_elem_of_In.
  cbn in Ht. repeat (destruct Ht as [<-|Ht]; [done|]). done.
Qed.
Lemma served_read route q f f' db reply w' : (forall corr channel, reading db (serving route q corr channel)) ->
  ledger_serve ledger_config ledger_now draws postgres_up (Some route) q f f' (quiet db) = (reply, w') ->
  w' = quiet db /\
  (reply_ok reply = true -> exists corr channel status doc,
     serving route q corr channel (quiet db) = (Ok (status, doc), quiet db) /\ hp_body reply = Some doc).
Proof.
  intros Hread. unfold ledger_serve. destruct (negb _); [by intros [= <- <-]|].
  set (corr := ledger_correlation _ _). set (channel := channel_correlation _ _).
  pose proof (Hread corr channel (quiet db) eq_refl) as Hr. pose proof (handle_tame ledger_config ledger_now draws postgres_up route q corr channel (quiet db) I) as Ht.
  destruct (serving route q corr channel (quiet db)) as [[[status doc]|e] w1] eqn:Hh; subst w1; intros [= <- <-]; (split; [done|]).
  - intros _. by exists corr, channel, status, doc.
  - by rewrite permitted_fails.
Qed.
Lemma direct_read path (sch : schema) r who route query db s v s' :
  ledger_route "GET" path JUndef = Some (route, query) ->
  (forall q corr channel, lq_customer q = header_text who -> reading db (serving route q corr channel)) ->
  jn_ledger (gs_env s) = quiet db -> requestDirect (ledger config) path "GET" sch r JUndef who s = (Ok v, s') ->
  exists q corr channel status doc, lq_customer q = header_text who /\
    serving route q corr channel (quiet db) = (Ok (status, doc), quiet db) /\ sch doc = Some v /\ jn_ledger (gs_env s') = quiet db.
Proof.
  intros Hroute Hread Hs. unfold requestDirect. intros (reply & s1 & Hcall & H)%bind_Ok_inv.
  apply bind_Ok_inv in H as (rep & s2 & Hrep & H). apply bind_Ok_inv in H as (? & s3 & Hok & H).
  unfold require in Hrep. destruct reply as [rep'|]; [|done]. injection Hrep as -> <-.
  unfold call in Hcall. destruct (sent_headers _) as [hs|] eqn:Hhs; [|done]. unfold network in Hcall. cbn [fetch joined gc_to dc_to ledger] in Hcall.
  rewrite decide_True in Hcall by done. destruct (request_lost _); [done|].
  unfold ask_ledger in Hcall. cbn [gc_method gc_path gc_body default] in Hcall. change (String.eqb "GET" "POST") with false in Hcall.
  cbn iota in Hcall. cbn [from_option] in Hcall. rewrite Hroute in Hcall. cbn [fmap option_fmap option_map fst snd from_option] in Hcall.
  rewrite Hs in Hcall. set (q := http_request _ query) in Hcall.
  assert (Hq : lq_customer q = header_text who).
  { unfold q. cbn [lq_customer http_request gc_headers]. by rewrite (jget_sent _ _ _ Hhs), !jget_headers, jget_present. }
  destruct (ledger_serve _ _ _ _ _ _ _ _ _) as [reply w'] eqn:Hserve. apply served_read in Hserve as [-> Hdoc]; [|by intros; apply Hread].
  destruct (answer_lost _); [done|]. injection Hcall as <- <-. unfold throw_when in Hok.
  destruct (reply_ok reply) eqn:Hrep; [|done]. injection Hok as <-. destruct (Hdoc eq_refl) as (corr & channel & status & doc & Hh & Hbody).
  exists q, corr, channel, status, doc. unfold accepted_body, body_of, require in H. rewrite Hbody in H. change (default JUndef (Some doc)) with doc in H.
  destruct (sch doc) as [v'|] eqn:Hsch; [|done]. injection H as -> <-. by subst s3.
Qed.
Lemma replied {A} status (show : A -> json) (m : DbM A) db st doc w :
  replies status show (atomically m) (quiet db) = (Ok (st, doc), w) -> read_view show m db = Some doc.
Proof.
  unfold replies. intros (a & w1 & Ha & H)%bind_Ok_inv. rewrite atomically_quiet in Ha. injection H as _ <- _. injection Ha as Ha _.
  unfold read_view. by rewrite Ha.
Qed.
Lemma header_arrives q customerId : z_uuid customerId = true -> lq_customer q = header_text (Some customerId) ->
  customer_header q = mret customerId.
Proof.
  intros Hu Hq. destruct (header_safe customerId Hu) as (Hne & Hh & Ht). unfold customer_header, parseInput. rewrite Hq.
  unfold header_text, truthy_string. destruct (String.eqb_spec customerId ""); [done|]. cbn [mbind option_bind].
  rewrite Hh. cbn. unfold checked. by rewrite Ht, Hu.
Qed.
Lemma path_arrives id : z_uuid id = true -> path_uuid id = mret id.
Proof. intros Hid. unfold path_uuid, parseInput, checked. by rewrite Hid. Qed.
Lemma account_id_ok id (s : GwState Joined) v s' : account_id id s = (Ok v, s') -> v = id /\ z_uuid id = true /\ s' = s.
Proof. unfold account_id, require, checked. destruct (z_uuid id); [|done]. by intros [= <- <-]. Qed.

Lemma customer_read {A} path (sch : schema) r who route query (show : A -> json) m db s v s' :
  ledger_route "GET" path JUndef = Some (route, query) ->
  (forall q corr channel, lq_customer q = header_text who -> serving route q corr channel = replies 200 show (atomically m)) ->
  preserves (eq db) m -> jn_ledger (gs_env s) = quiet db -> requestDirect (ledger config) path "GET" sch r JUndef who s = (Ok v, s') ->
  exists doc, read_view show m db = Some doc /\ sch doc = Some v /\ jn_ledger (gs_env s') = quiet db.
Proof.
  intros Hroute Hh Hm Hs H. eapply direct_read in H as (q & corr & channel & status & doc & Hq & Hdoc & Hsch & Hw); [|exact Hroute| |done].
  - rewrite (Hh q corr channel Hq) in Hdoc. exists doc. split_and!; [by eapply replied|done|done].
  - intros q' corr' channel' Hq'. rewrite (Hh q' corr' channel' Hq'). unfold reading, replies.
    apply preserves_bind; [by apply reading_atomically|auto with preserve].
Qed.

Lemma balance_accepted b v : accountBalanceSchema (balance_json b) = Some v ->
  v = balance_json (mkAccountBalance (ab_accountId b) (mkMoney (trim (currency (ab_balance b))) (minorUnits (ab_balance b))) (ab_updatedAt b)).
Proof.
  destruct b as [id [cur minor] at_]. unfold accountBalanceSchema, balance_json, money_json. cbn.
  unfold currencyCodeSchema, z_regex, trim. intros H.
  destruct (checked z_uuid id) as [id'|] eqn:Hid; [|done]. destruct (rx_match _ _); [|done].
  destruct (signedMinorUnitsSchema minor) as [m|] eqn:Hm; [|done]. destruct (checked z_datetime at_) as [t|] eqn:Ht; [|done].
  cbn in H. injection H as <-. unfold checked in Hid, Ht. unfold signedMinorUnitsSchema, z_regex in Hm. by repeat case_match; simplify_eq.
Qed.
Lemma own_balance customerId id db b : LedgerInv db -> (getBalanceForCustomer customerId id db).1 = Ok b ->
  exists c, c ∈ customerAccounts db /\ ca_id c = id /\ ca_customerId c = customerId /\ ab_accountId b = id /\
    let total := account_total db (ca_ledgerAccountId c) CREDIT - account_total db (ca_ledgerAccountId c) DEBIT in
    0 <= total /\ ab_balance b = mkMoney (ca_currency c) (serializeMinorUnits total).
Proof.
  intros Hinv. destruct (getBalanceForCustomer customerId id db) as [res db'] eqn:H. cbn [fst]. intros ->.
  unfold getBalanceForCustomer, requireOwnedAccount, find_customer, select_row in H. run.
  match goal with H : find _ _ = Some c |- _ => apply find_some_elem in H as [Hc [Hid%String.eqb_eq Hcust%String.eqb_eq]%andb_prop] end.
  destruct Hinv as [Hcore _]. destruct (inv_customers _ Hcore c Hc) as (la & Hla & Hclass & Hneg & _).
  unfold account_row in Ho. rewrite Hla in Ho. cbn in Ho. injection Ho as <-. unfold balanceMinor in Hr. cbn in Hr.
  destruct (balanceProjections db !! ca_ledgerAccountId c) as [p|] eqn:Hp; [|done]. injection Hr as <-.
  destruct (inv_projections _ Hcore _ _ Hp) as [Hd Hcr]. pose proof (inv_nonneg _ Hcore _ _ _ Hla Hp Hneg) as Hpos.
  rewrite Hclass, Hd, Hcr in *. exists c. split_and!; done.
Qed.
(** What a reading route answers is the document of the customer's own reading
    of the Ledger, as the contract of the route accepts it. *)
Lemma wallet_reads a r db s v s' : is_read a = true -> jn_ledger (gs_env s) = quiet db ->
  handle_accounts config None a r s = (Ok v, s') ->
  exists customerId s1 doc sch, Gateway.resolve config r s = (Ok customerId, s1) /\ answer_contract (OnAccounts a) = Some sch /\
    wallet_view a customerId db = Some doc /\ sch doc = Some v /\ jn_ledger (gs_env s') = quiet db.
Proof.
  intros Ha Hs H. destruct (reads_frame (eq db)) as (R1 & R2 & R3 & _ & R5 & _).
  destruct a as [| |id|id|id|id t]; try done; cbn [handle_accounts] in H;
    unfold list_accounts, account_detail, account_balance, transaction_detail, ledger_request, domain_request in H;
    change (sabcl_enabled None) with false in H; cbn iota in H;
    apply bind_Ok_inv in H as (customerId & s1 & Hres & H);
    pose proof (resolve_keeps (quiet db) r s Hs) as Hkeep; rewrite Hres in Hkeep; pose proof (resolve_uuid _ _ _ _ Hres) as Hu;
    exists customerId, s1.
  - destruct (routes_accounts customerId Hu) as [query Hroute].
    eapply (customer_read _ _ _ _ _ _ accounts_json) in H as (doc & Hd & Hsch & Hw); [|exact Hroute| |apply R1|done].
    + by exists doc, customerAccountListSchema.
    + intros q corr channel _. cbn [handle_ledger]; autounfold with handlers. by rewrite path_arrives.
  - apply bind_Ok_inv in H as (? & s2 & (-> & Hid & ->)%account_id_ok & H). destruct (routes_account id Hid) as [query Hroute].
    eapply (customer_read _ _ _ _ _ _ account_json) in H as (doc & Hd & Hsch & Hw); [|exact Hroute| |apply R2|done].
    + by exists doc, customerAccountDetailSchema.
    + intros q corr channel Hq. cbn [handle_ledger]; autounfold with handlers. by rewrite (header_arrives q customerId), path_arrives.
  - apply bind_Ok_inv in H as (? & s2 & (-> & Hid & ->)%account_id_ok & H). destruct (routes_balance id Hid) as [query Hroute].
    eapply (customer_read _ _ _ _ _ _ balance_json) in H as (doc & Hd & Hsch & Hw); [|exact Hroute| |apply R3|done].
    + by exists doc, accountBalanceSchema.
    + intros q corr channel Hq. cbn [handle_ledger]; autounfold with handlers. by rewrite (header_arrives q customerId), path_arrives.
  - apply bind_Ok_inv in H as (? & s2 & (-> & Ht & ->)%account_id_ok & H). apply bind_Ok_inv in H as (? & s2 & Hcache & H).
    apply bind_Ok_inv in H as (? & s3 & (-> & Hid & ->)%account_id_ok & H). destruct (routes_transaction id t Hid Ht) as [query Hroute].
    assert (Hs2 : jn_ledger (gs_env s2) = quiet db) by (unfold cache, modify in Hcache; by simplify_eq).
    eapply (customer_read _ _ _ _ _ _ transaction_json) in H as (doc & Hd & Hsch & Hw); [|exact Hroute| |apply R5|done].
    + by exists doc, customerTransactionDetailSchema.
    + intros q corr channel Hq. cbn [handle_ledger]; autounfold with handlers. by rewrite (header_arrives q customerId), !path_arrives.
Qed.

(** Nor is the owner of an account ever refused its balance, while the network
    delivers, the gateway holds the Ledger's token and the document keeps to
    the contract. *)
Theorem owner_sees_balance id r db s s1 customerId b v : jn_ledger (gs_env s) = quiet db ->
  (forall c, request_lost c = false) -> (forall c, answer_lost c = false) ->
  is_Some (header_value (gq_correlationId r)) ->
  (exists t, header_value (ledgerInternalToken config) = Some t /\ ledger_canActivate ledger_config false (Some t) = true) ->
  Gateway.resolve config r s = (Ok customerId, s1) -> z_uuid id = true ->
  (getBalanceForCustomer customerId id db).1 = Ok b -> accountBalanceSchema (balance_json b) = Some v ->
  exists s', handle_accounts config None (AccountBalance id) r s = (Ok v, s').
Proof.
  intros Hs Hreq Hans [corr Hcorr] (t & Htok & Hadmit) Hres Hid Hb Hv.
  pose proof (resolve_keeps (quiet db) r s Hs) as Hkeep. rewrite Hres in Hkeep. pose proof (resolve_uuid _ _ _ _ Hres) as Hu.
  destruct (header_safe customerId Hu) as (Hne & Hh & Htrim). destruct (routes_balance id Hid) as [query Hroute].
  cbn [handle_accounts]. unfold account_balance, ledger_request, domain_request. change (sabcl_enabled None) with false. cbn iota.
  rewrite (bind_Ok _ _ _ _ _ _ _ Hres). unfold account_id, checked. rewrite Hid. cbn [require]. erewrite bind_Ok by done.
  unfold requestDirect. set (headers := json_headers ++ _).
  assert (Hsent : exists hs, sent_headers headers = Some hs /\ jget "x-aegis-internal-token" hs = Some t /\ jget "x-aegis-customer-id" hs = Some customerId).
  { unfold headers, json_headers, present, truthy_string. destruct (String.eqb_spec customerId ""); [done|]. unfold sent_headers. cbn.
    rewrite Htok, Hcorr, Hh. cbn. by eexists. }
  assert (Hcall : exists s2, call ToLedger "GET" (LEDGER_ENDPOINTS.customerAccountBalance id) headers JUndef s1 =
    (Ok (Some (mkHttpReply 200 (Some (balance_json b)))), s2)).
  { destruct Hsent as (hs & Hhs & Ht & Hc). unfold call, network. rewrite Hhs. cbn [fetch joined gc_to]. rewrite decide_True by done.
    rewrite Hreq, Hans. unfold ask_ledger. cbn [gc_method gc_path gc_body]. change (String.eqb "GET" "POST") with false. cbn iota. cbn [default].
    rewrite Hroute. cbn [fmap option_fmap option_map fst snd from_option]. rewrite Hkeep. unfold ledger_serve. set (q := http_request _ query).
    assert (Htoken : lq_token q = Some t) by exact Ht. assert (Hcust : lq_customer q = Some customerId) by exact Hc. cbn [public_route].
    rewrite Htoken, Hadmit. cbn [negb handle_ledger]. unfold get_balance. rewrite path_arrives by done.
    unfold customer_header, parseInput. rewrite Hcust. cbn [mbind option_bind]. unfold checked. rewrite Htrim, Hu. cbn [require].
    unfold replies, mbind, M_bind, mret, M_ret. rewrite atomically_quiet. rewrite Hb. by eexists. }
  destruct Hcall as [s2 Hcall]. exists s2. cbn [dc_to ledger]. rewrite (bind_Ok _ _ _ _ _ _ _ Hcall).
  cbn [require]. erewrite bind_Ok by done. erewrite bind_Ok by done. unfold accepted_body, body_of. cbn [hp_body].
  change (default JUndef (Some ?x)) with x. by rewrite Hv.
Qed.

(** C7: A balance that the gateway shows a browser, asking the Ledger directly
    over a network that may lose any message, is that of an account of the
    customer whom Identity named for the session: the credits less the debits of
    all postings on its ledger account, never negative. Showing it changes
    nothing in the Ledger. *)
Theorem shown_balance id r db s v s' : LedgerInv db -> jn_ledger (gs_env s) = quiet db ->
  handle_accounts config None (AccountBalance id) r s = (Ok v, s') ->
  jn_ledger (gs_env s') = quiet db /\
  exists customerId s1 c updatedAt, Gateway.resolve config r s = (Ok customerId, s1) /\
    c ∈ customerAccounts db /\ ca_id c = id /\ ca_customerId c = customerId /\
    let total := account_total db (ca_ledgerAccountId c) CREDIT - account_total db (ca_ledgerAccountId c) DEBIT in
    0 <= total /\ v = balance_json (mkAccountBalance id (mkMoney (trim (ca_currency c)) (serializeMinorUnits total)) updatedAt).
Proof.
  intros Hinv Hs H. apply (wallet_reads (AccountBalance id) r db) in H as (customerId & s1 & doc & sch & Hres & Hsch & Hview & Hv & Hw); [|done..].
  split; [done|]. injection Hsch as <-. cbn [wallet_view] in Hview. unfold read_view in Hview.
  destruct (getBalanceForCustomer customerId id db).1 as [b|e] eqn:Hb; [|done]. injection Hview as <-.
  destruct (own_balance _ _ _ _ Hinv Hb) as (c & Hc & Hid & Hcust & Habid & Htotal & Hbal).
  exists customerId, s1, c, (ab_updatedAt b). split_and!; [done..|]. rewrite (balance_accepted _ _ Hv), Habid, Hbal. done.
Qed.
End Joined.
